(* ===== verification/_CoqProject ===== *)
-Q . S2P
Prelude.v
RaftTypes.v
Storage.v
MemoryStorage.v
Endpoint.v
Session.v
F64.v
Snapshot.v
Handshake.v
Communication.v
Model.v
Consensus.v
Driver.v
DriverProps.v
Service.v
Policy.v
Budget.v
Crypto.v
AppAttestation.v
Ledger.v
LedgerActor.v
Counter.v
TabletStore.v
TabletCodecs.v
DriverTheorems.v
Replication.v
Cluster.v
ClusterTheorems.v
Agreement.v
CacheTypes.v
MetadataCache.v
MetadataTheorems.v
DataCache.v
DataTheorems.v
Coordinator.v
CoordinatorTheorems.v
BlobReads.v
TransactionReads.v
Serializable.v
Manager.v
KvStore.v
KvTheorems.v
CacheActor.v
CacheTheorems.v
CacheSystem.v
MetadataReads.v
CacheClients.v
Linearizable.v
CacheActorTheorems.v
Wire.v
SymbolicCrypto.v
Testing.v
TestMessages.v
Mocks.v
StorageTests.v
BudgetTests.v
TabletStoreTests.v
SnapshotTests.v
CryptoTests.v
PolicyTests.v
LedgerTests.v
HandshakeTests.v
CommunicationTests.v
DriverTests.v
CacheTests.v
