(* ===== verification/Prelude.v ===== *)
(** * A verification of the Trusted Computations Platform

    The platform runs a confidential replicated state machine: each replica is an
    enclave that keeps a Raft log in memory, transfers snapshots to lagging peers,
    talks to its peers over attested and encrypted channels, and drives an
    application actor that turns commands into replicated events.  This library
    models the parts of the Rust sources under [src/] listed below and proves what
    makes each of them correct.

    ** Files and the code they model

    - [Prelude] (this file): fixed-width integers, outcomes and results, slices,
      iteration orders of maps, protobuf codecs, shared tactics and lemmas.
    - [RaftTypes]: the messages of the Raft library the sources use.
    - [Storage]: [runtime/src/storage.rs] and the helpers of [runtime/src/util.rs].
      [MemoryStorageCore] is a record of the hard state, the snapshot, the entries
      and the pending peer requests; each method is a definition of the same name.
      [MemoryStorage] has the shared cell around it, whose borrows never conflict.
    - [Session]: [runtime/src/session.rs], the sessions that wrap the Oak SDK.
    - [Endpoint]: the messages of [proto/src/endpoint.proto] and the interface
      [OakSession] to the session types of the Oak SDK.
    - [F64]: the binary64 operations that the snapshot sender's progress uses.
    - [Snapshot]: [runtime/src/snapshot.rs], the sender ([sender_...],
      [sender_state_...]), the receiver ([receiver_...]) and the processor that
      switches between the two roles ([processor_...]).
    - [Handshake]: [runtime/src/attestation.rs], [oak_handshaker.rs],
      [encryptor.rs] and [handshake.rs].  The traits are classes ([Attestation],
      [OakHandshaker], [Encryptor], [HandshakeSession]), the default
      implementations instances; the sessions are proved against the classes.
    - [Communication]: [runtime/src/communication.rs], the state machine per peer
      ([comm_state_...]) and the module ([comm_...]), over the class of sessions.
    - [Model]: [runtime/src/model.rs], the class [Actor] with its commands, events
      and outcomes, and the monad of methods with its rules.
    - [Consensus]: [runtime/src/consensus.rs], the wrapper around the Raft library,
      whose node is an interface ([RawNode]).
    - [Driver]: [runtime/src/driver.rs], the event loop of a replica: its state, its
      stages and every handler, as computations in the monad of methods.
      [DriverProps] holds its rules and invariants, [DriverTheorems] its theorems.
    - [Service]: [runtime/src/service.rs] with the host of [platform.rs] and the log
      drain of [logger.rs]: a request is one call of the driver.
    - [Replication]: replicas that run the driver over the same committed log.
    - [Cluster]: [integration/src/harness.rs], a cluster of platforms in one process: the
      rounds that carry the messages of the hosts, the consumer's queue, and the
      operations on the cluster.  [ClusterTheorems] has its traffic.
    - [Agreement]: a system of drivers that are started, called, stopped and removed in any
      order, with what Raft promises about the entries and snapshots it hands out.
    - [Policy], [Budget], [Crypto], [AppAttestation], [Ledger], [LedgerActor]: the
      ledger application, from [apps/ledger/service/src/attestation.rs],
      [budget.rs], [apps/ledger/cfc_crypto/src/lib.rs], [ledger.rs] and [actor.rs].
    - [Counter]: [apps/atomic_counter/service/src/actor.rs].
    - [TabletStore]: [apps/tablet_store/service/src/actor.rs].
    - The tablet cache of [apps/tablet_cache/service/src]: [CacheTypes] has the
      tablets, queries and messages of [transaction.rs] and the result cells of
      [transaction/result.rs]; [MetadataCache] models [transaction/metadata.rs],
      [DataCache] [transaction/data.rs], [Coordinator] [transaction/coordinator.rs],
      [Manager] [transaction/manager.rs], [KvStore] [store.rs] and [CacheActor]
      [actor.rs] with the parts that [app/src/main.rs] puts together.  Their theorems
      are in [MetadataTheorems], [DataTheorems], [CoordinatorTheorems] and
      [KvTheorems]; [CacheTheorems] has those of the manager, [CacheSystem] those of
      the store on top of the manager, [CacheActorTheorems] those of the actor.
      [TabletCodecs] makes the messages of the tablet store countable, for concrete codecs.
    - [Serializable]: the tablet store with the coordinators of its clients as one system.
      [BlobReads] and [TransactionReads] have what a transaction reads: the blobs of the
      data cache, and the tablets that a committable transaction worked on; [MetadataReads]
      has what a metadata cache resolves to, given what it was told.  [CacheClients] runs a
      cache over the answers of the tablet store, and [Linearizable] puts the store's requests
      on top of all of them.
    - The unit tests of the repository, run on the model: [StorageTests], [SnapshotTests],
      [HandshakeTests], [CommunicationTests], [DriverTests], [BudgetTests], [PolicyTests],
      [CryptoTests], [LedgerTests] (with those of the ledger's actor), [TabletStoreTests] and
      [CacheTests] (with those of its three parts).  Each has one definition per test, named
      after it, and a lemma [..._tests_pass].  [Testing] has the assertions,
      [TestMessages] the decidable equality of messages, [Mocks] the expectations of mocked
      objects ([runtime/src/mock.rs] and [apps/tablet_cache/service/src/mock.rs]),
      [SymbolicCrypto] a symbolic instance of the cryptographic and attestation interfaces,
      and [Wire] the codecs by which its terms are encoded.

    ** How the parts interact

    The driver hands Raft's writes and reads to [Storage]; entries below the
    snapshot index are reached by transferring a snapshot with [Snapshot].  Raft
    messages and snapshot chunks leave and enter through [Communication], which
    encrypts them with the encryptor of a completed session of [Handshake].
    Committed entries are applied to an actor, an instance of the class [Actor] of
    [Model]: [LedgerActor], [Counter], [TabletStore] or [CacheActor].  The ledger's
    handlers decide with [Policy] and [AppAttestation], account with [Budget] and
    rewrap keys with [Crypto].  The tablet cache answers puts and gets by transactions
    over tablets: [KvStore] groups requests by tablet and asks [Manager] for
    transactions; the manager's [Coordinator] resolves tablets with [MetadataCache],
    loads and stores them with [DataCache] and commits by checking and updating their
    versions in the tablet store.  A cluster is a table of services, one per replica, whose
    hosts collect the messages that the next round delivers.

    ** How the code is modelled

    A pure function is a function.  A method that can panic returns an [outcome]; a
    fallible one a [result]; a method that can fail after changing the object
    returns the object with its result, so that what an early return leaves behind
    is visible.  The handlers of actors are computations in the monad [method] of
    [Model], which also has a third ending for a loop that waits for the random
    generator.  Integers are [Z] with the wrap-around of the release profile written
    out where the source computes with them.  Hash maps are finite maps whose
    iteration order is taken from the class [HashOrder]; ordered maps are iterated
    in key order.  Shared cells are addresses in a store of cells, and a [RefCell] that
    can be entered twice has its borrow flag; a handler is a function on the state of
    its owner.  Random draws, the host's clock, and what the context of an actor
    answers are arguments.  Log lines are left out; a log line that would panic
    because an actor has no context is kept as that panic.

    Code of other projects is a parameter: the protobuf codecs (class [ProtoCodec],
    with their round trip), the Oak SDK ([OakSession], [AttestationLibraries]), HPKE,
    AES-GCM-SIV and COSE ([Hpke], [AeadCipher], [Coset], with the round trips their
    documentation states), SHA-256, the signer, and the conversion of protobuf
    durations; the nodes of the Raft library ([RawNode]); and of the tablet cache the
    hash of keys, SHA-256 and base64.  What Raft promises is stated in [Agreement]: a history
    of committed entries ([RaftHistory]), and that a replica is handed entries and snapshots
    of it ([handed_ok]).  The blobs of tablets are in a storage outside the enclave: the class
    [BlobNames] states that a name, built from the hash of the contents, stands for the
    contents of one version; that loads are answered with the named contents, and that
    listings and responses are answers of the tablet store to requests in its log, is part of
    what a run is ([honest_step], [client_step]).  Each law is met by a concrete instance on
    which the theorems are evaluated.  Error texts keep the constant part that the source
    writes.

    ** What the theorems show

    - Driver and Consensus: a call hands out only the driver's own answers, handshake
      traffic and messages encrypted for their peers; replicas handed the same
      committed log end in the same state; committed entries replay exactly the events
      they carry, once and in order; the life cycle only goes forward; refused requests
      have no effect; the loop over snapshot requests ends and asks for exactly the chunks
      that are newly in flight; the service answers with exactly what the driver handed to
      the host.
    - Cluster and Agreement: a round delivers every message to its recipient once and in
      the order of its sender, and leaves the others to the consumer; between replicas only
      handshake messages and messages encrypted for their peer travel; in any run of a
      system of an actor whose state is determined by the applied events ([AgreeingActor],
      which the counter meets and the ledger and the tablet store do not), two replicas at the
      same applied index are in the same state, also when one of them got there by a snapshot.
    - Storage: every reachable store has a contiguous log that starts at its
      snapshot; appending, compacting, snapshotting and reading do exactly what Raft
      relies on, and panic exactly on misuse; a requested snapshot is served.
    - Snapshot: a transfer reassembles the snapshot whatever the order and
      repetition of the chunks; a transfer finishes only when every chunk was
      acknowledged; the chunks in flight stay bounded; the next request is for a
      transfer of least progress; the processor follows the leader.
    - Handshake and Communication: a session yields an encryptor with some keys exactly when
      its own attestation and then its own handshaker, initialised with the attested key,
      went through their messages in order and derived these keys, and it panics exactly when
      attested results have no evidence or the handshaker rejects the attested key;
      everything sent is a handshake message or encrypted under a completed session;
      nothing is accepted from a peer before completion; failed handshakes are
      retried; a completed channel delivers in order.
    - Budget and Policy: no budget is ever exceeded, approved accesses can be
      recorded, revocation is final up to loading an older snapshot, and a configuration property is matched at its
      path.
    - Ledger: access is granted only under the policy in the blob header, to a
      matching application, whose token is signed by the attested key when it gives
      evidence, for an unexpired key, and is recorded once;
      the recipient can decrypt; failures cost no budget; time never goes back; a new
      key gets a fresh id, which the drawing loop finds.
    - LedgerActor: replicas that apply the same events hold the same state; commands
      and events are answered once; snapshots restore the ledger.
    - Counter and TabletStore: compare-and-swap refines its specification; a request
      is all or nothing; listings follow the hashing ring, with both ends of the range
      included; snapshots restore.
    - Tablet cache: calls on the metadata and data caches return and keep their
      invariants; regions partition the hashes; a resolved hash belongs to the tablet
      that the tablet store finds responsible; a loaded batch is complete and what was
      stored is loaded again; a commit checks or updates exactly the tablets the
      transaction worked on and succeeds only when none of them changed; the manager's
      requests to the tablet store are told apart by their ids; requests on a tablet
      run one after the other as on a map; in the whole cache a request is answered at
      most once and no two open transactions were started for one tablet
      ([CacheSystem.cache_refines_store]);
      transactions that succeed are serializable in the log of the tablet store
      ([Serializable.transactions_serializable]), and the puts and gets they answered are
      those of one map per tablet, in the order of the commits
      ([Linearizable.store_linearizable]), for caches over the default metadata cache that
      saw answers of the tablet store only, none of them a failure with an update that held
      alone; the actor as it is wired stays silent
      ([CacheActorTheorems.actor_never_sends]).

    - Unit tests: every test of the sources named above passes on the model.  They check the
      definitions against what the authors of the code expect of it; where a test depends on
      the order of a hash map, the order it expects is chosen.

    Lemmas under "What modelling showed", and some next to the claims they limit,
    record behaviour that differs from what comments or interfaces say: among them
    [Snapshot.empty_header_panics], [Snapshot.other_snapshot_chunk_accepted],
    [Policy.field_matches_missing_prefix], [Budget.duplicate_shared_index_partial],
    [Ledger.expiration_overflow_panics], [LedgerActor.rejected_command_moves_clock],
    [Counter.load_keeps_other_counters], [TabletStore.initial_tablets_diverge],
    [DriverTheorems.unstarted_tick_panics], [MetadataTheorems.last_region_panics],
    [DataTheorems.load_answered_early], [CoordinatorTheorems.tables_share_key],
    [CacheTheorems.commit_error_panics], [KvTheorems.process_threshold_unset],
    [CacheSystem.tablet_in_two_transactions], [TabletStore.listing_includes_end],
    [Budget.older_snapshot_restores_budget],
    [Linearizable.lost_update_commits] (a transaction on a cached version that was never
    committed loses an update) and [DriverTests.trigger_snapshot_test_creates_none].

    ** Bounds

    Loops are structural recursions over the data the code iterates over; the two
    loops that wait for the random generator recurse over the draws they are given
    and say so when these run out ([Ledger.key_id_loop_terminates] shows how many
    distinct draws are enough for a key id).  Where a theorem needs it, it assumes
    what the widths of the code provide: indices and delivery ids below 2^64, chunk
    counts below 2^32 (so that progress, a quotient in binary64, is exact enough to
    be compared), snapshot data below 2^63 bytes, and non-negative durations.  The runs
    of the tablet cache assume that counters of queries, transactions and correlations
    have room below 2^64, and the coordinator's below the range of the metadata
    cache's; ids and versions of tablets fit 32 bits, as in their messages.

    ** What is not modelled

    The RPC server loops and terminal logging, build scripts and the binaries' glue, which
    hold no logic of their own; mocks that no test uses; accessors and providers that only
    forward to the definitions modelled; and the texts of errors.  The integration tests need
    the Raft library to elect a leader and commit, so they cannot be run on a model that has
    it as a parameter.  Linearizability is proved of the store, the coordinator, the
    metadata and data caches and the log of the tablet store; the cache's actor, as it is wired, releases no
    response that it could be stated of. *)

From Stdlib Require Import Strings.Byte.
From stdpp Require Export base tactics option gmap strings list sorting.
From Stdlib Require Export Lia.

Open Scope Z_scope.

Declare Scope rust_scope.
Delimit Scope rust_scope with rust.

(** ** Fixed-width unsigned integers

    A [u32] or [u64] of the source is a [Z]; every arithmetic operation that
    could leave the width is written with the wrapping operation below (the
    behaviour of the release profile). *)

Abbreviation two32 := 4294967296 (only parsing).
Abbreviation two63 := 9223372036854775808 (only parsing).
Abbreviation two64 := 18446744073709551616 (only parsing).

Definition in_u32 (z : Z) : Prop := 0 ≤ z < two32.

Definition in_u64 (z : Z) : Prop := 0 ≤ z < two64.

Definition u32_add (a b : Z) : Z := (a + b) mod two32.

Definition u64_add (a b : Z) : Z := (a + b) mod two64.

Definition u64_sub (a b : Z) : Z := (a - b) mod two64.

Definition u64_mul (a b : Z) : Z := (a * b) mod two64.

Definition u32_mul (a b : Z) : Z := (a * b) mod two32.

Definition u32_sub (a b : Z) : Z := (a - b) mod two32.

Notation "x +₃₂ y" := (u32_add x y) (at level 50, left associativity) : rust_scope.
Notation "x -₃₂ y" := (u32_sub x y) (at level 50, left associativity) : rust_scope.
Notation "x *₃₂ y" := (u32_mul x y) (at level 40, left associativity) : rust_scope.
Notation "x +₆₄ y" := (u64_add x y) (at level 50, left associativity) : rust_scope.
Notation "x -₆₄ y" := (u64_sub x y) (at level 50, left associativity) : rust_scope.
Notation "x *₆₄ y" := (u64_mul x y) (at level 40, left associativity) : rust_scope.
Open Scope rust_scope.

(** ** Bytes *)

#[global] Instance byte_eq_dec : EqDecision Byte.byte := Byte.byte_eq_dec.

#[global] Program Instance byte_countable : Countable Byte.byte :=
  {| encode b := encode (Byte.to_N b);
     decode p := n ← decode p; Byte.of_N n |}.
Next Obligation.
  intros b. simpl. rewrite decode_encode. simpl. apply Byte.of_to_N.
Qed.

Abbreviation bytes := (list Byte.byte).

(** The length of a byte string or vector, as the source's [len() as u64]. *)
Abbreviation zlen l := (Z.of_nat (length l)).

(** ** Outcomes and results

    [outcome] separates a call that returns from a call that panics (an
    [unwrap] of [None], an out-of-range slice, an explicit [panic!]); [result]
    is Rust's [Result].  A method on [&mut self] that can fail returns the new
    state together with its result, so that what an early return leaves behind
    in the object stays visible. *)

Inductive outcome (A : Type) : Type :=
| Return (a : A)
| Panic.
Arguments Return {A} a.
Arguments Panic {A}.

#[global] Instance outcome_ret : MRet outcome := @Return.

#[global] Instance outcome_bind : MBind outcome := λ A B f m,
  match m with Return a => f a | Panic => Panic end.

Inductive result (E A : Type) : Type :=
| Ok (a : A)
| Err (e : E).
Arguments Ok {E A} a.
Arguments Err {E A} e.

#[global] Instance result_ret E : MRet (result E) := λ A a, Ok a.

#[global] Instance result_bind E : MBind (result E) := λ A B f m,
  match m with Ok a => f a | Err e => Err e end.

Definition is_ok {E A} (r : result E A) : bool :=
  match r with Ok _ => true | Err _ => false end.

(** [Result::map_err] *)
Definition map_err {E F A} (f : E → F) (r : result E A) : result F A :=
  match r with Ok a => Ok a | Err e => Err (f e) end.

(** [Option::unwrap] *)
Definition unwrap {A} (o : option A) : outcome A :=
  match o with Some a => Return a | None => Panic end.

(** [Option::ok_or] *)
Definition ok_or {E A} (o : option A) (e : E) : result E A :=
  match o with Some a => Ok a | None => Err e end.

(** A loop over a list whose body may panic. *)
Fixpoint ofold {S A} (f : S → A → outcome S) (s : S) (l : list A) : outcome S :=
  match l with
  | [] => Return s
  | x :: l => s' ← f s x; ofold f s' l
  end.

(** A loop whose body may return early with an error, keeping the state the
    iterations so far have produced. *)
Fixpoint try_fold {S A E} (f : S → A → S * result E unit) (s : S) (l : list A)
    : S * result E unit :=
  match l with
  | [] => (s, Ok ())
  | x :: l =>
      match f s x with
      | (s', Ok _) => try_fold f s' l
      | (s', Err e) => (s', Err e)
      end
  end.

(** ** Slices and draining of vectors *)

(** [v[lo..hi]], which panics unless [lo <= hi <= v.len()]. *)
Definition slice {A} (l : list A) (lo hi : Z) : outcome (list A) :=
  if decide (0 ≤ lo ∧ lo ≤ hi ∧ hi ≤ zlen l)
  then Return (take (Z.to_nat (hi - lo)) (drop (Z.to_nat lo) l))
  else Panic.

(** [v.drain(n..)]: what remains in the vector. *)
Definition drain_from {A} (l : list A) (n : Z) : outcome (list A) :=
  if decide (0 ≤ n ≤ zlen l) then Return (take (Z.to_nat n) l) else Panic.

(** [v.drain(..n)]: what remains in the vector. *)
Definition drain_to {A} (l : list A) (n : Z) : outcome (list A) :=
  if decide (0 ≤ n ≤ zlen l) then Return (drop (Z.to_nat n) l) else Panic.

(** ** Iteration orders of maps

    Hash maps are [gmap]s; the order in which the hash table visits its entries
    is not specified, so a definition that iterates over one takes it from this
    class.  Ordered maps ([BTreeMap]) are [gmap]s iterated in key order. *)

Class HashOrder (K : Type) `{Countable K} : Type := {
  hash_iter : ∀ {V : Type}, gmap K V → list (K * V);
  hash_iter_perm : ∀ {V : Type} (m : gmap K V), hash_iter m ≡ₚ map_to_list m
}.

Definition default_hash_order (K : Type) `{Countable K} : HashOrder K :=
  {| hash_iter V m := map_to_list m; hash_iter_perm V m := reflexivity _ |}.

Definition key_le {K V} (R : relation K) (p q : K * V) : Prop := R p.1 q.1.

#[global] Instance key_le_dec {K V} (R : relation K) `{!RelDecision R} :
  RelDecision (key_le (V:=V) R) := λ p q, decide (R p.1 q.1).

Definition btree_iter {K V} `{Countable K} (R : relation K) `{!RelDecision R}
    (m : gmap K V) : list (K * V) :=
  merge_sort (key_le R) (map_to_list m).

(** The lexicographic order of [Vec<u8>]. *)
Fixpoint bytes_le (a b : bytes) : Prop :=
  match a, b with
  | [], _ => True
  | _ :: _, [] => False
  | x :: a, y :: b =>
      (Byte.to_N x < Byte.to_N y)%N ∨ (x = y ∧ bytes_le a b)
  end.

#[global] Instance bytes_le_dec : RelDecision bytes_le.
Proof.
  intros a. induction a as [|x a IH]; intros [|y b]; simpl; apply _.
Defined.

(** ** Message codecs

    What the source relies on from the protobuf runtime: decoding what was
    encoded gives the message back. *)

Class ProtoCodec (M : Type) : Type := {
  proto_encode : M → bytes;
  proto_decode : bytes → option M;
  proto_decode_encode : ∀ m, proto_decode (proto_encode m) = Some m
}.

(** A codec for any countable type: its encoding as a positive, one byte per
    bit.  It shows that the law above can be met. *)
Fixpoint pos_to_bytes (p : positive) : bytes :=
  match p with
  | xH => []
  | xO p => x00 :: pos_to_bytes p
  | xI p => x01 :: pos_to_bytes p
  end.

Fixpoint pos_of_bytes (l : bytes) : positive :=
  match l with
  | [] => xH
  | x00 :: l => xO (pos_of_bytes l)
  | _ :: l => xI (pos_of_bytes l)
  end.

Lemma pos_of_to_bytes p : pos_of_bytes (pos_to_bytes p) = p.
Proof. by induction p as [p IH|p IH|]; simpl; rewrite ?IH. Qed.

Program Definition countable_codec (M : Type) `{Countable M} : ProtoCodec M :=
  {| proto_encode m := pos_to_bytes (encode m);
     proto_decode l := decode (pos_of_bytes l) |}.
Next Obligation. intros. simpl. by rewrite pos_of_to_bytes, decode_encode. Qed.

(** ** Shared lemmas *)

Create HintDb rust.

Lemma u64_add_small a b : 0 ≤ a + b < two64 → u64_add a b = a + b.
Proof. apply Z.mod_small. Qed.

Lemma u64_sub_small a b : 0 ≤ a - b < two64 → u64_sub a b = a - b.
Proof. apply Z.mod_small. Qed.

Lemma u64_mul_small a b : 0 ≤ a * b < two64 → u64_mul a b = a * b.
Proof. apply Z.mod_small. Qed.

Lemma u32_add_small a b : 0 ≤ a + b < two32 → u32_add a b = a + b.
Proof. apply Z.mod_small. Qed.

Lemma u32_add_range a b : in_u32 (u32_add a b).
Proof. apply Z.mod_pos_bound. lia. Qed.

Lemma u64_add_range a b : in_u64 (u64_add a b).
Proof. apply Z.mod_pos_bound. lia. Qed.

#[export] Hint Resolve u32_add_range u64_add_range : rust.

(** Removes the wrap-around of every operation whose exact result provably
    fits. *)
Ltac nowrap :=
  repeat first
    [ rewrite u64_add_small by (unfold in_u64, in_u32 in *; lia)
    | rewrite u64_sub_small by (unfold in_u64, in_u32 in *; lia)
    | rewrite u32_add_small by (unfold in_u64, in_u32 in *; lia) ].

Lemma bind_Return {A B} (m : outcome A) (f : A → outcome B) b :
  m ≫= f = Return b ↔ ∃ a, m = Return a ∧ f a = Return b.
Proof. destruct m as [a|]; simpl; naive_solver. Qed.

Lemma unwrap_Return {A} (o : option A) a : unwrap o = Return a ↔ o = Some a.
Proof. destruct o; simpl; naive_solver. Qed.

Lemma ok_or_Ok {E A} (o : option A) (e : E) a : ok_or o e = Ok a ↔ o = Some a.
Proof. destruct o; simpl; naive_solver. Qed.

(** Opens the binds of an [outcome] computation known to return. *)
Ltac outcome_inv :=
  repeat match goal with
  | H : mbind _ _ = Return _ |- _ =>
      apply bind_Return in H; destruct H as (? & ? & H)
  | H : unwrap _ = Return _ |- _ => apply unwrap_Return in H
  | H : Return _ = Return _ |- _ => injection H as H
  | H : Panic = Return _ |- _ => discriminate H
  | H : mret _ = Return _ |- _ => injection H as H
  end.

Lemma slice_Return {A} (l : list A) lo hi :
  0 ≤ lo ≤ hi → hi ≤ zlen l →
  slice l lo hi = Return (take (Z.to_nat (hi - lo)) (drop (Z.to_nat lo) l)).
Proof. intros. unfold slice. by rewrite decide_True by lia. Qed.

Lemma drain_from_Return {A} (l : list A) n :
  0 ≤ n ≤ zlen l → drain_from l n = Return (take (Z.to_nat n) l).
Proof. intros. unfold drain_from. by rewrite decide_True by lia. Qed.

Lemma drain_to_Return {A} (l : list A) n :
  0 ≤ n ≤ zlen l → drain_to l n = Return (drop (Z.to_nat n) l).
Proof. intros. unfold drain_to. by rewrite decide_True by lia. Qed.

(** Elements of a list with distinct keys are told apart by their keys. *)
Lemma NoDup_fmap_key {A B} (f : A → B) l x y :
  NoDup (f <$> l) → x ∈ l → y ∈ l → f x = f y → x = y.
Proof.
  intros Hl [i Hi]%list_elem_of_lookup [j Hj]%list_elem_of_lookup Hf.
  assert (i = j) as ->; [|congruence].
  eapply NoDup_lookup; [exact Hl|rewrite list_lookup_fmap, Hi; done|].
  by rewrite list_lookup_fmap, Hj, Hf.
Qed.

Lemma btree_iter_perm {K V} `{Countable K} (R : relation K) `{!RelDecision R}
    (m : gmap K V) : btree_iter R m ≡ₚ map_to_list m.
Proof. apply merge_sort_Permutation. Qed.

Lemma ofold_app {S A} (f : S → A → outcome S) s l1 l2 :
  ofold f s (l1 ++ l2) = s' ← ofold f s l1; ofold f s' l2.
Proof.
  revert s. induction l1 as [|x l1 IH]; intros s; simpl; [done|].
  destruct (f s x); simpl; auto.
Qed.

(** An invariant of a loop body is an invariant of the loop. *)
Lemma ofold_invariant {S A} (I : S → Prop) (f : S → A → outcome S) s l s' :
  (∀ s x s', I s → f s x = Return s' → I s') →
  I s → ofold f s l = Return s' → I s'.
Proof.
  intros Hstep. revert s. induction l as [|x l IH]; intros s Hs; simpl.
  - intros [= <-]. done.
  - intros H. outcome_inv. eauto.
Qed.

Lemma try_fold_invariant {S A E} (I : S → Prop) (f : S → A → S * result E unit) s l :
  (∀ s x, I s → I (f s x).1) → I s → I (try_fold f s l).1.
Proof.
  intros Hstep. revert s. induction l as [|x l IH]; intros s Hs; simpl; [done|].
  specialize (Hstep s x Hs). destruct (f s x) as [s' [?|?]]; simpl in *; auto.
Qed.
