(* ===== verification/RaftTypes.v ===== *)
(** * Raft messages and their helpers

    The data the runtime exchanges with the Raft library (the fields the source
    reads and writes) and the constructors and accessors of
    [src/runtime/src/util.rs], module [raft]. *)

From S2P Require Import Prelude.

(** ** Raft protocol data *)

Record RaftConfigState := {
  voters : list Z;
  learners : list Z;
  voters_outgoing : list Z;
  learners_next : list Z;
  auto_leave : bool
}.

Record RaftSnapshotMetadata := {
  md_conf_state : option RaftConfigState;
  md_index : Z;
  md_term : Z
}.

Record RaftSnapshot := {
  snap_data : bytes;
  snap_metadata : option RaftSnapshotMetadata
}.

Inductive RaftEntryType := EntryNormal | EntryConfChange | EntryConfChangeV2.

Record RaftEntry := {
  entry_type : RaftEntryType;
  entry_term_ : Z;
  entry_index : Z;
  entry_data : bytes;
  entry_context : bytes
}.

Record RaftHardState := { hs_term : Z; hs_vote : Z; hs_commit : Z }.

Inductive RaftStorageError :=
| Compacted
| Unavailable
| SnapshotOutOfDate
| SnapshotTemporarilyUnavailable.

Inductive RaftError :=
| RaftStore (e : RaftStorageError)
| ProposalDropped
| RaftOther.

Inductive RaftSnapshotStatus := Finish | Failure.

#[global] Instance RaftConfigState_eq_dec : EqDecision RaftConfigState.
Proof. solve_decision. Defined.
#[global] Instance RaftSnapshotMetadata_eq_dec : EqDecision RaftSnapshotMetadata.
Proof. solve_decision. Defined.
#[global] Instance RaftSnapshotStatus_eq_dec : EqDecision RaftSnapshotStatus.
Proof. solve_decision. Defined.

#[global] Instance RaftConfigState_countable : Countable RaftConfigState :=
  inj_countable'
    (λ c, (voters c, learners c, voters_outgoing c, learners_next c, auto_leave c))
    (λ '(a, b, c, d, e), Build_RaftConfigState a b c d e)
    ltac:(by intros []).
#[global] Instance RaftSnapshotMetadata_countable : Countable RaftSnapshotMetadata :=
  inj_countable' (λ m, (md_conf_state m, md_index m, md_term m))
    (λ '(a, b, c), Build_RaftSnapshotMetadata a b c) ltac:(by intros []).

(** ** Helpers of [util::raft] *)

Definition default_config_state : RaftConfigState :=
  {| voters := []; learners := []; voters_outgoing := []; learners_next := [];
     auto_leave := false |}.

Definition default_hard_state : RaftHardState :=
  {| hs_term := 0; hs_vote := 0; hs_commit := 0 |}.

Definition get_metadata (snapshot : RaftSnapshot) : outcome RaftSnapshotMetadata :=
  unwrap (snap_metadata snapshot).

Definition get_config_state (snapshot : RaftSnapshot) : outcome RaftConfigState :=
  metadata ← get_metadata snapshot; unwrap (md_conf_state metadata).

Definition create_raft_snapshot (metadata : RaftSnapshotMetadata) (data : bytes)
    : RaftSnapshot :=
  {| snap_metadata := Some metadata; snap_data := data |}.

Definition create_raft_snapshot_metadata (index term : Z)
    (config_state : RaftConfigState) : RaftSnapshotMetadata :=
  {| md_index := index; md_term := term; md_conf_state := Some config_state |}.

Definition create_raft_config_state (vs : list Z) : RaftConfigState :=
  {| voters := vs; learners := []; voters_outgoing := []; learners_next := [];
     auto_leave := false |}.

Definition create_empty_raft_entry (index term : Z) : RaftEntry :=
  {| entry_index := index; entry_term_ := term; entry_type := EntryNormal;
     entry_data := []; entry_context := [] |}.

Definition create_raft_entry (index term : Z) (ty : RaftEntryType) (data : bytes)
    : RaftEntry :=
  {| entry_index := index; entry_term_ := term; entry_type := ty;
     entry_data := data; entry_context := [] |}.

Definition config_state_contains_node (config_state : RaftConfigState) (node_id : Z)
    : bool :=
  existsb (λ id, bool_decide (id = node_id))
    (voters config_state ++ learners config_state ++ voters_outgoing config_state).

Lemma config_state_contains_node_spec cs id :
  config_state_contains_node cs id = true ↔
  id ∈ voters cs ∨ id ∈ learners cs ∨ id ∈ voters_outgoing cs.
Proof.
  unfold config_state_contains_node. rewrite existsb_exists. split.
  - intros (x & Hin & Heq). apply bool_decide_eq_true in Heq as ->.
    apply list_elem_of_In in Hin. set_solver.
  - intros Hin. exists id. rewrite bool_decide_eq_true, <- list_elem_of_In.
    set_solver.
Qed.
