(* ===== verification/Storage.v ===== *)
(** * The in-memory Raft log and snapshot store

    [src/runtime/src/storage.rs]: the state of [MemoryStorageCore], its
    operations, the invariant they keep, and what each of them does to the log
    seen as a map from index to entry. *)

From S2P Require Import Prelude RaftTypes.

(** ** State *)

Record MemoryStorageCore := {
  msc_state : RaftHardState;
  msc_entries : list RaftEntry;
  msc_max_snapshot_diff : Z;
  msc_snapshot : RaftSnapshot;
  msc_snapshot_peer_requests : gmap Z Z
}.

(** Whether a snapshot at [snapshot_index] has all the entries a peer asked for
    and is addressed to a node of the configuration. *)
Definition statisfies_snapshot_request (snapshot_index : Z)
    (snapshot_config_state : RaftConfigState) (peer_id request_index : Z) : bool :=
  bool_decide (request_index ≤ snapshot_index)
  && config_state_contains_node snapshot_config_state peer_id.

Definition storage_new (max_snapshot_diff : Z) : MemoryStorageCore := {|
  msc_max_snapshot_diff := max_snapshot_diff;
  msc_state := default_hard_state;
  msc_entries := [];
  msc_snapshot :=
    create_raft_snapshot
      (create_raft_snapshot_metadata 0 0 (create_raft_config_state [])) [];
  msc_snapshot_peer_requests := ∅
|}.

Definition snapshot_index (c : MemoryStorageCore) : outcome Z :=
  metadata ← get_metadata (msc_snapshot c); Return (md_index metadata).

Definition snapshot_term (c : MemoryStorageCore) : outcome Z :=
  metadata ← get_metadata (msc_snapshot c); Return (md_term metadata).

Definition config_state (c : MemoryStorageCore) : outcome RaftConfigState :=
  get_config_state (msc_snapshot c).

Definition first_entry_index (c : MemoryStorageCore) : outcome Z :=
  match head (msc_entries c) with
  | Some entry => Return (entry_index entry)
  | None => i ← snapshot_index c; Return (i +₆₄ 1)
  end.

Definition last_entry_index (c : MemoryStorageCore) : outcome Z :=
  match last (msc_entries c) with
  | Some entry => Return (entry_index entry)
  | None => snapshot_index c
  end.

(** ** Field updates *)

Definition set_hard_state (c : MemoryStorageCore) (state : RaftHardState)
    : MemoryStorageCore := {|
  msc_state := state;
  msc_entries := msc_entries c;
  msc_max_snapshot_diff := msc_max_snapshot_diff c;
  msc_snapshot := msc_snapshot c;
  msc_snapshot_peer_requests := msc_snapshot_peer_requests c
|}.

Definition set_entries (c : MemoryStorageCore) (entries : list RaftEntry)
    : MemoryStorageCore := {|
  msc_state := msc_state c;
  msc_entries := entries;
  msc_max_snapshot_diff := msc_max_snapshot_diff c;
  msc_snapshot := msc_snapshot c;
  msc_snapshot_peer_requests := msc_snapshot_peer_requests c
|}.

Definition set_peer_requests (c : MemoryStorageCore) (requests : gmap Z Z)
    : MemoryStorageCore := {|
  msc_state := msc_state c;
  msc_entries := msc_entries c;
  msc_max_snapshot_diff := msc_max_snapshot_diff c;
  msc_snapshot := msc_snapshot c;
  msc_snapshot_peer_requests := requests
|}.

(** ** Operations

    Each takes the store and returns the new store with the [Result] of the
    source; [Panic] is the source's [panic!]. *)

Definition append_entries (c : MemoryStorageCore) (entries : list RaftEntry)
    : outcome (MemoryStorageCore * result RaftError unit) :=
  match entries with
  | [] => Return (c, Ok ())
  | e :: _ =>
      let first_append_index := entry_index e in
      first ← first_entry_index c;
      if decide (first_append_index < first) then Panic
      else
        last ← last_entry_index c;
        if decide (last +₆₄ 1 < first_append_index) then Panic
        else
          let overwritten_entries := first_append_index -₆₄ first in
          kept ← drain_from (msc_entries c) overwritten_entries;
          Return (set_entries c (kept ++ entries), Ok ())
  end.

Definition compact_entries (c : MemoryStorageCore) (compact_index : Z)
    : outcome (MemoryStorageCore * result RaftError unit) :=
  first ← first_entry_index c;
  if decide (compact_index ≤ first) then Return (c, Ok ())
  else
    last ← last_entry_index c;
    if decide (last +₆₄ 1 < compact_index) then Panic
    else
      match head (msc_entries c) with
      | Some entry =>
          let offset := compact_index -₆₄ entry_index entry in
          kept ← drain_to (msc_entries c) offset;
          Return (set_entries c kept, Ok ())
      | None => Return (c, Ok ())
      end.

Definition set_snapshot (c : MemoryStorageCore) (snapshot : RaftSnapshot)
    : outcome MemoryStorageCore :=
  let c' := {|
    msc_state := msc_state c;
    msc_entries := msc_entries c;
    msc_max_snapshot_diff := msc_max_snapshot_diff c;
    msc_snapshot := snapshot;
    msc_snapshot_peer_requests := msc_snapshot_peer_requests c
  |} in
  index ← snapshot_index c';
  conf ← config_state c';
  Return (set_peer_requests c'
    (filter (λ '(peer_id, request_index),
       statisfies_snapshot_request index conf peer_id request_index = false)
       (msc_snapshot_peer_requests c'))).

Definition apply_snapshot (c : MemoryStorageCore) (snapshot : RaftSnapshot)
    : outcome (MemoryStorageCore * result RaftError unit) :=
  metadata ← get_metadata snapshot;
  first ← first_entry_index c;
  if decide (md_index metadata < first)
  then Return (c, Err (RaftStore SnapshotOutOfDate))
  else
    let c1 := set_hard_state c {|
      hs_commit := md_index metadata;
      hs_term := Z.max (hs_term (msc_state c)) (md_term metadata);
      hs_vote := hs_vote (msc_state c) |} in
    c2 ← set_snapshot (set_entries c1 []) snapshot;
    Return (c2, Ok ()).

Definition entry_term (c : MemoryStorageCore) (index : Z)
    : outcome (result RaftError Z) :=
  snap ← snapshot_index c;
  if decide (index = snap) then t ← snapshot_term c; Return (Ok t)
  else
    offset ← first_entry_index c;
    if decide (index < offset) then Return (Err (RaftStore Compacted))
    else
      last ← last_entry_index c;
      if decide (last < index) then Return (Err (RaftStore Unavailable))
      else
        e ← unwrap (msc_entries c !! Z.to_nat (index -₆₄ offset));
        Return (Ok (entry_term_ e)).

Definition create_snapshot (c : MemoryStorageCore) (applied_index : Z)
    (conf : RaftConfigState) (snapshot_data : bytes)
    : outcome (MemoryStorageCore * result RaftError unit) :=
  last ← last_entry_index c;
  if decide (last < applied_index) then Panic
  else
    first ← first_entry_index c;
    if decide (applied_index < first)
    then Return (c, Err (RaftStore SnapshotOutOfDate))
    else
      term ← entry_term c applied_index;
      match term with
      | Err e => Return (c, Err e)
      | Ok term =>
          let snapshot :=
            create_raft_snapshot
              (create_raft_snapshot_metadata applied_index term conf) snapshot_data in
          c1 ← set_snapshot c snapshot;
          compact_entries c1 applied_index
      end.

Definition try_satisfy_request (c : MemoryStorageCore) (peer_id request_index : Z)
    : outcome (MemoryStorageCore * option RaftSnapshot) :=
  index ← snapshot_index c;
  conf ← config_state c;
  if statisfies_snapshot_request index conf peer_id request_index
  then Return (c, Some (msc_snapshot c))
  else
    Return (set_peer_requests c
              (<[peer_id := request_index]> (msc_snapshot_peer_requests c)), None).

Definition should_snapshot (c : MemoryStorageCore) (applied_index : Z)
    (conf : RaftConfigState) : outcome bool :=
  index ← snapshot_index c;
  if decide (index +₆₄ msc_max_snapshot_diff c < applied_index) then Return true
  else
    Return (existsb
      (λ '(peer_id, request_index),
         statisfies_snapshot_request applied_index conf peer_id request_index)
      (map_to_list (msc_snapshot_peer_requests c))).

Definition initial_state (c : MemoryStorageCore)
    : outcome (result RaftError (RaftHardState * RaftConfigState)) :=
  conf ← config_state c; Return (Ok (msc_state c, conf)).

(** [raft::util::limit_size] belongs to the Raft library: it is a parameter. *)
Definition storage_entries (limit_size : list RaftEntry → option Z → list RaftEntry)
    (c : MemoryStorageCore) (low_index high_index : Z)
    (entries_max_size : option Z) : outcome (result RaftError (list RaftEntry)) :=
  match msc_entries c with
  | [] => Return (Err (RaftStore Unavailable))
  | _ =>
      first ← first_entry_index c;
      if decide (low_index < first) then Return (Err (RaftStore Compacted))
      else
        last ← last_entry_index c;
        if decide (last +₆₄ 1 < high_index) then Panic
        else
          entries_slice ←
            slice (msc_entries c) (low_index -₆₄ first) (high_index -₆₄ first);
          Return (Ok (limit_size entries_slice entries_max_size))
  end.

Definition storage_snapshot (c : MemoryStorageCore) (request_index peer_id : Z)
    : outcome (MemoryStorageCore * result RaftError RaftSnapshot) :=
  '(c', o) ← try_satisfy_request c peer_id request_index;
  match o with
  | Some snapshot => Return (c', Ok snapshot)
  | None => Return (c', Err (RaftStore SnapshotTemporarilyUnavailable))
  end.

Definition latest_snapshot_size (c : MemoryStorageCore) : Z :=
  zlen (snap_data (msc_snapshot c)).

(** ** The log as a map from index to entry *)

Definition log_snap_index (c : MemoryStorageCore) : Z :=
  default 0 (md_index <$> snap_metadata (msc_snapshot c)).

Definition log_snap_term (c : MemoryStorageCore) : Z :=
  default 0 (md_term <$> snap_metadata (msc_snapshot c)).

Definition log_first (c : MemoryStorageCore) : Z :=
  default (log_snap_index c + 1) (entry_index <$> head (msc_entries c)).

Definition log_last (c : MemoryStorageCore) : Z :=
  log_first c + zlen (msc_entries c) - 1.

Definition log_lookup (c : MemoryStorageCore) (i : Z) : option RaftEntry :=
  if decide (log_first c ≤ i)
  then msc_entries c !! Z.to_nat (i - log_first c) else None.

(** ** Well-formed stores *)

Fixpoint contiguous (from : Z) (l : list RaftEntry) : Prop :=
  match l with
  | [] => True
  | e :: l => entry_index e = from ∧ contiguous (from + 1) l
  end.

(** A snapshot that carries its metadata and configuration, at an index that
    leaves room for a next entry. *)
Definition snapshot_ok (s : RaftSnapshot) : Prop :=
  ∃ md conf, snap_metadata s = Some md ∧ md_conf_state md = Some conf ∧
    0 ≤ md_index md < two64 - 1.

Record storage_ok (c : MemoryStorageCore) : Prop := {
  ok_snapshot : snapshot_ok (msc_snapshot c);
  ok_contiguous : contiguous (log_first c) (msc_entries c);
  ok_first : 0 ≤ log_first c ≤ log_snap_index c + 1;
  ok_last : log_last c < two64 - 1
}.

(** Every remembered request is one the stored snapshot does not satisfy. *)
Definition requests_pending (c : MemoryStorageCore) : Prop :=
  ∀ conf, config_state c = Return conf →
  map_Forall (λ peer_id request_index,
    statisfies_snapshot_request (log_snap_index c) conf peer_id request_index = false)
    (msc_snapshot_peer_requests c).

Lemma contiguous_app from l1 l2 :
  contiguous from (l1 ++ l2) ↔ contiguous from l1 ∧ contiguous (from + zlen l1) l2.
Proof.
  revert from. induction l1 as [|e l1 IH]; intros from; simpl.
  - rewrite Z.add_0_r. tauto.
  - rewrite IH. replace (from + 1 + zlen l1) with (from + Z.of_nat (S (length l1))) by lia.
    tauto.
Qed.

Lemma contiguous_lookup from l i e :
  contiguous from l → l !! i = Some e → entry_index e = from + Z.of_nat i.
Proof.
  revert from i. induction l as [|e' l IH]; intros from [|i] H Hi; simpl in *; simplify_eq.
  - lia.
  - destruct H as [_ H]. rewrite (IH _ _ H Hi). lia.
Qed.

Lemma contiguous_take from l n : contiguous from l → contiguous from (take n l).
Proof.
  intros H. rewrite <- (take_drop n l) in H. by apply contiguous_app in H as [? _].
Qed.

Lemma contiguous_drop from l n :
  (n ≤ length l)%nat → contiguous from l → contiguous (from + Z.of_nat n) (drop n l).
Proof.
  intros Hn H. rewrite <- (take_drop n l) in H. apply contiguous_app in H as [_ H].
  rewrite length_take in H. by replace (n `min` length l)%nat with n in H by lia.
Qed.

Section views.
Context (c : MemoryStorageCore) (Hok : storage_ok c).

Lemma snapshot_index_view : snapshot_index c = Return (log_snap_index c).
Proof.
  destruct Hok as [(md & conf & Hm & _) _ _ _].
  unfold snapshot_index, get_metadata, log_snap_index. by rewrite Hm.
Qed.

Lemma snapshot_term_view : snapshot_term c = Return (log_snap_term c).
Proof.
  destruct Hok as [(md & conf & Hm & _) _ _ _].
  unfold snapshot_term, get_metadata, log_snap_term. by rewrite Hm.
Qed.

Lemma config_state_view : ∃ conf, config_state c = Return conf.
Proof.
  destruct Hok as [(md & conf & Hm & Hc & _) _ _ _].
  exists conf. unfold config_state, get_config_state, get_metadata.
  rewrite Hm. simpl. by rewrite Hc.
Qed.

Lemma log_snap_index_range : 0 ≤ log_snap_index c < two64 - 1.
Proof.
  destruct Hok as [(md & conf & Hm & _ & ?) _ _ _].
  unfold log_snap_index. by rewrite Hm.
Qed.

Lemma first_entry_index_view : first_entry_index c = Return (log_first c).
Proof.
  pose proof log_snap_index_range.
  unfold first_entry_index, log_first. destruct (head (msc_entries c)); simpl; [done|].
  rewrite snapshot_index_view. simpl. by nowrap.
Qed.

Lemma last_entry_index_view : last_entry_index c = Return (log_last c).
Proof.
  pose proof (ok_contiguous c Hok) as Hcont.
  unfold last_entry_index, log_last.
  destruct (last (msc_entries c)) as [e|] eqn:Hl.
  - rewrite last_lookup in Hl.
    assert (length (msc_entries c) ≠ 0)%nat as Hne.
    { intros Heq. apply nil_length_inv in Heq. by rewrite Heq in Hl. }
    rewrite (contiguous_lookup _ _ _ _ Hcont Hl). f_equal. lia.
  - apply last_None in Hl. rewrite snapshot_index_view. unfold log_first.
    rewrite Hl. simpl. f_equal. lia.
Qed.
End views.

(** ** What the operations compute on a well-formed store *)

Lemma append_entries_compute c e es :
  storage_ok c →
  append_entries c (e :: es) =
    if decide (log_first c ≤ entry_index e ≤ log_last c + 1)
    then Return (set_entries c
                   (take (Z.to_nat (entry_index e - log_first c)) (msc_entries c)
                    ++ e :: es), Ok ())
    else Panic.
Proof.
  intros Hok. pose proof (ok_first c Hok). pose proof (ok_last c Hok).
  pose proof (log_snap_index_range c Hok). pose proof (Zle_0_nat (length (msc_entries c))).
  unfold log_last in *. unfold append_entries.
  rewrite (first_entry_index_view c Hok). simpl.
  case_decide; [by rewrite decide_False by lia|].
  rewrite (last_entry_index_view c Hok). simpl. unfold log_last. nowrap.
  case_decide; [by rewrite decide_False by lia|].
  rewrite decide_True by lia. nowrap.
  by rewrite drain_from_Return by lia.
Qed.

Lemma append_log_first c e es :
  storage_ok c → log_first c ≤ entry_index e ≤ log_last c + 1 →
  log_first (set_entries c
    (take (Z.to_nat (entry_index e - log_first c)) (msc_entries c) ++ e :: es))
  = log_first c.
Proof.
  unfold log_last. intros Hok Hr. unfold log_first at 1. simpl.
  destruct (msc_entries c) as [|e0 l] eqn:Hl.
  - rewrite take_nil. simpl in *. lia.
  - assert (log_first c = entry_index e0) as Hf by (unfold log_first; by rewrite Hl).
    destruct (Z.to_nat (entry_index e - log_first c)) eqn:Hn; simpl; lia.
Qed.

Lemma append_entries_storage_ok c e es :
  storage_ok c → contiguous (entry_index e) (e :: es) →
  log_first c ≤ entry_index e ≤ log_last c + 1 →
  entry_index e + zlen (e :: es) < two64 →
  storage_ok (set_entries c
    (take (Z.to_nat (entry_index e - log_first c)) (msc_entries c) ++ e :: es)).
Proof.
  intros Hok Hcont Hr Hmax.
  assert (zlen (take (Z.to_nat (entry_index e - log_first c)) (msc_entries c))
          = entry_index e - log_first c) as Hlen.
  { rewrite length_take. unfold log_last in Hr. lia. }
  constructor.
  - apply Hok.
  - rewrite (append_log_first _ _ _ Hok Hr). simpl msc_entries.
    apply contiguous_app. split; [by apply contiguous_take, Hok|].
    rewrite Hlen. by replace (log_first c + _) with (entry_index e) by lia.
  - rewrite (append_log_first _ _ _ Hok Hr). apply Hok.
  - unfold log_last. rewrite (append_log_first _ _ _ Hok Hr). simpl msc_entries.
    rewrite length_app, Nat2Z.inj_add, Hlen. lia.
Qed.

Lemma append_entries_lookup c e es i :
  storage_ok c → log_first c ≤ entry_index e ≤ log_last c + 1 →
  log_lookup (set_entries c
    (take (Z.to_nat (entry_index e - log_first c)) (msc_entries c) ++ e :: es)) i
  = if decide (entry_index e ≤ i)
    then (e :: es) !! Z.to_nat (i - entry_index e) else log_lookup c i.
Proof.
  intros Hok Hr. unfold log_lookup at 1. rewrite (append_log_first _ _ _ Hok Hr).
  unfold log_last in Hr. simpl msc_entries. unfold log_lookup.
  destruct (decide (log_first c ≤ i)); [|by rewrite decide_False by lia].
  case_decide.
  - rewrite lookup_app_r; rewrite length_take.
    + f_equal. lia.
    + lia.
  - rewrite lookup_app_l by (rewrite length_take; lia).
    by rewrite lookup_take_lt by lia.
Qed.

Lemma compact_entries_compute c k :
  storage_ok c → k ≤ log_last c + 1 →
  compact_entries c k =
    Return (set_entries c (drop (Z.to_nat (k - log_first c)) (msc_entries c)), Ok ()).
Proof.
  intros Hok Hk. pose proof (ok_first c Hok). pose proof (ok_last c Hok).
  pose proof (log_snap_index_range c Hok).
  unfold compact_entries. rewrite (first_entry_index_view c Hok). simpl.
  case_decide.
  { replace (Z.to_nat (k - log_first c)) with 0%nat by lia. by destruct c. }
  rewrite (last_entry_index_view c Hok). simpl. unfold log_last in *. nowrap.
  rewrite decide_False by lia.
  destruct (head (msc_entries c)) as [e|] eqn:Hh.
  - assert (log_first c = entry_index e) as <- by (unfold log_first; by rewrite Hh).
    nowrap. by rewrite drain_to_Return by lia.
  - apply head_None in Hh. rewrite Hh, drop_nil. by destruct c; simpl in *; subst.
Qed.

Lemma entry_term_compute c i :
  storage_ok c →
  entry_term c i = Return
    (if decide (i = log_snap_index c) then Ok (log_snap_term c)
     else if decide (i < log_first c) then Err (RaftStore Compacted)
     else match log_lookup c i with
          | Some e => Ok (entry_term_ e)
          | None => Err (RaftStore Unavailable)
          end).
Proof.
  intros Hok. pose proof (ok_first c Hok). pose proof (ok_last c Hok).
  unfold entry_term. rewrite (snapshot_index_view c Hok). simpl.
  case_decide; [by rewrite (snapshot_term_view c Hok)|].
  rewrite (first_entry_index_view c Hok). simpl.
  case_decide; [done|]. rewrite (last_entry_index_view c Hok). simpl.
  unfold log_lookup. destruct (decide (log_first c ≤ i)); [|lia].
  unfold log_last in *. case_decide.
  - by rewrite lookup_ge_None_2 by lia.
  - nowrap. destruct (lookup_lt_is_Some_2 (msc_entries c) (Z.to_nat (i - log_first c)))
      as [e ->]; [lia|done].
Qed.

Lemma set_snapshot_compute c s :
  snapshot_ok s → ∃ md conf,
    snap_metadata s = Some md ∧ md_conf_state md = Some conf ∧
    set_snapshot c s = Return {|
      msc_state := msc_state c;
      msc_entries := msc_entries c;
      msc_max_snapshot_diff := msc_max_snapshot_diff c;
      msc_snapshot := s;
      msc_snapshot_peer_requests :=
        filter (λ '(p, r),
          statisfies_snapshot_request (md_index md) conf p r = false)
          (msc_snapshot_peer_requests c) |}.
Proof.
  intros (md & conf & Hm & Hc & _). exists md, conf. split_and!; [done..|].
  unfold set_snapshot, snapshot_index, config_state, get_config_state, get_metadata.
  simpl. rewrite Hm. simpl. by rewrite Hc.
Qed.

(** The store with another snapshot and request table. *)
Definition replace_snapshot (c : MemoryStorageCore) (s : RaftSnapshot)
    (requests : gmap Z Z) : MemoryStorageCore := {|
  msc_state := msc_state c;
  msc_entries := msc_entries c;
  msc_max_snapshot_diff := msc_max_snapshot_diff c;
  msc_snapshot := s;
  msc_snapshot_peer_requests := requests
|}.

Lemma replace_snapshot_first c s requests e :
  head (msc_entries c) = Some e → log_first (replace_snapshot c s requests) = log_first c.
Proof. intros H. unfold log_first. simpl. by rewrite H. Qed.

Lemma replace_snapshot_ok c s requests e :
  storage_ok c → snapshot_ok s → head (msc_entries c) = Some e →
  (∀ md, snap_metadata s = Some md → log_first c ≤ md_index md + 1) →
  storage_ok (replace_snapshot c s requests).
Proof.
  intros Hok Hs He Hfirst.
  pose proof (replace_snapshot_first c s requests e He) as Hf.
  constructor; [done|..]; rewrite ?Hf; try apply Hok.
  - split; [apply Hok|]. destruct Hs as (md & _ & Hm & _).
    unfold log_snap_index. simpl. rewrite Hm. simpl. auto.
  - unfold log_last. rewrite Hf. apply Hok.
Qed.

(** The state [create_snapshot] leaves when it succeeds: the new snapshot, the
    log from the applied index on, and only the requests it leaves open. *)
Definition snapshotted (c : MemoryStorageCore) (applied term : Z)
    (conf : RaftConfigState) (data : bytes) : MemoryStorageCore :=
  set_entries
    (replace_snapshot c
      (create_raft_snapshot (create_raft_snapshot_metadata applied term conf) data)
      (filter (λ '(p, r), statisfies_snapshot_request applied conf p r = false)
         (msc_snapshot_peer_requests c)))
    (drop (Z.to_nat (applied - log_first c)) (msc_entries c)).

Lemma head_of_lookup {A} (l : list A) i x : l !! i = Some x → ∃ y, head l = Some y.
Proof. destruct l; [done|]. simpl. eauto. Qed.

Lemma snapshot_then_compact c applied term conf data e :
  storage_ok c → log_lookup c applied = Some e →
  (c1 ← set_snapshot c (create_raft_snapshot
          (create_raft_snapshot_metadata applied term conf) data);
   compact_entries c1 applied) = Return (snapshotted c applied term conf data, Ok ()).
Proof.
  intros Hok He. pose proof (ok_first c Hok) as Hf. pose proof (ok_last c Hok) as Hl.
  unfold log_lookup in He. case_decide; [|done].
  pose proof (lookup_lt_Some _ _ _ He). destruct (head_of_lookup _ _ _ He) as [e0 Hh].
  unfold log_last in Hl.
  assert (snapshot_ok (create_raft_snapshot
            (create_raft_snapshot_metadata applied term conf) data)) as Hs.
  { eexists _, conf. split_and!; [done..| |]; simpl; lia. }
  destruct (set_snapshot_compute c _ Hs) as (md & cf & Hm & Hc & ->).
  simpl in Hm. injection Hm as <-. simpl in Hc. injection Hc as <-. simpl.
  fold (replace_snapshot c (create_raft_snapshot
          (create_raft_snapshot_metadata applied term conf) data)
          (filter (λ '(p, r), statisfies_snapshot_request applied conf p r = false)
            (msc_snapshot_peer_requests c))).
  rewrite compact_entries_compute.
  - by rewrite (replace_snapshot_first _ _ _ _ Hh).
  - eapply replace_snapshot_ok; [done..|]. intros md [= <-]. simpl. lia.
  - unfold log_last. rewrite (replace_snapshot_first _ _ _ _ Hh). simpl. lia.
Qed.

Lemma create_snapshot_compute c applied conf data :
  storage_ok c →
  create_snapshot c applied conf data =
    if decide (log_last c < applied) then Panic
    else match log_lookup c applied with
    | None => Return (c, Err (RaftStore SnapshotOutOfDate))
    | Some e =>
        let term := if decide (applied = log_snap_index c)
                    then log_snap_term c else entry_term_ e in
        Return (snapshotted c applied term conf data, Ok ())
    end.
Proof.
  intros Hok. unfold create_snapshot. rewrite (last_entry_index_view c Hok). simpl.
  case_decide; [done|]. rewrite (first_entry_index_view c Hok). simpl.
  case_decide.
  { unfold log_lookup. by rewrite decide_False by lia. }
  rewrite (entry_term_compute c _ Hok). simpl.
  assert (is_Some (log_lookup c applied)) as [e He].
  { unfold log_lookup, log_last in *. rewrite decide_True by lia.
    apply lookup_lt_is_Some_2. lia. }
  rewrite He. case_decide; [|case_decide; [lia|]];
    by apply (snapshot_then_compact _ _ _ _ _ e).
Qed.

Lemma snapshotted_first c applied term conf data e :
  storage_ok c → log_lookup c applied = Some e →
  log_first (snapshotted c applied term conf data) = applied.
Proof.
  intros Hok He. unfold log_lookup in He. case_decide; [|done].
  unfold log_first at 1. simpl. rewrite head_lookup, lookup_drop, Nat.add_0_r, He.
  simpl. rewrite (contiguous_lookup _ _ _ _ (ok_contiguous c Hok) He). lia.
Qed.

Lemma snapshotted_ok c applied term conf data e :
  storage_ok c → log_lookup c applied = Some e →
  storage_ok (snapshotted c applied term conf data).
Proof.
  intros Hok He. pose proof (snapshotted_first c applied term conf data e Hok He) as Hf.
  pose proof (ok_last c Hok) as Hl. pose proof (ok_first c Hok) as Hf0.
  unfold log_lookup in He. case_decide; [|done].
  pose proof (lookup_lt_Some _ _ _ He). unfold log_last in Hl.
  constructor.
  - eexists _, conf. split_and!; [done..| |]; simpl; lia.
  - rewrite Hf. simpl. replace applied with
      (log_first c + Z.of_nat (Z.to_nat (applied - log_first c))) at 1 by lia.
    apply contiguous_drop; [lia|apply Hok].
  - rewrite Hf. unfold log_snap_index. simpl. lia.
  - unfold log_last. rewrite Hf. simpl. rewrite length_drop. lia.
Qed.

Lemma snapshotted_lookup c applied term conf data e i :
  storage_ok c → log_lookup c applied = Some e →
  log_lookup (snapshotted c applied term conf data) i =
    if decide (applied ≤ i) then log_lookup c i else None.
Proof.
  intros Hok He. unfold log_lookup at 1.
  rewrite (snapshotted_first c applied term conf data e Hok He).
  case_decide; [|done]. unfold log_lookup in *. case_decide; [|done].
  rewrite decide_True by lia. simpl. rewrite lookup_drop. f_equal. lia.
Qed.

Lemma apply_snapshot_compute c s md conf :
  storage_ok c → snap_metadata s = Some md → md_conf_state md = Some conf →
  0 ≤ md_index md < two64 - 1 →
  apply_snapshot c s = Return
    (if decide (md_index md < log_first c)
     then (c, Err (RaftStore SnapshotOutOfDate))
     else (replace_snapshot
             (set_entries (set_hard_state c {|
                hs_commit := md_index md;
                hs_term := Z.max (hs_term (msc_state c)) (md_term md);
                hs_vote := hs_vote (msc_state c) |}) []) s
             (filter (λ '(p, r),
                statisfies_snapshot_request (md_index md) conf p r = false)
                (msc_snapshot_peer_requests c)), Ok ())).
Proof.
  intros Hok Hm Hc Hr. unfold apply_snapshot, get_metadata. rewrite Hm. simpl.
  rewrite (first_entry_index_view c Hok). simpl. case_decide; [done|].
  assert (snapshot_ok s) as Hs by (exists md, conf; done).
  destruct (set_snapshot_compute (set_entries (set_hard_state c {|
                hs_commit := md_index md;
                hs_term := Z.max (hs_term (msc_state c)) (md_term md);
                hs_vote := hs_vote (msc_state c) |}) []) s Hs)
    as (md' & cf & Hm' & Hc' & ->).
  by simplify_eq.
Qed.

Lemma installed_snapshot_ok c s md requests :
  snapshot_ok s → snap_metadata s = Some md →
  storage_ok (replace_snapshot (set_entries c []) s requests).
Proof.
  intros (md' & conf & Hm & Hc & Hr) Hm'. rewrite Hm in Hm'. injection Hm' as ->.
  constructor.
  - by exists md, conf.
  - done.
  - unfold log_first, log_snap_index. simpl. rewrite Hm. simpl. lia.
  - unfold log_last, log_first, log_snap_index. simpl. rewrite Hm. simpl. lia.
Qed.

(** Keeping only the requests a snapshot leaves open leaves only open requests. *)
Lemma filtered_requests_pending c s requests md conf :
  snap_metadata s = Some md → md_conf_state md = Some conf →
  requests_pending (replace_snapshot c s
    (filter (λ '(p, r), statisfies_snapshot_request (md_index md) conf p r = false)
       requests)).
Proof.
  intros Hm Hc conf'. unfold config_state, get_config_state, get_metadata,
    log_snap_index. simpl. rewrite Hm. simpl. rewrite Hc. intros [= <-] p r Hpr.
  by apply map_lookup_filter_Some in Hpr as [_ ?].
Qed.

Lemma snapshotted_requests_pending c applied term conf data :
  requests_pending (snapshotted c applied term conf data).
Proof.
  exact (filtered_requests_pending c
    (create_raft_snapshot (create_raft_snapshot_metadata applied term conf) data)
    (msc_snapshot_peer_requests c)
    (create_raft_snapshot_metadata applied term conf) conf eq_refl eq_refl).
Qed.

(** ** The operations of the [Store] and [Storage] interfaces as steps *)

Inductive storage_step : MemoryStorageCore → MemoryStorageCore → Prop :=
| step_set_hard_state c hs : storage_step c (set_hard_state c hs)
| step_append c es c' r :
    (∀ e, head es = Some e → contiguous (entry_index e) es ∧
       entry_index e + zlen es < two64) →
    append_entries c es = Return (c', r) → storage_step c c'
| step_apply_snapshot c s c' r :
    snapshot_ok s → apply_snapshot c s = Return (c', r) → storage_step c c'
| step_create_snapshot c applied conf data c' r :
    create_snapshot c applied conf data = Return (c', r) → storage_step c c'
| step_snapshot c request_index peer_id c' r :
    storage_snapshot c request_index peer_id = Return (c', r) → storage_step c c'.

Inductive storage_reachable : MemoryStorageCore → Prop :=
| reach_new d : storage_reachable (storage_new d)
| reach_step c c' : storage_reachable c → storage_step c c' → storage_reachable c'.

(** The invariant of the store: it is well formed, its log starts at the
    snapshot or right after it, and only unsatisfied requests are remembered. *)
Definition storage_inv (c : MemoryStorageCore) : Prop :=
  storage_ok c ∧ log_snap_index c ≤ log_first c ∧ requests_pending c.

Lemma storage_new_inv d : storage_inv (storage_new d).
Proof.
  split_and!; [|done|intros ? _; apply map_Forall_empty].
  constructor; try done.
  eexists _, _. split_and!; [done..|]. simpl. lia.
Qed.

Lemma append_entries_inv c es c' r :
  storage_inv c →
  (∀ e, head es = Some e → contiguous (entry_index e) es ∧
     entry_index e + zlen es < two64) →
  append_entries c es = Return (c', r) → storage_inv c'.
Proof.
  intros (Hok & Hsf & Hreq) Hes. destruct es as [|e es]; [intros [= <- _]; done|].
  destruct (Hes e) as [Hcont Hmax]; [done|].
  rewrite append_entries_compute by done. case_decide; [|done]. intros [= <- _].
  split_and!; [by apply append_entries_storage_ok| |done].
  by rewrite append_log_first.
Qed.

Lemma apply_snapshot_inv c s c' r :
  storage_inv c → snapshot_ok s → apply_snapshot c s = Return (c', r) → storage_inv c'.
Proof.
  intros (Hok & Hsf & Hreq) Hs. pose proof Hs as (md & conf & Hm & Hc & Hr).
  rewrite (apply_snapshot_compute c s md conf) by done.
  case_decide; intros [= <- _]; [done|]. split_and!.
  - by eapply installed_snapshot_ok.
  - unfold log_first. simpl. lia.
  - by apply filtered_requests_pending.
Qed.

Lemma create_snapshot_inv c applied conf data c' r :
  storage_inv c → create_snapshot c applied conf data = Return (c', r) → storage_inv c'.
Proof.
  intros (Hok & Hsf & Hreq). rewrite create_snapshot_compute by done.
  case_decide; [done|].
  destruct (log_lookup c applied) as [e|] eqn:He; intros [= <- _]; [|done]. split_and!.
  - by eapply snapshotted_ok.
  - by erewrite snapshotted_first.
  - apply snapshotted_requests_pending.
Qed.

Lemma storage_snapshot_inv c request_index peer_id c' r :
  storage_inv c → storage_snapshot c request_index peer_id = Return (c', r) →
  storage_inv c'.
Proof.
  intros (Hok & Hsf & Hreq). unfold storage_snapshot, try_satisfy_request.
  rewrite (snapshot_index_view c Hok). simpl.
  destruct (config_state_view c Hok) as [conf Hconf]. rewrite Hconf. simpl.
  destruct (statisfies_snapshot_request _ _ _ _) eqn:Hsat; simpl; intros [= <- _]; [done|].
  split_and!; [by destruct Hok|done|]. intros conf' Hconf'.
  change (config_state c = Return conf') in Hconf'.
  rewrite Hconf in Hconf'. injection Hconf' as <-. apply map_Forall_insert_2; [done|]. by apply Hreq.
Qed.

Lemma storage_step_inv c c' : storage_inv c → storage_step c c' → storage_inv c'.
Proof.
  intros Hinv Hstep. destruct Hstep;
    eauto using append_entries_inv, apply_snapshot_inv, create_snapshot_inv,
      storage_snapshot_inv.
  destruct Hinv as ([] & ? & ?). by split_and!.
Qed.

(** ** Properties *)

(** C7: in every store reachable through the [Store] and [Storage] interfaces
    the log is contiguous, starts at the snapshot index or right after it, and
    the remembered snapshot requests are exactly ones the stored snapshot does
    not satisfy. *)
Theorem storage_reachable_inv c : storage_reachable c → storage_inv c.
Proof. induction 1; eauto using storage_new_inv, storage_step_inv. Qed.

(** C28: [append_entries] on a reachable store with a non-empty contiguous batch
    panics exactly when the batch would overwrite compacted entries or leave a
    gap; otherwise it succeeds, replaces the log from the first new index on and
    leaves every earlier entry as it was. *)
Theorem append_entries_spec c e es :
  storage_inv c → contiguous (entry_index e) (e :: es) →
  entry_index e + zlen (e :: es) < two64 →
  (log_first c ≤ entry_index e ≤ log_last c + 1 →
     ∃ c', append_entries c (e :: es) = Return (c', Ok ()) ∧
       log_first c' = log_first c ∧
       log_last c' = entry_index e + zlen (e :: es) - 1 ∧
       ∀ i, log_lookup c' i =
         if decide (entry_index e ≤ i)
         then (e :: es) !! Z.to_nat (i - entry_index e) else log_lookup c i) ∧
  (¬ log_first c ≤ entry_index e ≤ log_last c + 1 →
     append_entries c (e :: es) = Panic).
Proof.
  intros (Hok & _ & _) Hcont Hmax. rewrite append_entries_compute by done.
  split; intros Hr; [|by rewrite decide_False by done].
  rewrite decide_True by done. eexists. split_and!; [done| | |].
  - by apply append_log_first.
  - unfold log_last. rewrite append_log_first by done. simpl.
    unfold log_last in Hr. rewrite length_app, length_take. simpl. lia.
  - intros i. by apply append_entries_lookup.
Qed.

(** [create_snapshot] panics beyond the log, reports an out-of-date snapshot
    before it (leaving the store alone), and otherwise installs the snapshot,
    drops exactly the entries before the applied index and leaves the term
    reported for every later index unchanged. *)
Theorem create_snapshot_spec c applied conf data :
  storage_inv c →
  (log_last c < applied → create_snapshot c applied conf data = Panic) ∧
  (applied ≤ log_last c → applied < log_first c →
     create_snapshot c applied conf data
     = Return (c, Err (RaftStore SnapshotOutOfDate))) ∧
  (log_first c ≤ applied ≤ log_last c →
     ∃ c', create_snapshot c applied conf data = Return (c', Ok ()) ∧
       log_snap_index c' = applied ∧ snap_data (msc_snapshot c') = data ∧
       config_state c' = Return conf ∧ log_first c' = applied ∧
       (∀ i, log_lookup c' i = if decide (applied ≤ i) then log_lookup c i else None) ∧
       ∀ i, applied ≤ i → entry_term c' i = entry_term c i).
Proof.
  intros (Hok & Hsf & _). rewrite create_snapshot_compute by done.
  split_and!; [intros; by rewrite decide_True by lia|..].
  - intros. rewrite decide_False by lia. unfold log_lookup.
    by rewrite decide_False by lia.
  - intros Hr. rewrite decide_False by lia.
    assert (is_Some (log_lookup c applied)) as [e He].
    { unfold log_lookup, log_last in *. rewrite decide_True by lia.
      apply lookup_lt_is_Some_2. lia. }
    rewrite He. eexists. split_and!; [done..| | |].
    + by eapply snapshotted_first.
    + intros i. by eapply snapshotted_lookup.
    + intros i Hi. rewrite !entry_term_compute by eauto using snapshotted_ok.
      erewrite snapshotted_first, snapshotted_lookup by done.
      rewrite (decide_True (P:=applied ≤ i)) by done.
      unfold log_snap_index at 1, log_snap_term at 1. simpl.
      destruct (decide (i = applied)) as [->|Hne].
      * rewrite He. repeat case_decide; done || lia.
      * repeat case_decide; done || lia.
Qed.

(** a peer's remembered request that the applied index and configuration
    would satisfy makes [should_snapshot] ask for a snapshot; after that
    snapshot is created the peer's request is answered with it and is no longer
    remembered. *)
Theorem requested_snapshot_is_served c p r applied conf data :
  storage_inv c → log_first c ≤ applied ≤ log_last c →
  msc_snapshot_peer_requests c !! p = Some r →
  statisfies_snapshot_request applied conf p r = true →
  should_snapshot c applied conf = Return true ∧
  ∃ c' s, create_snapshot c applied conf data = Return (c', Ok ()) ∧
    msc_snapshot_peer_requests c' !! p = None ∧
    storage_snapshot c' r p = Return (c', Ok s) ∧
    snap_data s = data ∧ get_config_state s = Return conf.
Proof.
  intros (Hok & Hsf & _) Hr Hp Hsat. split.
  - unfold should_snapshot. rewrite (snapshot_index_view c Hok). simpl.
    case_decide; [done|]. f_equal. apply existsb_exists. exists (p, r). split; [|done].
    by apply list_elem_of_In, elem_of_map_to_list.
  - rewrite create_snapshot_compute by done. rewrite decide_False by lia.
    assert (is_Some (log_lookup c applied)) as [e He].
    { unfold log_lookup, log_last in *. rewrite decide_True by lia.
      apply lookup_lt_is_Some_2. lia. }
    rewrite He. eexists _, _. split; [done|]. split; [|split].
    + simpl. apply map_lookup_filter_None. right. intros r' Hr'. simplify_eq.
      by rewrite Hsat.
    + unfold storage_snapshot, try_satisfy_request, snapshot_index, config_state,
        get_config_state, get_metadata. simpl. by rewrite Hsat.
    + done.
Qed.

(** [entries] on a reachable store never panics for a range inside the log;
    what it returns is, index by index, the log from the low index on, and it is
    the whole range when no size limit is given. *)
Theorem storage_entries_spec limit_size c low high max_size :
  (∀ l m, limit_size l m `prefix_of` l) → (∀ l, limit_size l None = l) →
  storage_inv c → log_first c ≤ low ≤ high → high ≤ log_last c + 1 → low < high →
  ∃ l, storage_entries limit_size c low high max_size = Return (Ok l) ∧
    (∀ j e, l !! j = Some e → log_lookup c (low + Z.of_nat j) = Some e) ∧
    zlen l ≤ high - low ∧ (max_size = None → zlen l = high - low).
Proof.
  intros Hpre Hnone (Hok & _ & _) Hlow Hhigh Hlt.
  pose proof (ok_first c Hok). pose proof (ok_last c Hok).
  pose proof (log_snap_index_range c Hok).
  unfold storage_entries, log_last in *. destruct (msc_entries c) as [|e0 es0] eqn:Hes.
  { simpl in *. lia. }
  rewrite <- Hes in *. rewrite (first_entry_index_view c Hok). simpl.
  rewrite decide_False by lia. rewrite (last_entry_index_view c Hok). simpl.
  unfold log_last. nowrap. rewrite decide_False by lia.
  rewrite slice_Return by lia. simpl. eexists. split; [done|].
  set (sl := take _ _).
  assert (zlen sl = high - low) as Hsl.
  { unfold sl. rewrite length_take, length_drop. lia. }
  destruct (Hpre sl max_size) as [k Hk]. split_and!.
  - intros j e Hj. unfold log_lookup. rewrite decide_True by lia.
    assert (sl !! j = Some e) as Hj' by (rewrite Hk; by apply lookup_app_l_Some).
    unfold sl in Hj'. apply lookup_take_Some in Hj' as [Hj' _].
    rewrite lookup_drop in Hj'. rewrite <- Hj'. f_equal. lia.
  - rewrite Hk, length_app in Hsl. lia.
  - intros ->. by rewrite Hnone.
Qed.

(** ** Witnesses: a store with three entries and one pending request *)

Definition sample_entries : list RaftEntry :=
  [create_empty_raft_entry 1 1; create_empty_raft_entry 2 1; create_empty_raft_entry 3 2].

Definition sample_conf : RaftConfigState := create_raft_config_state [1; 7].

Definition sample_store : MemoryStorageCore :=
  set_peer_requests (set_entries (storage_new 10) sample_entries) {[7 := 2]}.

Lemma sample_store_reachable : storage_reachable sample_store.
Proof.
  apply (reach_step (set_entries (storage_new 10) sample_entries));
    [eapply reach_step; [apply (reach_new 10)|]|].
  - eapply (step_append _ sample_entries); [|reflexivity].
    intros e [= <-]. by vm_compute.
  - by eapply (step_snapshot _ 2 7).
Qed.

Lemma sample_store_inv : storage_inv sample_store.
Proof.
  eapply (storage_snapshot_inv (set_entries (storage_new 10) sample_entries) 2 7);
    [|reflexivity].
  eapply (append_entries_inv (storage_new 10) sample_entries);
    [apply (storage_new_inv 10)| |reflexivity].
  intros e [= <-]. by vm_compute.
Qed.

Lemma storage_reachable_inv_witness :
  storage_reachable sample_store ∧ storage_inv sample_store.
Proof.
  split; [apply sample_store_reachable|].
  apply (storage_reachable_inv sample_store). apply sample_store_reachable.
Defined.

Lemma append_entries_spec_witness :
  ∃ c', append_entries sample_store [create_empty_raft_entry 3 4]
        = Return (c', Ok ()) ∧ log_last c' = 3 ∧
        log_lookup c' 2 = Some (create_empty_raft_entry 2 1) ∧
        append_entries sample_store [create_empty_raft_entry 5 4] = Panic.
Proof.
  destruct (append_entries_spec sample_store (create_empty_raft_entry 3 4) [])
    as [Hok _]; [apply sample_store_inv|by vm_compute|by vm_compute|].
  destruct (append_entries_spec sample_store (create_empty_raft_entry 5 4) [])
    as [_ Hbad]; [apply sample_store_inv|by vm_compute|by vm_compute|].
  destruct Hok as (c' & H1 & _ & H3 & H4); [by vm_compute|].
  exists c'. split_and!; [done|done| |apply Hbad; by vm_compute; intros [? []]].
  rewrite H4. reflexivity.
Defined.

Lemma create_snapshot_spec_witness :
  ∃ c', create_snapshot sample_store 2 sample_conf [] = Return (c', Ok ()) ∧
        log_first c' = 2 ∧ entry_term c' 3 = Return (Ok 2).
Proof.
  destruct (create_snapshot_spec sample_store 2 sample_conf []) as (_ & _ & H);
    [apply sample_store_inv|].
  destruct H as (c' & H1 & _ & _ & _ & H5 & _ & H7); [by vm_compute|].
  exists c'. split_and!; [done|done|]. rewrite H7 by lia. reflexivity.
Defined.

Lemma requested_snapshot_is_served_witness :
  should_snapshot sample_store 2 sample_conf = Return true ∧
  ∃ c' s, create_snapshot sample_store 2 sample_conf [] = Return (c', Ok ()) ∧
    storage_snapshot c' 2 7 = Return (c', Ok s).
Proof.
  destruct (requested_snapshot_is_served sample_store 7 2 2 sample_conf [])
    as (H1 & c' & s & H2 & _ & H3 & _);
    [apply sample_store_inv|by vm_compute|reflexivity|reflexivity|].
  split; [done|]. by exists c', s.
Defined.

Lemma storage_entries_spec_witness :
  ∃ l, storage_entries
         (λ l m, match m with Some n => take (Z.to_nat n) l | None => l end)
         sample_store 2 4 (Some 1) = Return (Ok l) ∧ zlen l ≤ 2.
Proof.
  destruct (storage_entries_spec
    (λ l m, match m with Some n => take (Z.to_nat n) l | None => l end)
    sample_store 2 4 (Some 1)) as (l & H1 & _ & H3 & _).
  - intros l [n|]; [apply prefix_take|done].
  - done.
  - apply sample_store_inv.
  - by vm_compute.
  - by vm_compute.
  - lia.
  - by exists l.
Defined.
