(* ===== verification/MemoryStorage.v ===== *)
(** * The shared cell of the log storage

    [MemoryStorage] of [src/runtime/src/storage.rs]: the [Store] and [Storage] interfaces over a
    [RefCell] of the core ([Storage]).  Every call borrows the core for its own time only, so no
    call ever finds it borrowed, and the calls are those of the core. *)

From S2P Require Import Prelude RaftTypes Storage.

(** The core with the flag of the cell. *)
Record MemoryStorage := {
  ms_core : MemoryStorageCore;
  ms_borrowed : bool
}.

Definition memory_storage_new (max_snapshot_diff : Z) : MemoryStorage :=
  {| ms_core := storage_new max_snapshot_diff; ms_borrowed := false |}.

(** [borrow_mut] and [borrow] panic on a core that is borrowed. *)
Definition borrow_mut {A} (s : MemoryStorage)
    (f : MemoryStorageCore → outcome (MemoryStorageCore * A)) : outcome (MemoryStorage * A) :=
  if ms_borrowed s then Panic
  else '(c, a) ← f (ms_core s); Return ({| ms_core := c; ms_borrowed := false |}, a).

Definition borrow {A} (s : MemoryStorage) (f : MemoryStorageCore → outcome A) : outcome A :=
  if ms_borrowed s then Panic else f (ms_core s).

Definition memory_compact_entries (s : MemoryStorage) (compact_index : Z)
    : outcome (MemoryStorage * result RaftError unit) :=
  borrow_mut s (λ c, compact_entries c compact_index).

(** ** [Store] *)

Definition memory_set_hard_state (s : MemoryStorage) (state : RaftHardState)
    : outcome (MemoryStorage * unit) :=
  borrow_mut s (λ c, Return (set_hard_state c state, ())).

Definition memory_append_entries (s : MemoryStorage) (entries : list RaftEntry)
    : outcome (MemoryStorage * result RaftError unit) :=
  borrow_mut s (λ c, append_entries c entries).

Definition memory_apply_snapshot (s : MemoryStorage) (snapshot : RaftSnapshot)
    : outcome (MemoryStorage * result RaftError unit) :=
  borrow_mut s (λ c, apply_snapshot c snapshot).

Definition memory_create_snapshot (s : MemoryStorage) (applied_index : Z)
    (config_state : RaftConfigState) (snapshot_data : bytes)
    : outcome (MemoryStorage * result RaftError unit) :=
  borrow_mut s (λ c, create_snapshot c applied_index config_state snapshot_data).

Definition memory_should_snapshot (s : MemoryStorage) (applied_index : Z)
    (config_state : RaftConfigState) : outcome bool :=
  borrow s (λ c, should_snapshot c applied_index config_state).

Definition memory_latest_snapshot_size (s : MemoryStorage) : outcome Z :=
  borrow s (λ c, Return (latest_snapshot_size c)).

(** ** [Storage] *)

Definition memory_initial_state (s : MemoryStorage)
    : outcome (result RaftError (RaftHardState * RaftConfigState)) :=
  borrow s initial_state.

Definition memory_entries (limit_size : list RaftEntry → option Z → list RaftEntry)
    (s : MemoryStorage) (low_index high_index : Z) (entries_max_size : option Z)
    : outcome (result RaftError (list RaftEntry)) :=
  borrow s (λ c, storage_entries limit_size c low_index high_index entries_max_size).

Definition memory_term (s : MemoryStorage) (index : Z) : outcome (result RaftError Z) :=
  borrow s (λ c, entry_term c index).

Definition memory_first_index (s : MemoryStorage) : outcome (result RaftError Z) :=
  index ← borrow s first_entry_index; Return (Ok index).

Definition memory_last_index (s : MemoryStorage) : outcome (result RaftError Z) :=
  index ← borrow s last_entry_index; Return (Ok index).

Definition memory_snapshot (s : MemoryStorage) (request_index peer_id : Z)
    : outcome (MemoryStorage * result RaftError RaftSnapshot) :=
  borrow_mut s (λ c, storage_snapshot c request_index peer_id).

(** ** Calls *)

(** The calls that change the storage. *)
Inductive memory_step : MemoryStorage → MemoryStorage → Prop :=
| memory_step_set_hard_state s hs s' :
    memory_set_hard_state s hs = Return (s', ()) → memory_step s s'
| memory_step_append s es s' r :
    (∀ e, head es = Some e → contiguous (entry_index e) es ∧ entry_index e + zlen es < two64) →
    memory_append_entries s es = Return (s', r) → memory_step s s'
| memory_step_apply s snapshot s' r :
    snapshot_ok snapshot → memory_apply_snapshot s snapshot = Return (s', r) → memory_step s s'
| memory_step_create s applied conf data s' r :
    memory_create_snapshot s applied conf data = Return (s', r) → memory_step s s'
| memory_step_snapshot s request_index peer_id s' r :
    memory_snapshot s request_index peer_id = Return (s', r) → memory_step s s'.

Lemma borrow_mut_inv {A} s (f : MemoryStorageCore → outcome (MemoryStorageCore * A)) s' a :
  borrow_mut s f = Return (s', a) → f (ms_core s) = Return (ms_core s', a) ∧ ms_borrowed s' = false.
Proof.
  unfold borrow_mut. destruct (ms_borrowed s); [done|]. intros H.
  apply bind_Return in H as ([c a'] & H & Heq). by injection Heq as <- <-.
Qed.

(** A step of the storage is one of its core. *)
Lemma memory_step_core s s' :
  memory_step s s' → storage_step (ms_core s) (ms_core s') ∧ ms_borrowed s' = false.
Proof.
  intros Hstep. destruct Hstep as [s hs s' H|s es s' r Hes H|s sn s' r Hsn H|s a c d s' r H|s r p s' x H];
    apply borrow_mut_inv in H as [H ->]; (split; [|done]).
  - injection H as <-. apply step_set_hard_state.
  - by eapply step_append.
  - by eapply step_apply_snapshot.
  - by eapply step_create_snapshot.
  - by eapply step_snapshot.
Qed.

(** However the storage is called, its core is one that the core's own calls reach, hence in
    order, and the next call finds it free: a call panics only where the core's does. *)
Theorem memory_storage_free d s :
  rtc memory_step (memory_storage_new d) s →
  storage_inv (ms_core s) ∧
  (∀ A (f : MemoryStorageCore → outcome (MemoryStorageCore * A)),
     borrow_mut s f
     = '(c, a) ← f (ms_core s); Return ({| ms_core := c; ms_borrowed := false |}, a)) ∧
  (∀ A (f : MemoryStorageCore → outcome A), borrow s f = f (ms_core s)).
Proof.
  intros Hsteps.
  assert (storage_inv (ms_core s) ∧ ms_borrowed s = false) as [Hinv Hfree].
  { assert (storage_inv (ms_core (memory_storage_new d)) ∧ ms_borrowed (memory_storage_new d) = false)
      as Hnew by (split; [apply storage_new_inv|done]).
    revert Hnew. generalize dependent (memory_storage_new d). clear d.
    induction 1 as [s|s s1 s' Hstep _ IH]; intros [Hinv Hfree]; [done|].
    apply memory_step_core in Hstep as [Hc Hf]. apply IH. split; [|done].
    by eapply storage_step_inv. }
  split; [done|]. unfold borrow_mut, borrow. by rewrite Hfree.
Qed.
