(* ===== verification/Endpoint.v ===== *)
(** * Messages of the replica endpoint

    The messages of [src/proto/src/endpoint.proto] that the runtime's
    components build and take apart, as records with the fields of the schema;
    a [oneof] is an option of an inductive type with one constructor per field,
    an enumeration is the integer that goes over the wire. *)

From S2P Require Import Prelude RaftTypes.

(** ** Replica configuration *)

Record SnapshotConfig := {
  cfg_snapshot_count : Z;
  cfg_chunk_size : Z;
  cfg_max_pending_chunks : Z
}.

(** ** Snapshot delivery *)

Record DeliverSystemMessage := {
  dsm_recipient_replica_id : Z;
  dsm_sender_replica_id : Z;
  dsm_message_contents : bytes
}.

Record DeliverSnapshotRequest := {
  req_recipient_replica_id : Z;
  req_sender_replica_id : Z;
  req_delivery_id : Z;
  req_payload_contents : bytes
}.

Record SnapshotHeader := {
  hdr_snapshot_size : Z;
  hdr_snapshot_metadata : bytes;
  hdr_chunk_contents : bytes
}.

Record SnapshotChunk := {
  chk_chunk_index : Z;
  chk_chunk_contents : bytes
}.

Inductive RequestPayloadIt :=
| PayloadHeader (header : SnapshotHeader)
| PayloadChunk (chunk : SnapshotChunk).

Record RequestPayload := {
  rqp_snapshot_id : Z;
  rqp_it : option RequestPayloadIt
}.

Record DeliverSnapshotResponse := {
  resp_recipient_replica_id : Z;
  resp_sender_replica_id : Z;
  resp_delivery_id : Z;
  resp_payload_contents : bytes
}.

Record ResponsePayload := {
  rsp_snapshot_id : Z;
  rsp_chunk_index : Z;
  rsp_status : Z
}.

Definition SnapshotStatusUnspecified : Z := 0.

Definition SnapshotStatusAccepted : Z := 1.

Definition SnapshotStatusRejected : Z := 2.

Record DeliverSnapshotFailure := {
  fail_sender_replica_id : Z;
  fail_delivery_id : Z
}.

Record DeliverAppMessage := {
  app_correlation_id : Z;
  app_message_header : bytes;
  app_message_payload : bytes
}.

(** ** Replica control *)

Record RaftConfig := {
  rc_tick_period : Z;
  rc_election_tick : Z;
  rc_heartbeat_tick : Z;
  rc_max_size_per_msg : Z;
  rc_snapshot_config : option SnapshotConfig;
  rc_handshake_retry_tick : Z
}.

Record ChangeClusterRequest := {
  ccr_change_id : Z;
  ccr_replica_id : Z;
  ccr_change_type : Z
}.

Record ChangeClusterResponse := {
  ccs_change_id : Z;
  ccs_change_status : Z
}.

Record CheckClusterResponse := {
  chk_leader_replica_id : Z;
  chk_leader_term : Z;
  chk_cluster_replica_ids : list Z;
  chk_has_pending_changes : bool
}.

Record GetReplicaStateResponse := {
  grs_applied_index : Z;
  grs_latest_snapshot_size : Z
}.

Record LogMessage := { log_severity : Z; log_message : string }.

(** ** Secure channel handshake

    The inner messages are those of the Oak session protocol, which is not part
    of the repository; the source only ever builds them with empty fields, and
    the types of those fields are parameters. *)

Class OakSession : Type := {
  EndorsedEvidence : Type;
  AttestationBinding : Type;
  HandshakeRequestType : Type;
  HandshakeResponseType : Type;
  ReferenceValues : Type
}.

Section handshake_messages.
Context {OS : OakSession}.

Record AttestRequest := { areq_endorsed_evidence : list EndorsedEvidence }.

Record AttestResponse := { aresp_endorsed_evidence : list EndorsedEvidence }.

Record HandshakeRequest := {
  hreq_attestation_binding : option AttestationBinding;
  hreq_handshake_type : option HandshakeRequestType
}.

Record HandshakeResponse := {
  hresp_attestation_binding : option AttestationBinding;
  hresp_handshake_type : option HandshakeResponseType
}.

Inductive InitiatorRequestMessage :=
| InitiatorAttestRequest (m : AttestRequest)
| InitiatorHandshakeRequest (m : HandshakeRequest).

Inductive RecipientResponseMessage :=
| RecipientAttestResponse (m : AttestResponse)
| RecipientHandshakeResponse (m : HandshakeResponse).

Inductive NoiseProtocolMessage :=
| InitiatorRequest (message : option InitiatorRequestMessage)
| RecipientResponse (message : option RecipientResponseMessage).

Inductive Encryption := NoiseProtocol (message : option NoiseProtocolMessage).

Record SecureChannelHandshake := {
  sch_recipient_replica_id : Z;
  sch_sender_replica_id : Z;
  sch_encryption : option Encryption
}.

Record StartReplicaRequest := {
  srr_is_leader : bool;
  srr_replica_id_hint : Z;
  srr_raft_config : option RaftConfig;
  srr_app_config : bytes;
  srr_attestation_config : option (option ReferenceValues);
  srr_is_ephemeral : bool
}.

(** ** The endpoint's envelopes *)

Inductive InMsg :=
| InStartReplica (m : StartReplicaRequest)
| InStopReplica
| InChangeCluster (m : ChangeClusterRequest)
| InCheckCluster
| InDeliverSystemMessage (m : DeliverSystemMessage)
| InDeliverSnapshotRequest (m : DeliverSnapshotRequest)
| InDeliverSnapshotResponse (m : DeliverSnapshotResponse)
| InDeliverSnapshotFailure (m : DeliverSnapshotFailure)
| InGetReplicaState
| InSecureChannelHandshake (m : SecureChannelHandshake)
| InDeliverAppMessage (m : DeliverAppMessage).

Inductive OutMsg :=
| OutStartReplica (replica_id : Z)
| OutStopReplica
| OutLog (m : LogMessage)
| OutChangeCluster (m : ChangeClusterResponse)
| OutCheckCluster (m : CheckClusterResponse)
| OutDeliverSystemMessage (m : DeliverSystemMessage)
| OutDeliverSnapshotRequest (m : DeliverSnapshotRequest)
| OutDeliverSnapshotResponse (m : DeliverSnapshotResponse)
| OutGetReplicaState (m : GetReplicaStateResponse)
| OutSecureChannelHandshake (m : SecureChannelHandshake)
| OutDeliverAppMessage (m : DeliverAppMessage).

Record OutMessage := { out_msg : option OutMsg }.
End handshake_messages.

(** ** Countability, for concrete codecs *)

#[global] Instance SnapshotHeader_eq_dec : EqDecision SnapshotHeader.
Proof. solve_decision. Defined.
#[global] Instance SnapshotChunk_eq_dec : EqDecision SnapshotChunk.
Proof. solve_decision. Defined.
#[global] Instance RequestPayloadIt_eq_dec : EqDecision RequestPayloadIt.
Proof. solve_decision. Defined.
#[global] Instance RequestPayload_eq_dec : EqDecision RequestPayload.
Proof. solve_decision. Defined.
#[global] Instance ResponsePayload_eq_dec : EqDecision ResponsePayload.
Proof. solve_decision. Defined.

#[global] Instance SnapshotHeader_countable : Countable SnapshotHeader :=
  inj_countable' (λ h, (hdr_snapshot_size h, hdr_snapshot_metadata h, hdr_chunk_contents h))
    (λ '(a, b, c), Build_SnapshotHeader a b c) ltac:(by intros []).
#[global] Instance SnapshotChunk_countable : Countable SnapshotChunk :=
  inj_countable' (λ c, (chk_chunk_index c, chk_chunk_contents c))
    (λ '(a, b), Build_SnapshotChunk a b) ltac:(by intros []).
#[global] Instance RequestPayloadIt_countable : Countable RequestPayloadIt :=
  inj_countable' (λ i, match i with PayloadHeader h => inl h | PayloadChunk c => inr c end)
    (λ i, match i with inl h => PayloadHeader h | inr c => PayloadChunk c end)
    ltac:(by intros []).
#[global] Instance RequestPayload_countable : Countable RequestPayload :=
  inj_countable' (λ p, (rqp_snapshot_id p, rqp_it p))
    (λ '(a, b), Build_RequestPayload a b) ltac:(by intros []).
#[global] Instance ResponsePayload_countable : Countable ResponsePayload :=
  inj_countable' (λ p, (rsp_snapshot_id p, rsp_chunk_index p, rsp_status p))
    (λ '(a, b, c), Build_ResponsePayload a b c) ltac:(by intros []).
