(* ===== verification/Session.v ===== *)
(** * Sessions between peers

    [src/runtime/src/session.rs]: the interface of end-to-end encrypted sessions and its
    default implementations, which hold a session of the Oak SDK but do not use it yet.
    The session types of the SDK, their configuration and errors, and the messages that
    carry no ciphertext are parameters. *)

From S2P Require Import Prelude.

Section session.
Context {Config ClientSession ServerSession SessionError OtherRequest OtherResponse : Type}.
(** [ClientSession::create] and [ServerSession::new] of the SDK. *)
Variable client_session_create : Config → result SessionError ClientSession.
Variable server_session_new : Config → ServerSession.

(** ** Messages *)

Inductive SessionRequestKind :=
| RequestCiphertext (ciphertext : bytes)
| RequestOther (message : OtherRequest).

Record SessionRequest := { sreq_request : option SessionRequestKind }.

Inductive SessionResponseKind :=
| ResponseCiphertext (ciphertext : bytes)
| ResponseOther (message : OtherResponse).

Record SessionResponse := { sresp_response : option SessionResponseKind }.

(** ** The interface

    The trait [OakSession<I, O>]; the calls change the session. *)
Class OakSessionTrait (I O S : Type) : Type := {
  put_incoming_message : S → I → S * result SessionError (option unit);
  get_outgoing_message : S → S * result SessionError (option O);
  is_open : S → bool;
  session_write : S → bytes → S * result SessionError unit;
  session_read : S → S * result SessionError (option bytes)
}.

(** ** Client sessions *)

Record DefaultOakClientSession := {
  ocs_inner : ClientSession;
  ocs_incoming_ciphertext : option bytes;
  ocs_outgoing_ciphertext : option bytes
}.

Definition oak_client_session_create (config : Config) : result SessionError DefaultOakClientSession :=
  match client_session_create config with
  | Ok inner => Ok {| ocs_inner := inner; ocs_incoming_ciphertext := None;
                      ocs_outgoing_ciphertext := None |}
  | Err e => Err e
  end.

Definition ocs_with (s : DefaultOakClientSession) (incoming outgoing : option bytes)
    : DefaultOakClientSession :=
  {| ocs_inner := ocs_inner s; ocs_incoming_ciphertext := incoming;
     ocs_outgoing_ciphertext := outgoing |}.

Definition client_get_outgoing_message (s : DefaultOakClientSession)
    : DefaultOakClientSession * result SessionError (option SessionRequest) :=
  match ocs_outgoing_ciphertext s with
  | Some ciphertext =>
      (ocs_with s (ocs_incoming_ciphertext s) None,
       Ok (Some {| sreq_request := Some (RequestCiphertext ciphertext) |}))
  | None => (s, Ok (Some {| sreq_request := None |}))
  end.

Definition client_put_incoming_message (s : DefaultOakClientSession)
    (incoming_message : SessionResponse)
    : DefaultOakClientSession * result SessionError (option unit) :=
  (match sresp_response incoming_message with
   | Some (ResponseCiphertext ciphertext) =>
       ocs_with s (Some ciphertext) (ocs_outgoing_ciphertext s)
   | _ => s
   end, Ok (Some ())).

Definition client_is_open (s : DefaultOakClientSession) : bool := true.

Definition client_write (s : DefaultOakClientSession) (plaintext : bytes)
    : DefaultOakClientSession * result SessionError unit :=
  (ocs_with s (ocs_incoming_ciphertext s) (Some plaintext), Ok ()).

Definition client_read (s : DefaultOakClientSession)
    : DefaultOakClientSession * result SessionError (option bytes) :=
  (ocs_with s None (ocs_outgoing_ciphertext s), Ok (ocs_incoming_ciphertext s)).

#[global] Instance DefaultOakClientSession_impl :
    OakSessionTrait SessionResponse SessionRequest DefaultOakClientSession :=
  {| put_incoming_message := client_put_incoming_message;
     get_outgoing_message := client_get_outgoing_message;
     is_open := client_is_open;
     session_write := client_write;
     session_read := client_read |}.

(** ** Server sessions *)

Record DefaultOakServerSession := {
  oss_inner : ServerSession;
  oss_incoming_ciphertext : option bytes;
  oss_outgoing_ciphertext : option bytes
}.

Definition oak_server_session_create (config : Config) : result SessionError DefaultOakServerSession :=
  Ok {| oss_inner := server_session_new config; oss_incoming_ciphertext := None;
        oss_outgoing_ciphertext := None |}.

Definition oss_with (s : DefaultOakServerSession) (incoming outgoing : option bytes)
    : DefaultOakServerSession :=
  {| oss_inner := oss_inner s; oss_incoming_ciphertext := incoming;
     oss_outgoing_ciphertext := outgoing |}.

Definition server_get_outgoing_message (s : DefaultOakServerSession)
    : DefaultOakServerSession * result SessionError (option SessionResponse) :=
  match oss_outgoing_ciphertext s with
  | Some ciphertext =>
      (oss_with s (oss_incoming_ciphertext s) None,
       Ok (Some {| sresp_response := Some (ResponseCiphertext ciphertext) |}))
  | None => (s, Ok (Some {| sresp_response := None |}))
  end.

Definition server_put_incoming_message (s : DefaultOakServerSession)
    (incoming_message : SessionRequest)
    : DefaultOakServerSession * result SessionError (option unit) :=
  (match sreq_request incoming_message with
   | Some (RequestCiphertext ciphertext) =>
       oss_with s (Some ciphertext) (oss_outgoing_ciphertext s)
   | _ => s
   end, Ok (Some ())).

Definition server_is_open (s : DefaultOakServerSession) : bool := true.

Definition server_write (s : DefaultOakServerSession) (plaintext : bytes)
    : DefaultOakServerSession * result SessionError unit :=
  (oss_with s (oss_incoming_ciphertext s) (Some plaintext), Ok ()).

Definition server_read (s : DefaultOakServerSession)
    : DefaultOakServerSession * result SessionError (option bytes) :=
  (oss_with s None (oss_outgoing_ciphertext s), Ok (oss_incoming_ciphertext s)).

#[global] Instance DefaultOakServerSession_impl :
    OakSessionTrait SessionRequest SessionResponse DefaultOakServerSession :=
  {| put_incoming_message := server_put_incoming_message;
     get_outgoing_message := server_get_outgoing_message;
     is_open := server_is_open;
     session_write := server_write;
     session_read := server_read |}.
End session.

(** ** Two peers *)

Section relay.
Context {I1 O1 S1 S2 E : Type} `{H1 : !OakSessionTrait (SessionError:=E) I1 O1 S1,
  H2 : !OakSessionTrait (SessionError:=E) O1 I1 S2}.

(** Writes at one peer, hands its next message over and reads at the other. *)
Definition relay (s : S1) (t : S2) (plaintext : bytes) : S1 * S2 * result E (option bytes) :=
  let '(s, _) := session_write s plaintext in
  let '(s, message) := get_outgoing_message s in
  match message with
  | Ok (Some message) =>
      let '(t, _) := put_incoming_message t message in
      let '(t, r) := session_read t in (s, t, r)
  | Ok None => (s, t, Ok None)
  | Err e => (s, t, Err e)
  end.
End relay.

Section relays.
Context {CS SS E X Y : Type}.
Implicit Types (c : @DefaultOakClientSession CS) (s : @DefaultOakServerSession SS).

(** What one peer writes the other one reads, in both directions, and every message is
    delivered once. *)
Lemma session_relays c s plaintext :
  (let '(c', s', r) := relay (E:=E) (I1:=@SessionResponse Y) (O1:=@SessionRequest X) c s plaintext in
   r = Ok (Some plaintext) ∧ ocs_outgoing_ciphertext c' = None ∧ oss_incoming_ciphertext s' = None) ∧
  (let '(s', c', r) := relay (E:=E) (I1:=@SessionRequest X) (O1:=@SessionResponse Y) s c plaintext in
   r = Ok (Some plaintext) ∧ oss_outgoing_ciphertext s' = None ∧ ocs_incoming_ciphertext c' = None).
Proof. by split. Qed.

(** The "ciphertext" on the wire is the plaintext: the sessions do not encrypt, although
    they are open from the start. *)
Lemma session_sends_plaintext c plaintext :
  client_is_open c = true ∧
  (client_get_outgoing_message (SessionError:=E) (OtherRequest:=X) (client_write (SessionError:=E) c plaintext).1).2 =
    Ok (Some {| sreq_request := Some (RequestCiphertext plaintext) |}).
Proof. done. Qed.

(** A second write before the message was taken replaces the first. *)
Lemma second_write_replaces c p1 p2 :
  (client_write (SessionError:=E) (client_write (SessionError:=E) c p1).1 p2).1 =
  (client_write (SessionError:=E) c p2).1.
Proof. done. Qed.
End relays.
