(* ===== verification/F64.v ===== *)
(** * Double-precision arithmetic on chunk counts

    The snapshot sender ranks transfers by an [f64] ratio of counts.  The
    operations are the IEEE 754 binary64 ones of [SpecFloat]; this file shows
    that for counts below 2^53 the ratio is [1.0] exactly when the counts are
    equal and is below [1.0] otherwise. *)

From Stdlib Require Import SpecFloat Zpower.
From S2P Require Import Prelude.

(** ** Operations used by the source *)

(** [x as f64] for an unsigned integer. *)
Definition u64_as_f64 (n : Z) : spec_float := binary_normalize 53 1024 n 0 false.

Definition f64_add (x y : spec_float) : spec_float := SFadd 53 1024 x y.

Definition f64_div (x y : spec_float) : spec_float := SFdiv 53 1024 x y.

(** [x > y] *)
Definition f64_gt (x y : spec_float) : bool := SFltb y x.

Definition f64_one : spec_float := S754_finite false 4503599627370496 (-52).

(** ** Digits and exact shifts *)

Lemma digits2_pos_bounds p :
  2 ^ (Zpos (digits2_pos p) - 1) ≤ Zpos p < 2 ^ Zpos (digits2_pos p).
Proof.
  induction p as [p IH|p IH|]; simpl digits2_pos; [| |done].
  - rewrite Pos2Z.inj_succ. replace (Z.succ _ - 1) with (Zpos (digits2_pos p) - 1 + 1) by lia.
    rewrite Z.pow_add_r, Z.pow_succ_r by lia. lia.
  - rewrite Pos2Z.inj_succ. replace (Z.succ _ - 1) with (Zpos (digits2_pos p) - 1 + 1) by lia.
    rewrite Z.pow_add_r, Z.pow_succ_r by lia. lia.
Qed.

Lemma digits2_unique p d : 1 ≤ d → 2 ^ (d - 1) ≤ Zpos p < 2 ^ d → Zpos (digits2_pos p) = d.
Proof.
  intros Hd Hp. pose proof (digits2_pos_bounds p) as Hb.
  destruct (Z.lt_trichotomy (Zpos (digits2_pos p)) d) as [Hlt|[?|Hlt]]; [|done|].
  - assert (2 ^ Zpos (digits2_pos p) ≤ 2 ^ (d - 1)) by (apply Z.pow_le_mono_r; lia). lia.
  - assert (2 ^ d ≤ 2 ^ (Zpos (digits2_pos p) - 1)) by (apply Z.pow_le_mono_r; lia). lia.
Qed.

Lemma digits2_le p d : 0 ≤ d → Zpos p < 2 ^ d → Zpos (digits2_pos p) ≤ d.
Proof.
  intros Hd Hp. pose proof (digits2_pos_bounds p) as Hb.
  destruct (Z.le_gt_cases (Zpos (digits2_pos p)) d); [done|].
  assert (2 ^ d ≤ 2 ^ (Zpos (digits2_pos p) - 1)) by (apply Z.pow_le_mono_r; lia). lia.
Qed.

Lemma iter_xO_value d m : Zpos (Pos.iter xO m d) = Zpos m * 2 ^ Zpos d.
Proof.
  revert m. induction d as [|d IH] using Pos.peano_ind; intros m; simpl Pos.iter.
  - lia.
  - rewrite Pos.iter_succ, Pos2Z.inj_xO, IH, Pos2Z.inj_succ, Z.pow_succ_r by lia. lia.
Qed.

Lemma iter_shr_1_exact p m :
  0 ≤ m →
  SpecFloat.iter_pos shr_1 p {| shr_m := m * 2 ^ Zpos p; shr_r := false; shr_s := false |}
  = {| shr_m := m; shr_r := false; shr_s := false |}.
Proof.
  assert (∀ k, 0 ≤ k →
    shr_1 {| shr_m := 2 * k; shr_r := false; shr_s := false |}
    = {| shr_m := k; shr_r := false; shr_s := false |}) as Hone.
  { intros [|k|k] Hk; [done|done|lia]. }
  revert m. induction p as [p IH|p IH|]; intros m Hm; cbn [SpecFloat.iter_pos].
  - replace (m * 2 ^ Zpos p~1) with (2 * (m * 2 ^ Zpos p * 2 ^ Zpos p)).
    + rewrite Hone by lia. rewrite !IH; [done|lia|lia].
    + replace (2 * (m * 2 ^ Zpos p * 2 ^ Zpos p))
        with (m * (2 ^ Zpos p * 2 ^ Zpos p * 2 ^ 1)) by lia.
      rewrite <- !Z.pow_add_r by lia. do 2 f_equal. lia.
  - replace (m * 2 ^ Zpos p~0) with (m * 2 ^ Zpos p * 2 ^ Zpos p).
    + rewrite !IH; [done|lia|lia].
    + rewrite <- Z.mul_assoc, <- Z.pow_add_r by lia. do 2 f_equal. lia.
  - replace (m * 2 ^ 1) with (2 * m) by lia. by apply Hone.
Qed.

(** ** Exact results are kept *)

Lemma fexp_normal x : -1021 ≤ x → fexp 53 1024 x = x - 53.
Proof. unfold fexp, emin. lia. Qed.

Lemma shr_fexp_id m e l :
  Zpos (digits2_pos m) = 53 → -1074 ≤ e →
  shr_fexp 53 1024 (Zpos m) e l = (shr_record_of_loc (Zpos m) l, e).
Proof.
  intros Hd He. unfold shr_fexp, Zdigits2. rewrite Hd, fexp_normal by lia.
  by replace (53 + e - 53 - e) with 0 by lia.
Qed.

Lemma round_aux_exact m e :
  Zpos (digits2_pos m) = 53 → -1074 ≤ e ≤ 971 →
  binary_round_aux 53 1024 false (Zpos m) e loc_Exact = S754_finite false m e.
Proof.
  intros Hd He. unfold binary_round_aux. rewrite shr_fexp_id by lia. simpl.
  rewrite shr_fexp_id by lia. simpl. destruct (Z.leb_spec e (1024 - 53)); [done|lia].
Qed.

(** The normal form of a positive integer below 2^53. *)
Definition canon (n : positive) : spec_float :=
  S754_finite false (Z.to_pos (Zpos n * 2 ^ (53 - Zpos (digits2_pos n))))
    (Zpos (digits2_pos n) - 53).

Lemma canon_mantissa n :
  Zpos n < 2 ^ 53 →
  Zpos (Z.to_pos (Zpos n * 2 ^ (53 - Zpos (digits2_pos n))))
  = Zpos n * 2 ^ (53 - Zpos (digits2_pos n)).
Proof.
  intros Hn. apply Z2Pos.id. pose proof (digits2_le n 53 ltac:(lia) Hn). lia.
Qed.

Lemma canon_digits n :
  Zpos n < 2 ^ 53 →
  Zpos (digits2_pos (Z.to_pos (Zpos n * 2 ^ (53 - Zpos (digits2_pos n))))) = 53.
Proof.
  intros Hn. pose proof (digits2_le n 53 ltac:(lia) Hn).
  pose proof (digits2_pos_bounds n) as Hb.
  apply digits2_unique; [lia|]. rewrite canon_mantissa by done.
  replace 53 with (Zpos (digits2_pos n) + (53 - Zpos (digits2_pos n))) at 4 by lia.
  replace (53 - 1) with (Zpos (digits2_pos n) - 1 + (53 - Zpos (digits2_pos n))) by lia.
  rewrite !Z.pow_add_r by lia. nia.
Qed.

Lemma normalize_canon n k :
  Zpos n < 2 ^ 53 → 0 ≤ k ≤ 53 →
  binary_normalize 53 1024 (Zpos n * 2 ^ k) (- k) false = canon n.
Proof.
  intros Hn Hk. pose proof (digits2_le n 53 ltac:(lia) Hn) as Hd.
  pose proof (digits2_pos_bounds n) as Hb.
  assert (0 < Zpos n * 2 ^ k) as Hpos by nia.
  destruct (Zpos n * 2 ^ k) as [|mx|] eqn:Hmx; [lia| |lia]. simpl.
  assert (Zpos (digits2_pos mx) = Zpos (digits2_pos n) + k) as Hdm.
  { apply digits2_unique; [lia|]. rewrite <- Hmx.
    replace (_ + k - 1) with (Zpos (digits2_pos n) - 1 + k) by lia.
    rewrite !Z.pow_add_r by lia. nia. }
  unfold binary_round, shl_align.
  rewrite Hdm, fexp_normal by lia.
  replace (Zpos (digits2_pos n) + k + - k - 53 - - k)
    with (Zpos (digits2_pos n) + k - 53) by lia.
  replace (Zpos (digits2_pos n) + k + - k - 53) with (Zpos (digits2_pos n) - 53) by lia.
  destruct (Zpos (digits2_pos n) + k - 53) as [|s|s] eqn:Hs.
  - (* already 53 digits *)
    replace k with (53 - Zpos (digits2_pos n)) in * by lia.
    rewrite round_aux_exact by lia. unfold canon. rewrite Hmx. simpl. f_equal. lia.
  - (* more than 53 digits: the extra ones are zeros *)
    assert (Zpos n * 2 ^ (53 - Zpos (digits2_pos n)) * 2 ^ Zpos s = Zpos mx) as Hm.
    { rewrite <- Hmx, <- Z.mul_assoc, <- Z.pow_add_r by lia. do 2 f_equal. lia. }
    unfold binary_round_aux, shr_fexp at 1, Zdigits2.
    rewrite Hdm, fexp_normal by lia.
    replace (_ + k + - k - 53 - - k) with (Zpos s) by lia. unfold shr.
    change (shr_record_of_loc (Zpos mx) loc_Exact)
      with {| shr_m := Zpos mx; shr_r := false; shr_s := false |}.
    rewrite <- Hm, iter_shr_1_exact by lia. simpl.
    rewrite <- canon_mantissa by done.
    rewrite shr_fexp_id by (rewrite ?canon_digits by done; lia). simpl.
    unfold canon. replace (- k + Zpos s) with (Zpos (digits2_pos n) - 53) by lia.
    destruct (Z.leb_spec (Zpos (digits2_pos n) - 53) (1024 - 53)); [done|lia].
  - (* fewer than 53 digits: shift left *)
    assert (Zpos (Pos.iter xO mx s) = Zpos n * 2 ^ (53 - Zpos (digits2_pos n))) as Hm.
    { rewrite iter_xO_value, <- Hmx, <- Z.mul_assoc, <- Z.pow_add_r by lia.
      do 2 f_equal. lia. }
    assert (Pos.iter xO mx s = Z.to_pos (Zpos n * 2 ^ (53 - Zpos (digits2_pos n)))) as ->.
    { rewrite <- Hm. by simpl. }
    by rewrite round_aux_exact by (rewrite ?canon_digits by done; lia).
Qed.

(** ** Addition and division of small counts *)

Lemma u64_as_f64_canon n : Zpos n < 2 ^ 53 → u64_as_f64 (Zpos n) = canon n.
Proof.
  intros Hn. rewrite <- (normalize_canon n 0) by lia.
  by rewrite Z.pow_0_r, Z.mul_1_r.
Qed.

Lemma shl_align_value m e e' :
  e' ≤ e → Zpos (shl_align m e e').1 = Zpos m * 2 ^ (e - e').
Proof.
  intros He. unfold shl_align. destruct (e' - e) as [|d|d] eqn:Hd; simpl.
  - replace (e - e') with 0 by lia. lia.
  - lia.
  - rewrite iter_xO_value. do 2 f_equal. lia.
Qed.

Lemma f64_add_counts a b :
  0 ≤ a → 0 ≤ b → a + b < 2 ^ 53 →
  f64_add (u64_as_f64 a) (u64_as_f64 b) = u64_as_f64 (a + b).
Proof.
  intros Ha Hb Hab. destruct a as [|a|], b as [|b|]; try lia; [done| | |].
  - rewrite Z.add_0_l, u64_as_f64_canon by lia. done.
  - rewrite Z.add_0_r, u64_as_f64_canon by lia. done.
  - change (Zpos a + Zpos b) with (Zpos (a + b)) in *.
    rewrite !u64_as_f64_canon by lia. unfold canon at 1 2, f64_add, SFadd, cond_Zopp.
    pose proof (digits2_le a 53 ltac:(lia) ltac:(lia)).
    pose proof (digits2_le b 53 ltac:(lia) ltac:(lia)).
    set (ez := Z.min _ _). rewrite !shl_align_value, !canon_mantissa by lia.
    rewrite <- !Z.mul_assoc, <- !Z.pow_add_r by lia.
    replace (53 - Zpos (digits2_pos a) + (Zpos (digits2_pos a) - 53 - ez)) with (- ez) by lia.
    replace (53 - Zpos (digits2_pos b) + (Zpos (digits2_pos b) - 53 - ez)) with (- ez) by lia.
    rewrite <- Z.mul_add_distr_r. change (Zpos a + Zpos b) with (Zpos (a + b)).
    rewrite <- (normalize_canon (a + b) (- ez)) by lia. by rewrite Z.opp_involutive.
Qed.

(** The quotient of two 53-digit mantissas before rounding. *)
Lemma div_core m1 e1 m2 e2 :
  Zpos (digits2_pos m1) = 53 → Zpos (digits2_pos m2) = 53 → -1021 ≤ e1 - e2 →
  SFdiv_core_binary 53 1024 (Zpos m1) e1 (Zpos m2) e2
  = (Zpos m1 * 2 ^ 53 / Zpos m2, e1 - e2 - 53,
     new_location (Zpos m2) ((Zpos m1 * 2 ^ 53) mod Zpos m2)).
Proof.
  intros H1 H2 He. unfold SFdiv_core_binary, Zdigits2. rewrite H1, H2.
  rewrite fexp_normal by lia.
  replace (Z.min (53 + e1 - (53 + e2) - 53) (e1 - e2)) with (e1 - e2 - 53) by lia.
  replace (e1 - e2 - (e1 - e2 - 53)) with 53 by lia.
  rewrite Z.shiftl_mul_pow2 by lia.
  rewrite (surjective_pairing (Z.div_eucl _ _)). done.
Qed.

Lemma f64_div_self n : Zpos n < 2 ^ 53 → f64_div (canon n) (canon n) = f64_one.
Proof.
  intros Hn. unfold f64_div, canon, SFdiv. rewrite div_core by (rewrite ?canon_digits by done; lia).
  rewrite Z.mul_comm, Z.div_mul, Z.mod_mul by lia. rewrite Z.sub_diag.
  unfold new_location, new_location_even, new_location_odd. simpl Z.eqb.
  by destruct (Z.even _).
Qed.

(** A transfer whose chunks are all sent or in flight has progress [1.0]. *)
Lemma f64_ratio_one a b c :
  0 ≤ a → 0 ≤ b → 1 ≤ c < 2 ^ 53 → a + b = c →
  f64_div (f64_add (u64_as_f64 a) (u64_as_f64 b)) (u64_as_f64 c) = f64_one.
Proof.
  intros Ha Hb Hc <-. rewrite f64_add_counts by lia.
  destruct (a + b) as [|p|] eqn:E; [lia| |lia].
  rewrite u64_as_f64_canon by lia. apply f64_div_self. lia.
Qed.

(** ** Quotients below one *)

Definition below_one (x : spec_float) : Prop :=
  ∃ m e, x = S754_finite false m e ∧ e ≤ -53.

Lemma below_one_lt x : below_one x → f64_gt f64_one x = true.
Proof.
  intros (m & e & -> & He). unfold f64_gt, SFltb, f64_one, SFcompare.
  by rewrite (proj2 (Z.compare_lt_iff e (-52))) by lia.
Qed.

Lemma round_nearest_bounds q l :
  q ≤ round_nearest_even q l ≤ q + 1.
Proof. destruct l as [|[]]; simpl; try destruct (Z.even q); lia. Qed.

Lemma shr_record_m q l : shr_m (shr_record_of_loc q l) = q.
Proof. by destruct l as [|[]]. Qed.

(** The final normalisation of a rounded mantissa of at most 2^53. *)
Lemma renormalize q e :
  2 ^ 52 ≤ q ≤ 2 ^ 53 → -1074 ≤ e ≤ 900 →
  ∃ m e', (let '(r, e'') := shr_fexp 53 1024 q e loc_Exact in
    match shr_m r with
    | Z0 => S754_zero false
    | Zpos m => if Z.leb e'' (1024 - 53) then S754_finite false m e'' else S754_infinity false
    | _ => S754_nan
    end) = S754_finite false m e' ∧ e' ≤ e + 1 ∧ (q < 2 ^ 53 → e' = e).
Proof.
  intros Hq He. destruct (decide (q = 2 ^ 53)) as [->|Hne].
  - exists 4503599627370496%positive, (e + 1). split; [|lia].
    unfold shr_fexp. change (Zdigits2 (2 ^ 53)) with 54. rewrite fexp_normal by lia.
    replace (54 + e - 53 - e) with 1 by lia. cbn [shr].
    replace (Z.leb (e + 1) (1024 - 53)) with true by (symmetry; apply Z.leb_le; lia).
    reflexivity.
  - destruct q as [|m|]; try lia. exists m, e. split; [|lia].
    rewrite shr_fexp_id; [|apply digits2_unique; lia|lia]. simpl.
    destruct (Z.leb_spec e (1024 - 53)); [done|lia].
Qed.

Lemma round_53 q e l :
  2 ^ 52 ≤ q < 2 ^ 53 - 1 → -1074 ≤ e ≤ 900 →
  ∃ m, binary_round_aux 53 1024 false q e l = S754_finite false m e.
Proof.
  intros Hq He. destruct q as [|m|]; try lia. unfold binary_round_aux.
  rewrite shr_fexp_id; [|apply digits2_unique; lia|lia]. rewrite shr_record_m.
  pose proof (round_nearest_bounds (Zpos m) (loc_of_shr_record (shr_record_of_loc (Zpos m) l))).
  destruct (renormalize (round_nearest_even (Zpos m)
    (loc_of_shr_record (shr_record_of_loc (Zpos m) l))) e) as (m' & e' & -> & _ & Heq);
    [lia|lia|]. rewrite Heq by lia. eauto.
Qed.

Lemma round_53_top q e l :
  2 ^ 52 ≤ q < 2 ^ 53 → -1074 ≤ e ≤ 900 →
  ∃ m e', binary_round_aux 53 1024 false q e l = S754_finite false m e' ∧ e' ≤ e + 1.
Proof.
  intros Hq He. destruct q as [|m|]; try lia. unfold binary_round_aux.
  rewrite shr_fexp_id; [|apply digits2_unique; lia|lia]. rewrite shr_record_m.
  pose proof (round_nearest_bounds (Zpos m) (loc_of_shr_record (shr_record_of_loc (Zpos m) l))).
  destruct (renormalize (round_nearest_even (Zpos m)
    (loc_of_shr_record (shr_record_of_loc (Zpos m) l))) e) as (m' & e' & -> & ? & _);
    [lia|lia|eauto].
Qed.

Lemma round_54 q e l :
  2 ^ 53 ≤ q < 2 ^ 54 → -1074 ≤ e ≤ 800 →
  ∃ m e', binary_round_aux 53 1024 false q e l = S754_finite false m e' ∧
    e' ≤ e + 2 ∧ (q < 2 ^ 54 - 2 → e' = e + 1).
Proof.
  intros Hq He. destruct q as [|m|]; try lia. unfold binary_round_aux.
  unfold shr_fexp at 1, Zdigits2.
  rewrite (digits2_unique m 54), fexp_normal by lia.
  replace (54 + e - 53 - e) with 1 by lia. simpl shr.
  set (r := shr_1 _).
  assert (shr_m r = Zpos m / 2) as Hr.
  { subst r. rewrite <- Z.div2_div. destruct l as [|[]]; destruct m; done. }
  pose proof (round_nearest_bounds (shr_m r) (loc_of_shr_record r)).
  assert (Zpos m / 2 * 2 ≤ Zpos m < Zpos m / 2 * 2 + 2)
    by (pose proof (Z.div_mod (Zpos m) 2); pose proof (Z.mod_pos_bound (Zpos m) 2); lia).
  destruct (renormalize (round_nearest_even (shr_m r) (loc_of_shr_record r)) (e + 1))
    as (m' & e' & -> & ? & Hlt); [lia|lia|].
  exists m', e'. split; [done|]. split; [lia|]. intros. apply Hlt. lia.
Qed.

(** The bound on the unrounded quotient of two counts [a < c]. *)
Lemma quotient_bounds a c :
  Zpos a < Zpos c < 2 ^ 53 →
  let da := Zpos (digits2_pos a) in
  let dc := Zpos (digits2_pos c) in
  let q := Zpos a * 2 ^ (53 - da) * 2 ^ 53 / (Zpos c * 2 ^ (53 - dc)) in
  2 ^ 52 ≤ q < 2 ^ 54 ∧ da ≤ dc ∧
  (da = dc → q < 2 ^ 53 - 1) ∧ (da + 1 = dc → q < 2 ^ 54 - 2).
Proof.
  intros Hac da dc q.
  pose proof (digits2_le a 53 ltac:(lia) ltac:(lia)) as Hda.
  pose proof (digits2_le c 53 ltac:(lia) ltac:(lia)) as Hdc.
  assert (da ≤ dc) as Hle.
  { apply digits2_le; [lia|]. pose proof (digits2_pos_bounds c). fold dc in H. lia. }
  pose proof (canon_digits a ltac:(lia)) as Hma. pose proof (canon_digits c ltac:(lia)) as Hmc.
  pose proof (digits2_pos_bounds (Z.to_pos (Zpos a * 2 ^ (53 - Zpos (digits2_pos a))))) as Hba.
  pose proof (digits2_pos_bounds (Z.to_pos (Zpos c * 2 ^ (53 - Zpos (digits2_pos c))))) as Hbc.
  rewrite Hma, canon_mantissa in Hba by lia. rewrite Hmc, canon_mantissa in Hbc by lia.
  fold da in Hba. fold dc in Hbc. subst q.
  set (x := Zpos a * 2 ^ (53 - da)) in *. set (y := Zpos c * 2 ^ (53 - dc)) in *.
  split_and!; [| | | |].
  - apply Z.div_le_lower_bound; lia.
  - apply Z.div_lt_upper_bound; lia.
  - done.
  - intros Heq. apply Z.div_lt_upper_bound; [lia|]. subst x y. rewrite Heq in *. nia.
  - intros Heq. apply Z.div_lt_upper_bound; [lia|].
    assert (x = 2 * (Zpos a * 2 ^ (53 - dc))) as ->.
    { subst x. replace (53 - da) with (1 + (53 - dc)) by lia. rewrite Z.pow_add_r by lia. lia. }
    subst y. nia.
Qed.

Lemma f64_div_below_one a c :
  Zpos a < Zpos c < 2 ^ 53 → below_one (f64_div (canon a) (canon c)).
Proof.
  intros Hac. pose proof (digits2_le a 53 ltac:(lia) ltac:(lia)) as Hda.
  pose proof (digits2_le c 53 ltac:(lia) ltac:(lia)) as Hdc.
  destruct (quotient_bounds a c Hac) as ([Hq1 Hq2] & Hle & Hsame & Hnext).
  unfold f64_div, canon, SFdiv.
  rewrite div_core by (rewrite ?canon_digits by lia; lia). rewrite !canon_mantissa by lia.
  simpl xorb. set (q := _ / _) in *. set (l := new_location _ _). set (e := _ - _ - 53).
  destruct (decide (q < 2 ^ 53)) as [Hq|Hq].
  - destruct (decide (Zpos (digits2_pos a) = Zpos (digits2_pos c))) as [Heq|Hne].
    + destruct (round_53 q e l) as (m & ->); [specialize (Hsame Heq); lia|lia|].
      eexists _, _. split; [done|lia].
    + destruct (round_53_top q e l) as (m & e' & -> & He'); [lia|lia|].
      eexists _, _. split; [done|lia].
  - destruct (decide (Zpos (digits2_pos a) = Zpos (digits2_pos c))) as [Heq|Hne];
      [specialize (Hsame Heq); lia|].
    destruct (round_54 q e l) as (m & e' & -> & He' & Hlt); [lia|lia|].
    eexists _, _. split; [done|].
    destruct (decide (Zpos (digits2_pos a) + 1 = Zpos (digits2_pos c))) as [Heq|Hne2].
    + rewrite Hlt by (specialize (Hnext Heq); lia). lia.
    + lia.
Qed.

(** A transfer with chunks left to send has progress below [1.0]. *)
Lemma f64_ratio_below_one a b c :
  0 ≤ a → 0 ≤ b → c < 2 ^ 53 → a + b < c →
  f64_gt f64_one (f64_div (f64_add (u64_as_f64 a) (u64_as_f64 b)) (u64_as_f64 c)) = true.
Proof.
  intros Ha Hb Hc Hlt. rewrite f64_add_counts by lia.
  destruct c as [|c|]; [lia| |lia]. rewrite (u64_as_f64_canon c) by lia.
  destruct (a + b) as [|p|] eqn:E; [done| |lia].
  rewrite u64_as_f64_canon by lia. apply below_one_lt, f64_div_below_one. lia.
Qed.

(** The running minimum of a list of ratios never exceeds [1.0]. *)
Lemma f64_gt_one_irrefl x : x = f64_one ∨ f64_gt f64_one x = true → f64_gt x f64_one = false.
Proof.
  intros [->|H]; [by vm_compute|]. revert H. unfold f64_gt, SFltb, SFcompare, f64_one.
  destruct x as [s|s| |s m e]; try destruct s; try done.
  destruct (Z.compare_spec e (-52)) as [->|He|He]; [|by rewrite (proj2 (Z.compare_gt_iff _ _)) by lia|done].
  rewrite Z.compare_refl.
  pose proof (Pos.compare_cont_antisym m 4503599627370496 Eq) as Ha. simpl CompOpp at 2 in Ha.
  rewrite <- Ha. by destruct (Pos.compare_cont Eq m 4503599627370496).
Qed.

Lemma pos_compare_cont_lt p q : Pos.compare_cont Eq p q = Lt ↔ (p < q)%positive.
Proof. apply Pos.compare_lt_iff. Qed.

Lemma pos_compare_cont_gt p q : Pos.compare_cont Eq p q = Gt ↔ (q < p)%positive.
Proof. apply Pos.compare_gt_iff. Qed.

(** On the positive floats that ratios of counts are, [f64_gt] is the
    lexicographic order of exponent and mantissa. *)
Definition nonneg (x : spec_float) : Prop :=
  match x with S754_zero _ => True | S754_finite s _ _ => s = false | _ => False end.

Lemma f64_gt_finite m1 e1 m2 e2 :
  f64_gt (S754_finite false m1 e1) (S754_finite false m2 e2) = true ↔
  e2 < e1 ∨ (e1 = e2 ∧ (m2 < m1)%positive).
Proof.
  unfold f64_gt, SFltb, SFcompare.
  destruct (Z.compare_spec e2 e1) as [->|He|He].
  - destruct (Pos.compare_cont Eq m2 m1) eqn:E.
    + split; [done|]. intros [?|[_ H]]; [lia|]. apply pos_compare_cont_lt in H. congruence.
    + apply pos_compare_cont_lt in E. split; [auto|done].
    + apply pos_compare_cont_gt in E. split; [done|]. intros [?|[_ H]]; lia.
  - split; [by left|done].
  - split; [done|]. intros [?|[? _]]; lia.
Qed.

Lemma f64_gt_trans x y z :
  nonneg x → nonneg y → nonneg z →
  f64_gt x y = true → f64_gt y z = true → f64_gt x z = true.
Proof.
  destruct x as [sx|sx| |sx mx ex], y as [sy|sy| |sy my ey], z as [sz|sz| |sz mz ez];
    simpl; try done; intros; subst; try done.
  rewrite f64_gt_finite in *. destruct_or?; destruct_and?; subst; [left|left|left|right]; lia.
Qed.

Lemma f64_ratio_nonneg a b c :
  0 ≤ a → 0 ≤ b → c < 2 ^ 53 → a + b < c →
  nonneg (f64_div (f64_add (u64_as_f64 a) (u64_as_f64 b)) (u64_as_f64 c)).
Proof.
  intros Ha Hb Hc Hlt. rewrite f64_add_counts by lia.
  destruct c as [|c|]; [lia| |lia]. rewrite (u64_as_f64_canon c) by lia.
  destruct (a + b) as [|p|] eqn:E; [done| |lia].
  rewrite u64_as_f64_canon by lia.
  destruct (f64_div_below_one p c) as (m & e & -> & _); [lia|done].
Qed.

Lemma f64_gt_irrefl x : nonneg x → f64_gt x x = false.
Proof.
  destruct x as [s|s| |s m e]; simpl; try done. intros ->.
  destruct (f64_gt _ _) eqn:E; [|done]. apply f64_gt_finite in E. lia.
Qed.
