(* ===== verification/Snapshot.v ===== *)
(** * Snapshot transfer between replicas

    [src/runtime/src/snapshot.rs]: the sender splits a snapshot into chunks and
    keeps a bounded number of them in flight across all receivers, the receiver
    reassembles them, and the processor plays one of the two roles depending on
    who leads the cluster. *)

From Stdlib Require Import SpecFloat.
From S2P Require Import Prelude RaftTypes Endpoint F64.

Inductive SnapshotError := FailedDelivery | Corrupted.

(** ** Chunking *)

Definition chunk_count (snapshot_size chunk_size : Z) : outcome Z :=
  if decide (snapshot_size > 0)
  then if decide (chunk_size = 0)
       then Panic
       else Return ((snapshot_size -₆₄ 1) / chunk_size +₆₄ 1)
  else Return 1.

(** ** One outgoing transfer *)

Record SnapshotSenderState := {
  ss_snapshot_id : Z;
  ss_snapshot_metadata : RaftSnapshotMetadata;
  ss_snapshot_data : bytes;
  ss_chunk_size : Z;
  ss_chunk_count : Z;
  ss_next_chunk_index : Z;
  ss_sent_chunk_count : Z;
  ss_pending_chunks : gmap Z Z;
  ss_status : option RaftSnapshotStatus
}.

Section snapshot.
Context `{!ProtoCodec RequestPayload, !ProtoCodec ResponsePayload,
          !ProtoCodec RaftSnapshotMetadata, !HashOrder Z}.

Definition sender_state_new (snapshot_id : Z) (snapshot : RaftSnapshot) (chunk_size : Z)
    : outcome SnapshotSenderState :=
  snapshot_metadata ← unwrap (snap_metadata snapshot);
  let snapshot_data := snap_data snapshot in
  let snapshot_size := zlen snapshot_data in
  count ← chunk_count snapshot_size chunk_size;
  Return {| ss_snapshot_id := snapshot_id;
            ss_snapshot_metadata := snapshot_metadata;
            ss_snapshot_data := snapshot_data;
            ss_chunk_size := chunk_size;
            ss_chunk_count := count;
            ss_next_chunk_index := 0;
            ss_sent_chunk_count := 0;
            ss_pending_chunks := ∅;
            ss_status := None |}.

Definition sender_state_progress (s : SnapshotSenderState) : spec_float :=
  match ss_status s with
  | Some _ => f64_one
  | None =>
      f64_div (f64_add (u64_as_f64 (ss_sent_chunk_count s))
                 (u64_as_f64 (Z.of_nat (size (ss_pending_chunks s)))))
        (u64_as_f64 (ss_chunk_count s))
  end.

(** [self.pending_chunks.len() as u32] *)
Definition sender_state_pending_chunks (s : SnapshotSenderState) : Z :=
  Z.of_nat (size (ss_pending_chunks s)) mod two32.

Definition sender_state_next_chunk (s : SnapshotSenderState) (delivery_id : Z)
    : outcome (SnapshotSenderState * option bytes) :=
  match ss_status s with
  | Some _ => Return (s, None)
  | None =>
      (* Register chunk as pending. *)
      let pending := <[delivery_id := ss_next_chunk_index s]> (ss_pending_chunks s) in
      (* Compute the next chunk contents. *)
      let next_chunk_start := ss_next_chunk_index s *₆₄ ss_chunk_size s in
      let next_chunk_end :=
        Z.min (zlen (ss_snapshot_data s)) (next_chunk_start +₆₄ ss_chunk_size s) in
      next_chunk ← slice (ss_snapshot_data s) next_chunk_start next_chunk_end;
      (* Assemble request payload. *)
      let payload :=
        {| rqp_snapshot_id := ss_snapshot_id s;
           rqp_it :=
             if decide (ss_next_chunk_index s = 0)
             then Some (PayloadHeader
                    {| hdr_snapshot_size := zlen (ss_snapshot_data s);
                       hdr_snapshot_metadata := proto_encode (ss_snapshot_metadata s);
                       hdr_chunk_contents := next_chunk |})
             else Some (PayloadChunk
                    {| chk_chunk_index := ss_next_chunk_index s;
                       chk_chunk_contents := next_chunk |}) |} in
      Return
        ({| ss_snapshot_id := ss_snapshot_id s;
            ss_snapshot_metadata := ss_snapshot_metadata s;
            ss_snapshot_data := ss_snapshot_data s;
            ss_chunk_size := ss_chunk_size s;
            ss_chunk_count := ss_chunk_count s;
            ss_next_chunk_index := ss_next_chunk_index s +₃₂ 1;
            ss_sent_chunk_count := ss_sent_chunk_count s;
            ss_pending_chunks := pending;
            ss_status := ss_status s |}, Some (proto_encode payload))
  end.

Definition ss_with_delivery (s : SnapshotSenderState) (sent : Z) (pending : gmap Z Z)
    (status : option RaftSnapshotStatus) : SnapshotSenderState :=
  {| ss_snapshot_id := ss_snapshot_id s;
     ss_snapshot_metadata := ss_snapshot_metadata s;
     ss_snapshot_data := ss_snapshot_data s;
     ss_chunk_size := ss_chunk_size s;
     ss_chunk_count := ss_chunk_count s;
     ss_next_chunk_index := ss_next_chunk_index s;
     ss_sent_chunk_count := sent;
     ss_pending_chunks := pending;
     ss_status := status |}.

Definition sender_state_process_response (s : SnapshotSenderState) (delivery_id : Z)
    (response : result SnapshotError DeliverSnapshotResponse) : SnapshotSenderState :=
  let '(s, success) :=
    match response with
    | Ok response =>
        match proto_decode (M:=ResponsePayload) (resp_payload_contents response) with
        | None => (s, false)
        | Some payload =>
            if decide (ss_snapshot_id s ≠ rsp_snapshot_id payload) then (s, true)
            else if decide (ss_chunk_count s ≤ rsp_chunk_index payload) then (s, false)
            else
              let removed := ss_pending_chunks s !! delivery_id in
              let s := ss_with_delivery s (ss_sent_chunk_count s)
                         (delete delivery_id (ss_pending_chunks s)) (ss_status s) in
              if decide (removed ≠ Some (rsp_chunk_index payload)) then (s, false)
              else if decide (rsp_status payload = SnapshotStatusAccepted)
              then (ss_with_delivery s (ss_sent_chunk_count s +₆₄ 1)
                      (ss_pending_chunks s) (ss_status s), true)
              else (s, false)
        end
    | Err _ => (s, false)
    end in
  if success then s
  else ss_with_delivery s (ss_sent_chunk_count s) (ss_pending_chunks s) (Some Failure).

Definition sender_state_complete_with (s : SnapshotSenderState)
    (status : RaftSnapshotStatus) : SnapshotSenderState :=
  {| ss_snapshot_id := ss_snapshot_id s;
     ss_snapshot_metadata := ss_snapshot_metadata s;
     ss_snapshot_data := [];
     ss_chunk_size := ss_chunk_size s;
     ss_chunk_count := ss_chunk_count s;
     ss_next_chunk_index := ss_next_chunk_index s;
     ss_sent_chunk_count := ss_sent_chunk_count s;
     ss_pending_chunks := ss_pending_chunks s;
     ss_status := Some status |}.

Definition sender_state_try_complete (s : SnapshotSenderState)
    : SnapshotSenderState * option RaftSnapshotStatus :=
  let s :=
    if decide (ss_status s = None ∧ ss_sent_chunk_count s = ss_chunk_count s)
    then sender_state_complete_with s Finish else s in
  (s, ss_status s).

(** ** The sender *)

Record DefaultSnapshotSender := {
  snd_chunk_size : Z;
  snd_max_pending_chunks : Z;
  snd_replica_id : Z;
  snd_instant : Z;
  snd_next_snapshot_id : Z;
  snd_next_delivery_id : Z;
  snd_receivers : gmap Z SnapshotSenderState
}.

Definition sender_new : DefaultSnapshotSender :=
  {| snd_chunk_size := 1024 * 1024; snd_max_pending_chunks := 2;
     snd_replica_id := 0; snd_instant := 0; snd_next_snapshot_id := 1;
     snd_next_delivery_id := 1; snd_receivers := ∅ |}.

Definition sender_init (s : DefaultSnapshotSender) (replica_id : Z)
    (snapshot_config : option SnapshotConfig) : DefaultSnapshotSender :=
  {| snd_chunk_size :=
       match snapshot_config with Some c => cfg_chunk_size c | None => snd_chunk_size s end;
     snd_max_pending_chunks :=
       match snapshot_config with
       | Some c => cfg_max_pending_chunks c | None => snd_max_pending_chunks s end;
     snd_replica_id := replica_id;
     snd_instant := snd_instant s;
     snd_next_snapshot_id := snd_next_snapshot_id s;
     snd_next_delivery_id := snd_next_delivery_id s;
     snd_receivers := snd_receivers s |}.

Definition sender_set_instant (s : DefaultSnapshotSender) (instant : Z)
    : DefaultSnapshotSender :=
  {| snd_chunk_size := snd_chunk_size s;
     snd_max_pending_chunks := snd_max_pending_chunks s;
     snd_replica_id := snd_replica_id s;
     snd_instant := instant;
     snd_next_snapshot_id := snd_next_snapshot_id s;
     snd_next_delivery_id := snd_next_delivery_id s;
     snd_receivers := snd_receivers s |}.

Definition snd_with_receivers (s : DefaultSnapshotSender)
    (receivers : gmap Z SnapshotSenderState) : DefaultSnapshotSender :=
  {| snd_chunk_size := snd_chunk_size s;
     snd_max_pending_chunks := snd_max_pending_chunks s;
     snd_replica_id := snd_replica_id s;
     snd_instant := snd_instant s;
     snd_next_snapshot_id := snd_next_snapshot_id s;
     snd_next_delivery_id := snd_next_delivery_id s;
     snd_receivers := receivers |}.

(** All uncompleted transfers are considered failed. *)
Definition sender_reset (s : DefaultSnapshotSender)
    : DefaultSnapshotSender * list (Z * RaftSnapshotStatus) :=
  let cancellations := map (λ '(receiver_id, _), (receiver_id, Failure))
                         (hash_iter (snd_receivers s)) in
  (snd_with_receivers s ∅, cancellations).

Definition sender_start (s : DefaultSnapshotSender) (receiver_id : Z)
    (snapshot : RaftSnapshot) : outcome DefaultSnapshotSender :=
  state ← sender_state_new (snd_next_snapshot_id s) snapshot (snd_chunk_size s);
  Return {| snd_chunk_size := snd_chunk_size s;
            snd_max_pending_chunks := snd_max_pending_chunks s;
            snd_replica_id := snd_replica_id s;
            snd_instant := snd_instant s;
            snd_next_snapshot_id := snd_next_snapshot_id s +₃₂ 1;
            snd_next_delivery_id := snd_next_delivery_id s;
            snd_receivers := <[receiver_id := state]> (snd_receivers s) |}.

(** The loop of [next_request]: the in-flight total, the least progress so far
    and the receiver that has it. *)
Definition select_receiver (acc : Z * spec_float * Z) (entry : Z * SnapshotSenderState)
    : Z * spec_float * Z :=
  let '(pending_chunks, min_progress, selected_receiver_id) := acc in
  let '(receiver_id, sender_state) := entry in
  let pending_chunks := pending_chunks +₃₂ sender_state_pending_chunks sender_state in
  if f64_gt min_progress (sender_state_progress sender_state)
  then (pending_chunks, sender_state_progress sender_state, receiver_id)
  else (pending_chunks, min_progress, selected_receiver_id).

Definition sender_next_request (s : DefaultSnapshotSender)
    : outcome (DefaultSnapshotSender * option DeliverSnapshotRequest) :=
  let '(pending_chunks, _, selected_receiver_id) :=
    foldl select_receiver (0, f64_one, 0) (hash_iter (snd_receivers s)) in
  if decide (snd_max_pending_chunks s ≤ pending_chunks ∨ selected_receiver_id = 0)
  then Return (s, None)
  else
    let next_delivery_id := snd_next_delivery_id s in
    state ← unwrap (snd_receivers s !! selected_receiver_id);
    '(state, next_chunk) ← sender_state_next_chunk state next_delivery_id;
    Return
      ({| snd_chunk_size := snd_chunk_size s;
          snd_max_pending_chunks := snd_max_pending_chunks s;
          snd_replica_id := snd_replica_id s;
          snd_instant := snd_instant s;
          snd_next_snapshot_id := snd_next_snapshot_id s;
          snd_next_delivery_id := next_delivery_id +₆₄ 1;
          snd_receivers := <[selected_receiver_id := state]> (snd_receivers s) |},
       payload_contents ← next_chunk;
       Some {| req_recipient_replica_id := selected_receiver_id;
               req_sender_replica_id := snd_replica_id s;
               req_delivery_id := next_delivery_id;
               req_payload_contents := payload_contents |}).

Definition sender_process_response (s : DefaultSnapshotSender) (receiver_id delivery_id : Z)
    (response : result SnapshotError DeliverSnapshotResponse) : DefaultSnapshotSender :=
  match snd_receivers s !! receiver_id with
  | Some sender_state =>
      snd_with_receivers s
        (<[receiver_id := sender_state_process_response sender_state delivery_id response]>
           (snd_receivers s))
  | None => s
  end.

Definition sender_process_unexpected_request (request : DeliverSnapshotRequest)
    : DeliverSnapshotResponse :=
  let response_payload :=
    match proto_decode (M:=RequestPayload) (req_payload_contents request) with
    | Some payload =>
        match rqp_it payload with
        | None =>
            {| rsp_snapshot_id := 0; rsp_chunk_index := 0;
               rsp_status := SnapshotStatusRejected |}
        | Some (PayloadHeader _) =>
            {| rsp_snapshot_id := rqp_snapshot_id payload; rsp_chunk_index := 0;
               rsp_status := SnapshotStatusRejected |}
        | Some (PayloadChunk chunk) =>
            {| rsp_snapshot_id := rqp_snapshot_id payload;
               rsp_chunk_index := chk_chunk_index chunk;
               rsp_status := SnapshotStatusRejected |}
        end
    | None =>
        {| rsp_snapshot_id := 0; rsp_chunk_index := 0;
           rsp_status := SnapshotStatusRejected |}
    end in
  {| resp_recipient_replica_id := req_sender_replica_id request;
     resp_sender_replica_id := req_recipient_replica_id request;
     resp_delivery_id := req_delivery_id request;
     resp_payload_contents := proto_encode response_payload |}.

(** The loop of [try_complete], which stops at the first transfer that reached a
    final status. *)
Fixpoint complete_first (receivers : gmap Z SnapshotSenderState)
    (entries : list (Z * SnapshotSenderState))
    : gmap Z SnapshotSenderState * option (Z * RaftSnapshotStatus) :=
  match entries with
  | [] => (receivers, None)
  | (receiver_id, sender_state) :: entries =>
      let '(sender_state, status) := sender_state_try_complete sender_state in
      let receivers := <[receiver_id := sender_state]> receivers in
      match status with
      | Some snapshot_status => (receivers, Some (receiver_id, snapshot_status))
      | None => complete_first receivers entries
      end
  end.

Definition sender_try_complete (s : DefaultSnapshotSender)
    : DefaultSnapshotSender * option (Z * RaftSnapshotStatus) :=
  let '(receivers, result) := complete_first (snd_receivers s) (hash_iter (snd_receivers s)) in
  match result with
  | Some (receiver_id, _) => (snd_with_receivers s (delete receiver_id receivers), result)
  | None => (snd_with_receivers s receivers, None)
  end.

(** ** The receiver *)

Record ReceiverState := {
  rs_sender_id : Z;
  rs_snapshot_id : Z;
  rs_snapshot_size : Z;
  rs_snapshot_metadata : bytes;
  rs_chunk_size : Z;
  rs_chunk_count : Z;
  rs_chunks : gmap Z bytes
}.

Definition receiver_state_new (sender_id snapshot_id snapshot_size : Z)
    (snapshot_metadata first_chunk : bytes) : outcome ReceiverState :=
  let chunk_size := zlen first_chunk in
  count ← chunk_count snapshot_size chunk_size;
  Return {| rs_sender_id := sender_id;
            rs_snapshot_id := snapshot_id;
            rs_snapshot_size := snapshot_size;
            rs_snapshot_metadata := snapshot_metadata;
            rs_chunk_size := chunk_size;
            rs_chunk_count := count;
            rs_chunks := {[ 0 := first_chunk ]} |}.

Definition rs_with_chunks (s : ReceiverState) (chunks : gmap Z bytes) : ReceiverState :=
  {| rs_sender_id := rs_sender_id s;
     rs_snapshot_id := rs_snapshot_id s;
     rs_snapshot_size := rs_snapshot_size s;
     rs_snapshot_metadata := rs_snapshot_metadata s;
     rs_chunk_size := rs_chunk_size s;
     rs_chunk_count := rs_chunk_count s;
     rs_chunks := chunks |}.

Definition receiver_state_accept_chunk (s : ReceiverState) (sender_id index : Z)
    (chunk_contents : bytes) : ReceiverState * bool :=
  if decide (sender_id ≠ rs_sender_id s) then (s, false)
  else
    let chunk_size := zlen chunk_contents in
    if decide (rs_chunk_count s ≤ index ∨
        (index < rs_chunk_count s -₆₄ 1 ∧ chunk_size ≠ rs_chunk_size s) ∨
        (index = rs_chunk_count s -₆₄ 1 ∧
          chunk_size ≠
            rs_snapshot_size s -₆₄ (rs_chunk_count s -₆₄ 1) *₆₄ rs_chunk_size s))
    then (s, false)
    else (rs_with_chunks s (<[index := chunk_contents]> (rs_chunks s)), true).

(** One iteration of the copying loop of [try_complete]. *)
Definition take_chunk (acc : gmap Z bytes * bytes) (c : Z)
    : outcome (gmap Z bytes * bytes) :=
  let '(chunks, snapshot_data) := acc in
  chunk ← unwrap (chunks !! c);
  Return (delete c chunks, snapshot_data ++ chunk).

Definition receiver_state_try_complete (s : ReceiverState)
    : outcome (ReceiverState * option (result SnapshotError (Z * RaftSnapshot))) :=
  if decide (Z.of_nat (size (rs_chunks s)) ≠ rs_chunk_count s) then Return (s, None)
  else
    match proto_decode (M:=RaftSnapshotMetadata) (rs_snapshot_metadata s) with
    | None => Return (s, Some (Err Corrupted))
    | Some snapshot_metadata =>
        '(chunks, snapshot_data) ←
          ofold take_chunk (rs_chunks s, []) (seqZ 0 (rs_chunk_count s));
        Return (rs_with_chunks s chunks,
                Some (Ok (rs_sender_id s,
                  {| snap_data := snapshot_data;
                     snap_metadata := Some snapshot_metadata |})))
    end.

Record DefaultSnapshotReceiver := {
  rcv_replica_id : Z;
  rcv_instant : Z;
  rcv_state : option ReceiverState
}.

Definition receiver_new : DefaultSnapshotReceiver :=
  {| rcv_replica_id := 0; rcv_instant := 0; rcv_state := None |}.

Definition receiver_init (r : DefaultSnapshotReceiver) (replica_id : Z)
    : DefaultSnapshotReceiver :=
  {| rcv_replica_id := replica_id; rcv_instant := rcv_instant r; rcv_state := rcv_state r |}.

Definition receiver_set_instant (r : DefaultSnapshotReceiver) (instant : Z)
    : DefaultSnapshotReceiver :=
  {| rcv_replica_id := rcv_replica_id r; rcv_instant := instant; rcv_state := rcv_state r |}.

Definition rcv_with_state (r : DefaultSnapshotReceiver) (state : option ReceiverState)
    : DefaultSnapshotReceiver :=
  {| rcv_replica_id := rcv_replica_id r; rcv_instant := rcv_instant r; rcv_state := state |}.

Definition receiver_reset (r : DefaultSnapshotReceiver) : DefaultSnapshotReceiver :=
  rcv_with_state r None.

Definition receiver_process_request (r : DefaultSnapshotReceiver)
    (request : DeliverSnapshotRequest)
    : outcome (DefaultSnapshotReceiver * DeliverSnapshotResponse) :=
  let snapshot_id := match rcv_state r with Some s => rs_snapshot_id s | None => 0 end in
  '(r, response_payload) ←
    match proto_decode (M:=RequestPayload) (req_payload_contents request) with
    | Some payload =>
        match rqp_it payload with
        | None =>
            Return (r, {| rsp_snapshot_id := snapshot_id; rsp_chunk_index := 0;
                          rsp_status := SnapshotStatusUnspecified |})
        | Some (PayloadHeader header) =>
            let r := receiver_reset r in
            state ← receiver_state_new (req_sender_replica_id request)
                      (rqp_snapshot_id payload) (hdr_snapshot_size header)
                      (hdr_snapshot_metadata header) (hdr_chunk_contents header);
            Return (rcv_with_state r (Some state),
                    {| rsp_snapshot_id := rqp_snapshot_id payload; rsp_chunk_index := 0;
                       rsp_status := SnapshotStatusAccepted |})
        | Some (PayloadChunk chunk) =>
            let '(r, status) :=
              match rcv_state r with
              | Some state =>
                  let '(state, accepted) :=
                    receiver_state_accept_chunk state (req_sender_replica_id request)
                      (chk_chunk_index chunk) (chk_chunk_contents chunk) in
                  (rcv_with_state r (Some state),
                   if accepted : bool then SnapshotStatusAccepted else SnapshotStatusRejected)
              | None => (r, SnapshotStatusRejected)
              end in
            Return (r, {| rsp_snapshot_id := rqp_snapshot_id payload;
                          rsp_chunk_index := chk_chunk_index chunk;
                          rsp_status := status |})
        end
    | None =>
        Return (r, {| rsp_snapshot_id := snapshot_id; rsp_chunk_index := 0;
                      rsp_status := SnapshotStatusRejected |})
    end;
  Return (r, {| resp_recipient_replica_id := req_sender_replica_id request;
                resp_sender_replica_id := req_recipient_replica_id request;
                resp_delivery_id := req_delivery_id request;
                resp_payload_contents := proto_encode response_payload |}).

Definition receiver_try_complete (r : DefaultSnapshotReceiver)
    : outcome (DefaultSnapshotReceiver * option (result SnapshotError (Z * RaftSnapshot))) :=
  match rcv_state r with
  | None => Return (r, None)
  | Some state =>
      '(state, result) ← receiver_state_try_complete state;
      let r := rcv_with_state r (Some state) in
      match result with
      | Some _ => Return (receiver_reset r, result)
      | None => Return (r, None)
      end
  end.
End snapshot.

(** ** The processor

    The processor owns a sender and a receiver behind traits; what it relies on
    from them is that a reset forgets the transfers, the sender reporting each
    of them as failed. *)

Inductive ReplicaState := ReplicaUnknown | ReplicaFollower | ReplicaLeader.

Class SnapshotSenderImpl (S : Type) : Type := {
  sender_impl_init : S → Z → option SnapshotConfig → S;
  sender_impl_set_instant : S → Z → S;
  sender_impl_reset : S → S * list (Z * RaftSnapshotStatus);
  (* the receivers with an unreported transfer *)
  sender_transfers : S → list Z;
  sender_transfers_NoDup : ∀ s, NoDup (sender_transfers s);
  sender_impl_reset_reports : ∀ s,
    (sender_impl_reset s).2 ≡ₚ map (λ id, (id, Failure)) (sender_transfers s);
  sender_impl_reset_forgets : ∀ s, sender_transfers (sender_impl_reset s).1 = [];
  sender_impl_init_keeps : ∀ s id config,
    sender_transfers (sender_impl_init s id config) = sender_transfers s
}.

Class SnapshotReceiverImpl (R : Type) : Type := {
  receiver_impl_init : R → Z → R;
  receiver_impl_set_instant : R → Z → R;
  receiver_impl_reset : R → R;
  receiver_transfer : R → option Z;
  receiver_impl_reset_forgets : ∀ r, receiver_transfer (receiver_impl_reset r) = None;
  receiver_impl_init_keeps : ∀ r id,
    receiver_transfer (receiver_impl_init r id) = receiver_transfer r
}.

Section processor.
Context {S R : Type} `{!SnapshotSenderImpl S, !SnapshotReceiverImpl R}.

Record DefaultSnapshotProcessor := {
  proc_replica_id : Z;
  proc_leader_id : Z;
  proc_leader_term : Z;
  proc_state : ReplicaState;
  proc_sender : S;
  proc_receiver : R
}.

Definition processor_new (sender : S) (receiver : R) : DefaultSnapshotProcessor :=
  {| proc_replica_id := 0; proc_leader_id := 0; proc_leader_term := 0;
     proc_state := ReplicaUnknown; proc_sender := sender; proc_receiver := receiver |}.

Definition processor_init (p : DefaultSnapshotProcessor) (replica_id : Z)
    (snapshot_config : option SnapshotConfig) : outcome DefaultSnapshotProcessor :=
  match proc_state p with
  | ReplicaUnknown =>
      Return {| proc_replica_id := replica_id;
                proc_leader_id := proc_leader_id p;
                proc_leader_term := proc_leader_term p;
                proc_state := ReplicaFollower;
                proc_sender := sender_impl_init (proc_sender p) replica_id snapshot_config;
                proc_receiver := receiver_impl_init (proc_receiver p) replica_id |}
  | _ => Panic
  end.

Definition processor_process_cluster_change (p : DefaultSnapshotProcessor)
    (leader_id leader_term : Z) (replicas : list Z)
    : outcome (DefaultSnapshotProcessor * list (Z * RaftSnapshotStatus)) :=
  let needs_reset :=
    bool_decide (proc_leader_id p ≠ leader_id ∨ proc_leader_term p ≠ leader_term ∨
      proc_replica_id p ∉ replicas) in
  '(sender, receiver, cancelled_snapshots) ←
    (if needs_reset then
       match proc_state p with
       | ReplicaFollower =>
           Return (proc_sender p, receiver_impl_reset (proc_receiver p), [])
       | ReplicaLeader =>
           let '(sender, cancelled) := sender_impl_reset (proc_sender p) in
           Return (sender, proc_receiver p, cancelled)
       | ReplicaUnknown => Panic
       end
     else Return (proc_sender p, proc_receiver p, []));
  state ←
    match proc_state p with
    | ReplicaFollower =>
        Return (if decide (proc_replica_id p = leader_id)
                then ReplicaLeader else ReplicaFollower)
    | ReplicaLeader =>
        Return (if decide (proc_replica_id p ≠ leader_id)
                then ReplicaFollower else ReplicaLeader)
    | ReplicaUnknown => Panic
    end;
  Return ({| proc_replica_id := proc_replica_id p;
             proc_leader_id := leader_id;
             proc_leader_term := leader_term;
             proc_state := state;
             proc_sender := sender;
             proc_receiver := receiver |}, cancelled_snapshots).

(** The role the processor hands out; the sender or receiver in it is a mutable
    borrow, so the definition also updates the processor. *)
Inductive SnapshotProcessorRole :=
| RoleSender (sender : S)
| RoleReceiver (receiver : R).

Definition processor_mut_processor (p : DefaultSnapshotProcessor) (instant : Z)
    : outcome (DefaultSnapshotProcessor * SnapshotProcessorRole) :=
  let update sender receiver :=
    {| proc_replica_id := proc_replica_id p;
       proc_leader_id := proc_leader_id p;
       proc_leader_term := proc_leader_term p;
       proc_state := proc_state p;
       proc_sender := sender;
       proc_receiver := receiver |} in
  match proc_state p with
  | ReplicaFollower =>
      let receiver := receiver_impl_set_instant (proc_receiver p) instant in
      Return (update (proc_sender p) receiver, RoleReceiver receiver)
  | ReplicaLeader =>
      let sender := sender_impl_set_instant (proc_sender p) instant in
      Return (update sender (proc_receiver p), RoleSender sender)
  | ReplicaUnknown => Panic
  end.
End processor.

(** * Properties *)

Section chunking.

(** The specification of chunk [k] of a snapshot. *)
Definition chunk_at (data : bytes) (chunk_size k : Z) : bytes :=
  take (Z.to_nat chunk_size) (drop (Z.to_nat (k * chunk_size)) data).

Lemma chunk_count_spec size c n :
  in_u64 size → in_u64 c → chunk_count size c = Return n →
  1 ≤ n ∧ n < two64 ∧ size ≤ n * c ∧ (n - 1) * c ≤ size ∧ (1 < n → (n - 1) * c < size).
Proof.
  unfold in_u64, chunk_count. intros Hs Hc.
  destruct (decide (size > 0)) as [Hpos|Hz]; [|intros [= <-]; lia].
  destruct (decide (c = 0)) as [|Hc0]; [done|]. intros [= <-].
  rewrite u64_sub_small by lia.
  pose proof (Z.div_mod (size - 1) c). pose proof (Z.mod_pos_bound (size - 1) c).
  assert (0 ≤ (size - 1) / c ≤ size - 1)
    by (split; [apply Z.div_pos; lia|apply Z.div_le_upper_bound; nia]).
  rewrite u64_add_small by lia.
  replace ((size - 1) / c + 1 - 1) with ((size - 1) / c) by lia.
  split_and!; nia.
Qed.

Lemma chunk_count_Return size c : 0 < c → ∃ n, chunk_count size c = Return n.
Proof.
  intros. unfold chunk_count. repeat case_decide; eauto; lia.
Qed.

Lemma chunk_count_inj size c n n' :
  chunk_count size c = Return n → chunk_count size c = Return n' → n = n'.
Proof. congruence. Qed.

Lemma seqZ_snoc n : 0 ≤ n → seqZ 0 (n + 1) = seqZ 0 n ++ [n].
Proof.
  intros. rewrite seqZ_app by lia. by rewrite (seqZ_cons (0 + n)) by lia.
Qed.

(** The chunks in order make up the data. *)
Lemma concat_chunks data c n :
  0 ≤ c → 0 ≤ n →
  concat (map (chunk_at data c) (seqZ 0 n)) = take (Z.to_nat (n * c)) data.
Proof.
  intros Hc Hn. revert n Hn. apply natlike_ind; [done|]. intros n Hn IH. unfold Z.succ. rewrite seqZ_snoc by lia.
  rewrite map_app, concat_app, IH. simpl.
  rewrite app_nil_r. unfold chunk_at.
  replace (Z.to_nat ((n + 1) * c)) with (Z.to_nat (n * c) + Z.to_nat c)%nat by nia.
  by rewrite take_take_drop.
Qed.

Lemma length_chunk_at data c k :
  0 ≤ c → 0 ≤ k → k * c ≤ zlen data →
  zlen (chunk_at data c k) = Z.min c (zlen data - k * c).
Proof.
  intros. unfold chunk_at. rewrite length_take, length_drop. nia.
Qed.

Lemma slice_chunk_at data c k :
  in_u64 c → 0 ≤ k → zlen data < two63 → (k * c < zlen data ∨ k = 0) →
  slice data (k *₆₄ c) (Z.min (zlen data) (k *₆₄ c +₆₄ c)) = Return (chunk_at data c k).
Proof.
  intros Hc Hk Hd Hin. unfold in_u64 in Hc.
  assert (k * c + c < two64 ∧ k * c ≤ zlen data) as [Hov Hle] by nia.
  rewrite u64_mul_small, u64_add_small by nia. rewrite slice_Return by nia.
  unfold chunk_at. f_equal.
  destruct (Z.min_spec (zlen data) (k * c + c)) as [[? ->]|[? ->]].
  - rewrite take_ge by (rewrite length_drop; lia).
    by rewrite take_ge by (rewrite length_drop; lia).
  - do 2 f_equal. lia.
Qed.
Lemma take_chunks_spec (f : Z → bytes) l m acc :
  NoDup l → (∀ k, k ∈ l → m !! k = Some (f k)) →
  ∃ m', ofold take_chunk (m, acc) l = Return (m', acc ++ concat (map f l)).
Proof.
  revert m acc. induction l as [|k l IH]; intros m acc Hnd Hm; simpl.
  - exists m. by rewrite app_nil_r.
  - inversion_clear Hnd as [|? ? Hk Hnd']. rewrite (Hm k) by (by left). simpl.
    destruct (IH (delete k m) (acc ++ f k)) as [m' ->]; [done| |].
    + intros j Hj. rewrite lookup_delete_ne by congruence. apply Hm. by right.
    + exists m'. by rewrite <- app_assoc.
Qed.

End chunking.

Section sender.
Context `{!ProtoCodec RequestPayload, !ProtoCodec ResponsePayload,
          !ProtoCodec RaftSnapshotMetadata, !HashOrder Z}.

(** ** One transfer

    [acked] collects what is known of every chunk counted as sent. *)

Record sender_state_inv (next_id : Z) (acked : Z → Prop) (s : SnapshotSenderState) : Prop := {
  ssi_count : 1 ≤ ss_chunk_count s < two32;
  ssi_chunk_size : in_u64 (ss_chunk_size s);
  ssi_length : zlen (ss_snapshot_data s) < two63;
  ssi_ids : map_Forall (λ id _, id < next_id) (ss_pending_chunks s);
  ssi_range : 0 ≤ ss_sent_chunk_count s ∧
    ss_sent_chunk_count s + Z.of_nat (size (ss_pending_chunks s)) ≤ ss_next_chunk_index s
    ≤ ss_chunk_count s;
  ssi_active : ss_status s = None →
    chunk_count (zlen (ss_snapshot_data s)) (ss_chunk_size s) = Return (ss_chunk_count s) ∧
    ∃ l, Forall acked l ∧ zlen l = ss_sent_chunk_count s ∧
      l ++ (map_to_list (ss_pending_chunks s)).*2 ≡ₚ seqZ 0 (ss_next_chunk_index s)
}.

(** A transfer that still has chunks to hand out. *)
Definition has_next (s : SnapshotSenderState) : Prop :=
  ss_status s = None ∧ ss_next_chunk_index s < ss_chunk_count s.

#[global] Instance has_next_dec s : Decision (has_next s).
Proof. unfold has_next. apply _. Defined.

Lemma sender_state_active_sum id P s :
  sender_state_inv id P s → ss_status s = None →
  ss_sent_chunk_count s + Z.of_nat (size (ss_pending_chunks s)) = ss_next_chunk_index s.
Proof.
  intros [_ _ _ _ Hr Ha] Hs. destruct (Ha Hs) as (_ & l & _ & Hl & Hp).
  apply Permutation_length in Hp. rewrite length_app, length_map, length_seqZ in Hp.
  rewrite length_map_to_list in Hp. lia.
Qed.

Lemma sender_state_new_inv sid snapshot c s P :
  in_u64 c → zlen (snap_data snapshot) < two63 →
  sender_state_new sid snapshot c = Return s → ss_chunk_count s < two32 →
  ∀ id, sender_state_inv id P s.
Proof.
  intros Hc Hlen Hnew Hcnt id. unfold sender_state_new in Hnew. outcome_inv.
  destruct (chunk_count_spec (zlen (snap_data snapshot)) c _
    ltac:(unfold in_u64; lia) Hc ltac:(eassumption)) as (? & _).
  subst s; simpl in *. split; simpl; try done.
  - rewrite map_size_empty. lia.
  - intros _. split; [done|]. exists []. split_and!; [constructor|done|].
    by rewrite map_to_list_empty.
Qed.

(** The payload that carries chunk [k] of a transfer. *)
Definition chunk_payload (s : SnapshotSenderState) (k : Z) : RequestPayload :=
  let contents := chunk_at (ss_snapshot_data s) (ss_chunk_size s) k in
  {| rqp_snapshot_id := ss_snapshot_id s;
     rqp_it := Some
       (if decide (k = 0) then
          PayloadHeader {| hdr_snapshot_size := zlen (ss_snapshot_data s);
                           hdr_snapshot_metadata := proto_encode (ss_snapshot_metadata s);
                           hdr_chunk_contents := contents |}
        else PayloadChunk {| chk_chunk_index := k; chk_chunk_contents := contents |}) |}.

(** Registering the next chunk under a delivery id. *)
Definition ss_advanced (s : SnapshotSenderState) (delivery_id : Z) : SnapshotSenderState :=
  {| ss_snapshot_id := ss_snapshot_id s;
     ss_snapshot_metadata := ss_snapshot_metadata s;
     ss_snapshot_data := ss_snapshot_data s;
     ss_chunk_size := ss_chunk_size s;
     ss_chunk_count := ss_chunk_count s;
     ss_next_chunk_index := ss_next_chunk_index s + 1;
     ss_sent_chunk_count := ss_sent_chunk_count s;
     ss_pending_chunks := <[delivery_id := ss_next_chunk_index s]> (ss_pending_chunks s);
     ss_status := None |}.

Lemma next_chunk_has_next id P s d :
  sender_state_inv id P s → has_next s →
  sender_state_next_chunk s d
  = Return (ss_advanced s d, Some (proto_encode (chunk_payload s (ss_next_chunk_index s)))).
Proof.
  intros Hinv [Hst Hlt]. pose proof Hinv as [Hc Hcs Hlen _ Hr Ha].
  destruct (Ha Hst) as (Hcc & _).
  destruct (chunk_count_spec (zlen (ss_snapshot_data s)) _ _
    ltac:(unfold in_u64; lia) Hcs Hcc) as (_ & _ & _ & Hle & Hlt1).
  unfold sender_state_next_chunk. rewrite Hst.
  rewrite slice_chunk_at; [|done|lia|done|].
  - simpl. unfold ss_advanced. rewrite u32_add_small by lia. unfold chunk_payload.
    by destruct (decide (ss_next_chunk_index s = 0)).
  - unfold in_u64 in *.
    destruct (decide (ss_next_chunk_index s = 0)); [by right|left].
    specialize (Hlt1 ltac:(lia)). nia.
Qed.

Lemma ss_advanced_inv id P s :
  sender_state_inv id P s → has_next s → sender_state_inv (id + 1) P (ss_advanced s id).
Proof.
  intros Hinv [Hst Hlt]. pose proof Hinv as [Hc Hcs Hlen Hids Hr Ha].
  assert (ss_pending_chunks s !! id = None) as Hfresh.
  { destruct (_ !! id) eqn:E; [|done]. apply Hids in E. lia. }
  split; simpl; try done.
  - apply map_Forall_insert_2; [lia|]. eapply map_Forall_impl; [done|]. simpl. lia.
  - rewrite map_size_insert_None by done. lia.
  - intros _. destruct (Ha Hst) as (Hcc & l & HP & Hl & Hp). split; [done|].
    exists l. split_and!; [done|done|].
    rewrite map_to_list_insert by done. rewrite seqZ_snoc by lia. simpl.
    rewrite <- Permutation_middle, <- Permutation_cons_append. by rewrite Hp.
Qed.

Lemma sender_state_inv_mono id id' P s :
  id ≤ id' → sender_state_inv id P s → sender_state_inv id' P s.
Proof.
  intros Hle [Hc Hcs Hlen Hids Hr Ha]. split; try done.
  eapply map_Forall_impl; [done|]. simpl. lia.
Qed.

(** The response acknowledges chunk [k] of the given snapshot. *)
Definition acknowledges (snapshot_id k : Z)
    (response : result SnapshotError DeliverSnapshotResponse) : Prop :=
  ∃ r, response = Ok r ∧
    proto_decode (resp_payload_contents r)
    = Some {| rsp_snapshot_id := snapshot_id; rsp_chunk_index := k;
              rsp_status := SnapshotStatusAccepted |}.

(** What a response does: it is ignored, it acknowledges a pending chunk, or it
    fails the transfer. *)
Lemma process_response_cases s d response s' :
  sender_state_process_response s d response = s' →
  s' = s ∨
  (∃ k, ss_pending_chunks s !! d = Some k ∧ acknowledges (ss_snapshot_id s) k response ∧
    s' = ss_with_delivery s (ss_sent_chunk_count s +₆₄ 1)
           (delete d (ss_pending_chunks s)) (ss_status s)) ∨
  (∃ pending, pending ⊆ ss_pending_chunks s ∧
    s' = ss_with_delivery s (ss_sent_chunk_count s) pending (Some Failure)).
Proof.
  unfold sender_state_process_response. intros <-.
  destruct response as [r|e]; [|right; right; eexists; split; [reflexivity|done]].
  destruct (proto_decode _) as [[sid k st]|] eqn:Hdec; simpl;
    [|right; right; eexists; split; [reflexivity|done]].
  destruct (decide (ss_snapshot_id s ≠ sid)) as [|Hsid]; [by left|].
  apply dec_stable in Hsid.
  destruct (decide (ss_chunk_count s ≤ k));
    [right; right; eexists; split; [reflexivity|done]|].
  destruct (decide (ss_pending_chunks s !! d ≠ Some k)) as [|Hk];
    [right; right; eexists; split; [apply delete_subseteq|done]|].
  apply dec_stable in Hk.
  destruct (decide (st = SnapshotStatusAccepted)) as [->|];
    [|right; right; eexists; split; [apply delete_subseteq|done]].
  right; left. exists k. split_and!; [done| |done]. exists r. by subst.
Qed.

Lemma process_response_inv id P s d response :
  (∀ k, ss_pending_chunks s !! d = Some k → acknowledges (ss_snapshot_id s) k response → P k) →
  sender_state_inv id P s →
  sender_state_inv id P (sender_state_process_response s d response).
Proof.
  intros HP Hinv. pose proof Hinv as [Hc Hcs Hlen Hids Hr Ha].
  destruct (process_response_cases s d response _ eq_refl)
    as [->|[(k & Hk & Hack & ->)|(pending & Hsub & ->)]]; [done| |].
  - pose proof (map_size_delete_Some (M:=gmap Z) d (ss_pending_chunks s) ltac:(eauto)) as Hsz.
    assert (size (ss_pending_chunks s) ≠ 0%nat).
    { intros Hz. apply map_size_empty_iff in Hz. rewrite Hz in Hk. done. }
    split; simpl; try done.
    + by apply map_Forall_delete.
    + rewrite Hsz. rewrite u64_add_small by lia. lia.
    + intros Hst. destruct (Ha Hst) as (Hcc & l & HPl & Hl & Hp). split; [done|].
      exists (k :: l). split_and!.
      * constructor; auto.
      * simpl. rewrite u64_add_small by lia. lia.
      * rewrite <- Hp, <- (map_to_list_delete (ss_pending_chunks s) d k) by done. simpl.
        by rewrite <- Permutation_middle.
  - apply map_subseteq_size in Hsub as Hsz.
    split; simpl; try done.
    + intros i x Hi. eapply Hids, lookup_weaken; done.
    + lia.
Qed.

Lemma try_complete_cases s :
  (ss_status s = None ∧ ss_sent_chunk_count s = ss_chunk_count s ∧
   (sender_state_try_complete s).2 = Some Finish) ∨
  (sender_state_try_complete s = (s, ss_status s)).
Proof.
  unfold sender_state_try_complete. case_decide as H; [left|by right].
  destruct H. split_and!; done.
Qed.

(** ** Progress *)

Lemma progress_has_next id P s :
  sender_state_inv id P s → has_next s → f64_gt f64_one (sender_state_progress s) = true.
Proof.
  intros Hinv [Hst Hlt]. pose proof (sender_state_active_sum _ _ _ Hinv Hst).
  destruct Hinv as [Hc _ _ _ Hr _]. unfold sender_state_progress. rewrite Hst.
  apply f64_ratio_below_one; lia.
Qed.

Lemma progress_done id P s :
  sender_state_inv id P s → ¬ has_next s → sender_state_progress s = f64_one.
Proof.
  intros Hinv Hn. unfold sender_state_progress. destruct (ss_status s) eqn:Hst; [done|].
  pose proof (sender_state_active_sum _ _ _ Hinv Hst).
  destruct Hinv as [Hc _ _ _ Hr _]. unfold has_next in Hn.
  apply f64_ratio_one; [lia|lia|lia|].
  assert (¬ ss_next_chunk_index s < ss_chunk_count s) by tauto. lia.
Qed.

Lemma progress_nonneg id P s : sender_state_inv id P s → nonneg (sender_state_progress s).
Proof.
  intros Hinv. destruct (decide (has_next s)) as [Hn|Hn];
    [|by rewrite (progress_done _ _ _ Hinv Hn)].
  destruct Hn as [Hst Hlt]. pose proof (sender_state_active_sum _ _ _ Hinv Hst).
  destruct Hinv as [Hc _ _ _ Hr _]. unfold sender_state_progress. rewrite Hst.
  apply f64_ratio_nonneg; lia.
Qed.

(** ** All transfers *)

Definition in_flight (m : gmap Z SnapshotSenderState) : Z :=
  Z.of_nat (sum_list_with (λ e, size (ss_pending_chunks e.2)) (map_to_list m)).

Lemma in_flight_insert_fresh m i s :
  m !! i = None → in_flight (<[i := s]> m) = Z.of_nat (size (ss_pending_chunks s)) + in_flight m.
Proof.
  intros Hi. unfold in_flight.
  rewrite (map_to_list_insert m i s Hi).
  simpl. lia.
Qed.

Lemma in_flight_delete m i s :
  m !! i = Some s → in_flight m = Z.of_nat (size (ss_pending_chunks s)) + in_flight (delete i m).
Proof.
  intros Hi. rewrite <- (in_flight_insert_fresh (delete i m) i s) by apply lookup_delete_eq.
  by rewrite insert_delete_id.
Qed.

Record sender_inv (s : DefaultSnapshotSender) : Prop := {
  si_chunk_size : in_u64 (snd_chunk_size s);
  si_max : in_u32 (snd_max_pending_chunks s);
  si_next_id : 0 ≤ snd_next_delivery_id s < two64;
  si_ids : snd_receivers s !! 0 = None;
  si_transfers :
    map_Forall (λ _, sender_state_inv (snd_next_delivery_id s) (λ _, True)) (snd_receivers s);
  si_in_flight : in_flight (snd_receivers s) ≤ snd_max_pending_chunks s
}.

Lemma in_flight_nonneg m : 0 ≤ in_flight m.
Proof. unfold in_flight. lia. Qed.

Lemma in_flight_entry m i s :
  m !! i = Some s → Z.of_nat (size (ss_pending_chunks s)) ≤ in_flight m.
Proof.
  intros Hi. rewrite (in_flight_delete m i s Hi). pose proof (in_flight_nonneg (delete i m)). lia.
Qed.

(** The state of the selection loop: nothing selected yet, or the receiver of
    an unfinished transfer with the least progress seen. *)
Definition selected (seen : list (Z * SnapshotSenderState)) (mn : spec_float) (sel : Z) : Prop :=
  (mn = f64_one ∧ sel = 0 ∧ Forall (λ e, ¬ has_next e.2) seen) ∨
  (f64_gt f64_one mn = true ∧ ∃ st, (sel, st) ∈ seen ∧ has_next st ∧
     mn = sender_state_progress st ∧
     Forall (λ e, f64_gt mn (sender_state_progress e.2) = false) seen).

Lemma selected_not_above_one seen mn sel :
  selected seen mn sel → f64_gt mn f64_one = false.
Proof. intros [(-> & _)|(H & _)]; apply f64_gt_one_irrefl; auto. Qed.

Lemma selected_lower id seen mn sel st :
  Forall (λ e, sender_state_inv id (λ _, True) e.2) seen →
  selected seen mn sel → sender_state_inv id (λ _, True) st → has_next st →
  f64_gt mn (sender_state_progress st) = true →
  Forall (λ e, f64_gt (sender_state_progress st) (sender_state_progress e.2) = false) seen.
Proof.
  rewrite !Forall_forall. intros Hseen Hsel Hinv Hn Hgt e He.
  destruct Hsel as [(-> & _ & Hall)|(Hmn & st0 & Hin & Hn0 & -> & Hall)];
    rewrite Forall_forall in Hall.
  - rewrite (progress_done id (λ _, True) e.2) by auto.
    apply f64_gt_one_irrefl. by right.
  - destruct (f64_gt (sender_state_progress st) _) eqn:E; [|done].
    rewrite <- (Hall e He). symmetry.
    apply (f64_gt_trans _ (sender_state_progress st)); try done;
      eapply (progress_nonneg id (λ _, True)); [|done|by apply Hseen].
    apply (Hseen _ Hin).
Qed.

Lemma select_step id p mn sel seen e :
  sender_state_inv id (λ _, True) e.2 →
  Forall (λ e, sender_state_inv id (λ _, True) e.2) seen →
  selected seen mn sel → ∃ mn' sel',
  select_receiver (p, mn, sel) e = (p +₃₂ sender_state_pending_chunks e.2, mn', sel') ∧
  selected (seen ++ [e]) mn' sel'.
Proof.
  intros Hinv Hseen Hsel. destruct e as [rid st]. simpl in Hinv. unfold select_receiver.
  destruct (f64_gt mn (sender_state_progress st)) eqn:Hgt;
    (eexists _, _; split; [reflexivity|]).
  - destruct (decide (has_next st)) as [Hn|Hn].
    2: { rewrite (progress_done _ _ _ Hinv Hn) in Hgt.
         by rewrite (selected_not_above_one _ _ _ Hsel) in Hgt. }
    right. split; [by eapply progress_has_next|]. exists st.
    split_and!; [set_solver|done|done|]. apply Forall_app. split.
    + by eapply selected_lower.
    + constructor; [|constructor]. by eapply f64_gt_irrefl, progress_nonneg.
  - destruct Hsel as [(-> & -> & Hall)|(Hmn & st0 & Hin & Hn0 & -> & Hall)]; [left|right].
    + split_and!; [done|done|]. apply Forall_app. split; [done|]. constructor; [|constructor].
      intros Hn. rewrite (progress_has_next _ _ _ Hinv Hn) in Hgt. done.
    + split; [done|]. exists st0. split_and!; [set_solver|done|done|].
      apply Forall_app. split; [done|]. by constructor.
Qed.

Lemma select_loop id p mn sel seen l :
  Forall (λ e, sender_state_inv id (λ _, True) e.2) (seen ++ l) →
  0 ≤ p → p + Z.of_nat (sum_list_with (λ e, size (ss_pending_chunks e.2)) l) < two32 →
  selected seen mn sel → ∃ mn' sel',
  foldl select_receiver (p, mn, sel) l
  = (p + Z.of_nat (sum_list_with (λ e, size (ss_pending_chunks e.2)) l), mn', sel') ∧
  selected (seen ++ l) mn' sel'.
Proof.
  revert p mn sel seen. induction l as [|e l IH]; intros p mn sel seen Hall Hp Hlt Hsel.
  - exists mn, sel. simpl. rewrite Z.add_0_r, app_nil_r. done.
  - simpl in Hlt. pose proof Hall as Hall'. apply Forall_app in Hall' as [Hseen Hel].
    inversion_clear Hel as [|? ? He Hl].
    destruct (select_step id p mn sel seen e) as (mn1 & sel1 & Heq & Hsel1); [done..|].
    change (foldl select_receiver (p, mn, sel) (e :: l))
      with (foldl select_receiver (select_receiver (p, mn, sel) e) l).
    rewrite Heq. unfold sender_state_pending_chunks.
    rewrite Z.mod_small, u32_add_small by lia.
    destruct (IH (p + Z.of_nat (size (ss_pending_chunks e.2))) mn1 sel1 (seen ++ [e]))
      as (mn2 & sel2 & -> & Hsel2); [by rewrite <- app_assoc|lia|lia|done|].
    exists mn2, sel2. rewrite <- app_assoc in Hsel2. split; [|done].
    simpl. do 2 f_equal. lia.
Qed.

Lemma hash_iter_lookup {V} (m : gmap Z V) i x : (i, x) ∈ hash_iter m ↔ m !! i = Some x.
Proof. by rewrite (hash_iter_perm m), elem_of_map_to_list. Qed.

Lemma hash_iter_Forall {V} (m : gmap Z V) (P : V → Prop) :
  map_Forall (λ _, P) m → Forall (λ e, P e.2) (hash_iter m).
Proof.
  intros HP. apply Forall_forall. intros [i x] Hin. apply hash_iter_lookup in Hin.
  by eapply HP.
Qed.

(** The receiver [next_request] may pick: it has chunks left and none of the
    others has made less progress. *)
Definition least_progress (m : gmap Z SnapshotSenderState) (id : Z) (st : SnapshotSenderState)
    : Prop :=
  m !! id = Some st ∧ has_next st ∧
  ∀ id' st', m !! id' = Some st' →
    f64_gt (sender_state_progress st) (sender_state_progress st') = false.

Definition snd_after_request (s : DefaultSnapshotSender) (id : Z) (st : SnapshotSenderState)
    : DefaultSnapshotSender :=
  {| snd_chunk_size := snd_chunk_size s;
     snd_max_pending_chunks := snd_max_pending_chunks s;
     snd_replica_id := snd_replica_id s;
     snd_instant := snd_instant s;
     snd_next_snapshot_id := snd_next_snapshot_id s;
     snd_next_delivery_id := snd_next_delivery_id s +₆₄ 1;
     snd_receivers :=
       <[id := ss_advanced st (snd_next_delivery_id s)]> (snd_receivers s) |}.

Lemma next_request_cases s :
  sender_inv s →
  (sender_next_request s = Return (s, None) ∧
   (snd_max_pending_chunks s ≤ in_flight (snd_receivers s) ∨
    map_Forall (λ _ st, ¬ has_next st) (snd_receivers s))) ∨
  (in_flight (snd_receivers s) < snd_max_pending_chunks s ∧
   ∃ id st, least_progress (snd_receivers s) id st ∧
    sender_next_request s = Return (snd_after_request s id st,
      Some {| req_recipient_replica_id := id;
              req_sender_replica_id := snd_replica_id s;
              req_delivery_id := snd_next_delivery_id s;
              req_payload_contents :=
                proto_encode (chunk_payload st (ss_next_chunk_index st)) |})).
Proof.
  intros [Hcs Hmax Hid H0 Htr Hfl]. unfold in_u32 in Hmax.
  pose proof (hash_iter_Forall _ _ Htr) as Hall.
  assert (in_flight (snd_receivers s)
    = Z.of_nat (sum_list_with (λ e, size (ss_pending_chunks e.2)) (hash_iter (snd_receivers s))))
    as Hsum by (unfold in_flight; by rewrite <- (hash_iter_perm (snd_receivers s))).
  destruct (select_loop (snd_next_delivery_id s) 0 f64_one 0 [] (hash_iter (snd_receivers s)))
    as (mn & sel & Heq & Hsel); [done|lia|lia|left; by repeat split|].
  unfold sender_next_request. rewrite Heq, <- Hsum, Z.add_0_l.
  destruct (decide (snd_max_pending_chunks s ≤ in_flight (snd_receivers s))) as [Hfull|Hroom].
  { left. rewrite decide_True by auto. auto. }
  destruct Hsel as [(-> & -> & Hno)|(Hmn & st & Hin & Hn & -> & Hmin)].
  { left. rewrite decide_True by auto. split; [done|right].
    intros i st Hi. apply hash_iter_lookup in Hi.
    apply (proj1 (Forall_forall _ _) Hno _ Hi). }
  simpl in Hin, Hmin. apply hash_iter_lookup in Hin.
  rewrite decide_False by (intros [?| ->]; [lia|congruence]).
  right. split; [lia|]. exists sel, st. rewrite Hin. simpl.
  rewrite (next_chunk_has_next (snd_next_delivery_id s) (λ _, True) st) by (try apply (Htr sel); done).
  split; [|done]. split_and!; [done|done|]. intros id' st' Hi. apply hash_iter_lookup in Hi.
  apply (proj1 (Forall_forall _ _) Hmin _ Hi).
Qed.

Lemma snd_after_request_inv s id st :
  sender_inv s → snd_next_delivery_id s < two64 - 1 →
  in_flight (snd_receivers s) < snd_max_pending_chunks s →
  snd_receivers s !! id = Some st → has_next st → sender_inv (snd_after_request s id st).
Proof.
  intros [Hcs Hmax Hid H0 Htr Hfl] Hlt Hroom Hst Hn.
  assert (id ≠ 0) by congruence.
  pose proof (Htr _ _ Hst) as Hinv. simpl in Hinv.
  split; simpl; rewrite ?u64_add_small by lia; try done.
  - lia.
  - by rewrite lookup_insert_ne.
  - apply map_Forall_insert_2; [by apply ss_advanced_inv|].
    eapply map_Forall_impl; [exact Htr|]. intros i x Hx.
    eapply sender_state_inv_mono; [|exact Hx]. lia.
  - rewrite (in_flight_delete _ id (ss_advanced st (snd_next_delivery_id s)))
      by apply lookup_insert_eq.
    rewrite delete_insert_eq. rewrite (in_flight_delete _ id st Hst) in Hroom. simpl.
    rewrite map_size_insert_None; [lia|].
    destruct (ss_pending_chunks st !! snd_next_delivery_id s) eqn:E; [|done].
    apply (ssi_ids _ _ _ Hinv) in E. lia.
Qed.

(** A snapshot whose chunks can be numbered. *)
Definition start_ok (s : DefaultSnapshotSender) (receiver_id : Z) (snapshot : RaftSnapshot)
    : Prop :=
  receiver_id ≠ 0 ∧ is_Some (snap_metadata snapshot) ∧
  zlen (snap_data snapshot) < two63 ∧
  zlen (snap_data snapshot) ≤ (two32 - 1) * snd_chunk_size s.

Lemma sender_start_Return s id snapshot :
  in_u64 (snd_chunk_size s) → start_ok s id snapshot →
  ∃ st s', sender_state_new (snd_next_snapshot_id s) snapshot (snd_chunk_size s) = Return st ∧
    sender_start s id snapshot = Return s' ∧ ss_chunk_count st < two32 ∧
    snd_receivers s' = <[id := st]> (snd_receivers s) ∧
    snd_chunk_size s' = snd_chunk_size s ∧
    snd_max_pending_chunks s' = snd_max_pending_chunks s ∧
    snd_next_delivery_id s' = snd_next_delivery_id s.
Proof.
  intros Hcs (Hid & [md Hmd] & Hlen & Hfit).
  assert (∃ n, chunk_count (zlen (snap_data snapshot)) (snd_chunk_size s) = Return n ∧ n < two32)
    as (n & Hn & Hlt).
  { unfold in_u64 in Hcs. destruct (decide (snd_chunk_size s = 0)) as [Hz|Hz].
    - exists 1. unfold chunk_count. rewrite decide_False by nia. split; [done|lia].
    - destruct (chunk_count_Return (zlen (snap_data snapshot)) (snd_chunk_size s)) as [n Hn]; [lia|].
      exists n. split; [done|].
      apply chunk_count_spec in Hn as (? & ? & ? & ? & Hgt); [|unfold in_u64; lia|done].
      destruct (decide (1 < n)); [specialize (Hgt ltac:(lia)); nia|lia]. }
  unfold sender_start, sender_state_new. rewrite Hmd. simpl. rewrite Hn. simpl.
  eexists _, _. by split_and!.
Qed.

Lemma sender_start_inv s id snapshot s' :
  sender_inv s → start_ok s id snapshot → sender_start s id snapshot = Return s' →
  sender_inv s'.
Proof.
  intros Hinv Hok Hs'. pose proof Hinv as [Hcs Hmax Hid H0 Htr Hfl].
  destruct (sender_start_Return s id snapshot Hcs Hok)
    as (st & s2 & Hnew & Hst & Hcnt & Hr & Hc & Hm & Hd).
  rewrite Hst in Hs'. injection Hs' as <-. destruct Hok as (Hid0 & _ & Hlen & _).
  split; rewrite ?Hr, ?Hc, ?Hm, ?Hd; try done.
  - by rewrite lookup_insert_ne.
  - apply map_Forall_insert_2; [|done].
    exact (sender_state_new_inv _ _ _ _ _ Hcs Hlen Hnew Hcnt _).
  - assert (ss_pending_chunks st = ∅) as Hp
      by (unfold sender_state_new in Hnew; outcome_inv; by subst st).
    rewrite (in_flight_delete _ id st), delete_insert_eq by apply lookup_insert_eq.
    rewrite Hp, map_size_empty. destruct (snd_receivers s !! id) as [st0|] eqn:E.
    + rewrite (in_flight_delete _ _ _ E) in Hfl. lia.
    + rewrite delete_id by done. lia.
Qed.

Lemma sender_process_response_inv s id d response :
  sender_inv s → sender_inv (sender_process_response s id d response).
Proof.
  intros Hinv. pose proof Hinv as [Hcs Hmax Hid H0 Htr Hfl]. unfold sender_process_response.
  destruct (snd_receivers s !! id) as [st|] eqn:E; [|done].
  split; simpl; try done.
  - rewrite lookup_insert_ne by congruence. done.
  - apply map_Forall_insert_2; [|done]. apply process_response_inv; [done|by apply (Htr id)].
  - rewrite (in_flight_delete _ _ _ E) in Hfl.
    rewrite (in_flight_delete _ id (sender_state_process_response st d response)),
      delete_insert_eq by apply lookup_insert_eq.
    destruct (process_response_cases st d response _ eq_refl)
      as [->|[(k & Hk & _ & ->)|(pending & Hsub & ->)]]; simpl; [done| |].
    + rewrite map_size_delete_Some by eauto. lia.
    + apply map_subseteq_size in Hsub. lia.
Qed.

Lemma complete_first_spec m l m' res :
  Forall (λ e, m !! e.1 = Some e.2) l → complete_first m l = (m', res) →
  match res with
  | None => m' = m ∧ Forall (λ e, (sender_state_try_complete e.2).2 = None) l
  | Some (i, st) =>
      ∃ s, (i, s) ∈ l ∧ (sender_state_try_complete s).2 = Some st ∧ delete i m' = delete i m
  end.
Proof.
  induction l as [|[i s] l IH]; intros Hl; cbn [complete_first]; [by intros [= <- <-]|].
  inversion_clear Hl as [|? ? Hi Hl']. simpl in Hi.
  destruct (sender_state_try_complete s) as [s1 st1] eqn:E.
  assert ((sender_state_try_complete s).2 = st1) as E2 by by rewrite E.
  destruct st1 as [st1|].
  - intros [= <- <-]. exists s. split_and!; [set_solver|by rewrite E2|].
    by rewrite delete_insert_eq.
  - destruct (try_complete_cases s) as [(_ & _ & Hf)|Heq]; [congruence|].
    rewrite Heq in E. injection E as -> _. rewrite insert_id by done.
    intros Hc. specialize (IH Hl' Hc). destruct res as [[j st]|].
    + destruct IH as (s0 & Hin & IH). exists s0. split; [by right|done].
    + destruct IH as [-> Hall]. split; [done|]. by constructor.
Qed.

(** [try_complete] reports one finished transfer and forgets it, or none is
    finished. *)
Lemma sender_try_complete_spec s s' res :
  sender_try_complete s = (s', res) →
  match res with
  | None => s' = s ∧
      map_Forall (λ _ st, (sender_state_try_complete st).2 = None) (snd_receivers s)
  | Some (i, status) =>
      (∃ st, snd_receivers s !! i = Some st ∧ (sender_state_try_complete st).2 = Some status) ∧
      s' = snd_with_receivers s (delete i (snd_receivers s))
  end.
Proof.
  unfold sender_try_complete.
  destruct (complete_first _ _) as [m' res'] eqn:E. intros Hs.
  apply complete_first_spec in E.
  2: { apply Forall_forall. intros [i x]. simpl. by rewrite hash_iter_lookup. }
  destruct res' as [[i st]|]; injection Hs as <- <-.
  - destruct E as (st0 & Hin & Hst & ->). apply hash_iter_lookup in Hin. eauto.
  - destruct E as [-> Hall]. split; [by destruct s|].
    intros i st Hi. apply hash_iter_lookup in Hi.
    apply (proj1 (Forall_forall _ _) Hall _ Hi).
Qed.

Lemma sender_inv_delete s i :
  sender_inv s → sender_inv (snd_with_receivers s (delete i (snd_receivers s))).
Proof.
  intros [Hcs Hmax Hid H0 Htr Hfl]. split; simpl; try done.
  - by apply lookup_delete_None; right.
  - by apply map_Forall_delete.
  - destruct (snd_receivers s !! i) as [st|] eqn:E; [|by rewrite delete_id].
    rewrite (in_flight_delete _ _ _ E) in Hfl. lia.
Qed.

Lemma sender_try_complete_inv s : sender_inv s → sender_inv (sender_try_complete s).1.
Proof.
  intros Hinv. destruct (sender_try_complete s) as [s' res] eqn:E.
  apply sender_try_complete_spec in E. destruct res as [[i st]|]; simpl.
  - destruct E as [_ ->]. by apply sender_inv_delete.
  - by destruct E as [-> _].
Qed.

Lemma sender_reset_inv s : sender_inv s → sender_inv (sender_reset s).1.
Proof.
  intros [Hcs Hmax Hid H0 Htr Hfl]. split; simpl; try done.
  unfold in_flight. rewrite map_to_list_empty. simpl. unfold in_u32 in Hmax. lia.
Qed.

(** ** Runs of the sender *)

Inductive sender_step : DefaultSnapshotSender → DefaultSnapshotSender → Prop :=
| step_start s id snapshot s' :
    start_ok s id snapshot → sender_start s id snapshot = Return s' → sender_step s s'
| step_next_request s s' r :
    snd_next_delivery_id s < two64 - 1 →
    sender_next_request s = Return (s', r) → sender_step s s'
| step_process_response s id d response :
    sender_step s (sender_process_response s id d response)
| step_try_complete s : sender_step s (sender_try_complete s).1
| step_reset s : sender_step s (sender_reset s).1
| step_set_instant s instant : sender_step s (sender_set_instant s instant).

Inductive sender_reachable : DefaultSnapshotSender → Prop :=
| reach_init replica_id config :
    (∀ c, config = Some c → in_u64 (cfg_chunk_size c) ∧ in_u32 (cfg_max_pending_chunks c)) →
    sender_reachable (sender_init sender_new replica_id config)
| reach_step s s' : sender_reachable s → sender_step s s' → sender_reachable s'.

Lemma sender_step_inv s s' : sender_inv s → sender_step s s' → sender_inv s'.
Proof.
  intros Hinv Hstep. destruct Hstep as [s id snapshot s' Hok Hs|s s' r Hlt Hs| | | |].
  - by eapply sender_start_inv.
  - destruct (next_request_cases s Hinv) as [[Heq _]|(Hroom & id & st & (Hst & Hn & _) & Heq)];
      rewrite Heq in Hs; injection Hs as <- _; [done|].
    by apply snd_after_request_inv.
  - by apply sender_process_response_inv.
  - by apply sender_try_complete_inv.
  - by apply sender_reset_inv.
  - destruct Hinv. by split.
Qed.

Lemma sender_init_inv replica_id config :
  (∀ c, config = Some c → in_u64 (cfg_chunk_size c) ∧ in_u32 (cfg_max_pending_chunks c)) →
  sender_inv (sender_init sender_new replica_id config).
Proof.
  intros Hc. split; simpl; try done.
  - destruct config as [c|]; [by apply Hc|done].
  - destruct config as [c|]; [by apply Hc|done].
  - unfold in_flight. rewrite map_to_list_empty. simpl.
    destruct config as [c|]; [destruct (Hc c eq_refl) as [_ [? _]]; lia|lia].
Qed.

Lemma sender_reachable_inv s : sender_reachable s → sender_inv s.
Proof. induction 1; eauto using sender_init_inv, sender_step_inv. Qed.
End sender.

Section transfer.
Context `{!ProtoCodec RequestPayload, !ProtoCodec ResponsePayload,
          !ProtoCodec RaftSnapshotMetadata, !HashOrder Z}.

(** ** Reassembly

    [s] is a transfer as [sender_state_new] creates it and [from] the replica
    that sends it. *)
Variables (s : SnapshotSenderState) (from : Z).
Hypothesis Hs_count : 1 ≤ ss_chunk_count s < two32.
Hypothesis Hs_chunk_size : in_u64 (ss_chunk_size s).
Hypothesis Hs_length : zlen (ss_snapshot_data s) < two63.
Hypothesis Hs_chunks :
  chunk_count (zlen (ss_snapshot_data s)) (ss_chunk_size s) = Return (ss_chunk_count s).

Let data := ss_snapshot_data s.
Let c := ss_chunk_size s.
Let n := ss_chunk_count s.

Lemma transfer_bounds :
  (n - 1) * c ≤ zlen data ∧ (1 < n → 0 < c ∧ (n - 1) * c < zlen data) ∧ zlen data ≤ n * c.
Proof.
  destruct (chunk_count_spec (zlen data) c n ltac:(unfold in_u64, data; lia) Hs_chunk_size Hs_chunks)
    as (H1 & H2 & H3 & H4 & H5).
  unfold in_u64, c, n, data in *. split_and!; [done| |done].
  intros H. specialize (H5 H). split; nia.
Qed.

Lemma transfer_covers : take (Z.to_nat (n * c)) data = data.
Proof. apply take_ge. pose proof transfer_bounds. lia. Qed.

(** What the receiver has after the header and the chunks in [ks]. *)
Record receiver_holds (ks : gset Z) (rs : ReceiverState) : Prop := {
  rh_sender : rs_sender_id rs = from;
  rh_snapshot_id : rs_snapshot_id rs = ss_snapshot_id s;
  rh_size : rs_snapshot_size rs = zlen data;
  rh_metadata : rs_snapshot_metadata rs = proto_encode (ss_snapshot_metadata s);
  rh_chunk_size : 1 < n → rs_chunk_size rs = c;
  rh_count : rs_chunk_count rs = n;
  rh_range : ∀ k, k ∈ ks → 0 ≤ k < n;
  rh_dom : dom (rs_chunks rs) = ks;
  rh_chunks : map_Forall (λ k x, x = chunk_at data c k) (rs_chunks rs)
}.

Lemma length_first_chunk : zlen (chunk_at data c 0) = Z.min c (zlen data).
Proof.
  pose proof transfer_bounds. unfold in_u64, c, data in *. rewrite length_chunk_at by lia. lia.
Qed.

Lemma receiver_state_new_holds :
  ∃ rs, receiver_state_new from (ss_snapshot_id s) (zlen data)
          (proto_encode (ss_snapshot_metadata s)) (chunk_at data c 0) = Return rs ∧
    receiver_holds {[0]} rs.
Proof.
  pose proof transfer_bounds as (H1 & H2 & H3). pose proof length_first_chunk as Hl.
  assert (chunk_count (zlen data) (zlen (chunk_at data c 0)) = Return n) as Hcc.
  { rewrite Hl. fold data c n in Hs_chunks. unfold in_u64 in *. fold c in Hs_chunk_size.
    destruct (decide (1 < n)) as [Hn|Hn].
    - specialize (H2 Hn). replace (Z.min c (zlen data)) with c by nia. done.
    - unfold chunk_count in *. fold n in Hs_count.
      destruct (decide (zlen data > 0)); [|done].
      destruct (decide (c = 0)); [done|]. rewrite decide_False by lia.
      rewrite (Z.div_small (zlen data -₆₄ 1)); [f_equal; fold n; rewrite u64_add_small; lia|].
      rewrite u64_sub_small; unfold data in *; nia. }
  unfold receiver_state_new. rewrite Hcc. simpl. eexists. split; [done|].
  split; simpl; try done.
  - intros Hn. specialize (H2 Hn). rewrite Hl. nia.
  - intros k ->%elem_of_singleton. fold n in Hs_count. lia.
  - by apply map_Forall_singleton.
Qed.

Lemma accept_chunk_holds ks rs k :
  receiver_holds ks rs → 1 ≤ k < n →
  ∃ rs', receiver_state_accept_chunk rs from k (chunk_at data c k) = (rs', true) ∧
    receiver_holds ({[k]} ∪ ks) rs'.
Proof.
  intros [Hse Hid Hsz Hmd Hc Hcnt Hrg Hdom Hch] Hk.
  pose proof transfer_bounds as (H1 & H2 & H3). specialize (H2 ltac:(lia)) as [Hc0 H2].
  specialize (Hc ltac:(lia)). fold n in Hs_count. unfold in_u64 in Hs_chunk_size. fold c in Hs_chunk_size.
  fold data in Hs_length.
  assert (zlen (chunk_at data c k) = Z.min c (zlen data - k * c)) as Hl
    by (apply length_chunk_at; nia).
  unfold receiver_state_accept_chunk. rewrite Hse, Hcnt, Hc, Hsz.
  rewrite decide_False by (intros H; by apply H).
  rewrite (u64_sub_small n 1), u64_mul_small, u64_sub_small by nia.
  rewrite decide_False by (rewrite Hl; nia).
  eexists. split; [done|]. split; simpl; try done.
  - intros j [->%elem_of_singleton|Hj%Hrg]%elem_of_union; lia.
  - rewrite dom_insert_L, Hdom. done.
  - by apply map_Forall_insert_2.
Qed.

(** The state is complete exactly when every chunk has been accepted. *)
Lemma receiver_state_try_complete_spec ks rs :
  receiver_holds ks rs →
  if decide (Forall (.∈ ks) (seqZ 0 n))
  then ∃ rs', receiver_state_try_complete rs = Return (rs',
         Some (Ok (from, {| snap_data := data;
                            snap_metadata := Some (ss_snapshot_metadata s) |})))
  else receiver_state_try_complete rs = Return (rs, None).
Proof.
  intros [Hse Hid Hsz Hmd Hc Hcnt Hrg Hdom Hch].
  assert (ks ⊆ list_to_set (seqZ 0 n)) as Hsub.
  { intros k Hk. rewrite elem_of_list_to_set, elem_of_seqZ. specialize (Hrg k Hk). lia. }
  assert (size (list_to_set (seqZ 0 n) : gset Z) = Z.to_nat n) as Hsize
    by (rewrite size_list_to_set by apply NoDup_seqZ; apply length_seqZ).
  unfold receiver_state_try_complete. rewrite Hcnt, <- size_dom, Hdom.
  fold n in Hs_count. destruct (decide (Forall (.∈ ks) (seqZ 0 n))) as [Hall|Hnot]; rewrite Forall_forall in *.
  - assert (ks = list_to_set (seqZ 0 n)) as Heq.
    { apply set_eq. intros k. split; [apply Hsub|]. rewrite elem_of_list_to_set. apply Hall. }
    rewrite decide_False by (intros H; apply H; rewrite Heq, Hsize; lia).
    rewrite Hmd, proto_decode_encode.
    destruct (take_chunks_spec (chunk_at data c) (seqZ 0 n) (rs_chunks rs) []) as [m' ->].
    + apply NoDup_seqZ.
    + intros k Hk. specialize (Hall k Hk). rewrite <- Hdom in Hall.
      apply elem_of_dom in Hall as [x Hx]. rewrite Hx. f_equal. by eapply Hch.
    + simpl. rewrite concat_chunks by (unfold in_u64 in Hs_chunk_size; unfold c; lia).
      rewrite transfer_covers, Hse. eauto.
  - rewrite decide_True; [done|]. intros Hsz'. apply Hnot. intros k Hk.
    assert (ks = list_to_set (seqZ 0 n)) as -> by (apply set_subseteq_size_eq; [done|lia]).
    by rewrite elem_of_list_to_set.
Qed.

(** The request that carries chunk [k] to replica [to]. *)
Definition chunk_request (to d k : Z) : DeliverSnapshotRequest :=
  {| req_recipient_replica_id := to; req_sender_replica_id := from; req_delivery_id := d;
     req_payload_contents := proto_encode (chunk_payload s k) |}.

Lemma process_header_holds r to d :
  ∃ r' resp rs, receiver_process_request r (chunk_request to d 0) = Return (r', resp) ∧
    acknowledges (ss_snapshot_id s) 0 (Ok resp) ∧ rcv_state r' = Some rs ∧
    receiver_holds {[0]} rs.
Proof.
  destruct receiver_state_new_holds as (rs & Hnew & Hrs).
  unfold receiver_process_request, chunk_request. simpl.
  rewrite proto_decode_encode. simpl. fold data c. rewrite Hnew. simpl.
  eexists _, _, rs. split_and!; [reflexivity| |done|done].
  eexists. split; [reflexivity|]. simpl. by rewrite proto_decode_encode.
Qed.

Lemma process_chunk_holds r rs ks to d k :
  rcv_state r = Some rs → receiver_holds ks rs → 1 ≤ k < n →
  ∃ r' resp rs', receiver_process_request r (chunk_request to d k) = Return (r', resp) ∧
    acknowledges (ss_snapshot_id s) k (Ok resp) ∧ rcv_state r' = Some rs' ∧
    receiver_holds ({[k]} ∪ ks) rs'.
Proof.
  intros Hr Hrs Hk. destruct (accept_chunk_holds ks rs k Hrs Hk) as (rs' & Hacc & Hrs').
  unfold receiver_process_request, chunk_request. simpl. rewrite proto_decode_encode.
  unfold chunk_payload. simpl. rewrite decide_False by lia. simpl.
  rewrite Hr. fold data c. rewrite Hacc. simpl.
  eexists _, _, rs'. split_and!; [reflexivity| |done|done].
  eexists. split; [reflexivity|]. simpl. by rewrite proto_decode_encode.
Qed.

(** Delivering a sequence of requests. *)
Fixpoint receiver_deliver (r : DefaultSnapshotReceiver) (requests : list DeliverSnapshotRequest)
    : outcome (DefaultSnapshotReceiver * list DeliverSnapshotResponse) :=
  match requests with
  | [] => Return (r, [])
  | request :: requests =>
      '(r, response) ← receiver_process_request r request;
      '(r, responses) ← receiver_deliver r requests;
      Return (r, response :: responses)
  end.

Lemma deliver_chunks_holds r rs ks to (l : list (Z * Z)) :
  rcv_state r = Some rs → receiver_holds ks rs → Forall (λ e, 1 ≤ e.2 < n) l →
  ∃ r' resps rs',
    receiver_deliver r (map (λ e, chunk_request to e.1 e.2) l) = Return (r', resps) ∧
    Forall2 (λ k resp, acknowledges (ss_snapshot_id s) k (Ok resp)) l.*2 resps ∧
    rcv_state r' = Some rs' ∧ receiver_holds (list_to_set l.*2 ∪ ks) rs'.
Proof.
  revert r rs ks. induction l as [|[d k] l IH]; intros r rs ks Hr Hrs Hl.
  - exists r, [], rs. simpl. rewrite union_empty_l_L. by split_and!.
  - inversion_clear Hl as [|? ? Hk Hl']. simpl in Hk.
    destruct (process_chunk_holds r rs ks to d k Hr Hrs Hk) as (r1 & resp & rs1 & H1 & Ha & Hr1 & Hrs1).
    destruct (IH r1 rs1 _ Hr1 Hrs1 Hl') as (r2 & resps & rs2 & H2 & Hall & Hr2 & Hrs2).
    exists r2, (resp :: resps), rs2. cbn [map receiver_deliver]. simpl fst; simpl snd.
    rewrite H1. cbn. rewrite H2. split_and!; [done|by constructor|done|].
    rewrite (union_assoc_L (list_to_set l.*2)), (union_comm_L (list_to_set l.*2)) in Hrs2. done.
Qed.

Lemma transfer_spec r to d0 (l : list (Z * Z)) :
  Forall (λ e, 1 ≤ e.2 < n) l →
  ∃ r' resps,
    receiver_deliver r
      (chunk_request to d0 0 :: map (λ e, chunk_request to e.1 e.2) l) = Return (r', resps) ∧
    Forall2 (λ k resp, acknowledges (ss_snapshot_id s) k (Ok resp)) (0 :: l.*2) resps ∧
    if decide (Forall (.∈ l.*2) (seqZ 1 (n - 1)))
    then ∃ r'', receiver_try_complete r' = Return (r'',
           Some (Ok (from, {| snap_data := data;
                              snap_metadata := Some (ss_snapshot_metadata s) |}))) ∧
         rcv_state r'' = None
    else receiver_try_complete r' = Return (r', None).
Proof.
  intros Hl. destruct (process_header_holds r to d0) as (r1 & resp & rs1 & H1 & Ha & Hr1 & Hrs1).
  destruct (deliver_chunks_holds r1 rs1 _ to l Hr1 Hrs1 Hl)
    as (r2 & resps & rs2 & H2 & Hall & Hr2 & Hrs2).
  exists r2, (resp :: resps). cbn [receiver_deliver]. rewrite H1. cbn. rewrite H2.
  split_and!; [done|by constructor|]. unfold receiver_try_complete. rewrite Hr2.
  pose proof (receiver_state_try_complete_spec _ _ Hrs2) as Hc.
  assert (Forall (.∈ (list_to_set l.*2 ∪ {[0]} : gset Z)) (seqZ 0 n)
          ↔ Forall (.∈ l.*2) (seqZ 1 (n - 1))) as Hiff.
  { rewrite !Forall_forall. setoid_rewrite elem_of_seqZ. fold n in Hs_count.
    setoid_rewrite elem_of_union. setoid_rewrite elem_of_list_to_set.
    setoid_rewrite elem_of_singleton. split; intros H k Hk.
    - destruct (H k); [lia|done|lia].
    - destruct (decide (k = 0)); [by right|left]. apply H. lia. }
  rewrite (decide_ext _ _ _ _ Hiff) in Hc.
  destruct (decide (Forall (.∈ l.*2) (seqZ 1 (n - 1)))).
  - destruct Hc as [rs' ->]. simpl. eexists. split; [reflexivity|done].
  - rewrite Hc. simpl. do 2 f_equal. destruct r2; simpl in *. unfold rcv_with_state. simpl.
    by rewrite Hr2.
Qed.
End transfer.

(** ** The default sender and receiver behind the processor's interfaces *)

Section instances.
Context `{!ProtoCodec RaftSnapshotMetadata, !HashOrder Z}.

#[global] Program Instance DefaultSnapshotSender_impl : SnapshotSenderImpl DefaultSnapshotSender :=
  {| sender_impl_init := sender_init;
     sender_impl_set_instant := sender_set_instant;
     sender_impl_reset := sender_reset;
     sender_transfers s := (hash_iter (snd_receivers s)).*1 |}.
Next Obligation.
  intros s. simpl. rewrite (hash_iter_perm (snd_receivers s)). apply NoDup_fst_map_to_list.
Qed.
Next Obligation.
  intros s. simpl. rewrite map_map. erewrite map_ext; [reflexivity|]. by intros [i x].
Qed.
Next Obligation.
  intros s. simpl. apply Permutation_nil_r.
  by rewrite (hash_iter_perm (∅ : gmap Z SnapshotSenderState)), map_to_list_empty.
Qed.
Next Obligation. done. Qed.

#[global] Program Instance DefaultSnapshotReceiver_impl :
    SnapshotReceiverImpl DefaultSnapshotReceiver :=
  {| receiver_impl_init := receiver_init;
     receiver_impl_set_instant := receiver_set_instant;
     receiver_impl_reset := receiver_reset;
     receiver_transfer r := rs_sender_id <$> rcv_state r |}.
Next Obligation. done. Qed.
Next Obligation. done. Qed.
End instances.

(** ** Runs of the processor *)

Section processor_runs.
Context {S R : Type} `{!SnapshotSenderImpl S, !SnapshotReceiverImpl R}.

#[local] Abbreviation Processor := (@DefaultSnapshotProcessor S R).

(** Using the processor: the borrowed sender or receiver is left in any state
    its own operations produce. *)
Definition with_role (p : Processor) (role : @SnapshotProcessorRole S R) : Processor :=
  {| proc_replica_id := proc_replica_id p;
     proc_leader_id := proc_leader_id p;
     proc_leader_term := proc_leader_term p;
     proc_state := proc_state p;
     proc_sender := match role with RoleSender x => x | _ => proc_sender p end;
     proc_receiver := match role with RoleReceiver x => x | _ => proc_receiver p end |}.

Inductive processor_reachable : Processor → Prop :=
| proc_reach_init sender receiver replica_id config p :
    replica_id ≠ 0 → sender_transfers sender = [] → receiver_transfer receiver = None →
    processor_init (processor_new sender receiver) replica_id config = Return p →
    processor_reachable p
| proc_reach_change p leader_id leader_term replicas p' cancelled :
    processor_reachable p →
    processor_process_cluster_change p leader_id leader_term replicas = Return (p', cancelled) →
    processor_reachable p'
| proc_reach_sender p instant p' x y :
    processor_reachable p → processor_mut_processor p instant = Return (p', RoleSender x) →
    processor_reachable (with_role p' (RoleSender y))
| proc_reach_receiver p instant p' x y :
    processor_reachable p → processor_mut_processor p instant = Return (p', RoleReceiver x) →
    processor_reachable (with_role p' (RoleReceiver y)).

(** The role follows the leader, and the idle half holds no transfer. *)
Definition processor_inv (p : Processor) : Prop :=
  (proc_state p = ReplicaFollower ∧ proc_replica_id p ≠ proc_leader_id p ∧
   sender_transfers (proc_sender p) = []) ∨
  (proc_state p = ReplicaLeader ∧ proc_replica_id p = proc_leader_id p ∧
   receiver_transfer (proc_receiver p) = None).

(** What one cluster change does from such a state. *)
Lemma process_cluster_change_spec (p : Processor) leader_id leader_term replicas :
  processor_inv p →
  let needs_reset := proc_leader_id p ≠ leader_id ∨ proc_leader_term p ≠ leader_term ∨
    proc_replica_id p ∉ replicas in
  ∃ p' cancelled,
    processor_process_cluster_change p leader_id leader_term replicas = Return (p', cancelled) ∧
    processor_inv p' ∧ proc_replica_id p' = proc_replica_id p ∧
    proc_leader_id p' = leader_id ∧ proc_leader_term p' = leader_term ∧
    (needs_reset → sender_transfers (proc_sender p') = [] ∧
       cancelled ≡ₚ map (λ id, (id, Failure)) (sender_transfers (proc_sender p))) ∧
    (¬ needs_reset → cancelled = [] ∧ proc_sender p' = proc_sender p ∧
       proc_receiver p' = proc_receiver p ∧ proc_state p' = proc_state p).
Proof.
  intros Hinv needs_reset. unfold processor_process_cluster_change.
  destruct p as [rid lid term st sender receiver]. unfold processor_inv in Hinv. simpl in *.
  destruct (decide needs_reset) as [Hr|Hr];
    [rewrite bool_decide_eq_true_2 by done|rewrite bool_decide_eq_false_2 by done];
    destruct Hinv as [(-> & Hne & Htr)|(-> & Heq & Htr)]; simpl.
  - eexists _, _. split; [reflexivity|]. unfold processor_inv. simpl.
    rewrite Htr, receiver_impl_reset_forgets.
    destruct (decide (rid = leader_id)); split_and!; try done; auto.
  - pose proof (sender_impl_reset_reports sender) as Hrep.
    pose proof (sender_impl_reset_forgets sender) as Hfor.
    destruct (sender_impl_reset sender) as [sender' cancelled]. simpl in *.
    eexists _, _. split; [reflexivity|]. unfold processor_inv. simpl.
    destruct (decide (rid ≠ leader_id)) as [|Heq'%dec_stable]; split_and!; try done; auto.
  - assert (lid = leader_id) as -> by (apply dec_stable; intros ?; apply Hr; by left).
    rewrite decide_False by done.
    eexists _, _. split; [reflexivity|]. unfold processor_inv. simpl. naive_solver.
  - assert (lid = leader_id) as -> by (apply dec_stable; intros ?; apply Hr; by left).
    rewrite decide_False by (intros H'; by apply H').
    eexists _, _. split; [reflexivity|]. unfold processor_inv. simpl. naive_solver.
Qed.

Lemma processor_reachable_inv (p : Processor) : processor_reachable p → processor_inv p.
Proof.
  induction 1 as [sender receiver rid config p Hrid Hs Hr Hinit
    |p lid term replicas p' cancelled _ IH Hc|p instant p' x y _ IH Hm|p instant p' x y _ IH Hm].
  - injection Hinit as <-. left. simpl. by rewrite sender_impl_init_keeps.
  - destruct (process_cluster_change_spec p lid term replicas IH) as (p2 & c2 & Heq & Hinv & _).
    rewrite Heq in Hc. by injection Hc as <- _.
  - unfold processor_mut_processor in Hm. destruct (proc_state p) eqn:E; try done.
    injection Hm as <- _. destruct IH as [(? & _)|IH]; [congruence|]. right. by simpl; rewrite E in *.
  - unfold processor_mut_processor in Hm. destruct (proc_state p) eqn:E; try done.
    injection Hm as <- _. destruct IH as [IH|(? & _)]; [|congruence]. left. by simpl; rewrite E in *.
Qed.
End processor_runs.

(** ** Acknowledgement histories *)

Section history.
Context `{!ProtoCodec RequestPayload, !ProtoCodec ResponsePayload,
          !ProtoCodec RaftSnapshotMetadata, !HashOrder Z}.

(** One transfer as the sender drives it: chunks are handed out under fresh
    delivery ids while the progress is below [1.0] (the condition under which
    [next_request] selects the transfer), and responses arrive in any order;
    the history records the responses. *)
Inductive transfer_history (snapshot_id : Z) (snapshot : RaftSnapshot) (chunk_size : Z)
    : list (Z * result SnapshotError DeliverSnapshotResponse) → Z → SnapshotSenderState → Prop :=
| history_new s id :
    sender_state_new snapshot_id snapshot chunk_size = Return s →
    transfer_history snapshot_id snapshot chunk_size [] id s
| history_chunk h id s s' payload :
    transfer_history snapshot_id snapshot chunk_size h id s →
    f64_gt f64_one (sender_state_progress s) = true →
    sender_state_next_chunk s id = Return (s', payload) →
    transfer_history snapshot_id snapshot chunk_size h (id + 1) s'
| history_skip_id h id id' s :
    transfer_history snapshot_id snapshot chunk_size h id s → id ≤ id' →
    transfer_history snapshot_id snapshot chunk_size h id' s
| history_response h id s d response :
    transfer_history snapshot_id snapshot chunk_size h id s →
    transfer_history snapshot_id snapshot chunk_size (h ++ [(d, response)]) id
      (sender_state_process_response s d response).

Definition acknowledged_in (snapshot_id : Z)
    (h : list (Z * result SnapshotError DeliverSnapshotResponse)) (k : Z) : Prop :=
  ∃ d response, (d, response) ∈ h ∧ acknowledges snapshot_id k response.

Lemma sender_state_inv_impl id (P Q : Z → Prop) s :
  (∀ k, P k → Q k) → sender_state_inv id P s → sender_state_inv id Q s.
Proof.
  intros HPQ [Hc Hcs Hlen Hids Hr Ha]. split; try done.
  intros Hst. destruct (Ha Hst) as (Hcc & l & Hl & Hrest). split; [done|].
  exists l. split; [|done]. eapply Forall_impl; done.
Qed.

Lemma process_response_id s d response :
  ss_snapshot_id (sender_state_process_response s d response) = ss_snapshot_id s ∧
  ss_chunk_count (sender_state_process_response s d response) = ss_chunk_count s.
Proof.
  by destruct (process_response_cases s d response _ eq_refl)
    as [->|[(k & _ & _ & ->)|(pending & _ & ->)]].
Qed.

Lemma transfer_history_inv snapshot_id snapshot chunk_size h id s :
  in_u64 chunk_size → zlen (snap_data snapshot) < two63 →
  transfer_history snapshot_id snapshot chunk_size h id s → ss_chunk_count s < two32 →
  sender_state_inv id (acknowledged_in snapshot_id h) s ∧
  ss_snapshot_id s = snapshot_id ∧ ss_status s ≠ Some Finish.
Proof.
  intros Hcs Hlen. induction 1 as [s id Hnew|h id s s' payload _ IH Hgt Hnext
    |h id id' s _ IH Hle|h id s d response _ IH]; intros Hcnt.
  - split; [by eapply sender_state_new_inv|].
    unfold sender_state_new in Hnew. outcome_inv. by subst s.
  - assert (ss_chunk_count s = ss_chunk_count s') as Heq.
    { unfold sender_state_next_chunk in Hnext. destruct (ss_status s); outcome_inv;
        by simplify_eq. }
    destruct IH as (Hinv & Hid & Hst); [lia|].
    destruct (decide (has_next s)) as [Hn|Hn].
    2: { rewrite (progress_done _ _ _ Hinv Hn) in Hgt. by vm_compute in Hgt. }
    rewrite (next_chunk_has_next _ _ _ _ Hinv Hn) in Hnext. injection Hnext as <- _.
    split_and!; [by apply ss_advanced_inv|done|done].
  - destruct (IH Hcnt) as (Hinv & ?). split; [by eapply sender_state_inv_mono|done].
  - destruct (process_response_id s d response) as [Hid Hc]. rewrite Hc in Hcnt.
    destruct (IH Hcnt) as (Hinv & Hsid & Hst). split_and!.
    + apply process_response_inv.
      * intros k _ Hack. exists d, response. rewrite Hsid in Hack.
        split; [apply elem_of_app; right; by left|done].
      * eapply sender_state_inv_impl; [|done]. intros k (d' & r' & Hin & Hack).
        exists d', r'. split; [apply elem_of_app; by left|done].
    + congruence.
    + by destruct (process_response_cases s d response _ eq_refl)
        as [->|[(k & _ & _ & ->)|(pending & _ & ->)]].
Qed.

Lemma finish_all_acknowledged id P s :
  sender_state_inv id P s → ss_status s = None → ss_sent_chunk_count s = ss_chunk_count s →
  ∀ k, 0 ≤ k < ss_chunk_count s → P k.
Proof.
  intros [Hc _ _ _ Hr Ha] Hst Hsent k Hk. destruct (Ha Hst) as (_ & l & HP & Hl & Hp).
  assert (ss_next_chunk_index s = ss_chunk_count s) as Hn by lia. rewrite Hn in Hp.
  assert ((map_to_list (ss_pending_chunks s)).*2 = []) as Hnil.
  { apply length_zero_iff_nil. rewrite length_map, length_map_to_list. lia. }
  rewrite Hnil, app_nil_r in Hp. apply (proj1 (Forall_forall P l) HP).
  rewrite Hp, elem_of_seqZ. lia.
Qed.
End history.

(** * Claims *)

Section claims.
Context `{!ProtoCodec RequestPayload, !ProtoCodec ResponsePayload,
          !ProtoCodec RaftSnapshotMetadata, !HashOrder Z}.

(** In every reachable state of the sender the chunks in flight over all
    transfers stay within [max_pending_chunks], and every transfer is in order:
    its pending and acknowledged chunks are exactly the chunks handed out, under
    delivery ids that were issued, and never more than the snapshot has. *)
Theorem sender_in_flight_bounded s :
  sender_reachable s →
  in_flight (snd_receivers s) ≤ snd_max_pending_chunks s ∧
  map_Forall (λ id st, id ≠ 0 ∧ sender_state_inv (snd_next_delivery_id s) (λ _, True) st)
    (snd_receivers s).
Proof.
  intros [Hcs Hmax Hid H0 Htr Hfl]%sender_reachable_inv. split; [done|].
  intros id st Hst. split; [congruence|by apply (Htr id)].
Qed.

(** [next_request] never panics in a reachable state.  It returns a request
    exactly when a slot is free and some transfer has a chunk left; the request
    carries, under the next delivery id, the next chunk of a transfer than which
    no other has made less progress, and that chunk is registered as pending. *)
Theorem next_request_spec s :
  sender_reachable s →
  if decide (in_flight (snd_receivers s) < snd_max_pending_chunks s ∧
             ¬ map_Forall (λ _ st, ¬ has_next st) (snd_receivers s))
  then ∃ id st, least_progress (snd_receivers s) id st ∧
    sender_next_request s = Return (snd_after_request s id st,
      Some (chunk_request st (snd_replica_id s) id (snd_next_delivery_id s)
              (ss_next_chunk_index st)))
  else sender_next_request s = Return (s, None).
Proof.
  intros Hinv%sender_reachable_inv.
  destruct (next_request_cases s Hinv) as [[Heq Hno]|(Hroom & id & st & Hleast & Heq)].
  - rewrite decide_False; [done|]. intros [? ?]. destruct Hno; [lia|done].
  - rewrite decide_True; [eauto|]. split; [done|]. intros Hall.
    destruct Hleast as (Hst & Hn & _). by apply (Hall id st Hst).
Qed.

(** C25: A transfer is reported as finished only after the receiver accepted every
    chunk of the snapshot: the history holds, for each chunk index, a response
    that acknowledges it. *)
Theorem finish_means_acknowledged snapshot_id snapshot chunk_size h id s s' :
  in_u64 chunk_size → zlen (snap_data snapshot) < two63 →
  transfer_history snapshot_id snapshot chunk_size h id s → ss_chunk_count s < two32 →
  sender_state_try_complete s = (s', Some Finish) →
  ∀ k, 0 ≤ k < ss_chunk_count s → acknowledged_in snapshot_id h k.
Proof.
  intros Hcs Hlen Hh Hcnt Hfin.
  destruct (transfer_history_inv _ _ _ _ _ _ Hcs Hlen Hh Hcnt) as (Hinv & _ & Hst).
  destruct (try_complete_cases s) as [(Hnone & Hsent & _)|Heq].
  - by eapply finish_all_acknowledged.
  - rewrite Heq in Hfin. injection Hfin as _ Hfin. done.
Qed.

(** C8: The receiver reassembles what the sender splits: after the header request
    and the chunk requests [l] in any order, with any repetitions and delivery
    ids, each request has been acknowledged, and [try_complete] yields the
    original snapshot with its sender exactly when every chunk index occurs
    (resetting the receiver), and nothing before. *)
Theorem snapshot_transfer_reassembles snapshot_id snapshot chunk_size s from to r d0
    (l : list (Z * Z)) :
  in_u64 chunk_size → zlen (snap_data snapshot) < two63 →
  sender_state_new snapshot_id snapshot chunk_size = Return s → ss_chunk_count s < two32 →
  Forall (λ e, 1 ≤ e.2 < ss_chunk_count s) l →
  ∃ r' resps,
    receiver_deliver r
      (chunk_request s from to d0 0 :: map (λ e, chunk_request s from to e.1 e.2) l)
    = Return (r', resps) ∧
    Forall2 (λ k resp, acknowledges snapshot_id k (Ok resp)) (0 :: l.*2) resps ∧
    if decide (Forall (.∈ l.*2) (seqZ 1 (ss_chunk_count s - 1)))
    then ∃ r'', receiver_try_complete r' = Return (r'', Some (Ok (from, snapshot))) ∧
           rcv_state r'' = None
    else receiver_try_complete r' = Return (r', None).
Proof.
  intros Hcs Hlen Hnew Hcnt Hl.
  pose proof (sender_state_new_inv _ _ _ _ (λ _, True) Hcs Hlen Hnew Hcnt 0) as [Hc Hc2 Hl2 _ _ Ha].
  assert (ss_status s = None ∧ ss_snapshot_id s = snapshot_id ∧
    snapshot = {| snap_data := ss_snapshot_data s;
                  snap_metadata := Some (ss_snapshot_metadata s) |}) as (Hst & Hid & Hsnap).
  { unfold sender_state_new in Hnew. outcome_inv. subst s. destruct snapshot. simpl in *.
    by subst. }
  destruct (Ha Hst) as [Hcc _].
  pose proof (transfer_spec s from Hc Hc2 Hl2 Hcc r to d0 l Hl) as Hspec.
  by rewrite Hid, <- Hsnap in Hspec.
Qed.

(** A chunk that does not come from the replica that started the current
    transfer, and any chunk when no transfer is under way, is rejected and leaves
    the receiver unchanged. *)
Theorem receiver_rejects_foreign_chunk r request payload chunk :
  proto_decode (req_payload_contents request) = Some payload →
  rqp_it payload = Some (PayloadChunk chunk) →
  match rcv_state r with
  | Some rs => rs_sender_id rs ≠ req_sender_replica_id request
  | None => True
  end →
  ∃ response, receiver_process_request r request = Return (r, response) ∧
    proto_decode (resp_payload_contents response)
    = Some {| rsp_snapshot_id := rqp_snapshot_id payload;
              rsp_chunk_index := chk_chunk_index chunk;
              rsp_status := SnapshotStatusRejected |}.
Proof.
  intros Hdec Hit Hr. unfold receiver_process_request. rewrite Hdec, Hit.
  destruct r as [rid instant [rs|]]; simpl in *.
  - unfold receiver_state_accept_chunk. rewrite decide_True by done. simpl.
    eexists. split; [reflexivity|]. simpl. by rewrite proto_decode_encode.
  - eexists. split; [reflexivity|]. simpl. by rewrite proto_decode_encode.
Qed.

(** A header that announces data but carries an empty first chunk makes the
    receiver divide by zero. *)
Lemma empty_header_panics r request payload header :
  proto_decode (req_payload_contents request) = Some payload →
  rqp_it payload = Some (PayloadHeader header) →
  hdr_chunk_contents header = [] → hdr_snapshot_size header > 0 →
  receiver_process_request r request = Panic.
Proof.
  intros Hdec Hit Hc Hsz. unfold receiver_process_request. rewrite Hdec, Hit.
  unfold receiver_state_new, chunk_count. rewrite Hc. simpl.
  by rewrite decide_True by done.
Qed.

(** A chunk of another snapshot of the same sender is accepted: only the sender,
    the index and the length are compared. *)
Lemma other_snapshot_chunk_accepted rs sender_id index contents :
  sender_id = rs_sender_id rs → 1 ≤ rs_chunk_count rs < two64 →
  0 ≤ index < rs_chunk_count rs - 1 → zlen contents = rs_chunk_size rs →
  receiver_state_accept_chunk rs sender_id index contents
  = (rs_with_chunks rs (<[index := contents]> (rs_chunks rs)), true).
Proof.
  intros -> Hc Hi Hl. unfold receiver_state_accept_chunk.
  rewrite decide_False by (intros H; by apply H).
  rewrite (u64_sub_small (rs_chunk_count rs) 1) by lia.
  by rewrite decide_False by lia.
Qed.
End claims.

(** After initialisation the processor never panics.  Whatever cluster changes
    and uses of the role in between, it plays the sender role exactly when the
    replica is the leader; a change of leader or term, or leaving the cluster,
    reports every transfer that was under way as failed, exactly once, and leaves
    none; any other change reports nothing and keeps both halves. *)
Theorem processor_follows_leader {S R} `{!SnapshotSenderImpl S, !SnapshotReceiverImpl R}
    (p : @DefaultSnapshotProcessor S R) leader_id leader_term replicas :
  processor_reachable p →
  let needs_reset := proc_leader_id p ≠ leader_id ∨ proc_leader_term p ≠ leader_term ∨
    proc_replica_id p ∉ replicas in
  ∃ p' cancelled,
    processor_process_cluster_change p leader_id leader_term replicas = Return (p', cancelled) ∧
    (proc_state p' = ReplicaLeader ↔ proc_replica_id p = leader_id) ∧
    (proc_state p' = ReplicaFollower ↔ proc_replica_id p ≠ leader_id) ∧
    (needs_reset → sender_transfers (proc_sender p') = [] ∧ NoDup cancelled ∧
       cancelled ≡ₚ map (λ id, (id, Failure)) (sender_transfers (proc_sender p))) ∧
    (¬ needs_reset → cancelled = [] ∧ proc_sender p' = proc_sender p ∧
       proc_receiver p' = proc_receiver p).
Proof.
  intros Hinv%processor_reachable_inv needs_reset.
  destruct (process_cluster_change_spec p leader_id leader_term replicas Hinv)
    as (p' & cancelled & Heq & Hinv' & Hrid & Hlid & _ & Hreset & Hkeep).
  exists p', cancelled. split; [done|]. unfold processor_inv in Hinv'. rewrite Hrid, Hlid in Hinv'.
  split_and!.
  - destruct Hinv' as [(-> & ? & _)|(-> & ? & _)]; by split.
  - destruct Hinv' as [(-> & ? & _)|(-> & ? & _)]; by split.
  - intros Hn. destruct (Hreset Hn) as [H1 H2]. split_and!; [done| |done].
    rewrite H2. apply NoDup_fmap_2; [|apply sender_transfers_NoDup]. by intros ?? [=].
  - intros Hn. destruct (Hkeep Hn) as (? & ? & ? & _). done.
Qed.

(** * Concrete instances *)

Section samples.
#[local] Instance request_payload_codec : ProtoCodec RequestPayload := countable_codec _.
#[local] Instance response_payload_codec : ProtoCodec ResponsePayload := countable_codec _.
#[local] Instance snapshot_metadata_codec : ProtoCodec RaftSnapshotMetadata := countable_codec _.
#[local] Instance sample_hash_order : HashOrder Z := default_hash_order Z.

Definition sample_snapshot : RaftSnapshot :=
  create_raft_snapshot (create_raft_snapshot_metadata 7 2 (create_raft_config_state [1; 2]))
    [Byte.x0a; Byte.x0b; Byte.x0c].

Definition sample_sender0 : DefaultSnapshotSender :=
  sender_init sender_new 1
    (Some {| cfg_snapshot_count := 10; cfg_chunk_size := 2; cfg_max_pending_chunks := 2 |}).

Definition sample_state : SnapshotSenderState :=
  {| ss_snapshot_id := 1;
     ss_snapshot_metadata :=
       create_raft_snapshot_metadata 7 2 (create_raft_config_state [1; 2]);
     ss_snapshot_data := [Byte.x0a; Byte.x0b; Byte.x0c];
     ss_chunk_size := 2; ss_chunk_count := 2; ss_next_chunk_index := 0;
     ss_sent_chunk_count := 0; ss_pending_chunks := ∅; ss_status := None |}.

Definition sample_sender1 : DefaultSnapshotSender :=
  {| snd_chunk_size := 2; snd_max_pending_chunks := 2; snd_replica_id := 1;
     snd_instant := 0; snd_next_snapshot_id := 2; snd_next_delivery_id := 1;
     snd_receivers := {[ 2 := sample_state ]} |}.

Definition sample_sender2 : DefaultSnapshotSender := snd_after_request sample_sender1 2 sample_state.

Lemma sample_sender1_reachable : sender_reachable sample_sender1.
Proof.
  apply reach_step with sample_sender0.
  - apply reach_init. intros c [= <-]. vm_compute. split_and!; congruence.
  - apply step_start with 2 sample_snapshot; [|by vm_compute].
    split_and!; [done|by eexists|by vm_compute|by vm_compute].
Qed.

Lemma sample_sender2_reachable : sender_reachable sample_sender2.
Proof.
  apply reach_step with sample_sender1; [apply sample_sender1_reachable|].
  eapply step_next_request; [by vm_compute|]. vm_compute. reflexivity.
Qed.

Lemma sender_in_flight_bounded_witness :
  in_flight (snd_receivers sample_sender2) = 1 ∧
  in_flight (snd_receivers sample_sender2) ≤ snd_max_pending_chunks sample_sender2.
Proof.
  split; [by vm_compute|].
  exact (proj1 (sender_in_flight_bounded sample_sender2 sample_sender2_reachable)).
Defined.

Lemma next_request_spec_witness :
  ∃ id st, least_progress (snd_receivers sample_sender1) id st ∧
    sender_next_request sample_sender1 = Return (snd_after_request sample_sender1 id st,
      Some (chunk_request st 1 id 1 (ss_next_chunk_index st))).
Proof.
  pose proof (next_request_spec sample_sender1 sample_sender1_reachable) as H.
  rewrite decide_True in H; [exact H|]. split; [by vm_compute|].
  intros Hall. apply (Hall 2 sample_state); [done|by vm_compute].
Defined.

(** Both chunks handed out and acknowledged. *)
Definition sample_ack (k : Z) : result SnapshotError DeliverSnapshotResponse :=
  Ok {| resp_recipient_replica_id := 1; resp_sender_replica_id := 2; resp_delivery_id := k + 1;
        resp_payload_contents := proto_encode
          {| rsp_snapshot_id := 1; rsp_chunk_index := k; rsp_status := SnapshotStatusAccepted |} |}.

Definition sample_acked_state : SnapshotSenderState :=
  sender_state_process_response
    (sender_state_process_response (ss_advanced (ss_advanced sample_state 1) 2) 1 (sample_ack 0))
    2 (sample_ack 1).

Lemma sample_history :
  transfer_history 1 sample_snapshot 2 ([] ++ [(1, sample_ack 0)] ++ [(2, sample_ack 1)]) 3
    sample_acked_state.
Proof.
  assert (sender_state_inv 1 (λ _, True) sample_state) as Hinv.
  { eapply (sender_state_new_inv 1 sample_snapshot 2); by vm_compute. }
  assert (has_next sample_state) as Hn by (by vm_compute).
  assert (has_next (ss_advanced sample_state 1)) as Hn' by (by vm_compute).
  apply (history_response _ _ _ ([] ++ [(1, sample_ack 0)])).
  apply history_response.
  apply (history_chunk _ _ _ _ 2 (ss_advanced sample_state 1) _
    (Some (proto_encode (chunk_payload (ss_advanced sample_state 1) 1)))).
  - apply (history_chunk _ _ _ _ 1 sample_state _
      (Some (proto_encode (chunk_payload sample_state 0)))).
    + by apply history_new.
    + by eapply progress_has_next.
    + by eapply (next_chunk_has_next 1).
  - eapply (progress_has_next 2); [by apply (ss_advanced_inv 1)|done].
  - eapply (next_chunk_has_next 2); [by apply (ss_advanced_inv 1)|done].
Qed.

Lemma finish_means_acknowledged_witness :
  acknowledged_in 1 ([] ++ [(1, sample_ack 0)] ++ [(2, sample_ack 1)]) 1.
Proof.
  apply (finish_means_acknowledged 1 sample_snapshot 2 _ 3 sample_acked_state
    (sender_state_complete_with sample_acked_state Finish));
    [by vm_compute|by vm_compute|apply sample_history|by vm_compute|by vm_compute|by vm_compute].
Defined.

Lemma snapshot_transfer_reassembles_witness :
  ∃ r' resps r'',
    receiver_deliver receiver_new
      [chunk_request sample_state 1 2 1 0; chunk_request sample_state 1 2 2 1]
    = Return (r', resps) ∧
    receiver_try_complete r' = Return (r'', Some (Ok (1, sample_snapshot))).
Proof.
  destruct (snapshot_transfer_reassembles 1 sample_snapshot 2 sample_state 1 2 receiver_new 1
    [(2, 1)]) as (r' & resps & H1 & _ & H2);
    [by vm_compute|by vm_compute|by vm_compute|by vm_compute|by repeat constructor|].
  destruct H2 as (r'' & H2 & _). exists r', resps, r''. split; [exact H1|exact H2].
Defined.

Lemma receiver_rejects_foreign_chunk_witness :
  ∃ response, receiver_process_request receiver_new (chunk_request sample_state 1 2 2 1)
              = Return (receiver_new, response).
Proof.
  destruct (receiver_rejects_foreign_chunk receiver_new (chunk_request sample_state 1 2 2 1)
    (chunk_payload sample_state 1) {| chk_chunk_index := 1; chk_chunk_contents := [Byte.x0c] |})
    as (response & H & _); [by vm_compute|by vm_compute|done|]. exists response. exact H.
Defined.

Definition sample_processor : @DefaultSnapshotProcessor DefaultSnapshotSender DefaultSnapshotReceiver :=
  {| proc_replica_id := 1; proc_leader_id := 0; proc_leader_term := 0;
     proc_state := ReplicaFollower; proc_sender := sender_init sender_new 1 None;
     proc_receiver := receiver_init receiver_new 1 |}.

Lemma processor_follows_leader_witness :
  ∃ p' cancelled,
    processor_process_cluster_change sample_processor 1 1 [1; 2] = Return (p', cancelled) ∧
    proc_state p' = ReplicaLeader.
Proof.
  destruct (processor_follows_leader sample_processor 1 1 [1; 2]) as (p' & c & H & Hl & _).
  - apply (proc_reach_init sender_new receiver_new 1 None); [done|by vm_compute|done|done].
  - exists p', c. split; [exact H|]. by apply Hl.
Defined.
End samples.
