(* ===== verification/Handshake.v ===== *)
(** * Handshake sessions

    [src/runtime/src/attestation.rs], [oak_handshaker.rs], [encryptor.rs] and
    [handshake.rs]: two replicas attest each other, exchange keys and end up
    with an encryptor.  The attestation and the key exchange are traits of the
    source and classes here; the default implementations are instances. *)

From S2P Require Import Prelude Endpoint.

(** The text of an [anyhow::Error]. *)
Abbreviation Error := string.

(** ** Attestation *)

Record ExtractedEvidence := {
  ev_encryption_public_key : bytes;
  ev_signing_public_key : bytes
}.

Record AttestationResults := {
  att_status : Z;
  att_reason : string;
  att_encryption_public_key : bytes;
  att_signing_public_key : bytes;
  att_extracted_evidence : option ExtractedEvidence
}.

(** [trait Attestation<I, O>]; [get_attestation_results] consumes the object. *)
Class Attestation (A I O : Type) : Type := {
  get_attestation_results : A → option AttestationResults;
  attestation_put_incoming_message : A → I → A * result Error (option unit);
  attestation_get_outgoing_message : A → A * result Error (option O)
}.

(** ** Key exchange *)

Record SessionKeys := { request_key : bytes; response_key : bytes }.

Definition session_keys_default : SessionKeys := {| request_key := []; response_key := [] |}.

(** [trait OakHandshaker<I, O>]; [derive_session_keys] consumes the object and
    [init] may panic. *)
Class OakHandshaker (H I O : Type) : Type := {
  handshaker_init : H → bytes → outcome H;
  handshaker_put_incoming_message : H → I → H * result Error (option unit);
  handshaker_get_outgoing_message : H → H * result Error (option O);
  derive_session_keys : H → option SessionKeys
}.

(** ** Encryption *)

Class Encryptor (X : Type) : Type := {
  encrypt : X → bytes → result Error bytes;
  decrypt : X → bytes → result Error bytes
}.

Record DefaultEncryptor := { enc_session_keys : SessionKeys }.

Definition encryptor_new (session_keys : SessionKeys) : DefaultEncryptor :=
  {| enc_session_keys := session_keys |}.

Definition default_encrypt (e : DefaultEncryptor) (plaintext : bytes) : result Error bytes :=
  Ok plaintext.

Definition default_decrypt (e : DefaultEncryptor) (ciphertext : bytes) : result Error bytes :=
  Ok ciphertext.

#[global] Instance DefaultEncryptor_impl : Encryptor DefaultEncryptor :=
  {| encrypt := default_encrypt; decrypt := default_decrypt |}.

(** ** Default attestation and key exchange

    [ClientAttestationProvider], [ServerAttestationProvider], [ClientHandshaker]
    and [ServerHandshaker] are types of the Oak SDK; the default implementations
    hold one and, so far, do not consult it. *)

Section defaults.
Context {OS : OakSession}.
Variables (AttestationProviderState ClientHandshaker ServerHandshaker : Type).

Definition default_attestation_results : AttestationResults :=
  {| att_status := 0; att_reason := ""; att_encryption_public_key := [];
     att_signing_public_key := [];
     att_extracted_evidence :=
       Some {| ev_encryption_public_key := []; ev_signing_public_key := [] |} |}.

Record DefaultClientAttestation := { client_attestation_inner : AttestationProviderState }.

Definition client_get_attestation_results (a : DefaultClientAttestation)
    : option AttestationResults :=
  Some default_attestation_results.

Definition client_attestation_outgoing (a : DefaultClientAttestation)
    : DefaultClientAttestation * result Error (option AttestRequest) :=
  (a, Ok (Some {| areq_endorsed_evidence := [] |})).

Definition client_attestation_incoming (a : DefaultClientAttestation) (_ : AttestResponse)
    : DefaultClientAttestation * result Error (option unit) :=
  (a, Ok (Some ())).

#[global] Instance DefaultClientAttestation_impl :
    Attestation DefaultClientAttestation AttestResponse AttestRequest :=
  {| get_attestation_results := client_get_attestation_results;
     attestation_put_incoming_message := client_attestation_incoming;
     attestation_get_outgoing_message := client_attestation_outgoing |}.

Record DefaultServerAttestation := { server_attestation_inner : AttestationProviderState }.

Definition server_get_attestation_results (a : DefaultServerAttestation)
    : option AttestationResults :=
  Some default_attestation_results.

Definition server_attestation_outgoing (a : DefaultServerAttestation)
    : DefaultServerAttestation * result Error (option AttestResponse) :=
  (a, Ok (Some {| aresp_endorsed_evidence := [] |})).

Definition server_attestation_incoming (a : DefaultServerAttestation) (_ : AttestRequest)
    : DefaultServerAttestation * result Error (option unit) :=
  (a, Ok (Some ())).

#[global] Instance DefaultServerAttestation_impl :
    Attestation DefaultServerAttestation AttestRequest AttestResponse :=
  {| get_attestation_results := server_get_attestation_results;
     attestation_put_incoming_message := server_attestation_incoming;
     attestation_get_outgoing_message := server_attestation_outgoing |}.

(** [ClientHandshaker::create] on the configuration with the given peer key; it
    can fail, and the source unwraps it. *)
Variable client_handshaker_create : bytes → option ClientHandshaker.
Variable server_handshaker_new : bytes → ServerHandshaker.

Record DefaultOakClientHandshaker := { client_handshaker_inner : option ClientHandshaker }.

Definition oak_client_handshaker_new : DefaultOakClientHandshaker :=
  {| client_handshaker_inner := None |}.

Definition oak_client_init (h : DefaultOakClientHandshaker) (peer_static_public_key : bytes)
    : outcome DefaultOakClientHandshaker :=
  inner ← unwrap (client_handshaker_create peer_static_public_key);
  Return {| client_handshaker_inner := Some inner |}.

Definition oak_client_outgoing (h : DefaultOakClientHandshaker)
    : DefaultOakClientHandshaker * result Error (option HandshakeRequest) :=
  (h, Ok (Some {| hreq_attestation_binding := None; hreq_handshake_type := None |})).

Definition oak_client_incoming (h : DefaultOakClientHandshaker) (_ : HandshakeResponse)
    : DefaultOakClientHandshaker * result Error (option unit) :=
  (h, Ok (Some ())).

Definition oak_client_session_keys (h : DefaultOakClientHandshaker) : option SessionKeys :=
  Some {| request_key := []; response_key := [] |}.

#[global] Instance DefaultOakClientHandshaker_impl :
    OakHandshaker DefaultOakClientHandshaker HandshakeResponse HandshakeRequest :=
  {| handshaker_init := oak_client_init;
     handshaker_put_incoming_message := oak_client_incoming;
     handshaker_get_outgoing_message := oak_client_outgoing;
     derive_session_keys := oak_client_session_keys |}.

Record DefaultOakServerHandshaker := { server_handshaker_inner : option ServerHandshaker }.

Definition oak_server_handshaker_new : DefaultOakServerHandshaker :=
  {| server_handshaker_inner := None |}.

Definition oak_server_init (h : DefaultOakServerHandshaker) (peer_static_public_key : bytes)
    : outcome DefaultOakServerHandshaker :=
  Return {| server_handshaker_inner := Some (server_handshaker_new peer_static_public_key) |}.

Definition oak_server_outgoing (h : DefaultOakServerHandshaker)
    : DefaultOakServerHandshaker * result Error (option HandshakeResponse) :=
  (h, Ok (Some {| hresp_attestation_binding := None; hresp_handshake_type := None |})).

Definition oak_server_incoming (h : DefaultOakServerHandshaker) (_ : HandshakeRequest)
    : DefaultOakServerHandshaker * result Error (option unit) :=
  (h, Ok (Some ())).

Definition oak_server_session_keys (h : DefaultOakServerHandshaker) : option SessionKeys :=
  Some {| request_key := []; response_key := [] |}.

#[global] Instance DefaultOakServerHandshaker_impl :
    OakHandshaker DefaultOakServerHandshaker HandshakeRequest HandshakeResponse :=
  {| handshaker_init := oak_server_init;
     handshaker_put_incoming_message := oak_server_incoming;
     handshaker_get_outgoing_message := oak_server_outgoing;
     derive_session_keys := oak_server_session_keys |}.
End defaults.

(** ** Sessions *)

Inductive Role := Initiator | Recipient.

Inductive SessionState := SUnknown | SAttesting | SKeyExchange | SCompleted | SFailed.

#[global] Instance SessionState_eq_dec : EqDecision SessionState.
Proof. solve_decision. Defined.

(** [inspect_err(|err| self.transition_to_failed(err))?] on a step that leaves
    the session [s] and a result: continue with the value or fail the session. *)
Definition or_fail {S X Y} (fail : S → S) (step : outcome (S * result Error X))
    (continue : S → X → outcome (S * result Error Y)) : outcome (S * result Error Y) :=
  '(s, r) ← step;
  match r with
  | Ok x => continue s x
  | Err e => Return (fail s, Err e)
  end.

(** The fields the two session structs share; they differ in the attestation
    and handshaker they hold. *)
Record SessionFields (A H : Type) := {
  hs_self_replica_id : Z;
  hs_peer_replica_id : Z;
  hs_attestation : option A;
  hs_oak_handshaker : option H;
  hs_state : SessionState;
  hs_session_keys : SessionKeys
}.
Arguments hs_self_replica_id {A H} _.
Arguments hs_peer_replica_id {A H} _.
Arguments hs_attestation {A H} _.
Arguments hs_oak_handshaker {A H} _.
Arguments hs_state {A H} _.
Arguments hs_session_keys {A H} _.

Section session_fields.
Context {A H : Type}.

Definition session_with (s : SessionFields A H) (attestation : option A) (handshaker : option H)
    (state : SessionState) (keys : SessionKeys) : SessionFields A H :=
  {| hs_self_replica_id := hs_self_replica_id s;
     hs_peer_replica_id := hs_peer_replica_id s;
     hs_attestation := attestation;
     hs_oak_handshaker := handshaker;
     hs_state := state;
     hs_session_keys := keys |}.

Definition set_attestation (a : option A) (s : SessionFields A H) : SessionFields A H :=
  session_with s a (hs_oak_handshaker s) (hs_state s) (hs_session_keys s).

Definition set_handshaker (h : option H) (s : SessionFields A H) : SessionFields A H :=
  session_with s (hs_attestation s) h (hs_state s) (hs_session_keys s).

Definition set_state (state : SessionState) (s : SessionFields A H) : SessionFields A H :=
  session_with s (hs_attestation s) (hs_oak_handshaker s) state (hs_session_keys s).

Definition set_session_keys (keys : SessionKeys) (s : SessionFields A H) : SessionFields A H :=
  session_with s (hs_attestation s) (hs_oak_handshaker s) (hs_state s) keys.

Definition session_is_completed (s : SessionFields A H) : bool :=
  bool_decide (hs_state s = SCompleted).

Definition session_get_encryptor (s : SessionFields A H) : option DefaultEncryptor :=
  if decide (hs_state s ≠ SCompleted) then None
  else Some (encryptor_new (hs_session_keys s)).

Definition session_new (self_replica_id peer_replica_id : Z) (attestation : A)
    (oak_handshaker : H) : SessionFields A H :=
  {| hs_self_replica_id := self_replica_id;
     hs_peer_replica_id := peer_replica_id;
     hs_attestation := Some attestation;
     hs_oak_handshaker := Some oak_handshaker;
     hs_state := SUnknown;
     hs_session_keys := session_keys_default |}.
End session_fields.

(** ** The initiator *)

Section client.
Context {OS : OakSession} {A H : Type}
  `{!Attestation A AttestResponse AttestRequest,
    !OakHandshaker H HandshakeResponse HandshakeRequest}.

Definition ClientHandshakeSession : Type := SessionFields A H.

Definition client_session_new : Z → Z → A → H → ClientHandshakeSession := session_new.

Definition client_create_secure_channel_handshake (s : ClientHandshakeSession)
    (initiator_request : InitiatorRequestMessage) : SecureChannelHandshake :=
  {| sch_recipient_replica_id := hs_peer_replica_id s;
     sch_sender_replica_id := hs_self_replica_id s;
     sch_encryption := Some (NoiseProtocol (Some (InitiatorRequest (Some initiator_request)))) |}.

Definition client_transition_to_failed (s : ClientHandshakeSession) : ClientHandshakeSession :=
  set_state SFailed s.

Definition client_get_attest_request (s : ClientHandshakeSession)
    : outcome (ClientHandshakeSession * result Error SecureChannelHandshake) :=
  attestation ← unwrap (hs_attestation s);
  let '(attestation, r) := attestation_get_outgoing_message attestation in
  let s := set_attestation (Some attestation) s in
  match r with
  | Ok (Some attest_request) =>
      Return (s, Ok (client_create_secure_channel_handshake s
                       (InitiatorAttestRequest attest_request)))
  | Ok None => Return (s, Err "No outgoing `AttestRequest` message retrieved.")
  | Err e => Return (s, Err e)
  end.

Definition client_handle_attest_response (s : ClientHandshakeSession)
    (attest_response : AttestResponse) : outcome (ClientHandshakeSession * result Error unit) :=
  attestation ← unwrap (hs_attestation s);
  let '(attestation, r) := attestation_put_incoming_message attestation attest_response in
  let s := set_attestation (Some attestation) s in
  match r with
  | Err e => Return (s, Err e)
  | Ok _ =>
      let s := set_attestation None s in
      match get_attestation_results attestation with
      | None => Return (s, Err "Failed to get AttestationResults.")
      | Some attestation_results =>
          oak_handshaker ← unwrap (hs_oak_handshaker s);
          evidence ← unwrap (att_extracted_evidence attestation_results);
          oak_handshaker ← handshaker_init oak_handshaker (ev_encryption_public_key evidence);
          Return (set_handshaker (Some oak_handshaker) s, Ok ())
      end
  end.

Definition client_get_handshake_request (s : ClientHandshakeSession)
    : outcome (ClientHandshakeSession * result Error SecureChannelHandshake) :=
  oak_handshaker ← unwrap (hs_oak_handshaker s);
  let '(oak_handshaker, r) := handshaker_get_outgoing_message oak_handshaker in
  let s := set_handshaker (Some oak_handshaker) s in
  match r with
  | Ok (Some handshake_request) =>
      Return (s, Ok (client_create_secure_channel_handshake s
                       (InitiatorHandshakeRequest handshake_request)))
  | Ok None => Return (s, Err "No outgoing `HandshakeRequest` message retrieved.")
  | Err e => Return (s, Err e)
  end.

Definition client_handle_handshake_response (s : ClientHandshakeSession)
    (handshake_response : HandshakeResponse)
    : outcome (ClientHandshakeSession * result Error unit) :=
  oak_handshaker ← unwrap (hs_oak_handshaker s);
  let '(oak_handshaker, r) :=
    handshaker_put_incoming_message oak_handshaker handshake_response in
  let s := set_handshaker (Some oak_handshaker) s in
  match r with
  | Err e => Return (s, Err e)
  | Ok _ =>
      let s := set_handshaker None s in
      match derive_session_keys oak_handshaker with
      | None => Return (s, Err "Failed to derive SessionKeys.")
      | Some keys => Return (set_session_keys keys s, Ok ())
      end
  end.

Definition client_process_message (s : ClientHandshakeSession) (message : SecureChannelHandshake)
    : outcome (ClientHandshakeSession * result Error unit) :=
  match hs_state s with
  | SUnknown =>
      Return (client_transition_to_failed s,
              Err "Unexpected handshake message received in state Unknown.")
  | SAttesting =>
      match sch_encryption message with
      | Some (NoiseProtocol (Some (RecipientResponse (Some
          (RecipientAttestResponse attest_response))))) =>
          or_fail client_transition_to_failed (client_handle_attest_response s attest_response)
            (λ s _, Return (set_state SKeyExchange s, Ok ()))
      | _ =>
          Return (client_transition_to_failed s,
                  Err "Unexpected handshake message received in state Attesting.")
      end
  | SKeyExchange =>
      match sch_encryption message with
      | Some (NoiseProtocol (Some (RecipientResponse (Some
          (RecipientHandshakeResponse handshake_response))))) =>
          or_fail client_transition_to_failed
            (client_handle_handshake_response s handshake_response)
            (λ s _, Return (set_state SCompleted s, Ok ()))
      | _ =>
          Return (client_transition_to_failed s,
                  Err "Unexpected handshake message received in state KeyExchange.")
      end
  | SCompleted => Return (s, Ok ())
  | SFailed => Return (s, Ok ())
  end.

Definition client_take_out_message (s : ClientHandshakeSession)
    : outcome (ClientHandshakeSession * result Error (option SecureChannelHandshake)) :=
  match hs_state s with
  | SUnknown =>
      or_fail client_transition_to_failed (client_get_attest_request s)
        (λ s attest_request, Return (set_state SAttesting s, Ok (Some attest_request)))
  | SAttesting => Return (s, Ok None)
  | SKeyExchange =>
      or_fail client_transition_to_failed (client_get_handshake_request s)
        (λ s handshake_request, Return (s, Ok (Some handshake_request)))
  | SCompleted => Return (s, Ok None)
  | SFailed => Return (s, Ok None)
  end.
End client.
Arguments ClientHandshakeSession A H : clear implicits.

(** ** The recipient *)

Section server.
Context {OS : OakSession} {A H : Type}
  `{!Attestation A AttestRequest AttestResponse,
    !OakHandshaker H HandshakeRequest HandshakeResponse}.

Definition ServerHandshakeSession : Type := SessionFields A H.

Definition server_session_new : Z → Z → A → H → ServerHandshakeSession := session_new.

Definition server_create_secure_channel_handshake (s : ServerHandshakeSession)
    (recipient_response : RecipientResponseMessage) : SecureChannelHandshake :=
  {| sch_recipient_replica_id := hs_peer_replica_id s;
     sch_sender_replica_id := hs_self_replica_id s;
     sch_encryption := Some (NoiseProtocol (Some (RecipientResponse (Some recipient_response)))) |}.

Definition server_transition_to_failed (s : ServerHandshakeSession) : ServerHandshakeSession :=
  set_state SFailed s.

Definition server_handle_attest_request (s : ServerHandshakeSession)
    (attest_request : AttestRequest) : outcome (ServerHandshakeSession * result Error unit) :=
  attestation ← unwrap (hs_attestation s);
  let '(attestation, r) := attestation_put_incoming_message attestation attest_request in
  let s := set_attestation (Some attestation) s in
  match r with
  | Err e => Return (s, Err e)
  | Ok _ => Return (s, Ok ())
  end.

Definition server_get_attest_response (s : ServerHandshakeSession)
    : outcome (ServerHandshakeSession * result Error SecureChannelHandshake) :=
  attestation ← unwrap (hs_attestation s);
  let '(attestation, r) := attestation_get_outgoing_message attestation in
  let s := set_attestation (Some attestation) s in
  match r with
  | Ok (Some attest_response) =>
      Return (s, Ok (server_create_secure_channel_handshake s
                       (RecipientAttestResponse attest_response)))
  | Ok None => Return (s, Err "No outgoing `AttestResponse` message retrieved.")
  | Err e => Return (s, Err e)
  end.

Definition server_init_oak_handshaker (s : ServerHandshakeSession)
    : outcome (ServerHandshakeSession * result Error unit) :=
  attestation ← unwrap (hs_attestation s);
  let s := set_attestation None s in
  match get_attestation_results attestation with
  | None => Return (s, Err "Failed to get AttestationResults.")
  | Some attestation_results =>
      oak_handshaker ← unwrap (hs_oak_handshaker s);
      evidence ← unwrap (att_extracted_evidence attestation_results);
      oak_handshaker ← handshaker_init oak_handshaker (ev_encryption_public_key evidence);
      Return (set_handshaker (Some oak_handshaker) s, Ok ())
  end.

Definition server_handle_handshake_request (s : ServerHandshakeSession)
    (handshake_request : HandshakeRequest)
    : outcome (ServerHandshakeSession * result Error unit) :=
  oak_handshaker ← unwrap (hs_oak_handshaker s);
  let '(oak_handshaker, r) := handshaker_put_incoming_message oak_handshaker handshake_request in
  let s := set_handshaker (Some oak_handshaker) s in
  match r with
  | Err e => Return (s, Err e)
  | Ok _ => Return (s, Ok ())
  end.

Definition server_get_handshake_response (s : ServerHandshakeSession)
    : outcome (ServerHandshakeSession * result Error SecureChannelHandshake) :=
  oak_handshaker ← unwrap (hs_oak_handshaker s);
  let '(oak_handshaker, r) := handshaker_get_outgoing_message oak_handshaker in
  let s := set_handshaker (Some oak_handshaker) s in
  match r with
  | Ok (Some handshake_response) =>
      Return (s, Ok (server_create_secure_channel_handshake s
                       (RecipientHandshakeResponse handshake_response)))
  | Ok None => Return (s, Err "No outgoing `HandshakeResponse` message retrieved.")
  | Err e => Return (s, Err e)
  end.

Definition server_init_session_keys (s : ServerHandshakeSession)
    : outcome (ServerHandshakeSession * result Error unit) :=
  oak_handshaker ← unwrap (hs_oak_handshaker s);
  let s := set_handshaker None s in
  match derive_session_keys oak_handshaker with
  | None => Return (s, Err "Failed to derive SessionKeys.")
  | Some keys => Return (set_session_keys keys s, Ok ())
  end.

Definition server_process_message (s : ServerHandshakeSession) (message : SecureChannelHandshake)
    : outcome (ServerHandshakeSession * result Error unit) :=
  match hs_state s with
  | SUnknown =>
      match sch_encryption message with
      | Some (NoiseProtocol (Some (InitiatorRequest (Some
          (InitiatorAttestRequest attest_request))))) =>
          or_fail server_transition_to_failed (server_handle_attest_request s attest_request)
            (λ s _, Return (set_state SAttesting s, Ok ()))
      | _ =>
          Return (server_transition_to_failed s,
                  Err "Unexpected handshake message received in state Unknown.")
      end
  | SAttesting =>
      Return (server_transition_to_failed s,
              Err "Unexpected handshake message received in state Attesting.")
  | SKeyExchange =>
      match sch_encryption message with
      | Some (NoiseProtocol (Some (InitiatorRequest (Some
          (InitiatorHandshakeRequest handshake_request))))) =>
          or_fail server_transition_to_failed
            (server_handle_handshake_request s handshake_request)
            (λ s _, Return (s, Ok ()))
      | _ =>
          Return (server_transition_to_failed s,
                  Err "Unexpected handshake message received in state KeyExchange.")
      end
  | SCompleted => Return (s, Ok ())
  | SFailed => Return (s, Ok ())
  end.

Definition server_take_out_message (s : ServerHandshakeSession)
    : outcome (ServerHandshakeSession * result Error (option SecureChannelHandshake)) :=
  match hs_state s with
  | SUnknown => Return (s, Ok None)
  | SAttesting =>
      or_fail server_transition_to_failed (server_get_attest_response s) (λ s attest_response,
        or_fail server_transition_to_failed (server_init_oak_handshaker s)
          (λ s _, Return (set_state SKeyExchange s, Ok (Some attest_response))))
  | SKeyExchange =>
      or_fail server_transition_to_failed (server_get_handshake_response s)
        (λ s handshake_response,
          or_fail server_transition_to_failed (server_init_session_keys s)
            (λ s _, Return (set_state SCompleted s, Ok (Some handshake_response))))
  | SCompleted => Return (s, Ok None)
  | SFailed => Return (s, Ok None)
  end.
End server.
Arguments ServerHandshakeSession A H : clear implicits.

(** ** The session trait

    What the communication module relies on: the two calls return when the
    session is in a state its own operations produce, they keep it in one, and a
    completed session yields an encryptor. *)

Class HandshakeSession {OS : OakSession} (S X : Type) : Type := {
  process_message : S → SecureChannelHandshake → outcome (S * result Error unit);
  take_out_message : S → outcome (S * result Error (option SecureChannelHandshake));
  is_completed : S → bool;
  get_encryptor : S → option X;
  session_ok : S → Prop;
  process_message_ok : ∀ s m, session_ok s →
    ∃ s' r, process_message s m = Return (s', r) ∧ session_ok s';
  take_out_message_ok : ∀ s, session_ok s →
    ∃ s' r, take_out_message s = Return (s', r) ∧ session_ok s';
  get_encryptor_completed : ∀ s, is_completed s = true ↔ is_Some (get_encryptor s)
}.

Inductive session_op {OS : OakSession} :=
| OpProcess (m : SecureChannelHandshake)
| OpTake.

(** ** State machine lemmas *)

(** A session holds what its state needs. *)
Definition fields_ok {A H} (s : SessionFields A H) : Prop :=
  match hs_state s with
  | SUnknown | SAttesting => is_Some (hs_attestation s) ∧ is_Some (hs_oak_handshaker s)
  | SKeyExchange => is_Some (hs_oak_handshaker s)
  | SCompleted | SFailed => True
  end.

Lemma session_get_encryptor_completed {A H} (s : SessionFields A H) :
  session_is_completed s = true ↔ is_Some (session_get_encryptor s).
Proof.
  unfold session_is_completed, session_get_encryptor. rewrite bool_decide_eq_true.
  case_decide as Hs.
  - split; [done|by intros [? ?]].
  - split; [eauto|done].
Qed.

Ltac session_step :=
  repeat match goal with
  | |- context [attestation_get_outgoing_message ?a] =>
      destruct (attestation_get_outgoing_message a) as [? [[?|]|?]] eqn:?
  | |- context [attestation_put_incoming_message ?a ?m] =>
      destruct (attestation_put_incoming_message a m) as [? [?|?]] eqn:?
  | |- context [handshaker_get_outgoing_message ?h] =>
      destruct (handshaker_get_outgoing_message h) as [? [[?|]|?]] eqn:?
  | |- context [handshaker_put_incoming_message ?h ?m] =>
      destruct (handshaker_put_incoming_message h m) as [? [?|?]] eqn:?
  | |- context [get_attestation_results ?a] => destruct (get_attestation_results a) eqn:?
  | |- context [derive_session_keys ?h] => destruct (derive_session_keys h) eqn:?
  | |- context [match sch_encryption ?m with _ => _ end] =>
      destruct (sch_encryption m) as [[[[[[]|]|[[]|]]|]]|] eqn:?
  end; simpl.

(** What the messages of a handshake carry. *)
Definition attest_response_of {OS : OakSession} (m : SecureChannelHandshake)
    : option AttestResponse :=
  match sch_encryption m with
  | Some (NoiseProtocol (Some (RecipientResponse (Some (RecipientAttestResponse r))))) => Some r
  | _ => None
  end.

Definition handshake_response_of {OS : OakSession} (m : SecureChannelHandshake)
    : option HandshakeResponse :=
  match sch_encryption m with
  | Some (NoiseProtocol (Some (RecipientResponse (Some (RecipientHandshakeResponse r))))) => Some r
  | _ => None
  end.

Definition attest_request_of {OS : OakSession} (m : SecureChannelHandshake)
    : option AttestRequest :=
  match sch_encryption m with
  | Some (NoiseProtocol (Some (InitiatorRequest (Some (InitiatorAttestRequest r))))) => Some r
  | _ => None
  end.

Definition handshake_request_of {OS : OakSession} (m : SecureChannelHandshake)
    : option HandshakeRequest :=
  match sch_encryption m with
  | Some (NoiseProtocol (Some (InitiatorRequest (Some (InitiatorHandshakeRequest r))))) => Some r
  | _ => None
  end.

(** A handshaker initialised with the encryption key in the evidence of attestation results;
    it panics when there is no evidence or the handshaker does not take the key. *)
Definition init_attested {H I O} `{!OakHandshaker H I O} (r : AttestationResults) (h : H)
    : outcome H :=
  evidence ← unwrap (att_extracted_evidence r);
  handshaker_init h (ev_encryption_public_key evidence).

(** Handing out messages, and taking in messages, without an error. *)
Inductive handed_out {H I O} `{!OakHandshaker H I O} (h : H) : nat → H → Prop :=
| handed_none : handed_out h 0 h
| handed_more n h1 h2 m : handed_out h n h1 →
    handshaker_get_outgoing_message h1 = (h2, Ok (Some m)) → handed_out h (S n) h2.

Inductive taken_in {H I O} `{!OakHandshaker H I O} (h : H) : list I → H → Prop :=
| taken_none : taken_in h [] h
| taken_more ms m h1 h2 x : taken_in h ms h1 →
    handshaker_put_incoming_message h1 m = (h2, Ok x) → taken_in h (ms ++ [m]) h2.

Section client_runs.
Context {OS : OakSession} {A H : Type}
  `{!Attestation A AttestResponse AttestRequest,
    !OakHandshaker H HandshakeResponse HandshakeRequest}.

(** Attestation results carry the evidence, and a handshaker accepts the key. *)
Hypothesis results_have_evidence : ∀ (a : A) r,
  get_attestation_results a = Some r → is_Some (att_extracted_evidence r).
Hypothesis handshaker_init_returns : ∀ (h : H) key, ∃ h', handshaker_init h key = Return h'.

Lemma client_process_message_ok (s : ClientHandshakeSession A H) m :
  fields_ok s → ∃ s' r, client_process_message s m = Return (s', r) ∧ fields_ok s'.
Proof.
  intros Hok. destruct s as [self peer att hsk st keys].
  unfold fields_ok in Hok. simpl in Hok. unfold client_process_message. simpl.
  destruct st; [..|eexists _, _; by split|eexists _, _; by split].
  - eexists _, _. by split.
  - destruct Hok as [[a ->] [h ->]].
    session_step; try by (eexists _, _; split; [reflexivity|]).
    unfold or_fail, client_handle_attest_response. simpl. session_step;
      try by (eexists _, _; split; [reflexivity|]).
    destruct (results_have_evidence _ _ ltac:(eassumption)) as [ev ->]. simpl.
    destruct (handshaker_init_returns h (ev_encryption_public_key ev)) as [h' ->]. simpl.
    eexists _, _. split; [reflexivity|]. unfold fields_ok. simpl. eauto.
  - destruct Hok as [h ->].
    session_step; try by (eexists _, _; split; [reflexivity|]).
    unfold or_fail, client_handle_handshake_response. simpl. session_step;
      by (eexists _, _; split; [reflexivity|]).
Qed.

Lemma client_take_out_message_ok (s : ClientHandshakeSession A H) :
  fields_ok s → ∃ s' r, client_take_out_message s = Return (s', r) ∧ fields_ok s'.
Proof.
  intros Hok. destruct s as [self peer att hsk st keys].
  unfold fields_ok in Hok. simpl in Hok. unfold client_take_out_message. simpl.
  destruct st; try by (eexists _, _; split).
  - destruct Hok as [[a ->] [h ->]]. unfold or_fail, client_get_attest_request. simpl.
    session_step; eexists _, _; (split; [reflexivity|]); unfold fields_ok; simpl; eauto.
  - destruct Hok as [h ->]. unfold or_fail, client_get_handshake_request. simpl.
    session_step; eexists _, _; (split; [reflexivity|]); unfold fields_ok; simpl; eauto.
Qed.

(** Running a sequence of calls on the session. *)
Definition client_op (s : ClientHandshakeSession A H) (op : session_op)
    : outcome (ClientHandshakeSession A H) :=
  match op with
  | OpProcess m => '(s, _) ← client_process_message s m; Return s
  | OpTake => '(s, _) ← client_take_out_message s; Return s
  end.

(** The attestation of an initiator: it hands out its request, accepts the response of the
    peer and has results. *)
Definition client_attested (a : A) (response : AttestResponse) (r : AttestationResults) : Prop :=
  ∃ a1 a2 request x, attestation_get_outgoing_message a = (a1, Ok (Some request)) ∧
    attestation_put_incoming_message a1 response = (a2, Ok x) ∧
    get_attestation_results a2 = Some r.

(** The calls by which an initiator with the given attestation and handshaker agrees on keys:
    its attestation accepts the response of the peer, its handshaker is initialised with the
    attested key, hands out requests and accepts the peer's response. *)
Definition client_agrees (a : A) (h : H) (ops : list session_op) (keys : SessionKeys) : Prop :=
  ∃ k n m m' rest attest_response handshake_response r h1 h2 h3 x,
    ops = replicate (S k) OpTake ++ OpProcess m :: replicate n OpTake ++ OpProcess m' :: rest ∧
    attest_response_of m = Some attest_response ∧ client_attested a attest_response r ∧
    init_attested r h = Return h1 ∧ handed_out h1 n h2 ∧
    handshake_response_of m' = Some handshake_response ∧
    handshaker_put_incoming_message h2 handshake_response = (h3, Ok x) ∧
    derive_session_keys h3 = Some keys.

(** The calls after which it panics: the handshaker does not take the key of an attested peer. *)
Definition client_panics (a : A) (h : H) (ops : list session_op) : Prop :=
  ∃ k m rest attest_response r,
    ops = replicate (S k) OpTake ++ OpProcess m :: rest ∧
    attest_response_of m = Some attest_response ∧ client_attested a attest_response r ∧
    init_attested r h = Panic.

Section client_session.
Variables (self peer : Z) (a : A) (h : H).

Abbreviation start := (client_session_new self peer a h).

Definition client_attesting (a1 : A) : ClientHandshakeSession A H :=
  session_with start (Some a1) (Some h) SAttesting session_keys_default.

Definition client_exchanging (h1 : H) : ClientHandshakeSession A H :=
  session_with start None (Some h1) SKeyExchange session_keys_default.

Definition client_done (keys : SessionKeys) : ClientHandshakeSession A H :=
  session_with start None None SCompleted keys.

(** *** Runs that agree *)

Lemma client_starts k a1 request :
  attestation_get_outgoing_message a = (a1, Ok (Some request)) →
  ofold client_op start (replicate (S k) OpTake) = Return (client_attesting a1).
Proof using.
  intros Ha. induction k as [|k IH].
  - simpl. unfold client_take_out_message, or_fail, client_get_attest_request. simpl. by rewrite Ha.
  - rewrite replicate_S_end, ofold_app, IH. done.
Qed.

Lemma client_accepts m response a1 a2 r x :
  attest_response_of m = Some response → attestation_put_incoming_message a1 response = (a2, Ok x) →
  get_attestation_results a2 = Some r →
  client_op (client_attesting a1) (OpProcess m) =
    h1 ← init_attested r h; Return (client_exchanging h1).
Proof using.
  intros Hm Ha Hr. unfold attest_response_of in Hm. simpl. unfold client_process_message. simpl.
  destruct (sch_encryption m) as [[[[|[[]|]]|]]|]; simplify_eq.
  unfold or_fail, client_handle_attest_response. simpl. rewrite Ha, Hr. simpl. unfold init_attested.
  destruct (att_extracted_evidence r); [|done]. simpl. by destruct (handshaker_init h _).
Qed.

Lemma client_exchanges h1 n h2 :
  handed_out h1 n h2 →
  ofold client_op (client_exchanging h1) (replicate n OpTake) = Return (client_exchanging h2).
Proof using.
  induction 1 as [|n h2 h3 m _ IH Hm]; [done|]. rewrite replicate_S_end, ofold_app, IH. simpl.
  unfold client_take_out_message, or_fail, client_get_handshake_request. simpl. by rewrite Hm.
Qed.

Lemma client_finishes m response h2 h3 keys x :
  handshake_response_of m = Some response →
  handshaker_put_incoming_message h2 response = (h3, Ok x) → derive_session_keys h3 = Some keys →
  client_op (client_exchanging h2) (OpProcess m) = Return (client_done keys).
Proof using.
  intros Hm Hp Hk. unfold handshake_response_of in Hm. simpl. unfold client_process_message. simpl.
  destruct (sch_encryption m) as [[[[|[[]|]]|]]|]; simplify_eq.
  unfold or_fail, client_handle_handshake_response. simpl. by rewrite Hp, Hk.
Qed.

Lemma client_stays_done keys ops : ofold client_op (client_done keys) ops = Return (client_done keys).
Proof using. by induction ops as [|[] ops IH]. Qed.

Lemma client_agrees_run ops keys :
  client_agrees a h ops keys → ofold client_op start ops = Return (client_done keys).
Proof using.
  intros (k & n & m & m' & rest & ar & hr & r & h1 & h2 & h3 & x & -> & Har & Hat & Hi & Hh & Hhr & Hp & Hk).
  destruct Hat as (a1 & a2 & req & y & Ha1 & Ha2 & Hr).
  rewrite ofold_app, (client_starts k a1 req Ha1). cbn [mbind outcome_bind ofold].
  rewrite (client_accepts m ar a1 a2 r y) by done. rewrite Hi. cbn [mbind outcome_bind].
  rewrite ofold_app, (client_exchanges h1 n h2) by done. cbn [mbind outcome_bind ofold].
  rewrite (client_finishes m' hr h2 h3 keys x) by done. apply client_stays_done.
Qed.

Lemma client_panics_run ops : client_panics a h ops → ofold client_op start ops = Panic.
Proof using.
  intros (k & m & rest & ar & r & -> & Har & (a1 & a2 & req & y & Ha1 & Ha2 & Hr) & Hi).
  rewrite ofold_app, (client_starts k a1 req Ha1). cbn [mbind outcome_bind ofold].
  rewrite (client_accepts m ar a1 a2 r y) by done. by rewrite Hi.
Qed.

(** *** All runs *)

(** The session after some calls. *)
Inductive client_at : list session_op → ClientHandshakeSession A H → Prop :=
| AtStart : client_at [] start
| AtAttesting k a1 request : attestation_get_outgoing_message a = (a1, Ok (Some request)) →
    client_at (replicate (S k) OpTake) (client_attesting a1)
| AtExchanging k n m response r h1 h2 :
    attest_response_of m = Some response → client_attested a response r →
    init_attested r h = Return h1 → handed_out h1 n h2 →
    client_at (replicate (S k) OpTake ++ OpProcess m :: replicate n OpTake) (client_exchanging h2)
| AtDone ops keys : client_agrees a h ops keys → client_at ops (client_done keys)
| AtFailed ops s : hs_state s = SFailed → client_at ops s.

Lemma client_agrees_app ops ops' keys :
  client_agrees a h ops keys → client_agrees a h (ops ++ ops') keys.
Proof using.
  intros (k & n & m & m' & rest & H0). exists k, n, m, m', (rest ++ ops').
  destruct H0 as (ar & hr & r & h1 & h2 & h3 & x & -> & ?). exists ar, hr, r, h1, h2, h3, x.
  split; [|done]. by rewrite <- (assoc_L (++)); simpl; rewrite <- (assoc_L (++)).
Qed.

Lemma client_panics_app ops ops' : client_panics a h ops → client_panics a h (ops ++ ops').
Proof using.
  intros (k & m & rest & ar & r & -> & ?). exists k, m, (rest ++ ops'), ar, r.
  by rewrite <- (assoc_L (++)).
Qed.

Lemma client_at_process ops s m :
  client_at ops s →
  match client_op s (OpProcess m) with
  | Return s' => client_at (ops ++ [OpProcess m]) s'
  | Panic => client_panics a h (ops ++ [OpProcess m])
  end.
Proof using.
  intros [|k a1 req Ha1|k n m1 ar r h1 h2 Har Hat Hi Hh|ops1 keys Hag|ops1 s1 Hs].
  - by apply AtFailed.
  - destruct (attest_response_of m) as [ar|] eqn:Hm.
    2: { unfold attest_response_of in Hm. simpl. unfold client_process_message. simpl.
         destruct (sch_encryption m) as [[[[|[[]|]]|]]|]; try done; by apply AtFailed. }
    destruct (attestation_put_incoming_message a1 ar) as [a2 [x|e]] eqn:Ha2;
      [destruct (get_attestation_results a2) as [r|] eqn:Hr|].
    + rewrite (client_accepts m ar a1 a2 r x) by done.
      assert (client_attested a ar r) as Hat by by exists a1, a2, req, x.
      destruct (init_attested r h) as [h1|] eqn:Hi; simpl.
      * by eapply (AtExchanging k 0 m ar r h1 h1); [..|constructor].
      * by exists k, m, [], ar, r.
    + simpl. unfold client_process_message, attest_response_of in *. simpl.
      destruct (sch_encryption m) as [[[[|[[]|]]|]]|]; simplify_eq.
      unfold or_fail, client_handle_attest_response. simpl. rewrite Ha2, Hr. by apply AtFailed.
    + simpl. unfold client_process_message, attest_response_of in *. simpl.
      destruct (sch_encryption m) as [[[[|[[]|]]|]]|]; simplify_eq.
      unfold or_fail, client_handle_attest_response. simpl. rewrite Ha2. by apply AtFailed.
  - destruct (handshake_response_of m) as [hr|] eqn:Hm.
    2: { unfold handshake_response_of in Hm. simpl. unfold client_process_message. simpl.
         destruct (sch_encryption m) as [[[[|[[]|]]|]]|]; try done; by apply AtFailed. }
    destruct (handshaker_put_incoming_message h2 hr) as [h3 [x|e]] eqn:Hp;
      [destruct (derive_session_keys h3) as [keys|] eqn:Hk|].
    + rewrite (client_finishes m hr h2 h3 keys x) by done. apply AtDone.
      exists k, n, m1, m, [], ar, hr, r, h1, h2, h3, x. split_and!; [|done..].
      by rewrite <- (assoc_L (++)).
    + simpl. unfold client_process_message, handshake_response_of in *. simpl.
      destruct (sch_encryption m) as [[[[|[[]|]]|]]|]; simplify_eq.
      unfold or_fail, client_handle_handshake_response. simpl. rewrite Hp, Hk. by apply AtFailed.
    + simpl. unfold client_process_message, handshake_response_of in *. simpl.
      destruct (sch_encryption m) as [[[[|[[]|]]|]]|]; simplify_eq.
      unfold or_fail, client_handle_handshake_response. simpl. rewrite Hp. by apply AtFailed.
  - by apply AtDone, client_agrees_app.
  - simpl. unfold client_process_message. rewrite Hs. by apply AtFailed.
Qed.

Lemma client_at_take ops s :
  client_at ops s → ∃ s', client_op s OpTake = Return s' ∧ client_at (ops ++ [OpTake]) s'.
Proof using.
  intros [|k a1 req Ha1|k n m1 ar r h1 h2 Har Hat Hi Hh|ops1 keys Hag|ops1 s1 Hs];
    unfold client_op, client_take_out_message, or_fail, client_get_attest_request,
      client_get_handshake_request; simpl.
  - destruct (attestation_get_outgoing_message a) as [a1 [[req|]|e]] eqn:Ha1; simpl;
      eexists; (split; [reflexivity|]); [by apply (AtAttesting 0 a1 req)|by apply AtFailed..].
  - eexists. split; [reflexivity|]. rewrite <- replicate_S_end.
    by apply (AtAttesting (S k) a1 req).
  - destruct (handshaker_get_outgoing_message h2) as [h3 [[req|]|e]] eqn:Hg; simpl;
      eexists; (split; [reflexivity|]); [|by apply AtFailed..].
    rewrite <- (assoc_L (++)). simpl. rewrite <- replicate_S_end.
    eapply (AtExchanging k (S n) m1 ar r h1 h3); [done..|]. by eapply handed_more.
  - eexists. split; [reflexivity|]. by apply AtDone, client_agrees_app.
  - rewrite Hs. simpl. eexists. split; [reflexivity|]. by apply AtFailed.
Qed.

Lemma client_runs_at ops :
  match ofold client_op start ops with
  | Return s => client_at ops s
  | Panic => client_panics a h ops
  end.
Proof using.
  induction ops as [|op ops IH] using rev_ind; [apply AtStart|]. rewrite ofold_app.
  destruct (ofold client_op start ops) as [s|]; [|by apply client_panics_app]. simpl.
  destruct op as [m|].
  - apply (client_at_process _ _ m) in IH. by destruct (client_op s (OpProcess m)).
  - apply client_at_take in IH as (s' & -> & ?). done.
Qed.
End client_session.
End client_runs.

Section server_runs.
Context {OS : OakSession} {A H : Type}
  `{!Attestation A AttestRequest AttestResponse,
    !OakHandshaker H HandshakeRequest HandshakeResponse}.

Hypothesis results_have_evidence : ∀ (a : A) r,
  get_attestation_results a = Some r → is_Some (att_extracted_evidence r).
Hypothesis handshaker_init_returns : ∀ (h : H) key, ∃ h', handshaker_init h key = Return h'.

Lemma server_process_message_ok (s : ServerHandshakeSession A H) m :
  fields_ok s → ∃ s' r, server_process_message s m = Return (s', r) ∧ fields_ok s'.
Proof.
  intros Hok. destruct s as [self peer att hsk st keys].
  unfold fields_ok in Hok. simpl in Hok. unfold server_process_message. simpl.
  destruct st; try by (eexists _, _; split).
  - destruct Hok as [[a ->] [h ->]].
    session_step; try by (eexists _, _; split; [reflexivity|]).
    unfold or_fail, server_handle_attest_request. simpl.
    session_step; eexists _, _; (split; [reflexivity|]); unfold fields_ok; simpl; eauto.
  - destruct Hok as [h ->].
    session_step; try by (eexists _, _; split; [reflexivity|]).
    unfold or_fail, server_handle_handshake_request. simpl.
    session_step; eexists _, _; (split; [reflexivity|]); unfold fields_ok; simpl; eauto.
Qed.

Lemma server_take_out_message_ok (s : ServerHandshakeSession A H) :
  fields_ok s → ∃ s' r, server_take_out_message s = Return (s', r) ∧ fields_ok s'.
Proof.
  intros Hok. destruct s as [self peer att hsk st keys].
  unfold fields_ok in Hok. simpl in Hok. unfold server_take_out_message. simpl.
  destruct st; try by (eexists _, _; split).
  - destruct Hok as [[a ->] [h ->]].
    unfold or_fail, server_get_attest_response, server_init_oak_handshaker. simpl.
    session_step; try by (eexists _, _; split; [reflexivity|]).
    session_step; try by (eexists _, _; split; [reflexivity|]).
    destruct (results_have_evidence _ _ ltac:(eassumption)) as [ev ->]. simpl.
    destruct (handshaker_init_returns h (ev_encryption_public_key ev)) as [h' ->]. simpl.
    eexists _, _. split; [reflexivity|]. unfold fields_ok. simpl. eauto.
  - destruct Hok as [h ->].
    unfold or_fail, server_get_handshake_response, server_init_session_keys. simpl.
    session_step; try by (eexists _, _; split; [reflexivity|]).
    session_step; by (eexists _, _; split; [reflexivity|]).
Qed.

Definition server_op (s : ServerHandshakeSession A H) (op : session_op)
    : outcome (ServerHandshakeSession A H) :=
  match op with
  | OpProcess m => '(s, _) ← server_process_message s m; Return s
  | OpTake => '(s, _) ← server_take_out_message s; Return s
  end.

(** The attestation of a recipient: it accepts the request of the peer, hands out its response
    and has results. *)
Definition server_attested (a : A) (request : AttestRequest) (r : AttestationResults) : Prop :=
  ∃ a1 a2 response x, attestation_put_incoming_message a request = (a1, Ok x) ∧
    attestation_get_outgoing_message a1 = (a2, Ok (Some response)) ∧
    get_attestation_results a2 = Some r.

(** The calls by which a recipient with the given attestation and handshaker agrees on keys:
    its attestation accepts the request of the peer, its handshaker is initialised with the
    attested key, accepts the peer's requests and hands out its response. *)
Definition server_agrees (a : A) (h : H) (ops : list session_op) (keys : SessionKeys) : Prop :=
  ∃ k m ms rest attest_request handshake_requests r h1 h2 h3 response,
    ops = replicate k OpTake ++ OpProcess m :: OpTake :: (OpProcess <$> ms) ++ OpTake :: rest ∧
    attest_request_of m = Some attest_request ∧ server_attested a attest_request r ∧
    init_attested r h = Return h1 ∧
    handshake_request_of <$> ms = Some <$> handshake_requests ∧
    taken_in h1 handshake_requests h2 ∧
    handshaker_get_outgoing_message h2 = (h3, Ok (Some response)) ∧
    derive_session_keys h3 = Some keys.

Definition server_panics (a : A) (h : H) (ops : list session_op) : Prop :=
  ∃ k m rest attest_request r,
    ops = replicate k OpTake ++ OpProcess m :: OpTake :: rest ∧
    attest_request_of m = Some attest_request ∧ server_attested a attest_request r ∧
    init_attested r h = Panic.

Section server_session.
Variables (self peer : Z) (a : A) (h : H).

Abbreviation start := (server_session_new self peer a h).

Definition server_attesting (a1 : A) : ServerHandshakeSession A H :=
  session_with start (Some a1) (Some h) SAttesting session_keys_default.

Definition server_exchanging (h1 : H) : ServerHandshakeSession A H :=
  session_with start None (Some h1) SKeyExchange session_keys_default.

Definition server_done (keys : SessionKeys) : ServerHandshakeSession A H :=
  session_with start None None SCompleted keys.

(** *** Runs that agree *)

Lemma server_waits k : ofold server_op start (replicate k OpTake) = Return start.
Proof using. by induction k. Qed.

Lemma server_accepts m request a1 x :
  attest_request_of m = Some request → attestation_put_incoming_message a request = (a1, Ok x) →
  server_op start (OpProcess m) = Return (server_attesting a1).
Proof using.
  intros Hm Ha. unfold attest_request_of in Hm. simpl. unfold server_process_message. simpl.
  destruct (sch_encryption m) as [[[[[[]|]|]|]]|]; simplify_eq.
  unfold or_fail, server_handle_attest_request. simpl. by rewrite Ha.
Qed.

Lemma server_responds a1 a2 response r :
  attestation_get_outgoing_message a1 = (a2, Ok (Some response)) →
  get_attestation_results a2 = Some r →
  server_op (server_attesting a1) OpTake = h1 ← init_attested r h; Return (server_exchanging h1).
Proof using.
  intros Ha Hr. simpl. unfold server_take_out_message, or_fail, server_get_attest_response. simpl.
  rewrite Ha. simpl. unfold server_init_oak_handshaker. simpl. rewrite Hr. simpl. unfold init_attested.
  destruct (att_extracted_evidence r); [|done]. simpl. by destruct (handshaker_init h _).
Qed.

Lemma server_exchanges h1 ms requests h2 :
  handshake_request_of <$> ms = Some <$> requests → taken_in h1 requests h2 →
  ofold server_op (server_exchanging h1) (OpProcess <$> ms) = Return (server_exchanging h2).
Proof using.
  intros Hms Ht. revert ms Hms. induction Ht as [|rs r h2 h3 x _ IH Hp]; intros ms Hms.
  { by destruct ms. }
  rewrite fmap_app in Hms. apply fmap_app_inv in Hms as (ms1 & ms2 & Hms & Hm & ->).
  destruct ms2 as [|m [|]]; [done| |done]. injection Hm as Hm.
  rewrite fmap_app, ofold_app, (IH ms1) by done. simpl. unfold handshake_request_of in Hm.
  unfold server_process_message. simpl. destruct (sch_encryption m) as [[[[[[]|]|]|]]|]; simplify_eq.
  unfold or_fail, server_handle_handshake_request. simpl. by rewrite Hp.
Qed.

Lemma server_finishes h2 h3 response keys :
  handshaker_get_outgoing_message h2 = (h3, Ok (Some response)) →
  derive_session_keys h3 = Some keys →
  server_op (server_exchanging h2) OpTake = Return (server_done keys).
Proof using.
  intros Hg Hk. simpl. unfold server_take_out_message, or_fail, server_get_handshake_response. simpl.
  rewrite Hg. simpl. unfold server_init_session_keys. simpl. by rewrite Hk.
Qed.

Lemma server_stays_done keys ops : ofold server_op (server_done keys) ops = Return (server_done keys).
Proof using. by induction ops as [|[] ops IH]. Qed.

Lemma server_agrees_run ops keys :
  server_agrees a h ops keys → ofold server_op start ops = Return (server_done keys).
Proof using.
  intros (k & m & ms & rest & ar & hrs & r & h1 & h2 & h3 & resp & -> & Har & Hat & Hi & Hms & Ht & Hg & Hk).
  destruct Hat as (a1 & a2 & aresp & y & Ha1 & Ha2 & Hr).
  rewrite ofold_app, server_waits. cbn [mbind outcome_bind ofold].
  rewrite (server_accepts m ar a1 y) by done. cbn [mbind outcome_bind].
  rewrite (server_responds a1 a2 aresp r) by done. rewrite Hi. cbn [mbind outcome_bind].
  rewrite ofold_app, (server_exchanges h1 ms hrs h2) by done. cbn [mbind outcome_bind ofold].
  rewrite (server_finishes h2 h3 resp keys) by done. apply server_stays_done.
Qed.

Lemma server_panics_run ops : server_panics a h ops → ofold server_op start ops = Panic.
Proof using.
  intros (k & m & rest & ar & r & -> & Har & (a1 & a2 & aresp & y & Ha1 & Ha2 & Hr) & Hi).
  rewrite ofold_app, server_waits. cbn [mbind outcome_bind ofold].
  rewrite (server_accepts m ar a1 y) by done. cbn [mbind outcome_bind].
  rewrite (server_responds a1 a2 aresp r) by done. by rewrite Hi.
Qed.

(** *** All runs *)

Inductive server_at : list session_op → ServerHandshakeSession A H → Prop :=
| ServerAtStart k : server_at (replicate k OpTake) start
| ServerAtAttesting k m request a1 x :
    attest_request_of m = Some request → attestation_put_incoming_message a request = (a1, Ok x) →
    server_at (replicate k OpTake ++ [OpProcess m]) (server_attesting a1)
| ServerAtExchanging k m request ms requests r h1 h2 :
    attest_request_of m = Some request → server_attested a request r →
    init_attested r h = Return h1 → handshake_request_of <$> ms = Some <$> requests →
    taken_in h1 requests h2 →
    server_at (replicate k OpTake ++ OpProcess m :: OpTake :: (OpProcess <$> ms)) (server_exchanging h2)
| ServerAtDone ops keys : server_agrees a h ops keys → server_at ops (server_done keys)
| ServerAtFailed ops s : hs_state s = SFailed → server_at ops s.

Lemma server_agrees_app ops ops' keys :
  server_agrees a h ops keys → server_agrees a h (ops ++ ops') keys.
Proof using.
  intros (k & m & ms & rest & H0). exists k, m, ms, (rest ++ ops').
  destruct H0 as (ar & hrs & r & h1 & h2 & h3 & resp & -> & ?). exists ar, hrs, r, h1, h2, h3, resp.
  split; [|done]. by rewrite <- (assoc_L (++)); simpl; rewrite <- (assoc_L (++)).
Qed.

Lemma server_panics_app ops ops' : server_panics a h ops → server_panics a h (ops ++ ops').
Proof using.
  intros (k & m & rest & ar & r & -> & ?). exists k, m, (rest ++ ops'), ar, r.
  by rewrite <- (assoc_L (++)).
Qed.

Lemma server_at_process ops s m :
  server_at ops s →
  ∃ s', server_op s (OpProcess m) = Return s' ∧ server_at (ops ++ [OpProcess m]) s'.
Proof using.
  intros [k|k m1 ar a1 x Har Ha1|k m1 ar ms rs r h1 h2 Har Hat Hi Hms Ht|ops1 keys Hag|ops1 s1 Hs].
  - destruct (attest_request_of m) as [ar|] eqn:Hm.
    2: { unfold attest_request_of in Hm. simpl. unfold server_process_message. simpl.
         destruct (sch_encryption m) as [[[[[[]|]|]|]]|]; try done;
           (eexists; split; [reflexivity|by apply ServerAtFailed]). }
    destruct (attestation_put_incoming_message a ar) as [a1 [x|e]] eqn:Ha1.
    + rewrite (server_accepts m ar a1 x) by done. eexists. split; [reflexivity|].
      by eapply ServerAtAttesting.
    + unfold attest_request_of in Hm. simpl. unfold server_process_message. simpl.
      destruct (sch_encryption m) as [[[[[[]|]|]|]]|]; simplify_eq.
      unfold or_fail, server_handle_attest_request. simpl. rewrite Ha1.
      eexists. split; [reflexivity|by apply ServerAtFailed].
  - eexists. split; [reflexivity|by apply ServerAtFailed].
  - destruct (handshake_request_of m) as [hr|] eqn:Hm.
    2: { unfold handshake_request_of in Hm. simpl. unfold server_process_message. simpl.
         destruct (sch_encryption m) as [[[[[[]|]|]|]]|]; try done;
           (eexists; split; [reflexivity|by apply ServerAtFailed]). }
    unfold server_op, server_process_message. simpl. pose proof Hm as Hm'.
    unfold handshake_request_of in Hm. destruct (sch_encryption m) as [[[[[[]|]|]|]]|]; simplify_eq.
    unfold or_fail, server_handle_handshake_request. simpl.
    destruct (handshaker_put_incoming_message h2 hr) as [h3 [x|e]] eqn:Hp;
      (eexists; split; [reflexivity|]); [|by apply ServerAtFailed].
    replace ((_ ++ _) ++ [_]) with (replicate k OpTake ++ OpProcess m1 :: OpTake :: (OpProcess <$> (ms ++ [m])))
      by (rewrite fmap_app, <- (assoc_L (++)); done).
    eapply (ServerAtExchanging k m1 ar (ms ++ [m]) (rs ++ [hr]) r h1 h3); [done..| |by eapply taken_more].
    rewrite !fmap_app, Hms. simpl. by rewrite Hm'.
  - eexists. split; [reflexivity|]. by apply ServerAtDone, server_agrees_app.
  - unfold server_op, server_process_message. rewrite Hs. eexists. split; [reflexivity|by apply ServerAtFailed].
Qed.

Lemma server_at_take ops s :
  server_at ops s →
  match server_op s OpTake with
  | Return s' => server_at (ops ++ [OpTake]) s'
  | Panic => server_panics a h (ops ++ [OpTake])
  end.
Proof using.
  intros [k|k m ar a1 x Har Ha1|k m ar ms rs r h1 h2 Har Hat Hi Hms Ht|ops1 keys Hag|ops1 s1 Hs].
  - simpl. rewrite <- replicate_S_end. apply ServerAtStart.
  - destruct (attestation_get_outgoing_message a1) as [a2 [[resp|]|e]] eqn:Ha2;
      [destruct (get_attestation_results a2) as [r|] eqn:Hr|..].
    2-4: unfold server_op, server_take_out_message, or_fail, server_get_attest_response; simpl;
      rewrite Ha2; simpl; unfold server_init_oak_handshaker; simpl; rewrite ?Hr; by apply ServerAtFailed.
    rewrite (server_responds a1 a2 resp r) by done. rewrite <- (assoc_L (++)). simpl.
    assert (server_attested a ar r) as Hat by by exists a1, a2, resp, x.
    destruct (init_attested r h) as [h1|] eqn:Hi; simpl.
    + by eapply (ServerAtExchanging k m ar [] [] r h1 h1); [..|constructor].
    + by exists k, m, [], ar, r.
  - destruct (handshaker_get_outgoing_message h2) as [h3 [[resp|]|e]] eqn:Hg;
      [destruct (derive_session_keys h3) as [keys|] eqn:Hk|..].
    2-4: unfold server_op, server_take_out_message, or_fail, server_get_handshake_response; simpl;
      rewrite Hg; simpl; unfold server_init_session_keys; simpl; rewrite ?Hk; by apply ServerAtFailed.
    rewrite (server_finishes h2 h3 resp keys) by done. apply ServerAtDone.
    exists k, m, ms, [], ar, rs, r, h1, h2, h3, resp. split_and!; [|done..].
    by rewrite <- (assoc_L (++)).
  - by apply ServerAtDone, server_agrees_app.
  - simpl. unfold server_take_out_message. rewrite Hs. by apply ServerAtFailed.
Qed.

Lemma server_runs_at ops :
  match ofold server_op start ops with
  | Return s => server_at ops s
  | Panic => server_panics a h ops
  end.
Proof using.
  induction ops as [|op ops IH] using rev_ind; [apply (ServerAtStart 0)|]. rewrite ofold_app.
  destruct (ofold server_op start ops) as [s|]; [|by apply server_panics_app]. simpl.
  destruct op as [m|].
  - apply (server_at_process _ _ m) in IH as (s' & -> & ?). done.
  - apply server_at_take in IH. by destruct (server_op s OpTake).
Qed.
End server_session.
End server_runs.

(** ** The provider and the trait instance *)

Section provider.
Context {OS : OakSession} {CA CH SA SH : Type}
  `{!Attestation CA AttestResponse AttestRequest,
    !OakHandshaker CH HandshakeResponse HandshakeRequest,
    !Attestation SA AttestRequest AttestResponse,
    !OakHandshaker SH HandshakeRequest HandshakeResponse}.

(** [Box<dyn HandshakeSession>] as the default provider fills it. *)
Inductive ProvidedSession :=
| ClientSession (s : ClientHandshakeSession CA CH)
| ServerSession (s : ServerHandshakeSession SA SH).

(** The provider hands out a fresh attestation and handshaker per session. *)
Variables (get_client_attestation : CA) (get_client_oak_handshaker : CH)
  (get_server_attestation : SA) (get_server_oak_handshaker : SH).

Definition provider_get (self_replica_id peer_replica_id : Z) (role : Role) : ProvidedSession :=
  match role with
  | Initiator =>
      ClientSession (client_session_new self_replica_id peer_replica_id
                       get_client_attestation get_client_oak_handshaker)
  | Recipient =>
      ServerSession (server_session_new self_replica_id peer_replica_id
                       get_server_attestation get_server_oak_handshaker)
  end.

Definition provided_process_message (s : ProvidedSession) (m : SecureChannelHandshake)
    : outcome (ProvidedSession * result Error unit) :=
  match s with
  | ClientSession s => '(s, r) ← client_process_message s m; Return (ClientSession s, r)
  | ServerSession s => '(s, r) ← server_process_message s m; Return (ServerSession s, r)
  end.

Definition provided_take_out_message (s : ProvidedSession)
    : outcome (ProvidedSession * result Error (option SecureChannelHandshake)) :=
  match s with
  | ClientSession s => '(s, r) ← client_take_out_message s; Return (ClientSession s, r)
  | ServerSession s => '(s, r) ← server_take_out_message s; Return (ServerSession s, r)
  end.

Hypothesis client_evidence : ∀ (a : CA) r,
  get_attestation_results a = Some r → is_Some (att_extracted_evidence r).
Hypothesis client_init : ∀ (h : CH) key, ∃ h', handshaker_init h key = Return h'.
Hypothesis server_evidence : ∀ (a : SA) r,
  get_attestation_results a = Some r → is_Some (att_extracted_evidence r).
Hypothesis server_init : ∀ (h : SH) key, ∃ h', handshaker_init h key = Return h'.

Program Definition provided_session_impl : HandshakeSession ProvidedSession DefaultEncryptor :=
  {| process_message := provided_process_message;
     take_out_message := provided_take_out_message;
     is_completed s := match s with
       | ClientSession s => session_is_completed s | ServerSession s => session_is_completed s end;
     get_encryptor s := match s with
       | ClientSession s => session_get_encryptor s
       | ServerSession s => session_get_encryptor s end;
     session_ok s := match s with
       | ClientSession s => fields_ok s | ServerSession s => fields_ok s end |}.
Next Obligation.
  intros [s|s] m Hok; simpl.
  - destruct (client_process_message_ok client_evidence client_init s m Hok) as (s' & r & -> & ?).
    eexists _, _. by split.
  - destruct (server_process_message_ok s m Hok) as (s' & r & -> & ?). eexists _, _. by split.
Qed.
Next Obligation.
  intros [s|s] Hok; simpl.
  - destruct (client_take_out_message_ok s Hok) as (s' & r & -> & ?). eexists _, _. by split.
  - destruct (server_take_out_message_ok server_evidence server_init s Hok) as (s' & r & -> & ?).
    eexists _, _. by split.
Qed.
Next Obligation. intros [s|s]; apply session_get_encryptor_completed. Qed.
End provider.

Lemma session_get_encryptor_Some {A H} (s : SessionFields A H) keys :
  session_get_encryptor s = Some (encryptor_new keys) ↔ hs_state s = SCompleted ∧ hs_session_keys s = keys.
Proof.
  unfold session_get_encryptor. case_decide as Hs; [naive_solver|].
  split; [intros [= <-]|intros [_ <-]]; [|done]. split; [|done].
  by destruct (decide (hs_state s = SCompleted)).
Qed.

(** * Claims *)

(** C11: An initiator session yields an encryptor exactly when it agreed with its peer.  After
    any calls on a new session, it is completed exactly when it yields an encryptor, and the
    encryptor has some keys exactly when the calls were: handing out the request of the
    session's attestation, processing a response that this attestation accepts and gives
    results for, handing out key exchange requests of the session's handshaker, initialised
    with the key in those results, and processing a response that this handshaker accepts and
    derives the keys from; in this order, and whatever follows.  The calls panic exactly when
    the attested results have no evidence or the handshaker panics on its key. *)
Theorem client_session_spec {OS : OakSession} {A H}
    `{!Attestation A AttestResponse AttestRequest,
      !OakHandshaker H HandshakeResponse HandshakeRequest} self peer (a : A) (h : H) ops :
  (ofold client_op (client_session_new self peer a h) ops = Panic ↔ client_panics a h ops) ∧
  ∀ s, ofold client_op (client_session_new self peer a h) ops = Return s →
    (session_is_completed s = true ↔ is_Some (session_get_encryptor s)) ∧
    ∀ keys, session_get_encryptor s = Some (encryptor_new keys) ↔ client_agrees a h ops keys.
Proof.
  pose proof (client_runs_at self peer a h ops) as Hat. split.
  - split; [intros Hp; by rewrite Hp in Hat|apply client_panics_run].
  - intros s Hs. rewrite Hs in Hat. split; [apply session_get_encryptor_completed|]. intros keys.
    split; [rewrite session_get_encryptor_Some; intros [Hst <-]|].
    + by inversion Hat; simplify_eq/=; congruence.
    + intros Hag%(client_agrees_run self peer). rewrite Hs in Hag. by injection Hag as ->.
Qed.

(** C27: A recipient session yields an encryptor exactly when it agreed with its peer.  After
    any calls on a new session, it is completed exactly when it yields an encryptor, and the
    encryptor has some keys exactly when the calls were: processing a request that the
    session's attestation accepts, handing out the response of this attestation, which then
    has results, processing key exchange requests that the session's handshaker, initialised
    with the key in those results, accepts, and handing out the response of this handshaker,
    which then derives the keys; in this order, and whatever follows.  The calls panic exactly
    when the attested results have no evidence or the handshaker panics on its key. *)
Theorem server_session_spec {OS : OakSession} {A H}
    `{!Attestation A AttestRequest AttestResponse,
      !OakHandshaker H HandshakeRequest HandshakeResponse} self peer (a : A) (h : H) ops :
  (ofold server_op (server_session_new self peer a h) ops = Panic ↔ server_panics a h ops) ∧
  ∀ s, ofold server_op (server_session_new self peer a h) ops = Return s →
    (session_is_completed s = true ↔ is_Some (session_get_encryptor s)) ∧
    ∀ keys, session_get_encryptor s = Some (encryptor_new keys) ↔ server_agrees a h ops keys.
Proof.
  pose proof (server_runs_at self peer a h ops) as Hat. split.
  - split; [intros Hp; by rewrite Hp in Hat|apply server_panics_run].
  - intros s Hs. rewrite Hs in Hat. split; [apply session_get_encryptor_completed|]. intros keys.
    split; [rewrite session_get_encryptor_Some; intros [Hst <-]|].
    + by inversion Hat; simplify_eq/=; congruence.
    + intros Hag%(server_agrees_run self peer). rewrite Hs in Hag. by injection Hag as ->.
Qed.

(** The default recipient never panics; the default initiator does when the Oak SDK does not
    create a handshaker for the attested key. *)
Lemma default_sessions_panic {OS : OakSession} {P CH SH : Type} (create : bytes → option CH)
    (new : bytes → SH) (p : P) h h' ops ops' :
  let CI := DefaultOakClientHandshaker_impl CH create in
  let SI := DefaultOakServerHandshaker_impl SH new in
  ¬ server_panics (Build_DefaultServerAttestation P p) h' ops' ∧
  (client_panics (Build_DefaultClientAttestation P p) h ops → create [] = None).
Proof.
  intros CI SI. split.
  - intros (k & m & rest & ar & r & _ & _ & (a1 & a2 & resp & x & _ & _ & [= <-]) & Hi). done.
  - intros (k & m & rest & ar & r & _ & _ & (a1 & a2 & req & x & _ & _ & [= <-]) & Hi).
    unfold init_attested in Hi. simpl in Hi. unfold oak_client_init in Hi. by destruct (create []).
Qed.

Section exchange.
Context {OS : OakSession} {CA CH SA SH : Type}
  `{!Attestation CA AttestResponse AttestRequest,
    !OakHandshaker CH HandshakeResponse HandshakeRequest,
    !Attestation SA AttestRequest AttestResponse,
    !OakHandshaker SH HandshakeRequest HandshakeResponse}.

(** Hands the message one side takes out to the other side; anything but one
    message and a successful call ends the exchange. *)
Definition client_to_server (p : ClientHandshakeSession CA CH * ServerHandshakeSession SA SH)
    : option (ClientHandshakeSession CA CH * ServerHandshakeSession SA SH) :=
  match client_take_out_message p.1 with
  | Return (c, Ok (Some m)) =>
      match server_process_message p.2 m with
      | Return (s, Ok _) => Some (c, s)
      | _ => None
      end
  | _ => None
  end.

Definition server_to_client (p : ClientHandshakeSession CA CH * ServerHandshakeSession SA SH)
    : option (ClientHandshakeSession CA CH * ServerHandshakeSession SA SH) :=
  match server_take_out_message p.2 with
  | Return (s, Ok (Some m)) =>
      match client_process_message p.1 m with
      | Return (c, Ok _) => Some (c, s)
      | _ => None
      end
  | _ => None
  end.

Definition full_exchange (p : ClientHandshakeSession CA CH * ServerHandshakeSession SA SH)
    : option (ClientHandshakeSession CA CH * ServerHandshakeSession SA SH) :=
  p ← client_to_server p; p ← server_to_client p;
  p ← client_to_server p; server_to_client p.
End exchange.

(** With the default attestation and key exchange, relaying the two request
    and two response messages between a fresh initiator and a fresh recipient
    completes both sessions, and what one side encrypts the other decrypts. *)
Theorem default_handshake_completes {OS : OakSession} {P CH SH : Type}
    (create : bytes → option CH) (new : bytes → SH) (pa pb : P) (ida idb : Z) :
  is_Some (create []) →
  let CI := DefaultOakClientHandshaker_impl CH create in
  let SI := DefaultOakServerHandshaker_impl SH new in
  ∃ c s ec es,
    full_exchange
      (client_session_new ida idb (Build_DefaultClientAttestation P pa)
         (oak_client_handshaker_new CH),
       server_session_new idb ida (Build_DefaultServerAttestation P pb)
         (oak_server_handshaker_new SH)) = Some (c, s) ∧
    session_get_encryptor c = Some ec ∧ session_get_encryptor s = Some es ∧
    ∀ plaintext, (x ← encrypt ec plaintext; decrypt es x) = Ok plaintext ∧
                 (x ← encrypt es plaintext; decrypt ec x) = Ok plaintext.
Proof.
  intros [inner Hc] CI SI.
  assert (∀ h, oak_client_init CH create h [] = Return {| client_handshaker_inner := Some inner |})
    as Hinit by (intros h; unfold oak_client_init; by rewrite Hc).
  unfold full_exchange, client_to_server, server_to_client. cbn.
  unfold client_process_message, or_fail, client_handle_attest_response. cbn.
  rewrite Hinit. cbn. eexists _, _, _, _. by repeat split.
Qed.

(** * Concrete instances *)

Section samples.
#[local] Instance sample_oak_session : OakSession :=
  {| EndorsedEvidence := unit; AttestationBinding := unit; HandshakeRequestType := unit;
     HandshakeResponseType := unit; ReferenceValues := unit |}.
#[local] Instance sample_client_handshaker :
    OakHandshaker (DefaultOakClientHandshaker unit) HandshakeResponse HandshakeRequest :=
  DefaultOakClientHandshaker_impl unit (λ _, Some ()).
#[local] Instance sample_server_handshaker :
    OakHandshaker (DefaultOakServerHandshaker unit) HandshakeRequest HandshakeResponse :=
  DefaultOakServerHandshaker_impl unit (λ _, ()).

Definition sample_attest_response : SecureChannelHandshake :=
  {| sch_recipient_replica_id := 1; sch_sender_replica_id := 2;
     sch_encryption := Some (NoiseProtocol (Some (RecipientResponse (Some
       (RecipientAttestResponse {| aresp_endorsed_evidence := [] |}))))) |}.

Definition sample_handshake_response : SecureChannelHandshake :=
  {| sch_recipient_replica_id := 1; sch_sender_replica_id := 2;
     sch_encryption := Some (NoiseProtocol (Some (RecipientResponse (Some
       (RecipientHandshakeResponse
          {| hresp_attestation_binding := None; hresp_handshake_type := None |}))))) |}.

Definition sample_attest_request : SecureChannelHandshake :=
  {| sch_recipient_replica_id := 2; sch_sender_replica_id := 1;
     sch_encryption := Some (NoiseProtocol (Some (InitiatorRequest (Some
       (InitiatorAttestRequest {| areq_endorsed_evidence := [] |}))))) |}.

Definition sample_handshake_request : SecureChannelHandshake :=
  {| sch_recipient_replica_id := 2; sch_sender_replica_id := 1;
     sch_encryption := Some (NoiseProtocol (Some (InitiatorRequest (Some
       (InitiatorHandshakeRequest
          {| hreq_attestation_binding := None; hreq_handshake_type := None |}))))) |}.

Lemma client_session_spec_witness :
  client_agrees (Build_DefaultClientAttestation unit ()) (oak_client_handshaker_new unit)
    [OpTake; OpProcess sample_attest_response; OpTake; OpProcess sample_handshake_response]
    {| request_key := []; response_key := [] |}.
Proof.
  destruct (client_session_spec 1 2 (Build_DefaultClientAttestation unit ())
    (oak_client_handshaker_new unit)
    [OpTake; OpProcess sample_attest_response; OpTake; OpProcess sample_handshake_response])
    as [_ H].
  refine (proj1 (proj2 (H _ _) _) _); vm_compute; reflexivity.
Defined.

Lemma server_session_spec_witness :
  server_agrees (Build_DefaultServerAttestation unit ()) (oak_server_handshaker_new unit)
    [OpProcess sample_attest_request; OpTake; OpProcess sample_handshake_request; OpTake]
    {| request_key := []; response_key := [] |}.
Proof.
  destruct (server_session_spec 2 1 (Build_DefaultServerAttestation unit ())
    (oak_server_handshaker_new unit)
    [OpProcess sample_attest_request; OpTake; OpProcess sample_handshake_request; OpTake])
    as [_ H].
  refine (proj1 (proj2 (H _ _) _) _); vm_compute; reflexivity.
Defined.

Lemma default_handshake_completes_witness :
  ∃ c s, full_exchange
      (client_session_new 1 2 (Build_DefaultClientAttestation unit ())
         (oak_client_handshaker_new unit),
       server_session_new 2 1 (Build_DefaultServerAttestation unit ())
         (oak_server_handshaker_new unit)) = Some (c, s).
Proof.
  destruct (default_handshake_completes (λ _, Some ()) (λ _, ()) () () 1 2)
    as (c & s & _ & _ & H & _); [by eexists|]. exists c, s. exact H.
Defined.
End samples.
