(* ===== verification/Communication.v ===== *)
(** * Communication between replicas

    [src/runtime/src/communication.rs]: for every peer the module runs a
    handshake session, stashes outgoing messages until it completes, encrypts
    what leaves and decrypts what arrives.  Sessions, encryptors and the session
    provider are used through their interfaces. *)

From S2P Require Import Prelude Endpoint Handshake.

Inductive PalError := PalInternal | PalInvalidOperation | PalRaft | PalActor.

Record CommunicationConfig := { handshake_retry_tick : Z }.

Inductive HandshakeState :=
| HUnknown
| HInitialized
| HInitiated
| HCompleted
| HFailed (ticks_since_failed : Z).

#[global] Instance HandshakeState_eq_dec : EqDecision HandshakeState.
Proof. solve_decision. Defined.

Section communication.
Context {OS : OakSession} {S X : Type}
  `{!HandshakeSession S X, !Encryptor X, !HashOrder Z}.

(** ** One peer *)

Record CommunicationState := {
  cs_handshake_state : HandshakeState;
  cs_pending_handshake_message : option SecureChannelHandshake;
  cs_handshake_session : option S;
  cs_unencrypted_messages : list OutMsg;
  cs_encryptor : option X
}.

Definition cs_with (c : CommunicationState) (state : HandshakeState)
    (pending : option SecureChannelHandshake) (session : option S) (messages : list OutMsg)
    : CommunicationState :=
  {| cs_handshake_state := state;
     cs_pending_handshake_message := pending;
     cs_handshake_session := session;
     cs_unencrypted_messages := messages;
     cs_encryptor := cs_encryptor c |}.

Definition comm_state_new : CommunicationState :=
  {| cs_handshake_state := HUnknown; cs_pending_handshake_message := None;
     cs_handshake_session := None; cs_unencrypted_messages := []; cs_encryptor := None |}.

Definition comm_state_init (c : CommunicationState) (handshake_session : S)
    : CommunicationState * result PalError unit :=
  if decide (cs_handshake_state c ≠ HUnknown) then (c, Err PalInvalidOperation)
  else (cs_with c HInitialized (cs_pending_handshake_message c) (Some handshake_session)
          (cs_unencrypted_messages c), Ok ()).

Definition comm_state_is_initialized (c : CommunicationState) : bool :=
  bool_decide (cs_handshake_state c ≠ HUnknown).

Definition comm_state_set_state (state : HandshakeState) (c : CommunicationState)
    : CommunicationState :=
  cs_with c state (cs_pending_handshake_message c) (cs_handshake_session c)
    (cs_unencrypted_messages c).

Definition comm_state_make_tick (c : CommunicationState) : CommunicationState :=
  match cs_handshake_state c with
  | HFailed ticks_since_failed =>
      comm_state_set_state (HFailed (ticks_since_failed +₆₄ 1)) c
  | _ => c
  end.

Definition comm_state_reset (c : CommunicationState) : CommunicationState :=
  {| cs_handshake_state := HUnknown; cs_pending_handshake_message := None;
     cs_handshake_session := None;
     cs_unencrypted_messages := cs_unencrypted_messages c; cs_encryptor := None |}.

Definition comm_state_transition_to_failed (c : CommunicationState) : CommunicationState :=
  comm_state_set_state (HFailed 0) c.

Definition comm_state_push (message : OutMsg) (c : CommunicationState) : CommunicationState :=
  cs_with c (cs_handshake_state c) (cs_pending_handshake_message c) (cs_handshake_session c)
    (cs_unencrypted_messages c ++ [message]).

Definition comm_state_process_out_message (c : CommunicationState) (message : OutMsg)
    : outcome (CommunicationState * result Error unit) :=
  match cs_handshake_state c with
  | HUnknown =>
      Return (comm_state_transition_to_failed c,
              Err "HandshakeState must be initialized before processing out_messages.")
  | HInitialized =>
      session ← unwrap (cs_handshake_session c);
      '(session, r) ← take_out_message session;
      let c := cs_with c (cs_handshake_state c) (cs_pending_handshake_message c) (Some session)
                 (cs_unencrypted_messages c) in
      match r with
      | Err e => Return (comm_state_transition_to_failed c, Err e)
      | Ok pending =>
          let c := cs_with c (cs_handshake_state c) pending (cs_handshake_session c)
                     (cs_unencrypted_messages c) in
          match pending with
          | None =>
              Return (comm_state_transition_to_failed c,
                      Err "No initial handshake message found.")
          | Some _ => Return (comm_state_set_state HInitiated (comm_state_push message c), Ok ())
          end
      end
  | HInitiated | HCompleted => Return (comm_state_push message c, Ok ())
  | HFailed _ => Return (comm_state_push message c, Ok ())
  end.

Definition comm_state_decrypt_message (c : CommunicationState) (message : InMsg)
    : outcome (option InMsg) :=
  encryptor ← unwrap (cs_encryptor c);
  Return
    match message with
    | InDeliverSystemMessage msg =>
        match decrypt encryptor (dsm_message_contents msg) with
        | Ok decrypted_msg => Some (InDeliverSystemMessage
            {| dsm_recipient_replica_id := dsm_recipient_replica_id msg;
               dsm_sender_replica_id := dsm_sender_replica_id msg;
               dsm_message_contents := decrypted_msg |})
        | Err _ => None
        end
    | InDeliverSnapshotRequest msg =>
        match decrypt encryptor (req_payload_contents msg) with
        | Ok decrypted_msg => Some (InDeliverSnapshotRequest
            {| req_recipient_replica_id := req_recipient_replica_id msg;
               req_sender_replica_id := req_sender_replica_id msg;
               req_delivery_id := req_delivery_id msg;
               req_payload_contents := decrypted_msg |})
        | Err _ => None
        end
    | InDeliverSnapshotResponse msg =>
        match decrypt encryptor (resp_payload_contents msg) with
        | Ok decrypted_msg => Some (InDeliverSnapshotResponse
            {| resp_recipient_replica_id := resp_recipient_replica_id msg;
               resp_sender_replica_id := resp_sender_replica_id msg;
               resp_delivery_id := resp_delivery_id msg;
               resp_payload_contents := decrypted_msg |})
        | Err _ => None
        end
    | _ => None
    end.

Definition comm_state_process_in_message (c : CommunicationState) (message : InMsg)
    : outcome (CommunicationState * result Error (option InMsg)) :=
  match cs_handshake_state c with
  | HUnknown =>
      Return (comm_state_transition_to_failed c,
              Err "HandshakeState must be initialized before processing in_messages.")
  | HInitialized | HInitiated =>
      match message with
      | InSecureChannelHandshake handshake_message =>
          session ← unwrap (cs_handshake_session c);
          '(session, r) ← process_message session handshake_message;
          let c := cs_with c (cs_handshake_state c) (cs_pending_handshake_message c)
                     (Some session) (cs_unencrypted_messages c) in
          match r with
          | Err e => Return (comm_state_transition_to_failed c, Err e)
          | Ok _ =>
              '(session, r) ← take_out_message session;
              let c := cs_with c (cs_handshake_state c) (cs_pending_handshake_message c)
                         (Some session) (cs_unencrypted_messages c) in
              match r with
              | Err e => Return (comm_state_transition_to_failed c, Err e)
              | Ok pending =>
                  if is_completed session
                  then Return
                    ({| cs_handshake_state := HCompleted;
                        cs_pending_handshake_message := pending;
                        cs_handshake_session := None;
                        cs_unencrypted_messages := cs_unencrypted_messages c;
                        cs_encryptor := get_encryptor session |}, Ok None)
                  else Return
                    (cs_with c HInitiated pending (cs_handshake_session c)
                       (cs_unencrypted_messages c), Ok None)
              end
          end
      | _ =>
          Return (comm_state_transition_to_failed c,
                  Err "Message must be SecureChannelHandshake")
      end
  | HCompleted =>
      r ← comm_state_decrypt_message c message;
      Return (c, Ok r)
  | HFailed _ => Return (c, Ok None)
  end.

(** One iteration of the loop of [take_encrypted_messages]: the encrypted
    message, or nothing when encryption fails. *)
Definition encrypt_out_message (encryptor : X) (message : OutMsg) : option OutMsg :=
  match message with
  | OutDeliverSystemMessage msg =>
      match encrypt encryptor (dsm_message_contents msg) with
      | Ok encrypted_message => Some (OutDeliverSystemMessage
          {| dsm_recipient_replica_id := dsm_recipient_replica_id msg;
             dsm_sender_replica_id := dsm_sender_replica_id msg;
             dsm_message_contents := encrypted_message |})
      | Err _ => None
      end
  | OutDeliverSnapshotRequest msg =>
      match encrypt encryptor (req_payload_contents msg) with
      | Ok encrypted_message => Some (OutDeliverSnapshotRequest
          {| req_recipient_replica_id := req_recipient_replica_id msg;
             req_sender_replica_id := req_sender_replica_id msg;
             req_delivery_id := req_delivery_id msg;
             req_payload_contents := encrypted_message |})
      | Err _ => None
      end
  | OutDeliverSnapshotResponse msg =>
      match encrypt encryptor (resp_payload_contents msg) with
      | Ok encrypted_message => Some (OutDeliverSnapshotResponse
          {| resp_recipient_replica_id := resp_recipient_replica_id msg;
             resp_sender_replica_id := resp_sender_replica_id msg;
             resp_delivery_id := resp_delivery_id msg;
             resp_payload_contents := encrypted_message |})
      | Err _ => None
      end
  | _ => None
  end.

Definition comm_state_take_encrypted_messages (c : CommunicationState)
    : outcome (CommunicationState * list OutMessage) :=
  let unencrypted_msgs := cs_unencrypted_messages c in
  let c := cs_with c (cs_handshake_state c) (cs_pending_handshake_message c)
             (cs_handshake_session c) [] in
  encryptor ← unwrap (cs_encryptor c);
  Return (c, map (λ m, {| out_msg := Some m |})
               (omap (encrypt_out_message encryptor) unencrypted_msgs)).

Definition comm_state_take_out_messages (c : CommunicationState)
    : outcome (CommunicationState * list OutMessage) :=
  match cs_pending_handshake_message c with
  | Some pending_handshake_message =>
      Return (cs_with c (cs_handshake_state c) None (cs_handshake_session c)
                (cs_unencrypted_messages c),
              [{| out_msg := Some (OutSecureChannelHandshake pending_handshake_message) |}])
  | None =>
      if decide (cs_handshake_state c = HCompleted)
      then comm_state_take_encrypted_messages c
      else Return (c, [])
  end.

(** ** The module *)

Variable session_provider_get : Z → Z → Role → S.

Record DefaultCommunicationModule := {
  cm_replicas : gmap Z CommunicationState;
  cm_replica_id : Z;
  cm_handshake_retry_tick : Z
}.

Definition cm_with_replicas (m : DefaultCommunicationModule) (replicas : gmap Z CommunicationState)
    : DefaultCommunicationModule :=
  {| cm_replicas := replicas; cm_replica_id := cm_replica_id m;
     cm_handshake_retry_tick := cm_handshake_retry_tick m |}.

Definition comm_new : DefaultCommunicationModule :=
  {| cm_replicas := ∅; cm_replica_id := 0; cm_handshake_retry_tick := 1 |}.

Definition comm_check_initialized (m : DefaultCommunicationModule) : result PalError unit :=
  if decide (cm_replica_id m = 0) then Err PalInvalidOperation else Ok ().

Definition comm_init (m : DefaultCommunicationModule) (id : Z)
    (config : option CommunicationConfig) : DefaultCommunicationModule :=
  {| cm_replicas := cm_replicas m;
     cm_replica_id := id;
     cm_handshake_retry_tick :=
       match config with Some c => handshake_retry_tick c | None => cm_handshake_retry_tick m end |}.

Definition out_peer (message : OutMsg) : result PalError Z :=
  match message with
  | OutDeliverSystemMessage m => Ok (dsm_recipient_replica_id m)
  | OutDeliverSnapshotRequest m => Ok (req_recipient_replica_id m)
  | OutDeliverSnapshotResponse m => Ok (resp_recipient_replica_id m)
  | _ => Err PalInvalidOperation
  end.

Definition in_peer (message : InMsg) : result PalError Z :=
  match message with
  | InSecureChannelHandshake m => Ok (sch_sender_replica_id m)
  | InDeliverSystemMessage m => Ok (dsm_sender_replica_id m)
  | InDeliverSnapshotRequest m => Ok (req_sender_replica_id m)
  | InDeliverSnapshotResponse m => Ok (resp_sender_replica_id m)
  | _ => Err PalInvalidOperation
  end.

(** [entry(..).or_insert_with(..)] followed by the initialisation of a state that
    has none. *)
Definition comm_entry (m : DefaultCommunicationModule) (peer_replica_id : Z) (role : Role)
    : CommunicationState * result PalError unit :=
  let replica_state :=
    match cm_replicas m !! peer_replica_id with Some c => c | None => comm_state_new end in
  if comm_state_is_initialized replica_state then (replica_state, Ok ())
  else comm_state_init replica_state
         (session_provider_get (cm_replica_id m) peer_replica_id role).

Definition comm_process_out_message (m : DefaultCommunicationModule) (message : OutMsg)
    : outcome (DefaultCommunicationModule * result PalError unit) :=
  match comm_check_initialized m ≫= (λ _, out_peer message) with
  | Err e => Return (m, Err e)
  | Ok peer_replica_id =>
      let '(replica_state, r) := comm_entry m peer_replica_id Initiator in
      match r with
      | Err e =>
          Return (cm_with_replicas m (<[peer_replica_id := replica_state]> (cm_replicas m)), Err e)
      | Ok _ =>
          '(replica_state, _) ← comm_state_process_out_message replica_state message;
          Return (cm_with_replicas m (<[peer_replica_id := replica_state]> (cm_replicas m)), Ok ())
      end
  end.

Definition comm_process_in_message (m : DefaultCommunicationModule) (message : InMsg)
    : outcome (DefaultCommunicationModule * result PalError (option InMsg)) :=
  match comm_check_initialized m ≫= (λ _, in_peer message) with
  | Err e => Return (m, Err e)
  | Ok peer_replica_id =>
      let '(replica_state, r) := comm_entry m peer_replica_id Recipient in
      match r with
      | Err e =>
          Return (cm_with_replicas m (<[peer_replica_id := replica_state]> (cm_replicas m)), Err e)
      | Ok _ =>
          '(replica_state, r) ← comm_state_process_in_message replica_state message;
          Return (cm_with_replicas m (<[peer_replica_id := replica_state]> (cm_replicas m)),
                  match r with Ok r => Ok r | Err _ => Ok None end)
      end
  end.

(** One iteration of the loop of [take_out_messages]. *)
Definition comm_take_from (acc : gmap Z CommunicationState * list OutMessage)
    (entry : Z * CommunicationState) : outcome (gmap Z CommunicationState * list OutMessage) :=
  let '(replicas, messages) := acc in
  '(replica_state, out) ← comm_state_take_out_messages entry.2;
  Return (<[entry.1 := replica_state]> replicas, messages ++ out).

Definition comm_take_out_messages (m : DefaultCommunicationModule)
    : outcome (DefaultCommunicationModule * list OutMessage) :=
  '(replicas, messages) ← ofold comm_take_from (cm_replicas m, []) (hash_iter (cm_replicas m));
  Return (cm_with_replicas m replicas, messages).

Definition comm_process_cluster_change (m : DefaultCommunicationModule)
    (new_replica_ids : list Z) : DefaultCommunicationModule :=
  if decide (cm_replica_id m ∉ new_replica_ids) then cm_with_replicas m ∅
  else cm_with_replicas m (filter (λ e, e.1 ∈ new_replica_ids) (cm_replicas m)).

(** The body of the loop of [make_tick]. *)
Definition comm_tick_peer (m : DefaultCommunicationModule) (c : CommunicationState)
    : CommunicationState :=
  let c := comm_state_make_tick c in
  match cs_handshake_state c with
  | HFailed ticks_since_failed =>
      if decide (cm_handshake_retry_tick m ≤ ticks_since_failed)
      then comm_state_reset c else c
  | _ => c
  end.

Definition comm_make_tick (m : DefaultCommunicationModule) : DefaultCommunicationModule :=
  cm_with_replicas m (comm_tick_peer m <$> cm_replicas m).

(** * Properties *)

(** ** Invariant *)

(** An encryptor that a completed session handed out. *)
Definition genuine (e : X) : Prop :=
  ∃ s : S, session_ok s ∧ is_completed s = true ∧ get_encryptor s = Some e.

(** A peer's state has what its handshake state needs, and stashes only messages
    to that peer out of those that satisfy [P]. *)
Definition peer_ok (P : OutMsg → Prop) (id : Z) (c : CommunicationState) : Prop :=
  match cs_handshake_state c with
  | HInitialized | HInitiated => ∃ s, cs_handshake_session c = Some s ∧ session_ok s
  | HCompleted => ∃ e, cs_encryptor c = Some e ∧ genuine e
  | HUnknown | HFailed _ => True
  end ∧
  Forall (λ m, out_peer m = Ok id ∧ P m) (cs_unencrypted_messages c).

Lemma peer_ok_impl (P Q : OutMsg → Prop) id c :
  (∀ m, P m → Q m) → peer_ok P id c → peer_ok Q id c.
Proof.
  intros HPQ [H1 H2]. split; [done|]. eapply Forall_impl; [done|]. naive_solver.
Qed.

Lemma peer_ok_failed P id c :
  Forall (λ m, out_peer m = Ok id ∧ P m) (cs_unencrypted_messages c) →
  peer_ok P id (comm_state_transition_to_failed c).
Proof. by split. Qed.

Lemma process_out_ok P id c message :
  peer_ok P id c → out_peer message = Ok id → P message →
  ∃ c' r, comm_state_process_out_message c message = Return (c', r) ∧ peer_ok P id c'.
Proof.
  intros [Hst Hms] Hid HP. unfold comm_state_process_out_message.
  assert (Forall (λ m, out_peer m = Ok id ∧ P m) (cs_unencrypted_messages c ++ [message])) as Hms'
    by (apply Forall_app; split; [done|by constructor]).
  destruct (cs_handshake_state c) eqn:E.
  - eexists _, _. split; [reflexivity|]. by apply peer_ok_failed.
  - destruct Hst as (s & -> & Hs). simpl.
    destruct (take_out_message_ok s Hs) as (s' & r & -> & Hs'). simpl.
    destruct r as [[pending|]|e]; simpl.
    + eexists _, _. split; [reflexivity|]. split; [simpl; eauto|done].
    + eexists _, _. split; [reflexivity|]. by apply peer_ok_failed.
    + eexists _, _. split; [reflexivity|]. by apply peer_ok_failed.
  - eexists _, _. split; [reflexivity|]. unfold peer_ok. simpl. by rewrite E.
  - eexists _, _. split; [reflexivity|]. unfold peer_ok. simpl. by rewrite E.
  - eexists _, _. split; [reflexivity|]. unfold peer_ok. simpl. by rewrite E.
Qed.

Lemma decrypt_message_total c e message :
  cs_encryptor c = Some e → ∃ r, comm_state_decrypt_message c message = Return r.
Proof. intros He. unfold comm_state_decrypt_message. rewrite He. simpl. eauto. Qed.

(** An incoming message is processed without panic; only a completed peer's
    message is passed on, decrypted. *)
Lemma process_in_ok P id c message :
  peer_ok P id c →
  ∃ c' r, comm_state_process_in_message c message = Return (c', r) ∧ peer_ok P id c' ∧
    ∀ message', r = Ok (Some message') →
      cs_handshake_state c = HCompleted ∧
      comm_state_decrypt_message c message = Return (Some message').
Proof.
  intros [Hst Hms]. unfold comm_state_process_in_message.
  destruct (cs_handshake_state c) eqn:E.
  - eexists _, _. split_and!; [reflexivity|by apply peer_ok_failed|done].
  - destruct message as [| | | | | | | | |hm|]; try
      by (eexists _, _; split_and!; [reflexivity|by apply peer_ok_failed|]).
    destruct Hst as (s & -> & Hs). simpl.
    destruct (process_message_ok s hm Hs) as (s1 & [[]|e] & -> & Hs1); simpl;
      [|eexists _, _; split_and!; [reflexivity|by apply peer_ok_failed|done]].
    destruct (take_out_message_ok s1 Hs1) as (s2 & [p|e] & -> & Hs2); simpl;
      [|eexists _, _; split_and!; [reflexivity|by apply peer_ok_failed|done]].
    destruct (is_completed s2) eqn:Hc; (eexists _, _; split_and!; [reflexivity| |done]);
      (split; [|done]); simpl; [|eauto].
    destruct (proj1 (get_encryptor_completed s2) Hc) as [e He]. exists e. split; [done|].
    by exists s2.
  - destruct message as [| | | | | | | | |hm|]; try
      by (eexists _, _; split_and!; [reflexivity|by apply peer_ok_failed|]).
    destruct Hst as (s & -> & Hs). simpl.
    destruct (process_message_ok s hm Hs) as (s1 & [[]|e] & -> & Hs1); simpl;
      [|eexists _, _; split_and!; [reflexivity|by apply peer_ok_failed|done]].
    destruct (take_out_message_ok s1 Hs1) as (s2 & [p|e] & -> & Hs2); simpl;
      [|eexists _, _; split_and!; [reflexivity|by apply peer_ok_failed|done]].
    destruct (is_completed s2) eqn:Hc; (eexists _, _; split_and!; [reflexivity| |done]);
      (split; [|done]); simpl; [|eauto].
    destruct (proj1 (get_encryptor_completed s2) Hc) as [e He]. exists e. split; [done|].
    by exists s2.
  - destruct Hst as (e & He & Hg). destruct (decrypt_message_total c e message He) as [r Hr].
    rewrite Hr. simpl. eexists _, _. split_and!; [reflexivity| |].
    + unfold peer_ok. rewrite E. eauto.
    + intros message' [= ->]. done.
  - eexists _, _. split_and!; [reflexivity| |done]. unfold peer_ok. by rewrite E.
Qed.

(** What leaves: a handshake message, or the encryption of a stashed message
    under the encryptor of the completed session. *)
Definition out_ok (P : OutMsg → Prop) (id : Z) (c : CommunicationState) (o : OutMessage) : Prop :=
  (∃ hs, o = {| out_msg := Some (OutSecureChannelHandshake hs) |}) ∨
  (∃ m e m', cs_handshake_state c = HCompleted ∧ cs_encryptor c = Some e ∧ genuine e ∧
     out_peer m = Ok id ∧ P m ∧ encrypt_out_message e m = Some m' ∧
     o = {| out_msg := Some m' |}).

Lemma take_out_ok P id c :
  peer_ok P id c →
  ∃ c' out, comm_state_take_out_messages c = Return (c', out) ∧ peer_ok P id c' ∧
    Forall (out_ok P id c) out.
Proof.
  intros [Hst Hms]. unfold comm_state_take_out_messages.
  destruct (cs_pending_handshake_message c) as [hs|].
  - eexists _, _. split_and!; [reflexivity| |].
    + by split.
    + constructor; [|done]. left. eauto.
  - case_decide as Hc.
    + unfold comm_state_take_encrypted_messages. simpl. rewrite Hc in Hst.
      destruct Hst as (e & He & Hg). rewrite He. simpl.
      eexists _, _. split_and!; [reflexivity| |].
      * split; [|by constructor]. simpl. rewrite Hc. eauto.
      * apply Forall_forall. intros o (m' & -> & Hm')%list_elem_of_fmap.
        apply list_elem_of_omap in Hm' as (m & Hm & Henc).
        rewrite Forall_forall in Hms. destruct (Hms m Hm) as [Hid HP]. right. eauto 10.
    + eexists _, _. split_and!; [reflexivity|by split|done].
Qed.

(** ** Runs of the module *)

Hypothesis provider_ok : ∀ self peer role, session_ok (session_provider_get self peer role).

Lemma comm_entry_ok P m id role :
  map_Forall (peer_ok P) (cm_replicas m) →
  ∃ c, comm_entry m id role = (c, Ok ()) ∧ peer_ok P id c ∧
    (cs_handshake_state c = HCompleted → cm_replicas m !! id = Some c).
Proof.
  intros Hm. unfold comm_entry.
  assert (∃ c, (match cm_replicas m !! id with Some c => c | None => comm_state_new end) = c ∧
    peer_ok P id c ∧ (cs_handshake_state c ≠ HUnknown → cm_replicas m !! id = Some c))
    as (c & -> & [Hst Hms] & Hin).
  { destruct (cm_replicas m !! id) as [c|] eqn:E; eexists; (split; [reflexivity|]).
    - split; [by apply Hm|done].
    - split; [by split|]. simpl. done. }
  unfold comm_state_is_initialized. case_bool_decide as Hi.
  - exists c. split_and!; [done|by split|]. auto.
  - unfold comm_state_init. destruct (decide (cs_handshake_state c ≠ HUnknown)); [done|].
    eexists. split_and!; [reflexivity| |done]. split; [|done]. simpl. eauto.
Qed.

(** [inputs] are the messages given to [process_out_message] so far. *)
Inductive comm_run : list OutMsg → DefaultCommunicationModule → Prop :=
| run_new : comm_run [] comm_new
| run_init inputs m id config : comm_run inputs m → comm_run inputs (comm_init m id config)
| run_out inputs m message m' r :
    comm_run inputs m → comm_process_out_message m message = Return (m', r) →
    comm_run (inputs ++ [message]) m'
| run_in inputs m message m' r :
    comm_run inputs m → comm_process_in_message m message = Return (m', r) → comm_run inputs m'
| run_take inputs m m' out :
    comm_run inputs m → comm_take_out_messages m = Return (m', out) → comm_run inputs m'
| run_cluster_change inputs m ids :
    comm_run inputs m → comm_run inputs (comm_process_cluster_change m ids)
| run_tick inputs m : comm_run inputs m → comm_run inputs (comm_make_tick m).

Lemma comm_out_ok P m message :
  map_Forall (peer_ok P) (cm_replicas m) → P message →
  ∃ m' r, comm_process_out_message m message = Return (m', r) ∧
    map_Forall (peer_ok P) (cm_replicas m').
Proof.
  intros Hm HP. unfold comm_process_out_message, comm_check_initialized.
  destruct (decide (cm_replica_id m = 0)); simpl; [eauto|].
  destruct (out_peer message) as [id|err] eqn:Hid; simpl; [|eauto].
  destruct (comm_entry_ok P m id Initiator Hm) as (c & -> & Hc & _).
  destruct (process_out_ok P id c message Hc Hid HP) as (c' & r & -> & Hc'). simpl.
  eexists _, _. split; [reflexivity|]. simpl. by apply map_Forall_insert_2.
Qed.

Lemma comm_in_ok P m message :
  map_Forall (peer_ok P) (cm_replicas m) →
  ∃ m' r, comm_process_in_message m message = Return (m', r) ∧
    map_Forall (peer_ok P) (cm_replicas m') ∧
    ∀ message', r = Ok (Some message') → ∃ id c, in_peer message = Ok id ∧
      cm_replicas m !! id = Some c ∧ cs_handshake_state c = HCompleted ∧
      comm_state_decrypt_message c message = Return (Some message').
Proof.
  intros Hm. unfold comm_process_in_message, comm_check_initialized.
  destruct (decide (cm_replica_id m = 0)); simpl; [by eexists _, _|].
  destruct (in_peer message) as [id|err] eqn:Hid; simpl; [|by eexists _, _].
  destruct (comm_entry_ok P m id Recipient Hm) as (c & -> & Hc & Hin).
  destruct (process_in_ok P id c message Hc) as (c' & r & -> & Hc' & Hr). simpl.
  eexists _, _. split_and!; [reflexivity|simpl; by apply map_Forall_insert_2|].
  intros message' Heq. destruct r as [r|]; simplify_eq.
  destruct (Hr _ eq_refl) as [H1 H2]. exists id, c. auto.
Qed.

Lemma take_loop_ok P (m : gmap Z CommunicationState) l replicas messages :
  map_Forall (peer_ok P) m → Forall (λ e, m !! e.1 = Some e.2) l →
  map_Forall (peer_ok P) replicas →
  ∃ replicas' out, ofold comm_take_from (replicas, messages) l
    = Return (replicas', messages ++ out) ∧
    map_Forall (peer_ok P) replicas' ∧
    Forall (λ o, ∃ id c, m !! id = Some c ∧ out_ok P id c o) out.
Proof.
  intros Hm. revert replicas messages. induction l as [|[id c] l IH];
    intros replicas messages Hl Hr.
  - exists replicas, []. simpl. rewrite app_nil_r. by split_and!.
  - inversion_clear Hl as [|? ? Hid Hl']. simpl in Hid. cbn [ofold comm_take_from]. simpl.
    destruct (take_out_ok P id c (Hm _ _ Hid)) as (c' & out & -> & Hc' & Hout). simpl.
    destruct (IH (<[id := c']> replicas) (messages ++ out)) as (r' & out' & -> & Hr' & Hout');
      [done|by apply map_Forall_insert_2|].
    exists r', (out ++ out'). rewrite <- app_assoc. split_and!; [done..|].
    apply Forall_app. split; [|done]. eapply Forall_impl; [done|]. simpl. eauto.
Qed.

Lemma comm_take_ok P m :
  map_Forall (peer_ok P) (cm_replicas m) →
  ∃ m' out, comm_take_out_messages m = Return (m', out) ∧
    map_Forall (peer_ok P) (cm_replicas m') ∧
    Forall (λ o, ∃ id c, cm_replicas m !! id = Some c ∧ out_ok P id c o) out.
Proof.
  intros Hm. unfold comm_take_out_messages.
  destruct (take_loop_ok P (cm_replicas m) (hash_iter (cm_replicas m)) (cm_replicas m) [])
    as (r & out & -> & Hr & Hout); [done| |done|].
  - apply Forall_forall. intros [i x] Hin. rewrite (hash_iter_perm (cm_replicas m)) in Hin.
    by apply elem_of_map_to_list in Hin.
  - simpl. eauto.
Qed.

Lemma comm_tick_ok P m :
  map_Forall (peer_ok P) (cm_replicas m) → map_Forall (peer_ok P) (cm_replicas (comm_make_tick m)).
Proof.
  intros Hm id c. simpl. rewrite lookup_fmap. intros (c0 & Hc0 & ->)%fmap_Some.
  destruct (Hm _ _ Hc0) as [Hst Hms]. unfold comm_tick_peer, comm_state_make_tick.
  destruct (cs_handshake_state c0) eqn:E; try (rewrite E; unfold peer_ok; by rewrite E).
  simpl. case_decide; by split.
Qed.

Lemma comm_cluster_change_ok P m ids :
  map_Forall (peer_ok P) (cm_replicas m) →
  map_Forall (peer_ok P) (cm_replicas (comm_process_cluster_change m ids)).
Proof.
  intros Hm. unfold comm_process_cluster_change. case_decide; simpl.
  - apply map_Forall_empty.
  - intros id c [Hc _]%map_lookup_filter_Some. by apply Hm.
Qed.

Lemma comm_run_ok inputs m :
  comm_run inputs m → map_Forall (peer_ok (.∈ inputs)) (cm_replicas m).
Proof.
  induction 1 as [|inputs m id config _ IH|inputs m message m' r _ IH Hr
    |inputs m message m' r _ IH Hr|inputs m m' out _ IH Hr|inputs m ids _ IH|inputs m _ IH].
  - apply map_Forall_empty.
  - done.
  - destruct (comm_out_ok (.∈ inputs ++ [message]) m message) as (m2 & r2 & Heq & Hok).
    + intros id c Hc. eapply peer_ok_impl; [|by apply IH].
      intros x Hx. apply elem_of_app. by left.
    + apply elem_of_app. right. by apply list_elem_of_singleton.
    + rewrite Heq in Hr. by injection Hr as <- _.
  - destruct (comm_in_ok _ m message IH) as (m2 & r2 & Heq & Hok & _).
    rewrite Heq in Hr. by injection Hr as <- _.
  - destruct (comm_take_ok _ m IH) as (m2 & r2 & Heq & Hok & _).
    rewrite Heq in Hr. by injection Hr as <- _.
  - by apply comm_cluster_change_ok.
  - by apply comm_tick_ok.
Qed.

(** ** Ticks *)

Lemma comm_tick_failed m c t :
  0 ≤ t → t + 1 < two64 → t + 1 < cm_handshake_retry_tick m →
  comm_tick_peer m (comm_state_set_state (HFailed t) c) = comm_state_set_state (HFailed (t + 1)) c.
Proof.
  intros Ht Hw Hlt. unfold comm_tick_peer, comm_state_make_tick. simpl.
  rewrite u64_add_small by lia. by rewrite decide_False by lia.
Qed.

Lemma comm_tick_reset m c t :
  0 ≤ t → t + 1 < two64 → cm_handshake_retry_tick m ≤ t + 1 →
  comm_tick_peer m (comm_state_set_state (HFailed t) c) = comm_state_reset c.
Proof.
  intros Ht Hw Hle. unfold comm_tick_peer, comm_state_make_tick. simpl.
  rewrite u64_add_small by lia. by rewrite decide_True by lia.
Qed.

Lemma iter_tick_params m k :
  cm_handshake_retry_tick (Nat.iter k comm_make_tick m) = cm_handshake_retry_tick m ∧
  cm_replica_id (Nat.iter k comm_make_tick m) = cm_replica_id m.
Proof. induction k as [|k [IH1 IH2]]; simpl; auto. Qed.

Lemma iter_tick_failed m id c k :
  cm_replicas m !! id = Some c → cs_handshake_state c = HFailed 0 →
  cm_handshake_retry_tick m < two64 → Z.of_nat k < cm_handshake_retry_tick m →
  cm_replicas (Nat.iter k comm_make_tick m) !! id
  = Some (comm_state_set_state (HFailed (Z.of_nat k)) c).
Proof.
  intros Hc Hst Hw. induction k as [|k IH]; intros Hk.
  - simpl. rewrite Hc. f_equal. destruct c; simpl in *. by subst.
  - cbn [Nat.iter]. simpl cm_replicas. rewrite lookup_fmap, IH by lia. simpl. f_equal.
    rewrite comm_tick_failed by (rewrite ?(proj1 (iter_tick_params m k)); lia).
    do 2 f_equal. lia.
Qed.

(** ** The channel *)

(** The incoming message the peer sees for an outgoing one. *)
Definition in_of_out (m : OutMsg) : option InMsg :=
  match m with
  | OutDeliverSystemMessage m => Some (InDeliverSystemMessage m)
  | OutDeliverSnapshotRequest m => Some (InDeliverSnapshotRequest m)
  | OutDeliverSnapshotResponse m => Some (InDeliverSnapshotResponse m)
  | OutSecureChannelHandshake m => Some (InSecureChannelHandshake m)
  | _ => None
  end.

Lemma encrypt_decrypt_message c e e' m m' id :
  cs_encryptor c = Some e' → out_peer m = Ok id →
  (∀ x y, encrypt e x = Ok y → decrypt e' y = Ok x) →
  encrypt_out_message e m = Some m' →
  ∃ i i', in_of_out m = Some i ∧ in_of_out m' = Some i' ∧
    comm_state_decrypt_message c i' = Return (Some i).
Proof.
  intros He' Hid Hdec. unfold comm_state_decrypt_message. rewrite He'.
  destruct m as [| | | | |m|m|m| | |]; try done; simpl; destruct (encrypt e _) eqn:E; try done;
    intros [= <-]; eexists _, _; (split_and!; [reflexivity..|]); simpl;
    rewrite (Hdec _ _ E); by destruct m.
Qed.

(** Delivering what a peer sent to the state that belongs to the sender. *)
Fixpoint deliver_all (c : CommunicationState) (messages : list InMsg)
    : outcome (CommunicationState * list InMsg) :=
  match messages with
  | [] => Return (c, [])
  | message :: messages =>
      '(c, r) ← comm_state_process_in_message c message;
      '(c, received) ← deliver_all c messages;
      Return (c, match r with Ok (Some m) => m :: received | _ => received end)
  end.

Lemma deliver_all_completed c e e' l :
  cs_handshake_state c = HCompleted → cs_encryptor c = Some e' →
  (∀ x, is_ok (encrypt e x) = true) →
  (∀ x y, encrypt e x = Ok y → decrypt e' y = Ok x) →
  Forall (λ m, ∃ id, out_peer m = Ok id) l →
  deliver_all c (omap in_of_out (omap (encrypt_out_message e) l)) = Return (c, omap in_of_out l).
Proof.
  intros Hst He Htot Hdec. induction l as [|m l IH]; intros Hl; simpl; [done|].
  inversion_clear Hl as [|? ? (id & Hid) Hl'].
  assert (is_Some (encrypt_out_message e m)) as [m' Hm'].
  { destruct m as [| | | | |m|m|m| | |]; try done; simpl;
      match goal with |- context [encrypt e ?x] =>
        specialize (Htot x); destruct (encrypt e x); [by eexists|done] end. }
  destruct (encrypt_decrypt_message c e e' m m' id He Hid Hdec Hm') as (i & i' & Hi & Hi' & Hd).
  rewrite Hm', Hi. simpl. rewrite Hi'. cbn [deliver_all].
  unfold comm_state_process_in_message. rewrite Hst, Hd. simpl.
  change (list_omap OutMsg InMsg in_of_out) with (omap (M:=list) in_of_out).
  change (list_omap OutMsg OutMsg (encrypt_out_message e))
    with (omap (M:=list) (encrypt_out_message e)).
  by rewrite (IH Hl').
Qed.

(** * Claims *)

(** Nothing leaves in the clear.  After any run, taking out messages does not
    panic, and everything taken out is a handshake message or the encryption, under
    the encryptor that a completed handshake session with that peer handed out, of
    a message that was given to [process_out_message] for that peer. *)
Theorem comm_outputs_encrypted inputs m :
  comm_run inputs m →
  ∃ m' out, comm_take_out_messages m = Return (m', out) ∧
    Forall (λ o, ∃ id c, cm_replicas m !! id = Some c ∧ out_ok (.∈ inputs) id c o) out.
Proof.
  intros Hrun%comm_run_ok. destruct (comm_take_ok _ m Hrun) as (m' & out & H & _ & Hout). eauto.
Qed.


(** A failed handshake is retried.  A peer whose handshake failed stays failed,
    with its stashed messages, for fewer than [handshake_retry_tick] ticks; at that
    tick its state is reset, with the stashed messages kept; and the next outgoing
    message then starts a new session as initiator and is stashed behind them, the
    session's first message waiting to be sent. *)
Theorem failed_handshake_retried m id c :
  cm_replicas m !! id = Some c → cs_handshake_state c = HFailed 0 →
  cm_replica_id m ≠ 0 → 1 ≤ cm_handshake_retry_tick m < two64 →
  (∀ k, Z.of_nat k < cm_handshake_retry_tick m →
     cm_replicas (Nat.iter k comm_make_tick m) !! id
     = Some (comm_state_set_state (HFailed (Z.of_nat k)) c)) ∧
  let m' := Nat.iter (Z.to_nat (cm_handshake_retry_tick m)) comm_make_tick m in
  cm_replicas m' !! id = Some (comm_state_reset c) ∧
  ∀ message s hs, out_peer message = Ok id →
    take_out_message (session_provider_get (cm_replica_id m) id Initiator)
    = Return (s, Ok (Some hs)) →
    ∃ m'' c'', comm_process_out_message m' message = Return (m'', Ok ()) ∧
      cm_replicas m'' !! id = Some c'' ∧ cs_handshake_state c'' = HInitiated ∧
      cs_unencrypted_messages c'' = cs_unencrypted_messages c ++ [message] ∧
      cs_pending_handshake_message c'' = Some hs.
Proof.
  intros Hc Hst Hid Hr. split; [intros k Hk; apply iter_tick_failed; [done..|lia|done]|].
  assert (cm_replicas (Nat.iter (Z.to_nat (cm_handshake_retry_tick m)) comm_make_tick m) !! id
    = Some (comm_state_reset c)) as Hreset.
  { replace (Z.to_nat (cm_handshake_retry_tick m))
      with (1 + Z.to_nat (cm_handshake_retry_tick m - 1))%nat by lia.
    cbn [Nat.iter Nat.add]. simpl cm_replicas. rewrite lookup_fmap.
    rewrite (iter_tick_failed m id c _ Hc Hst) by lia. simpl. f_equal.
    apply comm_tick_reset; rewrite ?(proj1 (iter_tick_params m _)); lia. }
  split; [done|]. intros message s hs Hp Htake.
  unfold comm_process_out_message, comm_check_initialized.
  rewrite (proj2 (iter_tick_params m _)), decide_False by done. simpl. rewrite Hp.
  unfold comm_entry. rewrite Hreset, (proj2 (iter_tick_params m _)).
  unfold comm_state_is_initialized, comm_state_init. simpl.
  unfold comm_state_process_out_message. simpl. rewrite Htake. simpl.
  eexists _, _. split; [reflexivity|]. simpl. rewrite lookup_insert_eq.
  by split_and!.
Qed.

(** The established channel is transparent.  What a completed peer state hands
    out, delivered in order to the completed state at the other end, is received as
    exactly the stashed messages, in order, when the two encryptors belong
    together. *)
Theorem channel_delivers inputs m id c c' e e' :
  comm_run inputs m → cm_replicas m !! id = Some c →
  cs_handshake_state c = HCompleted → cs_pending_handshake_message c = None →
  cs_encryptor c = Some e →
  cs_handshake_state c' = HCompleted → cs_encryptor c' = Some e' →
  (∀ x, is_ok (encrypt e x) = true) →
  (∀ x y, encrypt e x = Ok y → decrypt e' y = Ok x) →
  ∃ c2 out, comm_state_take_out_messages c = Return (c2, out) ∧
    cs_unencrypted_messages c2 = [] ∧
    deliver_all c' (omap in_of_out (omap out_msg out))
    = Return (c', omap in_of_out (cs_unencrypted_messages c)).
Proof.
  intros Hrun Hc Hst Hp He Hst' He' Htot Hdec. apply comm_run_ok in Hrun.
  destruct (Hrun _ _ Hc) as [_ Hms].
  unfold comm_state_take_out_messages. rewrite Hp, decide_True by done.
  unfold comm_state_take_encrypted_messages. simpl. rewrite He. simpl.
  eexists _, _. split_and!; [reflexivity|done|].
  assert (∀ l : list OutMsg, omap out_msg (map (λ m, {| out_msg := Some m |}) l) = l) as ->
    by (induction l as [|x l IH]; [done|]; simpl; f_equal; exact IH).
  eapply (deliver_all_completed c' e e'); try done.
  eapply Forall_impl; [exact Hms|]. intros x [Hx _]. eauto.
Qed.
End communication.

(** * Concrete instances *)

Section samples.
#[local] Instance comm_sample_oak_session : OakSession :=
  {| EndorsedEvidence := unit; AttestationBinding := unit; HandshakeRequestType := unit;
     HandshakeResponseType := unit; ReferenceValues := unit |}.
#[local] Instance comm_sample_client_handshaker :
    OakHandshaker (DefaultOakClientHandshaker unit) HandshakeResponse HandshakeRequest :=
  DefaultOakClientHandshaker_impl unit (λ _, Some ()).
#[local] Instance comm_sample_server_handshaker :
    OakHandshaker (DefaultOakServerHandshaker unit) HandshakeRequest HandshakeResponse :=
  DefaultOakServerHandshaker_impl unit (λ _, ()).
#[local] Instance comm_sample_hash_order : HashOrder Z := default_hash_order Z.

Definition SampleSession : Type :=
  @ProvidedSession (DefaultClientAttestation unit) (DefaultOakClientHandshaker unit)
    (DefaultServerAttestation unit) (DefaultOakServerHandshaker unit).

#[local] Program Instance sample_session_impl : HandshakeSession SampleSession DefaultEncryptor :=
  provided_session_impl _ _ _ _.
Next Obligation. intros a r [= <-]. by eexists. Qed.
Next Obligation. intros h key. by eexists. Qed.
Next Obligation. intros a r [= <-]. by eexists. Qed.
Next Obligation. intros h key. by eexists. Qed.

Definition sample_provider : Z → Z → Role → SampleSession :=
  provider_get (Build_DefaultClientAttestation unit ()) (oak_client_handshaker_new unit)
    (Build_DefaultServerAttestation unit ()) (oak_server_handshaker_new unit).

Lemma sample_provider_ok self peer role : session_ok (sample_provider self peer role).
Proof. destruct role; split; by eexists. Qed.

Definition state_after {A B} (o : outcome (A * B)) (d : A) : A :=
  match o with Return (a, _) => a | Panic => d end.

Definition sample_out : OutMsg :=
  OutDeliverSystemMessage {| dsm_recipient_replica_id := 2; dsm_sender_replica_id := 1;
                             dsm_message_contents := [Byte.x2a] |}.

Definition sample_in1 : InMsg :=
  InSecureChannelHandshake {| sch_recipient_replica_id := 1; sch_sender_replica_id := 2;
       sch_encryption := Some (NoiseProtocol (Some (RecipientResponse (Some
         (RecipientAttestResponse {| aresp_endorsed_evidence := [] |}))))) |}.

Definition sample_in2 : InMsg :=
  InSecureChannelHandshake {| sch_recipient_replica_id := 1; sch_sender_replica_id := 2;
       sch_encryption := Some (NoiseProtocol (Some (RecipientResponse (Some
         (RecipientHandshakeResponse
            {| hresp_attestation_binding := None; hresp_handshake_type := None |}))))) |}.

Definition sample_module0 : @DefaultCommunicationModule _ SampleSession DefaultEncryptor :=
  comm_init comm_new 1 None.
Definition sample_module1 :=
  state_after (comm_process_out_message sample_provider sample_module0 sample_out) sample_module0.
Definition sample_module2 :=
  state_after (comm_process_in_message sample_provider sample_module1
    sample_in1) sample_module1.
Definition sample_module3 :=
  state_after (comm_process_in_message sample_provider sample_module2
    sample_in2)
    sample_module2.

Lemma sample_run : comm_run sample_provider [sample_out] sample_module3.
Proof.
  eapply run_in with (m := sample_module2) (message := sample_in2); [|vm_compute; reflexivity].
  eapply run_in with (m := sample_module1) (message := sample_in1); [|vm_compute; reflexivity].
  eapply (run_out sample_provider [] sample_module0 sample_out); [|vm_compute; reflexivity].
  apply run_init, run_new.
Qed.

Lemma comm_outputs_encrypted_witness :
  ∃ m' out, comm_take_out_messages sample_module3 = Return (m', out) ∧
    out = [{| out_msg := Some sample_out |}].
Proof.
  destruct (comm_outputs_encrypted sample_provider sample_provider_ok _ _ sample_run)
    as (m' & out & H & _).
  exists m', out. split; [exact H|]. vm_compute in H. by injection H as _ <-.
Defined.


Definition sample_failed : @CommunicationState _ SampleSession DefaultEncryptor :=
  {| cs_handshake_state := HFailed 0; cs_pending_handshake_message := None;
     cs_handshake_session := None; cs_unencrypted_messages := [sample_out];
     cs_encryptor := None |}.

Lemma failed_handshake_retried_witness :
  ∃ m'' c'', comm_process_out_message sample_provider
      (comm_make_tick {| cm_replicas := {[ 2 := sample_failed ]}; cm_replica_id := 1;
                         cm_handshake_retry_tick := 1 |}) sample_out = Return (m'', Ok ()) ∧
    cm_replicas m'' !! 2 = Some c'' ∧
    cs_unencrypted_messages c'' = [sample_out; sample_out].
Proof.
  destruct (failed_handshake_retried sample_provider
    {| cm_replicas := {[ 2 := sample_failed ]}; cm_replica_id := 1;
       cm_handshake_retry_tick := 1 |} 2 sample_failed) as (_ & _ & H);
    [done|done|done|simpl; lia|].
  edestruct (H sample_out) as (m'' & c'' & H1 & H2 & _ & H3 & _); [done|reflexivity|].
  exists m'', c''. split; [exact H1|]. split; [exact H2|exact H3].
Defined.

Definition sample_peer : @CommunicationState _ SampleSession DefaultEncryptor :=
  {| cs_handshake_state := HCompleted; cs_pending_handshake_message := None;
     cs_handshake_session := None; cs_unencrypted_messages := [sample_out];
     cs_encryptor := Some (encryptor_new session_keys_default) |}.

Lemma channel_delivers_witness :
  ∃ c2 out, comm_state_take_out_messages sample_peer = Return (c2, out) ∧
    deliver_all sample_peer (omap in_of_out (omap out_msg out))
    = Return (sample_peer, [InDeliverSystemMessage
        {| dsm_recipient_replica_id := 2; dsm_sender_replica_id := 1;
           dsm_message_contents := [Byte.x2a] |}]).
Proof.
  destruct (channel_delivers sample_provider sample_provider_ok [sample_out] sample_module3 2
    sample_peer sample_peer (encryptor_new session_keys_default)
    (encryptor_new session_keys_default)) as (c2 & out & H1 & _ & H2);
    [exact sample_run|vm_compute; reflexivity|done|done|done|done|done|done|
     by intros x y [= ->]|].
  exists c2, out. split; [exact H1|exact H2].
Defined.
End samples.
