(* ===== verification/Model.v ===== *)
(** * The actor model

    [src/runtime/src/model.rs]: what an application supplies to the runtime.  A
    method on [&mut self] is a computation in a small monad that threads the object,
    keeps it on an early return, and separates a call that returns from one that
    panics and from one that is still looping when the random draws it was given
    are used up. *)

From S2P Require Import Prelude.

(** ** Methods *)

Inductive exec (A : Type) : Type :=
| Returned (a : A)
| Panicked
| Unfinished.
Arguments Returned {A} a.
Arguments Panicked {A}.
Arguments Unfinished {A}.

Definition method (S E A : Type) : Type := S → exec (S * result E A).

#[global] Instance method_ret S E : MRet (method S E) := λ A a s, Returned (s, Ok a).

#[global] Instance method_bind S E : MBind (method S E) := λ A B f m s,
  match m s with
  | Returned (s', Ok a) => f a s'
  | Returned (s', Err e) => Returned (s', Err e)
  | Panicked => Panicked
  | Unfinished => Unfinished
  end.

Definition get_self {S E} : method S E S := λ s, Returned (s, Ok s).

Definition set_self {S E} (s : S) : method S E unit := λ _, Returned (s, Ok ()).

(** The operator [?]. *)
Definition try_ {S E A} (r : result E A) : method S E A := λ s, Returned (s, r).

Definition fail {S E A} (e : E) : method S E A := λ s, Returned (s, Err e).

(** A call that does not touch the object but may panic. *)
Definition call {S E A} (o : outcome A) : method S E A := λ s,
  match o with Return a => Returned (s, Ok a) | Panic => Panicked end.

(** [Result::or_else] on the result of a call. *)
Definition or_else {S E F A} (m : method S E A) (f : E → result F A) : method S F A := λ s,
  match m s with
  | Returned (s', Ok a) => Returned (s', Ok a)
  | Returned (s', Err e) => Returned (s', f e)
  | Panicked => Panicked
  | Unfinished => Unfinished
  end.

(** A call on a part of the object. *)
Definition on_part {S P E A} (get : S → P) (set : P → S → S) (m : method P E A)
    : method S E A := λ s,
  match m (get s) with
  | Returned (p, r) => Returned (set p s, r)
  | Panicked => Panicked
  | Unfinished => Unfinished
  end.

Lemma method_bind_Returned {S E A B} (m : method S E A) (f : A → method S E B) s s' b :
  (m ≫= f) s = Returned (s', Ok b) ↔
  ∃ s1 a, m s = Returned (s1, Ok a) ∧ f a s1 = Returned (s', Ok b).
Proof.
  unfold mbind, method_bind. destruct (m s) as [[s1 [a|e]]| |]; naive_solver.
Qed.

(** Opens a method known to have returned [Ok]. *)
Ltac method_inv :=
  repeat match goal with
  | H : (mbind _ _) _ = Returned (_, Ok _) |- _ =>
      apply method_bind_Returned in H; destruct H as (? & ? & ? & H)
  | H : try_ ?r _ = Returned (_, Ok _) |- _ => unfold try_ in H; injection H as <- H
  | H : call ?o _ = Returned (_, Ok _) |- _ =>
      unfold call in H; destruct o eqn:?; [injection H as <- <-|discriminate H]
  | H : get_self _ = Returned (_, Ok _) |- _ => injection H as <- <-
  | H : set_self _ _ = Returned (_, Ok _) |- _ => injection H as <- <-
  | H : mret _ _ = Returned (_, Ok _) |- _ => injection H as <- <-
  | H : fail _ _ = Returned (_, Ok _) |- _ => discriminate H
  end.

(** What holds of the object and the result when a method returns; [Q] after [Ok],
    [R] after an error. *)
Definition mwp {S E A} (m : method S E A) (Q : A → S → Prop) (R : E → S → Prop) (s : S) : Prop :=
  match m s with
  | Returned (s', Ok a) => Q a s'
  | Returned (s', Err e) => R e s'
  | Panicked | Unfinished => True
  end.

Section mwp.
Context {S E : Type}.
Implicit Types (s : S).

Lemma mwp_bind {A B} (m : method S E A) (f : A → method S E B) Q R s :
  mwp m (λ a s', mwp (f a) Q R s') R s → mwp (m ≫= f) Q R s.
Proof. unfold mwp, mbind, method_bind. by destruct (m s) as [[s' [a|e]]| |]. Qed.

Lemma mwp_ret {A} (a : A) (Q : A → S → Prop) (R : E → S → Prop) s :
  Q a s → mwp (mret a) Q R s.
Proof. done. Qed.

Lemma mwp_try {A} (r : result E A) (Q : A → S → Prop) (R : E → S → Prop) s :
  (∀ a, r = Ok a → Q a s) → (∀ e, r = Err e → R e s) → mwp (try_ r) Q R s.
Proof. intros HQ HR. unfold mwp, try_. destruct r; auto. Qed.

Lemma mwp_fail {A} (e : E) (Q : A → S → Prop) (R : E → S → Prop) s :
  R e s → mwp (fail e) Q R s.
Proof. done. Qed.

Lemma mwp_call {A} (o : outcome A) (Q : A → S → Prop) (R : E → S → Prop) s :
  (∀ a, o = Return a → Q a s) → mwp (call o) Q R s.
Proof. intros HQ. unfold mwp, call. destruct o; auto. Qed.

Lemma mwp_get (Q : S → S → Prop) (R : E → S → Prop) s : Q s s → mwp get_self Q R s.
Proof. done. Qed.

Lemma mwp_set s' (Q : unit → S → Prop) (R : E → S → Prop) s : Q () s' → mwp (set_self s') Q R s.
Proof. done. Qed.

Lemma mwp_or_else {F A} (m : method S F A) (f : F → result E A) (Q : A → S → Prop)
    (R : E → S → Prop) s :
  mwp m Q (λ e s', match f e with Ok a => Q a s' | Err e' => R e' s' end) s →
  mwp (or_else m f) Q R s.
Proof.
  unfold mwp, or_else. destruct (m s) as [[s' [a|e]]| |]; [done| |done|done].
  by destruct (f e).
Qed.

Lemma mwp_mono {A} (m : method S E A) (Q Q' : A → S → Prop) (R R' : E → S → Prop) s :
  mwp m Q R s → (∀ a s', Q a s' → Q' a s') → (∀ e s', R e s' → R' e s') → mwp m Q' R' s.
Proof. unfold mwp. destruct (m s) as [[s' [a|e]]| |]; auto. Qed.

Lemma mwp_Returned {A} (m : method S E A) Q R s s' r :
  mwp m Q R s → m s = Returned (s', r) →
  match r with Ok a => Q a s' | Err e => R e s' end.
Proof. unfold mwp. intros H Hm. rewrite Hm in H. by destruct r. Qed.
End mwp.

(** One step through the body of a method. *)
Ltac mwp_step :=
  lazymatch goal with
  | |- mwp (mbind _ _) _ _ _ => apply mwp_bind
  | |- mwp (mret _) _ _ _ => apply mwp_ret
  | |- mwp (try_ _) _ _ _ => apply mwp_try; [intros ? ?|intros ? ?]
  | |- mwp (fail _) _ _ _ => apply mwp_fail
  | |- mwp (call _) _ _ _ => apply mwp_call; intros ? ?
  | |- mwp get_self _ _ _ => apply mwp_get
  | |- mwp (set_self _) _ _ _ => apply mwp_set
  | |- mwp (or_else _ _) _ _ _ => apply mwp_or_else
  | |- mwp (match decide ?P with _ => _ end) _ _ _ => destruct (decide P)
  | |- mwp (match ?x with _ => _ end) _ _ _ => destruct x eqn:?
  end.

(** ** Actors *)

Inductive ActorError :=
| ActorInternal
| ActorConfigLoading
| ActorSnapshotLoading.

(** What an actor can read through its context at the time of a call. *)
Record ActorContext := {
  ctx_id : Z;
  ctx_instant : Z;
  ctx_config : bytes;
  ctx_leader : bool
}.

Record ActorCommand := {
  command_correlation_id : Z;
  command_header : bytes;
  command_payload : bytes
}.

Definition command_with_header {H} `{!ProtoCodec H} (correlation_id : Z) (header : H)
    : ActorCommand :=
  {| command_correlation_id := correlation_id;
     command_header := proto_encode header;
     command_payload := [] |}.

Definition command_with_header_and_payload {H} `{!ProtoCodec H} (correlation_id : Z)
    (header : H) (payload : bytes) : ActorCommand :=
  {| command_correlation_id := correlation_id;
     command_header := proto_encode header;
     command_payload := payload |}.

Record ActorEvent := {
  event_correlation_id : Z;
  event_contents : bytes
}.

Definition event_with_bytes (correlation_id : Z) (contents : bytes) : ActorEvent :=
  {| event_correlation_id := correlation_id; event_contents := contents |}.

Definition event_with_proto {P} `{!ProtoCodec P} (correlation_id : Z) (proto : P) : ActorEvent :=
  {| event_correlation_id := correlation_id; event_contents := proto_encode proto |}.

Record ActorEventContext := { ec_index : Z; ec_owned : bool }.

Record CommandOutcome := {
  co_commands : list ActorCommand;
  co_event : option ActorEvent
}.

Definition co_with_none : CommandOutcome := {| co_commands := []; co_event := None |}.

Definition co_with_command (command : ActorCommand) : CommandOutcome :=
  {| co_commands := [command]; co_event := None |}.

Definition co_with_commands (commands : list ActorCommand) : CommandOutcome :=
  {| co_commands := commands; co_event := None |}.

Definition co_with_event (event : ActorEvent) : CommandOutcome :=
  {| co_commands := []; co_event := Some event |}.

Definition co_with_command_and_event (command : ActorCommand) (event : ActorEvent)
    : CommandOutcome :=
  {| co_commands := [command]; co_event := Some event |}.

Record EventOutcome := { eo_commands : list ActorCommand }.

Definition eo_with_none : EventOutcome := {| eo_commands := [] |}.

Definition eo_with_command (command : ActorCommand) : EventOutcome :=
  {| eo_commands := [command] |}.

Definition eo_with_commands (commands : list ActorCommand) : EventOutcome :=
  {| eo_commands := commands |}.

(** An actor whose object is [S]; [Entropy] is what its calls draw from the system's
    random generator, [ActorContext] what the context answers during the call. *)
Class Actor (Entropy S : Type) : Type := {
  on_init : ActorContext → method S ActorError unit;
  on_shutdown : S → S;
  on_save_snapshot : ActorContext → method S ActorError bytes;
  on_load_snapshot : ActorContext → bytes → method S ActorError unit;
  on_process_command :
    ActorContext → Entropy → option ActorCommand → method S ActorError CommandOutcome;
  on_apply_event :
    ActorContext → Entropy → ActorEventContext → ActorEvent → method S ActorError EventOutcome
}.
