(* ===== verification/Consensus.v ===== *)
(** * Consensus interfaces and the wrapper around the Raft library

    [src/runtime/src/consensus.rs] and the message helpers of
    [src/runtime/src/util.rs].  The Raft library itself is third party: the node it
    provides is the class [RawNode], whose operations may panic; [RaftSimple]
    implements the runtime's [Raft] interface on top of it. *)

From S2P Require Import Prelude RaftTypes Storage.

(** ** Messages of the Raft library *)

Inductive RaftMessageType := MsgSnapshot | MsgOther (n : Z).

#[global] Instance RaftMessageType_eq_dec : EqDecision RaftMessageType.
Proof. solve_decision. Defined.

(** The fields the runtime reads and writes; the others stay encoded. *)
Record RaftMessage := {
  rm_msg_type : RaftMessageType;
  rm_to : Z;
  rm_from : Z;
  rm_snapshot : option RaftSnapshot;
  rm_rest : bytes
}.

Inductive RaftConfigChangeType := AddNode | RemoveNode | AddLearnerNode.

Record RaftConfigChange := {
  rcc_change_type : RaftConfigChangeType;
  rcc_node_id : Z;
  rcc_rest : bytes
}.

Definition create_raft_config_change (node_id : Z) (change_type : RaftConfigChangeType)
    : RaftConfigChange :=
  {| rcc_change_type := change_type; rcc_node_id := node_id; rcc_rest := [] |}.

Definition create_raft_message (node_from node_to : Z) (message_type : RaftMessageType)
    : RaftMessage :=
  {| rm_msg_type := message_type; rm_to := node_to; rm_from := node_from;
     rm_snapshot := None; rm_rest := [] |}.

Record EntryId := { ei_replica_id : Z; ei_entry_id : Z }.

Record Entry := { en_entry_id : option EntryId; en_entry_contents : bytes }.

Definition create_entry_id (node_id entry_id : Z) : EntryId :=
  {| ei_replica_id := node_id; ei_entry_id := entry_id |}.

Definition create_entry (entry_id : EntryId) (entry_contents : bytes) : Entry :=
  {| en_entry_id := Some entry_id; en_entry_contents := entry_contents |}.

(** The parts of the library's configuration that the runtime sets. *)
Record RaftLibConfig := {
  rlc_id : Z;
  rlc_election_tick : option Z;
  rlc_heartbeat_tick : option Z;
  rlc_max_size_per_msg : option Z
}.

(** ** Interfaces *)

Class Store (St : Type) : Type := {
  store_set_hard_state : St → RaftHardState → St;
  store_append_entries : St → list RaftEntry → outcome (St * result RaftError unit);
  store_apply_snapshot : St → RaftSnapshot → outcome (St * result RaftError unit);
  store_should_snapshot : St → Z → RaftConfigState → outcome bool;
  store_create_snapshot :
    St → Z → RaftConfigState → bytes → outcome (St * result RaftError unit);
  store_latest_snapshot_size : St → Z
}.

#[global] Instance MemoryStorage_Store : Store MemoryStorageCore :=
  {| store_set_hard_state := set_hard_state;
     store_append_entries := append_entries;
     store_apply_snapshot := apply_snapshot;
     store_should_snapshot := should_snapshot;
     store_create_snapshot := create_snapshot;
     store_latest_snapshot_size := latest_snapshot_size |}.

Record RaftState := {
  rst_leader_replica_id : Z;
  rst_leader_term : Z;
  rst_committed_cluster_config : list Z;
  rst_has_pending_change : bool
}.

#[global] Instance RaftState_eq_dec : EqDecision RaftState.
Proof. solve_decision. Defined.

Definition raft_state_new : RaftState :=
  {| rst_leader_replica_id := 0; rst_leader_term := 0; rst_committed_cluster_config := [];
     rst_has_pending_change := false |}.

Record RaftReady := {
  rr_messages : list RaftMessage;
  rr_persisted_messages : list RaftMessage;
  rr_entries : list RaftEntry;
  rr_committed_entries : list RaftEntry;
  rr_hard_state : option RaftHardState;
  rr_snapshot : RaftSnapshot;
  rr_number : Z
}.

Record RaftLightReady := {
  rl_messages : list RaftMessage;
  rl_committed_entries : list RaftEntry
}.

(** The interface the driver uses; the store is reached through the node. *)
Class Raft (R St : Type) : Type := {
  raft_initialized : R → bool;
  raft_leader : R → bool;
  raft_state : R → outcome RaftState;
  raft_store : R → outcome St;
  raft_set_store : R → St → outcome R;
  raft_init : R → Z → RaftLibConfig → bytes → bool → St → outcome (R * result RaftError unit);
  raft_make_step : R → RaftMessage → outcome (R * result RaftError unit);
  raft_make_proposal : R → bytes → outcome (R * result RaftError unit);
  raft_make_config_change_proposal :
    R → RaftConfigChange → outcome (R * result RaftError unit);
  raft_make_tick : R → outcome R;
  raft_apply_config_change : R → RaftConfigChange → outcome (R * result RaftError RaftConfigState);
  raft_has_ready : R → outcome bool;
  raft_get_ready : R → outcome (R * RaftReady);
  raft_advance_ready : R → RaftReady → outcome (R * RaftLightReady);
  raft_advance_apply : R → outcome R;
  raft_report_snapshot : R → Z → RaftSnapshotStatus → outcome R
}.

(** ** The wrapper *)

(** The node of the Raft library, with what its status reports. *)
Class RawNode (N St Ready : Type) : Type := {
  node_new : RaftLibConfig → St → result RaftError N;
  node_is_leader : N → bool;
  node_leader_id : N → Z;
  node_term : N → Z;
  node_has_pending_conf : N → bool;
  node_store : N → St;
  node_set_store : N → St → N;
  node_step : N → RaftMessage → outcome (N * result RaftError unit);
  node_propose : N → bytes → outcome (N * result RaftError unit);
  node_propose_conf_change : N → RaftConfigChange → outcome (N * result RaftError unit);
  node_tick : N → outcome N;
  node_apply_conf_change : N → RaftConfigChange → outcome (N * result RaftError RaftConfigState);
  node_has_ready : N → bool;
  (* the ready the library keeps, and what is taken out of it *)
  node_ready : N → outcome (N * Ready * RaftReady);
  node_advance : N → Ready → outcome (N * RaftLightReady);
  node_advance_apply : N → outcome N;
  node_report_snapshot : N → Z → RaftSnapshotStatus → outcome N
}.

Section raft_simple.
Context {N St Ready : Type} `{!Store St, !RawNode N St Ready}.

Record RaftSimple := {
  rs_raft_node : option N;
  rs_raft_ready : gmap Z Ready
}.

Definition raft_simple_new : RaftSimple := {| rs_raft_node := None; rs_raft_ready := ∅ |}.

Definition with_node (r : RaftSimple) (n : N) : RaftSimple :=
  {| rs_raft_node := Some n; rs_raft_ready := rs_raft_ready r |}.

(** [mut_raft_node], which panics unless the node is initialised. *)
Definition raft_node (r : RaftSimple) : outcome N := unwrap (rs_raft_node r).

(** A call on the node that gives a result. *)
Definition on_node {A} (r : RaftSimple) (f : N → outcome (N * A)) : outcome (RaftSimple * A) :=
  n ← raft_node r; '(n, a) ← f n; Return (with_node r n, a).

Definition on_node_ (r : RaftSimple) (f : N → outcome N) : outcome RaftSimple :=
  n ← raft_node r; n ← f n; Return (with_node r n).

Definition simple_initialized (r : RaftSimple) : bool := bool_decide (is_Some (rs_raft_node r)).

Definition simple_leader (r : RaftSimple) : bool :=
  match rs_raft_node r with Some n => node_is_leader n | None => false end.

Definition simple_state (r : RaftSimple) : outcome RaftState :=
  n ← raft_node r;
  Return
    (if node_is_leader n
     then {| rst_leader_replica_id := node_leader_id n;
             rst_leader_term := node_term n;
             rst_committed_cluster_config := [];
             rst_has_pending_change := node_has_pending_conf n |}
     else raft_state_new).

Definition simple_store (r : RaftSimple) : outcome St := n ← raft_node r; Return (node_store n).

Definition simple_set_store (r : RaftSimple) (st : St) : outcome RaftSimple :=
  n ← raft_node r; Return (with_node r (node_set_store n st)).

(** A leader starts from the actor's snapshot at index and term one. *)
Definition simple_init (r : RaftSimple) (replica_id : Z) (config : RaftLibConfig)
    (snapshot : bytes) (leader : bool) (store : St) : outcome (RaftSimple * result RaftError unit) :=
  '(store, res) ←
    (if leader
     then store_apply_snapshot store
            (create_raft_snapshot
               (create_raft_snapshot_metadata 1 1 (create_raft_config_state [replica_id]))
               snapshot)
     else Return (store, Ok ()));
  match res with
  | Err e => Return (r, Err e)
  | Ok _ =>
      match node_new config store with
      | Err e => Return (r, Err e)
      | Ok n => Return (with_node r n, Ok ())
      end
  end.

Definition simple_make_step (r : RaftSimple) (message : RaftMessage) :=
  on_node r (λ n, node_step n message).

Definition simple_make_proposal (r : RaftSimple) (proposal : bytes) :=
  on_node r (λ n, node_propose n proposal).

Definition simple_make_config_change_proposal (r : RaftSimple) (config_change : RaftConfigChange) :=
  on_node r (λ n, node_propose_conf_change n config_change).

Definition simple_make_tick (r : RaftSimple) : outcome RaftSimple := on_node_ r node_tick.

Definition simple_apply_config_change (r : RaftSimple) (config_change : RaftConfigChange) :=
  on_node r (λ n, node_apply_conf_change n config_change).

Definition simple_has_ready (r : RaftSimple) : outcome bool :=
  n ← raft_node r; Return (node_has_ready n).

Definition simple_get_ready (r : RaftSimple) : outcome (RaftSimple * RaftReady) :=
  n ← raft_node r;
  '(n, ready, raft_ready) ← node_ready n;
  Return ({| rs_raft_node := Some n;
             rs_raft_ready := <[rr_number raft_ready := ready]> (rs_raft_ready r) |}, raft_ready).

Definition simple_advance_ready (r : RaftSimple) (raft_ready : RaftReady)
    : outcome (RaftSimple * RaftLightReady) :=
  ready ← unwrap (rs_raft_ready r !! rr_number raft_ready);
  n ← raft_node r;
  '(n, light_ready) ← node_advance n ready;
  Return ({| rs_raft_node := Some n;
             rs_raft_ready := delete (rr_number raft_ready) (rs_raft_ready r) |}, light_ready).

Definition simple_advance_apply (r : RaftSimple) : outcome RaftSimple := on_node_ r node_advance_apply.

Definition simple_report_snapshot (r : RaftSimple) (replica_id : Z) (status : RaftSnapshotStatus) :=
  on_node_ r (λ n, node_report_snapshot n replica_id status).

#[global] Instance RaftSimple_Raft : Raft RaftSimple St :=
  {| raft_initialized := simple_initialized;
     raft_leader := simple_leader;
     raft_state := simple_state;
     raft_store := simple_store;
     raft_set_store := simple_set_store;
     raft_init := simple_init;
     raft_make_step := simple_make_step;
     raft_make_proposal := simple_make_proposal;
     raft_make_config_change_proposal := simple_make_config_change_proposal;
     raft_make_tick := simple_make_tick;
     raft_apply_config_change := simple_apply_config_change;
     raft_has_ready := simple_has_ready;
     raft_get_ready := simple_get_ready;
     raft_advance_ready := simple_advance_ready;
     raft_advance_apply := simple_advance_apply;
     raft_report_snapshot := simple_report_snapshot |}.

(** *** The readies that are out *)

(** The calls between taking a ready and advancing over it. *)
Inductive simple_op : RaftSimple → RaftSimple → Prop :=
| op_set_store r st r' : simple_set_store r st = Return r' → simple_op r r'
| op_step r message r' x : simple_make_step r message = Return (r', x) → simple_op r r'
| op_proposal r proposal r' x : simple_make_proposal r proposal = Return (r', x) → simple_op r r'
| op_config_proposal r change r' x :
    simple_make_config_change_proposal r change = Return (r', x) → simple_op r r'
| op_tick r r' : simple_make_tick r = Return r' → simple_op r r'
| op_config_change r change r' x :
    simple_apply_config_change r change = Return (r', x) → simple_op r r'
| op_report r id status r' : simple_report_snapshot r id status = Return r' → simple_op r r'.

Lemma on_node_keeps {A} r (f : N → outcome (N * A)) r' x :
  on_node r f = Return (r', x) → is_Some (rs_raft_node r') ∧ rs_raft_ready r' = rs_raft_ready r.
Proof.
  unfold on_node. intros H. outcome_inv. destruct x1. outcome_inv. simplify_eq. by split; [eexists|].
Qed.

Lemma on_node_keeps_ r (f : N → outcome N) r' :
  on_node_ r f = Return r' → is_Some (rs_raft_node r') ∧ rs_raft_ready r' = rs_raft_ready r.
Proof. unfold on_node_. intros H. outcome_inv. simplify_eq. by split; [eexists|]. Qed.

Lemma simple_op_keeps r r' :
  simple_op r r' → is_Some (rs_raft_node r') ∧ rs_raft_ready r' = rs_raft_ready r.
Proof.
  destruct 1 as [r st r' H|r message r' x H|r proposal r' x H|r change r' x H|r r' H
    |r change r' x H|r id status r' H];
    try (exact (on_node_keeps _ _ _ _ H) || exact (on_node_keeps_ _ _ _ H)).
  unfold simple_set_store in H. outcome_inv. simplify_eq. by split; [eexists|].
Qed.

(** The ready that the library handed out is the one that comes back to it, whatever
    the driver did to the node in between; then nothing of it is kept. *)
Lemma ready_handed_back r r1 raft_ready r2 taken :
  simple_get_ready r = Return (r1, raft_ready) → rtc simple_op r1 r2 →
  rr_number taken = rr_number raft_ready →
  ∃ n n1 ready n2, rs_raft_node r = Some n ∧ node_ready n = Return (n1, ready, raft_ready) ∧
    rs_raft_node r2 = Some n2 ∧
    simple_advance_ready r2 taken =
    ('(n3, light_ready) ← node_advance n2 ready;
     Return ({| rs_raft_node := Some n3;
                rs_raft_ready := delete (rr_number raft_ready) (rs_raft_ready r) |}, light_ready)).
Proof.
  unfold simple_get_ready, raft_node, unwrap. intros H Hops Hnum.
  destruct (rs_raft_node r) as [n|] eqn:En; [|done]. simpl in H.
  destruct (node_ready n) as [[[n1 ready] rd]|] eqn:Er; [|done]. simpl in H.
  injection H as <- <-.
  assert (is_Some (rs_raft_node r2) ∧ rs_raft_ready r2 = <[rr_number rd := ready]> (rs_raft_ready r))
    as [[n2 En2] Hr2].
  { revert Hops. match goal with |- rtc _ ?x _ → _ => remember x as r1 eqn:Hr1 end. intros Hops.
    assert (is_Some (rs_raft_node r1)) as Hn1 by (rewrite Hr1; by eexists).
    assert (rs_raft_ready r1 = <[rr_number rd := ready]> (rs_raft_ready r)) as <- by by rewrite Hr1.
    clear Hr1. induction Hops as [|a b c Hab _ IH]; [done|].
    destruct (simple_op_keeps a b Hab) as [Hb <-]. by apply IH. }
  exists n, n1, ready, n2. split_and!; [done..|].
  unfold simple_advance_ready, raft_node, unwrap. rewrite Hnum, Hr2, lookup_insert_eq, En2. simpl.
  by rewrite delete_insert_eq.
Qed.
End raft_simple.

(** ** Countability, for concrete codecs *)

#[global] Instance RaftSnapshot_eq_dec : EqDecision RaftSnapshot.
Proof. solve_decision. Defined.
#[global] Instance RaftSnapshot_countable : Countable RaftSnapshot :=
  inj_countable' (λ s, (snap_data s, snap_metadata s)) (λ '(a, b), Build_RaftSnapshot a b)
    ltac:(by intros []).
#[global] Instance RaftMessageType_countable : Countable RaftMessageType :=
  inj_countable' (λ t, match t with MsgSnapshot => None | MsgOther n => Some n end)
    (λ t, match t with None => MsgSnapshot | Some n => MsgOther n end) ltac:(by intros []).
#[global] Instance RaftMessage_eq_dec : EqDecision RaftMessage.
Proof. solve_decision. Defined.
#[global] Instance RaftMessage_countable : Countable RaftMessage :=
  inj_countable' (λ m, (rm_msg_type m, rm_to m, rm_from m, rm_snapshot m, rm_rest m))
    (λ '(a, b, c, d, e), Build_RaftMessage a b c d e) ltac:(by intros []).
#[global] Instance RaftConfigChangeType_eq_dec : EqDecision RaftConfigChangeType.
Proof. solve_decision. Defined.
#[global] Instance RaftConfigChangeType_countable : Countable RaftConfigChangeType :=
  inj_countable' (λ t, match t with AddNode => None | RemoveNode => Some true
                                  | AddLearnerNode => Some false end)
    (λ t, match t with None => AddNode | Some true => RemoveNode
                     | Some false => AddLearnerNode end) ltac:(by intros []).
#[global] Instance RaftConfigChange_eq_dec : EqDecision RaftConfigChange.
Proof. solve_decision. Defined.
#[global] Instance RaftConfigChange_countable : Countable RaftConfigChange :=
  inj_countable' (λ c, (rcc_change_type c, rcc_node_id c, rcc_rest c))
    (λ '(a, b, c), Build_RaftConfigChange a b c) ltac:(by intros []).
#[global] Instance EntryId_eq_dec : EqDecision EntryId.
Proof. solve_decision. Defined.
#[global] Instance EntryId_countable : Countable EntryId :=
  inj_countable' (λ i, (ei_replica_id i, ei_entry_id i)) (λ '(a, b), Build_EntryId a b)
    ltac:(by intros []).
#[global] Instance Entry_eq_dec : EqDecision Entry.
Proof. solve_decision. Defined.
#[global] Instance Entry_countable : Countable Entry :=
  inj_countable' (λ e, (en_entry_id e, en_entry_contents e)) (λ '(a, b), Build_Entry a b)
    ltac:(by intros []).
