(* ===== verification/Driver.v ===== *)
(** * The driver

    [src/runtime/src/driver.rs]: the event loop that receives a message and a time
    from the host, runs the actor, Raft, the snapshot processor and the
    communication module, and hands the host what they produced.  The parts are used
    through their interfaces; what the actor draws at random is an argument, and so
    are the log lines that the logger has collected. *)

From S2P Require Import Prelude RaftTypes Storage Endpoint F64 Snapshot Handshake Communication Model Consensus.

(** ** Interfaces of the parts *)

Class SnapshotSender (Sd : Type) : Type := {
  snapshot_start : Sd → Z → RaftSnapshot → outcome Sd;
  snapshot_next_request : Sd → outcome (Sd * option DeliverSnapshotRequest);
  snapshot_process_response :
    Sd → Z → Z → result SnapshotError DeliverSnapshotResponse → Sd;
  snapshot_process_unexpected_request :
    Sd → DeliverSnapshotRequest → Sd * DeliverSnapshotResponse;
  snapshot_sender_try_complete : Sd → Sd * option (Z * RaftSnapshotStatus)
}.

Class SnapshotReceiver (Rc : Type) : Type := {
  snapshot_process_request :
    Rc → DeliverSnapshotRequest → outcome (Rc * DeliverSnapshotResponse);
  snapshot_receiver_try_complete :
    Rc → outcome (Rc * option (result SnapshotError (Z * RaftSnapshot)))
}.

(** The processor hands out its current role; what the borrower did to it is put
    back. *)
Class SnapshotProcessor (P Sd Rc : Type) : Type := {
  snapshot_init : P → Z → option SnapshotConfig → outcome P;
  snapshot_cluster_change : P → Z → Z → list Z → outcome (P * list (Z * RaftSnapshotStatus));
  snapshot_role : P → Z → outcome (P * (Sd + Rc));
  snapshot_put_back : P → Sd + Rc → P
}.

Section communication_interface.
Context {OS : OakSession}.

Class CommunicationModule (C : Type) : Type := {
  communication_init : C → Z → option CommunicationConfig → C;
  communication_process_out : C → OutMsg → outcome (C * result PalError unit);
  communication_process_in : C → InMsg → outcome (C * result PalError (option InMsg));
  communication_take_out : C → outcome (C * list OutMessage);
  communication_cluster_change : C → list Z → C;
  communication_make_tick : C → C
}.
End communication_interface.

(** ** State *)

Record DriverContextCore := {
  dc_id : Z;
  dc_instant : Z;
  dc_config : bytes;
  dc_leader : bool;
  dc_proposals : list bytes
}.

Definition core_new : DriverContextCore :=
  {| dc_id := 0; dc_instant := 0; dc_config := []; dc_leader := false; dc_proposals := [] |}.

Definition core_set_state (c : DriverContextCore) (instant : Z) (leader : bool)
    : DriverContextCore :=
  {| dc_id := dc_id c; dc_instant := instant; dc_config := dc_config c; dc_leader := leader;
     dc_proposals := dc_proposals c |}.

Definition core_set_immutable_state (c : DriverContextCore) (id : Z) (config : bytes)
    : DriverContextCore :=
  {| dc_id := id; dc_instant := dc_instant c; dc_config := config; dc_leader := dc_leader c;
     dc_proposals := dc_proposals c |}.

Definition core_append_proposal (c : DriverContextCore) (proposal : bytes) : DriverContextCore :=
  {| dc_id := dc_id c; dc_instant := dc_instant c; dc_config := dc_config c;
     dc_leader := dc_leader c; dc_proposals := dc_proposals c ++ [proposal] |}.

Definition core_take_outputs (c : DriverContextCore) : DriverContextCore * list bytes :=
  ({| dc_id := dc_id c; dc_instant := dc_instant c; dc_config := dc_config c;
      dc_leader := dc_leader c; dc_proposals := [] |}, dc_proposals c).

(** What the actor reads through its context. *)
Definition core_context (c : DriverContextCore) : ActorContext :=
  {| ctx_id := dc_id c; ctx_instant := dc_instant c; ctx_config := dc_config c;
     ctx_leader := dc_leader c |}.

Inductive DriverState := DriverCreated | DriverStarted | DriverStopped.

#[global] Instance DriverState_eq_dec : EqDecision DriverState.
Proof. solve_decision. Defined.

Record DriverConfig := { dcfg_tick_period : Z; dcfg_snapshot_count : Z }.

Record RaftProgress := { rp_applied_index : Z; rp_config_state : RaftConfigState }.

Definition raft_progress_new : RaftProgress :=
  {| rp_applied_index := 0; rp_config_state := default_config_state |}.

Definition ChangeStatusPending : Z := 1.

Definition ChangeStatusRejected : Z := 2.

Definition ChangeTypeAddReplica : Z := 1.

Definition ChangeTypeRemoveReplica : Z := 2.

Section driver.
Context {OS : OakSession} {R St P Sd Rc A Ent C : Type}.
Context `{HRaft : !Raft R St, HStore : !Store St, HSender : !SnapshotSender Sd,
          HReceiver : !SnapshotReceiver Rc, HProc : !SnapshotProcessor P Sd Rc,
          HActor : !Actor Ent A, HComm : !CommunicationModule C}.
Context `{HMsg : !ProtoCodec RaftMessage, HChange : !ProtoCodec RaftConfigChange,
          HEntry : !ProtoCodec Entry}.
(** The constructor of stores, given the number of entries between snapshots. *)
Variable create_store : Z → St.
(** [RaftSnapshot::is_empty] of the Raft library. *)
Variable snapshot_is_empty : RaftSnapshot → bool.
(** How often the loop over the sender's requests may run. *)
Variable request_fuel : nat.

Record Driver := {
  dr_core : DriverContextCore;
  dr_driver_config : DriverConfig;
  dr_driver_state : DriverState;
  dr_messages : list OutMessage;
  dr_snapshots : list RaftMessage;
  dr_id : Z;
  dr_instant : Z;
  dr_tick_instant : Z;
  dr_raft : R;
  dr_snapshot : P;
  dr_actor : A;
  dr_raft_state : RaftState;
  dr_prev_raft_state : RaftState;
  dr_raft_progress : RaftProgress;
  dr_communication : C;
  dr_is_ephemeral : bool
}.

Definition set_driver_core (x : DriverContextCore) (d : Driver) : Driver :=
  {| dr_core := x; dr_driver_config := dr_driver_config d;
     dr_driver_state := dr_driver_state d; dr_messages := dr_messages d;
     dr_snapshots := dr_snapshots d; dr_id := dr_id d; dr_instant := dr_instant d;
     dr_tick_instant := dr_tick_instant d; dr_raft := dr_raft d;
     dr_snapshot := dr_snapshot d; dr_actor := dr_actor d; dr_raft_state := dr_raft_state d;
     dr_prev_raft_state := dr_prev_raft_state d; dr_raft_progress := dr_raft_progress d;
     dr_communication := dr_communication d; dr_is_ephemeral := dr_is_ephemeral d |}.

Definition set_driver_config (x : DriverConfig) (d : Driver) : Driver :=
  {| dr_core := dr_core d; dr_driver_config := x; dr_driver_state := dr_driver_state d;
     dr_messages := dr_messages d; dr_snapshots := dr_snapshots d; dr_id := dr_id d;
     dr_instant := dr_instant d; dr_tick_instant := dr_tick_instant d; dr_raft := dr_raft d;
     dr_snapshot := dr_snapshot d; dr_actor := dr_actor d; dr_raft_state := dr_raft_state d;
     dr_prev_raft_state := dr_prev_raft_state d; dr_raft_progress := dr_raft_progress d;
     dr_communication := dr_communication d; dr_is_ephemeral := dr_is_ephemeral d |}.

Definition set_driver_state (x : DriverState) (d : Driver) : Driver :=
  {| dr_core := dr_core d; dr_driver_config := dr_driver_config d; dr_driver_state := x;
     dr_messages := dr_messages d; dr_snapshots := dr_snapshots d; dr_id := dr_id d;
     dr_instant := dr_instant d; dr_tick_instant := dr_tick_instant d; dr_raft := dr_raft d;
     dr_snapshot := dr_snapshot d; dr_actor := dr_actor d; dr_raft_state := dr_raft_state d;
     dr_prev_raft_state := dr_prev_raft_state d; dr_raft_progress := dr_raft_progress d;
     dr_communication := dr_communication d; dr_is_ephemeral := dr_is_ephemeral d |}.

Definition set_driver_messages (x : list OutMessage) (d : Driver) : Driver :=
  {| dr_core := dr_core d; dr_driver_config := dr_driver_config d;
     dr_driver_state := dr_driver_state d; dr_messages := x; dr_snapshots := dr_snapshots d;
     dr_id := dr_id d; dr_instant := dr_instant d; dr_tick_instant := dr_tick_instant d;
     dr_raft := dr_raft d; dr_snapshot := dr_snapshot d; dr_actor := dr_actor d;
     dr_raft_state := dr_raft_state d; dr_prev_raft_state := dr_prev_raft_state d;
     dr_raft_progress := dr_raft_progress d; dr_communication := dr_communication d;
     dr_is_ephemeral := dr_is_ephemeral d |}.

Definition set_driver_snapshots (x : list RaftMessage) (d : Driver) : Driver :=
  {| dr_core := dr_core d; dr_driver_config := dr_driver_config d;
     dr_driver_state := dr_driver_state d; dr_messages := dr_messages d; dr_snapshots := x;
     dr_id := dr_id d; dr_instant := dr_instant d; dr_tick_instant := dr_tick_instant d;
     dr_raft := dr_raft d; dr_snapshot := dr_snapshot d; dr_actor := dr_actor d;
     dr_raft_state := dr_raft_state d; dr_prev_raft_state := dr_prev_raft_state d;
     dr_raft_progress := dr_raft_progress d; dr_communication := dr_communication d;
     dr_is_ephemeral := dr_is_ephemeral d |}.

Definition set_driver_id (x : Z) (d : Driver) : Driver :=
  {| dr_core := dr_core d; dr_driver_config := dr_driver_config d;
     dr_driver_state := dr_driver_state d; dr_messages := dr_messages d;
     dr_snapshots := dr_snapshots d; dr_id := x; dr_instant := dr_instant d;
     dr_tick_instant := dr_tick_instant d; dr_raft := dr_raft d;
     dr_snapshot := dr_snapshot d; dr_actor := dr_actor d; dr_raft_state := dr_raft_state d;
     dr_prev_raft_state := dr_prev_raft_state d; dr_raft_progress := dr_raft_progress d;
     dr_communication := dr_communication d; dr_is_ephemeral := dr_is_ephemeral d |}.

Definition set_driver_instant (x : Z) (d : Driver) : Driver :=
  {| dr_core := dr_core d; dr_driver_config := dr_driver_config d;
     dr_driver_state := dr_driver_state d; dr_messages := dr_messages d;
     dr_snapshots := dr_snapshots d; dr_id := dr_id d; dr_instant := x;
     dr_tick_instant := dr_tick_instant d; dr_raft := dr_raft d;
     dr_snapshot := dr_snapshot d; dr_actor := dr_actor d; dr_raft_state := dr_raft_state d;
     dr_prev_raft_state := dr_prev_raft_state d; dr_raft_progress := dr_raft_progress d;
     dr_communication := dr_communication d; dr_is_ephemeral := dr_is_ephemeral d |}.

Definition set_tick_instant (x : Z) (d : Driver) : Driver :=
  {| dr_core := dr_core d; dr_driver_config := dr_driver_config d;
     dr_driver_state := dr_driver_state d; dr_messages := dr_messages d;
     dr_snapshots := dr_snapshots d; dr_id := dr_id d; dr_instant := dr_instant d;
     dr_tick_instant := x; dr_raft := dr_raft d; dr_snapshot := dr_snapshot d;
     dr_actor := dr_actor d; dr_raft_state := dr_raft_state d;
     dr_prev_raft_state := dr_prev_raft_state d; dr_raft_progress := dr_raft_progress d;
     dr_communication := dr_communication d; dr_is_ephemeral := dr_is_ephemeral d |}.

Definition set_driver_raft (x : R) (d : Driver) : Driver :=
  {| dr_core := dr_core d; dr_driver_config := dr_driver_config d;
     dr_driver_state := dr_driver_state d; dr_messages := dr_messages d;
     dr_snapshots := dr_snapshots d; dr_id := dr_id d; dr_instant := dr_instant d;
     dr_tick_instant := dr_tick_instant d; dr_raft := x; dr_snapshot := dr_snapshot d;
     dr_actor := dr_actor d; dr_raft_state := dr_raft_state d;
     dr_prev_raft_state := dr_prev_raft_state d; dr_raft_progress := dr_raft_progress d;
     dr_communication := dr_communication d; dr_is_ephemeral := dr_is_ephemeral d |}.

Definition set_driver_snapshot (x : P) (d : Driver) : Driver :=
  {| dr_core := dr_core d; dr_driver_config := dr_driver_config d;
     dr_driver_state := dr_driver_state d; dr_messages := dr_messages d;
     dr_snapshots := dr_snapshots d; dr_id := dr_id d; dr_instant := dr_instant d;
     dr_tick_instant := dr_tick_instant d; dr_raft := dr_raft d; dr_snapshot := x;
     dr_actor := dr_actor d; dr_raft_state := dr_raft_state d;
     dr_prev_raft_state := dr_prev_raft_state d; dr_raft_progress := dr_raft_progress d;
     dr_communication := dr_communication d; dr_is_ephemeral := dr_is_ephemeral d |}.

Definition set_driver_actor (x : A) (d : Driver) : Driver :=
  {| dr_core := dr_core d; dr_driver_config := dr_driver_config d;
     dr_driver_state := dr_driver_state d; dr_messages := dr_messages d;
     dr_snapshots := dr_snapshots d; dr_id := dr_id d; dr_instant := dr_instant d;
     dr_tick_instant := dr_tick_instant d; dr_raft := dr_raft d;
     dr_snapshot := dr_snapshot d; dr_actor := x; dr_raft_state := dr_raft_state d;
     dr_prev_raft_state := dr_prev_raft_state d; dr_raft_progress := dr_raft_progress d;
     dr_communication := dr_communication d; dr_is_ephemeral := dr_is_ephemeral d |}.

Definition set_raft_state (x : RaftState) (d : Driver) : Driver :=
  {| dr_core := dr_core d; dr_driver_config := dr_driver_config d;
     dr_driver_state := dr_driver_state d; dr_messages := dr_messages d;
     dr_snapshots := dr_snapshots d; dr_id := dr_id d; dr_instant := dr_instant d;
     dr_tick_instant := dr_tick_instant d; dr_raft := dr_raft d;
     dr_snapshot := dr_snapshot d; dr_actor := dr_actor d; dr_raft_state := x;
     dr_prev_raft_state := dr_prev_raft_state d; dr_raft_progress := dr_raft_progress d;
     dr_communication := dr_communication d; dr_is_ephemeral := dr_is_ephemeral d |}.

Definition set_prev_raft_state (x : RaftState) (d : Driver) : Driver :=
  {| dr_core := dr_core d; dr_driver_config := dr_driver_config d;
     dr_driver_state := dr_driver_state d; dr_messages := dr_messages d;
     dr_snapshots := dr_snapshots d; dr_id := dr_id d; dr_instant := dr_instant d;
     dr_tick_instant := dr_tick_instant d; dr_raft := dr_raft d;
     dr_snapshot := dr_snapshot d; dr_actor := dr_actor d; dr_raft_state := dr_raft_state d;
     dr_prev_raft_state := x; dr_raft_progress := dr_raft_progress d;
     dr_communication := dr_communication d; dr_is_ephemeral := dr_is_ephemeral d |}.

Definition set_raft_progress (x : RaftProgress) (d : Driver) : Driver :=
  {| dr_core := dr_core d; dr_driver_config := dr_driver_config d;
     dr_driver_state := dr_driver_state d; dr_messages := dr_messages d;
     dr_snapshots := dr_snapshots d; dr_id := dr_id d; dr_instant := dr_instant d;
     dr_tick_instant := dr_tick_instant d; dr_raft := dr_raft d;
     dr_snapshot := dr_snapshot d; dr_actor := dr_actor d; dr_raft_state := dr_raft_state d;
     dr_prev_raft_state := dr_prev_raft_state d; dr_raft_progress := x;
     dr_communication := dr_communication d; dr_is_ephemeral := dr_is_ephemeral d |}.

Definition set_communication (x : C) (d : Driver) : Driver :=
  {| dr_core := dr_core d; dr_driver_config := dr_driver_config d;
     dr_driver_state := dr_driver_state d; dr_messages := dr_messages d;
     dr_snapshots := dr_snapshots d; dr_id := dr_id d; dr_instant := dr_instant d;
     dr_tick_instant := dr_tick_instant d; dr_raft := dr_raft d;
     dr_snapshot := dr_snapshot d; dr_actor := dr_actor d; dr_raft_state := dr_raft_state d;
     dr_prev_raft_state := dr_prev_raft_state d; dr_raft_progress := dr_raft_progress d;
     dr_communication := x; dr_is_ephemeral := dr_is_ephemeral d |}.

Definition set_is_ephemeral (x : bool) (d : Driver) : Driver :=
  {| dr_core := dr_core d; dr_driver_config := dr_driver_config d;
     dr_driver_state := dr_driver_state d; dr_messages := dr_messages d;
     dr_snapshots := dr_snapshots d; dr_id := dr_id d; dr_instant := dr_instant d;
     dr_tick_instant := dr_tick_instant d; dr_raft := dr_raft d;
     dr_snapshot := dr_snapshot d; dr_actor := dr_actor d; dr_raft_state := dr_raft_state d;
     dr_prev_raft_state := dr_prev_raft_state d; dr_raft_progress := dr_raft_progress d;
     dr_communication := dr_communication d; dr_is_ephemeral := x |}.

#[local] Abbreviation Drv := (method Driver PalError).

Definition driver_new (raft : R) (snapshot : P) (actor : A) (communication : C) : Driver :=
  {| dr_core := core_new;
     dr_driver_config := {| dcfg_tick_period := 100; dcfg_snapshot_count := 1000 |};
     dr_driver_state := DriverCreated;
     dr_messages := []; dr_snapshots := []; dr_id := 0; dr_instant := 0; dr_tick_instant := 0;
     dr_raft := raft; dr_snapshot := snapshot; dr_actor := actor;
     dr_raft_state := raft_state_new; dr_prev_raft_state := raft_state_new;
     dr_raft_progress := raft_progress_new; dr_communication := communication;
     dr_is_ephemeral := false |}.

(** *** Calls on the parts *)

Definition modify (f : Driver → Driver) : Drv unit := λ d, Returned (f d, Ok ()).

Definition on_raft {X} (f : R → outcome (R * X)) : Drv X := λ d,
  match f (dr_raft d) with
  | Return (r, x) => Returned (set_driver_raft r d, Ok x)
  | Panic => Panicked
  end.

Definition on_raft_ (f : R → outcome R) : Drv unit :=
  on_raft (λ r, r ← f r; Return (r, ())).

(** A call on the node's store. *)
Definition on_store {X} (f : St → outcome (St * X)) : Drv X :=
  on_raft (λ r, st ← raft_store r; '(st, x) ← f st; r ← raft_set_store r st; Return (r, x)).

Definition read_store {X} (f : St → outcome X) : Drv X := λ d,
  match raft_store (dr_raft d) ≫= f with
  | Return x => Returned (d, Ok x)
  | Panic => Panicked
  end.

(** A call on the actor; its errors terminate the application. *)
Definition on_actor {X} (m : method A ActorError X) : Drv X := λ d,
  match m (dr_actor d) with
  | Returned (a, Ok x) => Returned (set_driver_actor a d, Ok x)
  | Returned (a, Err _) => Returned (set_driver_actor a d, Err PalActor)
  | Panicked => Panicked
  | Unfinished => Unfinished
  end.

(** A call on the communication module that can fail. *)
Definition on_communication {X} (f : C → outcome (C * result PalError X)) : Drv X := λ d,
  match f (dr_communication d) with
  | Return (c, r) => Returned (set_communication c d, r)
  | Panic => Panicked
  end.

(** A call on the snapshot processor in its current role. *)
Definition on_role {X} (f : Sd + Rc → exec ((Sd + Rc) * X)) : Drv X := λ d,
  match snapshot_role (dr_snapshot d) (dr_instant d) with
  | Return (p, role) =>
      match f role with
      | Returned (role, x) => Returned (set_driver_snapshot (snapshot_put_back p role) d, Ok x)
      | Panicked => Panicked
      | Unfinished => Unfinished
      end
  | Panic => Panicked
  end.

Definition stash_message (message : OutMsg) : Drv unit :=
  modify (λ d, set_driver_messages (dr_messages d ++ [{| out_msg := Some message |}]) d).

Definition stash_snapshot (snapshot_message : RaftMessage) : Drv unit :=
  modify (λ d, set_driver_snapshots (dr_snapshots d ++ [snapshot_message]) d).

(** A loop whose body is a method. *)
Fixpoint for_each {X} (f : X → Drv unit) (l : list X) : Drv unit :=
  match l with
  | [] => mret ()
  | x :: l => f x;; for_each f l
  end.

(** The commands of an actor, as messages for the consumer. *)
Definition stash_command (command : ActorCommand) : Drv unit :=
  stash_message (OutDeliverAppMessage
    {| app_correlation_id := command_correlation_id command;
       app_message_header := command_header command;
       app_message_payload := command_payload command |}).

(** *** Raft *)

Definition get_raft_state (d : Driver) : outcome RaftState :=
  raft_state ← raft_state (dr_raft d);
  Return
    (if decide (rst_leader_replica_id raft_state = dr_id d)
     then {| rst_leader_replica_id := rst_leader_replica_id raft_state;
             rst_leader_term := rst_leader_term raft_state;
             rst_committed_cluster_config := voters (rp_config_state (dr_raft_progress d));
             rst_has_pending_change := rst_has_pending_change raft_state |}
     else raft_state).

Definition initialize_raft_node (raft_config : option RaftConfig) (snapshot : bytes)
    (leader : bool) : Drv unit :=
  d ← get_self;
  let driver_config :=
    match raft_config with
    | Some rc =>
        {| dcfg_tick_period := rc_tick_period rc;
           dcfg_snapshot_count :=
             match rc_snapshot_config rc with
             | Some sc => cfg_snapshot_count sc
             | None => dcfg_snapshot_count (dr_driver_config d)
             end |}
    | None => dr_driver_config d
    end in
  let config :=
    match raft_config with
    | Some rc =>
        {| rlc_id := dr_id d; rlc_election_tick := Some (rc_election_tick rc);
           rlc_heartbeat_tick := Some (rc_heartbeat_tick rc);
           rlc_max_size_per_msg := Some (rc_max_size_per_msg rc) |}
    | None =>
        {| rlc_id := dr_id d; rlc_election_tick := None; rlc_heartbeat_tick := None;
           rlc_max_size_per_msg := None |}
    end in
  modify (set_driver_config driver_config);;
  r ← on_raft (λ raft, raft_init raft (dr_id d) config snapshot leader
                         (create_store (dcfg_snapshot_count driver_config)));
  try_ (map_err (λ _, PalRaft) r);;
  (if leader
   then modify (set_raft_progress
          {| rp_applied_index := 1; rp_config_state := create_raft_config_state [dr_id d] |})
   else mret ());;
  modify (λ d, set_tick_instant (dr_instant d) d);;
  d ← get_self;
  state ← call (get_raft_state d);
  modify (set_prev_raft_state state).

(** Messages that are not addressed to this replica, or not from the claimed sender,
    are only logged. *)
Definition make_raft_step (sender_replica_id recipient_replica_id : Z) (message_contents : bytes)
    : Drv unit :=
  match proto_decode message_contents with
  | None => mret ()
  | Some message =>
      r ← on_raft (λ raft, raft_make_step raft message);
      try_ (map_err (λ _, PalRaft) r)
  end.

Definition make_raft_proposal (proposal_contents : bytes) : Drv unit :=
  r ← on_raft (λ raft, raft_make_proposal raft proposal_contents);
  match r with
  | Ok _ => mret ()
  | Err _ => call Panic
  end.

Definition make_raft_config_change_proposal (node_id : Z) (change_type : RaftConfigChangeType)
    : Drv Z :=
  r ← on_raft (λ raft, raft_make_config_change_proposal raft
                         (create_raft_config_change node_id change_type));
  match r with
  | Ok _ => mret ChangeStatusPending
  | Err ProposalDropped => mret ChangeStatusRejected
  | Err _ => fail PalRaft
  end.

Definition trigger_raft_tick : Drv unit :=
  d ← get_self;
  if decide (dcfg_tick_period (dr_driver_config d) ≤ dr_instant d -₆₄ dr_tick_instant d) then
    modify (set_tick_instant (dr_instant d));;
    on_raft_ raft_make_tick
  else mret ().

Definition collect_config_state (config_state : RaftConfigState) : Drv unit :=
  modify (λ d, set_raft_progress
    {| rp_applied_index := rp_applied_index (dr_raft_progress d);
       rp_config_state := config_state |} d).

Definition set_applied_index (index : Z) : Drv unit :=
  modify (λ d, set_raft_progress
    {| rp_applied_index := index; rp_config_state := rp_config_state (dr_raft_progress d) |} d).

(** The body of the loop over committed entries; [ent] is what the actor draws when
    it applies the entry of an index. *)
Definition apply_committed_entry (ent : Z → Ent) (committed_entry : RaftEntry) : Drv unit :=
  set_applied_index (entry_index committed_entry);;
  match entry_data committed_entry, entry_type committed_entry with
  | [], _ => mret ()
  | data, EntryConfChange =>
      config_change ← try_ (ok_or (proto_decode data) PalRaft);
      r ← on_raft (λ raft, raft_apply_config_change raft config_change);
      config_state ← try_ (map_err (λ _, PalRaft) r);
      collect_config_state config_state
  | data, _ =>
      entry ← try_ (ok_or (proto_decode data) PalRaft);
      entry_id ← call (unwrap (en_entry_id entry));
      d ← get_self;
      event_outcome ←
        on_actor (on_apply_event (core_context (dr_core d)) (ent (entry_index committed_entry))
          {| ec_index := entry_index committed_entry;
             ec_owned := bool_decide (ei_replica_id entry_id = dr_id d) |}
          (event_with_bytes (ei_entry_id entry_id) (en_entry_contents entry)));
      for_each stash_command (eo_commands event_outcome)
  end.

Definition entry_index_le (a b : RaftEntry) : Prop := entry_index a ≤ entry_index b.

#[global] Instance entry_index_le_dec : RelDecision entry_index_le.
Proof. intros a b. unfold entry_index_le. apply _. Defined.

Definition apply_raft_committed_entries (ent : Z → Ent) (committed_entries : list RaftEntry)
    : Drv unit :=
  for_each (apply_committed_entry ent) (merge_sort entry_index_le committed_entries).

Definition send_raft_message (raft_message : RaftMessage) : Drv unit :=
  if decide (rm_msg_type raft_message = MsgSnapshot) then stash_snapshot raft_message
  else
    d ← get_self;
    on_communication (λ c, communication_process_out c (OutDeliverSystemMessage
      {| dsm_recipient_replica_id := rm_to raft_message;
         dsm_sender_replica_id := dr_id d;
         dsm_message_contents := proto_encode raft_message |})).

Definition send_raft_messages (raft_messages : list RaftMessage) : Drv unit :=
  for_each send_raft_message raft_messages.

Definition restore_raft_snapshot (raft_snapshot : RaftSnapshot) : Drv unit :=
  if snapshot_is_empty raft_snapshot then mret ()
  else
    config_state ← call (get_config_state raft_snapshot);
    collect_config_state config_state;;
    r ← on_store (λ st, store_apply_snapshot st raft_snapshot);
    try_ (map_err (λ _, PalRaft) r);;
    d ← get_self;
    on_actor (on_load_snapshot (core_context (dr_core d)) (snap_data raft_snapshot));;
    metadata ← call (get_metadata raft_snapshot);
    set_applied_index (md_index metadata).

Definition maybe_create_raft_snapshot : Drv unit :=
  d ← get_self;
  let applied_index := rp_applied_index (dr_raft_progress d) in
  let config_state := rp_config_state (dr_raft_progress d) in
  should ← read_store (λ st, store_should_snapshot st applied_index config_state);
  if negb should then mret ()
  else
    snapshot_data ← on_actor (on_save_snapshot (core_context (dr_core d)));
    r ← on_store (λ st, store_create_snapshot st applied_index config_state snapshot_data);
    try_ (map_err (λ _, PalActor) r).

(** What is left of a ready once its contents were taken. *)
Definition ready_taken (r : RaftReady) : RaftReady :=
  {| rr_messages := []; rr_persisted_messages := []; rr_entries := []; rr_committed_entries := [];
     rr_hard_state := rr_hard_state r;
     rr_snapshot := {| snap_data := []; snap_metadata := None |};
     rr_number := rr_number r |}.

Definition advance_raft (ent : Z → Ent) : Drv unit :=
  trigger_raft_tick;;
  d ← get_self;
  ready ← call (raft_has_ready (dr_raft d));
  if negb ready then mret ()
  else
    raft_ready ← on_raft raft_get_ready;
    send_raft_messages (rr_messages raft_ready);;
    match rr_hard_state raft_ready with
    | Some raft_hard_state =>
        on_store (λ st, Return (store_set_hard_state st raft_hard_state, ()))
    | None => mret ()
    end;;
    restore_raft_snapshot (rr_snapshot raft_ready);;
    apply_raft_committed_entries ent (rr_committed_entries raft_ready);;
    send_raft_messages (rr_persisted_messages raft_ready);;
    match rr_entries raft_ready with
    | [] => mret ()
    | entries =>
        r ← on_store (λ st, store_append_entries st entries);
        try_ (map_err (λ _, PalActor) r)
    end;;
    light_raft_ready ← on_raft (λ raft, raft_advance_ready raft (ready_taken raft_ready));
    send_raft_messages (rl_messages light_raft_ready);;
    apply_raft_committed_entries ent (rl_committed_entries light_raft_ready);;
    on_raft_ raft_advance_apply.

(** *** State changes of the cluster *)

Definition reset_leader_state : Drv unit := modify (set_prev_raft_state raft_state_new).

Definition update_snapshot_cluster_change : Drv unit :=
  d ← get_self;
  if decide (dr_driver_state d ≠ DriverStarted) then mret ()
  else
    '(snapshot, snapshot_updates) ←
      call (snapshot_cluster_change (dr_snapshot d) (rst_leader_replica_id (dr_raft_state d))
              (rst_leader_term (dr_raft_state d))
              (rst_committed_cluster_config (dr_raft_state d)));
    modify (set_driver_snapshot snapshot);;
    for_each (λ '(replica_id, status), on_raft_ (λ raft, raft_report_snapshot raft replica_id status))
      snapshot_updates.

Definition stash_leader_state : Drv unit :=
  d ← get_self;
  state ← call (get_raft_state d);
  modify (set_raft_state state);;
  if decide (dr_prev_raft_state d = state) then mret ()
  else
    modify (set_prev_raft_state state);;
    update_snapshot_cluster_change;;
    modify (λ d, set_communication (communication_cluster_change (dr_communication d)
                                      (rst_committed_cluster_config state)) d);;
    stash_message (OutCheckCluster
      {| chk_leader_replica_id := rst_leader_replica_id state;
         chk_leader_term := rst_leader_term state;
         chk_cluster_replica_ids := rst_committed_cluster_config state;
         chk_has_pending_changes := rst_has_pending_change state |}).

Definition preset_state_machine (instant : Z) : Drv unit :=
  modify (λ d, set_prev_raft_state (dr_raft_state d) d);;
  modify (λ d, set_driver_instant (Z.max (dr_instant d) instant) d);;
  modify (λ d, set_driver_core
    (core_set_state (dr_core d) (dr_instant d) (raft_leader (dr_raft d))) d).

Definition check_driver_state (state : DriverState) : Drv unit :=
  d ← get_self;
  if decide (dr_driver_state d ≠ state) then fail PalInvalidOperation else mret ().

Definition check_driver_started : Drv unit := check_driver_state DriverStarted.

Definition check_non_ephemeral : Drv unit :=
  d ← get_self;
  if dr_is_ephemeral d then fail PalInvalidOperation else mret ().

(** *** Messages *)

Definition process_start_node (request : StartReplicaRequest) : Drv unit :=
  check_driver_state DriverCreated;;
  modify (set_driver_id (srr_replica_id_hint request));;
  modify (λ d, set_driver_core
    (core_set_immutable_state (dr_core d) (dr_id d) (srr_app_config request)) d);;
  d ← get_self;
  on_actor (on_init (core_context (dr_core d)));;
  modify (set_is_ephemeral (srr_is_ephemeral request));;
  (if srr_is_ephemeral request then mret ()
   else
     snapshot ← on_actor (on_save_snapshot (core_context (dr_core d)));
     p ← call (snapshot_init (dr_snapshot d) (dr_id d) (srr_raft_config request ≫= rc_snapshot_config));
     modify (set_driver_snapshot p);;
     initialize_raft_node (srr_raft_config request) snapshot (srr_is_leader request));;
  modify (λ d, set_communication
    (communication_init (dr_communication d) (dr_id d)
       ((λ rc, {| handshake_retry_tick := rc_handshake_retry_tick rc |}) <$> srr_raft_config request))
    d);;
  modify (set_driver_state DriverStarted);;
  stash_message (OutStartReplica (dr_id d)).

Definition process_stop_node : Drv unit :=
  d ← get_self;
  if decide (dr_driver_state d = DriverStopped) then mret ()
  else
    modify (λ d, set_driver_actor (on_shutdown (dr_actor d)) d);;
    modify (set_driver_state DriverStopped);;
    stash_message OutStopReplica.

Definition process_change_cluster (request : ChangeClusterRequest) : Drv unit :=
  check_driver_started;;
  check_non_ephemeral;;
  change_status ←
    (if decide (ccr_change_type request = ChangeTypeAddReplica)
     then make_raft_config_change_proposal (ccr_replica_id request) AddNode
     else if decide (ccr_change_type request = ChangeTypeRemoveReplica)
     then make_raft_config_change_proposal (ccr_replica_id request) RemoveNode
     else mret ChangeStatusRejected);
  stash_message (OutChangeCluster
    {| ccs_change_id := ccr_change_id request; ccs_change_status := change_status |}).

Definition process_check_cluster : Drv unit :=
  check_driver_started;;
  check_non_ephemeral;;
  reset_leader_state.

Definition process_deliver_system_message (m : DeliverSystemMessage) : Drv unit :=
  check_driver_started;;
  check_non_ephemeral;;
  message ← on_communication (λ c, communication_process_in c (InDeliverSystemMessage m));
  match message with
  | None => mret ()
  | Some (InDeliverSystemMessage m) =>
      make_raft_step (dsm_sender_replica_id m) (dsm_recipient_replica_id m)
        (dsm_message_contents m)
  | Some _ => fail PalInternal
  end.

Definition process_deliver_snapshot_request (m : DeliverSnapshotRequest) : Drv unit :=
  check_non_ephemeral;;
  message ← on_communication (λ c, communication_process_in c (InDeliverSnapshotRequest m));
  match message with
  | None => mret ()
  | Some (InDeliverSnapshotRequest m) =>
      response ← on_role (λ role,
        match role with
        | inl sender =>
            let '(sender, response) := snapshot_process_unexpected_request sender m in
            Returned (inl sender, response)
        | inr receiver =>
            match snapshot_process_request receiver m with
            | Return (receiver, response) => Returned (inr receiver, response)
            | Panic => Panicked
            end
        end);
      on_communication (λ c, communication_process_out c (OutDeliverSnapshotResponse response))
  | Some _ => fail PalInternal
  end.

(** A response or a failure for the sender; a receiver ignores it. *)
Definition deliver_to_sender (sender_replica_id delivery_id : Z)
    (response : result SnapshotError DeliverSnapshotResponse) : Drv unit :=
  on_role (λ role,
    match role with
    | inl sender =>
        Returned (inl (snapshot_process_response sender sender_replica_id delivery_id response), ())
    | inr receiver => Returned (inr receiver, ())
    end).

Definition process_deliver_snapshot_response (m : DeliverSnapshotResponse) : Drv unit :=
  check_non_ephemeral;;
  message ← on_communication (λ c, communication_process_in c (InDeliverSnapshotResponse m));
  match message with
  | None => mret ()
  | Some (InDeliverSnapshotResponse m) =>
      deliver_to_sender (resp_sender_replica_id m) (resp_delivery_id m) (Ok m)
  | Some _ => fail PalInternal
  end.

Definition process_deliver_snapshot_failure (m : DeliverSnapshotFailure) : Drv unit :=
  check_non_ephemeral;;
  deliver_to_sender (fail_sender_replica_id m) (fail_delivery_id m) (Err FailedDelivery).

(** What a completed transfer means for Raft. *)
Inductive SnapshotCompletion :=
| CompletionNone
| CompletionSent (replica_id : Z) (status : RaftSnapshotStatus)
| CompletionReceived (sender_replica_id : Z) (snapshot : RaftSnapshot).

Definition process_snapshot_progress : Drv unit :=
  d ← get_self;
  if decide (dr_driver_state d ≠ DriverStarted) then mret ()
  else
    completion ← on_role (λ role,
      match role with
      | inl sender =>
          let '(sender, completed) := snapshot_sender_try_complete sender in
          Returned (inl sender,
            match completed with
            | Some (replica_id, status) => CompletionSent replica_id status
            | None => CompletionNone
            end)
      | inr receiver =>
          match snapshot_receiver_try_complete receiver with
          | Return (receiver, completed) =>
              Returned (inr receiver,
                match completed with
                | Some (Ok (sender_replica_id, snapshot)) =>
                    CompletionReceived sender_replica_id snapshot
                | _ => CompletionNone
                end)
          | Panic => Panicked
          end
      end);
    match completion with
    | CompletionNone => mret ()
    | CompletionSent replica_id status =>
        on_raft_ (λ raft, raft_report_snapshot raft replica_id status)
    | CompletionReceived sender_replica_id snapshot =>
        let message := create_raft_message sender_replica_id (dr_id d) MsgSnapshot in
        (* an error of the step is only logged *)
        _ ← on_raft (λ raft, raft_make_step raft
              {| rm_msg_type := rm_msg_type message; rm_to := rm_to message;
                 rm_from := rm_from message; rm_snapshot := Some snapshot;
                 rm_rest := rm_rest message |});
        mret ()
    end.

(** [while let Some(request) = sender.next_request()] *)
Fixpoint take_requests (fuel : nat) (sender : Sd) (requests : list DeliverSnapshotRequest)
    : exec (Sd * list DeliverSnapshotRequest) :=
  match fuel with
  | O => Unfinished
  | S fuel =>
      match snapshot_next_request sender with
      | Return (sender, Some request) => take_requests fuel sender (requests ++ [request])
      | Return (sender, None) => Returned (sender, requests)
      | Panic => Panicked
      end
  end.

(** Starts a transfer for each message that carries a snapshot. *)
Definition start_transfer (sender : Sd) (message : RaftMessage) : outcome Sd :=
  snapshot ← unwrap (rm_snapshot message);
  snapshot_start sender (rm_to message) snapshot.

Definition process_snapshot_sending : Drv unit :=
  d ← get_self;
  let snapshot_messages := dr_snapshots d in
  modify (set_driver_snapshots []);;
  out ← on_role (λ role,
    match role with
    | inl sender =>
        match ofold start_transfer sender snapshot_messages with
        | Return sender =>
            match take_requests request_fuel sender [] with
            | Returned (sender, requests) => Returned (inl sender, inl requests)
            | Panicked => Panicked
            | Unfinished => Unfinished
            end
        | Panic => Panicked
        end
    | inr receiver => Returned (inr receiver, inr snapshot_messages)
    end);
  match out with
  | inl requests =>
      for_each (λ request, on_communication (λ c,
        communication_process_out c (OutDeliverSnapshotRequest request))) requests
  | inr snapshot_messages =>
      for_each (λ message, on_raft_ (λ raft,
        raft_report_snapshot raft (rm_to message) Failure)) snapshot_messages
  end.

Definition process_deliver_app_message (command_ent : Ent) (event_ent : Ent)
    (deliver_app_message : option DeliverAppMessage) : Drv unit :=
  check_driver_started;;
  d ← get_self;
  message_outcome ←
    on_actor (on_process_command (core_context (dr_core d)) command_ent
      ((λ m, {| command_correlation_id := app_correlation_id m;
                command_header := app_message_header m;
                command_payload := app_message_payload m |}) <$> deliver_app_message));
  for_each stash_command (co_commands message_outcome);;
  match co_event message_outcome with
  | None => mret ()
  | Some actor_event =>
      if dr_is_ephemeral d then
        event_outcome ←
          on_actor (on_apply_event (core_context (dr_core d)) event_ent
            {| ec_index := 0; ec_owned := true |} actor_event);
        for_each stash_command (eo_commands event_outcome)
      else
        let entry :=
          create_entry (create_entry_id (dr_id d) (event_correlation_id actor_event))
            (event_contents actor_event) in
        modify (λ d, set_driver_core (core_append_proposal (dr_core d) (proto_encode entry)) d)
  end.

Definition process_get_replica_state : Drv unit :=
  check_driver_started;;
  d ← get_self;
  if dr_is_ephemeral d then
    stash_message (OutGetReplicaState {| grs_applied_index := 0; grs_latest_snapshot_size := 0 |})
  else
    size ← read_store (λ st, Return (store_latest_snapshot_size st));
    stash_message (OutGetReplicaState
      {| grs_applied_index := rp_applied_index (dr_raft_progress d);
         grs_latest_snapshot_size := size |}).

Definition process_secure_channel_handshake (m : SecureChannelHandshake) : Drv unit :=
  check_driver_started;;
  on_communication (λ c, communication_process_in c (InSecureChannelHandshake m));;
  mret ().

Definition process_actor_raft_proposals : Drv unit :=
  d ← get_self;
  let '(core, proposals) := core_take_outputs (dr_core d) in
  modify (set_driver_core core);;
  for_each make_raft_proposal proposals.

Definition process_state_machine (ent : Z → Ent) : Drv unit :=
  d ← get_self;
  if raft_initialized (dr_raft d) then
    advance_raft ent;;
    maybe_create_raft_snapshot;;
    stash_leader_state
  else mret ().

Definition stash_log_entries (logs : list LogMessage) : Drv unit :=
  for_each (λ m, stash_message (OutLog m)) logs.

Definition stash_comms_module_entries : Drv unit :=
  d ← get_self;
  '(communication, messages) ← call (communication_take_out (dr_communication d));
  modify (λ d, set_communication communication (set_driver_messages (dr_messages d ++ messages) d)).

Definition take_out_messages : Drv (list OutMessage) :=
  d ← get_self;
  modify (set_driver_messages []);;
  mret (dr_messages d).

(** The message of a call, unless it is for the actor. *)
Definition dispatch (message : InMsg) : Drv unit :=
  match message with
  | InStartReplica m => process_start_node m
  | InStopReplica => process_stop_node
  | InChangeCluster m => process_change_cluster m
  | InCheckCluster => process_check_cluster
  | InDeliverSystemMessage m => process_deliver_system_message m
  | InDeliverSnapshotRequest m => process_deliver_snapshot_request m
  | InDeliverSnapshotResponse m => process_deliver_snapshot_response m
  | InDeliverSnapshotFailure m => process_deliver_snapshot_failure m
  | InGetReplicaState => process_get_replica_state
  | InSecureChannelHandshake m => process_secure_channel_handshake m
  | InDeliverAppMessage _ => mret ()
  end.

(** What the actor draws in one call: for the command, and for the event of an index. *)
Record DriverEntropy := { de_command : Ent; de_event : Z → Ent }.

(** The rest of the call, after the message was dispatched. *)
Definition process_and_send (ent : DriverEntropy) (logs : list LogMessage)
    (deliver_app_message : option DeliverAppMessage) : Drv (list OutMessage) :=
  d ← get_self;
  (if decide (dr_driver_state d = DriverStarted)
   then process_deliver_app_message (de_command ent) (de_event ent 0) deliver_app_message;;
        modify (λ d, set_communication (communication_make_tick (dr_communication d)) d)
   else mret ());;
  d ← get_self;
  (if dr_is_ephemeral d then mret ()
   else
     process_actor_raft_proposals;;
     process_snapshot_progress;;
     process_state_machine (de_event ent);;
     process_snapshot_sending);;
  stash_log_entries logs;;
  stash_comms_module_entries;;
  take_out_messages.

(** The incoming message is an [InMessage] whose contents may be unset; the answer is
    what the host sends, or nothing when the call returns early. *)
Definition receive_message (ent : DriverEntropy) (logs : list LogMessage) (instant : Z)
    (opt_message : option (option InMsg)) : Drv (option (list OutMessage)) :=
  preset_state_machine instant;;
  match opt_message with
  | Some None => mret None
  | Some (Some message) =>
      dispatch message;;
      sent ← process_and_send ent logs
               (match message with InDeliverAppMessage m => Some m | _ => None end);
      mret (Some sent)
  | None => sent ← process_and_send ent logs None; mret (Some sent)
  end.
End driver.

(** ** The parts of the runtime behind the interfaces *)

Section instances.
Context {OS : OakSession}.
Context `{!ProtoCodec RequestPayload, !ProtoCodec ResponsePayload,
          !ProtoCodec RaftSnapshotMetadata, !HashOrder Z}.

#[global] Instance DefaultSnapshotSender_SnapshotSender : SnapshotSender DefaultSnapshotSender :=
  {| snapshot_start := sender_start;
     snapshot_next_request := sender_next_request;
     snapshot_process_response := sender_process_response;
     snapshot_process_unexpected_request s request :=
       (s, sender_process_unexpected_request request);
     snapshot_sender_try_complete := sender_try_complete |}.

#[global] Instance DefaultSnapshotReceiver_SnapshotReceiver :
    SnapshotReceiver DefaultSnapshotReceiver :=
  {| snapshot_process_request := receiver_process_request;
     snapshot_receiver_try_complete := receiver_try_complete |}.

Definition role_to_sum {S R : Type} (role : @SnapshotProcessorRole S R) : S + R :=
  match role with RoleSender s => inl s | RoleReceiver r => inr r end.

Definition sum_to_role {S R : Type} (role : S + R) : @SnapshotProcessorRole S R :=
  match role with inl s => RoleSender s | inr r => RoleReceiver r end.

#[global] Instance DefaultSnapshotProcessor_SnapshotProcessor {S R}
    `{!SnapshotSenderImpl S, !SnapshotReceiverImpl R} :
    SnapshotProcessor (@DefaultSnapshotProcessor S R) S R :=
  {| snapshot_init := processor_init;
     snapshot_cluster_change := processor_process_cluster_change;
     snapshot_role p instant :=
       '(p, role) ← processor_mut_processor p instant; Return (p, role_to_sum role);
     snapshot_put_back p role := with_role p (sum_to_role role) |}.

(** The communication module, for the provider of its handshake sessions. *)
Definition DefaultCommunicationModule_impl {S X} `{!HandshakeSession S X, !Encryptor X}
    (session_provider_get : Z → Z → Role → S) :
    CommunicationModule (@DefaultCommunicationModule OS S X) :=
  {| communication_init := comm_init;
     communication_process_out := comm_process_out_message session_provider_get;
     communication_process_in := comm_process_in_message session_provider_get;
     communication_take_out := comm_take_out_messages;
     communication_cluster_change := comm_process_cluster_change;
     communication_make_tick := comm_make_tick |}.
End instances.
