(* ===== verification/DriverProps.v ===== *)
(** * Properties of the driver

    Every method of the driver is a sequence of a few kinds of moves on its state:
    the parts it owns change, a message for the consumer is stashed, the
    communication module is called, or the life cycle advances.  The invariants of
    the driver follow from the moves; the functional properties of the handling of
    committed entries, proposals and snapshot requests are proved on the methods
    themselves. *)

From S2P Require Import Prelude RaftTypes Storage Endpoint F64 Snapshot Handshake Communication Model Consensus Driver.

(** ** Moves *)

Section moves.
Context {OS : OakSession} {R St P Sd Rc A Ent C : Type}.
Context `{HRaft : !Raft R St, HStore : !Store St, HSender : !SnapshotSender Sd,
          HReceiver : !SnapshotReceiver Rc, HProc : !SnapshotProcessor P Sd Rc,
          HActor : !Actor Ent A, HComm : !CommunicationModule C}.
Context `{HMsg : !ProtoCodec RaftMessage, HChange : !ProtoCodec RaftConfigChange,
          HEntry : !ProtoCodec Entry}.
Variable create_store : Z → St.
Variable snapshot_is_empty : RaftSnapshot → bool.
Variable request_fuel : nat.

#[local] Abbreviation Drv := (@Driver OS R P A C).

(** The messages of the driver itself; the others are traffic between replicas. *)
Definition local_message (m : OutMsg) : Prop :=
  match m with
  | OutStartReplica _ | OutStopReplica | OutChangeCluster _ | OutCheckCluster _
  | OutLog _ | OutGetReplicaState _ | OutDeliverAppMessage _ => True
  | _ => False
  end.

Definition local_out (o : OutMessage) : Prop := ∃ m, out_msg o = Some m ∧ local_message m.

(** A call on the communication module. *)
Inductive comm_step : C → C → Prop :=
| cstep_init c id config : comm_step c (communication_init c id config)
| cstep_out c message c' r :
    communication_process_out c message = Return (c', r) → comm_step c c'
| cstep_in c message c' r :
    communication_process_in c message = Return (c', r) → comm_step c c'
| cstep_cluster_change c ids : comm_step c (communication_cluster_change c ids)
| cstep_tick c : comm_step c (communication_make_tick c).

(** All that is left unchanged by work inside the parts. *)
Record same_shell (d d' : Drv) : Prop := {
  shell_messages : dr_messages d' = dr_messages d;
  shell_id : dr_id d' = dr_id d;
  shell_instant : dr_instant d' = dr_instant d;
  shell_tick_instant : dr_tick_instant d' = dr_tick_instant d;
  shell_state : dr_driver_state d' = dr_driver_state d;
  shell_ephemeral : dr_is_ephemeral d' = dr_is_ephemeral d;
  shell_communication : dr_communication d' = dr_communication d;
  shell_context : core_context (dr_core d') = core_context (dr_core d)
}.

(** [true] allows the moves of the life cycle. *)
Inductive dstep : bool → Drv → Drv → Prop :=
| step_parts b d d' : same_shell d d' → dstep b d d'
| step_message b d m :
    local_message m →
    dstep b d (set_driver_messages (dr_messages d ++ [{| out_msg := Some m |}]) d)
| step_communication b d c :
    comm_step (dr_communication d) c → dstep b d (set_communication c d)
| step_tick b d : dstep b d (set_tick_instant (dr_instant d) d)
| step_identify d id config :
    dr_driver_state d = DriverCreated →
    dstep true d (set_driver_core (core_set_immutable_state (dr_core d) id config)
                    (set_driver_id id d))
| step_ephemeral d e :
    dr_driver_state d = DriverCreated → dstep true d (set_is_ephemeral e d)
| step_started d :
    dr_driver_state d = DriverCreated → dstep true d (set_driver_state DriverStarted d)
| step_stopped d : dstep true d (set_driver_state DriverStopped d).

Definition steps (b : bool) : Drv → Drv → Prop := rtc (dstep b).

(** A method all of whose returns are reached by moves. *)
Definition moves {X} (b : bool) (m : method Drv PalError X) : Prop :=
  ∀ d, mwp m (λ _ d', steps b d d') (λ _ d', steps b d d') d.

Lemma steps_once b d d' : dstep b d d' → steps b d d'.
Proof. apply rtc_once. Qed.

Lemma dstep_weaken b d d' : dstep false d d' → dstep b d d'.
Proof. inversion 1; subst; by constructor. Qed.

Lemma steps_weaken b d d' : steps false d d' → steps b d d'.
Proof. induction 1; [done|]. eapply rtc_l; [by apply dstep_weaken|done]. Qed.

Lemma moves_weaken {X} b (m : method Drv PalError X) : moves false m → moves b m.
Proof. intros H d. eapply mwp_mono; [apply H|..]; intros; by apply steps_weaken. Qed.

Lemma moves_bind {X Y} b (m : method Drv PalError X) (f : X → method Drv PalError Y) :
  moves b m → (∀ x, moves b (f x)) → moves b (m ≫= f).
Proof.
  intros Hm Hf d. apply mwp_bind. eapply mwp_mono; [apply Hm| |done].
  intros x d1 H1. eapply mwp_mono; [apply Hf|..]; intros ? d2 H2; simpl;
    unfold steps in *; by etrans.
Qed.

(** A method that only reads. *)
Lemma moves_pure {X} b (m : method Drv PalError X) :
  (∀ d d' r, m d = Returned (d', r) → d' = d) → moves b m.
Proof.
  intros H d. unfold mwp. destruct (m d) as [[d' [x|e]]| |] eqn:E; try done;
    rewrite (H _ _ _ E); apply rtc_refl.
Qed.

Lemma moves_ret {X} b (x : X) : moves b (mret x).
Proof. apply moves_pure. by intros d d' r [= <- _]. Qed.

Lemma moves_get b : moves b get_self.
Proof. apply moves_pure. by intros d d' r [= <- _]. Qed.

Lemma moves_try {X} b (r : result PalError X) : moves b (try_ r).
Proof. apply moves_pure. by intros d d' r' [= <- _]. Qed.

Lemma moves_fail {X} b e : moves b (fail (A := X) e).
Proof. apply moves_pure. by intros d d' r' [= <- _]. Qed.

Lemma moves_call {X} b (o : outcome X) : moves b (call o).
Proof. apply moves_pure. intros d d' r'. unfold call. by destruct o; intros [= <- _]. Qed.

Lemma moves_modify b f : (∀ d, dstep b d (f d)) → moves b (modify f).
Proof. intros H d. unfold mwp, modify. apply steps_once, H. Qed.

Lemma moves_modify_parts b f : (∀ d, same_shell d (f d)) → moves b (modify f).
Proof. intros H. apply moves_modify. intros d. by apply step_parts. Qed.

Lemma moves_on_raft {X} b (f : R → outcome (R * X)) : moves b (on_raft f).
Proof.
  intros d. unfold mwp, on_raft. destruct (f (dr_raft d)) as [[r x]|]; [|done].
  by apply steps_once, step_parts.
Qed.

Lemma moves_on_raft_ b f : moves b (on_raft_ f).
Proof. apply moves_on_raft. Qed.

Lemma moves_on_store {X} b (f : St → outcome (St * X)) : moves b (on_store f).
Proof. apply moves_on_raft. Qed.

Lemma moves_read_store {X} b (f : St → outcome X) : moves b (read_store f).
Proof.
  apply moves_pure. intros d d' r. unfold read_store.
  by destruct (raft_store (dr_raft d) ≫= f); intros [= <- _].
Qed.

Lemma moves_on_actor {X} b (m : method A ActorError X) : moves b (on_actor m).
Proof.
  intros d. unfold mwp, on_actor. destruct (m (dr_actor d)) as [[a [x|e]]| |]; try done;
    by apply steps_once, step_parts.
Qed.

Lemma moves_on_role {X} b (f : Sd + Rc → exec ((Sd + Rc) * X)) : moves b (on_role f).
Proof.
  intros d. unfold mwp, on_role.
  destruct (snapshot_role (dr_snapshot d) (dr_instant d)) as [[p role]|]; [|done].
  destruct (f role) as [[role' x]| |]; try done. by apply steps_once, step_parts.
Qed.

Lemma moves_on_communication {X} b (f : C → outcome (C * result PalError X)) :
  (∀ c c' r, f c = Return (c', r) → comm_step c c') → moves b (on_communication f).
Proof.
  intros H d. unfold mwp, on_communication.
  destruct (f (dr_communication d)) as [[c [x|e]]|] eqn:E; try done;
    eapply steps_once, step_communication, H, E.
Qed.

Lemma moves_process_out b message :
  moves b (on_communication (λ c, communication_process_out c message)).
Proof. apply moves_on_communication. intros c c' r. apply cstep_out. Qed.

Lemma moves_process_in b message :
  moves b (on_communication (λ c, communication_process_in c message)).
Proof. apply moves_on_communication. intros c c' r. apply cstep_in. Qed.

Lemma moves_stash_message b m : local_message m → moves b (stash_message m).
Proof. intros Hm. apply moves_modify. intros d. by apply step_message. Qed.

Lemma moves_stash_snapshot b m : moves b (stash_snapshot m).
Proof. by apply moves_modify_parts. Qed.

Lemma moves_stash_command b command : moves b (stash_command command).
Proof. by apply moves_stash_message. Qed.

Lemma moves_for_each {X} b (f : X → method Drv PalError unit) l :
  (∀ x, moves b (f x)) → moves b (for_each f l).
Proof.
  intros H. induction l as [|x l IH]; [apply moves_ret|]. by apply moves_bind.
Qed.
End moves.

(** One step through the body of a method, as in [mwp_step]. *)
Create HintDb moves.

#[export] Hint Resolve moves_ret moves_get moves_try moves_fail moves_call moves_on_raft
  moves_on_raft_ moves_on_store moves_read_store moves_on_actor moves_on_role
  moves_process_out moves_process_in moves_stash_snapshot moves_stash_command : moves.

Ltac moves_step :=
  lazymatch goal with
  | |- moves _ (mbind _ _) => apply moves_bind; [|intros ?]
  | |- moves _ (for_each _ _) => apply moves_for_each; intros ?
  | |- moves _ (stash_message _) => apply moves_stash_message; exact I
  | |- moves _ (match ?x with _ => _ end) => destruct x
  | |- moves _ (modify _) =>
      first [by apply moves_modify_parts
            |apply moves_modify; intros ?; apply step_tick
            |apply moves_modify; intros ?; apply step_communication; by constructor]
  | |- moves _ _ => solve [auto with moves nocore]
  end.

(** ** The methods *)

Section methods.
Context {OS : OakSession} {R St P Sd Rc A Ent C : Type}.
Context `{HRaft : !Raft R St, HStore : !Store St, HSender : !SnapshotSender Sd,
          HReceiver : !SnapshotReceiver Rc, HProc : !SnapshotProcessor P Sd Rc,
          HActor : !Actor Ent A, HComm : !CommunicationModule C}.
Context `{HMsg : !ProtoCodec RaftMessage, HChange : !ProtoCodec RaftConfigChange,
          HEntry : !ProtoCodec Entry}.
Variable create_store : Z → St.
Variable snapshot_is_empty : RaftSnapshot → bool.
Variable request_fuel : nat.

#[local] Abbreviation Drv := (@Driver OS R P A C).
#[local] Abbreviation moves := (@moves OS R P A C HComm).

Lemma moves_trigger_raft_tick b : moves b trigger_raft_tick.
Proof.
  intros d. unfold trigger_raft_tick. mwp_step. mwp_step.
  case_decide; [|mwp_step; apply rtc_refl].
  mwp_step. unfold modify at 1, mwp at 1.
  eapply mwp_mono; [apply (moves_on_raft_ b)|..]; intros ? d' Hd';
    (eapply rtc_l; [apply step_tick|exact Hd']).
Qed.
#[local] Hint Resolve moves_trigger_raft_tick : moves.

Lemma moves_initialize_raft_node b config snapshot leader :
  moves b (initialize_raft_node create_store config snapshot leader).
Proof.
  unfold initialize_raft_node. repeat moves_step.
Qed.

Lemma moves_advance_raft b ent : moves b (advance_raft snapshot_is_empty ent).
Proof.
  unfold advance_raft, send_raft_messages, send_raft_message, restore_raft_snapshot,
    apply_raft_committed_entries, apply_committed_entry, collect_config_state, set_applied_index.
  repeat moves_step.
Qed.
#[local] Hint Resolve moves_advance_raft : moves.

Lemma moves_stash_leader_state b : moves b stash_leader_state.
Proof. unfold stash_leader_state, update_snapshot_cluster_change. repeat moves_step. Qed.

Lemma moves_process_state_machine b ent : moves b (process_state_machine snapshot_is_empty ent).
Proof.
  unfold process_state_machine, maybe_create_raft_snapshot.
  repeat first [apply moves_stash_leader_state|moves_step].
Qed.

Lemma moves_process_snapshot_progress b : moves b process_snapshot_progress.
Proof. unfold process_snapshot_progress. repeat moves_step. Qed.

Lemma moves_process_snapshot_sending b : moves b (process_snapshot_sending request_fuel).
Proof. unfold process_snapshot_sending. repeat moves_step. Qed.

Lemma moves_process_actor_raft_proposals b : moves b process_actor_raft_proposals.
Proof.
  intros d. unfold process_actor_raft_proposals. mwp_step. mwp_step. cbn [core_take_outputs].
  mwp_step. unfold modify at 1, mwp at 1.
  eapply mwp_mono; [apply (moves_for_each b)|..].
  { intros x. unfold make_raft_proposal. repeat moves_step. }
  all: intros ? d' Hd'; (eapply rtc_l; [|exact Hd']; by apply step_parts).
Qed.

Lemma moves_process_deliver_app_message b command_ent event_ent m :
  moves b (process_deliver_app_message command_ent event_ent m).
Proof.
  unfold process_deliver_app_message, check_driver_started, check_driver_state.
  repeat moves_step.
Qed.

Lemma moves_stash_log_entries b logs : moves b (stash_log_entries logs).
Proof. unfold stash_log_entries. repeat moves_step. Qed.

(** Messages other than those that start and stop the replica. *)
Lemma moves_dispatch message :
  (∀ m, message ≠ InStartReplica m) → message ≠ InStopReplica → moves false (dispatch create_store message).
Proof.
  intros Hstart Hstop. destruct message; try done; [by destruct (Hstart m)|..];
  unfold dispatch, process_change_cluster, process_check_cluster, process_deliver_system_message,
    process_deliver_snapshot_request, process_deliver_snapshot_response,
    process_deliver_snapshot_failure, deliver_to_sender, process_get_replica_state,
    process_secure_channel_handshake, make_raft_config_change_proposal, make_raft_step,
    reset_leader_state, check_driver_started, check_driver_state, check_non_ephemeral;
  repeat moves_step.
Qed.

Lemma moves_process_stop_node : moves true process_stop_node.
Proof.
  unfold process_stop_node.
  repeat first [apply moves_modify; intros ?; apply step_stopped|moves_step].
Qed.

(** Without moves of the life cycle the identity of the replica stays. *)
Record same_life (d d' : Drv) : Prop := {
  life_id : dr_id d' = dr_id d;
  life_state : dr_driver_state d' = dr_driver_state d;
  life_ephemeral : dr_is_ephemeral d' = dr_is_ephemeral d;
  life_context : core_context (dr_core d') = core_context (dr_core d)
}.

Lemma steps_same_life d d' : steps false d d' → same_life d d'.
Proof.
  induction 1 as [|d d1 d' Hstep _ [H1 H2 H3 H4]]; [done|].
  inversion Hstep as [??? [] | | | | | | | ]; subst; simpl in *; split; congruence.
Qed.

(** A method that runs before the driver is started. *)
Definition moves_created {X} (m : method Drv PalError X) : Prop :=
  ∀ d, dr_driver_state d = DriverCreated →
    mwp m (λ _ d', steps true d d' ∧ dr_driver_state d' = DriverCreated)
          (λ _ d', steps true d d') d.

Lemma created_of_moves {X} (m : method Drv PalError X) : moves false m → moves_created m.
Proof.
  intros Hm d Hd. eapply mwp_mono; [apply Hm|..]; simpl; intros ? d' Hd'.
  - split; [by apply steps_weaken|]. by rewrite (life_state _ _ (steps_same_life _ _ Hd')).
  - by apply steps_weaken.
Qed.

Lemma created_bind {X Y} (m : method Drv PalError X) (f : X → method Drv PalError Y) d :
  moves_created m → dr_driver_state d = DriverCreated →
  (∀ x d', steps true d d' → dr_driver_state d' = DriverCreated →
     mwp (f x) (λ _, steps true d) (λ _, steps true d) d') →
  mwp (m ≫= f) (λ _, steps true d) (λ _, steps true d) d.
Proof.
  intros Hm Hd Hf. apply mwp_bind. eapply mwp_mono; [by apply Hm| |done].
  simpl. intros x d' [H1 H2]. by apply Hf.
Qed.

Lemma steps_then {X} b (m : method Drv PalError X) d0 d :
  steps b d0 d → mwp m (λ _, steps b d) (λ _, steps b d) d →
  mwp m (λ _, steps b d0) (λ _, steps b d0) d.
Proof. intros H Hm. eapply mwp_mono; [exact Hm|..]; intros ? d' Hd'; unfold steps in *; by etrans. Qed.

Lemma moves_process_start_node request : moves true (process_start_node create_store request).
Proof.
  intros d. unfold process_start_node, check_driver_state. mwp_step. mwp_step. mwp_step.
  case_decide as Hd; [mwp_step; apply rtc_refl|]. mwp_step.
  mwp_step. unfold modify at 1, mwp at 1. mwp_step. unfold modify at 1, mwp at 1.
  mwp_step. mwp_step. cbn [dr_id set_driver_id].
  match goal with |- mwp _ _ _ ?d1 => set (d1' := d1) end.
  apply (steps_then true _ d d1').
  { apply steps_once. by apply (step_identify d). }
  assert (dr_driver_state d1' = DriverCreated) as Hd1 by done.
  apply created_bind; [apply created_of_moves; repeat moves_step|done|].
  intros [] d2 H2 Hd2. apply (steps_then true _ _ d2 H2).
  mwp_step. unfold modify at 1, mwp at 1.
  eapply steps_then; [by apply steps_once, step_ephemeral|].
  apply created_bind.
  { apply created_of_moves. unfold initialize_raft_node. repeat moves_step. }
  { done. }
  intros [] d3 H3 Hd3. apply (steps_then true _ _ d3 H3).
  mwp_step. unfold modify at 1, mwp at 1.
  eapply steps_then; [by apply steps_once, step_communication; constructor|].
  mwp_step. unfold modify at 1, mwp at 1.
  eapply steps_then; [by apply steps_once, step_started|].
  by apply moves_stash_message.
Qed.

Lemma moves_dispatch_all message : moves true (dispatch create_store message).
Proof.
  destruct message; try (apply moves_weaken, moves_dispatch; done).
  - apply moves_process_start_node.
  - apply moves_process_stop_node.
Qed.

(** *** A whole call *)

(** The clock and the leadership that a call starts with. *)
Definition preset (instant : Z) (d : Drv) : Drv :=
  let d := set_driver_instant (Z.max (dr_instant d) instant)
             (set_prev_raft_state (dr_raft_state d) d) in
  set_driver_core (core_set_state (dr_core d) (dr_instant d) (raft_leader (dr_raft d))) d.

(** Whether a message may move the life cycle. *)
Definition life_message (opt_message : option (option InMsg)) : bool :=
  match opt_message with
  | Some (Some (InStartReplica _)) | Some (Some InStopReplica) => true
  | _ => false
  end.

(** What a call hands out: the stashed messages, then those of the communication
    module. *)
Definition sent_from (b : bool) (d : Drv) (sent : list OutMessage) (d' : Drv) : Prop :=
  ∃ d1 c out, steps b d d1 ∧ communication_take_out (dr_communication d1) = Return (c, out) ∧
    sent = dr_messages d1 ++ out ∧ d' = set_driver_messages [] (set_communication c d1).

Lemma mwp_moves_bind {X Y} b (m : method Drv PalError X) (f : X → method Drv PalError Y) d
    (Q : Drv → Y → Drv → Prop) :
  moves b m →
  (∀ d1 d2 y d', steps b d1 d2 → Q d2 y d' → Q d1 y d') →
  (∀ x d1, steps b d d1 → mwp (f x) (Q d1) (λ _, steps b d1) d1) →
  mwp (m ≫= f) (Q d) (λ _, steps b d) d.
Proof.
  intros Hm HQ Hf. apply mwp_bind. eapply mwp_mono; [apply Hm| |done].
  simpl. intros x d1 H1. eapply mwp_mono; [by apply Hf|..].
  - intros y d'. by apply HQ.
  - simpl. intros ? d' Hd'. unfold steps in *. by etrans.
Qed.

Lemma sent_from_steps b d1 d2 sent d' :
  steps b d1 d2 → sent_from b d2 sent d' → sent_from b d1 sent d'.
Proof.
  intros H (d3 & c & out & H3 & Hrest). exists d3, c, out. split; [|done].
  unfold steps in *. by etrans.
Qed.

Lemma process_and_send_sent b ent logs app d :
  mwp (process_and_send snapshot_is_empty request_fuel ent logs app)
    (sent_from b d) (λ _, steps b d) d.
Proof.
  unfold process_and_send. mwp_step. mwp_step.
  apply mwp_moves_bind; [|apply sent_from_steps|].
  { case_decide; [|apply moves_ret]. apply moves_bind; [apply moves_process_deliver_app_message|].
    intros _. repeat moves_step. }
  intros [] d1 _. mwp_step. mwp_step.
  apply mwp_moves_bind; [|apply sent_from_steps|].
  { destruct (dr_is_ephemeral d1); [apply moves_ret|].
    repeat first [apply moves_process_actor_raft_proposals|apply moves_process_snapshot_progress
                 |apply moves_process_state_machine|apply moves_process_snapshot_sending
                 |moves_step]. }
  intros [] d2 _. apply mwp_moves_bind; [apply moves_stash_log_entries|apply sent_from_steps|].
  intros [] d3 _. unfold stash_comms_module_entries. mwp_step. mwp_step. mwp_step. mwp_step.
  apply mwp_call. intros [c out] Htake. unfold modify at 1, mwp at 1. cbn.
  exists d3, c, out. split; [apply rtc_refl|]. done.
Qed.

(** A call changes the clock, dispatches, and then sends. *)
Lemma receive_message_sent ent logs instant opt_message d :
  let b := life_message opt_message in
  mwp (receive_message create_store snapshot_is_empty request_fuel ent logs instant opt_message)
    (λ sent d', match sent with
                | None => opt_message = Some None ∧ d' = preset instant d
                | Some sent => sent_from b (preset instant d) sent d'
                end)
    (λ _, steps b (preset instant d)) d.
Proof.
  intros b. unfold receive_message, preset_state_machine. mwp_step. mwp_step.
  unfold modify at 1, mwp at 1. mwp_step. unfold modify at 1, mwp at 1.
  unfold modify at 1, mwp at 1.
  change (mwp ?m ?Q ?R _) with (mwp m Q R (preset instant d)).
  destruct opt_message as [[message|]|].
  - apply (mwp_moves_bind b _ _ _ (λ d0 sent d', match sent with
      | None => Some (Some message) = Some None ∧ d' = preset instant d
      | Some sent => sent_from b d0 sent d' end)).
    + subst b. destruct message; cbn [life_message];
        first [by apply moves_dispatch|apply moves_dispatch_all].
    + intros d1 d2 [sent|] d' H12; [by apply sent_from_steps|done].
    + intros [] d1 _. mwp_step. eapply mwp_mono; [apply (process_and_send_sent b)| |]; simpl; by intros.
  - by mwp_step.
  - mwp_step. eapply mwp_mono; [apply (process_and_send_sent b)| |]; simpl; by intros.
Qed.

(** *** Invariant *)

(** What holds of the driver between calls, given a property of its communication
    module. *)
Record driver_inv (I : C → Prop) (d : Drv) : Prop := {
  inv_clock : 0 ≤ dr_tick_instant d ≤ dr_instant d ∧ dr_instant d < two64;
  inv_messages : Forall local_out (dr_messages d);
  inv_context_id : ctx_id (core_context (dr_core d)) = dr_id d;
  inv_context_instant : ctx_instant (core_context (dr_core d)) = dr_instant d;
  inv_communication : I (dr_communication d)
}.

Lemma driver_inv_step (I : C → Prop) b d d' :
  (∀ c c', comm_step c c' → I c → I c') → dstep b d d' → driver_inv I d → driver_inv I d'.
Proof.
  intros HI Hstep [H1 H2 H3 H4 H5].
  inversion Hstep as [??? [] | ??? Hm | ??? Hc | | | | | ]; subst; try by split.
  - split; try congruence; by rewrite ?shell_messages0, ?shell_tick_instant0, ?shell_instant0,
      ?shell_communication0.
  - split; try done. simpl. apply Forall_app. split; [done|]. constructor; [|done].
    by exists m.
  - split; try done. simpl. by eapply HI.
  - split; try done. simpl. lia.
Qed.

Lemma driver_inv_steps (I : C → Prop) b d d' :
  (∀ c c', comm_step c c' → I c → I c') → steps b d d' → driver_inv I d → driver_inv I d'.
Proof. intros HI. induction 1; [done|]. intros ?. eauto using driver_inv_step. Qed.

Lemma driver_inv_preset (I : C → Prop) instant d :
  in_u64 instant → driver_inv I d → driver_inv I (preset instant d).
Proof. intros [] [H1 H2 H3 H4 H5]. split; try done. simpl. lia. Qed.

(** The order of the life cycle. *)
Definition life_rank (s : DriverState) : Z :=
  match s with DriverCreated => 0 | DriverStarted => 1 | DriverStopped => 2 end.

Record life_ordered (d d' : Drv) : Prop := {
  lo_state : life_rank (dr_driver_state d) ≤ life_rank (dr_driver_state d');
  lo_instant : dr_instant d' = dr_instant d;
  lo_tick : dr_tick_instant d' = dr_tick_instant d ∨ dr_tick_instant d' = dr_instant d;
  lo_identity : dr_driver_state d ≠ DriverCreated →
    dr_id d' = dr_id d ∧ dr_is_ephemeral d' = dr_is_ephemeral d ∧
    core_context (dr_core d') = core_context (dr_core d)
}.

Lemma dstep_life_ordered b d d' : dstep b d d' → life_ordered d d'.
Proof.
  inversion 1 as [??? [] | | | | ??? Hc | ?? Hc | ? Hc | ]; subst; split; simpl;
    try rewrite Hc; try done; auto.
  - by rewrite shell_state0.
  - destruct (dr_driver_state d); simpl; lia.
Qed.

Lemma steps_life_ordered b d d' : steps b d d' → life_ordered d d'.
Proof.
  induction 1 as [d|d d1 d' H1 _ [S2 I2 T2 J2]]; [split; auto; lia|].
  destruct (dstep_life_ordered _ _ _ H1) as [S1 I1 T1 J1].
  split; [lia|congruence|destruct T1 as [T1|T1], T2 as [T2|T2]; rewrite T2, ?T1, ?I1; auto|].
  intros Hd. destruct (J1 Hd) as (<- & <- & <-). apply J2. intros E. rewrite E in S1.
  destruct (dr_driver_state d); simpl in S1; [done|lia|lia].
Qed.

(** States reached from a new driver by calls, whatever they returned. *)
Inductive driver_reachable (raft : R) (snapshot : P) (actor : A) (communication : C) : Drv → Prop :=
| reach_new : driver_reachable raft snapshot actor communication
                (driver_new raft snapshot actor communication)
| reach_call d ent logs instant opt_message d' r :
    driver_reachable raft snapshot actor communication d → in_u64 instant →
    receive_message create_store snapshot_is_empty request_fuel ent logs instant opt_message d
    = Returned (d', r) →
    driver_reachable raft snapshot actor communication d'.

Lemma call_inv (I : C → Prop) ent logs instant opt_message d d' r :
  (∀ c c', comm_step c c' → I c → I c') →
  (∀ c c' out, communication_take_out c = Return (c', out) → I c → I c') →
  driver_inv I d → in_u64 instant →
  receive_message create_store snapshot_is_empty request_fuel ent logs instant opt_message d
  = Returned (d', r) →
  driver_inv I d'.
Proof.
  intros Hstep Htake Hd Hi Hr. apply (driver_inv_preset I instant d Hi) in Hd.
  pose proof (mwp_Returned _ _ _ _ _ _
    (receive_message_sent ent logs instant opt_message d) Hr) as Hs.
  destruct r as [[sent|]|e]; simpl in Hs.
  - destruct Hs as (d1 & c & out & H1 & Ht & _ & ->).
    destruct (driver_inv_steps I _ _ _ Hstep H1 Hd) as [C1 M1 X1 Y1 I1].
    split; try done. by eapply Htake.
  - by destruct Hs as [_ ->].
  - by eapply driver_inv_steps.
Qed.

Lemma driver_reachable_inv (I : C → Prop) raft snapshot actor communication d :
  (∀ c c', comm_step c c' → I c → I c') →
  (∀ c c' out, communication_take_out c = Return (c', out) → I c → I c') →
  I communication → driver_reachable raft snapshot actor communication d → driver_inv I d.
Proof.
  intros Hstep Htake H0. induction 1 as [|d ent logs instant opt_message d' r _ IH Hi Hr].
  - by split.
  - by eapply call_inv.
Qed.
End methods.

(** ** Committed entries *)

Section committed.
Context {OS : OakSession} {R St P Sd Rc A Ent C : Type}.
Context `{HRaft : !Raft R St, HStore : !Store St, HActor : !Actor Ent A}.
Context `{HChange : !ProtoCodec RaftConfigChange, HEntry : !ProtoCodec Entry}.

#[local] Abbreviation Drv := (@Driver OS R P A C).

(** A command of the actor as a message for the consumer. *)
Definition command_message (command : ActorCommand) : OutMessage :=
  {| out_msg := Some (OutDeliverAppMessage
       {| app_correlation_id := command_correlation_id command;
          app_message_header := command_header command;
          app_message_payload := command_payload command |}) |}.

(** The event that a committed entry carries: its index, the replica that proposed
    it, and the event itself. *)
Definition committed_event (e : RaftEntry) : option (Z * Z * ActorEvent) :=
  match entry_data e, entry_type e with
  | [], _ | _, EntryConfChange => None
  | data, _ =>
      entry ← proto_decode data;
      entry_id ← en_entry_id entry;
      Some (entry_index e, ei_replica_id entry_id,
            event_with_bytes (ei_entry_id entry_id) (en_entry_contents entry))
  end.

(** The actor as a state machine: it applies events in the order of the log and
    owns those that its replica proposed. *)
Fixpoint replay (ctx : ActorContext) (ent : Z → Ent) (self : Z) (events : list (Z * Z * ActorEvent))
    : method A ActorError (list ActorCommand) :=
  match events with
  | [] => mret []
  | (index, proposer, event) :: events =>
      o ← on_apply_event ctx (ent index)
            {| ec_index := index; ec_owned := bool_decide (proposer = self) |} event;
      commands ← replay ctx ent self events;
      mret (eo_commands o ++ commands)
  end.

Lemma replay_app ctx ent self l1 l2 a :
  replay ctx ent self (l1 ++ l2) a =
  (c1 ← replay ctx ent self l1; c2 ← replay ctx ent self l2; mret (c1 ++ c2)) a.
Proof.
  revert a. induction l1 as [|[[i p] ev] l1 IH]; intros a; simpl.
  - unfold mbind, method_bind, mret, method_ret.
    by destruct (replay ctx ent self l2 a) as [[? []]| |].
  - unfold mbind, method_bind, mret, method_ret in *.
    destruct (on_apply_event _ _ _ _ a) as [[a1 [o|]]| |]; try done. rewrite IH.
    destruct (replay ctx ent self l1 a1) as [[a2 [c1|]]| |]; try done.
    destruct (replay ctx ent self l2 a2) as [[a3 [c2|]]| |]; try done. by rewrite app_assoc.
Qed.

Lemma for_each_stash_command commands (d : Drv) :
  for_each stash_command commands d
  = Returned (set_driver_messages (dr_messages d ++ map command_message commands) d, Ok ()).
Proof.
  revert d. induction commands as [|c commands IH]; intros d; simpl.
  - unfold mret, method_ret. rewrite app_nil_r. by destruct d.
  - unfold mbind, method_bind, stash_command, stash_message, modify. rewrite IH. simpl.
    by rewrite <- app_assoc.
Qed.

(** What stays while entries are applied. *)
Record same_replica (d d' : Drv) : Prop := {
  sr_id : dr_id d' = dr_id d;
  sr_core : dr_core d' = dr_core d;
  sr_communication : dr_communication d' = dr_communication d;
  sr_state : dr_driver_state d' = dr_driver_state d
}.

(** [d'] is [d] after the events of [entries] were applied and the index moved. *)
Definition applied (ent : Z → Ent) (entries : list RaftEntry) (d d' : Drv) : Prop :=
  same_replica d d' ∧
  (∃ commands,
     replay (core_context (dr_core d)) ent (dr_id d) (omap committed_event entries) (dr_actor d)
     = Returned (dr_actor d', Ok commands) ∧
     dr_messages d' = dr_messages d ++ map command_message commands) ∧
  rp_applied_index (dr_raft_progress d')
  = default (rp_applied_index (dr_raft_progress d)) (entry_index <$> last entries).

Lemma applied_nil ent d : applied ent [] d d.
Proof. split; [done|]. split; [|done]. exists []. by rewrite app_nil_r. Qed.

Lemma applied_app ent l1 l2 d1 d2 d3 :
  applied ent l1 d1 d2 → applied ent l2 d2 d3 → applied ent (l1 ++ l2) d1 d3.
Proof.
  intros ([I1 K1 C1 S1] & (c1 & R1 & M1) & X1) ([I2 K2 C2 S2] & (c2 & R2 & M2) & X2).
  split; [split; congruence|]. split.
  - exists (c1 ++ c2). rewrite omap_app, replay_app. rewrite I1, K1 in R2. split.
    + unfold mbind, method_bind. by rewrite R1, R2.
    + by rewrite M2, M1, map_app, app_assoc.
  - rewrite last_app. destruct (last l2); simpl in *; congruence.
Qed.

Lemma mbind_Returned_l {S E X Y} (m : method S E X) (f : X → method S E Y) s s' x :
  m s = Returned (s', Ok x) → (m ≫= f) s = f x s'.
Proof. unfold mbind, method_bind. by intros ->. Qed.

Lemma mbind_Panicked_l {S E X Y} (m : method S E X) (f : X → method S E Y) s :
  m s = Panicked → (m ≫= f) s = Panicked.
Proof. unfold mbind, method_bind. by intros ->. Qed.

(** The applied index is set first, whatever the entry is. *)
Definition at_index (index : Z) (d : Drv) : Drv :=
  set_raft_progress {| rp_applied_index := index;
                       rp_config_state := rp_config_state (dr_raft_progress d) |} d.

(** An entry that carries an event is applied to the actor. *)
Lemma apply_event_entry ent e i p ev d :
  committed_event e = Some (i, p, ev) →
  apply_committed_entry ent e d =
  (o ← on_actor (on_apply_event (core_context (dr_core d)) (ent i)
          {| ec_index := i; ec_owned := bool_decide (p = dr_id d) |} ev);
   for_each stash_command (eo_commands o)) (at_index (entry_index e) d).
Proof.
  unfold committed_event, apply_committed_entry.
  rewrite (mbind_Returned_l (set_applied_index _) _ d (at_index (entry_index e) d) ()) by done.
  destruct (entry_data e) as [|b data], (entry_type e); try done;
    (destruct (proto_decode (b :: data)) as [entry|]; [|done]); simpl;
    (destruct (en_entry_id entry) as [entry_id|] eqn:Eid; [|done]); simpl; intros [= <- <- <-];
    rewrite (mbind_Returned_l (try_ (Ok entry)) _ _ (at_index (entry_index e) d) entry) by done;
    rewrite Eid; by unfold mbind, method_bind.
Qed.

(** The others leave the actor and the messages as they are. *)
Lemma apply_other_entry ent e d d' :
  committed_event e = None → apply_committed_entry ent e d = Returned (d', Ok ()) →
  same_replica d d' ∧ dr_actor d' = dr_actor d ∧ dr_messages d' = dr_messages d ∧
  rp_applied_index (dr_raft_progress d') = entry_index e.
Proof.
  unfold committed_event, apply_committed_entry.
  rewrite (mbind_Returned_l (set_applied_index _) _ d (at_index (entry_index e) d) ()) by done.
  destruct (entry_data e) as [|b data]; [by intros _ [= <-]|].
  destruct (entry_type e);
    [|intros _; unfold mbind, method_bind, try_, on_raft, collect_config_state, modify;
      destruct (proto_decode (b :: data)) as [change|]; [|done]; simpl;
      destruct (raft_apply_config_change (dr_raft d) change) as [[r [cs|err]]|]; try done;
      simpl; by intros [= <-]|];
  (unfold mbind, method_bind, option_bind, try_, call;
   destruct (proto_decode (b :: data)) as [entry|]; [|done]; simpl;
   by destruct (en_entry_id entry); intros [=]).
Qed.

Lemma apply_committed_entry_spec ent e d d' :
  apply_committed_entry ent e d = Returned (d', Ok ()) → applied ent [e] d d'.
Proof.
  intros H. destruct (committed_event e) as [[[i p] ev]|] eqn:E.
  - rewrite (apply_event_entry ent e i p ev d E) in H.
    apply method_bind_Returned in H as (d1 & o & H1 & H2).
    rewrite for_each_stash_command in H2. injection H2 as <-.
    unfold on_actor in H1. cbn [dr_actor at_index set_raft_progress] in H1.
    destruct (on_apply_event _ _ _ _ _) as [[a [o'|]]| |] eqn:Ha; try done.
    injection H1 as <- <-. split; [done|]. split; [|done].
    exists (eo_commands o' ++ []). simpl. rewrite E. simpl.
    unfold mbind, method_bind. rewrite Ha. simpl. by rewrite app_nil_r.
  - destruct (apply_other_entry ent e d d' E H) as (H1 & H2 & H3 & H4).
    split; [done|]. split; [|done]. exists []. simpl. rewrite E, H2, H3. by rewrite app_nil_r.
Qed.

Lemma for_each_applied ent entries d d' :
  for_each (apply_committed_entry ent) entries d = Returned (d', Ok ()) → applied ent entries d d'.
Proof.
  revert d. induction entries as [|e entries IH]; intros d; simpl.
  - intros [= <-]. apply applied_nil.
  - intros (d1 & [] & H1 & H2)%method_bind_Returned.
    apply (applied_app ent [e] entries d d1 d'); [by apply apply_committed_entry_spec|by apply IH].
Qed.

(** Entries that cannot make the loop stop early: an event or nothing. *)
Definition plain_entry (e : RaftEntry) : Prop := entry_data e = [] ∨ is_Some (committed_event e).

Lemma for_each_applies ent entries (d : Drv) a commands :
  Forall plain_entry entries →
  replay (core_context (dr_core d)) ent (dr_id d) (omap committed_event entries) (dr_actor d)
  = Returned (a, Ok commands) →
  ∃ d', for_each (apply_committed_entry ent) entries d = Returned (d', Ok ()).
Proof.
  intros Hp. revert d commands. induction Hp as [|e entries He _ IH]; intros d commands Hr.
  - by exists d.
  - simpl in *. destruct (committed_event e) as [[[i p] ev]|] eqn:E.
    + simpl in Hr. apply method_bind_Returned in Hr as (a1 & o & H1 & Hr).
      apply method_bind_Returned in Hr as (a2 & cs & H2 & [= -> _]).
      unfold mbind, method_bind. rewrite (apply_event_entry ent e i p ev d E).
      erewrite mbind_Returned_l; last first.
      { unfold on_actor. cbn [dr_actor at_index set_raft_progress]. by rewrite H1. }
      rewrite for_each_stash_command. by apply (IH _ cs).
    + destruct He as [He|[? He]]; [|congruence].
      assert (apply_committed_entry ent e d = Returned (at_index (entry_index e) d, Ok ())) as H1
        by (unfold apply_committed_entry; by rewrite He).
      unfold mbind, method_bind. rewrite H1. by apply (IH _ commands).
Qed.

(** *** Logs in batches *)

(** Raft hands out the committed log in batches. *)
Definition apply_batches (ent : Z → Ent) (batches : list (list RaftEntry))
    : method Drv PalError unit :=
  for_each (apply_raft_committed_entries ent) batches.

Definition sorted_log (batches : list (list RaftEntry)) : list RaftEntry :=
  concat (map (merge_sort entry_index_le) batches).

Lemma for_each_app {X} (f : X → method Drv PalError unit) l1 l2 d :
  for_each f (l1 ++ l2) d = (for_each f l1;; for_each f l2) d.
Proof.
  revert d. induction l1 as [|x l1 IH]; intros d; [done|]. simpl.
  unfold mbind, method_bind in *. destruct (f x d) as [[d1 [[]|]]| |]; [|done..]. apply IH.
Qed.

Lemma apply_batches_log ent batches d :
  apply_batches ent batches d = for_each (apply_committed_entry ent) (sorted_log batches) d.
Proof.
  revert d. induction batches as [|b batches IH]; intros d; [done|].
  unfold sorted_log. simpl. rewrite for_each_app. unfold apply_batches. simpl.
  unfold mbind, method_bind, apply_raft_committed_entries at 1.
  destruct (for_each _ _ d) as [[d1 [[]|]]| |]; [|done..]. apply IH.
Qed.

(** Actors whose replicated state does not depend on who owns an event, on the
    context of the replica or on what it draws at random. *)
Class ReplicatedActor (same : A → A → Prop) : Prop :=
  apply_event_synced ctx1 ctx2 ent1 ent2 c1 c2 event a1 a2 a1' o1 :
    same a1 a2 → on_apply_event ctx1 ent1 c1 event a1 = Returned (a1', Ok o1) →
    ∃ a2' o2, on_apply_event ctx2 ent2 c2 event a2 = Returned (a2', Ok o2) ∧ same a1' a2'.

Lemma replay_synced (same : A → A → Prop) `{!ReplicatedActor same} ctx1 ctx2 ent1 ent2 s1 s2
    events a1 a2 a1' cs1 :
  same a1 a2 → replay ctx1 ent1 s1 events a1 = Returned (a1', Ok cs1) →
  ∃ a2' cs2, replay ctx2 ent2 s2 events a2 = Returned (a2', Ok cs2) ∧ same a1' a2'.
Proof.
  revert a1 a2 cs1. induction events as [|[[i p] ev] events IH]; intros a1 a2 cs1 Hs; simpl.
  - intros [= <- _]. by exists a2, [].
  - intros (b1 & o1 & H1 & H)%method_bind_Returned.
    apply method_bind_Returned in H as (c1 & rest & H2 & [= <- _]).
    destruct (apply_event_synced ctx1 ctx2 (ent1 i) (ent2 i) _
      {| ec_index := i; ec_owned := bool_decide (p = s2) |} ev a1 a2 b1 o1 Hs H1)
      as (b2 & o2 & H1' & Hb).
    destruct (IH b1 b2 rest Hb H2) as (c2 & cs2 & H2' & Hc).
    exists c2, (eo_commands o2 ++ cs2). split; [|done].
    unfold mbind, method_bind. by rewrite H1', H2'.
Qed.

(** *** Proposals *)

(** What a call proposes is handed to Raft in order. *)
Definition propose (raft : R) (proposal : bytes) : outcome R :=
  '(raft, r) ← raft_make_proposal raft proposal;
  match r with Ok _ => Return raft | Err _ => Panic end.

Lemma make_raft_proposal_eq p (d : Drv) :
  make_raft_proposal p d =
  match propose (dr_raft d) p with
  | Return raft => Returned (set_driver_raft raft d, Ok ())
  | Panic => Panicked
  end.
Proof.
  unfold make_raft_proposal, propose, on_raft, mbind, method_bind, outcome_bind.
  by destruct (raft_make_proposal (dr_raft d) p) as [[raft []]|].
Qed.

Lemma for_each_proposals proposals (d : Drv) :
  for_each make_raft_proposal proposals d =
  match ofold propose (dr_raft d) proposals with
  | Return raft => Returned (set_driver_raft raft d, Ok ())
  | Panic => Panicked
  end.
Proof.
  revert d. induction proposals as [|p proposals IH]; intros d; simpl; [by destruct d|].
  unfold mbind at 1, method_bind. rewrite make_raft_proposal_eq.
  destruct (propose (dr_raft d) p) as [raft|]; [|done]. rewrite IH. simpl.
  by destruct (ofold _ raft proposals).
Qed.

Definition app_command (m : DeliverAppMessage) : ActorCommand :=
  {| command_correlation_id := app_correlation_id m;
     command_header := app_message_header m;
     command_payload := app_message_payload m |}.

(** The entry that carries an event proposed by a replica. *)
Definition proposed_entry (self : Z) (ev : ActorEvent) : bytes :=
  proto_encode (create_entry (create_entry_id self (event_correlation_id ev)) (event_contents ev)).

Lemma proposed_entry_event self ev e :
  proposed_entry self ev ≠ [] → entry_data e = proposed_entry self ev →
  entry_type e ≠ EntryConfChange → committed_event e = Some (entry_index e, self, ev).
Proof.
  intros Hne Hd Ht. unfold committed_event. rewrite Hd.
  destruct (proposed_entry self ev) as [|b data] eqn:E; [done|].
  assert (proto_decode (b :: data) = Some (create_entry
    (create_entry_id self (event_correlation_id ev)) (event_contents ev))) as Hdec
    by (rewrite <- E; apply proto_decode_encode).
  rewrite Hdec. destruct ev as [id contents].
  by destruct (entry_type e).
Qed.
End committed.

(** ** Snapshot requests *)

Section requests.
Context `{!ProtoCodec RequestPayload, !ProtoCodec ResponsePayload,
          !ProtoCodec RaftSnapshotMetadata, !HashOrder Z}.

Lemma in_flight_after_request s id st :
  sender_inv s → snd_receivers s !! id = Some st →
  in_flight (snd_receivers (snd_after_request s id st)) = in_flight (snd_receivers s) + 1.
Proof.
  intros [_ _ _ _ Htr _] Hst. simpl.
  rewrite (in_flight_delete _ id (ss_advanced st (snd_next_delivery_id s)))
    by apply lookup_insert_eq.
  rewrite delete_insert_eq, (in_flight_delete _ id st Hst). simpl.
  rewrite map_size_insert_None; [lia|].
  destruct (ss_pending_chunks st !! snd_next_delivery_id s) eqn:E; [|done].
  apply (ssi_ids _ _ _ (Htr _ _ Hst)) in E. lia.
Qed.

(** The chunk that a request is for: it is in flight in [s'] and was not in [s]. *)
Definition newly_in_flight (s s' : DefaultSnapshotSender) (request : DeliverSnapshotRequest) : Prop :=
  ∃ id st st' delivery_id chunk_index,
    snd_receivers s !! id = Some st ∧ snd_receivers s' !! id = Some st' ∧
    ss_pending_chunks st !! delivery_id = None ∧
    ss_pending_chunks st' !! delivery_id = Some chunk_index ∧
    request = chunk_request st (snd_replica_id s) id delivery_id chunk_index.

(** The transfers of a sender go on: what was in flight still is, and chunks are still cut from
    the same snapshots. *)
Definition transfers_extend (s s' : DefaultSnapshotSender) : Prop :=
  snd_replica_id s' = snd_replica_id s ∧
  ∀ id st, snd_receivers s !! id = Some st → ∃ st', snd_receivers s' !! id = Some st' ∧
    ss_pending_chunks st ⊆ ss_pending_chunks st' ∧ chunk_payload st' = chunk_payload st.

#[local] Instance transfers_extend_preorder : PreOrder transfers_extend.
Proof.
  split; [split; [done|]; eauto|]. intros s1 s2 s3 [H1 H12] [H2 H23].
  split; [congruence|]. intros id st Hst. destruct (H12 _ _ Hst) as (st2 & Hst2 & Hp2 & Hc2).
  destruct (H23 _ _ Hst2) as (st3 & Hst3 & Hp3 & Hc3). exists st3.
  split_and!; [done|by etrans|congruence].
Qed.

Lemma after_request_extends s id st :
  sender_inv s → snd_receivers s !! id = Some st →
  ss_pending_chunks st !! snd_next_delivery_id s = None ∧
  transfers_extend s (snd_after_request s id st).
Proof.
  intros [_ _ _ _ Htr _] Hst.
  assert (ss_pending_chunks st !! snd_next_delivery_id s = None) as Hnone.
  { destruct (ss_pending_chunks st !! snd_next_delivery_id s) eqn:E; [|done].
    apply (ssi_ids _ _ _ (Htr _ _ Hst)) in E. lia. }
  split; [done|]. split; [done|]. intros id' st' Hst'. simpl.
  destruct (decide (id = id')) as [<-|Hne]; [|rewrite lookup_insert_ne by done; eauto].
  rewrite lookup_insert_eq. simplify_eq. eexists. split_and!; [done| |done]. by apply insert_subseteq.
Qed.

(** A request, and then those that are newly in flight after it. *)
Lemma newly_in_flight_next s id st s' request :
  sender_inv s → snd_receivers s !! id = Some st →
  transfers_extend (snd_after_request s id st) s' →
  newly_in_flight s s' request ↔
    request = chunk_request st (snd_replica_id s) id (snd_next_delivery_id s) (ss_next_chunk_index st) ∨
    newly_in_flight (snd_after_request s id st) s' request.
Proof.
  intros Hinv Hst [_ Hext]. destruct (after_request_extends s id st Hinv Hst) as [Hnone [_ Hext0]].
  assert (∃ st', snd_receivers s' !! id = Some st' ∧
    ss_pending_chunks st' !! snd_next_delivery_id s = Some (ss_next_chunk_index st)) as (st' & Hst' & Hp').
  { destruct (Hext id (ss_advanced st (snd_next_delivery_id s))) as (st' & ? & Hp & _);
      [by simpl; rewrite lookup_insert_eq|].
    exists st'. split; [done|]. eapply lookup_weaken; [|exact Hp]. apply lookup_insert_eq. }
  split.
  - intros (i & t & t' & d & k & Ht & Ht' & Hd & Hk & ->).
    destruct (Hext0 i t Ht) as (t1 & Ht1 & Hsub & Hc). simpl in Ht1.
    destruct (ss_pending_chunks t1 !! d) as [k1|] eqn:E1.
    + destruct (decide (id = i)) as [<-|Hne]; [|rewrite lookup_insert_ne in Ht1; congruence].
      rewrite lookup_insert_eq in Ht1. simplify_eq. simpl in E1.
      apply lookup_insert_Some in E1 as [[<- <-]|[_ ?]]; [|congruence].
      rewrite Hp' in Hk. injection Hk as <-. by left.
    + right. exists i, t1, t', d, k. unfold chunk_request. rewrite Hc. by split_and!.
  - intros [->|(i & t1 & t' & d & k & Ht1 & Ht' & Hd & Hk & ->)]; [by repeat eexists|].
    simpl in Ht1. destruct (decide (id = i)) as [<-|Hne].
    + rewrite lookup_insert_eq in Ht1. injection Ht1 as <-.
      exists id, st, t', d, k. split_and!; [done..| |done|done]. simpl in Hd.
      by apply lookup_insert_None in Hd as [? _].
    + rewrite lookup_insert_ne in Ht1 by done. by exists i, t1, t', d, k.
Qed.

(** The loop over the requests ends when the slots are used up or nothing is left. *)
Lemma take_requests_spec fuel s acc :
  sender_reachable s →
  snd_max_pending_chunks s - in_flight (snd_receivers s) < Z.of_nat fuel →
  snd_next_delivery_id s + (snd_max_pending_chunks s - in_flight (snd_receivers s)) < two64 - 1 →
  ∃ s' requests, take_requests fuel s acc = Returned (s', acc ++ requests) ∧ sender_reachable s' ∧
    (∀ request, request ∈ requests ↔ newly_in_flight s s' request) ∧
    req_delivery_id <$> requests = seqZ (snd_next_delivery_id s) (zlen requests) ∧
    transfers_extend s s' ∧
    in_flight (snd_receivers s') = in_flight (snd_receivers s) + zlen requests ∧
    (in_flight (snd_receivers s') = snd_max_pending_chunks s ∨
     map_Forall (λ _ st, ¬ has_next st) (snd_receivers s')).
Proof.
  revert s acc. induction fuel as [|fuel IH]; intros s acc Hs Hfuel Hids;
    pose proof (sender_reachable_inv s Hs) as Hinv; pose proof (si_in_flight s Hinv) as Hfl; [lia|].
  cbn [take_requests snapshot_next_request DefaultSnapshotSender_SnapshotSender].
  destruct (next_request_cases s Hinv) as [[Heq Hend]|(Hroom & id & st & (Hst & Hn & _) & Heq)].
  - rewrite Heq. exists s, []. rewrite app_nil_r. simpl. split_and!; [done..| |done|done|lia|].
    + intros request. split; [by intros ?%elem_of_nil|].
      intros (i & t & t' & d & k & ? & ? & ? & ? & _). simplify_eq.
    + destruct Hend; [left; lia|by right].
  - pose proof (in_flight_after_request s id st Hinv Hst) as Hone.
    destruct (after_request_extends s id st Hinv Hst) as [_ Hext].
    pose proof (si_next_id s Hinv) as Hnext. rewrite Heq.
    match type of Heq with _ = Return (_, Some ?r) => set (request := r) in * end.
    destruct (IH (snd_after_request s id st) (acc ++ [request]))
      as (s' & requests & Ht & Hr & Hin & Hseq & Hext' & Hcount & Hend).
    + eapply reach_step; [exact Hs|]. eapply step_next_request; [|exact Heq]. lia.
    + rewrite Hone. simpl. lia.
    + rewrite Hone. cbn [snd_after_request snd_next_delivery_id snd_max_pending_chunks].
      rewrite u64_add_small by lia. lia.
    + exists s', (request :: requests). rewrite Ht, <- app_assoc.
      assert (zlen (request :: requests) = 1 + zlen requests) as Hlen by (rewrite length_cons; lia).
      split_and!; [done|done| | |by etrans|lia|done].
      * intros r. rewrite elem_of_cons, Hin. symmetry. by apply newly_in_flight_next.
      * rewrite Hlen, fmap_cons, Hseq, (seqZ_cons (snd_next_delivery_id s)) by lia. simpl. rewrite u64_add_small by lia.
        do 2 f_equal; lia.
Qed.
End requests.
