(* ===== verification/Service.v ===== *)
(** * The service of a replica

    [src/runtime/src/service.rs], the host of [src/runtime/src/platform.rs] that it uses and
    the log drain of [src/runtime/src/logger.rs]: a request of the untrusted launcher is one
    call of the driver, whose messages are the response. *)

From Stdlib Require Import Ascii.
From stdpp Require Import pretty.
From S2P Require Import Prelude RaftTypes Storage Endpoint F64 Snapshot Handshake Communication Model.
From S2P Require Import Consensus Driver DriverProps.

(** ** Logs *)

Inductive LogLevel := LevelCritical | LevelError | LevelWarning | LevelInfo | LevelDebug | LevelTrace.

(** What a log line carries: its level, where it is in the source, its text, its own keys
    and values and the logger's, in the order in which they are emitted. *)
Record LogRecord := {
  lr_level : LogLevel;
  lr_file : string;
  lr_line : Z;
  lr_column : Z;
  lr_msg : string;
  lr_kv : list (string * string);
  lr_values : list (string * string)
}.

(** [ValueSerializer], with the output so far. *)
Definition emit_arguments (output : string) (kv : string * string) : string :=
  (output +:+ kv.1 +:+ ": " +:+ kv.2 +:+ ", ")%string.

Fixpoint has_slash (s : string) : bool :=
  match s with
  | EmptyString => false
  | String c s => if decide (c = "/"%char) then true else has_slash s
  end.

(** What follows the last slash. *)
Fixpoint file_name (s : string) : string :=
  match s with
  | EmptyString => EmptyString
  | String c s' =>
      if has_slash s' then file_name s' else if decide (c = "/"%char) then s' else s
  end.

Definition level_name (level : LogLevel) : string :=
  match level with
  | LevelCritical => "Critical" | LevelError => "Error" | LevelWarning => "Warning"
  | LevelInfo => "Info" | LevelDebug => "Debug" | LevelTrace => "Trace"
  end.

(** The number of the severity in the messages. *)
Definition log_severity_of (level : LogLevel) : Z :=
  match level with
  | LevelInfo => 1 | LevelWarning => 2 | LevelError => 3 | LevelCritical => 4
  | LevelDebug => 5 | LevelTrace => 6
  end.

Definition create_log_message (record : LogRecord) : LogMessage :=
  let output := foldl emit_arguments (foldl emit_arguments "" (lr_kv record)) (lr_values record) in
  {| log_severity := log_severity_of (lr_level record);
     log_message :=
       (level_name (lr_level record) +:+ " " +:+ file_name (lr_file record) +:+ " @ "
        +:+ pretty (lr_line record) +:+ " : " +:+ pretty (lr_column record) +:+ " / "
        +:+ lr_msg record +:+ " // " +:+ output)%string |}.

(** The entries behind the lock, which the logger and the driver share. *)
Record RemoteDrainCore := { rd_entries : list LogMessage }.

Definition drain_core_new : RemoteDrainCore := {| rd_entries := [] |}.

Definition append_entry (c : RemoteDrainCore) (entry : LogMessage) : RemoteDrainCore :=
  {| rd_entries := rd_entries c ++ [entry] |}.

Definition drain_log (c : RemoteDrainCore) (record : LogRecord) : RemoteDrainCore :=
  append_entry c (create_log_message record).

Definition take_entries (c : RemoteDrainCore) : RemoteDrainCore * list LogMessage :=
  ({| rd_entries := [] |}, rd_entries c).

(** Log lines come out once, in the order in which they were written. *)
Lemma drained_in_order c records :
  take_entries (foldl drain_log c records) =
    (drain_core_new, rd_entries c ++ (create_log_message <$> records)).
Proof.
  unfold take_entries. f_equal. revert c.
  induction records as [|r records IH]; intros c; simpl; [by rewrite app_nil_r|].
  rewrite IH. simpl. by rewrite <- (assoc_L (++)).
Qed.

(** The name of a file has no directory in it. *)
Lemma file_name_no_slash s : has_slash (file_name s) = false.
Proof.
  induction s as [|c s IH]; simpl; [done|]. destruct (has_slash s) eqn:E; [done|].
  destruct (decide (c = "/"%char)) as [->|Hne]; [done|]. simpl. by rewrite decide_False.
Qed.

(** ** The host *)

Section host.
Context {OS : OakSession}.

Record ApplicationHost := { ah_messages : list OutMessage }.

Definition host_new : ApplicationHost := {| ah_messages := [] |}.

Definition host_take_messages (h : ApplicationHost) : ApplicationHost * list OutMessage :=
  ({| ah_messages := [] |}, ah_messages h).

Definition host_send_messages (h : ApplicationHost) (messages : list OutMessage) : ApplicationHost :=
  {| ah_messages := ah_messages h ++ messages |}.

Definition host_public_signing_key (h : ApplicationHost) : bytes := [].

Record ReceiveMessageRequest := { rmq_instant : Z; rmq_message : option (option InMsg) }.

Record ReceiveMessageResponse := { rmp_messages : list OutMessage }.
End host.

(** ** The service *)

Section service.
Context {OS : OakSession} {R St P Sd Rc A Ent C : Type}.
Context `{HRaft : !Raft R St, HStore : !Store St, HSender : !SnapshotSender Sd,
          HReceiver : !SnapshotReceiver Rc, HProc : !SnapshotProcessor P Sd Rc,
          HActor : !Actor Ent A, HComm : !CommunicationModule C}.
Context `{HMsg : !ProtoCodec RaftMessage, HChange : !ProtoCodec RaftConfigChange,
          HEntry : !ProtoCodec Entry}.
Variable create_store : Z → St.
Variable snapshot_is_empty : RaftSnapshot → bool.
Variable request_fuel : nat.

Record ApplicationService := { svc_driver : @Driver OS R P A C }.

(** One request: what the driver hands to the host is the response, an error of the driver
    ends the application. *)
Definition service_receive_message (ent : DriverEntropy) (logs : list LogMessage)
    (request : ReceiveMessageRequest) (s : ApplicationService)
    : exec (ApplicationService * ReceiveMessageResponse) :=
  match receive_message create_store snapshot_is_empty request_fuel ent logs (rmq_instant request)
          (rmq_message request) (svc_driver s) with
  | Returned (driver, Ok sent) =>
      let host :=
        match sent with Some messages => host_send_messages host_new messages | None => host_new end in
      Returned ({| svc_driver := driver |}, {| rmp_messages := (host_take_messages host).2 |})
  | Returned (_, Err _) => Panicked
  | Panicked => Panicked
  | Unfinished => Unfinished
  end.

(** Services after the requests they have answered. *)
Inductive service_reach (s0 : ApplicationService) : ApplicationService → Prop :=
| ServiceNew : service_reach s0 s0
| ServiceRequest s ent logs request s' response :
    service_reach s0 s → in_u64 (rmq_instant request) →
    service_receive_message ent logs request s = Returned (s', response) →
    service_reach s0 s'.

(** A request is answered exactly when the driver's call succeeds, with the messages that
    the call handed to the host. *)
Lemma service_answers ent logs request s s' response :
  service_receive_message ent logs request s = Returned (s', response) ↔
  ∃ sent, receive_message create_store snapshot_is_empty request_fuel ent logs (rmq_instant request)
            (rmq_message request) (svc_driver s) = Returned (svc_driver s', Ok sent) ∧
    rmp_messages response = default [] sent.
Proof.
  unfold service_receive_message. split.
  - destruct (receive_message _ _ _ _ _ _ _) as [[d [sent|e]]| |]; [|done..].
    intros [= <- <-]. exists sent. simpl. split; [done|]. by destruct sent.
  - intros (sent & -> & Hr). destruct s', response. simpl in *. subst. by destruct sent.
Qed.

(** Services run the driver: what holds of every reachable driver holds of the one in a
    service. *)
Lemma service_reach_driver raft snapshot actor communication s :
  service_reach {| svc_driver := driver_new raft snapshot actor communication |} s →
  driver_reachable create_store snapshot_is_empty request_fuel raft snapshot actor communication
    (svc_driver s).
Proof.
  induction 1 as [|s ent logs request s' response _ IH Hi H]; [apply reach_new|].
  apply service_answers in H as (sent & H & _). by eapply reach_call.
Qed.
End service.

(** ** The parts of an application *)

Section application.
Context {OS : OakSession} {N Ready A S X : Type}.

(** [ApplicationService::new]: a replica with the runtime's own parts around an actor. *)
Definition application_service_new (actor : A)
    : @ApplicationService OS (@RaftSimple N Ready)
        (@DefaultSnapshotProcessor DefaultSnapshotSender DefaultSnapshotReceiver) A
        (@DefaultCommunicationModule OS S X) :=
  {| svc_driver := driver_new raft_simple_new (processor_new sender_new receiver_new) actor comm_new |}.
End application.
