(* ===== verification/Policy.v ===== *)
(** * Access policies and application matching

    The messages of [src/apps/ledger/federated_compute/proto/access_policy.proto]
    and [Application::matches] of [src/apps/ledger/service/src/attestation.rs].
    The verification of attestation evidence belongs to the Oak SDK and is a
    parameter. *)

From Stdlib Require Import SpecFloat.
From S2P Require Import Prelude F64.

(** ** Status *)

Inductive StatusCode :=
| StatusInvalidArgument
| StatusNotFound
| StatusResourceExhausted
| StatusFailedPrecondition
| StatusAborted
| StatusInternal.

Record Status := { status_code : StatusCode; status_message : string }.

Definition new_with_message (code : StatusCode) (message : string) : Status :=
  {| status_code := code; status_message := message |}.

(** [core::time::Duration], in nanoseconds. *)
Abbreviation Duration := Z (only parsing).

Definition duration_as_secs (d : Duration) : Z := d / 1000000000.

Definition duration_subsec_nanos (d : Duration) : Z := d mod 1000000000.

Definition duration_as_millis (d : Duration) : Z := d / 1000000.

(** [Duration::new], which panics when the seconds overflow. *)
Definition duration_new (secs nanos : Z) : outcome Duration :=
  if decide (secs + nanos / 1000000000 < two64)
  then Return (secs * 1000000000 + nanos) else Panic.

(** [Duration + Duration], which panics when the seconds overflow. *)
Definition duration_add (a b : Duration) : outcome Duration :=
  if decide ((a + b) / 1000000000 < two64) then Return (a + b) else Panic.

(** ** Policies *)

Inductive AccessBudgetKind := Times (n : Z).

Record AccessBudget := { budget_kind : option AccessBudgetKind }.

Inductive NumberMatcherKind :=
| MatchLt (x : spec_float)
| MatchLe (x : spec_float)
| MatchEq (x : spec_float)
| MatchGe (x : spec_float)
| MatchGt (x : spec_float).

Record NumberMatcher := { number_kind : option NumberMatcherKind }.

Inductive ValueMatcherKind := MatchNumberValue (m : NumberMatcher).

Record ValueMatcher := { value_kind : option ValueMatcherKind }.

Record FieldMatcher := { field_path : string; field_matcher : option ValueMatcher }.

Record StructMatcher := { struct_fields : list FieldMatcher }.

(** [prost_types::Value] and [Struct]; a struct's fields are a map, here the list
    of its entries. *)
Inductive Value :=
| ValueUnset
| NullValue
| NumberValue (v : spec_float)
| StringValue (s : string)
| BoolValue (b : bool)
| StructValue (fields : list (string * Value))
| ListValue (values : list Value).

Abbreviation Struct := (list (string * Value)).

Fixpoint struct_get (s : Struct) (name : string) : option Value :=
  match s with
  | [] => None
  | (n, v) :: s => if decide (n = name) then Some v else struct_get s name
  end.

(** [str::split('.')] *)
Fixpoint split_dots (s : string) : list string :=
  match s with
  | EmptyString => [EmptyString]
  | String c s =>
      if Ascii.eqb c (Ascii.ascii_of_nat 46) then EmptyString :: split_dots s
      else match split_dots s with
           | [] => [String c EmptyString]
           | p :: ps => String c p :: ps
           end
  end.

Section application.
Context {ReferenceValues Evidence Endorsements : Type}.

(** [oak_attestation_verification::verify], whether it succeeds. *)
Variable verify : Z → Evidence → Endorsements → ReferenceValues → bool.

Record ApplicationMatcher := {
  matcher_tag : option string;
  matcher_reference_values : option ReferenceValues;
  matcher_config_properties : option StructMatcher
}.

Record Transform := {
  transform_src : Z;
  transform_dest : option Z;
  transform_application : option ApplicationMatcher;
  transform_access_budget : option AccessBudget;
  transform_shared_access_budget_indices : list Z
}.

Record DataAccessPolicy := {
  policy_transforms : list Transform;
  policy_shared_access_budgets : list AccessBudget
}.

Record Application := {
  app_tag : string;
  app_evidence : option Evidence;
  app_endorsements : option Endorsements;
  app_config_properties : option Struct
}.

Definition tag_matches (app : Application) (tag : option string) : bool :=
  match tag with
  | None => true
  | Some t => bool_decide (app_tag app = t)
  end.

Definition reference_values_match (app : Application) (reference_values : option ReferenceValues)
    (now : Duration) : bool :=
  match reference_values with
  | None => true
  | Some rv =>
      (* the milliseconds have to fit an [i64] *)
      if decide (duration_as_millis now < two63) then
        match app_evidence app, app_endorsements app with
        | Some evidence, Some endorsements =>
            verify (duration_as_millis now) evidence endorsements rv
        | _, _ => false
        end
      else false
  end.

Definition number_value_matches (value : spec_float) (matcher : NumberMatcher) : bool :=
  match number_kind matcher with
  | Some (MatchLt x) => SFltb value x
  | Some (MatchLe x) => SFleb value x
  | Some (MatchEq x) => SFeqb value x
  | Some (MatchGe x) => SFleb x value
  | Some (MatchGt x) => SFltb x value
  | None => false
  end.

Definition value_matches (value : Value) (matcher : option ValueMatcher) : bool :=
  match matcher with
  | None => true
  | Some m =>
      match value_kind m, value with
      | None, _ => true
      | Some (MatchNumberValue m), NumberValue v => number_value_matches v m
      | _, _ => false
      end
  end.

(** The loop over the parts of a field's path: [None] when it returns false early,
    otherwise the value reached. *)
Fixpoint traverse_path (struct_value : option Struct) (current_value : option Value)
    (parts : list string) : option (option Value) :=
  match parts with
  | [] => Some current_value
  | path_part :: parts =>
      match current_value, struct_value with
      | None, Some s => traverse_path struct_value (struct_get s path_part) parts
      | Some (StructValue s), _ => traverse_path struct_value (struct_get s path_part) parts
      | _, _ => None
      end
  end.

Definition field_matches (struct_value : option Struct) (fm : FieldMatcher) : bool :=
  match traverse_path struct_value None (split_dots (field_path fm)) with
  | Some (Some v) => value_matches v (field_matcher fm)
  | _ => false
  end.

Definition struct_value_matches (struct_value : option Struct) (matcher : StructMatcher) : bool :=
  forallb (field_matches struct_value) (struct_fields matcher).

Definition config_properties_match (app : Application) (config_properties : option StructMatcher)
    : bool :=
  match config_properties with
  | None => true
  | Some cp => struct_value_matches (app_config_properties app) cp
  end.

Definition application_matches (app : Application) (matcher : option ApplicationMatcher)
    (now : Duration) : bool :=
  match matcher with
  | None => true
  | Some matcher =>
      tag_matches app (matcher_tag matcher) &&
      reference_values_match app (matcher_reference_values matcher) now &&
      config_properties_match app (matcher_config_properties matcher)
  end.

(** ** Properties *)

(** An application that matches reference values has evidence and endorsements that were
    verified against them. *)
Lemma application_matches_verified app matcher rv now :
  application_matches app (Some matcher) now = true → matcher_reference_values matcher = Some rv →
  ∃ evidence endorsements, app_evidence app = Some evidence ∧
    app_endorsements app = Some endorsements ∧
    verify (duration_as_millis now) evidence endorsements rv = true.
Proof.
  unfold application_matches, reference_values_match. rewrite !andb_true_iff.
  intros [[_ H] _] Hrv. rewrite Hrv in H. case_decide; [|done].
  destruct (app_evidence app) as [ev|], (app_endorsements app) as [en|]; try done. by exists ev, en.
Qed.

(** The value at a path, one struct per part. *)
Fixpoint value_at (s : Struct) (parts : list string) : option Value :=
  match parts with
  | [] => None
  | [part] => struct_get s part
  | part :: parts =>
      match struct_get s part with
      | Some (StructValue s') => value_at s' parts
      | _ => None
      end
  end.

Lemma traverse_value_at struct_value s parts :
  parts ≠ [] → is_Some (value_at s parts) →
  traverse_path struct_value (Some (StructValue s)) parts = Some (value_at s parts).
Proof.
  revert s. induction parts as [|p [|q ps] IH]; intros s Hne; [done| |].
  - simpl. by destruct (struct_get s p).
  - intros Hv. cbn [traverse_path]. cbn [value_at] in Hv |- *.
    destruct (struct_get s p) as [[]|]; try (by destruct Hv). by apply IH.
Qed.

(** A path whose first part is missing is looked up from the top again: the
    matcher for [p.q] accepts a struct that has no [p] but a matching [q]. *)
Lemma field_matches_missing_prefix s fm p q v :
  split_dots (field_path fm) = [p; q] → struct_get s p = None → struct_get s q = Some v →
  field_matches (Some s) fm = value_matches v (field_matcher fm).
Proof.
  intros Hp Hs Hq. unfold field_matches. rewrite Hp. simpl. rewrite Hs. simpl. by rewrite Hq.
Qed.
(** Configuration properties.  A field that is present at its dotted path, at
    any depth, is matched against the value there. *)
Theorem field_matches_present s fm v :
  value_at s (split_dots (field_path fm)) = Some v →
  field_matches (Some s) fm = value_matches v (field_matcher fm).
Proof.
  unfold field_matches. generalize (split_dots (field_path fm)). intros [|p [|q ps]] Hv; [done| |].
  - simpl in *. by rewrite Hv.
  - change (traverse_path (Some s) None (p :: q :: ps))
      with (traverse_path (Some s) (struct_get s p) (q :: ps)).
    change (match struct_get s p with
            | Some (StructValue s') => value_at s' (q :: ps) | _ => None end = Some v) in Hv.
    destruct (struct_get s p) as [[]|]; try done.
    by rewrite (traverse_value_at (Some s) _ (q :: ps)), Hv by (by rewrite ?Hv).
Qed.
End application.

(** * A concrete instance *)

(** The path [a.b] in a struct whose field [a] is a struct. *)
Lemma field_matches_present_witness :
  let fm := {| field_path := "a.b";
               field_matcher := Some {| value_kind := Some (MatchNumberValue
                 {| number_kind := Some (MatchGe (S754_zero false)) |}) |} |} in
  field_matches (Some [("a", StructValue [("b", NumberValue (S754_zero true))])]) fm
  = value_matches (NumberValue (S754_zero true)) (field_matcher fm).
Proof. intros fm. apply field_matches_present. reflexivity. Defined.
