(* ===== verification/Budget.v ===== *)
(** * Access budgets

    [src/apps/ledger/service/src/budget.rs]: how often each transform of a policy
    may access a blob, tracked per policy hash and blob id. *)

From S2P Require Import Prelude F64 Policy.

#[global] Instance bytes_eq_dec : EqDecision bytes := _.

Record BlobBudget := {
  transform_access_budgets : list Z;
  shared_access_budgets : list Z
}.

Section budget.
Context {ReferenceValues Evidence Endorsements : Type}.
Variable verify : Z → Evidence → Endorsements → ReferenceValues → bool.

#[local] Abbreviation Policy := (@DataAccessPolicy ReferenceValues).
#[local] Abbreviation App := (@Application Evidence Endorsements).

(** ** One blob *)

Definition initial_transform_budget (t : @Transform ReferenceValues) : Z :=
  match transform_access_budget t with
  | Some {| budget_kind := Some (Times n) |} => n
  | Some {| budget_kind := None |} => 0
  | None => 0
  end.

Definition initial_shared_budget (b : AccessBudget) : Z :=
  match budget_kind b with
  | Some (Times n) => n
  | None => 0
  end.

Definition blob_budget_new (policy : Policy) : BlobBudget :=
  {| transform_access_budgets := map initial_transform_budget (policy_transforms policy);
     shared_access_budgets := map initial_shared_budget (policy_shared_access_budgets policy) |}.

Definition has_remaining_budget (budgets : list Z) (index : Z) (access_budget : AccessBudget)
    : bool :=
  match budget_kind access_budget with
  | Some (Times _) => bool_decide (0 < default 0 (budgets !! Z.to_nat index))
  | None => true
  end.

Definition allows_access (b : BlobBudget) (transform_index : Z) (policy : Policy)
    : outcome bool :=
  transform ← unwrap (policy_transforms policy !! Z.to_nat transform_index);
  Return
    ((match transform_access_budget transform with
      | Some access_budget =>
          has_remaining_budget (transform_access_budgets b) transform_index access_budget
      | None => true
      end) &&
     forallb (λ shared_index,
       match policy_shared_access_budgets policy !! Z.to_nat shared_index with
       | Some access_budget =>
           has_remaining_budget (shared_access_budgets b) shared_index access_budget
       | None => false
       end) (transform_shared_access_budget_indices transform)).

Definition update_remaining_budget (budgets : list Z) (index : Z) (access_budget : AccessBudget)
    : list Z * result Status unit :=
  match budget_kind access_budget with
  | Some (Times _) =>
      match budgets !! Z.to_nat index with
      | Some b =>
          if decide (0 < b) then (<[Z.to_nat index := b -₃₂ 1]> budgets, Ok ())
          else (budgets, Err (new_with_message StatusInternal
                  "no budget remaining or DataAccessPolicy invalid"))
      | None => (budgets, Err (new_with_message StatusInternal
                  "no budget remaining or DataAccessPolicy invalid"))
      end
  | None => (budgets, Ok ())
  end.

(** One iteration of the loop over the shared budgets. *)
Definition record_shared (policy : Policy) (b : BlobBudget) (shared_index : Z)
    : BlobBudget * result Status unit :=
  match policy_shared_access_budgets policy !! Z.to_nat shared_index with
  | None => (b, Err (new_with_message StatusInvalidArgument "AccessPolicy is invalid"))
  | Some access_budget =>
      let '(shared, r) :=
        update_remaining_budget (shared_access_budgets b) shared_index access_budget in
      ({| transform_access_budgets := transform_access_budgets b;
          shared_access_budgets := shared |}, r)
  end.

Definition record_access (b : BlobBudget) (transform_index : Z) (policy : Policy)
    : outcome (BlobBudget * result Status unit) :=
  transform ← unwrap (policy_transforms policy !! Z.to_nat transform_index);
  let '(b, r) :=
    match transform_access_budget transform with
    | Some access_budget =>
        let '(budgets, r) :=
          update_remaining_budget (transform_access_budgets b) transform_index access_budget in
        ({| transform_access_budgets := budgets;
            shared_access_budgets := shared_access_budgets b |}, r)
    | None => (b, Ok ())
    end in
  match r with
  | Err e => Return (b, Err e)
  | Ok _ =>
      Return (try_fold (record_shared policy) b (transform_shared_access_budget_indices transform))
  end.

(** ** The tracker *)

Record BudgetTracker := {
  bt_budgets : gmap bytes (gmap bytes BlobBudget);
  bt_consumed_budgets : gset bytes
}.

Definition tracker_new : BudgetTracker := {| bt_budgets := ∅; bt_consumed_budgets := ∅ |}.

(** The loop of [find_matching_transform] over the transforms from index [i]. *)
Fixpoint find_transform (budget : BlobBudget) (node_id : Z) (policy : Policy) (app : App)
    (now : Duration) (match_found : bool) (i : Z) (transforms : list Transform)
    : outcome (result Status Z) :=
  match transforms with
  | [] =>
      Return (Err
        (if match_found
         then new_with_message StatusResourceExhausted "data access budget exhausted"
         else new_with_message StatusFailedPrecondition
                "requesting application does not match the access policy"))
  | transform :: transforms =>
      if bool_decide (transform_src transform ≠ node_id) ||
         negb (application_matches verify app (transform_application transform) now)
      then find_transform budget node_id policy app now match_found (i + 1) transforms
      else
        allowed ← allows_access budget i policy;
        if allowed : bool then Return (Ok i)
        else find_transform budget node_id policy app now true (i + 1) transforms
  end.

(** The stored budget of a blob, or the full budget of the policy. *)
Definition tracker_budget (t : BudgetTracker) (blob_id : bytes) (policy : Policy)
    (policy_hash : bytes) : BlobBudget :=
  match bt_budgets t !! policy_hash ≫= (.!! blob_id) with
  | Some b => b
  | None => blob_budget_new policy
  end.

Definition find_matching_transform (t : BudgetTracker) (blob_id : bytes) (node_id : Z)
    (policy : Policy) (policy_hash : bytes) (app : App) (now : Duration)
    : outcome (result Status Z) :=
  if decide (blob_id ∈ bt_consumed_budgets t)
  then Return (Err (new_with_message StatusResourceExhausted "data access budget consumed"))
  else find_transform (tracker_budget t blob_id policy policy_hash) node_id policy app now false 0
         (policy_transforms policy).

Definition update_budget (t : BudgetTracker) (blob_id : bytes) (transform_index : Z)
    (policy : Policy) (policy_hash : bytes) : outcome (BudgetTracker * result Status unit) :=
  if decide (blob_id ∈ bt_consumed_budgets t)
  then Return (t, Err (new_with_message StatusInternal "data access budget consumed"))
  else
    let per_policy := default ∅ (bt_budgets t !! policy_hash) in
    let budget := default (blob_budget_new policy) (per_policy !! blob_id) in
    '(budget, r) ← record_access budget transform_index policy;
    Return ({| bt_budgets := <[policy_hash := <[blob_id := budget]> per_policy]> (bt_budgets t);
               bt_consumed_budgets := bt_consumed_budgets t |}, r).

Definition consume_budget (t : BudgetTracker) (blob_id : bytes) : BudgetTracker :=
  if decide (blob_id ∈ bt_consumed_budgets t) then t
  else {| bt_budgets := delete blob_id <$> bt_budgets t;
          bt_consumed_budgets := {[ blob_id ]} ∪ bt_consumed_budgets t |}.

(** ** Snapshots *)

Record BlobBudgetSnapshot := {
  bbs_blob_id : bytes;
  bbs_transform_access_budgets : list Z;
  bbs_shared_access_budgets : list Z
}.

Record PerPolicyBudgetSnapshot := {
  pps_access_policy_sha256 : bytes;
  pps_budgets : list BlobBudgetSnapshot
}.

Record BudgetSnapshot := {
  bs_per_policy_snapshots : list PerPolicyBudgetSnapshot;
  bs_consumed_budgets : list bytes
}.

Definition tracker_save_snapshot (t : BudgetTracker) : BudgetSnapshot :=
  {| bs_per_policy_snapshots :=
       map (λ '(access_policy_sha256, budgets),
         {| pps_access_policy_sha256 := access_policy_sha256;
            pps_budgets :=
              map (λ '(blob_id, blob_budget),
                {| bbs_blob_id := blob_id;
                   bbs_transform_access_budgets := transform_access_budgets blob_budget;
                   bbs_shared_access_budgets := shared_access_budgets blob_budget |})
                (btree_iter bytes_le budgets) |})
         (btree_iter bytes_le (bt_budgets t));
     bs_consumed_budgets := merge_sort bytes_le (elements (bt_consumed_budgets t)) |}.

(** The loop over the blobs of one policy. *)
Definition load_blob_budget (budgets : gmap bytes BlobBudget) (s : BlobBudgetSnapshot)
    : gmap bytes BlobBudget * result Status unit :=
  (<[bbs_blob_id s :=
       {| transform_access_budgets := bbs_transform_access_budgets s;
          shared_access_budgets := bbs_shared_access_budgets s |}]> budgets,
   match budgets !! bbs_blob_id s with
   | Some _ => Err (new_with_message StatusInvalidArgument
                      "Duplicated `blob_id` entries in the snapshot")
   | None => Ok ()
   end).

Definition load_per_policy (t : BudgetTracker) (s : PerPolicyBudgetSnapshot)
    : BudgetTracker * result Status unit :=
  match try_fold load_blob_budget ∅ (pps_budgets s) with
  | (_, Err e) => (t, Err e)
  | (per_policy_budgets, Ok _) =>
      ({| bt_budgets := <[pps_access_policy_sha256 s := per_policy_budgets]> (bt_budgets t);
          bt_consumed_budgets := bt_consumed_budgets t |},
       match bt_budgets t !! pps_access_policy_sha256 s with
       | Some _ => Err (new_with_message StatusInvalidArgument
                          "Duplicated `access_policy_sha256` entries in the snapshot")
       | None => Ok ()
       end)
  end.

Definition load_consumed (t : BudgetTracker) (blob_id : bytes)
    : BudgetTracker * result Status unit :=
  ({| bt_budgets := bt_budgets t;
      bt_consumed_budgets := {[ blob_id ]} ∪ bt_consumed_budgets t |},
   if decide (blob_id ∈ bt_consumed_budgets t)
   then Err (new_with_message StatusInvalidArgument
               "Duplicated `consumed_budgets` entries in the snapshot")
   else Ok ()).

(** The previous state is discarded first, whatever it was. *)
Definition tracker_load_snapshot (t : BudgetTracker) (snapshot : BudgetSnapshot)
    : BudgetTracker * result Status unit :=
  match try_fold load_per_policy tracker_new (bs_per_policy_snapshots snapshot) with
  | (t, Err e) => (t, Err e)
  | (t, Ok _) => try_fold load_consumed t (bs_consumed_budgets snapshot)
  end.

(** * Properties *)

(** ** Recording an access *)

Definition units (l : list Z) (i : Z) : Z := default 0 (l !! Z.to_nat i).

Lemma units_nonneg l i : Forall in_u32 l → in_u32 (units l i).
Proof.
  intros Hl. unfold units. destruct (l !! Z.to_nat i) eqn:E; simpl; [|done].
  eapply Forall_lookup_1; done.
Qed.

(** Budgets only shrink; a recorded access takes one unit. *)
Lemma update_remaining_spec l i ab l' r :
  Forall in_u32 l → update_remaining_budget l i ab = (l', r) →
  Forall in_u32 l' ∧ (∀ k, units l' k ≤ units l k) ∧
  (r = Ok () → ∀ n, budget_kind ab = Some (Times n) → units l' i + 1 ≤ units l i).
Proof.
  intros Hl. unfold update_remaining_budget.
  destruct (budget_kind ab) as [[n]|]; [|by intros [= <- <-]; split_and!].
  destruct (l !! Z.to_nat i) as [b|] eqn:E; [|by intros [= <- <-]; split_and!].
  destruct (decide (0 < b)); [|by intros [= <- <-]; split_and!].
  pose proof (proj1 (Forall_lookup _ _) Hl _ _ E) as Hb. unfold in_u32 in Hb.
  unfold u32_sub. rewrite Z.mod_small by lia. intros [= <- <-]. unfold units.
  pose proof (lookup_lt_Some _ _ _ E). split_and!.
  - apply Forall_insert; [done|]. unfold in_u32. lia.
  - intros k. destruct (decide (Z.to_nat i = Z.to_nat k)) as [Heq|Hne].
    + rewrite <- Heq, list_lookup_insert_eq by lia. rewrite E. simpl. lia.
    + by rewrite list_lookup_insert_ne.
  - intros _ _ _. rewrite list_lookup_insert_eq by lia. rewrite E. simpl. lia.
Qed.

Definition blob_in_range (b : BlobBudget) : Prop :=
  Forall in_u32 (transform_access_budgets b) ∧ Forall in_u32 (shared_access_budgets b).

(** [b'] has no more of anything than [b]. *)
Definition blob_le (b' b : BlobBudget) : Prop :=
  (∀ k, units (transform_access_budgets b') k ≤ units (transform_access_budgets b) k) ∧
  (∀ k, units (shared_access_budgets b') k ≤ units (shared_access_budgets b) k).

Lemma record_shared_spec policy b j b' r :
  blob_in_range b → record_shared policy b j = (b', r) →
  blob_in_range b' ∧ blob_le b' b ∧
  transform_access_budgets b' = transform_access_budgets b ∧
  (r = Ok () → ∀ ab n, policy_shared_access_budgets policy !! Z.to_nat j = Some ab →
     budget_kind ab = Some (Times n) →
     units (shared_access_budgets b') j + 1 ≤ units (shared_access_budgets b) j).
Proof.
  intros [H1 H2]. unfold record_shared.
  destruct (policy_shared_access_budgets policy !! Z.to_nat j) as [ab|].
  - destruct (update_remaining_budget _ _ _) as [l' r'] eqn:E. intros [= <- <-].
    destruct (update_remaining_spec _ _ _ _ _ H2 E) as (Ha & Hb & Hc). simpl.
    split_and!; [done|done|done|]. intros Hr ab' n [= <-]. by apply Hc.
  - intros [= <- <-]. split_and!; done.
Qed.

Lemma record_shared_loop policy b l b' r :
  blob_in_range b → try_fold (record_shared policy) b l = (b', r) →
  blob_in_range b' ∧ blob_le b' b ∧
  transform_access_budgets b' = transform_access_budgets b ∧
  (r = Ok () → ∀ j ab n, j ∈ l → policy_shared_access_budgets policy !! Z.to_nat j = Some ab →
     budget_kind ab = Some (Times n) →
     units (shared_access_budgets b') j + 1 ≤ units (shared_access_budgets b) j).
Proof.
  revert b. induction l as [|j l IH]; intros b Hb; simpl.
  - intros [= <- <-]. split_and!; [done|done|done|]. intros _ j ab n Hj. by apply elem_of_nil in Hj.
  - destruct (record_shared policy b j) as [b1 r1] eqn:E.
    destruct (record_shared_spec _ _ _ _ _ Hb E) as (Hb1 & [Ht1 Hs1] & Heq & Hdec).
    destruct r1 as [[]|e].
    + intros Hf. destruct (IH b1 Hb1 Hf) as (Hb' & [Ht2 Hs2] & Heq2 & Hdec2).
      split_and!; [done| |congruence|].
      * split; intros k; etrans; eauto.
      * intros Hr j' ab n [->|Hj]%elem_of_cons Hab Hn.
        -- specialize (Hdec eq_refl ab n Hab Hn). specialize (Hs2 j). lia.
        -- specialize (Hdec2 Hr j' ab n Hj Hab Hn). specialize (Hs1 j'). lia.
    + intros [= <- <-]. by split_and!.
Qed.

Lemma record_access_spec b i policy b' r :
  blob_in_range b → record_access b i policy = Return (b', r) →
  blob_in_range b' ∧ blob_le b' b ∧
  (r = Ok () → ∀ t, policy_transforms policy !! Z.to_nat i = Some t →
    (∀ n, transform_access_budget t = Some {| budget_kind := Some (Times n) |} →
       units (transform_access_budgets b') i + 1 ≤ units (transform_access_budgets b) i) ∧
    (∀ j ab n, j ∈ transform_shared_access_budget_indices t →
       policy_shared_access_budgets policy !! Z.to_nat j = Some ab →
       budget_kind ab = Some (Times n) →
       units (shared_access_budgets b') j + 1 ≤ units (shared_access_budgets b) j)).
Proof.
  intros [H1 H2] Hrec. unfold record_access in Hrec. outcome_inv.
  destruct (policy_transforms policy !! Z.to_nat i) as [t|] eqn:Et; [|done].
  simplify_eq. rename x into t.
  set (first := match transform_access_budget t with
    | Some access_budget =>
        let '(budgets, r) :=
          update_remaining_budget (transform_access_budgets b) i access_budget in
        ({| transform_access_budgets := budgets;
            shared_access_budgets := shared_access_budgets b |}, r)
    | None => (b, Ok ())
    end) in Hrec.
  assert (∃ b1 r1, first = (b1, r1) ∧ blob_in_range b1 ∧ blob_le b1 b ∧
    shared_access_budgets b1 = shared_access_budgets b ∧
    (r1 = Ok () → ∀ n, transform_access_budget t = Some {| budget_kind := Some (Times n) |} →
       units (transform_access_budgets b1) i + 1 ≤ units (transform_access_budgets b) i))
    as (b1 & r1 & Hfirst & Hb1 & [Hle1 Hle1'] & Hs1 & Hdec1).
  { subst first. destruct (transform_access_budget t) as [ab|]; [|by eexists _, _; split_and!].
    destruct (update_remaining_budget _ _ _) as [l' r'] eqn:E.
    destruct (update_remaining_spec _ _ _ _ _ H1 E) as (Ha & Hb & Hc).
    eexists _, _. split_and!; [reflexivity|done|done|done|]. intros Hr n [= ->]. by eapply Hc. }
  rewrite Hfirst in Hrec. destruct r1 as [[]|e]; outcome_inv.
  - destruct (record_shared_loop _ _ _ _ _ Hb1 Hrec) as (Hb' & [Hle2 Hle2'] & Heq & Hdec2).
    rewrite Heq in *. rewrite Hs1 in *. split; [done|].
    split; [split; [intros k; rewrite Heq; apply Hle1|done]|].
    intros Hr t' [= <-]. split; [by apply Hdec1|by apply Hdec2].
  - by simplify_eq.
Qed.

(** ** Approval implies recording *)

Lemma has_remaining_updates l i ab :
  has_remaining_budget l i ab = true → ∃ l', update_remaining_budget l i ab = (l', Ok ()) ∧
    ∀ k, Z.to_nat k ≠ Z.to_nat i → l' !! Z.to_nat k = l !! Z.to_nat k.
Proof.
  unfold has_remaining_budget, update_remaining_budget.
  destruct (budget_kind ab) as [[n]|]; [|eauto].
  rewrite bool_decide_eq_true. destruct (l !! Z.to_nat i) as [b|]; simpl; [|lia].
  intros Hb. rewrite decide_True by done. eexists. split; [done|].
  intros k Hk. by rewrite list_lookup_insert_ne.
Qed.

Definition shared_available (policy : Policy) (b : BlobBudget) (j : Z) : bool :=
  match policy_shared_access_budgets policy !! Z.to_nat j with
  | Some access_budget => has_remaining_budget (shared_access_budgets b) j access_budget
  | None => false
  end.

Lemma shared_loop_succeeds policy b l :
  NoDup (Z.to_nat <$> l) → forallb (shared_available policy b) l = true →
  ∃ b', try_fold (record_shared policy) b l = (b', Ok ()).
Proof.
  revert b. induction l as [|j l IH]; intros b Hnd Hall; simpl; [eauto|].
  simpl in Hall. apply andb_true_iff in Hall as [Hj Hall].
  inversion_clear Hnd as [|? ? Hnin Hnd'].
  unfold shared_available in Hj. unfold record_shared at 1.
  destruct (policy_shared_access_budgets policy !! Z.to_nat j) as [ab|]; [|done].
  destruct (has_remaining_updates _ _ _ Hj) as (l' & -> & Hkeep).
  apply IH; [done|]. rewrite forallb_forall in Hall |- *. intros k Hk.
  specialize (Hall k Hk). revert Hall. unfold shared_available.
  destruct (policy_shared_access_budgets policy !! Z.to_nat k) as [ab'|]; [|done]. simpl.
  unfold has_remaining_budget. rewrite Hkeep; [done|].
  intros Heq. apply Hnin. rewrite <- Heq. apply list_elem_of_fmap_2, list_elem_of_In, Hk.
Qed.

Lemma allows_access_records b i policy t :
  policy_transforms policy !! Z.to_nat i = Some t →
  NoDup (Z.to_nat <$> transform_shared_access_budget_indices t) →
  allows_access b i policy = Return true →
  ∃ b', record_access b i policy = Return (b', Ok ()).
Proof.
  intros Ht Hnd. unfold allows_access, record_access. rewrite Ht. simpl.
  intros [= Hall]. apply andb_true_iff in Hall as [Hfirst Hshared].
  destruct (transform_access_budget t) as [ab|].
  - destruct (has_remaining_updates _ _ _ Hfirst) as (l' & -> & _).
    destruct (shared_loop_succeeds policy
      {| transform_access_budgets := l'; shared_access_budgets := shared_access_budgets b |}
      (transform_shared_access_budget_indices t)) as [b' Hb']; [done|done|].
    exists b'. by rewrite Hb'.
  - destruct (shared_loop_succeeds policy b (transform_shared_access_budget_indices t))
      as [b' Hb']; [done|done|]. exists b'. by rewrite Hb'.
Qed.

(** ** Runs

    The caller guarantees that a policy hash identifies its policy. *)

Variable policy_of : bytes → Policy.

Inductive budget_op :=
| OpUpdate (blob_id : bytes) (transform_index : Z) (policy_hash : bytes)
| OpConsume (blob_id : bytes).

(** One call, with whether it recorded an access. *)
Definition budget_call (t : BudgetTracker) (op : budget_op) : outcome (BudgetTracker * bool) :=
  match op with
  | OpUpdate b i h => '(t, r) ← update_budget t b i (policy_of h) h; Return (t, is_ok r)
  | OpConsume b => Return (consume_budget t b, false)
  end.

(** Runs calls, logging which succeeded. *)
Definition budget_log_step (st : BudgetTracker * list (budget_op * bool)) (op : budget_op)
    : outcome (BudgetTracker * list (budget_op * bool)) :=
  '(t, ok) ← budget_call st.1 op; Return (t, st.2 ++ [(op, ok)]).

Definition is_access (h b : bytes) (uses : Z → bool) (e : budget_op * bool) : bool :=
  match e with
  | (OpUpdate b' i h', true) => bool_decide (b' = b) && bool_decide (h' = h) && uses i
  | _ => false
  end.

(** How many recorded accesses of the blob under the policy satisfy [uses]. *)
Definition accesses (log : list (budget_op * bool)) (h b : bytes) (uses : Z → bool) : Z :=
  Z.of_nat (length (filter (λ e, Is_true (is_access h b uses e)) log)).

Lemma accesses_snoc log h b uses e :
  accesses (log ++ [e]) h b uses
  = accesses log h b uses + (if is_access h b uses e then 1 else 0).
Proof.
  unfold accesses. rewrite filter_app, length_app.
  destruct (is_access h b uses e) eqn:E.
  - rewrite (filter_cons_True _ _ []); [simpl; lia|by apply Is_true_true].
  - rewrite (filter_cons_False _ _ []); [simpl; lia|by apply Is_true_false].
Qed.

Definition uses_shared (h : bytes) (j : Z) (i : Z) : bool :=
  match policy_transforms (policy_of h) !! Z.to_nat i with
  | Some t => bool_decide (j ∈ transform_shared_access_budget_indices t)
  | None => false
  end.

(** The limit a policy sets for a use, and what is left of it in a budget. *)
Inductive limit (h : bytes) : (Z → bool) → Z → (BlobBudget → Z) → Prop :=
| limit_transform i t n :
    policy_transforms (policy_of h) !! Z.to_nat i = Some t →
    transform_access_budget t = Some {| budget_kind := Some (Times n) |} →
    limit h (λ i', bool_decide (i' = i)) n (λ b, units (transform_access_budgets b) i)
| limit_shared j ab n :
    policy_shared_access_budgets (policy_of h) !! Z.to_nat j = Some ab →
    budget_kind ab = Some (Times n) →
    limit h (uses_shared h j) n (λ b, units (shared_access_budgets b) j).

Definition policy_in_range (policy : Policy) : Prop :=
  Forall (λ t, in_u32 (initial_transform_budget t)) (policy_transforms policy) ∧
  Forall (λ b, in_u32 (initial_shared_budget b)) (policy_shared_access_budgets policy).

Hypothesis policies_in_range : ∀ h, policy_in_range (policy_of h).

Lemma blob_budget_new_in_range h : blob_in_range (blob_budget_new (policy_of h)).
Proof.
  destruct (policies_in_range h) as [H1 H2]. split; simpl; by apply Forall_fmap.
Qed.

(** A fresh budget holds the limit. *)
Lemma limit_initial h uses n left :
  limit h uses n left → left (blob_budget_new (policy_of h)) = n.
Proof.
  destruct 1 as [i t n Ht Hn|j ab n Hab Hn]; unfold units; simpl; rewrite list_lookup_fmap.
  - rewrite Ht. simpl. unfold initial_transform_budget. by rewrite Hn.
  - rewrite Hab. simpl. unfold initial_shared_budget. by rewrite Hn.
Qed.

Lemma limit_nonneg h uses n left b : limit h uses n left → blob_in_range b → 0 ≤ left b.
Proof.
  intros [i t n' _ _|j ab n' _ _] [H1 H2]; [pose proof (units_nonneg _ i H1) as Hu
    |pose proof (units_nonneg _ j H2) as Hu]; unfold in_u32 in Hu; lia.
Qed.

(** A recorded access takes a unit from every limit it counts against. *)
Lemma limit_record h uses n left b i b' r :
  limit h uses n left → blob_in_range b → record_access b i (policy_of h) = Return (b', r) →
  left b' + (if uses i && is_ok r then 1 else 0) ≤ left b.
Proof.
  intros Hlim Hb Hrec. destruct (record_access_spec _ _ _ _ _ Hb Hrec) as (_ & [Hle Hle'] & Hok).
  destruct Hlim as [i' t n Ht Hn|j ab n Hab Hn].
  - specialize (Hle i'). case_bool_decide as Hi; simpl; [subst i'|lia].
    destruct r as [[]|]; simpl; [|lia]. destruct (Hok eq_refl t Ht) as [H _]. by eapply H.
  - specialize (Hle' j). unfold uses_shared.
    destruct (policy_transforms (policy_of h) !! Z.to_nat i) as [t|] eqn:Ht; simpl; [|lia].
    case_bool_decide as Hj; simpl; [|lia]. destruct r as [[]|]; simpl; [|lia].
    destruct (Hok eq_refl t eq_refl) as [_ H]. by eapply H.
Qed.

Record budget_inv (t : BudgetTracker) (log : list (budget_op * bool)) : Prop := {
  bi_range : ∀ h b, blob_in_range (tracker_budget t b (policy_of h) h);
  bi_limit : ∀ h b uses n left, limit h uses n left →
    accesses log h b uses ≤ n ∧
    (b ∉ bt_consumed_budgets t →
     accesses log h b uses + left (tracker_budget t b (policy_of h) h) ≤ n)
}.

Lemma tracker_budget_entry t b h :
  default (blob_budget_new (policy_of h)) (default ∅ (bt_budgets t !! h) !! b)
  = tracker_budget t b (policy_of h) h.
Proof.
  unfold tracker_budget. destruct (bt_budgets t !! h) as [m|]; simpl; [|by rewrite lookup_empty].
  by destruct (m !! b).
Qed.

(** A tracker after an update of one blob under one policy. *)
Lemma tracker_budget_updated t b h x c b' h' :
  tracker_budget {| bt_budgets := <[h := <[b := x]> (default ∅ (bt_budgets t !! h))]> (bt_budgets t);
                    bt_consumed_budgets := c |} b' (policy_of h') h'
  = if decide (h' = h ∧ b' = b) then x else tracker_budget t b' (policy_of h') h'.
Proof.
  unfold tracker_budget. simpl. destruct (decide (h' = h)) as [->|Hh].
  - rewrite lookup_insert_eq. simpl. destruct (decide (b' = b)) as [->|Hb].
    + by rewrite lookup_insert_eq, decide_True.
    + rewrite lookup_insert_ne, decide_False by naive_solver.
      by destruct (bt_budgets t !! h); simpl; rewrite ?lookup_empty.
  - rewrite lookup_insert_ne, decide_False by naive_solver. done.
Qed.

Lemma tracker_budget_consumed t b b' h :
  b' ≠ b → tracker_budget {| bt_budgets := delete b <$> bt_budgets t;
    bt_consumed_budgets := {[ b ]} ∪ bt_consumed_budgets t |} b' (policy_of h) h
  = tracker_budget t b' (policy_of h) h.
Proof.
  intros Hne. unfold tracker_budget. simpl. rewrite lookup_fmap.
  destruct (bt_budgets t !! h); simpl; [|done]. by rewrite lookup_delete_ne.
Qed.

Lemma budget_update_inv t log b i h t' r :
  budget_inv t log → update_budget t b i (policy_of h) h = Return (t', r) →
  budget_inv t' (log ++ [(OpUpdate b i h, is_ok r)]).
Proof.
  intros [Hrg Hlim] Hup. unfold update_budget in Hup.
  destruct (decide (b ∈ bt_consumed_budgets t)) as [Hc|Hc]; outcome_inv.
  - simplify_eq. split; [done|]. intros h' b' uses n left Hl. rewrite accesses_snoc. simpl.
    rewrite Z.add_0_r. by apply Hlim.
  - destruct x as [x r']. simplify_eq. rewrite tracker_budget_entry in H.
    pose proof (Hrg h b) as Hb.
    destruct (record_access_spec _ _ _ _ _ Hb H) as (Hx & _). split.
    + intros h' b'. rewrite tracker_budget_updated. case_decide; [done|apply Hrg].
    + intros h' b' uses n left Hl. rewrite accesses_snoc, tracker_budget_updated. simpl.
      destruct (Hlim h' b' uses n left Hl) as [H1 H2].
      destruct (decide (h' = h ∧ b' = b)) as [[-> ->]|Hne].
      * rewrite !bool_decide_eq_true_2 by done. simpl.
        pose proof (limit_record h uses n left _ _ _ _ Hl Hb H) as Hrec.
        pose proof (limit_nonneg h uses n left _ Hl Hx). specialize (H2 Hc).
        replace (if is_ok r then uses i else false) with (uses i && is_ok r)
          by (destruct r, (uses i); done).
        destruct r as [[]|], (uses i); simpl in *; split; intros; lia.
      * replace (match is_ok r with true => _ | false => false end) with false; [by rewrite Z.add_0_r|].
        destruct (is_ok r); [|done]. destruct (bool_decide_reflect (b = b')); [|done].
        destruct (bool_decide_reflect (h = h')); [|done]. exfalso. by apply Hne.
Qed.

Lemma budget_consume_inv t log b :
  budget_inv t log → budget_inv (consume_budget t b) (log ++ [(OpConsume b, false)]).
Proof.
  intros [Hrg Hlim].
  assert (∀ h b' uses, accesses (log ++ [(OpConsume b, false)]) h b' uses = accesses log h b' uses)
    as Hacc by (intros; rewrite accesses_snoc; apply Z.add_0_r).
  unfold consume_budget. case_decide as Hc.
  - split; [done|]. intros h b' uses n left Hl. rewrite Hacc. by apply Hlim.
  - split.
    + intros h b'. destruct (decide (b' = b)) as [->|Hne];
        [|rewrite tracker_budget_consumed by done; apply Hrg].
      unfold tracker_budget. simpl. rewrite lookup_fmap.
      destruct (bt_budgets t !! h); simpl; [rewrite lookup_delete_eq|]; apply blob_budget_new_in_range.
    + intros h b' uses n left Hl. rewrite Hacc. destruct (Hlim h b' uses n left Hl) as [H1 H2].
      split; [done|]. simpl. intros [Hn1 Hn2]%not_elem_of_union.
      rewrite not_elem_of_singleton in Hn1. rewrite tracker_budget_consumed by done. by apply H2.
Qed.

Lemma budget_run_inv ops t log :
  ofold budget_log_step (tracker_new, []) ops = Return (t, log) → budget_inv t log.
Proof.
  assert (budget_inv tracker_new []) as Hinit.
  { split; [intros; apply blob_budget_new_in_range|].
    intros h b uses n left Hl. unfold accesses. simpl.
    pose proof (limit_initial h uses n left Hl) as Heq.
    pose proof (limit_nonneg h uses n left _ Hl (blob_budget_new_in_range h)).
    change (tracker_budget tracker_new b (policy_of h) h) with (blob_budget_new (policy_of h)).
    split; [lia|]. intros _. lia. }
  intros Hrun.
  apply (ofold_invariant (λ st, budget_inv st.1 st.2) budget_log_step _ ops _) in Hrun; [done| |done].
  intros [t0 log0] op [t1 log1] Hinv Hstep. unfold budget_log_step, budget_call in Hstep.
  destruct op as [b i h|b].
  - destruct (update_budget _ _ _ _ _) as [[t2 r]|] eqn:E; simplify_eq/=.
    by eapply budget_update_inv.
  - simplify_eq/=. by apply budget_consume_inv.
Qed.

(** ** Consumed blobs *)

Lemma budget_call_consumed t op t' ok b :
  b ∈ bt_consumed_budgets t → budget_call t op = Return (t', ok) → b ∈ bt_consumed_budgets t'.
Proof.
  intros Hb. destruct op as [b' i h|b']; simpl; intros H; outcome_inv.
  - destruct x as [t1 r]. simplify_eq. unfold update_budget in H0.
    case_decide; outcome_inv; [by simplify_eq|]. destruct x as [x r']. by simplify_eq.
  - simplify_eq. unfold consume_budget. case_decide; [done|]. simpl. apply elem_of_union. by right.
Qed.

(** ** Finding a transform *)

(** The transform that is found is one of the policy's, of the right source and
    application, and the budget allows it. *)
Lemma find_transform_spec budget node_id policy app now mf i ts k :
  0 ≤ i → find_transform budget node_id policy app now mf i ts = Return (Ok k) →
  i ≤ k ∧ ∃ t, ts !! Z.to_nat (k - i) = Some t ∧ transform_src t = node_id ∧
    application_matches verify app (transform_application t) now = true ∧
    allows_access budget k policy = Return true.
Proof.
  revert i mf. induction ts as [|t ts IH]; intros i mf Hi; simpl; [done|].
  assert (∀ mf, find_transform budget node_id policy app now mf (i + 1) ts = Return (Ok k) →
    i ≤ k ∧ ∃ t', (t :: ts) !! Z.to_nat (k - i) = Some t' ∧ transform_src t' = node_id ∧
      application_matches verify app (transform_application t') now = true ∧
      allows_access budget k policy = Return true) as Hnext.
  { intros mf' H. apply IH in H as (Hle & t' & Ht & Hrest); [|lia]. split; [lia|].
    exists t'. replace (Z.to_nat (k - i)) with (S (Z.to_nat (k - (i + 1)))) by lia. done. }
  destruct (bool_decide_reflect (transform_src t ≠ node_id)) as [|Hsrc]; simpl; [apply Hnext|].
  destruct (application_matches _ _ _ _) eqn:Happ; simpl; [|apply Hnext].
  intros H. outcome_inv. destruct x; [|by eapply Hnext].
  injection H as <-. split; [lia|]. exists t. rewrite Z.sub_diag.
  split_and!; [done|by apply dec_stable|done|done].
Qed.

(** A transform found by the tracker. *)
Lemma find_matching_transform_Ok t blob_id node_id policy policy_hash app now i :
  find_matching_transform t blob_id node_id policy policy_hash app now = Return (Ok i) →
  blob_id ∉ bt_consumed_budgets t ∧
  ∃ tr, policy_transforms policy !! Z.to_nat i = Some tr ∧ transform_src tr = node_id ∧
    application_matches verify app (transform_application tr) now = true ∧
    allows_access (tracker_budget t blob_id policy policy_hash) i policy = Return true.
Proof.
  unfold find_matching_transform. destruct (decide (blob_id ∈ bt_consumed_budgets t)) as [|Hc]; [done|].
  intros H. apply find_transform_spec in H as (_ & tr & Htr & Hrest); [|done].
  rewrite Z.sub_0_r in Htr. eauto.
Qed.

(** ** Snapshots *)

Lemma load_blobs_spec (l : list (bytes * BlobBudget)) acc :
  NoDup l.*1 → (∀ k, k ∈ l.*1 → acc !! k = None) →
  try_fold load_blob_budget acc
    (map (λ '(blob_id, blob_budget),
       {| bbs_blob_id := blob_id;
          bbs_transform_access_budgets := transform_access_budgets blob_budget;
          bbs_shared_access_budgets := shared_access_budgets blob_budget |}) l)
  = (list_to_map l ∪ acc, Ok ()).
Proof.
  revert acc. induction l as [|[k b] l IH]; intros acc Hnd Hacc; simpl.
  - by rewrite map_empty_union.
  - inversion_clear Hnd as [|? ? Hk Hnd']. unfold load_blob_budget at 1. simpl.
    rewrite (Hacc k) by (by left). destruct b as [tb sb]. simpl. rewrite IH.
    + f_equal. rewrite <- insert_union_l, insert_union_r; [done|].
      by apply not_elem_of_list_to_map_1.
    + done.
    + intros k' Hk'. rewrite lookup_insert_ne by (intros ->; done). apply Hacc. by right.
Qed.

Lemma list_to_map_btree_iter {V} (m : gmap bytes V) :
  list_to_map (btree_iter bytes_le m) = m ∧ NoDup (btree_iter bytes_le m).*1.
Proof.
  pose proof (btree_iter_perm bytes_le m) as Hp.
  assert (NoDup (btree_iter bytes_le m).*1) as Hnd
    by (rewrite Hp; apply NoDup_fst_map_to_list).
  split; [|done]. rewrite <- (list_to_map_to_list m) at 2. by apply list_to_map_proper.
Qed.

Lemma load_policies_spec (l : list (bytes * gmap bytes BlobBudget)) t :
  NoDup l.*1 → (∀ k, k ∈ l.*1 → bt_budgets t !! k = None) →
  try_fold load_per_policy t
    (map (λ '(access_policy_sha256, budgets),
       {| pps_access_policy_sha256 := access_policy_sha256;
          pps_budgets :=
            map (λ '(blob_id, blob_budget),
              {| bbs_blob_id := blob_id;
                 bbs_transform_access_budgets := transform_access_budgets blob_budget;
                 bbs_shared_access_budgets := shared_access_budgets blob_budget |})
              (btree_iter bytes_le budgets) |}) l)
  = ({| bt_budgets := list_to_map l ∪ bt_budgets t;
        bt_consumed_budgets := bt_consumed_budgets t |}, Ok ()).
Proof.
  revert t. induction l as [|[k m] l IH]; intros t Hnd Hacc; simpl.
  - rewrite map_empty_union. by destruct t.
  - inversion_clear Hnd as [|? ? Hk Hnd']. unfold load_per_policy at 1. simpl.
    destruct (list_to_map_btree_iter m) as [Hm Hndm].
    rewrite load_blobs_spec by (try done; intros; apply lookup_empty).
    rewrite Hm, map_union_empty, (Hacc k) by (by left). rewrite IH; simpl.
    + do 2 f_equal. rewrite <- insert_union_l, insert_union_r; [done|].
      by apply not_elem_of_list_to_map_1.
    + done.
    + intros k' Hk'. rewrite lookup_insert_ne by (intros ->; done). apply Hacc. by right.
Qed.

Lemma load_consumed_spec (l : list bytes) t :
  NoDup l → (∀ k, k ∈ l → k ∉ bt_consumed_budgets t) →
  try_fold load_consumed t l
  = ({| bt_budgets := bt_budgets t;
        bt_consumed_budgets := list_to_set l ∪ bt_consumed_budgets t |}, Ok ()).
Proof.
  revert t. induction l as [|k l IH]; intros t Hnd Hacc; simpl.
  - rewrite union_empty_l_L. by destruct t.
  - inversion_clear Hnd as [|? ? Hk Hnd']. unfold load_consumed at 1.
    rewrite decide_False by (apply Hacc; by left). rewrite IH; simpl.
    + do 2 f_equal. rewrite (union_assoc_L (list_to_set l)), (union_comm_L (list_to_set l)). done.
    + done.
    + intros k' Hk'. apply not_elem_of_union. split; [|apply Hacc; by right].
      rewrite elem_of_singleton. by intros ->.
Qed.

Lemma tracker_snapshot_roundtrip t t0 :
  tracker_load_snapshot t0 (tracker_save_snapshot t) = (t, Ok ()).
Proof.
  unfold tracker_load_snapshot, tracker_save_snapshot. simpl.
  destruct (list_to_map_btree_iter (bt_budgets t)) as [Hm Hnd].
  rewrite load_policies_spec by (try done; intros; apply lookup_empty). simpl.
  rewrite Hm, map_union_empty.
  pose proof (merge_sort_Permutation bytes_le (elements (bt_consumed_budgets t))) as Hp.
  rewrite load_consumed_spec; simpl.
  - destruct t as [m c]. simpl in *. do 2 f_equal. rewrite union_empty_r_L.
    apply set_eq. intros x. by rewrite elem_of_list_to_set, Hp, elem_of_elements.
  - rewrite Hp. apply NoDup_elements.
  - intros k _. apply not_elem_of_empty.
Qed.

(** * Claims *)

(** C2: No budget is ever exceeded.  In any sequence of updates and consumptions on
    a fresh tracker, under policies identified by their hashes, the number of
    accesses recorded for a blob with a transform is at most the transform's budget,
    and the number recorded with all transforms that draw on a shared budget is at
    most that shared budget. *)
Theorem budget_never_exceeded ops t log h b :
  ofold budget_log_step (tracker_new, []) ops = Return (t, log) →
  (∀ i tr n, policy_transforms (policy_of h) !! Z.to_nat i = Some tr →
     transform_access_budget tr = Some {| budget_kind := Some (Times n) |} →
     accesses log h b (λ i', bool_decide (i' = i)) ≤ n) ∧
  (∀ j ab n, policy_shared_access_budgets (policy_of h) !! Z.to_nat j = Some ab →
     budget_kind ab = Some (Times n) →
     accesses log h b (uses_shared h j) ≤ n).
Proof.
  intros Hrun%budget_run_inv. split.
  - intros i tr n Htr Hn.
    apply (proj1 (bi_limit _ _ Hrun h b _ n _ (limit_transform h i tr n Htr Hn))).
  - intros j ab n Hab Hn.
    apply (proj1 (bi_limit _ _ Hrun h b _ n _ (limit_shared h j ab n Hab Hn))).
Qed.

(** An approved access can be recorded.  When a transform is found for an
    application, it is a transform of the policy for the node that the application
    matches, and, if it lists each shared budget once, updating the budget of the
    unchanged tracker with it succeeds. *)
Theorem approved_access_recorded t blob_id node_id policy policy_hash app now i :
  find_matching_transform t blob_id node_id policy policy_hash app now = Return (Ok i) →
  ∃ tr, policy_transforms policy !! Z.to_nat i = Some tr ∧ transform_src tr = node_id ∧
    application_matches verify app (transform_application tr) now = true ∧
    (NoDup (Z.to_nat <$> transform_shared_access_budget_indices tr) →
     ∃ t', update_budget t blob_id i policy policy_hash = Return (t', Ok ())).
Proof.
  intros (Hc & tr & Htr & Hsrc & Happ & Hallow)%find_matching_transform_Ok.
  exists tr. split_and!; try done. intros Hnd. unfold update_budget. rewrite decide_False by done.
  assert (default (blob_budget_new policy) (default ∅ (bt_budgets t !! policy_hash) !! blob_id)
    = tracker_budget t blob_id policy policy_hash) as ->.
  { unfold tracker_budget. destruct (bt_budgets t !! policy_hash) as [m|]; simpl;
      [by destruct (m !! blob_id)|by rewrite lookup_empty]. }
  destruct (allows_access_records _ _ _ _ Htr Hnd Hallow) as [b' ->]. simpl. eauto.
Qed.

(** The trackers since a blob was consumed: by updates and consumptions, and by loading, into
    any tracker, a snapshot that was saved since. *)
Inductive consumed_since (blob_id : bytes) : BudgetTracker → Prop :=
| since_consume t : consumed_since blob_id (consume_budget t blob_id)
| since_call t op t' ok : consumed_since blob_id t → budget_call t op = Return (t', ok) →
    consumed_since blob_id t'
| since_restore t t0 t' r : consumed_since blob_id t →
    tracker_load_snapshot t0 (tracker_save_snapshot t) = (t', r) → consumed_since blob_id t'.

Lemma consumed_since_consumed blob_id t : consumed_since blob_id t → blob_id ∈ bt_consumed_budgets t.
Proof.
  induction 1 as [t|t op t' ok _ IH H|t t0 t' r _ IH H].
  - unfold consume_budget. case_decide; [done|]. simpl. apply elem_of_union. left.
    by apply elem_of_singleton.
  - by eapply budget_call_consumed.
  - rewrite tracker_snapshot_roundtrip in H. by injection H as <- _.
Qed.

(** C32: A consumed budget stays consumed.  Once a blob's budget has been consumed, after any
    further updates and consumptions, and also in any tracker that loaded a snapshot saved
    since, every lookup for that blob reports exhaustion and every update for it fails and
    leaves the tracker unchanged, under every policy. *)
Theorem consumed_stays_consumed blob_id t node_id policy policy_hash app now i :
  consumed_since blob_id t →
  find_matching_transform t blob_id node_id policy policy_hash app now
  = Return (Err (new_with_message StatusResourceExhausted "data access budget consumed")) ∧
  ∃ e, update_budget t blob_id i policy policy_hash = Return (t, Err e).
Proof.
  intros Hc%consumed_since_consumed.
  unfold find_matching_transform, update_budget. rewrite !decide_True by done. eauto.
Qed.
End budget.

(** * Concrete instances *)

Section budget_samples.
#[local] Abbreviation sample_verify := (λ (_ : Z) (_ _ _ : unit), true).

(** Two transforms of node 0; the second draws twice on the only shared budget. *)
Definition sample_policy : @DataAccessPolicy unit :=
  {| policy_transforms :=
       [ {| transform_src := 0; transform_dest := None; transform_application := None;
            transform_access_budget := Some {| budget_kind := Some (Times 1) |};
            transform_shared_access_budget_indices := [0] |};
         {| transform_src := 0; transform_dest := None; transform_application := None;
            transform_access_budget := None;
            transform_shared_access_budget_indices := [0; 0] |} ];
     policy_shared_access_budgets := [ {| budget_kind := Some (Times 2) |} ] |}.

Definition sample_blob : bytes := [Byte.x01].

Definition sample_app : @Application unit unit :=
  {| app_tag := "app"; app_evidence := None; app_endorsements := None;
     app_config_properties := None |}.

(** The second access with the first transform fails. *)
Lemma budget_never_exceeded_witness :
  match ofold (budget_log_step (λ _, sample_policy)) (tracker_new, [])
          [OpUpdate sample_blob 0 []; OpUpdate sample_blob 0 []] with
  | Return (t, log) => accesses log [] sample_blob (λ i', bool_decide (i' = 0)) ≤ 1
  | Panic => False
  end.
Proof.
  destruct (ofold _ _ _) as [[t log]|] eqn:E; [|vm_compute in E; discriminate E].
  eapply (proj1 (budget_never_exceeded (λ _, sample_policy) ltac:(by repeat constructor)
    _ t log [] sample_blob E)); reflexivity.
Defined.

Lemma approved_access_recorded_witness :
  ∃ t', update_budget tracker_new sample_blob 0 sample_policy [] = Return (t', Ok ()).
Proof.
  destruct (approved_access_recorded sample_verify tracker_new sample_blob 0 sample_policy []
    sample_app 0 0) as (tr & Htr & _ & _ & H); [by vm_compute|].
  injection Htr as <-. apply H. by repeat constructor; set_solver.
Defined.

(** A tracker restored from a snapshot that was saved after the revocation. *)
Lemma consumed_stays_consumed_witness :
  let t := (tracker_load_snapshot tracker_new
              (tracker_save_snapshot (consume_budget tracker_new sample_blob))).1 in
  ∃ e, update_budget t sample_blob 0 sample_policy [] = Return (t, Err e).
Proof.
  refine (proj2 (consumed_stays_consumed sample_verify (λ _, sample_policy) sample_blob _ 0
    sample_policy [] sample_app 0 0 _)).
  eapply since_restore; [apply since_consume|apply surjective_pairing].
Defined.

(** A snapshot that was saved before the revocation brings the budget back. *)
Lemma older_snapshot_restores_budget :
  sample_blob ∈ bt_consumed_budgets (consume_budget tracker_new sample_blob) ∧
  tracker_load_snapshot (consume_budget tracker_new sample_blob) (tracker_save_snapshot tracker_new)
  = (tracker_new, Ok ()).
Proof.
  split; [|apply tracker_snapshot_roundtrip]. by apply (consumed_since_consumed (λ _, sample_policy)), since_consume.
Qed.

(** A transform that lists a shared budget twice is approved with one unit left and
    then fails to record, after taking that unit. *)
Lemma duplicate_shared_index_partial :
  let b := {| transform_access_budgets := [1; 0]; shared_access_budgets := [1] |} in
  allows_access b 1 sample_policy = Return true ∧
  ∃ e, record_access b 1 sample_policy
       = Return ({| transform_access_budgets := [1; 0]; shared_access_budgets := [0] |}, Err e).
Proof. split; [done|]. by eexists. Qed.
End budget_samples.
