(* ===== verification/Crypto.v ===== *)
(** * Message encryption and key rewrapping

    [src/apps/ledger/cfc_crypto/src/lib.rs].  HPKE, AES-GCM-SIV and the COSE
    encodings are libraries: they are parameters, with the laws their
    documentation states (what was sealed or encrypted opens, what was encoded
    decodes).  Randomness is an explicit argument. *)

From S2P Require Import Prelude.

(** ** COSE data (the parts the source reads and writes) *)

Inductive KeyType := KtyAssigned (k : Z) | KtyText (s : string).

Inductive Algorithm := AlgAssigned (a : Z) | AlgPrivateUse (a : Z) | AlgText (s : string).

Inductive Label := LabelInt (l : Z) | LabelText (s : string).

Inductive CborValue := CborInteger (z : Z) | CborBytes (b : bytes) | CborOther.

Inductive ClaimName := ClaimAssigned (c : Z) | ClaimPrivateUse (c : Z) | ClaimText (s : string).

#[global] Instance KeyType_eq_dec : EqDecision KeyType.
Proof. solve_decision. Defined.
#[global] Instance Algorithm_eq_dec : EqDecision Algorithm.
Proof. solve_decision. Defined.
#[global] Instance Label_eq_dec : EqDecision Label.
Proof. solve_decision. Defined.
#[global] Instance CborValue_eq_dec : EqDecision CborValue.
Proof. solve_decision. Defined.
#[global] Instance ClaimName_eq_dec : EqDecision ClaimName.
Proof. solve_decision. Defined.

Record CoseKey := {
  ck_kty : KeyType;
  ck_key_id : bytes;
  ck_alg : option Algorithm;
  ck_params : list (Label * CborValue)
}.

(** IANA registry values. *)
Definition iana_OKP : Z := 1.
Definition iana_Symmetric : Z := 4.
Definition iana_OkpCrv : Z := -1.
Definition iana_OkpX : Z := -2.
Definition iana_SymmetricK : Z := -1.
Definition iana_X25519 : Z := 4.
Definition iana_ES256 : Z := -7.

Definition PUBLIC_KEY_CLAIM : Z := -65537.
Definition CONFIG_PROPERTIES_CLAIM : Z := -65538.
Definition HPKE_BASE_X25519_SHA256_AES128GCM : Z := -65537.
Definition AEAD_AES_128_GCM_SIV_FIXED_NONCE : Z := -65538.

(** The claims of a CBOR web token: the times in whole seconds, and the claims that
    are not registered ones. *)
Record ClaimsSet := {
  claims_expiration_time : option Z;
  claims_issued_at : option Z;
  claims_rest : list (ClaimName * CborValue)
}.

(** ** The libraries *)

(** [coset]: encodings, and signed messages as the source builds and reads them. *)
Class Coset : Type := {
  cose_key_to_vec : CoseKey → option bytes;
  cose_key_from_slice : bytes → option CoseKey;
  cose_key_roundtrip : ∀ k b, cose_key_to_vec k = Some b → cose_key_from_slice b = Some k;
  claims_to_vec : ClaimsSet → option bytes;
  claims_from_slice : bytes → option ClaimsSet;
  claims_roundtrip : ∀ c b, claims_to_vec c = Some b → claims_from_slice b = Some c;
  CoseSign1 : Type;
  sign1_to_vec : CoseSign1 → option bytes;
  sign1_from_slice : bytes → option CoseSign1;
  sign1_roundtrip : ∀ m b, sign1_to_vec m = Some b → sign1_from_slice b = Some m;
  (* a message with this algorithm in its protected header, and this payload *)
  sign1_new : option Algorithm → bytes → CoseSign1;
  (* the bytes to be signed, given the additional data *)
  sign1_tbs : CoseSign1 → bytes → bytes;
  sign1_with_signature : CoseSign1 → bytes → CoseSign1;
  sign1_alg : CoseSign1 → option Algorithm;
  sign1_payload : CoseSign1 → option bytes;
  sign1_signature : CoseSign1 → bytes;
  sign1_built_payload : ∀ a p s, sign1_payload (sign1_with_signature (sign1_new a p) s) = Some p
}.

Class Hpke (Rng : Type) : Type := {
  PrivateKey : Type;
  PublicKey : Type;
  EncappedKey : Type;
  kem_gen_keypair : Rng → PrivateKey * PublicKey;
  private_key_to_bytes : PrivateKey → bytes;
  private_key_from_bytes : bytes → option PrivateKey;
  public_key_to_bytes : PublicKey → bytes;
  public_key_from_bytes : bytes → option PublicKey;
  encapped_key_to_bytes : EncappedKey → bytes;
  encapped_key_from_bytes : bytes → option EncappedKey;
  single_shot_seal : PublicKey → bytes → bytes → Rng → option (EncappedKey * bytes);
  single_shot_open : PrivateKey → EncappedKey → bytes → bytes → option bytes;
  private_key_roundtrip : ∀ k, private_key_from_bytes (private_key_to_bytes k) = Some k;
  public_key_roundtrip : ∀ k, public_key_from_bytes (public_key_to_bytes k) = Some k;
  encapped_key_roundtrip : ∀ k, encapped_key_from_bytes (encapped_key_to_bytes k) = Some k;
  seal_open : ∀ r0 plaintext aad r e c,
    single_shot_seal (kem_gen_keypair r0).2 plaintext aad r = Some (e, c) →
    single_shot_open (kem_gen_keypair r0).1 e c aad = Some plaintext
}.

(** AES-128-GCM-SIV with the fixed nonce: the key material is its bytes. *)
Class AeadCipher (Rng : Type) : Type := {
  aead_generate_key : Rng → bytes;
  (* [new_from_slice] checks the length *)
  aead_key_ok : bytes → bool;
  aead_encrypt : bytes → bytes → bytes → option bytes;
  aead_decrypt : bytes → bytes → bytes → option bytes;
  aead_generated_ok : ∀ r, aead_key_ok (aead_generate_key r) = true;
  aead_roundtrip : ∀ k msg aad c,
    aead_key_ok k = true → aead_encrypt k msg aad = Some c → aead_decrypt k c aad = Some msg
}.

Section crypto.
Context {Rng : Type} `{!Coset, !Hpke Rng, !AeadCipher Rng}.

Abbreviation Error := string.

(** [params.iter().find(|(label, _)| ...).and_then(|(_, value)| value.as_bytes())] *)
Definition find_param (params : list (Label * CborValue)) (label : Label) : option CborValue :=
  snd ∘ snd <$> list_find (λ p, p.1 = label) params.

Definition as_bytes (v : CborValue) : option bytes :=
  match v with CborBytes b => Some b | _ => None end.

Definition wrap_symmetric_key (symmetric_key : bytes) (recipient_public_key : CoseKey)
    (associated_data : bytes) (rng : Rng) : result Error (bytes * bytes) :=
  if decide (ck_kty recipient_public_key ≠ KtyAssigned iana_OKP ∨
      ck_alg recipient_public_key ≠ Some (AlgPrivateUse HPKE_BASE_X25519_SHA256_AES128GCM) ∨
      ¬ Exists (λ p, p.1 = LabelInt iana_OkpCrv ∧ p.2 = CborInteger iana_X25519)
          (ck_params recipient_public_key))
  then Err "unsupported CoseKey type"
  else
    raw_recipient_public_key ←
      ok_or (find_param (ck_params recipient_public_key) (LabelInt iana_OkpX) ≫= as_bytes)
        "CoseKey missing X parameter";
    public_key ←
      ok_or (public_key_from_bytes raw_recipient_public_key)
        "failed to parse recipient public key";
    '(encapped_key, encrypted_symmetric_key) ←
      ok_or (single_shot_seal public_key symmetric_key associated_data rng) "failed to seal key";
    Ok (encapped_key_to_bytes encapped_key, encrypted_symmetric_key).

Definition unwrap_symmetric_key (encrypted_symmetric_key serialized_encapped_key : bytes)
    (private_key : PrivateKey) (associated_data : bytes) : result Error bytes :=
  encapped_key ←
    ok_or (encapped_key_from_bytes serialized_encapped_key) "failed to load encapped key";
  ok_or (single_shot_open private_key encapped_key encrypted_symmetric_key associated_data)
    "failed to unwrap symmetric key".

Definition gen_keypair (key_id : bytes) (rng : Rng) : PrivateKey * CoseKey :=
  let '(private_key, raw_public_key) := kem_gen_keypair rng in
  (private_key,
   {| ck_kty := KtyAssigned iana_OKP;
      ck_key_id := key_id;
      ck_alg := Some (AlgPrivateUse HPKE_BASE_X25519_SHA256_AES128GCM);
      ck_params :=
        [ (LabelInt iana_OkpCrv, CborInteger iana_X25519);
          (LabelInt iana_OkpX, CborBytes (public_key_to_bytes raw_public_key)) ] |}).

(** [key_rng] draws the symmetric key, [rng] the encapsulation. *)
Definition encrypt_message (plaintext : bytes) (public_key : CoseKey) (associated_data : bytes)
    (key_rng rng : Rng) : result Error (bytes * bytes * bytes) :=
  let symmetric_key := aead_generate_key key_rng in
  ciphertext ←
    ok_or (aead_encrypt symmetric_key plaintext associated_data) "failed to encrypt plaintext";
  cose_key ←
    ok_or (cose_key_to_vec
      {| ck_kty := KtyAssigned iana_Symmetric;
         ck_key_id := [];
         ck_alg := Some (AlgPrivateUse AEAD_AES_128_GCM_SIV_FIXED_NONCE);
         ck_params := [ (LabelInt iana_SymmetricK, CborBytes symmetric_key) ] |})
      "failed to serialize CoseKey";
  '(encapped_key, encrypted_symmetric_key) ←
    wrap_symmetric_key cose_key public_key associated_data rng;
  Ok (ciphertext, encapped_key, encrypted_symmetric_key).

Definition rewrap_symmetric_key (encrypted_symmetric_key serialized_encapped_key : bytes)
    (private_key : PrivateKey) (unwrap_associated_data : bytes) (recipient_public_key : CoseKey)
    (wrap_associated_data : bytes) (rng : Rng) : result Error (bytes * bytes) :=
  symmetric_key ←
    unwrap_symmetric_key encrypted_symmetric_key serialized_encapped_key private_key
      unwrap_associated_data;
  wrap_symmetric_key symmetric_key recipient_public_key wrap_associated_data rng.

Definition decrypt_message (ciphertext ciphertext_associated_data encrypted_symmetric_key
    encrypted_symmetric_key_associated_data serialized_encapped_key : bytes)
    (private_key : PrivateKey) : result Error bytes :=
  symmetric_key ←
    unwrap_symmetric_key encrypted_symmetric_key serialized_encapped_key private_key
      encrypted_symmetric_key_associated_data;
  cose_key ← ok_or (cose_key_from_slice symmetric_key) "failed to decode CoseKey";
  if decide (ck_kty cose_key ≠ KtyAssigned iana_Symmetric ∨
             ck_alg cose_key ≠ Some (AlgPrivateUse AEAD_AES_128_GCM_SIV_FIXED_NONCE))
  then Err "unsupported CoseKey type"
  else
    raw_symmetric_key ←
      ok_or (find_param (ck_params cose_key) (LabelInt iana_SymmetricK) ≫= as_bytes)
        "CoseKey missing K parameter";
    if aead_key_ok raw_symmetric_key
    then ok_or (aead_decrypt raw_symmetric_key ciphertext ciphertext_associated_data)
           "failed to decrypt data"
    else Err "failed to load symmetric key".

Definition extract_key_from_cwt (cwt : bytes) : result Error CoseKey :=
  claims ←
    ok_or (cwt ← sign1_from_slice cwt; claims_from_slice (default [] (sign1_payload cwt)))
      "failed to decode CWT claims";
  '(_, value) ←
    ok_or (snd <$> list_find (λ c, c.1 = ClaimPrivateUse PUBLIC_KEY_CLAIM) (claims_rest claims))
      "missing public key claim";
  bytes ← ok_or (as_bytes value) "invalid public key claim";
  ok_or (cose_key_from_slice bytes) "failed to decode CoseKey".

(** * Properties *)

Lemma result_bind_Ok {E A B} (m : result E A) (f : A → result E B) b :
  m ≫= f = Ok b ↔ ∃ a, m = Ok a ∧ f a = Ok b.
Proof. destruct m as [a|]; simpl; naive_solver. Qed.

(** Wrapping for a generated key and unwrapping with its private half. *)
Lemma wrap_unwrap key_id r0 symmetric_key aad r e c :
  wrap_symmetric_key symmetric_key (gen_keypair key_id r0).2 aad r = Ok (e, c) →
  unwrap_symmetric_key c e (gen_keypair key_id r0).1 aad = Ok symmetric_key.
Proof.
  unfold gen_keypair. pose proof (seal_open r0 symmetric_key aad r) as Hso.
  destruct (kem_gen_keypair r0) as [sk pk]. simpl in *.
  unfold wrap_symmetric_key. case_decide; [done|]. simpl.
  rewrite public_key_roundtrip. simpl.
  destruct (single_shot_seal pk symmetric_key aad r) as [[ek c']|]; [|done]. simpl.
  intros [= <- <-]. unfold unwrap_symmetric_key. rewrite encapped_key_roundtrip. simpl.
  by rewrite (Hso ek c').
Qed.

(** What was encrypted for one generated key and rewrapped for another is decrypted
    with the other. *)
Lemma rewrap_decrypt ledger_id recipient_id r1 r2 plaintext aad key_rng rng rng' rewrap_aad
    ciphertext encapped encrypted encapped' encrypted' :
  encrypt_message plaintext (gen_keypair ledger_id r1).2 aad key_rng rng
  = Ok (ciphertext, encapped, encrypted) →
  rewrap_symmetric_key encrypted encapped (gen_keypair ledger_id r1).1 aad
    (gen_keypair recipient_id r2).2 rewrap_aad rng' = Ok (encapped', encrypted') →
  decrypt_message ciphertext aad encrypted' rewrap_aad encapped' (gen_keypair recipient_id r2).1
  = Ok plaintext.
Proof.
  unfold encrypt_message. intros Henc Hrew.
  apply result_bind_Ok in Henc as (ct & Hct%ok_or_Ok & Henc).
  apply result_bind_Ok in Henc as (ck & Hck%ok_or_Ok & Henc).
  apply result_bind_Ok in Henc as ([e c] & Hwrap & [= -> -> ->]).
  apply wrap_unwrap in Hwrap. unfold rewrap_symmetric_key in Hrew. rewrite Hwrap in Hrew.
  simpl in Hrew. apply wrap_unwrap in Hrew. unfold decrypt_message. rewrite Hrew. simpl.
  rewrite (cose_key_roundtrip _ _ Hck). simpl. rewrite aead_generated_ok.
  by rewrite (aead_roundtrip _ _ _ _ (aead_generated_ok key_rng) Hct).
Qed.
End crypto.

(** * A concrete instance: a toy cipher, which meets the laws *)

#[global] Instance CborValue_countable : Countable CborValue :=
  inj_countable' (λ v, match v with
                       | CborInteger z => inl z | CborBytes b => inr (inl b)
                       | CborOther => inr (inr ()) end)
    (λ v, match v with
          | inl z => CborInteger z | inr (inl b) => CborBytes b | inr (inr _) => CborOther end)
    ltac:(by intros []).
#[global] Instance Label_countable : Countable Label :=
  inj_countable' (λ l, match l with LabelInt z => inl z | LabelText s => inr s end)
    (λ l, match l with inl z => LabelInt z | inr s => LabelText s end) ltac:(by intros []).
#[global] Instance KeyType_countable : Countable KeyType :=
  inj_countable' (λ l, match l with KtyAssigned z => inl z | KtyText s => inr s end)
    (λ l, match l with inl z => KtyAssigned z | inr s => KtyText s end) ltac:(by intros []).
#[global] Instance Algorithm_countable : Countable Algorithm :=
  inj_countable' (λ l, match l with AlgAssigned z => inl z | AlgPrivateUse z => inr (inl z)
                       | AlgText s => inr (inr s) end)
    (λ l, match l with inl z => AlgAssigned z | inr (inl z) => AlgPrivateUse z
          | inr (inr s) => AlgText s end) ltac:(by intros []).
#[global] Instance CoseKey_eq_dec : EqDecision CoseKey.
Proof. solve_decision. Defined.
#[global] Instance CoseKey_countable : Countable CoseKey :=
  inj_countable' (λ k, (ck_kty k, ck_key_id k, ck_alg k, ck_params k))
    (λ '(a, b, c, d), Build_CoseKey a b c d) ltac:(by intros []).

#[global] Instance ClaimName_countable : Countable ClaimName :=
  inj_countable' (λ l, match l with ClaimAssigned z => inl z | ClaimPrivateUse z => inr (inl z)
                       | ClaimText s => inr (inr s) end)
    (λ l, match l with inl z => ClaimAssigned z | inr (inl z) => ClaimPrivateUse z
          | inr (inr s) => ClaimText s end) ltac:(by intros []).
(** A value in front of raw bytes, ended by a marker. *)
Definition frame {A} `{Countable A} (x : A) (b : bytes) : bytes :=
  pos_to_bytes (encode x) ++ Byte.x02 :: b.

Fixpoint take_frame (l : bytes) : option (positive * bytes) :=
  match l with
  | Byte.x00 :: l => '(p, b) ← take_frame l; Some (xO p, b)
  | Byte.x01 :: l => '(p, b) ← take_frame l; Some (xI p, b)
  | Byte.x02 :: l => Some (xH, l)
  | _ => None
  end.

Definition unframe {A} `{Countable A} (l : bytes) : option (A * bytes) :=
  '(p, b) ← take_frame l; x ← decode p; Some (x, b).

Lemma unframe_frame {A} `{Countable A} (x : A) b : unframe (frame x b) = Some (x, b).
Proof.
  unfold unframe, frame. assert (∀ p, take_frame (pos_to_bytes p ++ Byte.x02 :: b) = Some (p, b)) as ->.
  { intros p. by induction p as [p IH|p IH|]; simpl; rewrite ?IH. }
  simpl. by rewrite decode_encode.
Qed.

Definition toy_claims_to_vec (c : ClaimsSet) : option bytes :=
  match claims_rest c with
  | [(name, CborBytes b)] => Some (frame (claims_expiration_time c, claims_issued_at c, name) b)
  | _ => None
  end.

Definition toy_claims (b : bytes) : option ClaimsSet :=
  '(e, i, name, b) ← unframe b; Some (Build_ClaimsSet e i [(name, CborBytes b)]).

Definition toy_sign1 (b : bytes) : option (option Algorithm * bytes * bytes) :=
  '(a, s, p) ← unframe b; Some (a, p, s).

(** Claims sets with one private claim, and any signed message. *)
Program Definition toy_coset : Coset :=
  {| cose_key_to_vec k := Some (pos_to_bytes (encode k));
     cose_key_from_slice b := decode (pos_of_bytes b);
     claims_to_vec := toy_claims_to_vec;
     claims_from_slice := toy_claims;
     CoseSign1 := option Algorithm * bytes * bytes;
     sign1_to_vec m := Some (frame (m.1.1, m.2) m.1.2);
     sign1_from_slice := toy_sign1;
     sign1_new a p := (a, p, []);
     sign1_tbs m aad := m.1.2 ++ aad;
     sign1_with_signature m s := (m.1, s);
     sign1_alg m := m.1.1;
     sign1_payload m := Some m.1.2;
     sign1_signature m := m.2 |}.
Next Obligation. intros k b [= <-]. by rewrite pos_of_to_bytes, decode_encode. Qed.
Next Obligation.
  intros [e i [|[name [z|bs|]] [|]]] b H; try discriminate H.
  injection H as <-. unfold toy_claims. by rewrite unframe_frame.
Qed.
Next Obligation. intros [[a p] sg] b [= <-]. unfold toy_sign1. by rewrite unframe_frame. Qed.
Next Obligation. done. Qed.

Program Definition toy_hpke : Hpke unit :=
  {| PrivateKey := unit; PublicKey := unit; EncappedKey := unit;
     kem_gen_keypair _ := ((), ());
     private_key_to_bytes _ := []; private_key_from_bytes _ := Some ();
     public_key_to_bytes _ := []; public_key_from_bytes _ := Some ();
     encapped_key_to_bytes _ := []; encapped_key_from_bytes _ := Some ();
     single_shot_seal _ p _ _ := Some ((), p);
     single_shot_open _ _ c _ := Some c |}.
Next Obligation. by intros []. Qed.
Next Obligation. by intros []. Qed.
Next Obligation. by intros []. Qed.
Next Obligation. intros r0 p aad r [] c Hs. simpl in *. congruence. Qed.

Program Definition toy_aead : AeadCipher unit :=
  {| aead_generate_key _ := []; aead_key_ok _ := true;
     aead_encrypt _ m _ := Some m; aead_decrypt _ c _ := Some c |}.
Next Obligation. done. Qed.
Next Obligation. by intros ???? _ [= <-]. Qed.
