(* ===== verification/AppAttestation.v ===== *)
(** * Attestation of a requesting application

    [verify_attestation] of [src/apps/ledger/service/src/attestation.rs].  The DICE
    chain, the elliptic-curve signatures and the protobuf decoding of a [Struct]
    belong to libraries and are parameters; an error is the outermost message of the
    source's error chain. *)

From S2P Require Import Prelude F64 Policy Crypto.

(** [oak_attestation_verification] and [p256]. *)
Class AttestationLibraries (Evidence : Type) : Type := {
  (* [verify_dice_chain]: the application's signing key *)
  verify_dice_chain : Evidence → option bytes;
  VerifyingKey : Type;
  verifying_key_from_sec1 : bytes → option VerifyingKey;
  (* key, message, signature *)
  p256_verify : VerifyingKey → bytes → bytes → bool;
  struct_decode : bytes → option Struct
}.

Section attestation.
Context {Evidence Endorsements : Type} `{HCoset : !Coset, !AttestationLibraries Evidence}.

(** The claim with the configuration properties; its absence is no error. *)
Definition config_properties_of (cwt : CoseSign1) : result string (option Struct) :=
  claims ← ok_or (claims_from_slice (default [] (sign1_payload cwt)))
             "failed to decode config properties claim";
  match list_find (λ c, c.1 = ClaimPrivateUse CONFIG_PROPERTIES_CLAIM) (claims_rest claims) with
  | None => Ok None
  | Some (_, (_, value)) =>
      properties ← ok_or (as_bytes value ≫= struct_decode)
                     "failed to decode config properties claim";
      Ok (Some properties)
  end.

(** The checks made when evidence was provided. *)
Definition verify_evidence (public_key : bytes) (evidence : Evidence)
    : result string (option Struct) :=
  cwt ← ok_or (sign1_from_slice public_key) "invalid public key";
  if decide (is_Some (sign1_alg cwt) ∧ sign1_alg cwt ≠ Some (AlgAssigned iana_ES256))
  then Err "unsupported public key algorithm"
  else
    signing_public_key ← ok_or (verify_dice_chain evidence) "invalid DICE chain";
    verifying_key ← ok_or (verifying_key_from_sec1 signing_public_key)
                      "invalid application signing key";
    if p256_verify verifying_key (sign1_tbs cwt []) (sign1_signature cwt)
    then config_properties_of cwt
    else Err "invalid public key signature".

Definition verify_attestation (public_key : bytes) (evidence : option Evidence)
    (endorsements : option Endorsements) (tag : string)
    : result string (@Application Evidence Endorsements * CoseKey) :=
  config_properties ←
    match evidence with
    | Some evidence => verify_evidence public_key evidence
    | None => Ok None
    end;
  key ← map_err (λ _, "invalid public key") (extract_key_from_cwt public_key);
  Ok ({| app_tag := tag;
         app_evidence := evidence;
         app_endorsements := endorsements;
         app_config_properties := config_properties |}, key).

(** ** Properties *)

(** The key is the one the token carries, and the application is described by the
    request. *)
Lemma verify_attestation_Ok public_key evidence endorsements tag app key :
  verify_attestation public_key evidence endorsements tag = Ok (app, key) →
  extract_key_from_cwt public_key = Ok key ∧ app_tag app = tag ∧
  app_evidence app = evidence ∧ app_endorsements app = endorsements ∧
  (∀ ev, evidence = Some ev → verify_evidence public_key ev = Ok (app_config_properties app)) ∧
  (evidence = None → app_config_properties app = None).
Proof.
  unfold verify_attestation. intros H.
  apply result_bind_Ok in H as (cp & Hcp & H). apply result_bind_Ok in H as (k & Hk & [= <- <-]).
  simpl. destruct (extract_key_from_cwt public_key) as [k'|]; simpl in Hk; [|done].
  injection Hk as ->. split_and!; try done.
  - by intros ev ->.
  - intros ->. by injection Hcp as <-.
Qed.

(** With evidence, the token is signed by the application key that the DICE chain
    endorses, and the configuration properties are its claim. *)
Lemma verify_evidence_Ok public_key evidence cp :
  verify_evidence public_key evidence = Ok cp →
  ∃ cwt signing_key vk,
    sign1_from_slice public_key = Some cwt ∧
    (sign1_alg cwt = None ∨ sign1_alg cwt = Some (AlgAssigned iana_ES256)) ∧
    verify_dice_chain evidence = Some signing_key ∧
    verifying_key_from_sec1 signing_key = Some vk ∧
    p256_verify vk (sign1_tbs cwt []) (sign1_signature cwt) = true ∧
    config_properties_of cwt = Ok cp.
Proof.
  unfold verify_evidence. intros H. apply result_bind_Ok in H as (cwt & Hcwt%ok_or_Ok & H).
  destruct (decide _) as [|Halg] in H; [done|].
  apply result_bind_Ok in H as (sk & Hsk%ok_or_Ok & H).
  apply result_bind_Ok in H as (vk & Hvk%ok_or_Ok & H).
  destruct (p256_verify _ _ _) eqn:Hv; [|done]. exists cwt, sk, vk. split_and!; try done.
  destruct (sign1_alg cwt) as [a|]; [|by left]. right.
  destruct (decide (a = AlgAssigned iana_ES256)) as [->|Hne]; [done|].
  destruct Halg. split; [done|]. congruence.
Qed.
End attestation.
