(* ===== verification/Ledger.v ===== *)
(** * The ledger service

    [src/apps/ledger/service/src/ledger.rs]: keys, their expiry, and the
    authorisation of accesses.  Handlers are methods of [LedgerService].  The random
    draws of a handler are arguments: the candidate key ids in the order in which
    they are drawn, and a seed for each use of the encryption libraries.  Protobuf
    decoding of stored bytes, SHA-256, the signer and the conversion of protobuf
    durations are parameters. *)

From S2P Require Import Prelude F64 Policy Budget Crypto AppAttestation Model.

(** ** Messages *)

Record Timestamp := { ts_seconds : Z; ts_nanos : Z }.

Record ProtoDuration := { pd_seconds : Z; pd_nanos : Z }.

Record BlobHeader := {
  bh_blob_id : bytes;
  bh_key_id : bytes;
  bh_access_policy_sha256 : bytes;
  bh_access_policy_node_id : Z
}.

Record CreateKeyRequest := {
  ckr_now : option Timestamp;
  ckr_ttl : option ProtoDuration
}.

Record DeleteKeyRequest := { dkr_public_key : bytes }.

Record DeleteKeyResponse := { }.

Record AuthorizeAccessResponse := {
  aap_encapsulated_key : bytes;
  aap_encrypted_symmetric_key : bytes;
  aap_reencryption_public_key : bytes
}.

Record RevokeAccessRequest := { rar_key_id : bytes; rar_blob_id : bytes }.

Record RevokeAccessResponse := { }.

Record CreateKeyEvent := {
  cke_event_time : option Timestamp;
  cke_public_key : bytes;
  cke_private_key : bytes;
  cke_expiration : option Timestamp
}.

Record AuthorizeAccessEvent := {
  aae_event_time : option Timestamp;
  aae_access_policy : bytes;
  aae_transform_index : Z;
  aae_blob_header : bytes;
  aae_encapsulated_key : bytes;
  aae_encrypted_symmetric_key : bytes;
  aae_recipient_public_key : bytes;
  aae_recipient_nonce : bytes
}.

Record PerKeySnapshot := {
  pks_key_id : bytes;
  pks_public_key : bytes;
  pks_private_key : bytes;
  pks_expiration : option Timestamp;
  pks_budgets : option BudgetSnapshot
}.

Record LedgerSnapshot := {
  lsn_current_time : option Timestamp;
  lsn_per_key_snapshots : list PerKeySnapshot
}.

(** ** Times *)

Definition parse_timestamp (timestamp : option Timestamp) : outcome (result string Duration) :=
  match timestamp with
  | None => Return (Ok 0)
  | Some ts =>
      if decide (0 ≤ ts_seconds ts ∧ 0 ≤ ts_nanos ts) then
        d ← duration_new (ts_seconds ts) (ts_nanos ts);
        Return (Ok d)
      else Return (Err "TryFromIntError(())")
  end.

Definition format_timestamp (timestamp : Duration) : result Status Timestamp :=
  if decide (duration_as_secs timestamp < two63)
  then Ok {| ts_seconds := duration_as_secs timestamp;
             ts_nanos := duration_subsec_nanos timestamp |}
  else Err (new_with_message StatusInvalidArgument "timestamp overflowed").

Definition invalid_argument (what : string) (err : string) : Status :=
  new_with_message StatusInvalidArgument (what +:+ err).

Section ledger.
Context {ReferenceValues Evidence Endorsements Rng : Type}.
Context `{HCoset : !Coset, HHpke : !Hpke Rng, HAtt : !AttestationLibraries Evidence}.
Variable verify : Z → Evidence → Endorsements → ReferenceValues → bool.
Variable sha256 : bytes → bytes.
Variable blob_header_decode : bytes → option BlobHeader.
Variable policy_decode : bytes → option (@DataAccessPolicy ReferenceValues).
(** [Duration::try_from] of [prost_types]. *)
Variable duration_try_from : ProtoDuration → result string Duration.

Record CreateKeyResponse := {
  ckp_public_key : bytes;
  ckp_attestation_evidence : option Evidence
}.

Record AuthorizeAccessRequest := {
  aar_now : option Timestamp;
  aar_access_policy : bytes;
  aar_blob_header : bytes;
  aar_encapsulated_key : bytes;
  aar_encrypted_symmetric_key : bytes;
  aar_recipient_public_key : bytes;
  aar_recipient_attestation_evidence : option Evidence;
  aar_recipient_attestation_endorsements : option Endorsements;
  aar_recipient_tag : string;
  aar_recipient_nonce : bytes
}.

Record PerKeyLedger := {
  pk_private_key : PrivateKey;
  pk_public_key : bytes;
  pk_expiration : Duration;
  pk_budget_tracker : BudgetTracker
}.

Record LedgerService := {
  ls_evidence : Evidence;
  ls_signer : bytes → option bytes;
  ls_current_time : Duration;
  ls_per_key_ledgers : gmap bytes PerKeyLedger
}.

#[local] Abbreviation Svc := (method LedgerService Status).

Definition ledger_create (evidence : option Evidence) (signer : bytes → option bytes)
    : result string LedgerService :=
  evidence ← ok_or evidence "failed to convert evidence";
  Ok {| ls_evidence := evidence; ls_signer := signer; ls_current_time := 0;
        ls_per_key_ledgers := ∅ |}.

Definition set_per_key_ledgers (keys : gmap bytes PerKeyLedger) (s : LedgerService)
    : LedgerService :=
  {| ls_evidence := ls_evidence s; ls_signer := ls_signer s;
     ls_current_time := ls_current_time s; ls_per_key_ledgers := keys |}.

(** [current_time] moves to [now] and the keys that expired by then go. *)
Definition advance_to (now : Duration) (s : LedgerService) : LedgerService :=
  if decide (ls_current_time s < now) then
    {| ls_evidence := ls_evidence s; ls_signer := ls_signer s;
       ls_current_time := now;
       ls_per_key_ledgers := filter (λ kv, now < pk_expiration kv.2) (ls_per_key_ledgers s) |}
  else s.

Definition update_current_time (now : option Timestamp) : method LedgerService string unit :=
  now ← call (parse_timestamp now) ≫= try_;
  s ← get_self;
  set_self (advance_to now s).

Definition parse_duration (duration : option ProtoDuration) : result string Duration :=
  match duration with None => Ok 0 | Some d => duration_try_from d end.

(** [u64] to [i64], unwrapped. *)
Definition unwrap_i64 (z : Z) : outcome Z := if decide (z < two63) then Return z else Panic.

Definition build_cwt (s : LedgerService) (cose_key : CoseKey) (expiration : Duration)
    : outcome (result string bytes) :=
  expiration_time ← unwrap_i64 (duration_as_secs expiration);
  issued_at ← unwrap_i64 (duration_as_secs (ls_current_time s));
  Return
    (key ← ok_or (cose_key_to_vec cose_key) "failed to encode key";
     payload ←
       ok_or (claims_to_vec
         {| claims_expiration_time := Some expiration_time;
            claims_issued_at := Some issued_at;
            claims_rest := [(ClaimPrivateUse PUBLIC_KEY_CLAIM, CborBytes key)] |})
         "failed to encode claims";
     let message := sign1_new (Some (AlgAssigned iana_ES256)) payload in
     signature ← ok_or (ls_signer s (sign1_tbs message [])) "failed to sign";
     ok_or (sign1_to_vec (sign1_with_signature message signature)) "failed to encode message").

(** The loop that draws a key id until one is free; [None] when the given draws are
    all taken. *)
Fixpoint free_key_id (keys : gmap bytes PerKeyLedger) (draws : list bytes) : option bytes :=
  match draws with
  | [] => None
  | key_id :: draws =>
      match keys !! key_id with
      | Some _ => free_key_id keys draws
      | None => Some key_id
      end
  end.

Definition draw_key_id (draws : list bytes) : Svc bytes := λ s,
  match free_key_id (ls_per_key_ledgers s) draws with
  | Some key_id => Returned (s, Ok key_id)
  | None => Unfinished
  end.

Definition produce_create_key_event (draws : list bytes) (rng : Rng)
    (request : CreateKeyRequest) : Svc CreateKeyEvent :=
  or_else (update_current_time (ckr_now request))
    (λ err, Err (invalid_argument "`now` is invalid: " err));;
  ttl ← try_ (map_err (invalid_argument "`ttl` is invalid: ")
                (parse_duration (ckr_ttl request)));
  s ← get_self;
  expiration ← call (duration_add (ls_current_time s) ttl);
  key_id ← draw_key_id draws;
  let '(private_key, cose_public_key) := gen_keypair key_id rng in
  public_key ←
    call (build_cwt s cose_public_key expiration) ≫= λ r,
    try_ (map_err (λ err, new_with_message StatusInternal
                            ("failed to encode CWT: " +:+ err)) r);
  event_time ← try_ (format_timestamp (ls_current_time s));
  expiration ← try_ (format_timestamp expiration);
  mret {| cke_event_time := Some event_time;
          cke_public_key := public_key;
          cke_private_key := private_key_to_bytes private_key;
          cke_expiration := Some expiration |}.

Definition apply_create_key_event (event : CreateKeyEvent) : Svc CreateKeyResponse :=
  or_else (update_current_time (cke_event_time event))
    (λ err, Err (invalid_argument "event_time is invalid: " err));;
  expiration ←
    call (parse_timestamp (cke_expiration event)) ≫= λ r,
    try_ (map_err (invalid_argument "expiration is invalid: ") r);
  key ← try_ (map_err (invalid_argument "public_key is invalid: ")
                (extract_key_from_cwt (cke_public_key event)));
  let key_id := ck_key_id key in
  s ← get_self;
  match ls_per_key_ledgers s !! key_id with
  | Some _ =>
      fail (new_with_message StatusInvalidArgument "cannot commit changes for already used key id")
  | None =>
      private_key ←
        try_ (ok_or (private_key_from_bytes (cke_private_key event))
                (new_with_message StatusInvalidArgument "failed to parse private_key"));
      set_self (set_per_key_ledgers
        (<[key_id := {| pk_private_key := private_key;
                        pk_public_key := cke_public_key event;
                        pk_expiration := expiration;
                        pk_budget_tracker := tracker_new |}]> (ls_per_key_ledgers s)) s);;
      mret {| ckp_public_key := cke_public_key event;
              ckp_attestation_evidence := Some (ls_evidence s) |}
  end.

Definition not_found : Status := new_with_message StatusNotFound "public key not found".

Definition decode_header (b : bytes) : result Status BlobHeader :=
  ok_or (blob_header_decode b)
    (new_with_message StatusInvalidArgument "failed to parse blob header").

Definition decode_policy (b : bytes) : result Status (@DataAccessPolicy ReferenceValues) :=
  ok_or (policy_decode b)
    (new_with_message StatusInvalidArgument "failed to parse access policy").

Definition attest_and_produce_authorize_access_event (request : AuthorizeAccessRequest)
    : Svc AuthorizeAccessEvent :=
  or_else (update_current_time (aar_now request))
    (λ err, Err (invalid_argument "`now` is invalid: " err));;
  '(recipient_app, _) ←
    try_ (map_err (invalid_argument "attestation validation failed: ")
      (verify_attestation (aar_recipient_public_key request)
         (aar_recipient_attestation_evidence request)
         (aar_recipient_attestation_endorsements request) (aar_recipient_tag request)));
  header ← try_ (decode_header (aar_blob_header request));
  if decide (sha256 (aar_access_policy request) ≠ bh_access_policy_sha256 header)
  then fail (new_with_message StatusInvalidArgument "access policy does not match blob header")
  else
    access_policy ← try_ (decode_policy (aar_access_policy request));
    s ← get_self;
    per_key_ledger ← try_ (ok_or (ls_per_key_ledgers s !! bh_key_id header) not_found);
    transform_index ←
      call (find_matching_transform verify (pk_budget_tracker per_key_ledger)
              (bh_blob_id header) (bh_access_policy_node_id header) access_policy
              (bh_access_policy_sha256 header) recipient_app (ls_current_time s)) ≫= try_;
    event_time ← try_ (format_timestamp (ls_current_time s));
    mret {| aae_event_time := Some event_time;
            aae_access_policy := aar_access_policy request;
            aae_transform_index := transform_index;
            aae_blob_header := aar_blob_header request;
            aae_encapsulated_key := aar_encapsulated_key request;
            aae_encrypted_symmetric_key := aar_encrypted_symmetric_key request;
            aae_recipient_public_key := aar_recipient_public_key request;
            aae_recipient_nonce := aar_recipient_nonce request |}.

(** The budget of a key, replaced in the service. *)
Definition set_budget_tracker (key_id : bytes) (k : PerKeyLedger) (t : BudgetTracker)
    (s : LedgerService) : LedgerService :=
  set_per_key_ledgers
    (<[key_id := {| pk_private_key := pk_private_key k; pk_public_key := pk_public_key k;
                    pk_expiration := pk_expiration k; pk_budget_tracker := t |}]>
       (ls_per_key_ledgers s)) s.

Definition apply_authorize_access_event (rng : Rng) (event : AuthorizeAccessEvent)
    : Svc AuthorizeAccessResponse :=
  or_else (update_current_time (aae_event_time event))
    (λ err, Err (invalid_argument "event_time is invalid: " err));;
  recipient_public_key ←
    try_ (map_err (invalid_argument "public_key is invalid: ")
            (extract_key_from_cwt (aae_recipient_public_key event)));
  header ← try_ (decode_header (aae_blob_header event));
  access_policy ← try_ (decode_policy (aae_access_policy event));
  s ← get_self;
  per_key_ledger ← try_ (ok_or (ls_per_key_ledgers s !! bh_key_id header) not_found);
  '(encapsulated_key, encrypted_symmetric_key) ←
    try_ (map_err (invalid_argument "failed to re-wrap symmetric key: ")
      (rewrap_symmetric_key (aae_encrypted_symmetric_key event) (aae_encapsulated_key event)
         (pk_private_key per_key_ledger) (aae_blob_header event) recipient_public_key
         (pk_public_key per_key_ledger ++ aae_recipient_nonce event) rng));
  '(budget_tracker, r) ←
    call (update_budget (pk_budget_tracker per_key_ledger) (bh_blob_id header)
            (aae_transform_index event) access_policy (bh_access_policy_sha256 header));
  set_self (set_budget_tracker (bh_key_id header) per_key_ledger budget_tracker s);;
  try_ r;;
  mret {| aap_encapsulated_key := encapsulated_key;
          aap_encrypted_symmetric_key := encrypted_symmetric_key;
          aap_reencryption_public_key := pk_public_key per_key_ledger |}.

(** ** Snapshots *)

Definition save_per_key (entry : bytes * PerKeyLedger) : result Status PerKeySnapshot :=
  let '(key_id, per_key_ledger) := entry in
  expiration ← format_timestamp (pk_expiration per_key_ledger);
  Ok {| pks_key_id := key_id;
        pks_public_key := pk_public_key per_key_ledger;
        pks_private_key := private_key_to_bytes (pk_private_key per_key_ledger);
        pks_expiration := Some expiration;
        pks_budgets := Some (tracker_save_snapshot (pk_budget_tracker per_key_ledger)) |}.

Definition save_snapshot (s : LedgerService) : result Status LedgerSnapshot :=
  current_time ← format_timestamp (ls_current_time s);
  per_key_snapshots ← mapM save_per_key (btree_iter bytes_le (ls_per_key_ledgers s));
  Ok {| lsn_current_time := Some current_time;
        lsn_per_key_snapshots := per_key_snapshots |}.

(** One iteration of the loop of [load_snapshot]. *)
Definition load_per_key (snapshot : PerKeySnapshot) : Svc unit :=
  private_key ←
    try_ (ok_or (private_key_from_bytes (pks_private_key snapshot))
            (new_with_message StatusInvalidArgument "failed to parse private_key"));
  expiration ←
    call (parse_timestamp (pks_expiration snapshot)) ≫= λ r,
    try_ (map_err (invalid_argument "expiration is invalid: ") r);
  budget_tracker ←
    match pks_budgets snapshot with
    | Some budgets =>
        let '(t, r) := tracker_load_snapshot tracker_new budgets in
        try_ r;; mret t
    | None => mret tracker_new
    end;
  s ← get_self;
  set_self (set_per_key_ledgers
    (<[pks_key_id snapshot := {| pk_private_key := private_key;
                                 pk_public_key := pks_public_key snapshot;
                                 pk_expiration := expiration;
                                 pk_budget_tracker := budget_tracker |}]>
       (ls_per_key_ledgers s)) s);;
  match ls_per_key_ledgers s !! pks_key_id snapshot with
  | Some _ => fail (new_with_message StatusInvalidArgument "Duplicated key_id in the snapshot")
  | None => mret ()
  end.

Fixpoint load_per_keys (snapshots : list PerKeySnapshot) : Svc unit :=
  match snapshots with
  | [] => mret ()
  | snapshot :: snapshots => load_per_key snapshot;; load_per_keys snapshots
  end.

Definition load_snapshot (snapshot : LedgerSnapshot) : Svc unit :=
  current_time ←
    call (parse_timestamp (lsn_current_time snapshot)) ≫= λ r,
    try_ (map_err (invalid_argument "current_time is invalid: ") r);
  s ← get_self;
  set_self {| ls_evidence := ls_evidence s; ls_signer := ls_signer s;
              ls_current_time := current_time; ls_per_key_ledgers := ∅ |};;
  load_per_keys (lsn_per_key_snapshots snapshot).

(** ** The [Ledger] interface *)

Definition create_key (draws : list bytes) (rng : Rng) (request : CreateKeyRequest)
    : Svc CreateKeyResponse :=
  create_key_event ← produce_create_key_event draws rng request;
  apply_create_key_event create_key_event.

Definition delete_key (request : DeleteKeyRequest) : Svc DeleteKeyResponse :=
  key ← try_ (map_err (invalid_argument "public_key is invalid: ")
                (extract_key_from_cwt (dkr_public_key request)));
  s ← get_self;
  set_self (set_per_key_ledgers (delete (ck_key_id key) (ls_per_key_ledgers s)) s);;
  match ls_per_key_ledgers s !! ck_key_id key with
  | Some _ => mret Build_DeleteKeyResponse
  | None => fail not_found
  end.

Definition authorize_access (rng : Rng) (request : AuthorizeAccessRequest)
    : Svc AuthorizeAccessResponse :=
  authorize_access_event ← attest_and_produce_authorize_access_event request;
  apply_authorize_access_event rng authorize_access_event.

Definition revoke_access (request : RevokeAccessRequest) : Svc RevokeAccessResponse :=
  s ← get_self;
  per_key_ledger ← try_ (ok_or (ls_per_key_ledgers s !! rar_key_id request) not_found);
  set_self (set_budget_tracker (rar_key_id request) per_key_ledger
    (consume_budget (pk_budget_tracker per_key_ledger) (rar_blob_id request)) s);;
  mret Build_RevokeAccessResponse.

(** * Properties *)

(** ** Times *)

Lemma parse_format d ts :
  0 ≤ d → format_timestamp d = Ok ts → parse_timestamp (Some ts) = Return (Ok d).
Proof.
  unfold format_timestamp, duration_as_secs, duration_subsec_nanos. intros Hd.
  case_decide as Hs; [|done]. intros [= <-]. simpl.
  pose proof (Z.div_pos d 1000000000 Hd ltac:(done)).
  pose proof (Z.mod_pos_bound d 1000000000 ltac:(done)).
  rewrite decide_True by lia. unfold duration_new.
  rewrite (Z.div_small (d mod 1000000000)) by lia. rewrite decide_True by lia. simpl.
  do 2 f_equal. rewrite (Z.div_mod d 1000000000) at 3 by done. lia.
Qed.

Lemma parse_timestamp_nonneg ts d : parse_timestamp ts = Return (Ok d) → 0 ≤ d.
Proof.
  destruct ts as [[secs nanos]|]; simpl; [|by intros [= <-]].
  case_decide; [|done]. unfold duration_new. case_decide; [|done]. simpl. intros [= <-]. lia.
Qed.

Lemma update_current_time_spec now s :
  mwp (update_current_time now)
    (λ _ s', ∃ t, parse_timestamp now = Return (Ok t) ∧ s' = advance_to t s)
    (λ _ s', s' = s) s.
Proof.
  unfold update_current_time. repeat mwp_step; [|done]. subst. eauto.
Qed.

Lemma advance_to_idemp t s : advance_to t (advance_to t s) = advance_to t s.
Proof.
  unfold advance_to. repeat case_decide; simpl in *; try done; lia.
Qed.

Lemma advance_to_current s : advance_to (ls_current_time s) s = s.
Proof. unfold advance_to. by rewrite decide_False by lia. Qed.

Lemma advance_to_time t s : ls_current_time (advance_to t s) = Z.max (ls_current_time s) t.
Proof. unfold advance_to. case_decide; simpl; lia. Qed.

(** ** Key creation *)

(** The token built for a key carries that key. *)
Lemma build_cwt_key s key expiration b :
  build_cwt s key expiration = Return (Ok b) → extract_key_from_cwt b = Ok key.
Proof.
  unfold build_cwt. intros H. outcome_inv.
  apply result_bind_Ok in H as (kb & Hkb%ok_or_Ok & H).
  apply result_bind_Ok in H as (payload & Hp%ok_or_Ok & H).
  apply result_bind_Ok in H as (sg & Hsg%ok_or_Ok & H).
  apply ok_or_Ok, sign1_roundtrip in H. unfold extract_key_from_cwt. rewrite H. simpl.
  rewrite sign1_built_payload. simpl. rewrite (claims_roundtrip _ _ Hp). simpl.
  by rewrite (cose_key_roundtrip _ _ Hkb).
Qed.

Lemma free_key_id_Some keys draws k :
  free_key_id keys draws = Some k → k ∈ draws ∧ keys !! k = None.
Proof.
  induction draws as [|d draws IH]; simpl; [done|].
  destruct (keys !! d) eqn:E.
  - intros [? ?]%IH. split; [by right|done].
  - intros [= <-]. split; [by left|done].
Qed.

Lemma free_key_id_None keys draws :
  free_key_id keys draws = None → ∀ k, k ∈ draws → is_Some (keys !! k).
Proof.
  induction draws as [|d draws IH]; simpl; [by intros _ k Hk%elem_of_nil|].
  destruct (keys !! d) eqn:E; [|done]. intros H k [->|Hk]%elem_of_cons; eauto.
Qed.

(** [s'] is [s] after a clock update with [ts]. *)
Definition advanced (ts : option Timestamp) (s s' : LedgerService) : Prop :=
  ∃ t, parse_timestamp ts = Return (Ok t) ∧ s' = advance_to t s.

Lemma draw_key_id_spec draws (Q : bytes → LedgerService → Prop) (R : Status → LedgerService → Prop) s :
  (∀ k, free_key_id (ls_per_key_ledgers s) draws = Some k → Q k s) →
  mwp (draw_key_id draws) Q R s.
Proof. intros H. unfold mwp, draw_key_id. destruct (free_key_id _ _); auto. Qed.

(** The clock update that starts a handler. *)
Lemma clock_spec ts f (Q : unit → LedgerService → Prop) (R : Status → LedgerService → Prop) s :
  (∀ s', advanced ts s s' → Q () s') → (∀ e, R e s) →
  mwp (or_else (update_current_time ts) (λ err, Err (f err))) Q R s.
Proof.
  intros HQ HR. mwp_step. eapply mwp_mono; [apply update_current_time_spec| |].
  - intros [] s' H. by apply HQ.
  - by intros e s' ->.
Qed.

Definition key_entry_event (draws : list bytes) (rng : Rng) (request : CreateKeyRequest)
    (s' : LedgerService) (ev : CreateKeyEvent) : Prop :=
  ∃ ttl key_id et ex,
    parse_duration (ckr_ttl request) = Ok ttl ∧
    free_key_id (ls_per_key_ledgers s') draws = Some key_id ∧
    extract_key_from_cwt (cke_public_key ev) = Ok (gen_keypair key_id rng).2 ∧
    cke_private_key ev = private_key_to_bytes (gen_keypair key_id rng).1 ∧
    cke_event_time ev = Some et ∧ format_timestamp (ls_current_time s') = Ok et ∧
    cke_expiration ev = Some ex ∧ format_timestamp (ls_current_time s' + ttl) = Ok ex.

Lemma produce_create_key_spec draws rng request s :
  mwp (produce_create_key_event draws rng request)
    (λ ev s', advanced (ckr_now request) s s' ∧ key_entry_event draws rng request s' ev)
    (λ _ s', s' = s ∨ advanced (ckr_now request) s s') s.
Proof.
  unfold produce_create_key_event. mwp_step. apply clock_spec; [|by left].
  intros s' Hadv. do 2 mwp_step; [|by right].
  do 4 mwp_step. mwp_step. apply draw_key_id_spec. intros key_id Hk.
  destruct (gen_keypair key_id rng) as [sk pk] eqn:Hgen.
  do 4 mwp_step; [|by right]. do 2 mwp_step; [|by right]. do 2 mwp_step; [|by right].
  mwp_step. split; [done|].
  unfold duration_add in *. repeat case_decide; simplify_eq.
  destruct (parse_duration (ckr_ttl request)) as [ttl|] eqn:Httl; [simpl in *|done].
  match goal with H : build_cwt _ _ _ = Return ?r |- _ => destruct r; simplify_eq/=;
    apply build_cwt_key in H end.
  eexists _, key_id, _, _. rewrite Hgen. by split_and!.
Qed.

Definition new_key (private_key : PrivateKey) (public_key : bytes) (expiration : Duration)
    : PerKeyLedger :=
  {| pk_private_key := private_key; pk_public_key := public_key; pk_expiration := expiration;
     pk_budget_tracker := tracker_new |}.

Lemma apply_create_key_spec ev s :
  mwp (apply_create_key_event ev)
    (λ resp s', ∃ s1 ex key sk,
       advanced (cke_event_time ev) s s1 ∧
       parse_timestamp (cke_expiration ev) = Return (Ok ex) ∧
       extract_key_from_cwt (cke_public_key ev) = Ok key ∧
       ls_per_key_ledgers s1 !! ck_key_id key = None ∧
       private_key_from_bytes (cke_private_key ev) = Some sk ∧
       s' = set_per_key_ledgers
              (<[ck_key_id key := new_key sk (cke_public_key ev) ex]> (ls_per_key_ledgers s1)) s1 ∧
       resp = {| ckp_public_key := cke_public_key ev;
                 ckp_attestation_evidence := Some (ls_evidence s1) |})
    (λ _ s', s' = s ∨ advanced (cke_event_time ev) s s') s.
Proof.
  unfold apply_create_key_event. mwp_step. apply clock_spec; [|by left].
  intros s1 Hadv. do 4 mwp_step; [|by right]. do 2 mwp_step; [|by right].
  do 2 mwp_step. mwp_step; [mwp_step; by right|]. do 2 mwp_step; [|by right].
  do 3 mwp_step. destruct (extract_key_from_cwt _) as [key|] eqn:Hkey; simplify_eq/=.
  match goal with H : parse_timestamp _ = Return ?r |- _ => destruct r; simplify_eq/= end.
  match goal with H : ok_or _ _ = Ok _ |- _ => apply ok_or_Ok in H end.
  eexists s1, _, _, _. by split_and!.
Qed.

(** The whole call: the key id in the token is the one drawn, and the times survive
    the event. *)
Lemma create_key_spec draws rng request s :
  (∀ d x, duration_try_from d = Ok x → 0 ≤ x) → 0 ≤ ls_current_time s →
  mwp (create_key draws rng request)
    (λ resp s', ∃ s1 ttl key_id,
       advanced (ckr_now request) s s1 ∧ parse_duration (ckr_ttl request) = Ok ttl ∧
       key_id ∈ draws ∧ ls_per_key_ledgers s1 !! key_id = None ∧
       extract_key_from_cwt (ckp_public_key resp) = Ok (gen_keypair key_id rng).2 ∧
       s' = set_per_key_ledgers
              (<[key_id := new_key (gen_keypair key_id rng).1 (ckp_public_key resp)
                             (ls_current_time s1 + ttl)]> (ls_per_key_ledgers s1)) s1)
    (λ _ s', s' = s ∨ advanced (ckr_now request) s s') s.
Proof.
  intros Hnn Hs. unfold create_key. mwp_step. eapply mwp_mono; [apply produce_create_key_spec| |by auto].
  intros ev s1 [Hadv (ttl & key_id & et & ex & Httl & Hfree & Hkey & Hsk & Het & Hfet & Hex & Hfex)].
  assert (0 ≤ ls_current_time s1) as Hs1.
  { destruct Hadv as (t & Ht & ->). rewrite advance_to_time. lia. }
  assert (0 ≤ ttl) as Httl0.
  { unfold parse_duration in Httl. destruct (ckr_ttl request); [by eapply Hnn|by simplify_eq]. }
  pose proof (parse_format _ _ Hs1 Hfet) as Hpet.
  pose proof (parse_format (ls_current_time s1 + ttl) _ ltac:(lia) Hfex) as Hpex.
  assert (∀ s', advanced (cke_event_time ev) s1 s' → s' = s1) as Hsame.
  { intros s' (t & Ht & ->). rewrite Het, Hpet in Ht. injection Ht as <-. apply advance_to_current. }
  eapply mwp_mono; [apply apply_create_key_spec| |].
  - intros resp s' (s2 & ex' & key & sk & ->%Hsame & Hex' & Hkey' & Hnone & Hsk' & -> & ->).
    rewrite Hkey in Hkey'. injection Hkey' as <-. rewrite Hsk, private_key_roundtrip in Hsk'.
    injection Hsk' as <-. rewrite Hex, Hpex in Hex'. injection Hex' as <-.
    destruct (free_key_id_Some _ _ _ Hfree) as [Hin Hn].
    assert (ck_key_id (gen_keypair key_id rng).2 = key_id) as Hid
      by (unfold gen_keypair; by destruct (kem_gen_keypair rng)).
    rewrite Hid. exists s1, ttl, key_id. by split_and!.
  - intros e s' [->|Hs']; [by right|]. right. by rewrite (Hsame s').
Qed.

(** ** Authorisation *)

(** What a produced event says about the request. *)
Definition authorized (request : AuthorizeAccessRequest) (s1 : LedgerService)
    (header : BlobHeader) (policy : @DataAccessPolicy ReferenceValues) (k : PerKeyLedger)
    (app : @Application Evidence Endorsements) (key : CoseKey) (i : Z) : Prop :=
  verify_attestation (aar_recipient_public_key request)
    (aar_recipient_attestation_evidence request)
    (aar_recipient_attestation_endorsements request) (aar_recipient_tag request) = Ok (app, key) ∧
  blob_header_decode (aar_blob_header request) = Some header ∧
  sha256 (aar_access_policy request) = bh_access_policy_sha256 header ∧
  policy_decode (aar_access_policy request) = Some policy ∧
  ls_per_key_ledgers s1 !! bh_key_id header = Some k ∧
  find_matching_transform verify (pk_budget_tracker k) (bh_blob_id header)
    (bh_access_policy_node_id header) policy (bh_access_policy_sha256 header) app
    (ls_current_time s1) = Return (Ok i).

Lemma produce_authorize_spec request s :
  mwp (attest_and_produce_authorize_access_event request)
    (λ ev s1, advanced (aar_now request) s s1 ∧
       ∃ header policy k app key i et,
         authorized request s1 header policy k app key i ∧
         format_timestamp (ls_current_time s1) = Ok et ∧
         ev = {| aae_event_time := Some et;
                 aae_access_policy := aar_access_policy request;
                 aae_transform_index := i;
                 aae_blob_header := aar_blob_header request;
                 aae_encapsulated_key := aar_encapsulated_key request;
                 aae_encrypted_symmetric_key := aar_encrypted_symmetric_key request;
                 aae_recipient_public_key := aar_recipient_public_key request;
                 aae_recipient_nonce := aar_recipient_nonce request |})
    (λ _ s', s' = s ∨ advanced (aar_now request) s s') s.
Proof.
  unfold attest_and_produce_authorize_access_event, decode_header, decode_policy. mwp_step.
  apply clock_spec; [|by left]. intros s1 Hadv.
  do 2 mwp_step; [|by right]. mwp_step. do 2 mwp_step; [|by right].
  mwp_step; [mwp_step; by right|]. do 2 mwp_step; [|by right].
  do 4 mwp_step; [|by right]. do 4 mwp_step; [|by right]. do 2 mwp_step; [|by right].
  mwp_step. split; [done|].
  destruct (verify_attestation _ _ _ _) as [app|] eqn:Happ; simplify_eq/=.
  repeat match goal with H : ok_or _ _ = Ok _ |- _ => apply ok_or_Ok in H end.
  repeat match goal with H : ¬ (_ ≠ _) |- _ => apply dec_stable in H end.
  eexists _, _, _, _, _, _, _. split; [|by split]. by split_and!.
Qed.

Lemma apply_authorize_spec rng ev s :
  mwp (apply_authorize_access_event rng ev)
    (λ resp s', ∃ s1 header policy k key t',
       advanced (aae_event_time ev) s s1 ∧
       extract_key_from_cwt (aae_recipient_public_key ev) = Ok key ∧
       blob_header_decode (aae_blob_header ev) = Some header ∧
       policy_decode (aae_access_policy ev) = Some policy ∧
       ls_per_key_ledgers s1 !! bh_key_id header = Some k ∧
       rewrap_symmetric_key (aae_encrypted_symmetric_key ev) (aae_encapsulated_key ev)
         (pk_private_key k) (aae_blob_header ev) key
         (pk_public_key k ++ aae_recipient_nonce ev) rng
       = Ok (aap_encapsulated_key resp, aap_encrypted_symmetric_key resp) ∧
       update_budget (pk_budget_tracker k) (bh_blob_id header) (aae_transform_index ev) policy
         (bh_access_policy_sha256 header) = Return (t', Ok ()) ∧
       s' = set_budget_tracker (bh_key_id header) k t' s1 ∧
       aap_reencryption_public_key resp = pk_public_key k)
    (λ e s', s' = s ∨ advanced (aae_event_time ev) s s' ∨
       ∃ s1 header policy k key keys t',
         advanced (aae_event_time ev) s s1 ∧
         extract_key_from_cwt (aae_recipient_public_key ev) = Ok key ∧
         blob_header_decode (aae_blob_header ev) = Some header ∧
         policy_decode (aae_access_policy ev) = Some policy ∧
         ls_per_key_ledgers s1 !! bh_key_id header = Some k ∧
         rewrap_symmetric_key (aae_encrypted_symmetric_key ev) (aae_encapsulated_key ev)
           (pk_private_key k) (aae_blob_header ev) key
           (pk_public_key k ++ aae_recipient_nonce ev) rng = Ok keys ∧
         update_budget (pk_budget_tracker k) (bh_blob_id header) (aae_transform_index ev) policy
           (bh_access_policy_sha256 header) = Return (t', Err e) ∧
         s' = set_budget_tracker (bh_key_id header) k t' s1) s.
Proof.
  unfold apply_authorize_access_event, decode_header, decode_policy. mwp_step.
  apply clock_spec; [|by left]. intros s1 Hadv.
  do 2 mwp_step; [|by right; left]. do 2 mwp_step; [|by right; left].
  do 2 mwp_step; [|by right; left]. do 4 mwp_step; [|by right; left].
  do 2 mwp_step; [|by right; left]. mwp_step. do 2 mwp_step. mwp_step. do 2 mwp_step.
  destruct (extract_key_from_cwt _) as [key|] eqn:Hkey; simplify_eq/=.
  destruct (rewrap_symmetric_key _ _ _ _ _ _ _) as [keys|] eqn:Hrew; simplify_eq/=.
  repeat match goal with H : ok_or _ _ = Ok _ |- _ => apply ok_or_Ok in H end.
  do 2 mwp_step.
  - mwp_step. repeat match goal with u : unit |- _ => destruct u end. subst.
    eexists s1, _, _, _, _, _. by split_and!.
  - right; right. subst. eexists s1, _, _, _, _, _, _. by split_and!.
Qed.

Lemma advanced_current et s s' :
  0 ≤ ls_current_time s → format_timestamp (ls_current_time s) = Ok et →
  advanced (Some et) s s' → s' = s.
Proof.
  intros Hs Hf (t & Ht & ->). rewrite (parse_format _ _ Hs Hf) in Ht. injection Ht as <-.
  apply advance_to_current.
Qed.

Lemma advanced_nonneg ts s s' : 0 ≤ ls_current_time s → advanced ts s s' → 0 ≤ ls_current_time s'.
Proof. intros Hs (t & _ & ->). rewrite advance_to_time. lia. Qed.

(** The two halves of [authorize_access] run on the same state. *)
Lemma authorize_access_spec rng request s :
  0 ≤ ls_current_time s →
  mwp (authorize_access rng request)
    (λ resp s', ∃ s1 header policy k app key i t',
       advanced (aar_now request) s s1 ∧
       authorized request s1 header policy k app key i ∧
       rewrap_symmetric_key (aar_encrypted_symmetric_key request)
         (aar_encapsulated_key request) (pk_private_key k) (aar_blob_header request) key
         (pk_public_key k ++ aar_recipient_nonce request) rng
       = Ok (aap_encapsulated_key resp, aap_encrypted_symmetric_key resp) ∧
       update_budget (pk_budget_tracker k) (bh_blob_id header) i policy
         (bh_access_policy_sha256 header) = Return (t', Ok ()) ∧
       s' = set_budget_tracker (bh_key_id header) k t' s1 ∧
       aap_reencryption_public_key resp = pk_public_key k)
    (λ _ s', ∃ s1, (s1 = s ∨ advanced (aar_now request) s s1) ∧
       (s' = s1 ∨ ∃ header k t', ls_per_key_ledgers s1 !! bh_key_id header = Some k ∧
          s' = set_budget_tracker (bh_key_id header) k t' s1)) s.
Proof.
  intros Hs. unfold authorize_access. mwp_step.
  eapply mwp_mono; [apply produce_authorize_spec| |intros ? s' ?; exists s'; by auto].
  intros ev s1 (Hadv & header & policy & k & app & key & i & et & Hauth & Het & ->).
  pose proof (advanced_nonneg _ _ _ Hs Hadv) as Hs1.
  destruct Hauth as (Hver & Hh & Hsha & Hp & Hk & Hfind).
  destruct (verify_attestation_Ok _ _ _ _ _ _ Hver) as [Hext _].
  eapply mwp_mono; [apply apply_authorize_spec| |]; simpl.
  - intros resp s' (s2 & h2 & p2 & k2 & key2 & t' & Ha2 & Hkey2 & Hh2 & Hp2 & Hk2 & Hrew & Hup & Hs' & Hre).
    apply (advanced_current et) in Ha2 as ->; [|done..].
    rewrite Hext in Hkey2. rewrite Hh in Hh2. rewrite Hp in Hp2.
    injection Hkey2 as <-. injection Hh2 as <-. injection Hp2 as <-.
    rewrite Hk in Hk2. injection Hk2 as <-.
    exists s1, header, policy, k, app, key, i, t'. by split_and!.
  - intros e s' [->|[Ha2|(s2 & h2 & p2 & k2 & key2 & keys & t' & Ha2 & _ & _ & _ & Hk2 & _ & _ & Hs')]];
      exists s1; (split; [by right|]).
    + by left.
    + left. by apply (advanced_current et) in Ha2.
    + right. apply (advanced_current et) in Ha2 as ->; [|done..]. eauto.
Qed.

(** ** Runs of the service *)

Inductive ledger_step : LedgerService → LedgerService → Prop :=
| step_create draws rng request s s' r :
    create_key draws rng request s = Returned (s', r) → ledger_step s s'
| step_delete request s s' r :
    delete_key request s = Returned (s', r) → ledger_step s s'
| step_authorize rng request s s' r :
    authorize_access rng request s = Returned (s', r) → ledger_step s s'
| step_revoke request s s' r :
    revoke_access request s = Returned (s', r) → ledger_step s s'.

(** No key is held past its expiration. *)
Definition ledger_fresh (s : LedgerService) : Prop :=
  0 ≤ ls_current_time s ∧
  map_Forall (λ _ k, ls_current_time s ≤ pk_expiration k) (ls_per_key_ledgers s).

Lemma advanced_fresh ts s s' :
  ledger_fresh s → advanced ts s s' → ledger_fresh s' ∧ ls_current_time s ≤ ls_current_time s'.
Proof.
  intros [Hs Hf] Hadv. pose proof (advanced_nonneg _ _ _ Hs Hadv) as Hs'.
  destruct Hadv as (t & _ & ->). split; [split; [done|]|rewrite advance_to_time; lia].
  unfold advance_to. case_decide; simpl; [|done].
  intros i x [_ Hx]%map_lookup_filter_Some. simpl in Hx. lia.
Qed.

Lemma set_budget_fresh key_id k t s :
  ledger_fresh s → ls_per_key_ledgers s !! key_id = Some k →
  ledger_fresh (set_budget_tracker key_id k t s).
Proof.
  intros [Hs Hf] Hk. split; [done|]. simpl. apply map_Forall_insert_2; [|done].
  exact (Hf _ _ Hk).
Qed.

Lemma ledger_step_fresh s s' :
  (∀ d x, duration_try_from d = Ok x → 0 ≤ x) →
  ledger_step s s' → ledger_fresh s → ledger_fresh s' ∧ ls_current_time s ≤ ls_current_time s'.
Proof.
  intros Hnn Hstep Hf. assert (ledger_fresh s ∧ ls_current_time s ≤ ls_current_time s) as Hrefl
    by (split; [done|lia]). destruct Hstep as [? ? ? s s' r H|? s s' r H|? ? s s' r H|? s s' r H].
  - eapply mwp_Returned in H; [|apply create_key_spec; [done|apply Hf]]. destruct r; simpl in H.
    + destruct H as (s1 & ttl & key_id & Hadv & Httl & _ & _ & _ & ->).
      destruct (advanced_fresh _ _ _ Hf Hadv) as [[Hs1 Hf1] Hle]. split; [|done]. split; [done|].
      apply map_Forall_insert_2; [|done]. simpl.
      assert (0 ≤ ttl); [|lia]. unfold parse_duration in Httl.
      destruct (ckr_ttl _); [by eapply Hnn|by simplify_eq].
    + destruct H as [->|Hadv]; [done|]. by eapply advanced_fresh.
  - unfold delete_key in H. unfold mbind, method_bind, try_, get_self, set_self, fail, mret,
      method_ret in H. destruct (map_err _ _); simplify_eq/=; [|done].
    assert (s' = set_per_key_ledgers (delete (ck_key_id a) (ls_per_key_ledgers s)) s) as ->
      by (by destruct (ls_per_key_ledgers s !! ck_key_id a); simplify_eq/=).
    split; [|done]. split; [apply Hf|]. simpl. apply map_Forall_delete, Hf.
  - eapply mwp_Returned in H; [|apply authorize_access_spec; apply Hf]. destruct r; simpl in H.
    + destruct H as (s1 & h & p & k & app & key & i & t' & Hadv & Hauth & _ & _ & -> & _).
      destruct (advanced_fresh _ _ _ Hf Hadv) as [Hf1 Hle]. split; [|done].
      apply set_budget_fresh; [done|apply Hauth].
    + destruct H as (s1 & Hs1 & Hs').
      assert (ledger_fresh s1 ∧ ls_current_time s ≤ ls_current_time s1) as [Hf1 Hle]
        by (destruct Hs1 as [->|]; [done|by eapply advanced_fresh]).
      destruct Hs' as [->|(h & k & t' & Hk & ->)]; [done|]. split; [|done]. by apply set_budget_fresh.
  - unfold revoke_access in H. unfold mbind, method_bind, try_, get_self, set_self, mret,
      method_ret in H. destruct (ls_per_key_ledgers s !! rar_key_id _) eqn:Hk; simplify_eq/=; [|done].
    split; [|done]. by apply set_budget_fresh.
Qed.

(** ** Snapshots *)

Lemma mapM_Ok {E A B} (f : A → result E B) l k :
  mapM f l = Ok k → Forall2 (λ x y, f x = Ok y) l k.
Proof.
  revert k. induction l as [|x l IH]; intros k; simpl; [by intros [= <-]; constructor|].
  intros (y & Hy & H)%result_bind_Ok. apply result_bind_Ok in H as (ys & Hys & [= <-]).
  constructor; auto.
Qed.

Lemma load_per_keys_spec l snaps s :
  Forall2 (λ x y, save_per_key x = Ok y) l snaps →
  Forall (λ x, 0 ≤ pk_expiration x.2) l →
  NoDup l.*1 → (∀ k, k ∈ l.*1 → ls_per_key_ledgers s !! k = None) →
  load_per_keys snaps s
  = Returned (set_per_key_ledgers (list_to_map l ∪ ls_per_key_ledgers s) s, Ok ()).
Proof.
  intros Hl. revert s. induction Hl as [|[k v] y l snaps Hy Hl IH]; intros s Hexp Hnd Hfresh; simpl.
  - unfold mret, method_ret. do 2 f_equal. unfold set_per_key_ledgers.
    rewrite map_empty_union. by destruct s.
  - inversion_clear Hexp as [|? ? Hv Hexp']. inversion_clear Hnd as [|? ? Hk Hnd'].
    unfold save_per_key in Hy. apply result_bind_Ok in Hy as (ex & Hex & [= <-]).
    unfold load_per_key, mbind, method_bind, try_, call, get_self, set_self, mret, method_ret.
    cbn [pks_key_id pks_public_key pks_private_key pks_expiration pks_budgets].
    rewrite private_key_roundtrip, (parse_format _ _ Hv Hex), tracker_snapshot_roundtrip. simpl.
    rewrite (Hfresh k) by (by left). rewrite IH; [|done|done|].
    + simpl. do 2 f_equal. unfold set_per_key_ledgers. simpl. f_equal.
      rewrite <- insert_union_l, insert_union_r; [by destruct v|].
      by apply not_elem_of_list_to_map_1.
    + intros k' Hk'. simpl. rewrite lookup_insert_ne by (intros ->; done). apply Hfresh. by right.
Qed.

(** Whether two services hold the same replicated state. *)
Definition same_ledger (s s' : LedgerService) : Prop :=
  ls_current_time s = ls_current_time s' ∧ ls_per_key_ledgers s = ls_per_key_ledgers s'.

Lemma ledger_snapshot_roundtrip s snapshot s0 :
  0 ≤ ls_current_time s → map_Forall (λ _ k, 0 ≤ pk_expiration k) (ls_per_key_ledgers s) →
  save_snapshot s = Ok snapshot →
  ∃ s', load_snapshot snapshot s0 = Returned (s', Ok ()) ∧ same_ledger s' s.
Proof.
  intros Hs Hexp. unfold save_snapshot.
  intros (ts & Hts & H)%result_bind_Ok. apply result_bind_Ok in H as (snaps & Hsnaps & [= <-]).
  apply mapM_Ok in Hsnaps. destruct (list_to_map_btree_iter (ls_per_key_ledgers s)) as [Hmap Hnd].
  unfold load_snapshot, mbind, method_bind, try_, call, get_self, set_self.
  cbn [lsn_current_time lsn_per_key_snapshots]. rewrite (parse_format _ _ Hs Hts). simpl.
  rewrite (load_per_keys_spec _ _ _ Hsnaps); simpl.
  - eexists. split; [done|]. split; [done|]. simpl. by rewrite Hmap, map_union_empty.
  - apply Forall_forall. intros [k v] Hkv. rewrite btree_iter_perm in Hkv.
    apply elem_of_map_to_list in Hkv. exact (Hexp _ _ Hkv).
  - done.
  - intros k _. apply lookup_empty.
Qed.

(** * Claims *)

(** Creating a key.  When [create_key] succeeds, the only changes are the clock
    update with the keys it expired, and one new key: under the id that was drawn,
    which no held key uses, with an unused budget, the generated private key, an
    expiration [ttl] after the ledger's time, and the token returned to the caller,
    which carries the matching public key and id. *)
Theorem create_key_adds_one_key draws rng request s s' resp :
  (∀ d x, duration_try_from d = Ok x → 0 ≤ x) → 0 ≤ ls_current_time s →
  create_key draws rng request s = Returned (s', Ok resp) →
  ∃ s1 ttl key_id,
    advanced (ckr_now request) s s1 ∧ parse_duration (ckr_ttl request) = Ok ttl ∧
    key_id ∈ draws ∧ ls_per_key_ledgers s1 !! key_id = None ∧
    extract_key_from_cwt (ckp_public_key resp) = Ok (gen_keypair key_id rng).2 ∧
    ck_key_id (gen_keypair key_id rng).2 = key_id ∧
    s' = set_per_key_ledgers
           (<[key_id := new_key (gen_keypair key_id rng).1 (ckp_public_key resp)
                          (ls_current_time s1 + ttl)]> (ls_per_key_ledgers s1)) s1.
Proof.
  intros Hnn Hs H. eapply mwp_Returned in H; [|by apply create_key_spec].
  destruct H as (s1 & ttl & key_id & Ha & Ht & Hin & Hn & Hk & ->). exists s1, ttl, key_id.
  split_and!; try done. unfold gen_keypair. by destruct (kem_gen_keypair rng).
Qed.

(** Drawing a key id ends.  Among more distinct draws than there are keys, the
    loop of [produce_create_key_event] finds one that no held key uses. *)
Theorem key_id_loop_terminates keys draws :
  NoDup draws → (size keys < length draws)%nat →
  ∃ key_id, free_key_id keys draws = Some key_id ∧ keys !! key_id = None.
Proof.
  intros Hnd Hlen. destruct (free_key_id keys draws) as [k|] eqn:E.
  - exists k. split; [done|]. by eapply free_key_id_Some.
  - exfalso. pose proof (free_key_id_None _ _ E) as Hall.
    assert (list_to_set draws ⊆ dom keys) as Hsub.
    { intros k Hk%elem_of_list_to_set. by apply elem_of_dom, Hall. }
    apply subseteq_size in Hsub. rewrite size_list_to_set, size_dom in Hsub by done. lia.
Qed.

(** C12: Time and expiry.  In every run of the service's requests, whatever they
    answer, the ledger's time never goes back, and no key is held past its
    expiration. *)
Theorem ledger_time_monotone s s' :
  (∀ d x, duration_try_from d = Ok x → 0 ≤ x) →
  rtc ledger_step s s' → ledger_fresh s →
  ls_current_time s ≤ ls_current_time s' ∧
  (∀ key_id k, ls_per_key_ledgers s' !! key_id = Some k → ls_current_time s' ≤ pk_expiration k).
Proof.
  intros Hnn Hrun Hf.
  assert (ledger_fresh s' ∧ ls_current_time s ≤ ls_current_time s') as [[_ Hf'] Hle].
  { revert Hf. induction Hrun as [s|s s1 s' Hstep Hrun IH]; intros Hf; [done|].
    destruct (ledger_step_fresh _ _ Hnn Hstep Hf) as [Hf1 Hle1].
    destruct (IH Hf1) as [Hf' Hle']. split; [done|lia]. }
  split; [done|]. intros key_id k Hk. exact (Hf' _ _ Hk).
Qed.


(** An error costs no budget.  When applying an authorisation fails, either
    every key that is still held is exactly as before (the clock update may only
    have removed expired keys), or the symmetric key had been rewrapped and the
    failure is the budget update's own. *)
Theorem failed_authorization_keeps_budgets rng ev s s' e :
  apply_authorize_access_event rng ev s = Returned (s', Err e) →
  ls_per_key_ledgers s' ⊆ ls_per_key_ledgers s ∨
  ∃ s1 header policy k key keys t',
    advanced (aae_event_time ev) s s1 ∧
    blob_header_decode (aae_blob_header ev) = Some header ∧
    policy_decode (aae_access_policy ev) = Some policy ∧
    ls_per_key_ledgers s1 !! bh_key_id header = Some k ∧
    rewrap_symmetric_key (aae_encrypted_symmetric_key ev) (aae_encapsulated_key ev)
      (pk_private_key k) (aae_blob_header ev) key
      (pk_public_key k ++ aae_recipient_nonce ev) rng = Ok keys ∧
    update_budget (pk_budget_tracker k) (bh_blob_id header) (aae_transform_index ev) policy
      (bh_access_policy_sha256 header) = Return (t', Err e).
Proof.
  intros H. eapply mwp_Returned in H; [|apply apply_authorize_spec]. simpl in H.
  destruct H as [->|[(t & _ & ->)|(s1 & h & p & k & key & keys & t' & Ha & _ & Hh & Hp & Hk & Hr & Hu & _)]].
  - by left.
  - left. unfold advance_to. case_decide; [|done]. apply map_filter_subseteq.
  - right. exists s1, h, p, k, key, keys, t'. by split_and!.
Qed.

(** C29: The authorised recipient can read the blob.  If a client encrypted a message
    for a key the ledger generated, with the blob header as associated data, and
    [authorize_access] grants a request for it, then the recipient decrypts the
    message with the private key of the public key it sent, using the ledger's token
    and its own nonce as associated data. *)
Theorem authorized_recipient_decrypts `{!AeadCipher Rng} rng request s s' resp
    header k ledger_id r1 recipient_id r2 plaintext key_rng seal_rng ciphertext :
  0 ≤ ls_current_time s →
  authorize_access rng request s = Returned (s', Ok resp) →
  blob_header_decode (aar_blob_header request) = Some header →
  ls_per_key_ledgers s !! bh_key_id header = Some k →
  pk_private_key k = (gen_keypair ledger_id r1).1 →
  extract_key_from_cwt (aar_recipient_public_key request) = Ok (gen_keypair recipient_id r2).2 →
  encrypt_message plaintext (gen_keypair ledger_id r1).2 (aar_blob_header request) key_rng seal_rng
  = Ok (ciphertext, aar_encapsulated_key request, aar_encrypted_symmetric_key request) →
  decrypt_message ciphertext (aar_blob_header request) (aap_encrypted_symmetric_key resp)
    (aap_reencryption_public_key resp ++ aar_recipient_nonce request)
    (aap_encapsulated_key resp) (gen_keypair recipient_id r2).1 = Ok plaintext.
Proof.
  intros Hs H Hh Hk Hsk Hpk Henc.
  eapply mwp_Returned in H; [|by apply authorize_access_spec].
  destruct H as (s1 & h & p & k1 & app & key & i & t' & Hadv & Hauth & Hrew & _ & _ & ->).
  destruct Hauth as (Hver & Hh1 & _ & _ & Hk1 & _).
  apply verify_attestation_Ok in Hver as [Hext _]. rewrite Hpk in Hext. injection Hext as <-.
  rewrite Hh in Hh1. injection Hh1 as <-.
  assert (k1 = k) as ->.
  { destruct Hadv as (t & _ & ->). unfold advance_to in Hk1. case_decide; [|congruence].
    apply map_lookup_filter_Some in Hk1 as [Hk1 _]. congruence. }
  rewrite Hsk in Hrew. eapply rewrap_decrypt; done.
Qed.
End ledger.

(** * Concrete instances *)

Section ledger_samples.
#[local] Existing Instances toy_coset toy_hpke toy_aead.

Definition toy_attestation : AttestationLibraries unit :=
  {| verify_dice_chain _ := Some []; VerifyingKey := unit;
     verifying_key_from_sec1 _ := Some (); p256_verify _ _ _ := true;
     struct_decode _ := Some [] |}.
#[local] Existing Instance toy_attestation.

#[local] Abbreviation toy_verify := (λ (_ : Z) (_ _ _ : unit), true).

#[local] Abbreviation toy_sha256 := (λ _ : bytes, [Byte.x09]).

#[local] Abbreviation toy_policy_decode := (λ _ : bytes, Some sample_policy).

Definition toy_duration (d : ProtoDuration) : result string Duration :=
  if decide (0 ≤ pd_seconds d ∧ 0 ≤ pd_nanos d)
  then Ok (pd_seconds d * 1000000000 + pd_nanos d) else Err "negative".

Lemma toy_duration_nonneg d x : toy_duration d = Ok x → 0 ≤ x.
Proof. unfold toy_duration. case_decide; [|done]. intros [= <-]. lia. Qed.

Definition sample_key_id : bytes := [Byte.x05; Byte.x06; Byte.x07; Byte.x08].

#[local] Abbreviation toy_header_decode := (λ _ : bytes,
  Some {| bh_blob_id := sample_blob; bh_key_id := sample_key_id;
          bh_access_policy_sha256 := [Byte.x09]; bh_access_policy_node_id := 0 |}).

Definition sample_ledger : @LedgerService unit unit _ :=
  {| ls_evidence := (); ls_signer := λ _, Some [Byte.x02]; ls_current_time := 0;
     ls_per_key_ledgers := ∅ |}.

(** A key that lives for 100 seconds from second 1000 on. *)
Definition sample_created :=
  create_key toy_duration [sample_key_id] ()
    {| ckr_now := Some {| ts_seconds := 1000; ts_nanos := 0 |};
       ckr_ttl := Some {| pd_seconds := 100; pd_nanos := 0 |} |} sample_ledger.

Definition created_ledger : LedgerService :=
  match sample_created with Returned (s, _) => s | _ => sample_ledger end.

Definition created_token : bytes :=
  match sample_created with Returned (_, Ok resp) => ckp_public_key resp | _ => [] end.

Definition sample_message :=
  encrypt_message [Byte.x07] (gen_keypair sample_key_id ()).2 [Byte.x01] () ().

(** A recipient that presents the ledger's own token, at second 1050. *)
Definition sample_request : @AuthorizeAccessRequest unit unit :=
  {| aar_now := Some {| ts_seconds := 1050; ts_nanos := 0 |};
     aar_access_policy := []; aar_blob_header := [Byte.x01];
     aar_encapsulated_key := match sample_message with Ok (_, e, _) => e | Err _ => [] end;
     aar_encrypted_symmetric_key := match sample_message with Ok (_, _, k) => k | Err _ => [] end;
     aar_recipient_public_key := created_token;
     aar_recipient_attestation_evidence := Some ();
     aar_recipient_attestation_endorsements := Some ();
     aar_recipient_tag := "app"; aar_recipient_nonce := [Byte.x03] |}.

Definition sample_authorized :=
  authorize_access toy_verify toy_sha256 toy_header_decode toy_policy_decode () sample_request
    created_ledger.

Definition returned_ok {S E A} (x : exec (S * result E A)) : bool :=
  match x with Returned (_, Ok _) => true | _ => false end.

Lemma sample_created_ok : returned_ok sample_created = true.
Proof. by vm_compute. Qed.

Lemma sample_authorized_ok : returned_ok sample_authorized = true.
Proof. by vm_compute. Qed.

Lemma create_key_adds_one_key_witness :
  match sample_created with
  | Returned (s', Ok resp) =>
      extract_key_from_cwt (ckp_public_key resp) = Ok (gen_keypair sample_key_id ()).2
  | _ => False
  end.
Proof.
  pose proof sample_created_ok as Hok.
  destruct sample_created as [[s' [resp|e]]| |] eqn:E; [|discriminate Hok..].
  destruct (create_key_adds_one_key toy_duration [sample_key_id] () _ sample_ledger s' resp
    toy_duration_nonneg ltac:(done) E) as (s1 & ttl & key_id & _ & _ & Hin & _ & Hk & _).
  apply list_elem_of_singleton in Hin as ->. exact Hk.
Defined.

Lemma key_id_loop_terminates_witness :
  ∃ key_id, free_key_id (ls_per_key_ledgers created_ledger) [sample_key_id; []] = Some key_id ∧
    ls_per_key_ledgers created_ledger !! key_id = None.
Proof.
  apply key_id_loop_terminates; [by repeat constructor; set_solver|].
  vm_compute. lia.
Defined.

Lemma created_ledger_step :
  ledger_step toy_verify toy_sha256 toy_header_decode toy_policy_decode toy_duration
    sample_ledger created_ledger.
Proof.
  pose proof sample_created_ok as Hok.
  destruct sample_created as [[s' r]| |] eqn:E; [|discriminate Hok..].
  assert (created_ledger = s') as -> by (unfold created_ledger; by rewrite E).
  by eapply step_create.
Qed.

Lemma ledger_time_monotone_witness :
  ls_current_time created_ledger = 1000000000000 ∧
  ∀ key_id k, ls_per_key_ledgers created_ledger !! key_id = Some k →
    1000000000000 ≤ pk_expiration k.
Proof.
  split; [by vm_compute|].
  apply (ledger_time_monotone toy_verify toy_sha256 toy_header_decode toy_policy_decode
    toy_duration sample_ledger created_ledger toy_duration_nonneg).
  - apply rtc_once, created_ledger_step.
  - split; [done|]. apply map_Forall_empty.
Defined.

Lemma created_ledger_fresh : ledger_fresh created_ledger.
Proof.
  eapply ledger_step_fresh; [apply toy_duration_nonneg|apply created_ledger_step|].
  split; [done|]. apply map_Forall_empty.
Qed.


(** An authorisation for a key the ledger does not hold. *)
Lemma failed_authorization_keeps_budgets_witness :
  match apply_authorize_access_event toy_header_decode toy_policy_decode ()
          {| aae_event_time := None; aae_access_policy := []; aae_transform_index := 0;
             aae_blob_header := []; aae_encapsulated_key := []; aae_encrypted_symmetric_key := [];
             aae_recipient_public_key := created_token; aae_recipient_nonce := [] |}
          sample_ledger with
  | Returned (s', Err e) => e = not_found ∧ ls_per_key_ledgers s' ⊆ ∅
  | _ => False
  end.
Proof.
  destruct (apply_authorize_access_event _ _ _ _ _) as [[s' [resp|e]]| |] eqn:E;
    try (vm_compute in E; discriminate E).
  split; [by vm_compute in E; injection E as _ <-|].
  destruct (failed_authorization_keeps_budgets _ _ _ _ _ _ _ E)
    as [H|(s1 & h & p & k & key & keys & t' & (t & [= <-] & ->) & _ & _ & Hk & _)]; [exact H|].
  discriminate Hk.
Defined.

Lemma authorized_recipient_decrypts_witness :
  match sample_authorized, sample_message with
  | Returned (_, Ok resp), Ok (ciphertext, _, _) =>
      decrypt_message ciphertext [Byte.x01] (aap_encrypted_symmetric_key resp)
        (aap_reencryption_public_key resp ++ [Byte.x03]) (aap_encapsulated_key resp)
        (gen_keypair sample_key_id ()).1 = Ok [Byte.x07]
  | _, _ => False
  end.
Proof.
  pose proof sample_authorized_ok as Hok.
  destruct sample_authorized as [[s' [resp|e]]| |] eqn:E; [|discriminate Hok..].
  destruct sample_message as [[[ct ek] esk]|e] eqn:Em; [|vm_compute in Em; discriminate Em].
  destruct (ls_per_key_ledgers created_ledger !! sample_key_id) as [k|] eqn:Ek;
    [|vm_compute in Ek; discriminate Ek].
  refine (authorized_recipient_decrypts _ _ _ _ () sample_request created_ledger s' resp _ k
    sample_key_id () sample_key_id () [Byte.x07] () () ct _ E eq_refl Ek _ _ _).
  - by vm_compute.
  - by destruct (pk_private_key k).
  - by vm_compute.
  - change (sample_message =
      Ok (ct, match sample_message with Ok (_, e, _) => e | Err _ => [] end,
              match sample_message with Ok (_, _, k) => k | Err _ => [] end)).
    by rewrite Em.
Defined.

(** ** What modelling showed *)

(** A time whose nanoseconds are not normalised makes the expiration overflow. *)
Lemma expiration_overflow_panics :
  create_key toy_duration [sample_key_id] ()
    {| ckr_now := Some {| ts_seconds := two63 - 1; ts_nanos := 2147483647 |};
       ckr_ttl := Some {| pd_seconds := two63 - 1; pd_nanos := 0 |} |} sample_ledger = Panicked.
Proof. by vm_compute. Qed.

(** A [ttl] that takes the expiration past the range of the token's times panics
    before the timestamp is formatted. *)
Lemma far_expiration_panics :
  create_key toy_duration [sample_key_id] ()
    {| ckr_now := Some {| ts_seconds := 1; ts_nanos := 0 |};
       ckr_ttl := Some {| pd_seconds := two63 - 1; pd_nanos := 0 |} |} sample_ledger = Panicked.
Proof. by vm_compute. Qed.
End ledger_samples.
