(* ===== verification/LedgerActor.v ===== *)
(** * The ledger as an actor

    [src/apps/ledger/service/src/actor.rs]: commands become events, committed events
    change the ledger, snapshots carry it.  The context is read through the
    [ActorContext] of the call; log lines are left out (the release profile compiles
    the debug ones away, the others need the context, which is modelled). *)

From S2P Require Import Prelude F64 Policy Budget Crypto AppAttestation Model Ledger.

Inductive LedgerEventKind :=
| EventCreateKey (e : CreateKeyEvent)
| EventDeleteKey (r : DeleteKeyRequest)
| EventAuthorizeAccess (e : AuthorizeAccessEvent)
| EventRevokeAccess (r : RevokeAccessRequest).

Record LedgerEvent := { le_event : option LedgerEventKind }.

Record ResponseStatus := { rs_code : Z; rs_message : string }.

Section actor.
Context {ReferenceValues Evidence Endorsements Rng : Type}.
Context `{HCoset : !Coset, HHpke : !Hpke Rng, HAtt : !AttestationLibraries Evidence}.
Variable verify : Z → Evidence → Endorsements → ReferenceValues → bool.
Variable sha256 : bytes → bytes.
Variable blob_header_decode : bytes → option BlobHeader.
Variable policy_decode : bytes → option (@DataAccessPolicy ReferenceValues).
Variable duration_try_from : ProtoDuration → result string Duration.
(** The numbers of [micro_rpc::StatusCode]. *)
Variable status_number : StatusCode → Z.

Inductive LedgerRequestKind :=
| RequestCreateKey (r : CreateKeyRequest)
| RequestDeleteKey (r : DeleteKeyRequest)
| RequestAuthorizeAccess (r : @AuthorizeAccessRequest Evidence Endorsements)
| RequestRevokeAccess (r : RevokeAccessRequest).

Record LedgerRequest := { lr_request : option LedgerRequestKind }.

Inductive LedgerResponseKind :=
| ResponseCreateKey (r : @CreateKeyResponse Evidence)
| ResponseDeleteKey (r : DeleteKeyResponse)
| ResponseAuthorizeAccess (r : AuthorizeAccessResponse)
| ResponseRevokeAccess (r : RevokeAccessResponse)
| ResponseError (s : ResponseStatus).

Record LedgerResponse := { lp_response : option LedgerResponseKind }.

Variable request_decode : bytes → option LedgerRequest.
Variable config_decode : bytes → option unit.
Context `{HEv : !ProtoCodec LedgerEvent, HResp : !ProtoCodec LedgerResponse,
          HSnap : !ProtoCodec LedgerSnapshot}.

(** Whether the context has been set, and the service. *)
Record LedgerActor := {
  la_context : bool;
  la_ledger : @LedgerService Evidence Rng _
}.

(** What one call draws from the system's random generator. *)
Record LedgerEntropy := { ent_key_ids : list bytes; ent_rng : Rng }.

#[local] Abbreviation Act := (method LedgerActor Status).

Definition actor_create (evidence : option Evidence) (signer : bytes → option bytes)
    : result string LedgerActor :=
  ledger ← ledger_create evidence signer;
  Ok {| la_context := false; la_ledger := ledger |}.

Definition get_context {E} : method LedgerActor E unit := λ s,
  if la_context s then Returned (s, Ok ()) else Panicked.

Definition set_ledger (l : @LedgerService Evidence Rng _) (s : LedgerActor) : LedgerActor :=
  {| la_context := la_context s; la_ledger := l |}.

Definition mut_ledger {E A} (m : method (@LedgerService Evidence Rng _) E A)
    : method LedgerActor E A := on_part la_ledger set_ledger m.

Definition response_with_error (error : Status) : LedgerResponse :=
  {| lp_response := Some (ResponseError {| rs_code := status_number (status_code error);
                                           rs_message := status_message error |}) |}.

Definition handle_command (ctx : ActorContext) (ent : LedgerEntropy) (command : ActorCommand)
    : Act CommandOutcome :=
  match request_decode (command_header command) with
  | None =>
      get_context;;
      fail (new_with_message StatusInvalidArgument "LedgerRequest cannot be parsed")
  | Some ledger_request =>
      get_context;;
      if negb (ctx_leader ctx)
      then fail (new_with_message StatusAborted "Command rejected")
      else
        event ←
          match lr_request ledger_request with
          | Some (RequestAuthorizeAccess request) =>
              authorize_access_event ←
                mut_ledger (attest_and_produce_authorize_access_event verify sha256
                  blob_header_decode policy_decode request);
              mret (EventAuthorizeAccess authorize_access_event)
          | Some (RequestCreateKey request) =>
              create_key_event ←
                mut_ledger (produce_create_key_event duration_try_from (ent_key_ids ent)
                  (ent_rng ent) request);
              mret (EventCreateKey create_key_event)
          | Some (RequestDeleteKey request) => mret (EventDeleteKey request)
          | Some (RequestRevokeAccess request) => mret (EventRevokeAccess request)
          | None =>
              fail (new_with_message StatusInvalidArgument
                      "LedgerActor: unexpected request type")
          end;
        mret (co_with_event
          (event_with_proto (command_correlation_id command) {| le_event := Some event |}))
  end.

(** A response is only produced on the replica that owns the event. *)
Definition respond (context : ActorEventContext) (event : ActorEvent)
    (response : LedgerResponseKind) : EventOutcome :=
  if ec_owned context
  then eo_with_command
         (command_with_header (event_correlation_id event) {| lp_response := Some response |})
  else eo_with_none.

Definition handle_event (ent : LedgerEntropy) (context : ActorEventContext) (event : ActorEvent)
    : Act EventOutcome :=
  match proto_decode (event_contents event) with
  | None =>
      get_context;;
      fail (new_with_message StatusInvalidArgument "LedgerRequest cannot be parsed")
  | Some ledger_event =>
      match le_event ledger_event with
      | Some (EventAuthorizeAccess e) =>
          response ← mut_ledger (apply_authorize_access_event blob_header_decode policy_decode
                                   (ent_rng ent) e);
          mret (respond context event (ResponseAuthorizeAccess response))
      | Some (EventCreateKey e) =>
          response ← mut_ledger (apply_create_key_event e);
          mret (respond context event (ResponseCreateKey response))
      | Some (EventDeleteKey r) =>
          response ← mut_ledger (delete_key r);
          mret (respond context event (ResponseDeleteKey response))
      | Some (EventRevokeAccess r) =>
          response ← mut_ledger (revoke_access r);
          mret (respond context event (ResponseRevokeAccess response))
      | None =>
          get_context;;
          fail (new_with_message StatusInvalidArgument "LedgerActor: unexpected event type")
      end
  end.

(** ** The [Actor] interface *)

Definition actor_on_init (ctx : ActorContext) : method LedgerActor ActorError unit :=
  s ← get_self;
  if la_context s then fail ActorInternal
  else
    set_self {| la_context := true; la_ledger := la_ledger s |};;
    try_ (ok_or (config_decode (ctx_config ctx)) ActorConfigLoading).

Definition actor_on_shutdown (s : LedgerActor) : LedgerActor := s.

Definition actor_on_save_snapshot : method LedgerActor ActorError bytes :=
  s ← get_self;
  match save_snapshot (la_ledger s) with
  | Ok snapshot => mret (proto_encode snapshot)
  | Err _ => get_context;; fail ActorInternal
  end.

Definition actor_on_load_snapshot (snapshot : bytes) : method LedgerActor ActorError unit :=
  match proto_decode snapshot with
  | None => get_context;; fail ActorSnapshotLoading
  | Some snapshot =>
      λ s, match mut_ledger (load_snapshot snapshot) s with
           | Returned (s', Ok _) => Returned (s', Ok ())
           | Returned (s', Err _) => (get_context;; fail ActorSnapshotLoading) s'
           | Panicked => Panicked
           | Unfinished => Unfinished
           end
  end.

Definition actor_on_process_command (ctx : ActorContext) (ent : LedgerEntropy)
    (command : option ActorCommand) : method LedgerActor ActorError CommandOutcome :=
  match command with
  | None => mret co_with_none
  | Some command =>
      or_else (handle_command ctx ent command) (λ err,
        Ok (co_with_command
          (command_with_header (command_correlation_id command) (response_with_error err))))
  end.

Definition actor_on_apply_event (ent : LedgerEntropy) (context : ActorEventContext)
    (event : ActorEvent) : method LedgerActor ActorError EventOutcome :=
  or_else (handle_event ent context event) (λ err,
    Ok (eo_with_command
      (command_with_header (event_correlation_id event) (response_with_error err)))).

#[global] Instance LedgerActor_Actor : Actor LedgerEntropy LedgerActor :=
  {| on_init := actor_on_init;
     on_shutdown := actor_on_shutdown;
     on_save_snapshot _ := actor_on_save_snapshot;
     on_load_snapshot _ := actor_on_load_snapshot;
     on_process_command := actor_on_process_command;
     on_apply_event _ := actor_on_apply_event |}.

(** * Properties *)

(** ** Replicas in step *)

(** Two runs that end the same way, with related states and results. *)
Definition sync {S E A} (same : S → S → Prop) (R : A → A → Prop)
    (x1 x2 : exec (S * result E A)) : Prop :=
  match x1, x2 with
  | Returned (s1, Ok a1), Returned (s2, Ok a2) => same s1 s2 ∧ R a1 a2
  | Returned (s1, Err _), Returned (s2, Err _) => same s1 s2
  | Panicked, Panicked => True
  | Unfinished, Unfinished => True
  | _, _ => False
  end.

Lemma sync_bind {S E A B} (same : S → S → Prop) (R : A → A → Prop) (R' : B → B → Prop)
    (m1 m2 : method S E A) (f1 f2 : A → method S E B) s1 s2 :
  sync same R (m1 s1) (m2 s2) →
  (∀ a1 a2 t1 t2, same t1 t2 → R a1 a2 → sync same R' (f1 a1 t1) (f2 a2 t2)) →
  sync same R' ((m1 ≫= f1) s1) ((m2 ≫= f2) s2).
Proof.
  unfold mbind, method_bind. intros H Hf.
  destruct (m1 s1) as [[? []]| |], (m2 s2) as [[? []]| |]; simpl in *; try done.
  by apply Hf; destruct H.
Qed.

Lemma sync_or_else {S E F A} (same : S → S → Prop) (R : A → A → Prop) (m1 m2 : method S E A)
    (f1 f2 : E → result F A) s1 s2 :
  sync same R (m1 s1) (m2 s2) →
  (∀ e1 e2, match f1 e1, f2 e2 with Ok a1, Ok a2 => R a1 a2 | Err _, Err _ => True | _, _ => False end) →
  sync same R (or_else m1 f1 s1) (or_else m2 f2 s2).
Proof.
  unfold or_else. intros H Hf.
  destruct (m1 s1) as [[? [a1|e1]]| |], (m2 s2) as [[? [a2|e2]]| |]; simpl in *; try done.
  specialize (Hf e1 e2). by destruct (f1 e1), (f2 e2).
Qed.

(** The same call on the same part, with the same answer. *)
Lemma sync_try {S E A} (same : S → S → Prop) (r : result E A) s1 s2 :
  same s1 s2 → sync same eq (try_ r s1) (try_ r s2).
Proof. intros H. unfold try_. by destruct r. Qed.

Lemma sync_call {S E A} (same : S → S → Prop) (o : outcome A) s1 s2 :
  same s1 s2 → sync (E:=E) same eq (call o s1) (call o s2).
Proof. intros H. unfold call. by destruct o. Qed.

Lemma sync_get {S E} (same : S → S → Prop) s1 s2 :
  same s1 s2 → sync (E:=E) same same (get_self s1) (get_self s2).
Proof. by intros H. Qed.

#[local] Abbreviation same := (@same_ledger Evidence Rng _).

Lemma same_advance t s1 s2 : same s1 s2 → same (advance_to t s1) (advance_to t s2).
Proof.
  intros [Ht Hk]. unfold advance_to. rewrite Ht. case_decide; [|by split].
  split; simpl; [done|by rewrite Hk].
Qed.

Lemma sync_update_time ts f1 f2 s1 s2 :
  same s1 s2 →
  sync (E:=Status) same eq (or_else (update_current_time ts) (λ e, Err (f1 e)) s1)
    (or_else (update_current_time ts) (λ e, Err (f2 e)) s2).
Proof.
  intros Hs. apply sync_or_else; [|done]. unfold update_current_time.
  eapply sync_bind; [eapply sync_bind; [by apply sync_call|]|].
  - intros a ? t1 t2 Ht <-. by apply sync_try.
  - intros a ? t1 t2 Ht <-. eapply sync_bind; [by apply sync_get|].
    intros b1 b2 u1 u2 _ Hb. unfold set_self. simpl. split; [by apply same_advance|done].
Qed.

(** Sealing works for every seed or for none. *)
Hypothesis seal_any_seed : ∀ pk p aad r r',
  is_Some (single_shot_seal pk p aad r) → is_Some (single_shot_seal pk p aad r').

Lemma rewrap_any_seed esk ek sk aad pk aad' r r' f :
  match map_err (E:=string) (F:=Status) f (rewrap_symmetric_key esk ek sk aad pk aad' r),
        map_err f (rewrap_symmetric_key esk ek sk aad pk aad' r') with
  | Ok _, Ok _ | Err _, Err _ => True
  | _, _ => False
  end.
Proof.
  unfold rewrap_symmetric_key, wrap_symmetric_key.
  destruct (unwrap_symmetric_key _ _ _ _) as [k|]; simpl; [|done].
  case_decide; simpl; [done|].
  destruct (ok_or (find_param _ _ ≫= _) _) as [raw|]; simpl; [|done].
  destruct (public_key_from_bytes raw) as [p|]; simpl; [|done].
  destruct (single_shot_seal p k aad' r) as [[]|] eqn:E1,
    (single_shot_seal p k aad' r') as [[]|] eqn:E2; simpl; try done.
  - destruct (seal_any_seed p k aad' r r') as [? ?]; [by rewrite E1|congruence].
  - destruct (seal_any_seed p k aad' r' r) as [? ?]; [by rewrite E2|congruence].
Qed.

(** One step through two copies of a handler's body. *)
#[local] Ltac sync_step :=
  lazymatch goal with
  | |- sync _ _ ((mbind _ (try_ _)) _) _ => eapply sync_bind; [by apply sync_try|intros ? ? ? ? ? <-]
  | |- sync _ _ ((mbind _ (call _)) _) _ => eapply sync_bind; [by apply sync_call|intros ? ? ? ? ? <-]
  | |- sync _ _ ((mbind _ get_self) _) _ =>
      eapply sync_bind; [by apply sync_get|intros ? ? ? ? ? [? Hkeys]; rewrite ?Hkeys]
  | |- sync _ _ ((mbind _ (or_else _ _)) _) _ =>
      eapply sync_bind; [by apply sync_update_time|intros ? ? ? ? ? _]
  | |- sync _ _ ((mbind _ (mbind _ (call _))) _) _ =>
      eapply sync_bind;
        [eapply sync_bind; [by apply sync_call|intros ? ? ? ? ? <-; by apply sync_try]
        |intros ? ? ? ? ? <-]
  end.

Lemma sync_apply_create ev s1 s2 :
  same s1 s2 → sync same (λ _ _, True) (apply_create_key_event ev s1) (apply_create_key_event ev s2).
Proof.
  intros Hs. unfold apply_create_key_event. do 4 sync_step.
  destruct (ls_per_key_ledgers _ !! _); [by simpl|]. sync_step. by split.
Qed.

Lemma sync_delete req s1 s2 :
  same s1 s2 → sync same (λ _ _, True) (delete_key req s1) (delete_key req s2).
Proof.
  intros Hs. unfold delete_key. do 2 sync_step.
  unfold mbind, method_bind, set_self. destruct (ls_per_key_ledgers _ !! _); by simpl.
Qed.

Lemma sync_revoke req s1 s2 :
  same s1 s2 → sync same (λ _ _, True) (revoke_access req s1) (revoke_access req s2).
Proof. intros Hs. unfold revoke_access. do 2 sync_step. unfold set_budget_tracker. rewrite Hkeys. by split. Qed.

Lemma sync_apply_authorize r1 r2 ev s1 s2 :
  same s1 s2 →
  sync same (λ _ _, True) (apply_authorize_access_event blob_header_decode policy_decode r1 ev s1)
    (apply_authorize_access_event blob_header_decode policy_decode r2 ev s2).
Proof.
  intros Hs. unfold apply_authorize_access_event. do 6 sync_step.
  eapply (sync_bind _ (λ _ _, True)).
  - match goal with |- context [map_err ?f (rewrap_symmetric_key ?a ?b ?c ?d ?e ?g r1)] =>
      pose proof (rewrap_any_seed a b c d e g r1 r2 f) as Hr end.
    unfold try_. by destruct (map_err _ (rewrap_symmetric_key _ _ _ _ _ _ r1)),
      (map_err _ (rewrap_symmetric_key _ _ _ _ _ _ r2)).
  - intros [e1 k1] [e2 k2] v1 v2 Hv _. eapply sync_bind; [by apply sync_call|].
    intros [t r] ? u1 u2 Hu <-. unfold set_budget_tracker. rewrite Hkeys.
    unfold mbind, method_bind, set_self, try_. by destruct r.
Qed.

Definition same_actor (a1 a2 : LedgerActor) : Prop :=
  la_context a1 = la_context a2 ∧ same (la_ledger a1) (la_ledger a2).

Lemma sync_mut_ledger {E A} (R : A → A → Prop)
    (m1 m2 : method (@LedgerService Evidence Rng _) E A) a1 a2 :
  same_actor a1 a2 → sync same R (m1 (la_ledger a1)) (m2 (la_ledger a2)) →
  sync same_actor R (mut_ledger m1 a1) (mut_ledger m2 a2).
Proof.
  intros [Hc Hl]. unfold mut_ledger, on_part.
  destruct (m1 (la_ledger a1)) as [[? []]| |], (m2 (la_ledger a2)) as [[? []]| |]; simpl; try done.
  by intros [??].
Qed.

Lemma sync_get_context {E} a1 a2 :
  same_actor a1 a2 → sync (E:=E) same_actor eq (get_context a1) (get_context a2).
Proof. intros Ha. pose proof Ha as [Hc _]. unfold get_context. rewrite Hc. by destruct (la_context a2). Qed.

Lemma sync_apply_event e1 e2 c1 c2 ev a1 a2 :
  same_actor a1 a2 →
  sync same_actor (λ _ _, True) (actor_on_apply_event e1 c1 ev a1) (actor_on_apply_event e2 c2 ev a2).
Proof.
  intros Ha. unfold actor_on_apply_event. apply sync_or_else; [|done]. unfold handle_event.
  assert (∀ st : Status, sync (A:=EventOutcome) same_actor (λ _ _, True)
    ((get_context;; fail st) a1) ((get_context;; fail st) a2)) as Hfail.
  { intros st. eapply sync_bind; [by apply sync_get_context|]. by intros. }
  assert (∀ A (m1 m2 : method (@LedgerService Evidence Rng _) Status A) f1 f2,
    sync same (λ _ _, True) (m1 (la_ledger a1)) (m2 (la_ledger a2)) →
    sync same_actor (λ _ _, True) ((r ← mut_ledger m1; mret (respond c1 ev (f1 r))) a1)
      ((r ← mut_ledger m2; mret (respond c2 ev (f2 r))) a2)) as Hresp.
  { intros A m1 m2 f1 f2 Hm. eapply sync_bind; [by apply sync_mut_ledger|]. by intros. }
  destruct (proto_decode (event_contents ev)) as [[[[]|]]|]; simpl; [..|apply Hfail|apply Hfail];
    apply Hresp; destruct Ha as [_ Ha].
  - by apply sync_apply_create.
  - by apply sync_delete.
  - by apply sync_apply_authorize.
  - by apply sync_revoke.
Qed.

(** A replica's run over a log: each entry with what this replica's call saw. *)
Fixpoint apply_log (log : list (LedgerEntropy * ActorEventContext * ActorEvent)) (a : LedgerActor)
    : exec LedgerActor :=
  match log with
  | [] => Returned a
  | (ent, context, event) :: log =>
      match actor_on_apply_event ent context event a with
      | Returned (a', Ok _) => apply_log log a'
      | Returned (_, Err _) | Panicked => Panicked
      | Unfinished => Unfinished
      end
  end.

(** ** Commands *)

Lemma mut_ledger_mwp {E A} (m : method (@LedgerService Evidence Rng _) E A) Q R a :
  mwp m (λ x l, Q x (set_ledger l a)) (λ e l, R e (set_ledger l a)) (la_ledger a) →
  mwp (mut_ledger m) Q R a.
Proof. unfold mwp, mut_ledger, on_part. by destruct (m (la_ledger a)) as [[? []]| |]. Qed.

Lemma get_context_mwp {E} (Q : unit → LedgerActor → Prop) (R : E → LedgerActor → Prop) a :
  (la_context a = true → Q () a) → mwp get_context Q R a.
Proof. unfold mwp, get_context. destruct (la_context a); auto. Qed.

Lemma advance_to_keys t (l : @LedgerService Evidence Rng _) :
  ls_per_key_ledgers (advance_to t l) ⊆ ls_per_key_ledgers l.
Proof. unfold advance_to. case_decide; [apply map_filter_subseteq|done]. Qed.

(** A command leaves the keys alone, apart from those that expire. *)
Definition keys_kept (a a' : LedgerActor) : Prop :=
  ls_per_key_ledgers (la_ledger a') ⊆ ls_per_key_ledgers (la_ledger a).

Lemma advanced_kept ts l a :
  advanced ts (la_ledger a) l → keys_kept a (set_ledger l a).
Proof. intros (t & _ & ->). apply advance_to_keys. Qed.

Lemma handle_command_spec ctx ent command a :
  mwp (handle_command ctx ent command)
    (λ o a', keys_kept a a' ∧ ctx_leader ctx = true ∧
       ∃ e, o = co_with_event (event_with_proto (command_correlation_id command)
                                 {| le_event := Some e |}))
    (λ _ a', keys_kept a a') a.
Proof.
  assert (keys_kept a a) as Hrefl by (unfold keys_kept; done).
  assert (keys_kept a (set_ledger (la_ledger a) a)) as Hrefl' by (unfold keys_kept; done).
  unfold handle_command. mwp_step; [|mwp_step; apply get_context_mwp; intros _; by mwp_step].
  mwp_step. apply get_context_mwp. intros _. destruct (ctx_leader ctx); simpl; [|by mwp_step].
  mwp_step. destruct (lr_request _) as [[]|]; [..|by mwp_step].
  1, 3: mwp_step; apply mut_ledger_mwp.
  - eapply mwp_mono; [apply produce_create_key_spec| |].
    + intros ev l1 [Hadv _]. mwp_step. mwp_step. split; [by eapply advanced_kept|]. eauto.
    + intros e l1 [->|Hadv]; [done|]. by eapply advanced_kept.
  - eapply mwp_mono; [apply produce_authorize_spec| |].
    + intros ev l1 [Hadv _]. mwp_step. mwp_step. split; [by eapply advanced_kept|]. eauto.
    + intros e l1 [->|Hadv]; [done|]. by eapply advanced_kept.
  - mwp_step. mwp_step. eauto.
  - mwp_step. mwp_step. eauto.
Qed.

(** ** Events *)

Lemma respond_ids context event resp c :
  c ∈ eo_commands (respond context event resp) → command_correlation_id c = event_correlation_id event.
Proof.
  unfold respond. destruct (ec_owned context); simpl; [|by intros ?%elem_of_nil].
  by intros ->%list_elem_of_singleton.
Qed.

Lemma handle_event_spec ent context event a :
  mwp (handle_event ent context event) (λ o _, ∃ resp, o = respond context event resp)
    (λ _ _, True) a.
Proof.
  assert (∀ (A : Type) (m : method (@LedgerService Evidence Rng _) Status A) f,
    mwp (r ← mut_ledger m; mret (respond context event (f r)))
      (λ o _, ∃ resp, o = respond context event resp) (λ _ _, True) a) as Hresp.
  { intros A m f. mwp_step. apply mut_ledger_mwp. unfold mwp at 1.
    destruct (m _) as [[? []]| |]; [|done..]. mwp_step. eauto. }
  assert (∀ st : Status, mwp (A:=EventOutcome) (get_context;; fail st)
    (λ o _, ∃ resp, o = respond context event resp) (λ _ _, True) a) as Hfail.
  { intros st. mwp_step. apply get_context_mwp. intros _. by mwp_step. }
  unfold handle_event. mwp_step; [|apply Hfail]. destruct (le_event _) as [[]|]; auto.
Qed.

(** * Claims *)

(** C6: Replicas converge.  Two replicas of the ledger that start in the same state
    and apply the same events, in the same order, end in the same state: the clock,
    the keys and every budget.  It does not matter which replica owns an event, at
    which index it arrives, what the random generators yield or which signer and
    evidence a replica has; and if one replica gets through the log, so does the
    other. *)
Theorem replicas_converge log1 log2 a1 a2 a1' :
  log1.*2 = log2.*2 → same_actor a1 a2 → apply_log log1 a1 = Returned a1' →
  ∃ a2', apply_log log2 a2 = Returned a2' ∧ same_actor a1' a2'.
Proof.
  revert log2 a1 a2. induction log1 as [|[[e1 c1] ev] log1 IH]; intros [|[[e2 c2] ev2] log2] a1 a2;
    try done; simpl.
  - intros _ Ha [= <-]. eauto.
  - intros [= <- Hlog] Ha. pose proof (sync_apply_event e1 e2 c1 c2 ev a1 a2 Ha) as Hs.
    destruct (actor_on_apply_event e1 c1 ev a1) as [[b1 []]| |]; try done.
    destruct (actor_on_apply_event e2 c2 ev a2) as [[b2 []]| |]; try done.
    intros Hrun. by eapply IH; [|apply Hs|].
Qed.

(** A command is proposed or answered.  Processing a command never fails: it
    either proposes exactly one event, which carries the command's correlation id
    and only on the leader, or sends exactly one error response with that id; keys
    and their budgets stay, apart from keys that expire. *)
Theorem command_proposed_or_answered ctx ent command a a' r :
  actor_on_process_command ctx ent (Some command) a = Returned (a', r) →
  keys_kept a a' ∧
  ((ctx_leader ctx = true ∧
    ∃ e, r = Ok (co_with_event (event_with_proto (command_correlation_id command)
                                  {| le_event := Some e |}))) ∨
   ∃ err, r = Ok (co_with_command (command_with_header (command_correlation_id command)
                                     (response_with_error err)))).
Proof.
  intros H. eapply (mwp_Returned _
    (λ o a', keys_kept a a' ∧
       ((ctx_leader ctx = true ∧
         ∃ e, o = co_with_event (event_with_proto (command_correlation_id command)
                                   {| le_event := Some e |})) ∨
        ∃ err, o = co_with_command (command_with_header (command_correlation_id command)
                                      (response_with_error err)))) (λ _ _, False)) in H.
  - destruct r; [|done]. destruct H as [? [[? [? ->]]|[? ->]]]; split; eauto.
  - unfold actor_on_process_command. mwp_step. eapply mwp_mono; [apply handle_command_spec| |].
    + intros o s' (Hk & Hl & He). split; [done|]. by left.
    + intros e s' Hk. split; [done|]. right. by exists e.
Qed.

(** An event is answered once, by its owner.  Applying an event never fails; on
    the replica that owns it exactly one response is sent, with the event's
    correlation id, and on another replica nothing is sent unless the event failed
    to apply. *)
Theorem event_answered_by_owner ent context event a a' r :
  actor_on_apply_event ent context event a = Returned (a', r) →
  ∃ o, r = Ok o ∧
    (∀ c, c ∈ eo_commands o → command_correlation_id c = event_correlation_id event) ∧
    (ec_owned context = true → ∃ c, eo_commands o = [c]) ∧
    (ec_owned context = false → eo_commands o = [] ∨
       ∃ err, o = eo_with_command (command_with_header (event_correlation_id event)
                                     (response_with_error err))).
Proof.
  intros H. eapply (mwp_Returned _ (λ o _, (∃ resp, o = respond context event resp) ∨
      ∃ err, o = eo_with_command (command_with_header (event_correlation_id event)
                                    (response_with_error err))) (λ _ _, False)) in H.
  - destruct r as [o|]; [|done]. exists o. split; [done|].
    destruct H as [[resp ->]|[err ->]].
    + split_and!; [apply respond_ids|unfold respond; by intros ->; eexists|].
      unfold respond. intros ->. by left.
    + split_and!; [by intros c ->%list_elem_of_singleton|by eexists|by right; eexists].
  - unfold actor_on_apply_event. mwp_step. eapply mwp_mono; [apply handle_event_spec| |]; eauto.
Qed.

(** C31: Snapshots restore the ledger.  A snapshot that was saved is loaded on any
    replica, whatever state that one was in, and gives it the same clock, keys and
    budgets; saving changes nothing. *)
Theorem actor_snapshot_roundtrip a a' snapshot b :
  0 ≤ ls_current_time (la_ledger a) →
  map_Forall (λ _ k, 0 ≤ pk_expiration k) (ls_per_key_ledgers (la_ledger a)) →
  actor_on_save_snapshot a = Returned (a', Ok snapshot) →
  a' = a ∧
  ∃ b', actor_on_load_snapshot snapshot b = Returned (b', Ok ()) ∧
    la_context b' = la_context b ∧ same (la_ledger b') (la_ledger a).
Proof.
  intros Ht Hk H. unfold actor_on_save_snapshot in H. method_inv.
  destruct (save_snapshot (la_ledger a)) as [snap|] eqn:Hs; method_inv.
  split; [done|].
  unfold actor_on_load_snapshot. rewrite proto_decode_encode. unfold mut_ledger, on_part.
  destruct (ledger_snapshot_roundtrip _ _ (la_ledger b) Ht Hk Hs) as (l' & -> & Hl).
  by eexists.
Qed.

(** ** What modelling showed *)

(** A rejected command can still move the leader's clock and expire its keys, which no
    event reports to the other replicas. *)
Lemma rejected_command_moves_clock ctx ent command request now d a :
  la_context a = true → ctx_leader ctx = true →
  request_decode (command_header command) = Some {| lr_request := Some (RequestCreateKey request) |} →
  ckr_now request = Some now → parse_timestamp (Some now) = Return (Ok d) →
  (∃ err, parse_duration duration_try_from (ckr_ttl request) = Err err) →
  ∃ o, actor_on_process_command ctx ent (Some command) a
       = Returned (set_ledger (advance_to d (la_ledger a)) a, Ok o) ∧ co_event o = None.
Proof.
  intros Hc Hl Hdec Hnow Hd [err Herr]. unfold actor_on_process_command, or_else, handle_command.
  rewrite Hdec. unfold get_context, mbind, method_bind. rewrite Hc, Hl. simpl.
  unfold mut_ledger, on_part, produce_create_key_event, mbind, method_bind, or_else,
    update_current_time, mbind, method_bind, call, try_, get_self, set_self.
  rewrite Hnow, Hd, Herr. simpl. by eexists.
Qed.
End actor.

(** * Concrete instances *)

#[local] Instance Timestamp_eq_dec : EqDecision Timestamp.
Proof. solve_decision. Defined.
#[local] Instance Timestamp_countable : Countable Timestamp :=
  inj_countable' (λ x, (ts_seconds x, ts_nanos x))
    (λ '(x0, x1), Build_Timestamp x0 x1) ltac:(by intros []).
#[local] Instance DeleteKeyRequest_eq_dec : EqDecision DeleteKeyRequest.
Proof. solve_decision. Defined.
#[local] Instance DeleteKeyRequest_countable : Countable DeleteKeyRequest :=
  inj_countable' (λ x, (dkr_public_key x))
    (λ x0, Build_DeleteKeyRequest x0) ltac:(by intros []).
#[local] Instance RevokeAccessRequest_eq_dec : EqDecision RevokeAccessRequest.
Proof. solve_decision. Defined.
#[local] Instance RevokeAccessRequest_countable : Countable RevokeAccessRequest :=
  inj_countable' (λ x, (rar_key_id x, rar_blob_id x))
    (λ '(x0, x1), Build_RevokeAccessRequest x0 x1) ltac:(by intros []).
#[local] Instance CreateKeyEvent_eq_dec : EqDecision CreateKeyEvent.
Proof. solve_decision. Defined.
#[local] Instance CreateKeyEvent_countable : Countable CreateKeyEvent :=
  inj_countable' (λ x, (cke_event_time x, cke_public_key x, cke_private_key x, cke_expiration x))
    (λ '(x0, x1, x2, x3), Build_CreateKeyEvent x0 x1 x2 x3) ltac:(by intros []).
#[local] Instance AuthorizeAccessEvent_eq_dec : EqDecision AuthorizeAccessEvent.
Proof. solve_decision. Defined.
#[local] Instance AuthorizeAccessEvent_countable : Countable AuthorizeAccessEvent :=
  inj_countable' (λ x, (aae_event_time x, aae_access_policy x, aae_transform_index x, aae_blob_header x, aae_encapsulated_key x, aae_encrypted_symmetric_key x, aae_recipient_public_key x, aae_recipient_nonce x))
    (λ '(x0, x1, x2, x3, x4, x5, x6, x7), Build_AuthorizeAccessEvent x0 x1 x2 x3 x4 x5 x6 x7) ltac:(by intros []).
#[local] Instance AuthorizeAccessResponse_eq_dec : EqDecision AuthorizeAccessResponse.
Proof. solve_decision. Defined.
#[local] Instance AuthorizeAccessResponse_countable : Countable AuthorizeAccessResponse :=
  inj_countable' (λ x, (aap_encapsulated_key x, aap_encrypted_symmetric_key x, aap_reencryption_public_key x))
    (λ '(x0, x1, x2), Build_AuthorizeAccessResponse x0 x1 x2) ltac:(by intros []).
#[local] Instance BlobBudgetSnapshot_eq_dec : EqDecision BlobBudgetSnapshot.
Proof. solve_decision. Defined.
#[local] Instance BlobBudgetSnapshot_countable : Countable BlobBudgetSnapshot :=
  inj_countable' (λ x, (bbs_blob_id x, bbs_transform_access_budgets x, bbs_shared_access_budgets x))
    (λ '(x0, x1, x2), Build_BlobBudgetSnapshot x0 x1 x2) ltac:(by intros []).
#[local] Instance PerPolicyBudgetSnapshot_eq_dec : EqDecision PerPolicyBudgetSnapshot.
Proof. solve_decision. Defined.
#[local] Instance PerPolicyBudgetSnapshot_countable : Countable PerPolicyBudgetSnapshot :=
  inj_countable' (λ x, (pps_access_policy_sha256 x, pps_budgets x))
    (λ '(x0, x1), Build_PerPolicyBudgetSnapshot x0 x1) ltac:(by intros []).
#[local] Instance BudgetSnapshot_eq_dec : EqDecision BudgetSnapshot.
Proof. solve_decision. Defined.
#[local] Instance BudgetSnapshot_countable : Countable BudgetSnapshot :=
  inj_countable' (λ x, (bs_per_policy_snapshots x, bs_consumed_budgets x))
    (λ '(x0, x1), Build_BudgetSnapshot x0 x1) ltac:(by intros []).
#[local] Instance PerKeySnapshot_eq_dec : EqDecision PerKeySnapshot.
Proof. solve_decision. Defined.
#[local] Instance PerKeySnapshot_countable : Countable PerKeySnapshot :=
  inj_countable' (λ x, (pks_key_id x, pks_public_key x, pks_private_key x, pks_expiration x, pks_budgets x))
    (λ '(x0, x1, x2, x3, x4), Build_PerKeySnapshot x0 x1 x2 x3 x4) ltac:(by intros []).
#[local] Instance LedgerSnapshot_eq_dec : EqDecision LedgerSnapshot.
Proof. solve_decision. Defined.
#[local] Instance LedgerSnapshot_countable : Countable LedgerSnapshot :=
  inj_countable' (λ x, (lsn_current_time x, lsn_per_key_snapshots x))
    (λ '(x0, x1), Build_LedgerSnapshot x0 x1) ltac:(by intros []).
#[local] Instance ResponseStatus_eq_dec : EqDecision ResponseStatus.
Proof. solve_decision. Defined.
#[local] Instance ResponseStatus_countable : Countable ResponseStatus :=
  inj_countable' (λ x, (rs_code x, rs_message x))
    (λ '(x0, x1), Build_ResponseStatus x0 x1) ltac:(by intros []).
#[local] Instance LedgerEventKind_eq_dec : EqDecision LedgerEventKind.
Proof. solve_decision. Defined.
#[local] Instance LedgerEventKind_countable : Countable LedgerEventKind :=
  inj_countable' (λ x, match x with
      | EventCreateKey e => inl e | EventDeleteKey r => inr (inl r)
      | EventAuthorizeAccess e => inr (inr (inl e)) | EventRevokeAccess r => inr (inr (inr r)) end)
    (λ x, match x with
      | inl e => EventCreateKey e | inr (inl r) => EventDeleteKey r
      | inr (inr (inl e)) => EventAuthorizeAccess e | inr (inr (inr r)) => EventRevokeAccess r end)
    ltac:(by intros []).
#[local] Instance LedgerEvent_eq_dec : EqDecision LedgerEvent.
Proof. solve_decision. Defined.
#[local] Instance LedgerEvent_countable : Countable LedgerEvent :=
  inj_countable' le_event Build_LedgerEvent ltac:(by intros []).

#[local] Abbreviation UnitResponse := (@LedgerResponseKind unit).

#[local] Instance CreateKeyResponse_eq_dec : EqDecision (@CreateKeyResponse unit).
Proof. solve_decision. Defined.
#[local] Instance DeleteKeyResponse_eq_dec : EqDecision DeleteKeyResponse.
Proof. solve_decision. Defined.
#[local] Instance RevokeAccessResponse_eq_dec : EqDecision RevokeAccessResponse.
Proof. solve_decision. Defined.
#[local] Instance LedgerResponseKind_eq_dec : EqDecision UnitResponse.
Proof. solve_decision. Defined.
#[local] Instance LedgerResponseKind_countable : Countable UnitResponse :=
  inj_countable' (λ x, match x with
      | ResponseCreateKey r => inl (ckp_public_key r, ckp_attestation_evidence r)
      | ResponseDeleteKey _ => inr (inl ())
      | ResponseAuthorizeAccess r => inr (inr (inl r))
      | ResponseRevokeAccess _ => inr (inr (inr (inl ())))
      | ResponseError s => inr (inr (inr (inr s))) end)
    (λ x, match x with
      | inl (k, e) => ResponseCreateKey (Build_CreateKeyResponse k e)
      | inr (inl _) => ResponseDeleteKey Build_DeleteKeyResponse
      | inr (inr (inl r)) => ResponseAuthorizeAccess r
      | inr (inr (inr (inl _))) => ResponseRevokeAccess Build_RevokeAccessResponse
      | inr (inr (inr (inr s))) => ResponseError s end)
    ltac:(by intros [[]|[]| |[]|]).
#[local] Instance LedgerResponse_eq_dec : EqDecision (@LedgerResponse unit).
Proof. solve_decision. Defined.
#[local] Instance LedgerResponse_countable : Countable (@LedgerResponse unit) :=
  inj_countable' lp_response Build_LedgerResponse ltac:(by intros []).

Section actor_samples.
#[local] Existing Instances toy_coset toy_hpke toy_aead toy_attestation.
#[local] Instance event_codec : ProtoCodec LedgerEvent := countable_codec LedgerEvent.
#[local] Instance response_codec : ProtoCodec (@LedgerResponse unit) :=
  countable_codec (@LedgerResponse unit).
#[local] Instance snapshot_codec : ProtoCodec LedgerSnapshot := countable_codec LedgerSnapshot.

#[local] Abbreviation sample_header_decode := (λ _ : bytes, @None BlobHeader).

#[local] Abbreviation sample_policy_decode := (λ _ : bytes, Some sample_policy).

#[local] Abbreviation sample_status := (λ _ : StatusCode, 3).

(** A revocation for the held key, then an event that does not decode. *)
Definition sample_events : list ActorEvent :=
  [ event_with_proto 1 {| le_event := Some (EventRevokeAccess
      {| rar_key_id := sample_key_id; rar_blob_id := sample_blob |}) |};
    event_with_bytes 2 [Byte.x02] ].

Definition sample_log (owned : bool)
    : list (@LedgerEntropy unit * ActorEventContext * ActorEvent) :=
  map (λ ev, ({| ent_key_ids := []; ent_rng := () |}, {| ec_index := 1; ec_owned := owned |}, ev))
    sample_events.

Definition sample_actor : @LedgerActor unit unit _ :=
  {| la_context := true; la_ledger := created_ledger |}.

Definition sample_run (owned : bool) :=
  apply_log sample_header_decode sample_policy_decode sample_status (sample_log owned) sample_actor.

Lemma sample_run_returns owned :
  match sample_run owned with Returned _ => true | _ => false end = true.
Proof. by destruct owned; vm_compute. Qed.

Lemma replicas_converge_witness :
  match sample_run true, sample_run false with
  | Returned a1, Returned a2 => same_actor a1 a2
  | _, _ => False
  end.
Proof.
  pose proof (sample_run_returns true) as H1.
  destruct (sample_run true) as [a1| |] eqn:E1; [|discriminate H1..].
  destruct (replicas_converge sample_header_decode sample_policy_decode sample_status
    ltac:(by intros ??????) (sample_log true) (sample_log false) sample_actor sample_actor a1
    ltac:(reflexivity) ltac:(by split) E1) as (a2 & H2 & Hsame).
  change (sample_run false = Returned a2) in H2. by rewrite H2.
Defined.

(** A command that does not decode. *)
Lemma command_proposed_or_answered_witness :
  let m := actor_on_process_command (λ (_ : Z) (_ _ _ : unit), true) (λ b, b)
    sample_header_decode sample_policy_decode toy_duration sample_status (λ _, None)
    {| ctx_id := 1; ctx_instant := 0; ctx_config := []; ctx_leader := true |}
    {| ent_key_ids := []; ent_rng := () |}
    (Some {| command_correlation_id := 9; command_header := []; command_payload := [] |}) in
  match m sample_actor with
  | Returned (a', _) => keys_kept sample_actor a'
  | _ => False
  end.
Proof.
  intros m. destruct (m sample_actor) as [[a' r]| |] eqn:E; [|discriminate E..].
  exact (proj1 (command_proposed_or_answered _ _ _ _ _ _ _ _ _ _ sample_actor a' r E)).
Defined.

Lemma event_answered_by_owner_witness :
  match actor_on_apply_event sample_header_decode sample_policy_decode sample_status
          {| ent_key_ids := []; ent_rng := () |} {| ec_index := 1; ec_owned := true |}
          (event_with_bytes 2 [Byte.x02]) sample_actor with
  | Returned (_, Ok o) => ∃ c, eo_commands o = [c]
  | _ => False
  end.
Proof.
  destruct (actor_on_apply_event _ _ _ _ _ _ _) as [[a' r]| |] eqn:E; [|discriminate E..].
  destruct (event_answered_by_owner _ _ _ _ _ _ _ _ _ E) as (o & -> & _ & H & _).
  exact (H eq_refl).
Defined.

(** A replica that does not own an event answers it when it fails. *)
Lemma unowned_failure_answered :
  match actor_on_apply_event sample_header_decode sample_policy_decode sample_status
          {| ent_key_ids := []; ent_rng := () |} {| ec_index := 1; ec_owned := false |}
          (event_with_bytes 2 [Byte.x02]) sample_actor with
  | Returned (_, Ok o) => length (eo_commands o) = 1%nat
  | _ => False
  end.
Proof. by vm_compute. Qed.

Lemma actor_snapshot_roundtrip_witness :
  match actor_on_save_snapshot sample_actor with
  | Returned (_, Ok snapshot) =>
      ∃ b', actor_on_load_snapshot snapshot
              {| la_context := true; la_ledger := sample_ledger |} = Returned (b', Ok ()) ∧
        same_ledger (la_ledger b') created_ledger
  | _ => False
  end.
Proof.
  assert (returned_ok (actor_on_save_snapshot sample_actor) = true) as Hok by (by vm_compute).
  destruct (actor_on_save_snapshot sample_actor) as [[a' [snapshot|]]| |] eqn:E;
    [|discriminate Hok..].
  destruct (actor_snapshot_roundtrip sample_actor a' snapshot
    {| la_context := true; la_ledger := sample_ledger |}) as (_ & b' & Hl & _ & Hs);
    [by vm_compute| |exact E|exists b'; by split].
  intros k v Hk. pose proof (proj2 created_ledger_fresh _ _ Hk) as Hle. simpl in Hle.
  pose proof (proj1 created_ledger_fresh). lia.
Defined.
End actor_samples.
