(* ===== verification/Counter.v ===== *)
(** * The atomic counter application

    [src/apps/atomic_counter/service/src/actor.rs]: named counters with a replicated
    compare-and-swap.  A counter that was never written reads as zero. *)

From S2P Require Import Prelude Model.

(** ** Messages *)

Record CounterCompareAndSwapRequest := { cas_expected_value : Z; cas_new_value : Z }.

Inductive CounterRequestOp := OpCompareAndSwap (r : CounterCompareAndSwapRequest).

Record CounterRequest := {
  cr_name : string;
  cr_op : option CounterRequestOp;
  cr_context : bytes;
  cr_payload : bytes
}.

Inductive CounterStatus :=
| CounterUnspecified
| CounterSuccess
| CounterRejected
| CounterInvalidArgumentError
| CounterInvalidOperationError.

Record CounterCompareAndSwapResponse := { casr_old_value : Z; casr_new_value : Z }.

Record CounterResponse := {
  cp_status : CounterStatus;
  cp_op : option CounterCompareAndSwapResponse
}.

Record AtomicCounterInMessage := { ci_msg : option CounterRequest }.

Record AtomicCounterOutMessage := { cout_msg : option CounterResponse }.

Record CounterConfig := { cc_initial_values : gmap string Z }.

Record CounterValue := { cv_value : Z; cv_payload : bytes }.

(** A snapshot stores the same data as the actor. *)
Record CounterSnapshot := { csn_values : gmap string CounterValue }.

Record CounterActor := {
  ca_context : bool;
  ca_values : gmap string CounterValue
}.

Section counter.
Variable in_message_decode : bytes → option AtomicCounterInMessage.
Variable config_decode : bytes → option CounterConfig.
Context `{HReq : !ProtoCodec CounterRequest, HOut : !ProtoCodec AtomicCounterOutMessage,
          HSnap : !ProtoCodec CounterSnapshot}.

Definition counter_new : CounterActor := {| ca_context := false; ca_values := ∅ |}.

Definition with_values (values : gmap string CounterValue) (s : CounterActor) : CounterActor :=
  {| ca_context := ca_context s; ca_values := values |}.

Definition counter_get_context {E} : method CounterActor E unit := λ s,
  if ca_context s then Returned (s, Ok ()) else Panicked.

(** A loop that inserts every entry of a map. *)
Definition insert_all {V} (new : gmap string V) (m : gmap string V) : gmap string V :=
  foldr (λ kv acc, <[kv.1 := kv.2]> acc) m (map_to_list new).

Definition apply_compare_and_swap (counter_name : string)
    (request : CounterCompareAndSwapRequest) (payload : bytes)
    : method CounterActor ActorError CounterResponse := λ s,
  let existing_value :=
    default {| cv_value := 0; cv_payload := [] |} (ca_values s !! counter_name) in
  if decide (cv_value existing_value = cas_expected_value request) then
    Returned
      (with_values (<[counter_name := {| cv_value := cas_new_value request;
                                         cv_payload := payload |}]> (ca_values s)) s,
       Ok {| cp_status := CounterSuccess;
             cp_op := Some {| casr_old_value := cv_value existing_value;
                              casr_new_value := cas_new_value request |} |})
  else
    Returned
      (with_values (<[counter_name := existing_value]> (ca_values s)) s,
       Ok {| cp_status := CounterInvalidArgumentError;
             cp_op := Some {| casr_old_value := cv_value existing_value;
                              casr_new_value := 0 |} |}).

Definition counter_on_init (ctx : ActorContext) : method CounterActor ActorError unit :=
  set_self {| ca_context := true; ca_values := ∅ |};;
  config ← try_ (ok_or (config_decode (ctx_config ctx)) ActorConfigLoading);
  s ← get_self;
  set_self (with_values
    (insert_all ((λ value, {| cv_value := value; cv_payload := [] |}) <$> cc_initial_values config)
       (ca_values s)) s).

Definition counter_on_shutdown (s : CounterActor) : CounterActor := s.

Definition counter_on_save_snapshot : method CounterActor ActorError bytes :=
  s ← get_self;
  mret (proto_encode {| csn_values := insert_all (ca_values s) ∅ |}).

Definition counter_on_load_snapshot (snapshot : bytes) : method CounterActor ActorError unit :=
  snapshot ← try_ (ok_or (proto_decode snapshot) ActorSnapshotLoading);
  s ← get_self;
  set_self (with_values (insert_all (csn_values snapshot) (ca_values s)) s).

(** The answer to a command that is not proposed. *)
Definition counter_reject (command : ActorCommand) (status : CounterStatus) : CommandOutcome :=
  co_with_command (command_with_header (command_correlation_id command)
    {| cout_msg := Some {| cp_status := status; cp_op := None |} |}).

Definition counter_on_process_command (ctx : ActorContext) (command : option ActorCommand)
    : method CounterActor ActorError CommandOutcome :=
  match command with
  | None => mret co_with_none
  | Some command =>
      match in_message_decode (command_header command) with
      | Some {| ci_msg := Some request |} =>
          counter_get_context;;
          let status :=
            match cr_op request with
            | None => CounterInvalidOperationError
            | Some _ => CounterSuccess
            end in
          let status := if ctx_leader ctx then status else CounterRejected in
          match status with
          | CounterSuccess =>
              (* the context is not replicated *)
              mret (co_with_event (event_with_proto (command_correlation_id command)
                {| cr_name := cr_name request; cr_op := cr_op request; cr_context := [];
                   cr_payload := cr_payload request |}))
          | _ => mret (counter_reject command status)
          end
      | Some {| ci_msg := None |} => mret (counter_reject command CounterInvalidOperationError)
      | None =>
          counter_get_context;;
          mret (counter_reject command CounterInvalidOperationError)
      end
  end.

Definition counter_on_apply_event (context : ActorEventContext) (event : ActorEvent)
    : method CounterActor ActorError EventOutcome :=
  request ← try_ (ok_or (proto_decode (event_contents event)) ActorInternal);
  op ← call (unwrap (cr_op request));
  response ←
    (match op with
     | OpCompareAndSwap r => apply_compare_and_swap (cr_name request) r (cr_payload request)
     end);
  if ec_owned context
  then mret (eo_with_command (command_with_header (event_correlation_id event)
               {| cout_msg := Some response |}))
  else mret eo_with_none.

#[global] Instance CounterActor_Actor : Actor unit CounterActor :=
  {| on_init := counter_on_init;
     on_shutdown := counter_on_shutdown;
     on_save_snapshot _ := counter_on_save_snapshot;
     on_load_snapshot _ := counter_on_load_snapshot;
     on_process_command ctx _ := counter_on_process_command ctx;
     on_apply_event _ _ := counter_on_apply_event |}.

(** ** Specification: a map of integers, zero by default *)

Definition counter_view (s : CounterActor) (name : string) : Z :=
  default 0 (cv_value <$> ca_values s !! name).

(** Compare-and-swap on one counter: the new value and the answer. *)
Definition cas_spec (value expected new : Z) : Z * CounterResponse :=
  if decide (value = expected)
  then (new, {| cp_status := CounterSuccess;
                cp_op := Some {| casr_old_value := value; casr_new_value := new |} |})
  else (value, {| cp_status := CounterInvalidArgumentError;
                  cp_op := Some {| casr_old_value := value; casr_new_value := 0 |} |}).

(** * Properties *)

Lemma insert_all_union {V} (new m : gmap string V) : insert_all new m = new ∪ m.
Proof.
  unfold insert_all. rewrite <- (list_to_map_to_list new) at 2.
  induction (map_to_list new) as [|[k v] l IH]; simpl; [by rewrite map_empty_union|].
  by rewrite IH, insert_union_l.
Qed.

Lemma apply_cas_spec name r payload s :
  ∃ s', apply_compare_and_swap name r payload s
    = Returned (s', Ok (cas_spec (counter_view s name) (cas_expected_value r) (cas_new_value r)).2) ∧
    ca_context s' = ca_context s ∧
    counter_view s' name
    = (cas_spec (counter_view s name) (cas_expected_value r) (cas_new_value r)).1 ∧
    (∀ name', name' ≠ name → counter_view s' name' = counter_view s name').
Proof.
  unfold apply_compare_and_swap, cas_spec, counter_view.
  destruct (ca_values s !! name) as [v|] eqn:E; simpl;
    case_decide; eexists; (split; [done|split; [done|]]); simpl; rewrite lookup_insert_eq;
    (split; [done|]); intros name' Hne; by rewrite lookup_insert_ne.
Qed.

(** * Claims *)

(** C33: The counter is an atomic compare-and-swap.  A compare-and-swap command on the
    leader is proposed as an event; when that event is applied, in any state, only
    the named counter changes, to what the specification of compare-and-swap gives
    for its value at that moment, and the owner alone answers, with the correlation
    id of the command and the answer of the specification. *)
Theorem counter_compare_and_swap ctx command request r a context b :
  ca_context a = true → ctx_leader ctx = true →
  in_message_decode (command_header command) = Some {| ci_msg := Some request |} →
  cr_op request = Some (OpCompareAndSwap r) →
  ∃ event,
    counter_on_process_command ctx (Some command) a = Returned (a, Ok (co_with_event event)) ∧
    ∃ b' o,
      counter_on_apply_event context event b = Returned (b', Ok o) ∧
      let '(value, response) :=
        cas_spec (counter_view b (cr_name request)) (cas_expected_value r) (cas_new_value r) in
      counter_view b' (cr_name request) = value ∧
      (∀ name, name ≠ cr_name request → counter_view b' name = counter_view b name) ∧
      eo_commands o =
        if ec_owned context
        then [command_with_header (command_correlation_id command) {| cout_msg := Some response |}]
        else [].
Proof.
  intros Ha Hl Hdec Hop. unfold counter_on_process_command. rewrite Hdec. simpl.
  unfold counter_get_context, mbind at 1, method_bind at 1. rewrite Ha, Hl, Hop.
  eexists. split; [done|].
  unfold counter_on_apply_event, mbind, method_bind, try_, call. simpl.
  rewrite proto_decode_encode. simpl.
  destruct (apply_cas_spec (cr_name request) r (cr_payload request) b) as (b' & Hb & _ & Hv & Ho).
  rewrite Hb. destruct (cas_spec _ _ _) as [value response]. simpl in *.
  destruct (ec_owned context); eexists b', _; split; done.
Qed.

(** Snapshots restore the counters.  Loading a saved snapshot into a replica that
    has no counter beyond those in the snapshot (one that is behind on the same log,
    as counters are never removed) gives it exactly the counters that were saved,
    with their payloads. *)
Theorem counter_snapshot_roundtrip a a' snapshot b :
  dom (ca_values b) ⊆ dom (ca_values a) →
  counter_on_save_snapshot a = Returned (a', Ok snapshot) →
  a' = a ∧
  counter_on_load_snapshot snapshot b = Returned (with_values (ca_values a) b, Ok ()).
Proof.
  intros Hdom H. unfold counter_on_save_snapshot in H. method_inv. split; [done|].
  unfold counter_on_load_snapshot, mbind, method_bind, try_, get_self, set_self.
  rewrite proto_decode_encode. simpl. rewrite !insert_all_union, map_union_empty.
  do 4 f_equal. apply map_eq. intros k. rewrite lookup_union.
  destruct (ca_values a !! k) as [v|] eqn:E; [by destruct (ca_values b !! k)|].
  apply not_elem_of_dom in E. assert (k ∉ dom (ca_values b)) as Hb by (intros ?; by apply E, Hdom).
  apply not_elem_of_dom in Hb. by rewrite Hb.
Qed.

(** A counter the snapshot does not have survives loading it. *)
Lemma load_keeps_other_counters snapshot values b name v :
  proto_decode snapshot = Some {| csn_values := values |} → values !! name = None →
  ca_values b !! name = Some v →
  ∃ b', counter_on_load_snapshot snapshot b = Returned (b', Ok ()) ∧ ca_values b' !! name = Some v.
Proof.
  intros Hd Hn Hb. unfold counter_on_load_snapshot, mbind, method_bind, try_, get_self, set_self.
  rewrite Hd. simpl. eexists. split; [done|]. simpl.
  by rewrite insert_all_union, lookup_union, Hn, Hb.
Qed.
End counter.

(** * Concrete instances *)

Section counter_samples.
#[local] Instance CounterCompareAndSwapRequest_eq_dec : EqDecision CounterCompareAndSwapRequest.
Proof. solve_decision. Defined.
#[local] Instance CounterRequestOp_eq_dec : EqDecision CounterRequestOp.
Proof. solve_decision. Defined.
#[local] Instance CounterRequest_eq_dec : EqDecision CounterRequest.
Proof. solve_decision. Defined.
#[local] Instance CounterRequest_countable : Countable CounterRequest :=
  inj_countable' (λ x, (cr_name x,
      (λ '(OpCompareAndSwap r), (cas_expected_value r, cas_new_value r)) <$> cr_op x,
      cr_context x, cr_payload x))
    (λ '(a, b, c, d), {| cr_name := a;
      cr_op := (λ '(e, n), OpCompareAndSwap {| cas_expected_value := e; cas_new_value := n |}) <$> b;
      cr_context := c; cr_payload := d |}) ltac:(by intros [? [[[]]|] ? ?]).
#[local] Instance CounterStatus_eq_dec : EqDecision CounterStatus.
Proof. solve_decision. Defined.
#[local] Instance CounterStatus_countable : Countable CounterStatus :=
  inj_countable' (λ x, match x with
      | CounterUnspecified => 0 | CounterSuccess => 1 | CounterRejected => 2
      | CounterInvalidArgumentError => 3 | CounterInvalidOperationError => 4 end)
    (λ n, match n with
      | 1 => CounterSuccess | 2 => CounterRejected | 3 => CounterInvalidArgumentError
      | 4 => CounterInvalidOperationError | _ => CounterUnspecified end) ltac:(by intros []).
#[local] Instance CounterCompareAndSwapResponse_eq_dec : EqDecision CounterCompareAndSwapResponse.
Proof. solve_decision. Defined.
#[local] Instance CounterResponse_eq_dec : EqDecision CounterResponse.
Proof. solve_decision. Defined.
#[local] Instance AtomicCounterOutMessage_eq_dec : EqDecision AtomicCounterOutMessage.
Proof. solve_decision. Defined.
#[local] Instance AtomicCounterOutMessage_countable : Countable AtomicCounterOutMessage :=
  inj_countable' (λ x, (λ r, (cp_status r,
      (λ c, (casr_old_value c, casr_new_value c)) <$> cp_op r)) <$> cout_msg x)
    (λ x, {| cout_msg := (λ '(st, op), {| cp_status := st;
      cp_op := (λ '(o, n), {| casr_old_value := o; casr_new_value := n |}) <$> op |}) <$> x |})
    ltac:(by intros [[[? [[]|]]|]]).
#[local] Instance CounterValue_eq_dec : EqDecision CounterValue.
Proof. solve_decision. Defined.
#[local] Instance CounterValue_countable : Countable CounterValue :=
  inj_countable' (λ x, (cv_value x, cv_payload x)) (λ '(v, p), Build_CounterValue v p)
    ltac:(by intros []).
#[local] Instance CounterSnapshot_eq_dec : EqDecision CounterSnapshot.
Proof. solve_decision. Defined.
#[local] Instance CounterSnapshot_countable : Countable CounterSnapshot :=
  inj_countable' csn_values Build_CounterSnapshot ltac:(by intros []).

#[local] Instance counter_request_codec : ProtoCodec CounterRequest := countable_codec _.
#[local] Instance counter_out_codec : ProtoCodec AtomicCounterOutMessage := countable_codec _.
#[local] Instance counter_snapshot_codec : ProtoCodec CounterSnapshot := countable_codec _.

Definition sample_cas : CounterRequest :=
  {| cr_name := "a";
     cr_op := Some (OpCompareAndSwap {| cas_expected_value := 0; cas_new_value := 5 |});
     cr_context := []; cr_payload := [] |}.

Definition sample_counter : CounterActor :=
  {| ca_context := true;
     ca_values := {[ "a" := {| cv_value := 7; cv_payload := [Byte.x01] |} ]} |}.

(** A replica where the counter is unset swaps it. *)
Lemma counter_compare_and_swap_witness :
  ∃ event b' o,
    counter_on_apply_event {| ec_index := 1; ec_owned := false |} event
      {| ca_context := true; ca_values := ∅ |} = Returned (b', Ok o) ∧
    counter_view b' "a" = 5 ∧ eo_commands o = [].
Proof.
  destruct (counter_compare_and_swap (λ _, Some {| ci_msg := Some sample_cas |})
    {| ctx_id := 1; ctx_instant := 0; ctx_config := []; ctx_leader := true |}
    {| command_correlation_id := 3; command_header := []; command_payload := [] |}
    sample_cas {| cas_expected_value := 0; cas_new_value := 5 |} sample_counter
    {| ec_index := 1; ec_owned := false |} {| ca_context := true; ca_values := ∅ |}
    eq_refl eq_refl eq_refl eq_refl) as (event & _ & b' & o & Happ & Hv & _ & Ho).
  exists event, b', o. by split_and!.
Defined.

Lemma counter_snapshot_roundtrip_witness :
  match counter_on_save_snapshot sample_counter with
  | Returned (_, Ok snapshot) =>
      counter_on_load_snapshot snapshot {| ca_context := true; ca_values := ∅ |}
      = Returned (sample_counter, Ok ())
  | _ => False
  end.
Proof.
  refine (proj2 (counter_snapshot_roundtrip sample_counter sample_counter _
    {| ca_context := true; ca_values := ∅ |} _ eq_refl)).
  simpl. rewrite dom_empty. apply empty_subseteq.
Defined.
End counter_samples.
