(* ===== verification/TabletStore.v ===== *)
(** * The tablet store application

    [src/apps/tablet_store/service/src/actor.rs]: tables of tablets on a consistent
    hashing ring, read and updated by replicated requests of several operations. *)

From S2P Require Import Prelude Model.

(** ** Messages *)

Record TabletMetadata := {
  tm_tablet_id : Z;
  tm_tablet_version : Z;
  tm_deleted : bool;
  tm_blob_encryption_key : bytes;
  tm_blob_size : Z;
  tm_blob_hash : bytes;
  tm_blob_uri : string
}.

Definition default_tablet (tablet_id : Z) : TabletMetadata :=
  {| tm_tablet_id := tablet_id; tm_tablet_version := 0; tm_deleted := false;
     tm_blob_encryption_key := []; tm_blob_size := 0; tm_blob_hash := []; tm_blob_uri := "" |}.

Record TableConfig := {
  tc_table_name : string;
  tc_max_tablet_size : Z;
  tc_min_tablet_size : Z;
  tc_initial_tablet_count : Z
}.

Record TabletStoreConfig := { tsc_table_configs : list TableConfig }.

Inductive TabletOpKind :=
| ListTablet (key_hash_from key_hash_to : Z)
| CheckTablet (tablet_id tablet_version : Z)
| AddTablet (tablet_metadata : option TabletMetadata)
| UpdateTablet (tablet_metadata : option TabletMetadata)
| RemoveTablet (tablet_id tablet_version : Z).

Record TabletOp := { to_table_name : string; to_op : option TabletOpKind }.

Inductive TabletOpStatus :=
| TabletOpUnspecified
| TabletOpSucceeded
| TabletOpFailed
| TabletOpAborted
| TabletOpInvalid.

Inductive TabletOpResultKind :=
| ListTabletResult (key_hash_from key_hash_to : Z) (tablets : list TabletMetadata)
| CheckTabletResult (existing_tablet : option TabletMetadata)
| AddTabletResult (existing_tablet : option TabletMetadata)
| UpdateTabletResult (existing_tablet : option TabletMetadata)
| RemoveTabletResult (existing_tablet : option TabletMetadata).

Record TabletOpResult := {
  tor_table_name : string;
  tor_status : TabletOpStatus;
  tor_op_result : option TabletOpResultKind
}.

Record TabletsRequest := { tr_tablet_ops : list TabletOp }.

Inductive TabletsRequestStatus :=
| TabletsUnspecified
| TabletsSucceeded
| TabletsFailed
| TabletsInvalid.

Record TabletsResponse := {
  trs_status : TabletsRequestStatus;
  trs_tablet_results : list TabletOpResult
}.

Inductive ExecuteTabletOpsStatus :=
| ExecuteUnspecified
| ExecuteRejected
| ExecuteInvalidOperation.

Inductive TabletStoreOutMsg :=
| ExecuteTabletOpsResponse
| ExecuteTabletOpsError (status : ExecuteTabletOpsStatus) (diagnostic_message : string).

Record TabletStoreOutMessage := { tso_out_msg : option TabletStoreOutMsg }.

(** The only incoming message, with its sender. *)
Record TabletStoreInMessage := { tsi_in_msg : option Z }.

Record TableSnapshot := { tsn_table_name : string; tsn_table_tablets : list TabletMetadata }.

Record TabletStoreSnapshot := { tss_table_snapshots : list TableSnapshot }.

#[global] Instance TabletMetadata_eq_dec : EqDecision TabletMetadata.
Proof. solve_decision. Defined.

#[global] Instance TabletOpStatus_eq_dec : EqDecision TabletOpStatus.
Proof. solve_decision. Defined.

(** ** Tables *)

Record TableMetadata := {
  tb_config : TableConfig;
  tb_tablets : gmap Z TabletMetadata
}.

Definition with_tablets (t : TableMetadata) (tablets : gmap Z TabletMetadata) : TableMetadata :=
  {| tb_config := tb_config t; tb_tablets := tablets |}.

(** A loop that inserts tablets under their ids. *)
Definition insert_tablets (m : gmap Z TabletMetadata) (l : list TabletMetadata)
    : gmap Z TabletMetadata :=
  foldl (λ m t, <[tm_tablet_id t := t]> m) m l.

(** The configured ids are given by the configurator. *)
Definition table_create (config : TableConfig) (configured_tablets : list Z) : TableMetadata :=
  {| tb_config := config;
     tb_tablets := insert_tablets ∅ (default_tablet <$> configured_tablets) |}.

Definition table_load_snapshot (t : TableMetadata) (snapshot : TableSnapshot) : TableMetadata :=
  with_tablets t (insert_tablets ∅ (tsn_table_tablets snapshot)).

Definition tablet_id_le (a b : TabletMetadata) : Prop := tm_tablet_id a ≤ tm_tablet_id b.

#[global] Instance tablet_id_le_dec : RelDecision tablet_id_le.
Proof. intros a b. unfold tablet_id_le. apply _. Defined.

(** The tablets in the order of their keys. *)
Definition tablets_sorted (m : gmap Z TabletMetadata) : list (Z * TabletMetadata) :=
  btree_iter Z.le m.

Definition table_save_snapshot (t : TableMetadata) : TableSnapshot :=
  {| tsn_table_name := tc_table_name (tb_config t);
     tsn_table_tablets := merge_sort tablet_id_le (tablets_sorted (tb_tablets t)).*2 |}.

(** Lists a tablet unless it was listed before. *)
Definition visit (st : gset Z * list TabletMetadata) (e : Z * TabletMetadata)
    : gset Z * list TabletMetadata :=
  if decide (e.1 ∈ st.1) then st else ({[ e.1 ]} ∪ st.1, st.2 ++ [e.2]).

(** The loop over the tablets from the start of an interval on; whether it found the
    one that covers the end. *)
Fixpoint scan (key_hash_to : Z) (st : gset Z * list TabletMetadata)
    (l : list (Z * TabletMetadata)) : gset Z * list TabletMetadata * bool :=
  match l with
  | [] => (st, false)
  | e :: l =>
      let st := visit st e in
      if decide (key_hash_to ≤ e.1) then (st, true) else scan key_hash_to st l
  end.

Definition find_in_interval (m : gmap Z TabletMetadata) (st : gset Z * list TabletMetadata)
    (interval : Z * Z) : gset Z * list TabletMetadata :=
  let '(key_hash_from, key_hash_to) := interval in
  let '(st, found_last) :=
    scan key_hash_to st (filter (λ e, key_hash_from ≤ e.1) (tablets_sorted m)) in
  if found_last : bool then st
  else match head (tablets_sorted m) with
       | Some e => visit st e
       | None => st
       end.

Definition find_tablets (t : TableMetadata) (key_hash_from key_hash_to : Z)
    : list TabletMetadata :=
  let key_hash_intervals :=
    if decide (key_hash_from < key_hash_to) then [(key_hash_from, key_hash_to)]
    else [(key_hash_from, two32 - 1); (0, key_hash_to)] in
  (foldl (find_in_interval (tb_tablets t)) (∅, []) key_hash_intervals).2.

(** [AddTablet] and [RemoveTablet] are [todo!()]. *)
Definition table_prepare_tablet_op (t : TableMetadata) (table_name : string)
    (tablet_op : TabletOpKind) : outcome TabletOpResult :=
  match tablet_op with
  | ListTablet key_hash_from key_hash_to =>
      Return {| tor_table_name := table_name; tor_status := TabletOpSucceeded;
                tor_op_result := Some (ListTabletResult key_hash_from key_hash_to
                  (find_tablets t key_hash_from key_hash_to)) |}
  | CheckTablet tablet_id tablet_version =>
      let '(status, existing) :=
        match tb_tablets t !! tablet_id with
        | Some existing_tablet =>
            if decide (tm_tablet_version existing_tablet = tablet_version)
            then (TabletOpSucceeded, None) else (TabletOpFailed, Some existing_tablet)
        | None => (TabletOpFailed, None)
        end in
      Return {| tor_table_name := table_name; tor_status := status;
                tor_op_result := Some (CheckTabletResult existing) |}
  | UpdateTablet tablet_metadata =>
      let '(status, existing) :=
        match tablet_metadata with
        | Some updated_tablet =>
            match tb_tablets t !! tm_tablet_id updated_tablet with
            | Some existing_tablet =>
                (if decide (tm_tablet_version updated_tablet
                            = tm_tablet_version existing_tablet +₃₂ 1)
                 then TabletOpSucceeded else TabletOpFailed, Some existing_tablet)
            | None => (TabletOpFailed, None)
            end
        | None => (TabletOpFailed, None)
        end in
      Return {| tor_table_name := table_name; tor_status := status;
                tor_op_result := Some (UpdateTabletResult existing) |}
  | AddTablet _ | RemoveTablet _ _ => Panic
  end.

Definition table_commit_tablet_op (t : TableMetadata) (tablet_op : TabletOpKind)
    (prepare_result : TabletOpResult) : outcome (TableMetadata * TabletOpResult) :=
  match tablet_op with
  | ListTablet _ _ | CheckTablet _ _ =>
      _ ← unwrap (tor_op_result prepare_result); Return (t, prepare_result)
  | UpdateTablet tablet_metadata =>
      updated_tablet ← unwrap tablet_metadata;
      _ ← unwrap (tor_op_result prepare_result);
      Return (with_tablets t (<[tm_tablet_id updated_tablet := updated_tablet]> (tb_tablets t)),
              prepare_result)
  | AddTablet _ | RemoveTablet _ _ => Panic
  end.

(** ** The store *)

(** [TabletConfigurator]: a configurator and the ids it generates; [None] while it is
    still drawing. *)
Class TabletConfigurator (C : Type) : Type := {
  tablet_generate : C → Z → option (C * list Z)
}.

(** The loop of the random configurator over the numbers it draws. *)
Fixpoint draw_tablet_ids (tablet_count : Z) (tablet_ids : gset Z) (draws : list Z)
    : option (list Z * gset Z) :=
  if decide (Z.of_nat (size tablet_ids) < tablet_count) then
    match draws with
    | [] => None
    | d :: draws => draw_tablet_ids tablet_count ({[ d ]} ∪ tablet_ids) draws
    end
  else Some (draws, tablet_ids).

(** The random configurator: the state is what the system's generator yields next. *)
Definition random_configurator `{!HashOrder Z} : TabletConfigurator (list Z) :=
  {| tablet_generate draws initial_tablet_count :=
       '(draws, tablet_ids) ← draw_tablet_ids initial_tablet_count ∅ draws;
       Some (draws, (hash_iter (gset_to_gmap () tablet_ids)).*1) |}.

Section store.
Context {C : Type} `{!TabletConfigurator C, !HashOrder string}.
Variable config_decode : bytes → option TabletStoreConfig.
Variable in_message_decode : bytes → option TabletStoreInMessage.
Context `{HReq : !ProtoCodec TabletsRequest, HResp : !ProtoCodec TabletsResponse,
          HOut : !ProtoCodec TabletStoreOutMessage, HSnap : !ProtoCodec TabletStoreSnapshot}.

Record TabletStoreActor := {
  ts_configurator : C;
  ts_context : bool;
  ts_config : TabletStoreConfig;
  ts_tables : gmap string TableMetadata
}.

Definition tablet_store_new (configurator : C) : TabletStoreActor :=
  {| ts_configurator := configurator; ts_context := false;
     ts_config := {| tsc_table_configs := [] |}; ts_tables := ∅ |}.

Definition with_tables (tables : gmap string TableMetadata) (s : TabletStoreActor)
    : TabletStoreActor :=
  {| ts_configurator := ts_configurator s; ts_context := ts_context s;
     ts_config := ts_config s; ts_tables := tables |}.

Definition store_get_context {E} : method TabletStoreActor E unit := λ s,
  if ts_context s then Returned (s, Ok ()) else Panicked.

Definition create_error_outcome (diagnostic_message : string) (correlation_id : Z)
    (status : ExecuteTabletOpsStatus) : method TabletStoreActor ActorError CommandOutcome :=
  store_get_context;;
  mret (co_with_command (command_with_header correlation_id
    {| tso_out_msg := Some (ExecuteTabletOpsError status diagnostic_message) |})).

Definition create_success_outcome (owned : bool) (correlation_id : Z)
    (out_header : TabletStoreOutMsg) (out_payload : bytes) : EventOutcome :=
  eo_with_commands
    (if owned
     then [command_with_header_and_payload correlation_id
             {| tso_out_msg := Some out_header |} out_payload]
     else []).

Definition prepare_tablet_op (tables : gmap string TableMetadata) (tablet_op : TabletOp)
    : outcome TabletOpResult :=
  match tables !! to_table_name tablet_op, to_op tablet_op with
  | Some table, Some op => table_prepare_tablet_op table (to_table_name tablet_op) op
  | _, _ =>
      Return {| tor_table_name := to_table_name tablet_op; tor_status := TabletOpInvalid;
                tor_op_result := None |}
  end.

Definition commit_tablet_op (tables : gmap string TableMetadata) (tablet_op : TabletOp)
    (prepare_result : TabletOpResult)
    : outcome (gmap string TableMetadata * TabletOpResult) :=
  table ← unwrap (tables !! to_table_name tablet_op);
  op ← unwrap (to_op tablet_op);
  '(table, r) ← table_commit_tablet_op table op prepare_result;
  Return (<[to_table_name tablet_op := table]> tables, r).

(** The loop that prepares each operation against the same tables. *)
Fixpoint prepare_tablet_ops (tables : gmap string TableMetadata) (ops : list TabletOp)
    : outcome (list TabletOpResult) :=
  match ops with
  | [] => Return []
  | op :: ops =>
      r ← prepare_tablet_op tables op;
      rs ← prepare_tablet_ops tables ops;
      Return (r :: rs)
  end.

(** The loop that commits each operation with its prepared result. *)
Fixpoint commit_tablet_ops (tables : gmap string TableMetadata)
    (ops : list (TabletOp * TabletOpResult))
    : outcome (gmap string TableMetadata * list TabletOpResult) :=
  match ops with
  | [] => Return (tables, [])
  | (op, prepared) :: ops =>
      '(tables, r) ← commit_tablet_op tables op prepared;
      '(tables, rs) ← commit_tablet_ops tables ops;
      Return (tables, r :: rs)
  end.

Definition on_apply_tablets_request (tables : gmap string TableMetadata)
    (request : TabletsRequest)
    : outcome (gmap string TableMetadata * (TabletStoreOutMsg * TabletsResponse)) :=
  prepare_results ← prepare_tablet_ops tables (tr_tablet_ops request);
  let all_succeeded :=
    forallb (λ r, bool_decide (tor_status r = TabletOpSucceeded)) prepare_results in
  '(tables, results) ←
    (if all_succeeded : bool
     then commit_tablet_ops tables (zip (tr_tablet_ops request) prepare_results)
     else Return (tables, prepare_results));
  Return (tables,
    (ExecuteTabletOpsResponse,
     {| trs_status := if all_succeeded : bool then TabletsSucceeded else TabletsFailed;
        trs_tablet_results := results |})).

Definition generate_tablets (count : Z) : method TabletStoreActor ActorError (list Z) := λ s,
  match tablet_generate (ts_configurator s) count with
  | Some (configurator, ids) =>
      Returned ({| ts_configurator := configurator; ts_context := ts_context s;
                   ts_config := ts_config s; ts_tables := ts_tables s |}, Ok ids)
  | None => Unfinished
  end.

(** The loop of [on_init] over the configured tables. *)
Fixpoint create_tables (configs : list TableConfig) : method TabletStoreActor ActorError unit :=
  match configs with
  | [] => mret ()
  | config :: configs =>
      ids ← generate_tablets (tc_initial_tablet_count config);
      s ← get_self;
      set_self (with_tables
        (<[tc_table_name config := table_create config ids]> (ts_tables s)) s);;
      create_tables configs
  end.

Definition store_on_init (ctx : ActorContext) : method TabletStoreActor ActorError unit :=
  s ← get_self;
  set_self {| ts_configurator := ts_configurator s; ts_context := true;
              ts_config := ts_config s; ts_tables := ts_tables s |};;
  config ← try_ (ok_or (config_decode (ctx_config ctx)) ActorConfigLoading);
  s ← get_self;
  set_self {| ts_configurator := ts_configurator s; ts_context := ts_context s;
              ts_config := config; ts_tables := ts_tables s |};;
  create_tables (tsc_table_configs config).

Definition store_on_shutdown (s : TabletStoreActor) : TabletStoreActor := s.

Definition store_on_save_snapshot : method TabletStoreActor ActorError bytes :=
  s ← get_self;
  mret (proto_encode
    {| tss_table_snapshots := table_save_snapshot <$> (hash_iter (ts_tables s)).*2 |}).

(** The loop of [on_load_snapshot]. *)
Fixpoint load_tables (snapshots : list TableSnapshot) : method TabletStoreActor ActorError unit :=
  match snapshots with
  | [] => mret ()
  | snapshot :: snapshots =>
      s ← get_self;
      table ← try_ (ok_or (ts_tables s !! tsn_table_name snapshot) ActorSnapshotLoading);
      set_self (with_tables
        (<[tsn_table_name snapshot := table_load_snapshot table snapshot]> (ts_tables s)) s);;
      load_tables snapshots
  end.

Definition store_on_load_snapshot (snapshot : bytes) : method TabletStoreActor ActorError unit :=
  snapshot ← try_ (ok_or (proto_decode snapshot) ActorSnapshotLoading);
  load_tables (tss_table_snapshots snapshot).

Definition store_on_process_command (ctx : ActorContext) (command : option ActorCommand)
    : method TabletStoreActor ActorError CommandOutcome :=
  match command with
  | None => mret co_with_none
  | Some command =>
      store_get_context;;
      if negb (ctx_leader ctx) then
        create_error_outcome "Rejecting command: not a leader" (command_correlation_id command)
          ExecuteRejected
      else
        match in_message_decode (command_header command) with
        | None =>
            create_error_outcome "Rejecting command: " (command_correlation_id command)
              ExecuteInvalidOperation
        | Some {| tsi_in_msg := Some _ |} =>
            match proto_decode (M:=TabletsRequest) (command_payload command) with
            | Some _ =>
                mret (co_with_event
                  (event_with_bytes (command_correlation_id command) (command_payload command)))
            | None =>
                create_error_outcome "Rejecting command: " (command_correlation_id command)
                  ExecuteInvalidOperation
            end
        | Some {| tsi_in_msg := None |} =>
            create_error_outcome "Rejecting command: message is not set"
              (command_correlation_id command) ExecuteInvalidOperation
        end
  end.

Definition store_on_apply_event (context : ActorEventContext) (event : ActorEvent)
    : method TabletStoreActor ActorError EventOutcome :=
  tablets_request ← try_ (ok_or (proto_decode (event_contents event)) ActorInternal);
  s ← get_self;
  '(tables, (out_header, response)) ← call (on_apply_tablets_request (ts_tables s) tablets_request);
  set_self (with_tables tables s);;
  mret (create_success_outcome (ec_owned context) (event_correlation_id event) out_header
          (proto_encode response)).

#[global] Instance TabletStoreActor_Actor : Actor unit TabletStoreActor :=
  {| on_init := store_on_init;
     on_shutdown := store_on_shutdown;
     on_save_snapshot _ := store_on_save_snapshot;
     on_load_snapshot _ := store_on_load_snapshot;
     on_process_command ctx _ := store_on_process_command ctx;
     on_apply_event _ _ := store_on_apply_event |}.
End store.

(** * Properties *)

(** ** The ring *)

(** The tablet responsible for a key hash: the first one at or after it, or else the
    first of the ring. *)
Definition responsible (m : gmap Z TabletMetadata) (h : Z) : option (Z * TabletMetadata) :=
  match head (filter (λ e, h ≤ e.1) (tablets_sorted m)) with
  | Some e => Some e
  | None => head (tablets_sorted m)
  end.

(** The hashes of a range, which may wrap around zero; as in the code, both ends belong to
    it. *)
Definition in_hash_range (key_hash_from key_hash_to h : Z) : Prop :=
  in_u32 h ∧
  (if decide (key_hash_from < key_hash_to) then key_hash_from ≤ h ≤ key_hash_to
   else key_hash_from ≤ h ∨ h ≤ key_hash_to).

#[local] Abbreviation entry := (Z * TabletMetadata)%type.

(** Entries in increasing order of distinct ids. *)
Definition ring_sorted (l : list entry) : Prop := StronglySorted (key_le Z.le) l ∧ NoDup l.*1.

Lemma tablets_sorted_spec m :
  ring_sorted (tablets_sorted m) ∧ (∀ e, e ∈ tablets_sorted m ↔ m !! e.1 = Some e.2).
Proof.
  unfold tablets_sorted. pose proof (btree_iter_perm Z.le m) as Hp. split; [split|].
  - apply StronglySorted_merge_sort; intros x y; unfold key_le; [lia|].
    destruct (Z.le_ge_cases x.1 y.1); auto.
  - rewrite Hp. apply NoDup_fst_map_to_list.
  - intros [id t]. by rewrite Hp, elem_of_map_to_list.
Qed.

Lemma ring_sorted_filter (P : entry → Prop) `{∀ e, Decision (P e)} l :
  ring_sorted l → ring_sorted (filter P l).
Proof.
  intros [Hs Hn]. split.
  - induction Hs as [|e l Hs IH Hall]; [constructor|]. inversion_clear Hn.
    rewrite filter_cons. case_decide; [|auto]. constructor; [auto|].
    apply Forall_forall. intros e' [_ He']%list_elem_of_filter.
    by eapply Forall_forall in Hall.
  - eapply sublist_NoDup; [exact Hn|]. apply fmap_sublist, sublist_filter.
Qed.

(** Entries with the same id are the same. *)
Lemma ring_entry_eq l (e e' : entry) :
  ring_sorted l → e ∈ l → e' ∈ l → e.1 = e'.1 → e = e'.
Proof.
  intros [_ Hn]. induction l as [|x l IH]; [by intros ?%elem_of_nil|]. inversion_clear Hn as [|? ? Hx Hn'].
  intros [->|He]%elem_of_cons [->|He']%elem_of_cons Heq; [done| | |auto].
  - destruct Hx. rewrite Heq. by apply list_elem_of_fmap_2.
  - destruct Hx. rewrite <- Heq. by apply list_elem_of_fmap_2.
Qed.

Lemma ring_head l (e : entry) :
  ring_sorted l → head l = Some e ↔ e ∈ l ∧ ∀ e', e' ∈ l → e.1 ≤ e'.1.
Proof.
  intros Hl. split.
  - destruct l as [|x l]; [done|]. intros [= ->]. split; [by left|].
    destruct Hl as [Hs _]. inversion_clear Hs as [|? ? _ Hall].
    intros e' [->|He']%elem_of_cons; [done|]. by eapply Forall_forall in Hall.
  - intros [He Hmin]. destruct l as [|x l]; [by apply elem_of_nil in He|]. simpl. f_equal.
    apply (ring_entry_eq (x :: l)); [done|by left|done|].
    pose proof (Hmin x ltac:(by left)). destruct Hl as [Hs _]. inversion_clear Hs as [|? ? _ Hall].
    apply elem_of_cons in He as [->|He]; [done|]. eapply Forall_forall in Hall; [|done].
    unfold key_le in Hall. lia.
Qed.

(** What a scan visits: up to and including the first entry at or after the end. *)
Fixpoint take_until (key_hash_to : Z) (l : list entry) : list entry * bool :=
  match l with
  | [] => ([], false)
  | e :: l =>
      if decide (key_hash_to ≤ e.1) then ([e], true)
      else let '(es, found) := take_until key_hash_to l in (e :: es, found)
  end.

Lemma scan_take_until key_hash_to st l :
  scan key_hash_to st l
  = (foldl visit st (take_until key_hash_to l).1, (take_until key_hash_to l).2).
Proof.
  revert st. induction l as [|e l IH]; intros st; simpl; [done|]. case_decide; [done|].
  rewrite IH. by destruct (take_until key_hash_to l).
Qed.

Lemma take_until_spec key_hash_to l :
  ring_sorted l →
  (∀ e, e ∈ (take_until key_hash_to l).1 ↔
     e ∈ l ∧ ∀ e', e' ∈ l → key_hash_to ≤ e'.1 → e.1 ≤ e'.1) ∧
  ((take_until key_hash_to l).2 = true ↔ ∃ e, e ∈ l ∧ key_hash_to ≤ e.1).
Proof.
  induction l as [|x l IH]; intros Hl; simpl.
  { split; [|split; [done|by intros (e & ?%elem_of_nil & _)]].
    intros e. split; [by intros ?%elem_of_nil|by intros [?%elem_of_nil _]]. }
  pose proof (proj1 (ring_head _ x Hl) eq_refl) as [_ Hx].
  assert (ring_sorted l) as Hl'.
  { destruct Hl as [Hs Hn]. inversion_clear Hs. inversion_clear Hn. by split. }
  destruct (IH Hl') as [Hin Hfound]. clear IH.
  case_decide as Hle; simpl.
  - split; [|split; [intros _; exists x; split; [by left|done]|done]].
    intros e. rewrite list_elem_of_singleton. split.
    + intros ->. split; [by left|]. intros e' He' _. by apply Hx.
    + intros [He Hmin]. pose proof (Hmin x ltac:(by left) Hle).
      apply (ring_entry_eq (x :: l)); [done|done|by left|]. specialize (Hx e He). lia.
  - destruct (take_until key_hash_to l) as [es found]. simpl in *. split.
    + intros e. rewrite elem_of_cons, Hin. split.
      * intros [->|[He Hmin]]; [split; [by left|by intros e' ?%Hx]|].
        split; [by right|]. intros e' [->|He']%elem_of_cons ?; [done|by apply Hmin].
      * intros [[->|He]%elem_of_cons Hmin]; [by left|]. right. split; [done|].
        intros e' He'. apply Hmin. by right.
    + rewrite Hfound. split; intros (e & He & ?).
      * exists e. split; [by right|done].
      * apply elem_of_cons in He as [->|He]; [done|]. by exists e.
Qed.

Lemma option_list_elem {A} (o : option A) x : x ∈ option_list o ↔ o = Some x.
Proof.
  destruct o; simpl.
  - rewrite list_elem_of_singleton. naive_solver.
  - rewrite elem_of_nil. naive_solver.
Qed.

(** Everything an interval visits. *)
Definition cover (m : gmap Z TabletMetadata) (interval : Z * Z) : list entry :=
  let '(es, found) :=
    take_until interval.2 (filter (λ e, interval.1 ≤ e.1) (tablets_sorted m)) in
  if found : bool then es else es ++ option_list (head (tablets_sorted m)).

Lemma find_in_interval_cover m st interval :
  find_in_interval m st interval = foldl visit st (cover m interval).
Proof.
  destruct interval as [f t]. unfold find_in_interval, cover. rewrite scan_take_until. simpl.
  destruct (take_until _ _) as [es [|]]; simpl; [done|]. rewrite foldl_app.
  by destruct (head (tablets_sorted m)).
Qed.

(** An interval visits exactly the tablets responsible for its hashes. *)
Lemma cover_spec m f t e :
  f ≤ t → e ∈ cover m (f, t) ↔ ∃ h, f ≤ h ≤ t ∧ responsible m h = Some e.
Proof.
  intros Hft. destruct (tablets_sorted_spec m) as [Hl _]. unfold cover, responsible. simpl.
  set (l := tablets_sorted m) in *.
  pose proof (λ h, ring_sorted_filter (λ e, h ≤ e.1) l Hl) as Hlf.
  destruct (take_until_spec t (filter (λ e, f ≤ e.1) l) (Hlf f)) as [Hin Hfound].
  destruct (take_until _ _) as [es found]. simpl in *.
  assert (∀ h e', head (filter (λ e, h ≤ e.1) l) = Some e' ↔
    e' ∈ l ∧ h ≤ e'.1 ∧ ∀ x, x ∈ l → h ≤ x.1 → e'.1 ≤ x.1) as Hhead.
  { intros h e'. rewrite ring_head, list_elem_of_filter by apply Hlf. split.
    - intros [[??] Hmin]. split_and!; [done..|]. intros x ??. apply Hmin. by rewrite list_elem_of_filter.
    - intros (?&?&Hmin). split; [done|]. intros x [??]%list_elem_of_filter. auto. }
  assert (∀ h, (∃ x, x ∈ l ∧ h ≤ x.1) → is_Some (head (filter (λ e, h ≤ e.1) l))) as Hsome.
  { intros h (x & Hx & Hh). assert (x ∈ filter (λ e, h ≤ e.1) l) as Hx' by (by rewrite list_elem_of_filter).
    destruct (filter (λ e, h ≤ e.1) l) as [|y l']; [by apply elem_of_nil in Hx'|done]. }
  assert (e ∈ es ↔ e ∈ l ∧ f ≤ e.1 ∧ ∀ x, x ∈ l → t ≤ x.1 → e.1 ≤ x.1) as Hes.
  { rewrite Hin, list_elem_of_filter. split.
    - intros [[??] Hmin]. split_and!; [done..|]. intros x ??. apply Hmin; [|done].
      rewrite list_elem_of_filter. split; [lia|done].
    - intros (?&?&Hmin). split; [done|]. intros x [??]%list_elem_of_filter. auto. }
  assert (found = true ↔ ∃ x, x ∈ l ∧ t ≤ x.1) as Hf.
  { rewrite Hfound. split; intros (x & Hx & ?); exists x.
    - by apply list_elem_of_filter in Hx as [??].
    - rewrite list_elem_of_filter. split; [split; [lia|done]|done]. }
  clear Hin Hfound. transitivity (e ∈ es ∨ (found = false ∧ head l = Some e)).
  { destruct found; [naive_solver|]. rewrite elem_of_app, option_list_elem. naive_solver. }
  rewrite Hes. split.
  - intros [(He & Hfe & Hmin)|[-> Hhd]].
    + destruct (decide (e.1 ≤ t)).
      * exists e.1. split; [done|]. by rewrite (proj2 (Hhead e.1 e)).
      * exists t. split; [lia|]. rewrite (proj2 (Hhead t e)); [done|]. split_and!; [done|lia|done].
    + exists t. split; [lia|]. destruct (head (filter _ l)) as [x|] eqn:E; [|done].
      apply Hhead in E as (?&?&_). assert (false = true); [apply Hf; eauto|done].
  - intros (h & Hh & Hr). destruct (head (filter _ l)) as [x|] eqn:E.
    + injection Hr as ->. apply Hhead in E as (He & Hhe & Hmin). left. split_and!; [done|lia|].
      intros x Hx ?. apply Hmin; [done|lia].
    + right. split; [|done]. destruct found; [|done]. destruct (proj1 Hf eq_refl) as (x & Hx & ?).
      destruct (Hsome h) as [? ?]; [exists x; split; [done|lia]|congruence].
Qed.

(** Listing removes the repetitions and keeps everything else. *)
Lemma visit_dedup (m : gmap Z TabletMetadata) (l : list entry) :
  (∀ e, e ∈ l → m !! e.1 = Some e.2) →
  ∃ es : list entry, (foldl visit (∅, []) l).2 = es.*2 ∧ NoDup es.*1 ∧ (∀ e, e ∈ es ↔ e ∈ l).
Proof.
  intros Hm.
  assert (∃ es : list entry, foldl visit (∅, []) l = (list_to_set es.*1, es.*2) ∧
    NoDup es.*1 ∧ (∀ e, e ∈ es ↔ e ∈ l)) as (es & -> & H); [|by exists es].
  induction l as [|e l IH] using rev_ind; [by exists []; split_and!; [done|constructor|]|].
  destruct IH as (es & Hst & Hn & Hin). { intros e' He'. apply Hm, elem_of_app. by left. }
  rewrite foldl_app, Hst. simpl. unfold visit. simpl. case_decide as Hd.
  - exists es. split_and!; [done|done|]. intros e'.
    rewrite elem_of_app, list_elem_of_singleton, Hin. split; [by left|]. intros [?| ->]; [done|].
    apply elem_of_list_to_set, list_elem_of_fmap in Hd as (x & Hx & Hxe).
    apply Hin in Hxe. pose proof (Hm x ltac:(apply elem_of_app; by left)) as H1.
    pose proof (Hm e ltac:(apply elem_of_app; right; by left)) as H2.
    rewrite Hx in H2. rewrite H1 in H2. injection H2 as H2. destruct x, e; simpl in *. by subst.
  - exists (es ++ [e]). rewrite !fmap_app, list_to_set_app_L. simpl. split_and!.
    + f_equal. rewrite union_empty_r_L. apply union_comm_L.
    + apply NoDup_app. split_and!; [done| |apply NoDup_singleton].
      intros x Hx ->%list_elem_of_singleton. apply Hd. by apply elem_of_list_to_set.
    + intros e'. by rewrite !elem_of_app, Hin.
Qed.

Lemma cover_entries m interval e : e ∈ cover m interval → m !! e.1 = Some e.2.
Proof.
  destruct (tablets_sorted_spec m) as [Hl Hm]. intros He. apply Hm. unfold cover in He.
  destruct (take_until_spec interval.2 (filter (λ e, interval.1 ≤ e.1) (tablets_sorted m)))
    as [Hin _]; [by apply ring_sorted_filter|].
  destruct (take_until _ _) as [es found]. simpl in *.
  assert (e ∈ es ∨ head (tablets_sorted m) = Some e) as [[Hes _]%Hin|Hhd].
  { destruct found; [by left|]. apply elem_of_app in He as [?|He]; [by left|].
    right. by apply option_list_elem in He. }
  - by apply list_elem_of_filter in Hes as [_ ?].
  - by apply ring_head in Hhd as [? _].
Qed.

(** What is listed is in the table. *)
Lemma find_tablets_stored t f to x :
  x ∈ find_tablets t f to → ∃ id, tb_tablets t !! id = Some x.
Proof.
  unfold find_tablets. set (intervals := if decide _ then _ else _).
  assert (foldl (find_in_interval (tb_tablets t)) (∅, []) intervals
    = foldl visit (∅, []) (intervals ≫= cover (tb_tablets t))) as ->.
  { generalize (∅ : gset Z, [] : list TabletMetadata). induction intervals as [|i l IH]; intros st; [done|].
    simpl. by rewrite find_in_interval_cover, IH, foldl_app. }
  destruct (visit_dedup (tb_tablets t) (intervals ≫= cover (tb_tablets t))) as (es & -> & _ & Hin).
  { intros e (i & He & _)%list_elem_of_bind. by eapply cover_entries. }
  intros ([id y] & -> & (i & He & _)%Hin%list_elem_of_bind)%list_elem_of_fmap.
  exists id. by apply cover_entries in He.
Qed.

(** ** Requests *)

(** Whether an operation succeeds against the tables as they are. *)
Definition op_holds (tables : gmap string TableMetadata) (op : TabletOp) : bool :=
  match tables !! to_table_name op, to_op op with
  | Some _, Some (ListTablet _ _) => true
  | Some table, Some (CheckTablet id version) =>
      match tb_tablets table !! id with
      | Some t => bool_decide (tm_tablet_version t = version)
      | None => false
      end
  | Some table, Some (UpdateTablet (Some updated)) =>
      match tb_tablets table !! tm_tablet_id updated with
      | Some t => bool_decide (tm_tablet_version updated = tm_tablet_version t +₃₂ 1)
      | None => false
      end
  | _, _ => false
  end.

(** Its effect. *)
Definition op_effect (tables : gmap string TableMetadata) (op : TabletOp)
    : gmap string TableMetadata :=
  match tables !! to_table_name op, to_op op with
  | Some table, Some (UpdateTablet (Some updated)) =>
      <[to_table_name op :=
          with_tablets table (<[tm_tablet_id updated := updated]> (tb_tablets table))]> tables
  | _, _ => tables
  end.

(** Everything but the two operations that are not implemented. *)
Definition op_supported (op : TabletOp) : Prop :=
  match to_op op with
  | Some (AddTablet _) | Some (RemoveTablet _ _) => False
  | _ => True
  end.

Lemma prepare_tablet_op_spec tables op :
  op_supported op →
  ∃ r, prepare_tablet_op tables op = Return r ∧
    bool_decide (tor_status r = TabletOpSucceeded) = op_holds tables op ∧
    (op_holds tables op = true → is_Some (tor_op_result r)).
Proof.
  unfold op_supported, prepare_tablet_op, op_holds.
  destruct (tables !! to_table_name op) as [table|]; [|by intros _; eexists].
  destruct (to_op op) as [[| | |[u|]|]|]; simpl; try done; intros _; try by eexists.
  - destruct (tb_tablets table !! tablet_id) as [t|]; [|by eexists]. rewrite bool_decide_decide.
    destruct (decide (tm_tablet_version t = tablet_version)); by eexists.
  - destruct (tb_tablets table !! tm_tablet_id u) as [t|]; [|by eexists].
    rewrite (bool_decide_decide (tm_tablet_version u = _)).
    destruct (decide (tm_tablet_version u = _)); by eexists.
Qed.

Lemma prepare_tablet_ops_spec tables ops :
  Forall op_supported ops →
  ∃ rs, prepare_tablet_ops tables ops = Return rs ∧
    forallb (λ r, bool_decide (tor_status r = TabletOpSucceeded)) rs
    = forallb (op_holds tables) ops ∧
    Forall2 (λ op r, op_holds tables op = true → is_Some (tor_op_result r)) ops rs.
Proof.
  induction 1 as [|op ops Hop Hops (rs & IH & Hall & Hres)]; simpl; [by exists []|].
  destruct (prepare_tablet_op_spec tables op Hop) as (r & -> & Hst & Hr). simpl. rewrite IH. simpl.
  eexists. split; [done|]. simpl. rewrite Hst, Hall. split; [done|]. by constructor.
Qed.

(** The operations that hold in [tables] commit in any tables with the same names. *)
Lemma commit_tablet_ops_spec tables ops rs tables0 :
  Forall2 (λ op r, op_holds tables op = true → is_Some (tor_op_result r)) ops rs →
  forallb (op_holds tables) ops = true → dom tables0 = dom tables →
  ∃ rs', commit_tablet_ops tables0 (zip ops rs) = Return (foldl op_effect tables0 ops, rs') ∧
    length rs' = length ops.
Proof.
  intros Hr. revert tables0. induction Hr as [|op r ops rs Hres Hr IH]; intros tables0; simpl.
  { intros _ _. by exists []. }
  intros [Hop Hops]%andb_prop Hdom. specialize (Hres Hop) as [res Hres].
  assert (∃ r', commit_tablet_op tables0 op r = Return (op_effect tables0 op, r') ∧
    dom (op_effect tables0 op) = dom tables) as (r' & -> & Hdom').
  { assert (is_Some (tables0 !! to_table_name op)) as [table Ht].
    { apply elem_of_dom. rewrite Hdom. apply elem_of_dom. unfold op_holds in Hop.
      by destruct (tables !! to_table_name op). }
    unfold commit_tablet_op, op_effect. rewrite Ht. simpl. unfold op_holds in Hop.
    destruct (tables !! to_table_name op); [|done].
    destruct (to_op op) as [[| | |[u|]|]|]; simpl in *; try done; rewrite Hres; simpl;
      eexists.
    1, 2: by rewrite insert_id.
    split; [done|]. rewrite dom_insert_lookup_L; [done|by eexists]. }
  simpl. destruct (IH _ Hops Hdom') as (rs' & -> & Hlen). simpl. eexists. split; [done|].
  simpl. by rewrite Hlen.
Qed.

(** What a request does to the tables, and what it answers. *)
Lemma apply_request_spec tables request :
  Forall op_supported (tr_tablet_ops request) →
  ∃ tables' response,
    on_apply_tablets_request tables request
    = Return (tables', (ExecuteTabletOpsResponse, response)) ∧
    length (trs_tablet_results response) = length (tr_tablet_ops request) ∧
    if forallb (op_holds tables) (tr_tablet_ops request)
    then trs_status response = TabletsSucceeded ∧
         tables' = foldl op_effect tables (tr_tablet_ops request)
    else trs_status response = TabletsFailed ∧ tables' = tables.
Proof.
  intros Hsup. unfold on_apply_tablets_request.
  destruct (prepare_tablet_ops_spec tables _ Hsup) as (rs & -> & Hall & Hres). simpl. rewrite Hall.
  pose proof (Forall2_length _ _ _ Hres) as Hlen.
  destruct (forallb (op_holds tables) (tr_tablet_ops request)) eqn:E; simpl.
  - destruct (commit_tablet_ops_spec tables _ _ tables Hres E eq_refl) as (rs' & -> & Hlen').
    simpl. eexists _, _. split; [done|]. done.
  - eexists _, _. split; [done|]. done.
Qed.

(** What a listing gives. *)
Lemma find_tablets_covering t f to :
  in_u32 f → in_u32 to →
  ∃ es : list entry, find_tablets t f to = es.*2 ∧ NoDup es.*1 ∧
    ∀ e, e ∈ es ↔ ∃ h, in_hash_range f to h ∧ responsible (tb_tablets t) h = Some e.
Proof.
  intros Hf Ht. unfold find_tablets, in_hash_range, in_u32 in *. case_decide as Hlt.
  - cbn [foldl]. rewrite find_in_interval_cover.
    destruct (visit_dedup (tb_tablets t) (cover (tb_tablets t) (f, to))) as (es & -> & Hn & Hin).
    { apply cover_entries. }
    exists es. split_and!; [done..|]. intros e. rewrite Hin, cover_spec by lia.
    split; intros (h & Hh & ?); exists h; (split; [lia|done]).
  - cbn [foldl]. rewrite !find_in_interval_cover, <- foldl_app.
    destruct (visit_dedup (tb_tablets t)
      (cover (tb_tablets t) (f, two32 - 1) ++ cover (tb_tablets t) (0, to)))
      as (es & -> & Hn & Hin).
    { intros e [?|?]%elem_of_app; by eapply cover_entries. }
    exists es. split_and!; [done..|]. intros e. rewrite Hin, elem_of_app, !cover_spec by lia. split.
    + intros [(h & Hh & ?)|(h & Hh & ?)]; exists h; (split; [lia|done]).
    + intros (h & Hh & ?). destruct (decide (f ≤ h)); [left|right]; exists h; (split; [lia|done]).
Qed.

(** * Claims *)

(** C34: A listing follows the ring.  Listing a range of key hashes, with or without
    wrap-around and with both its ends included, gives exactly the tablets that are
    responsible for some hash of the range (the first tablet at or after the hash, or the
    first of the ring), each once.  The comments of the messages say that the upper end is
    excluded; [listing_includes_end] shows that it is not. *)
Theorem find_tablets_responsible t f to :
  in_u32 f → in_u32 to →
  ∃ es : list entry, find_tablets t f to = es.*2 ∧ NoDup es.*1 ∧
    ∀ e, e ∈ es ↔ ∃ h, in_hash_range f to h ∧ responsible (tb_tablets t) h = Some e.
Proof. apply find_tablets_covering. Qed.

(** C15: A request is all or nothing.  Applying a request of list, check and update
    operations returns, and answers every operation; when every operation holds
    against the tables as they were (a check finds exactly the given version, an
    update raises the version by one), all effects take place in order, and
    otherwise the tables are unchanged. *)
Theorem tablets_request_atomic tables request :
  Forall op_supported (tr_tablet_ops request) →
  ∃ tables' response,
    on_apply_tablets_request tables request
    = Return (tables', (ExecuteTabletOpsResponse, response)) ∧
    length (trs_tablet_results response) = length (tr_tablet_ops request) ∧
    if forallb (op_holds tables) (tr_tablet_ops request)
    then trs_status response = TabletsSucceeded ∧
         tables' = foldl op_effect tables (tr_tablet_ops request)
    else trs_status response = TabletsFailed ∧ tables' = tables.
Proof. apply apply_request_spec. Qed.

(** ** What modelling showed *)

(** Two updates of the same tablet in one request both succeed; the second one wins. *)
Lemma double_update_succeeds tables name table t u1 u2 :
  tables !! name = Some table → tb_tablets table !! tm_tablet_id t = Some t →
  tm_tablet_id u1 = tm_tablet_id t → tm_tablet_id u2 = tm_tablet_id t →
  tm_tablet_version u1 = tm_tablet_version t +₃₂ 1 →
  tm_tablet_version u2 = tm_tablet_version t +₃₂ 1 →
  let ops := [ {| to_table_name := name; to_op := Some (UpdateTablet (Some u1)) |};
               {| to_table_name := name; to_op := Some (UpdateTablet (Some u2)) |} ] in
  forallb (op_holds tables) ops = true ∧
  ∃ table', foldl op_effect tables ops !! name = Some table' ∧
    tb_tablets table' !! tm_tablet_id t = Some u2.
Proof.
  intros Ht Htab H1 H2 Hv1 Hv2. simpl. unfold op_holds, op_effect. simpl.
  rewrite Ht, H1, H2, Htab. simpl. rewrite !bool_decide_true by done. split; [done|].
  rewrite lookup_insert_eq. simpl. rewrite lookup_insert_eq. eexists. split; [done|]. simpl.
  by rewrite lookup_insert_eq.
Qed.

(** * Concrete instances *)

Definition sample_table : TableMetadata :=
  {| tb_config := {| tc_table_name := "A"; tc_max_tablet_size := 1024; tc_min_tablet_size := 512;
                     tc_initial_tablet_count := 2 |};
     tb_tablets := {[ 10 := default_tablet 10; 20 := default_tablet 20 ]} |}.

(** The range from 15 around zero to 5: both tablets. *)
Lemma find_tablets_responsible_witness :
  find_tablets sample_table 15 5 = [default_tablet 20; default_tablet 10] ∧
  ∃ es : list entry, find_tablets sample_table 15 5 = es.*2 ∧ (20, default_tablet 20) ∈ es.
Proof.
  split; [by vm_compute|].
  destruct (find_tablets_responsible sample_table 15 5) as (es & Hes & _ & Hin); [done..|].
  exists es. split; [exact Hes|]. apply Hin. exists 16. split; [|by vm_compute].
  unfold in_hash_range, in_u32. split; [lia|]. rewrite decide_False by lia. lia.
Defined.

Definition sample_update : TabletsRequest :=
  {| tr_tablet_ops :=
       [ {| to_table_name := "A"; to_op := Some (CheckTablet 10 0) |};
         {| to_table_name := "A"; to_op := Some (UpdateTablet (Some
              {| tm_tablet_id := 20; tm_tablet_version := 1; tm_deleted := false;
                 tm_blob_encryption_key := []; tm_blob_size := 0; tm_blob_hash := [];
                 tm_blob_uri := "b" |})) |} ] |}.

Lemma tablets_request_atomic_witness :
  ∃ tables' response,
    on_apply_tablets_request {[ "A" := sample_table ]} sample_update
    = Return (tables', (ExecuteTabletOpsResponse, response)) ∧
    trs_status response = TabletsSucceeded.
Proof.
  destruct (tablets_request_atomic {[ "A" := sample_table ]} sample_update)
    as (tables' & response & Happ & _ & H); [by repeat constructor|].
  exists tables', response. split; [exact Happ|exact (proj1 H)].
Defined.

(** The upper end of a listed range belongs to it: tablet 20, which is responsible for the
    hashes from 11, is listed in the range up to 11. *)
Example listing_includes_end :
  find_tablets sample_table 5 10 = [default_tablet 10] ∧
  find_tablets sample_table 5 11 = [default_tablet 10; default_tablet 20].
Proof. split; by vm_compute. Qed.

(** Two replicas with the random configurator start from different tablets, and no
    event says which. *)
Lemma initial_tablets_diverge :
  let H := random_configurator (HashOrder0 := default_hash_order Z) in
  let run draws := create_tables [tb_config sample_table] (tablet_store_new draws) in
  match run [1; 2], run [3; 4] with
  | Returned (s1, Ok _), Returned (s2, Ok _) => ts_tables s1 ≠ ts_tables s2
  | _, _ => False
  end.
Proof. vm_compute. discriminate. Qed.
