(* ===== verification/TabletCodecs.v ===== *)
(** * Codecs of the tablet store's messages

    The messages of the tablet store are countable, so that [countable_codec] gives each a
    codec that meets the law of [ProtoCodec].  The concrete runs of the development use them. *)

From S2P Require Import Prelude TabletStore.

#[global] Instance TabletOpKind_eq_dec : EqDecision TabletOpKind.
Proof. solve_decision. Defined.
#[global] Instance TabletOp_eq_dec : EqDecision TabletOp.
Proof. solve_decision. Defined.
#[global] Instance TabletOpResultKind_eq_dec : EqDecision TabletOpResultKind.
Proof. solve_decision. Defined.
#[global] Instance TabletOpResult_eq_dec : EqDecision TabletOpResult.
Proof. solve_decision. Defined.
#[global] Instance TabletsRequest_eq_dec : EqDecision TabletsRequest.
Proof. solve_decision. Defined.
#[global] Instance TabletsRequestStatus_eq_dec : EqDecision TabletsRequestStatus.
Proof. solve_decision. Defined.
#[global] Instance TabletsResponse_eq_dec : EqDecision TabletsResponse.
Proof. solve_decision. Defined.

#[global] Instance TabletMetadata_countable : Countable TabletMetadata.
Proof.
  refine (inj_countable'
    (λ m, (tm_tablet_id m, tm_tablet_version m, tm_deleted m, tm_blob_encryption_key m, tm_blob_size m,
           tm_blob_hash m, tm_blob_uri m))
    (λ '(a, b, c, d, e, f, g), {| tm_tablet_id := a; tm_tablet_version := b; tm_deleted := c;
       tm_blob_encryption_key := d; tm_blob_size := e; tm_blob_hash := f; tm_blob_uri := g |}) _).
  by intros [].
Defined.

#[global] Instance TabletOpKind_countable : Countable TabletOpKind.
Proof.
  refine (inj_countable'
    (λ k, match k with
          | ListTablet a b => inl (inl (a, b)) | CheckTablet a b => inl (inr (a, b))
          | AddTablet m => inr (inl m) | UpdateTablet m => inr (inr (inl m))
          | RemoveTablet a b => inr (inr (inr (a, b)))
          end)
    (λ s, match s with
          | inl (inl (a, b)) => ListTablet a b | inl (inr (a, b)) => CheckTablet a b
          | inr (inl m) => AddTablet m | inr (inr (inl m)) => UpdateTablet m
          | inr (inr (inr (a, b))) => RemoveTablet a b
          end) _).
  by intros [].
Defined.

#[global] Instance TabletOp_countable : Countable TabletOp.
Proof.
  refine (inj_countable' (λ o, (to_table_name o, to_op o))
    (λ '(a, b), {| to_table_name := a; to_op := b |}) _). by intros [].
Defined.

#[global] Instance TabletOpStatus_countable : Countable TabletOpStatus.
Proof.
  refine (inj_countable'
    (λ s, match s with TabletOpUnspecified => 0%nat | TabletOpSucceeded => 1%nat | TabletOpFailed => 2%nat
          | TabletOpAborted => 3%nat | TabletOpInvalid => 4%nat end)
    (λ n, match n with 0%nat => TabletOpUnspecified | 1%nat => TabletOpSucceeded
          | 2%nat => TabletOpFailed | 3%nat => TabletOpAborted | _ => TabletOpInvalid end) _).
  by intros [].
Defined.

#[global] Instance TabletOpResultKind_countable : Countable TabletOpResultKind.
Proof.
  refine (inj_countable'
    (λ k, match k with
          | ListTabletResult a b l => inl (a, b, l) | CheckTabletResult m => inr (0%nat, m)
          | AddTabletResult m => inr (1%nat, m) | UpdateTabletResult m => inr (2%nat, m)
          | RemoveTabletResult m => inr (3%nat, m)
          end)
    (λ s, match s with
          | inl (a, b, l) => ListTabletResult a b l | inr (0%nat, m) => CheckTabletResult m
          | inr (1%nat, m) => AddTabletResult m | inr (2%nat, m) => UpdateTabletResult m
          | inr (_, m) => RemoveTabletResult m
          end) _).
  by intros [].
Defined.

#[global] Instance TabletOpResult_countable : Countable TabletOpResult.
Proof.
  refine (inj_countable' (λ r, (tor_table_name r, tor_status r, tor_op_result r))
    (λ '(a, b, c), {| tor_table_name := a; tor_status := b; tor_op_result := c |}) _). by intros [].
Defined.

#[global] Instance TabletsRequest_countable : Countable TabletsRequest.
Proof. refine (inj_countable' tr_tablet_ops (λ l, {| tr_tablet_ops := l |}) _). by intros []. Defined.

#[global] Instance TabletsRequestStatus_countable : Countable TabletsRequestStatus.
Proof.
  refine (inj_countable'
    (λ s, match s with TabletsUnspecified => 0%nat | TabletsSucceeded => 1%nat | TabletsFailed => 2%nat
          | TabletsInvalid => 3%nat end)
    (λ n, match n with 0%nat => TabletsUnspecified | 1%nat => TabletsSucceeded | 2%nat => TabletsFailed
          | _ => TabletsInvalid end) _).
  by intros [].
Defined.

#[global] Instance TabletsResponse_countable : Countable TabletsResponse.
Proof.
  refine (inj_countable' (λ r, (trs_status r, trs_tablet_results r))
    (λ '(a, b), {| trs_status := a; trs_tablet_results := b |}) _). by intros [].
Defined.
#[global] Instance ExecuteTabletOpsStatus_eq_dec : EqDecision ExecuteTabletOpsStatus.
Proof. solve_decision. Defined.
#[global] Instance TabletStoreOutMsg_eq_dec : EqDecision TabletStoreOutMsg.
Proof. solve_decision. Defined.
#[global] Instance TabletStoreOutMessage_eq_dec : EqDecision TabletStoreOutMessage.
Proof. solve_decision. Defined.
#[global] Instance TabletStoreInMessage_eq_dec : EqDecision TabletStoreInMessage.
Proof. solve_decision. Defined.
#[global] Instance TableSnapshot_eq_dec : EqDecision TableSnapshot.
Proof. solve_decision. Defined.
#[global] Instance TabletStoreSnapshot_eq_dec : EqDecision TabletStoreSnapshot.
Proof. solve_decision. Defined.
#[global] Instance TableConfig_eq_dec : EqDecision TableConfig.
Proof. solve_decision. Defined.
#[global] Instance TabletStoreConfig_eq_dec : EqDecision TabletStoreConfig.
Proof. solve_decision. Defined.

#[global] Instance ExecuteTabletOpsStatus_countable : Countable ExecuteTabletOpsStatus.
Proof.
  refine (inj_countable'
    (λ s, match s with ExecuteUnspecified => 0%nat | ExecuteRejected => 1%nat
          | ExecuteInvalidOperation => 2%nat end)
    (λ n, match n with 0%nat => ExecuteUnspecified | 1%nat => ExecuteRejected
          | _ => ExecuteInvalidOperation end) _).
  by intros [].
Defined.

#[global] Instance TabletStoreOutMessage_countable : Countable TabletStoreOutMessage.
Proof.
  refine (inj_countable'
    (λ m, match tso_out_msg m with
          | None => None
          | Some ExecuteTabletOpsResponse => Some None
          | Some (ExecuteTabletOpsError s d) => Some (Some (s, d))
          end)
    (λ o, {| tso_out_msg :=
          match o with
          | None => None
          | Some None => Some ExecuteTabletOpsResponse
          | Some (Some (s, d)) => Some (ExecuteTabletOpsError s d)
          end |}) _).
  by intros [[[]|]].
Defined.

#[global] Instance TabletStoreInMessage_countable : Countable TabletStoreInMessage.
Proof. refine (inj_countable' tsi_in_msg (λ m, {| tsi_in_msg := m |}) _). by intros []. Defined.

#[global] Instance TableSnapshot_countable : Countable TableSnapshot.
Proof.
  refine (inj_countable' (λ s, (tsn_table_name s, tsn_table_tablets s))
    (λ '(a, b), {| tsn_table_name := a; tsn_table_tablets := b |}) _). by intros [].
Defined.

#[global] Instance TabletStoreSnapshot_countable : Countable TabletStoreSnapshot.
Proof.
  refine (inj_countable' tss_table_snapshots (λ l, {| tss_table_snapshots := l |}) _). by intros [].
Defined.

#[global] Instance TableConfig_countable : Countable TableConfig.
Proof.
  refine (inj_countable'
    (λ c, (tc_table_name c, tc_max_tablet_size c, tc_min_tablet_size c, tc_initial_tablet_count c))
    (λ '(a, b, c, d), {| tc_table_name := a; tc_max_tablet_size := b; tc_min_tablet_size := c;
       tc_initial_tablet_count := d |}) _). by intros [].
Defined.

#[global] Instance TabletStoreConfig_countable : Countable TabletStoreConfig.
Proof.
  refine (inj_countable' tsc_table_configs (λ l, {| tsc_table_configs := l |}) _). by intros [].
Defined.
