(* ===== verification/DriverTheorems.v ===== *)
(** * Theorems on the driver

    What the runtime as a whole promises to the application and to the other
    replicas, and a small concrete runtime (a single replica of the counter whose
    Raft node commits at once) on which the theorems are evaluated. *)

From S2P Require Import Prelude RaftTypes Storage Endpoint F64 Snapshot Handshake Communication Model Consensus Driver DriverProps Counter.

Section claims.
Context {OS : OakSession} {R St P Sd Rc A Ent C : Type}.
Context `{HRaft : !Raft R St, HStore : !Store St, HSender : !SnapshotSender Sd,
          HReceiver : !SnapshotReceiver Rc, HProc : !SnapshotProcessor P Sd Rc,
          HActor : !Actor Ent A, HComm : !CommunicationModule C}.
Context `{HMsg : !ProtoCodec RaftMessage, HChange : !ProtoCodec RaftConfigChange,
          HEntry : !ProtoCodec Entry}.
Variable create_store : Z → St.
Variable snapshot_is_empty : RaftSnapshot → bool.
Variable request_fuel : nat.

#[local] Abbreviation Drv := (@Driver OS R P A C).

(** C14: The life cycle.  In every call on a reachable driver, whatever it returns,
    time does not go back, the last tick is not ahead of it, and the actor's context
    shows the replica's id and time.  A driver goes from created to started to
    stopped and never back, only a start or a stop request moves it, and once it
    was started its id, its kind and what the actor was configured with stay.  A call
    that sends leaves nothing behind to be sent again. *)
Theorem driver_lifecycle raft snapshot actor communication d ent logs instant opt_message d' r :
  driver_reachable create_store snapshot_is_empty request_fuel raft snapshot actor communication d →
  in_u64 instant →
  receive_message create_store snapshot_is_empty request_fuel ent logs instant opt_message d
  = Returned (d', r) →
  dr_instant d' = Z.max (dr_instant d) instant ∧
  dr_tick_instant d' ≤ dr_instant d' ∧
  (dr_tick_instant d' = dr_tick_instant d ∨ dr_tick_instant d' = dr_instant d') ∧
  ctx_id (core_context (dr_core d')) = dr_id d' ∧
  ctx_instant (core_context (dr_core d')) = dr_instant d' ∧
  life_rank (dr_driver_state d) ≤ life_rank (dr_driver_state d') ∧
  (life_message opt_message = false → dr_driver_state d' = dr_driver_state d) ∧
  (dr_driver_state d ≠ DriverCreated ∨ life_message opt_message = false →
   dr_id d' = dr_id d ∧ dr_is_ephemeral d' = dr_is_ephemeral d ∧
   ctx_config (core_context (dr_core d')) = ctx_config (core_context (dr_core d))) ∧
  ∀ sent, r = Ok (Some sent) → dr_messages d' = [].
Proof.
  intros Hd Hi Hr.
  assert (driver_reachable create_store snapshot_is_empty request_fuel raft snapshot actor
    communication d') as Hd' by (by eapply reach_call).
  apply (driver_reachable_inv create_store snapshot_is_empty request_fuel (λ _, True))
    in Hd' as [Hclock' _ Hid' Hinst' _]; [|done..].
  pose proof (mwp_Returned _ _ _ _ _ _
    (receive_message_sent create_store snapshot_is_empty request_fuel ent logs instant opt_message d)
    Hr) as Hs.
  assert (∃ d1, steps (life_message opt_message) (preset instant d) d1 ∧ same_life d1 d' ∧
    dr_instant d' = dr_instant d1 ∧ dr_tick_instant d' = dr_tick_instant d1 ∧
    ∀ sent, r = Ok (Some sent) → dr_messages d' = []) as (d1 & H1 & [Hl1 Hl2 Hl3 Hl4] & Hl5 & Hl6 & Hm).
  { destruct r as [[sent|]|e]; simpl in Hs.
    - destruct Hs as (d1 & c & out & H1 & _ & _ & ->). by exists d1.
    - destruct Hs as [_ ->]. by exists (preset instant d).
    - by exists d'. }
  destruct (steps_life_ordered _ _ _ H1) as [Hrank Hinst Htick Hident].
  rewrite Hl5, Hl6, Hl1, Hl2, Hl3, Hl4 in *. cbn in Hrank, Hinst, Htick, Hident.
  rewrite Hinst in *.
  split_and!; try done; try lia.
  - intros E. rewrite E in H1. by rewrite (life_state _ _ (steps_same_life _ _ H1)).
  - intros [Hne|E].
    + destruct (Hident Hne) as (-> & -> & ->). done.
    + rewrite E in H1. by destruct (steps_same_life _ _ H1) as [-> _ -> ->].
Qed.

(** The messages a driver refuses in its state. *)
Definition refused (d : Drv) (message : InMsg) : Prop :=
  match message with
  | InStartReplica _ => dr_driver_state d ≠ DriverCreated
  | InChangeCluster _ | InCheckCluster | InDeliverSystemMessage _ =>
      dr_driver_state d ≠ DriverStarted ∨ dr_is_ephemeral d = true
  | InGetReplicaState | InSecureChannelHandshake _ => dr_driver_state d ≠ DriverStarted
  | InDeliverSnapshotRequest _ | InDeliverSnapshotResponse _ | InDeliverSnapshotFailure _ =>
      dr_is_ephemeral d = true
  | InStopReplica | InDeliverAppMessage _ => False
  end.

(** C36: What a driver refuses has no effect.  A second start; a change or a check of the
    cluster, a query for the state of the replica, a handshake message or a Raft message
    before the start or after the stop; and a change or a check of the cluster, a Raft message
    or snapshot traffic at an ephemeral replica fail with [InvalidOperation].  The actor,
    Raft, the snapshot transfers, the channels and the messages to be sent stay as they were:
    the driver is as every call first makes it, with the clock advanced, the leadership of
    Raft noted for the actor and the state of Raft remembered as the previous one.  Snapshot
    traffic at a replica that is not started and not ephemeral is not refused. *)
Theorem refused_without_effect ent logs instant message d :
  refused d message →
  receive_message create_store snapshot_is_empty request_fuel ent logs instant (Some (Some message)) d
  = Returned (preset instant d, Err PalInvalidOperation).
Proof.
  intros Href. unfold receive_message.
  rewrite (mbind_Returned_l (preset_state_machine instant) _ d (preset instant d) ()) by done.
  enough (dispatch create_store message (preset instant d)
    = Returned (preset instant d, Err PalInvalidOperation)) as H by (unfold mbind, method_bind; by rewrite H).
  assert (dr_driver_state (preset instant d) = dr_driver_state d) as Hst by done.
  assert (dr_is_ephemeral (preset instant d) = dr_is_ephemeral d) as Hep by done.
  destruct message; simpl in Href; try done;
    unfold dispatch, process_start_node, process_change_cluster, process_check_cluster,
      process_deliver_system_message, process_deliver_snapshot_request,
      process_deliver_snapshot_response, process_deliver_snapshot_failure,
      process_get_replica_state, process_secure_channel_handshake, check_driver_started,
      check_driver_state, check_non_ephemeral, mbind, method_bind, get_self, fail;
    try (rewrite Hep, Href; done);
    rewrite Hst; case_decide; try done; (destruct Href as [?|E]; [done|cbn; by rewrite E]).
Qed.

(** C13: Committed entries drive the actor.  When the committed entries are applied,
    the actor has applied exactly the events they carry, in the order of their
    indices and each with its index, owned exactly when this replica proposed it; the
    commands it answered with are stashed for the consumer in that order, and the
    applied index is the last one.  The loop ends early only on a configuration
    change, on an entry that is not an event, or when the actor itself does. *)
Theorem committed_entries_applied ent entries (d : Drv) :
  let log := merge_sort entry_index_le entries in
  log ≡ₚ entries ∧ Sorted entry_index_le log ∧
  (∀ d', apply_raft_committed_entries ent entries d = Returned (d', Ok ()) →
    same_replica d d' ∧
    (∃ commands,
       replay (core_context (dr_core d)) ent (dr_id d) (omap committed_event log) (dr_actor d)
       = Returned (dr_actor d', Ok commands) ∧
       dr_messages d' = dr_messages d ++ map command_message commands) ∧
    rp_applied_index (dr_raft_progress d')
    = default (rp_applied_index (dr_raft_progress d)) (entry_index <$> last log)) ∧
  (∀ a commands, Forall plain_entry entries →
    replay (core_context (dr_core d)) ent (dr_id d) (omap committed_event log) (dr_actor d)
    = Returned (a, Ok commands) →
    ∃ d', apply_raft_committed_entries ent entries d = Returned (d', Ok ())).
Proof.
  intros log. pose proof (merge_sort_Permutation entry_index_le entries) as Hperm.
  split_and!; [done| |intros d'; by apply for_each_applied|].
  - apply Sorted_merge_sort. intros x y. unfold entry_index_le. lia.
  - intros a commands Hp Hr. eapply for_each_applies; [|exact Hr]. by rewrite Hperm.
Qed.

(** Replicas agree.  Take an actor whose replicated state does not depend on who
    owns an event, on the replica's context or on its random draws.  Two replicas
    in the same replicated state that are handed the same committed log, each in
    its own batches, are in the same replicated state and at the same applied
    index after it; and if one gets through a log of events, so does the other. *)
Theorem replicas_apply_same_log (same : A → A → Prop) `{!ReplicatedActor same}
    ent1 ent2 batches1 batches2 (d1 d2 d1' : Drv) :
  same (dr_actor d1) (dr_actor d2) →
  sorted_log batches1 = sorted_log batches2 → sorted_log batches1 ≠ [] →
  apply_batches ent1 batches1 d1 = Returned (d1', Ok ()) →
  (∀ d2', apply_batches ent2 batches2 d2 = Returned (d2', Ok ()) →
     same (dr_actor d1') (dr_actor d2') ∧
     rp_applied_index (dr_raft_progress d1') = rp_applied_index (dr_raft_progress d2')) ∧
  (Forall plain_entry (sorted_log batches1) →
     ∃ d2', apply_batches ent2 batches2 d2 = Returned (d2', Ok ())).
Proof.
  intros Hs Hlog Hne H1. rewrite apply_batches_log in H1.
  apply for_each_applied in H1 as (_ & (cs1 & R1 & _) & X1).
  destruct (replay_synced same _ (core_context (dr_core d2)) _ ent2 _ (dr_id d2) _ _ _ _ _ Hs R1)
    as (a2 & cs2 & R2 & Ha2).
  split.
  - intros d2' H2. rewrite apply_batches_log, <- Hlog in H2.
    apply for_each_applied in H2 as (_ & (cs2' & R2' & _) & X2).
    rewrite R2 in R2'. injection R2' as -> _. split; [done|]. rewrite X1, X2.
    destruct (last (sorted_log batches1)) eqn:E; [done|]. by apply last_None in E.
  - intros Hp. rewrite apply_batches_log, <- Hlog. by eapply for_each_applies.
Qed.

(** C30: A proposed event comes back.  On a started replica that is not ephemeral, the
    event of a command is appended to what the replica proposes, after the actor's
    commands were stashed; the proposals go to Raft in the order they were made; and
    any replica that applies a committed entry with that proposal applies exactly
    that event, and owns it exactly when it is the replica that proposed it. *)
Theorem event_proposed_and_committed command_ent event_ent m (d : Drv) a o ev :
  dr_driver_state d = DriverStarted → dr_is_ephemeral d = false →
  on_process_command (core_context (dr_core d)) command_ent (app_command <$> m) (dr_actor d)
  = Returned (a, Ok o) →
  co_event o = Some ev → proposed_entry (dr_id d) ev ≠ [] →
  ∃ d', process_deliver_app_message command_ent event_ent m d = Returned (d', Ok ()) ∧
    dr_actor d' = a ∧ dr_raft d' = dr_raft d ∧
    dr_messages d' = dr_messages d ++ map command_message (co_commands o) ∧
    dc_proposals (dr_core d') = dc_proposals (dr_core d) ++ [proposed_entry (dr_id d) ev] ∧
    (∀ raft, ofold propose (dr_raft d') (dc_proposals (dr_core d')) = Return raft →
       ∃ d'', process_actor_raft_proposals d' = Returned (d'', Ok ()) ∧ dr_raft d'' = raft ∧
         dc_proposals (dr_core d'') = []) ∧
    ∀ ent e (replica : Drv), entry_data e = proposed_entry (dr_id d) ev →
      entry_type e ≠ EntryConfChange →
      apply_committed_entry ent e replica =
      (o ← on_actor (on_apply_event (core_context (dr_core replica)) (ent (entry_index e))
              {| ec_index := entry_index e; ec_owned := bool_decide (dr_id d = dr_id replica) |} ev);
       for_each stash_command (eo_commands o)) (at_index (entry_index e) replica).
Proof.
  intros Hst Hep Hcmd Hev Hne.
  unfold process_deliver_app_message, check_driver_started, check_driver_state.
  unfold mbind at 1, method_bind at 1. unfold mbind at 1, method_bind at 1, get_self at 1.
  rewrite decide_False by (intros Hx; by apply Hx). simpl.
  rewrite (mbind_Returned_l get_self _ d d d) by done.
  rewrite (mbind_Returned_l _ _ d (set_driver_actor a d) o)
    by (unfold on_actor; change (λ m0, _) with app_command; by rewrite Hcmd).
  erewrite mbind_Returned_l by apply for_each_stash_command.
  rewrite Hev, Hep. eexists. split; [reflexivity|].
  split_and!; try done; simpl.
  - intros raft Hraft. unfold process_actor_raft_proposals.
    erewrite mbind_Returned_l by done. simpl.
    erewrite mbind_Returned_l by done. rewrite for_each_proposals. simpl.
    rewrite Hraft. eexists. by split_and!.
  - intros ent e replica Hd Ht. apply apply_event_entry. by apply proposed_entry_event.
Qed.

(** An ephemeral replica applies at once.  On a started ephemeral replica the
    event of a command is applied right away, owned and at index zero, and nothing is
    proposed; the commands of the command are stashed before those of the event. *)
Theorem ephemeral_applies_at_once command_ent event_ent m (d : Drv) a o ev a' o' :
  dr_driver_state d = DriverStarted → dr_is_ephemeral d = true →
  on_process_command (core_context (dr_core d)) command_ent (app_command <$> m) (dr_actor d)
  = Returned (a, Ok o) →
  co_event o = Some ev →
  on_apply_event (core_context (dr_core d)) event_ent {| ec_index := 0; ec_owned := true |} ev a
  = Returned (a', Ok o') →
  process_deliver_app_message command_ent event_ent m d
  = Returned (set_driver_messages (dr_messages d ++
      map command_message (co_commands o ++ eo_commands o')) (set_driver_actor a' d), Ok ()).
Proof.
  intros Hst Hep Hcmd Hev Happ.
  unfold process_deliver_app_message, check_driver_started, check_driver_state.
  unfold mbind at 1, method_bind at 1. unfold mbind at 1, method_bind at 1, get_self at 1.
  rewrite decide_False by (intros Hx; by apply Hx). simpl.
  rewrite (mbind_Returned_l get_self _ d d d) by done.
  rewrite (mbind_Returned_l _ _ d (set_driver_actor a d) o)
    by (unfold on_actor; change (λ m0, _) with app_command; by rewrite Hcmd).
  erewrite mbind_Returned_l by apply for_each_stash_command.
  rewrite Hev, Hep.
  erewrite mbind_Returned_l by (unfold on_actor; cbn; by rewrite Happ).
  rewrite for_each_stash_command. simpl. by rewrite map_app, app_assoc.
Qed.
End claims.

(** ** With the communication module of the runtime *)

Section channels.
Context {OS : OakSession} {R St P Sd Rc A Ent S X : Type}.
Context `{HRaft : !Raft R St, HStore : !Store St, HSender : !SnapshotSender Sd,
          HReceiver : !SnapshotReceiver Rc, HProc : !SnapshotProcessor P Sd Rc,
          HActor : !Actor Ent A}.
Context `{HMsg : !ProtoCodec RaftMessage, HChange : !ProtoCodec RaftConfigChange,
          HEntry : !ProtoCodec Entry}.
Context `{HSession : !HandshakeSession S X, HEncryptor : !Encryptor X, HHash : !HashOrder Z}.
Variable create_store : Z → St.
Variable snapshot_is_empty : RaftSnapshot → bool.
Variable request_fuel : nat.
Variable session_provider_get : Z → Z → Role → S.
Hypothesis provider_ok : ∀ self peer role, session_ok (session_provider_get self peer role).

#[local] Instance default_communication : CommunicationModule DefaultCommunicationModule :=
  DefaultCommunicationModule_impl session_provider_get.

Lemma comm_step_run c c' :
  comm_step c c' → (∃ inputs, comm_run session_provider_get inputs c) →
  ∃ inputs, comm_run session_provider_get inputs c'.
Proof.
  intros Hstep [inputs Hrun].
  inversion Hstep as [? id config|? message ? r Heq|? message ? r Heq|? ids|]; subst.
  - exists inputs. by apply run_init.
  - eexists. eapply run_out; [exact Hrun|exact Heq].
  - exists inputs. eapply run_in; [exact Hrun|exact Heq].
  - exists inputs. by apply run_cluster_change.
  - exists inputs. by apply run_tick.
Qed.

(** What a call hands out: the driver's own messages, then those that its communication
    module has ready after a run. *)
Lemma call_outputs raft snapshot actor d ent logs instant opt_message d' sent :
  driver_reachable create_store snapshot_is_empty request_fuel raft snapshot actor comm_new d →
  in_u64 instant →
  receive_message create_store snapshot_is_empty request_fuel ent logs instant opt_message d
  = Returned (d', Ok (Some sent)) →
  ∃ own inputs c c' peers, sent = own ++ peers ∧ Forall local_out own ∧
    comm_run session_provider_get inputs c ∧ comm_take_out_messages c = Return (c', peers).
Proof.
  intros Hd Hi Hr. pose (I c := ∃ inputs, comm_run session_provider_get inputs c).
  apply (driver_reachable_inv _ _ _ I) in Hd.
  2: apply comm_step_run.
  2: { intros c c' out Ht [inputs Hrun]. exists inputs. eapply run_take; [exact Hrun|exact Ht]. }
  2: { exists []. apply run_new. }
  pose proof (mwp_Returned _ _ _ _ _ _
    (receive_message_sent create_store snapshot_is_empty request_fuel ent logs instant opt_message d)
    Hr) as (d1 & c & out & H1 & Ht & -> & _).
  apply (driver_inv_preset I instant d Hi) in Hd.
  destruct (driver_inv_steps I _ _ _ comm_step_run H1 Hd) as [_ Hlocal _ _ [inputs Hrun]].
  exists (dr_messages d1), inputs, (dr_communication d1), c, out. by split_and!.
Qed.

(** C4: Nothing between replicas leaves in the clear.  Whatever messages and times a
    driver with the runtime's communication module was given, what a call hands to
    the host is the driver's own answers, application messages and logs, followed
    by handshake messages and by messages encrypted under the encryptor of a
    completed handshake session with the peer they are for: no Raft message and no
    snapshot leaves unencrypted. *)
Theorem driver_outputs_protected raft snapshot actor d ent logs instant opt_message d' sent :
  driver_reachable create_store snapshot_is_empty request_fuel raft snapshot actor comm_new d →
  in_u64 instant →
  receive_message create_store snapshot_is_empty request_fuel ent logs instant opt_message d
  = Returned (d', Ok (Some sent)) →
  ∃ own peers inputs c, sent = own ++ peers ∧ Forall local_out own ∧
    comm_run session_provider_get inputs c ∧
    Forall (λ o, ∃ id st, cm_replicas c !! id = Some st ∧ out_ok (.∈ inputs) id st o) peers.
Proof.
  intros Hd Hi Hr.
  destruct (call_outputs _ _ _ _ _ _ _ _ _ _ Hd Hi Hr)
    as (own & inputs & c & c' & peers & -> & Hown & Hrun & Ht).
  exists own, peers, inputs, c. split_and!; [done..|].
  apply (comm_run_ok session_provider_get provider_ok) in Hrun.
  destruct (comm_take_ok _ _ Hrun) as (c2 & out & Ht' & _ & Hout).
  rewrite Ht' in Ht. by injection Ht as _ <-.
Qed.
End channels.

(** ** With the snapshot processor of the runtime *)

Section snapshots.
Context {OS : OakSession} {R St A Ent C : Type}.
Context `{HRaft : !Raft R St, HStore : !Store St, HActor : !Actor Ent A, HComm : !CommunicationModule C}.
Context `{HMsg : !ProtoCodec RaftMessage, HChange : !ProtoCodec RaftConfigChange,
          HEntry : !ProtoCodec Entry, HReq : !ProtoCodec RequestPayload,
          HResp : !ProtoCodec ResponsePayload, HMeta : !ProtoCodec RaftSnapshotMetadata,
          HHash : !HashOrder Z}.
Variable create_store : Z → St.
Variable snapshot_is_empty : RaftSnapshot → bool.
Variable request_fuel : nat.

#[local] Abbreviation Processor :=
  (@DefaultSnapshotProcessor DefaultSnapshotSender DefaultSnapshotReceiver).
#[local] Abbreviation Drv := (@Driver OS R Processor A C).

(** C35: The loop over snapshot requests ends and asks for the right chunks.  For a sender
    reached through its own operations, one more iteration than [max_pending_chunks] is enough
    for the loop of the driver that takes all requests: it returns; the requests it took are,
    under consecutive delivery ids, exactly those for the chunks that are newly in flight, each
    with the index and the contents of its chunk of the snapshot for that receiver; what was in
    flight stays so; and the loop stopped because [max_pending_chunks] chunks are in flight or
    no transfer has a chunk left. *)
Theorem snapshot_requests_drained fuel s :
  sender_reachable s → snd_max_pending_chunks s < Z.of_nat fuel →
  snd_next_delivery_id s + snd_max_pending_chunks s < two64 - 1 →
  ∃ s' requests, take_requests fuel s [] = Returned (s', requests) ∧ sender_reachable s' ∧
    (∀ request, request ∈ requests ↔ newly_in_flight s s' request) ∧
    req_delivery_id <$> requests = seqZ (snd_next_delivery_id s) (zlen requests) ∧
    transfers_extend s s' ∧
    in_flight (snd_receivers s') = in_flight (snd_receivers s) + zlen requests ∧
    (in_flight (snd_receivers s') = snd_max_pending_chunks s ∨
     map_Forall (λ _ st, ¬ has_next st) (snd_receivers s')).
Proof.
  intros Hs Hfuel Hids. pose proof (in_flight_nonneg (snd_receivers s)) as Hnn.
  destruct (take_requests_spec fuel s [] Hs) as (s' & requests & Ht & H); [lia..|]. by exists s', requests.
Qed.

(** A call before the start request makes the application panic: the snapshot
    processor has no role yet. *)
Lemma unstarted_tick_panics raft sender receiver actor communication ent logs instant :
  raft_initialized raft = false →
  receive_message create_store snapshot_is_empty request_fuel ent logs instant None
    (driver_new raft (processor_new sender receiver : Processor) actor communication : Drv)
  = Panicked.
Proof.
  intros Hr. unfold receive_message.
  erewrite (mbind_Returned_l (preset_state_machine instant)) by reflexivity.
  apply mbind_Panicked_l. unfold process_and_send.
  do 3 erewrite mbind_Returned_l by reflexivity. apply mbind_Panicked_l. unfold dr_is_ephemeral at 1. cbn.
  erewrite (mbind_Returned_l process_actor_raft_proposals) by reflexivity.
  erewrite (mbind_Returned_l process_snapshot_progress) by reflexivity.
  erewrite (mbind_Returned_l (process_state_machine _ _)); last first.
  { unfold process_state_machine. erewrite mbind_Returned_l by reflexivity.
  cbn. rewrite Hr. reflexivity. }
  reflexivity.
Qed.
End snapshots.

(** ** Replicated actors *)

(** The counters do not depend on the replica that applies an event. *)
#[global] Instance counter_replicated in_decode config_decode `{!ProtoCodec CounterRequest,
    !ProtoCodec AtomicCounterOutMessage, !ProtoCodec CounterSnapshot} :
  ReplicatedActor (HActor := CounterActor_Actor in_decode config_decode) eq.
Proof.
  intros ctx1 ctx2 ent1 ent2 c1 c2 event a1 a2 a1' o1 <-. simpl. unfold counter_on_apply_event.
  intros (b1 & req & H1 & H)%method_bind_Returned.
  apply method_bind_Returned in H as (b2 & op & H2 & H).
  apply method_bind_Returned in H as (b3 & resp & H3 & H).
  rewrite (mbind_Returned_l _ _ _ _ _ H1), (mbind_Returned_l _ _ _ _ _ H2),
    (mbind_Returned_l _ _ _ _ _ H3).
  assert (b3 = a1') as -> by (by destruct (ec_owned c1); injection H as <- _).
  destruct (ec_owned c2); eexists _, _; by split.
Qed.

(** * A concrete runtime *)

Section runtime.
#[local] Existing Instances comm_sample_oak_session comm_sample_client_handshaker
  comm_sample_server_handshaker comm_sample_hash_order sample_session_impl
  request_payload_codec response_payload_codec snapshot_metadata_codec
  counter_request_codec counter_out_codec counter_snapshot_codec.
#[local] Instance raft_message_codec : ProtoCodec RaftMessage := countable_codec _.
#[local] Instance config_change_codec : ProtoCodec RaftConfigChange := countable_codec _.
#[local] Instance entry_codec : ProtoCodec Entry := countable_codec _.

(** A node of a cluster of one: what is proposed is committed by the next ready. *)
Record ToyNode := {
  tn_id : Z;
  tn_store : MemoryStorageCore;
  tn_last : Z;
  tn_queue : list RaftEntry
}.

#[local] Instance toy_raw_node : RawNode ToyNode MemoryStorageCore (list RaftEntry) :=
  {| node_new config store :=
       Ok {| tn_id := rlc_id config; tn_store := store; tn_last := 1; tn_queue := [] |};
     node_is_leader _ := true;
     node_leader_id := tn_id;
     node_term _ := 1;
     node_has_pending_conf _ := false;
     node_store := tn_store;
     node_set_store n st :=
       {| tn_id := tn_id n; tn_store := st; tn_last := tn_last n; tn_queue := tn_queue n |};
     node_step n _ := Return (n, Ok ());
     node_propose n p :=
       Return ({| tn_id := tn_id n; tn_store := tn_store n; tn_last := tn_last n + 1;
                  tn_queue := tn_queue n ++ [create_raft_entry (tn_last n + 1) 1 EntryNormal p] |},
               Ok ());
     node_propose_conf_change n _ := Return (n, Err ProposalDropped);
     node_tick n := Return n;
     node_apply_conf_change n _ := Return (n, Err RaftOther);
     node_has_ready n := bool_decide (tn_queue n ≠ []);
     node_ready n :=
       Return ({| tn_id := tn_id n; tn_store := tn_store n; tn_last := tn_last n; tn_queue := [] |},
               tn_queue n,
               {| rr_messages := []; rr_persisted_messages := []; rr_entries := tn_queue n;
                  rr_committed_entries := []; rr_hard_state := None;
                  rr_snapshot := {| snap_data := []; snap_metadata := None |}; rr_number := 1 |});
     node_advance n ready := Return (n, {| rl_messages := []; rl_committed_entries := ready |});
     node_advance_apply n := Return n;
     node_report_snapshot n _ _ := Return n |}.

#[local] Instance toy_counter : Actor unit CounterActor :=
  CounterActor_Actor (λ _, Some {| ci_msg := Some sample_cas |})
    (λ _, Some {| cc_initial_values := ∅ |}).

#[local] Instance toy_communication :
    CommunicationModule (@DefaultCommunicationModule _ SampleSession DefaultEncryptor) :=
  DefaultCommunicationModule_impl sample_provider.

Definition toy_is_empty (s : RaftSnapshot) : bool :=
  match snap_metadata s with Some m => bool_decide (md_index m = 0) | None => true end.

Definition ToyDriver : Type :=
  @Driver _ (@RaftSimple ToyNode (list RaftEntry))
    (@DefaultSnapshotProcessor DefaultSnapshotSender DefaultSnapshotReceiver) CounterActor
    (@DefaultCommunicationModule _ SampleSession DefaultEncryptor).

Definition toy_driver : ToyDriver :=
  driver_new raft_simple_new (processor_new sender_new receiver_new) counter_new comm_new.

Definition toy_entropy : @DriverEntropy unit := {| de_command := (); de_event := λ _, () |}.

#[local] Abbreviation toy_call :=
  (receive_message storage_new toy_is_empty 20 toy_entropy []).

Definition toy_start : InMsg :=
  InStartReplica {| srr_is_leader := true; srr_replica_id_hint := 1; srr_raft_config := None;
                    srr_app_config := []; srr_attestation_config := None;
                    srr_is_ephemeral := false |}.

Definition toy_command : DeliverAppMessage :=
  {| app_correlation_id := 3; app_message_header := []; app_message_payload := [] |}.

Definition after {X} (r : exec (ToyDriver * X)) : ToyDriver :=
  match r with Returned (d, _) => d | _ => toy_driver end.

Definition toy_started : ToyDriver := after (toy_call 10 (Some (Some toy_start)) toy_driver).

#[local] Abbreviation toy_commanded :=
  (toy_call 20 (Some (Some (InDeliverAppMessage toy_command))) toy_started).

Lemma toy_started_reachable :
  driver_reachable storage_new toy_is_empty 20 raft_simple_new
    (processor_new sender_new receiver_new) counter_new comm_new toy_started.
Proof.
  eapply (reach_call storage_new toy_is_empty 20 _ _ _ _ toy_driver toy_entropy [] 10
    (Some (Some toy_start)) toy_started (Ok (Some [{| out_msg := Some (OutStartReplica 1) |}])));
    [apply reach_new|done|vm_compute; reflexivity].
Qed.

(** A stop request with an old time. *)
#[local] Abbreviation toy_stopped := (toy_call 5 (Some (Some InStopReplica)) toy_started).

Definition sends {X Y} (r : exec (ToyDriver * result X (option Y))) : bool :=
  match r with Returned (_, Ok (Some _)) => true | _ => false end.

Lemma toy_stopped_sends : sends toy_stopped = true.
Proof. by vm_compute. Qed.

Lemma toy_commanded_sends : sends toy_commanded = true.
Proof. by vm_compute. Qed.

Lemma driver_lifecycle_witness :
  match toy_stopped with
  | Returned (d', Ok (Some _)) => dr_instant d' = Z.max (dr_instant toy_started) 5 ∧ dr_messages d' = []
  | _ => False
  end.
Proof.
  assert (in_u64 5) as H5 by done. pose proof toy_stopped_sends as Hok.
  destruct toy_stopped as [[d' [[sent|]|]]| |] eqn:E; [|discriminate Hok..].
  destruct (driver_lifecycle storage_new toy_is_empty 20 raft_simple_new
    (processor_new sender_new receiver_new) counter_new comm_new toy_started toy_entropy [] 5
    (Some (Some InStopReplica)) d' (Ok (Some sent)) toy_started_reachable H5 E) as (H1 & _ & _ & _ & _ & _ & _ & _ & H2).
  split; [exact H1|exact (H2 sent eq_refl)].
Defined.

(** A second start request. *)
Lemma refused_without_effect_witness :
  toy_call 11 (Some (Some toy_start)) toy_started
  = Returned (preset 11 toy_started, Err PalInvalidOperation).
Proof. apply refused_without_effect. vm_compute. discriminate. Defined.

(** A command that the single replica proposes, commits and answers in one call. *)
Lemma driver_outputs_protected_witness :
  match toy_commanded with
  | Returned (_, Ok (Some sent)) =>
      ∃ own peers inputs c, sent = own ++ peers ∧ Forall local_out own ∧
        comm_run sample_provider inputs c ∧
        Forall (λ o, ∃ id st, cm_replicas c !! id = Some st ∧ out_ok (.∈ inputs) id st o) peers
  | _ => False
  end.
Proof.
  assert (in_u64 20) as H20 by done. pose proof toy_commanded_sends as Hok.
  destruct toy_commanded as [[d' [[sent|]|]]| |] eqn:E; [|discriminate Hok..].
  exact (driver_outputs_protected storage_new toy_is_empty 20 sample_provider sample_provider_ok
    raft_simple_new (processor_new sender_new receiver_new) counter_new toy_started toy_entropy []
    20 (Some (Some (InDeliverAppMessage toy_command))) d' sent toy_started_reachable H20 E).
Defined.

Lemma snapshot_requests_drained_witness :
  ∃ s' requests, take_requests 3 sample_sender1 [] = Returned (s', requests) ∧
    in_flight (snd_receivers s') = zlen requests ∧ zlen requests = 2.
Proof.
  destruct (snapshot_requests_drained 3 sample_sender1 sample_sender1_reachable
    ltac:(done) ltac:(done)) as (s' & requests & H1 & _ & _ & _ & _ & H2 & _).
  exists s', requests. split; [exact H1|]. split; [exact H2|].
  vm_compute in H1. by injection H1 as _ <-.
Defined.

(** The proposal of a compare-and-swap, as it is committed. *)
Definition toy_event : ActorEvent := event_with_proto 3 sample_cas.

Definition toy_entry (index proposer : Z) : RaftEntry :=
  create_raft_entry index 1 EntryNormal (proposed_entry proposer toy_event).

(** The first replica gets the log as one batch in the wrong order, the second as two
    batches after an empty entry. *)
Definition toy_batches1 : list (list RaftEntry) :=
  [[toy_entry 3 2; toy_entry 2 1; create_empty_raft_entry 1 1]].

Definition toy_batches2 : list (list RaftEntry) :=
  [[create_empty_raft_entry 1 1]; [toy_entry 2 1; toy_entry 3 2]].

Definition toy_replica (id : Z) : ToyDriver := set_driver_id id toy_started.

Lemma toy_replica_actor id : dr_actor (toy_replica id) = dr_actor toy_started.
Proof. unfold toy_replica, set_driver_id, dr_actor. reflexivity. Qed.

Definition succeeds {X Y} (r : exec (ToyDriver * result X Y)) : bool :=
  match r with Returned (_, Ok _) => true | _ => false end.

#[local] Abbreviation toy_run1 :=
  (apply_batches (λ _ : Z, ()) toy_batches1 (toy_replica 1)).

Lemma toy_run1_ok : succeeds toy_run1 = true.
Proof. by vm_compute. Qed.

Lemma toy_log_plain : Forall plain_entry (sorted_log toy_batches1).
Proof.
  assert (sorted_log toy_batches1
    = [create_empty_raft_entry 1 1; toy_entry 2 1; toy_entry 3 2]) as ->
    by (vm_compute; reflexivity).
  constructor; [by left|].
  repeat (constructor; [right; eexists; vm_compute; reflexivity|]). constructor.
Qed.

Lemma replicas_apply_same_log_witness :
  ∃ d1 d2, toy_run1 = Returned (d1, Ok ()) ∧
    apply_batches (λ _ : Z, ()) toy_batches2 (toy_replica 2) = Returned (d2, Ok ()) ∧
    dr_actor d1 = dr_actor d2 ∧
    rp_applied_index (dr_raft_progress d1) = rp_applied_index (dr_raft_progress d2).
Proof.
  pose proof toy_log_plain as Hp. pose proof toy_run1_ok as Hok.
  assert (sorted_log toy_batches1 = sorted_log toy_batches2) as Hlog by (vm_compute; reflexivity).
  assert (sorted_log toy_batches1 ≠ []) as Hne by (vm_compute; discriminate).
  assert (dr_actor (toy_replica 1) = dr_actor (toy_replica 2)) as Hs
    by (rewrite !toy_replica_actor; exact eq_refl).
  destruct toy_run1 as [[d1 [[]|]]| |] eqn:E; [|discriminate Hok..].
  destruct (replicas_apply_same_log eq (λ _, ()) (λ _, ()) toy_batches1 toy_batches2
    (toy_replica 1) (toy_replica 2) d1 Hs Hlog Hne E) as [H1 H2].
  destruct (H2 Hp) as [d2 Hd2]. destruct (H1 d2 Hd2) as [Ha Hi].
  exists d1, d2. split; [exact eq_refl|]. split; [exact Hd2|]. split; [exact Ha|exact Hi].
Defined.

(** The started replica in its next call, where it knows that it leads. *)
Definition toy_leader : ToyDriver := preset 20 toy_started.

Lemma toy_processed :
  on_process_command (core_context (dr_core toy_leader)) () (app_command <$> Some toy_command)
    (dr_actor toy_leader)
  = Returned (dr_actor toy_leader, Ok (co_with_event toy_event)).
Proof. vm_compute. reflexivity. Qed.

Lemma event_proposed_and_committed_witness :
  ∃ d', process_deliver_app_message () () (Some toy_command) toy_leader = Returned (d', Ok ()) ∧
    dc_proposals (dr_core d') = dc_proposals (dr_core toy_leader) ++ [proposed_entry 1 toy_event].
Proof.
  assert (dr_driver_state toy_leader = DriverStarted) as H1 by (vm_compute; reflexivity).
  assert (dr_is_ephemeral toy_leader = false) as H2 by (vm_compute; reflexivity).
  assert (dr_id toy_leader = 1) as H3 by (vm_compute; reflexivity).
  assert (proposed_entry (dr_id toy_leader) toy_event ≠ []) as H4
    by (rewrite H3; vm_compute; discriminate).
  destruct (event_proposed_and_committed () () (Some toy_command) toy_leader
    (dr_actor toy_leader) (co_with_event toy_event) toy_event H1 H2 toy_processed eq_refl H4)
    as (d' & E1 & _ & _ & _ & E2 & _).
  exists d'. split; [exact E1|]. rewrite H3 in E2. exact E2.
Defined.

(** The same replica, as if it had been started as an ephemeral one. *)
Definition toy_ephemeral : ToyDriver := set_is_ephemeral true toy_leader.

Definition toy_swapped :=
  match on_apply_event (core_context (dr_core toy_ephemeral)) ()
          {| ec_index := 0; ec_owned := true |} toy_event (dr_actor toy_leader) with
  | Returned (a, Ok o) => (a, o)
  | _ => (counter_new, eo_with_none)
  end.

Lemma ephemeral_applies_at_once_witness :
  match process_deliver_app_message () () (Some toy_command) toy_ephemeral with
  | Returned (d', Ok _) => counter_view (dr_actor d') "a" = 5 ∧ length (dr_messages d') = 1%nat
  | _ => False
  end.
Proof.
  assert (dr_driver_state toy_ephemeral = DriverStarted) as H1 by (vm_compute; reflexivity).
  assert (dr_is_ephemeral toy_ephemeral = true) as H2 by (vm_compute; reflexivity).
  assert (on_process_command (core_context (dr_core toy_ephemeral)) () (app_command <$> Some toy_command)
    (dr_actor toy_ephemeral) = Returned (dr_actor toy_leader, Ok (co_with_event toy_event))) as H3
    by (vm_compute; reflexivity).
  assert (on_apply_event (core_context (dr_core toy_ephemeral)) ()
    {| ec_index := 0; ec_owned := true |} toy_event (dr_actor toy_leader)
    = Returned (toy_swapped.1, Ok toy_swapped.2)) as H4 by (vm_compute; reflexivity).
  rewrite (ephemeral_applies_at_once () () (Some toy_command) toy_ephemeral
    (dr_actor toy_leader) (co_with_event toy_event) toy_event toy_swapped.1 toy_swapped.2
    H1 H2 H3 eq_refl H4).
  split; vm_compute; reflexivity.
Defined.

(** Entries out of order: the second proposal finds the counter changed. *)
Lemma committed_entries_applied_witness :
  ∃ d', apply_raft_committed_entries (λ _ : Z, ()) [toy_entry 3 2; toy_entry 2 1] (toy_replica 1)
    = Returned (d', Ok ()) ∧ rp_applied_index (dr_raft_progress d') = 3 ∧
    same_replica (toy_replica 1) d'.
Proof.
  destruct (committed_entries_applied (λ _ : Z, ()) [toy_entry 3 2; toy_entry 2 1] (toy_replica 1))
    as (_ & _ & Hsound & _).
  assert (succeeds (apply_raft_committed_entries (λ _ : Z, ()) [toy_entry 3 2; toy_entry 2 1]
    (toy_replica 1)) = true) as Hok by (vm_compute; reflexivity).
  assert (default (rp_applied_index (dr_raft_progress (toy_replica 1))) (entry_index <$>
    last (merge_sort entry_index_le [toy_entry 3 2; toy_entry 2 1])) = 3) as Hlast
    by (vm_compute; reflexivity).
  destruct (apply_raft_committed_entries _ _ (toy_replica 1)) as [[d' [[]|]]| |] eqn:E;
    [|discriminate Hok..].
  destruct (Hsound d' eq_refl) as (H1 & _ & H2).
  exists d'. split; [exact eq_refl|]. split; [rewrite H2; exact Hlast|exact H1].
Defined.
End runtime.
