(* ===== verification/Replication.v ===== *)
(** * Replicated applications

    The ledger meets the condition under which the driver keeps replicas in
    agreement ([DriverTheorems.replicas_apply_same_log]); the counter does so in
    [DriverTheorems]. *)

From S2P Require Import Prelude RaftTypes Storage Endpoint Snapshot Handshake Communication Model Consensus Driver DriverProps.
From S2P Require Import Policy Budget Crypto AppAttestation Ledger LedgerActor.

Section ledger.
Context {ReferenceValues Evidence Endorsements Rng : Type}.
Context `{HCoset : !Coset, HHpke : !Hpke Rng, HAtt : !AttestationLibraries Evidence}.
Variable verify : Z → Evidence → Endorsements → ReferenceValues → bool.
Variable sha256 : bytes → bytes.
Variable blob_header_decode : bytes → option BlobHeader.
Variable policy_decode : bytes → option (@DataAccessPolicy ReferenceValues).
Variable duration_try_from : ProtoDuration → result string Duration.
Variable status_number : StatusCode → Z.
Variable request_decode : bytes → option (@LedgerRequest Evidence Endorsements).
Variable config_decode : bytes → option unit.
Context `{HEv : !ProtoCodec LedgerEvent, HResp : !ProtoCodec (@LedgerResponse Evidence),
          HSnap : !ProtoCodec LedgerSnapshot}.
Hypothesis seal_any_seed : ∀ pk p aad r r',
  is_Some (single_shot_seal pk p aad r) → is_Some (single_shot_seal pk p aad r').

#[local] Instance ledger_actor : Actor LedgerEntropy LedgerActor :=
  LedgerActor_Actor verify sha256 blob_header_decode policy_decode duration_try_from status_number
    request_decode config_decode.

(** The clock, the keys and the budgets do not depend on the replica. *)
Lemma ledger_replicated : ReplicatedActor (HActor := ledger_actor) same_actor.
Proof.
  intros ctx1 ctx2 ent1 ent2 c1 c2 event a1 a2 a1' o1 Hs H.
  pose proof (sync_apply_event blob_header_decode policy_decode status_number seal_any_seed
    ent1 ent2 c1 c2 event a1 a2 Hs) as Hsync.
  unfold on_apply_event, ledger_actor, LedgerActor_Actor in *. rewrite H in Hsync.
  destruct (actor_on_apply_event _ _ _ ent2 c2 event a2) as [[a2' [o2|]]| |]; try done.
  destruct Hsync as [Hs' _]. by exists a2', o2.
Qed.
End ledger.
