(* ===== verification/Cluster.v ===== *)
(** * A cluster of replicas

    [src/integration/src/harness.rs]: platforms that each run a driver behind a host, and the
    cluster that carries the messages between them and keeps what is for the consumer.  The
    parts of a new driver, the nodes of the Raft library among them, are parameters; what the
    calls of a round draw at random and find in the log is an argument. *)

From S2P Require Import Prelude RaftTypes Storage Endpoint F64 Snapshot Handshake Communication Model.
From S2P Require Import Consensus Driver DriverProps.

(** ** Computations that may panic *)

#[global] Instance exec_ret : MRet exec := @Returned.

#[global] Instance exec_bind : MBind exec := λ A B f m,
  match m with Returned a => f a | Panicked => Panicked | Unfinished => Unfinished end.

(** A loop over a list whose body may panic. *)
Fixpoint efold {S A} (f : S → A → exec S) (s : S) (l : list A) : exec S :=
  match l with
  | [] => Returned s
  | x :: l => s' ← f s x; efold f s' l
  end.

(** [Result::unwrap] on a value that is already there. *)
Definition exec_unwrap {A} (o : option A) : exec A :=
  match o with Some a => Returned a | None => Panicked end.

Lemma exec_bind_Returned {A B} (m : exec A) (f : A → exec B) b :
  m ≫= f = Returned b ↔ ∃ a, m = Returned a ∧ f a = Returned b.
Proof. destruct m; simpl; naive_solver. Qed.

Section harness.
Context {OS : OakSession} {R St P Sd Rc A Ent C : Type}.
Context `{HRaft : !Raft R St, HStore : !Store St, HSender : !SnapshotSender Sd,
          HReceiver : !SnapshotReceiver Rc, HProc : !SnapshotProcessor P Sd Rc,
          HActor : !Actor Ent A, HComm : !CommunicationModule C}.
Context `{HMsg : !ProtoCodec RaftMessage, HChange : !ProtoCodec RaftConfigChange,
          HEntry : !ProtoCodec Entry, HHash : !HashOrder Z}.
Variable create_store : Z → St.
Variable snapshot_is_empty : RaftSnapshot → bool.
Variable request_fuel : nat.
(** The parts of a new driver, besides its actor. *)
Variables (raft0 : R) (snapshot0 : P) (communication0 : C).

#[local] Abbreviation Drv := (@Driver OS R P A C).

(** What one call of a driver draws, and the log lines it finds. *)
Abbreviation CallInputs := (@DriverEntropy Ent * list LogMessage)%type.

(** ** The host *)

Record FakeHost := { fh_config : bytes; fh_messages_out : list OutMessage }.

Definition fake_host_new (app_config : bytes) : FakeHost :=
  {| fh_config := app_config; fh_messages_out := [] |}.

Definition fake_host_take_messages_out (h : FakeHost) : FakeHost * list OutMessage :=
  ({| fh_config := fh_config h; fh_messages_out := [] |}, fh_messages_out h).

Definition fake_host_send_messages (h : FakeHost) (messages : list OutMessage) : FakeHost :=
  {| fh_config := fh_config h; fh_messages_out := fh_messages_out h ++ messages |}.

Definition fake_host_public_signing_key (h : FakeHost) : bytes := [].

(** ** Platforms *)

(** An [InMessage] is the option of its contents. *)
Record FakePlatform := {
  fp_id : Z;
  fp_messages_in : list (option InMsg);
  fp_instant : Z;
  fp_driver : Drv;
  fp_host : FakeHost
}.

Definition fake_platform_new (id : Z) (app_config : bytes) (actor : A) : FakePlatform :=
  {| fp_id := id; fp_messages_in := []; fp_instant := 0;
     fp_driver := driver_new raft0 snapshot0 actor communication0;
     fp_host := fake_host_new app_config |}.

Definition append_message_in (message_in : option InMsg) (p : FakePlatform) : FakePlatform :=
  {| fp_id := fp_id p; fp_messages_in := fp_messages_in p ++ [message_in];
     fp_instant := fp_instant p; fp_driver := fp_driver p; fp_host := fp_host p |}.

Definition send_start_node (app_config : bytes) (is_leader : bool) (p : FakePlatform) : FakePlatform :=
  append_message_in (Some (InStartReplica
    {| srr_is_leader := is_leader;
       srr_replica_id_hint := fp_id p;
       srr_raft_config := Some
         {| rc_tick_period := 10; rc_election_tick := 20; rc_heartbeat_tick := 2;
            rc_max_size_per_msg := 0;
            rc_snapshot_config := Some
              {| cfg_snapshot_count := 1000; cfg_chunk_size := 20; cfg_max_pending_chunks := 2 |};
            rc_handshake_retry_tick := 1 |};
       srr_app_config := app_config;
       srr_attestation_config := None;
       srr_is_ephemeral := false |})) p.

Definition send_stop_node (p : FakePlatform) : FakePlatform :=
  append_message_in (Some InStopReplica) p.

Definition send_change_cluster (change_id replica_id change_type : Z) (p : FakePlatform)
    : FakePlatform :=
  append_message_in (Some (InChangeCluster
    {| ccr_change_id := change_id; ccr_replica_id := replica_id; ccr_change_type := change_type |})) p.

Definition send_check_cluster (p : FakePlatform) : FakePlatform :=
  append_message_in (Some InCheckCluster) p.

Definition platform_send_app_message (correlation_id : Z) (header payload : bytes) (p : FakePlatform)
    : FakePlatform :=
  append_message_in (Some (InDeliverAppMessage
    {| app_correlation_id := correlation_id; app_message_header := header;
       app_message_payload := payload |})) p.

Definition advance_time (duration : Z) (p : FakePlatform) : FakePlatform :=
  {| fp_id := fp_id p; fp_messages_in := fp_messages_in p;
     fp_instant := fp_instant p +₆₄ duration; fp_driver := fp_driver p; fp_host := fp_host p |}.

(** One call of the driver with the platform's host; an error is unwrapped. *)
Definition platform_call (inputs : CallInputs) (opt_message : option (option InMsg))
    (p : FakePlatform) : exec FakePlatform :=
  match receive_message create_store snapshot_is_empty request_fuel inputs.1 inputs.2 (fp_instant p)
          opt_message (fp_driver p) with
  | Returned (driver, Ok sent) =>
      Returned
        {| fp_id := fp_id p; fp_messages_in := fp_messages_in p; fp_instant := fp_instant p;
           fp_driver := driver;
           fp_host := match sent with
                      | Some messages => fake_host_send_messages (fp_host p) messages
                      | None => fp_host p
                      end |}
  | Returned (_, Err _) => Panicked
  | Panicked => Panicked
  | Unfinished => Unfinished
  end.

(** The calls of a list of messages; [env] has the inputs of each. *)
Fixpoint platform_calls (env : nat → CallInputs) (messages : list (option InMsg)) (p : FakePlatform)
    : exec FakePlatform :=
  match messages with
  | [] => Returned p
  | message :: messages =>
      p ← platform_call (env 0%nat) (Some message) p;
      platform_calls (λ n, env (S n)) messages p
  end.

Definition send_messages_in (env : nat → CallInputs) (p : FakePlatform) : exec FakePlatform :=
  let messages := fp_messages_in p in
  let p := {| fp_id := fp_id p; fp_messages_in := []; fp_instant := fp_instant p;
              fp_driver := fp_driver p; fp_host := fp_host p |} in
  match messages with
  | [] => platform_call (env 0%nat) None p
  | _ => platform_calls env messages p
  end.

Definition platform_take_messages_out (p : FakePlatform) : FakePlatform * list OutMessage :=
  let '(host, messages_out) := fake_host_take_messages_out (fp_host p) in
  ({| fp_id := fp_id p; fp_messages_in := fp_messages_in p; fp_instant := fp_instant p;
      fp_driver := fp_driver p; fp_host := host |}, messages_out).

(** ** The cluster *)

Record FakeCluster := {
  fc_app_config : bytes;
  fc_advance_step : Z;
  fc_platforms : gmap Z FakePlatform;
  fc_leader_id : Z;
  fc_pull_messages : list OutMessage
}.

Definition cluster_with (c : FakeCluster) (platforms : gmap Z FakePlatform) (leader_id : Z)
    (pull_messages : list OutMessage) : FakeCluster :=
  {| fc_app_config := fc_app_config c; fc_advance_step := fc_advance_step c;
     fc_platforms := platforms; fc_leader_id := leader_id; fc_pull_messages := pull_messages |}.

Definition set_platforms (platforms : gmap Z FakePlatform) (c : FakeCluster) : FakeCluster :=
  cluster_with c platforms (fc_leader_id c) (fc_pull_messages c).

Definition set_leader_id (leader_id : Z) (c : FakeCluster) : FakeCluster :=
  cluster_with c (fc_platforms c) leader_id (fc_pull_messages c).

Definition set_pull_messages (pull_messages : list OutMessage) (c : FakeCluster) : FakeCluster :=
  cluster_with c (fc_platforms c) (fc_leader_id c) pull_messages.

Definition fake_cluster_new (app_config : bytes) : FakeCluster :=
  {| fc_app_config := app_config; fc_advance_step := 100; fc_platforms := ∅; fc_leader_id := 0;
     fc_pull_messages := [] |}.

Definition cluster_leader_id (c : FakeCluster) : Z := fc_leader_id c.

Definition non_leader_id (c : FakeCluster) : exec Z :=
  exec_unwrap (snd <$> list_find (λ id, id ≠ fc_leader_id c) (hash_iter (fc_platforms c)).*1).

(** [get_mut(&node_id).unwrap()] and a call on the platform. *)
Definition on_platform (node_id : Z) (f : FakePlatform → FakePlatform) (c : FakeCluster)
    : exec FakeCluster :=
  p ← exec_unwrap (fc_platforms c !! node_id);
  Returned (set_platforms (<[node_id := f p]> (fc_platforms c)) c).

Definition send_app_message (node_id correlation_id : Z) (header payload : bytes)
    : FakeCluster → exec FakeCluster :=
  on_platform node_id (platform_send_app_message correlation_id header payload).

Definition start_node (node_id : Z) (leader : bool) (actor : A) (c : FakeCluster) : exec FakeCluster :=
  let c := set_platforms
             (<[node_id := fake_platform_new node_id (fc_app_config c) actor]> (fc_platforms c)) c in
  on_platform node_id (send_start_node (fc_app_config c) leader) c.

Definition stop_node (node_id : Z) (c : FakeCluster) : FakeCluster :=
  let c := set_platforms (delete node_id (fc_platforms c)) c in
  if decide (fc_leader_id c = node_id) then set_leader_id 0 c else c.

(** *** A round *)

(** The replica that a message between replicas is for, and the message as it arrives. *)
Definition route (message_out : OutMessage) : option (Z * InMsg) :=
  match out_msg message_out with
  | Some (OutDeliverSystemMessage m) =>
      Some (dsm_recipient_replica_id m, InDeliverSystemMessage m)
  | Some (OutDeliverSnapshotRequest m) =>
      Some (req_recipient_replica_id m, InDeliverSnapshotRequest m)
  | Some (OutDeliverSnapshotResponse m) =>
      Some (resp_recipient_replica_id m, InDeliverSnapshotResponse m)
  | Some (OutSecureChannelHandshake m) =>
      Some (sch_recipient_replica_id m, InSecureChannelHandshake m)
  | _ => None
  end.

(** The messages for replicas so far and those for the consumer so far. *)
Definition collect_message (acc : list (Z * InMsg) * list OutMessage) (message_out : OutMessage)
    : list (Z * InMsg) * list OutMessage :=
  match route message_out with
  | Some message_in => (acc.1 ++ [message_in], acc.2)
  | None => (acc.1, acc.2 ++ [message_out])
  end.

Definition collect_platform (acc : FakeCluster * list (Z * InMsg)) (entry : Z * FakePlatform)
    : FakeCluster * list (Z * InMsg) :=
  let '(c, messages_in) := acc in
  let '(id, platform) := entry in
  let '(platform, messages_out) := platform_take_messages_out platform in
  let '(messages_in, pull_messages) :=
    foldl collect_message (messages_in, fc_pull_messages c) messages_out in
  (set_pull_messages pull_messages (set_platforms (<[id := platform]> (fc_platforms c)) c),
   messages_in).

Definition collect_messages (c : FakeCluster) : FakeCluster * list (Z * InMsg) :=
  foldl collect_platform (c, []) (hash_iter (fc_platforms c)).

(** A message for a replica that is not there is dropped. *)
Definition deliver_message (c : FakeCluster) (message : Z * InMsg) : FakeCluster :=
  let '(recipient_replica_id, message_in) := message in
  match fc_platforms c !! recipient_replica_id with
  | Some platform =>
      set_platforms (<[recipient_replica_id := append_message_in (Some message_in) platform]>
                       (fc_platforms c)) c
  | None => c
  end.

Definition run_platform (env : Z → nat → CallInputs) (c : FakeCluster) (entry : Z * FakePlatform)
    : exec FakeCluster :=
  let '(id, platform) := entry in
  platform ← send_messages_in (env id) (advance_time (fc_advance_step c) platform);
  Returned (set_platforms (<[id := platform]> (fc_platforms c)) c).

Definition run_platforms (env : Z → nat → CallInputs) (c : FakeCluster) : exec FakeCluster :=
  efold (run_platform env) c (hash_iter (fc_platforms c)).

(** The loop over the messages for the consumer: what the filter takes out, in order, and
    what stays.  The filter may change the state it has captured. *)
Fixpoint extract_loop {F} (filter : F → OutMessage → F * bool) (f : F) (messages : list OutMessage)
    : F * list OutMessage * list OutMessage :=
  match messages with
  | [] => (f, [], [])
  | message :: messages =>
      let '(f, taken) := filter f message in
      let '(f, result, kept) := extract_loop filter f messages in
      if taken then (f, message :: result, kept) else (f, result, message :: kept)
  end.

Definition extract_pull_messages {F} (filter : F → OutMessage → F * bool) (f : F) (c : FakeCluster)
    : FakeCluster * F * list OutMessage :=
  let '(f, result, kept) := extract_loop filter f (fc_pull_messages c) in
  (set_pull_messages kept c, f, result).

(** A filter that captures nothing. *)
Definition plain_filter (p : OutMessage → bool) (f : unit) (message : OutMessage) : unit * bool :=
  (f, p message).

Definition is_log (message : OutMessage) : bool :=
  match out_msg message with Some (OutLog _) => true | _ => false end.

(** The log messages are taken out and printed. *)
Definition print_log_messages (c : FakeCluster) : FakeCluster :=
  (extract_pull_messages (plain_filter is_log) () c).1.1.

Definition advance (env : Z → nat → CallInputs) (c : FakeCluster) : exec FakeCluster :=
  let '(c, messages_in) := collect_messages c in
  let c := foldl deliver_message c messages_in in
  c ← run_platforms env c;
  Returned (print_log_messages c).

(** *** Rounds until something happens *)

(** [envs] has the inputs of each round; the loop does not end by itself. *)
Fixpoint advance_until {F} (fuel : nat) (envs : nat → Z → nat → CallInputs)
    (condition : F → OutMessage → F * bool) (f : F) (c : FakeCluster)
    : exec (FakeCluster * F * list OutMessage) :=
  match fuel with
  | O => Unfinished
  | S fuel =>
      c ← advance (envs 0%nat) c;
      let '(c, f, pull_messages) := extract_pull_messages condition f c in
      match pull_messages with
      | [] => advance_until fuel (λ n, envs (S n)) condition f c
      | _ => Returned (c, f, pull_messages)
      end
  end.

Definition added_to_cluster (node_id : Z) (envelope_out : OutMessage) : bool :=
  match out_msg envelope_out with
  | Some (OutCheckCluster response) =>
      negb (chk_has_pending_changes response) &&
      bool_decide (node_id ∈ chk_cluster_replica_ids response)
  | _ => false
  end.

Definition advance_until_added_to_cluster (fuel : nat) (envs : nat → Z → nat → CallInputs)
    (node_id : Z) (c : FakeCluster) : exec FakeCluster :=
  '(c, _, _) ← advance_until fuel envs (plain_filter (added_to_cluster node_id)) () c;
  Returned c.

Definition add_node_to_cluster (fuel : nat) (envs : nat → Z → nat → CallInputs) (node_id : Z)
    (c : FakeCluster) : exec FakeCluster :=
  c ← on_platform (fc_leader_id c) (send_change_cluster 0 node_id ChangeTypeAddReplica) c;
  advance_until_added_to_cluster fuel envs node_id c.

(** The closure of the search for a leader, with the leader it has captured. *)
Definition elected_leader (excluding_node_id : option Z) (leader_id : Z) (envelope_out : OutMessage)
    : Z * bool :=
  match out_msg envelope_out with
  | Some (OutCheckCluster response) =>
      if decide (chk_leader_replica_id response = 0) then (leader_id, false)
      else if decide (excluding_node_id = Some (chk_leader_replica_id response))
      then (leader_id, false)
      else (chk_leader_replica_id response, true)
  | _ => (leader_id, false)
  end.

Definition advance_until_elected_leader (fuel : nat) (envs : nat → Z → nat → CallInputs)
    (excluding_node_id : option Z) (c : FakeCluster) : exec FakeCluster :=
  '(c, leader_id, _) ← advance_until fuel envs (elected_leader excluding_node_id) 0 c;
  Returned (set_leader_id leader_id c).

Definition cluster_stop (c : FakeCluster) : FakeCluster := c.

(** ** What a round does *)

(** Everything the hosts have to send, in the order in which the platforms are visited. *)
Definition outbox (entries : list (Z * FakePlatform)) : list OutMessage :=
  concat (map (λ entry, fh_messages_out (fp_host entry.2)) entries).

(** The messages among them for one replica. *)
Definition addressed (id : Z) (message : Z * InMsg) : option InMsg :=
  if decide (message.1 = id) then Some message.2 else None.

Definition inbox (id : Z) (messages : list OutMessage) : list InMsg :=
  omap (addressed id) (omap route messages).

Definition emptied (p : FakePlatform) : FakePlatform := (platform_take_messages_out p).1.

(** A platform that has been handed messages. *)
Definition handed (messages : list InMsg) (p : FakePlatform) : FakePlatform :=
  {| fp_id := fp_id p; fp_messages_in := fp_messages_in p ++ (Some <$> messages);
     fp_instant := fp_instant p; fp_driver := fp_driver p; fp_host := fp_host p |}.

Lemma handed_handed l1 l2 p : handed l2 (handed l1 p) = handed (l1 ++ l2) p.
Proof. unfold handed. simpl. by rewrite fmap_app, (assoc_L (++)). Qed.

(** The fields of a cluster that a step leaves alone. *)
Definition same_frame (c c' : FakeCluster) : Prop :=
  fc_app_config c' = fc_app_config c ∧ fc_advance_step c' = fc_advance_step c ∧
  fc_leader_id c' = fc_leader_id c.

Lemma collect_messages_fold acc messages :
  foldl collect_message acc messages =
  (acc.1 ++ omap route messages, acc.2 ++ filter (λ m, route m = None) messages).
Proof.
  revert acc. induction messages as [|m messages IH]; intros acc; simpl.
  - rewrite !app_nil_r. by destruct acc.
  - rewrite IH. unfold collect_message. destruct (route m) as [x|] eqn:E; simpl.
    + by rewrite filter_cons_False, <- (assoc_L (++)) by congruence.
    + by rewrite filter_cons_True, <- (assoc_L (++)) by done.
Qed.

Lemma collect_platforms_fold entries c messages :
  NoDup entries.*1 →
  let '(c', messages') := foldl collect_platform (c, messages) entries in
  same_frame c c' ∧
  messages' = messages ++ omap route (outbox entries) ∧
  fc_pull_messages c' = fc_pull_messages c ++ filter (λ m, route m = None) (outbox entries) ∧
  (∀ id p, (id, p) ∈ entries → fc_platforms c' !! id = Some (emptied p)) ∧
  (∀ id, id ∉ entries.*1 → fc_platforms c' !! id = fc_platforms c !! id).
Proof.
  revert c messages. induction entries as [|[id p] entries IH]; intros c messages Hnd; simpl.
  { rewrite !app_nil_r. split_and!; try done. by intros ?? ?%elem_of_nil. }
  rewrite fmap_cons, NoDup_cons in Hnd. destruct Hnd as [Hid Hnd].
  rewrite collect_messages_fold. simpl.
  match goal with |- context [foldl _ (?c1, ?ms1)] => pose proof (IH c1 ms1 Hnd) as H;
    destruct (foldl collect_platform (c1, ms1) entries) as [c' messages'] end.
  destruct H as ((H1 & H2 & H3) & -> & H4 & H5 & H6). simpl in *.
  unfold outbox. simpl. fold (outbox entries).
  split_and!; [by repeat split|by rewrite omap_app, <- (assoc_L (++))
              |by rewrite H4, filter_app, <- (assoc_L (++))| |].
  - intros id' p' [[= -> ->]|Hin]%elem_of_cons; [|by apply H5].
    rewrite H6 by done. by rewrite lookup_insert_eq.
  - intros id' [Hne Hin]%not_elem_of_cons. rewrite H6 by done. by rewrite lookup_insert_ne.
Qed.

Lemma hash_iter_elem (m : gmap Z FakePlatform) id p : (id, p) ∈ hash_iter m ↔ m !! id = Some p.
Proof. by rewrite (hash_iter_perm m), elem_of_map_to_list. Qed.

Lemma hash_iter_NoDup (m : gmap Z FakePlatform) : NoDup (hash_iter m).*1.
Proof. rewrite (hash_iter_perm m). apply NoDup_fst_map_to_list. Qed.

Lemma hash_iter_fst (m : gmap Z FakePlatform) id : id ∈ (hash_iter m).*1 ↔ is_Some (m !! id).
Proof.
  rewrite list_elem_of_fmap. split.
  - intros ([id' p] & -> & H%hash_iter_elem). by exists p.
  - intros [p H%hash_iter_elem]. by exists (id, p).
Qed.

(** What is collected: every host is emptied, the messages between replicas are set aside
    and the others go to the consumer. *)
Lemma collect_messages_spec c c' messages :
  collect_messages c = (c', messages) →
  same_frame c c' ∧ messages = omap route (outbox (hash_iter (fc_platforms c))) ∧
  fc_pull_messages c' =
    fc_pull_messages c ++ filter (λ m, route m = None) (outbox (hash_iter (fc_platforms c))) ∧
  fc_platforms c' = emptied <$> fc_platforms c.
Proof.
  unfold collect_messages. intros H.
  pose proof (collect_platforms_fold (hash_iter (fc_platforms c)) c []
    (hash_iter_NoDup (fc_platforms c))) as Hspec.
  rewrite H in Hspec. destruct Hspec as (H1 & -> & H3 & H4 & H5). split_and!; [done..|].
  apply map_eq. intros id. rewrite lookup_fmap.
  destruct (fc_platforms c !! id) as [p|] eqn:E; simpl.
  - apply H4. by apply hash_iter_elem.
  - rewrite H5; [done|]. rewrite hash_iter_fst, E. by intros [].
Qed.

Lemma deliver_messages_spec messages c :
  let c' := foldl deliver_message c messages in
  same_frame c c' ∧ fc_pull_messages c' = fc_pull_messages c ∧
  fc_platforms c' = map_imap (λ id p, Some (handed
    (omap (addressed id) messages) p)) (fc_platforms c).
Proof.
  revert c. induction messages as [|[r m] messages IH]; intros c; cbn [foldl].
  { split_and!; [done..|]. apply map_eq. intros id. rewrite map_lookup_imap.
    destruct (fc_platforms c !! id) as [[]|]; simpl; [|done].
    unfold handed. simpl. by rewrite app_nil_r. }
  destruct (IH (deliver_message c (r, m))) as ((H1 & H2 & H3) & H4 & H5).
  assert (same_frame c (deliver_message c (r, m)) ∧
    fc_pull_messages (deliver_message c (r, m)) = fc_pull_messages c) as [(F1 & F2 & F3) F4]
    by (unfold deliver_message; by destruct (fc_platforms c !! r)).
  split_and!; [repeat split; congruence|congruence|]. rewrite H5. apply map_eq. intros id.
  rewrite !map_lookup_imap. unfold deliver_message.
  destruct (fc_platforms c !! r) as [p|] eqn:E.
  - destruct (decide (r = id)) as [->|Hne]; simpl.
    + rewrite lookup_insert_eq, E. unfold addressed at 2. simpl. rewrite decide_True by done.
      f_equal. apply (handed_handed [m]).
    + rewrite lookup_insert_ne by done. unfold addressed at 2. simpl. by rewrite decide_False.
  - unfold addressed at 2. simpl. by destruct (decide (r = id)) as [->|]; [rewrite E|].
Qed.

Lemma efold_run_platform env entries c c' :
  NoDup entries.*1 →
  efold (run_platform env) c entries = Returned c' ↔
  same_frame c c' ∧ fc_pull_messages c' = fc_pull_messages c ∧
  (∀ id p, (id, p) ∈ entries → ∃ p', fc_platforms c' !! id = Some p' ∧
     send_messages_in (env id) (advance_time (fc_advance_step c) p) = Returned p') ∧
  (∀ id, id ∉ entries.*1 → fc_platforms c' !! id = fc_platforms c !! id).
Proof.
  revert c. induction entries as [|[id p] entries IH]; intros c Hnd.
  { simpl. split.
    - intros [= <-]. split_and!; try done. by intros ?? ?%elem_of_nil.
    - intros ((H1 & H2 & H3) & H4 & _ & H5). destruct c, c'. simpl in *. subst.
      do 2 f_equal. apply map_eq. intros id. symmetry. apply H5. by intros ?%elem_of_nil. }
  rewrite fmap_cons, NoDup_cons in Hnd. destruct Hnd as [Hid Hnd].
  cbn [efold]. rewrite exec_bind_Returned. cbn [run_platform]. split.
  - intros (c1 & (p' & Hp & [= <-])%exec_bind_Returned & H).
    apply IH in H as ((H1 & H2 & H3) & H4 & H5 & H6); [|done]. simpl in *.
    split_and!; try done.
    + intros id' q [[= -> ->]|Hin]%elem_of_cons; [|by apply H5].
      exists p'. split; [|done]. rewrite H6 by done. by rewrite lookup_insert_eq.
    + intros id' [Hne Hin]%not_elem_of_cons. rewrite H6 by done. by rewrite lookup_insert_ne.
  - intros ((H1 & H2 & H3) & H4 & H5 & H6).
    destruct (H5 id p) as (p' & Hp' & Hrun); [by left|].
    exists (set_platforms (<[id := p']> (fc_platforms c)) c). split; [by rewrite Hrun|].
    apply IH; [done|]. simpl. split_and!; [done..| |].
    + intros id' q Hq. apply H5. by right.
    + intros id' Hin. destruct (decide (id' = id)) as [->|Hne].
      * by rewrite lookup_insert_eq.
      * rewrite lookup_insert_ne by done. apply H6. by apply not_elem_of_cons.
Qed.

(** A stateless filter takes out what it accepts. *)
Lemma extract_loop_plain p f messages :
  extract_loop (plain_filter p) f messages =
  (f, filter (λ m, p m = true) messages, filter (λ m, p m = false) messages).
Proof.
  induction messages as [|m messages IH]; [done|]. simpl. rewrite IH.
  destruct (p m) eqn:E.
  - by rewrite filter_cons_True, filter_cons_False by (simpl; congruence).
  - by rewrite filter_cons_False, filter_cons_True by (simpl; congruence).
Qed.

(** Messages that stay with the consumer. *)
Definition for_consumer (m : OutMessage) : Prop := route m = None ∧ is_log m = false.

#[global] Instance for_consumer_dec m : Decision (for_consumer m).
Proof. unfold for_consumer. apply _. Defined.

Lemma filter_consumer (messages : list OutMessage) :
  filter (λ m, is_log m = false) (filter (λ m, route m = None) messages)
  = filter for_consumer messages.
Proof.
  rewrite list_filter_filter. apply list_filter_iff. intros m. unfold for_consumer. tauto.
Qed.

(** The platform as a round calls it. *)
Definition round_start (c : FakeCluster) (id : Z) (p : FakePlatform) : FakePlatform :=
  advance_time (fc_advance_step c)
    (handed (inbox id (outbox (hash_iter (fc_platforms c)))) (emptied p)).

(** A round as what it does to each platform. *)
Lemma advance_spec env c c' :
  advance env c = Returned c' ↔
  same_frame c c' ∧
  fc_pull_messages c' =
    filter (λ m, is_log m = false) (fc_pull_messages c) ++
    filter for_consumer (outbox (hash_iter (fc_platforms c))) ∧
  (∀ id, match fc_platforms c !! id, fc_platforms c' !! id with
         | Some p, Some p' => send_messages_in (env id) (round_start c id p) = Returned p'
         | None, None => True
         | _, _ => False
         end).
Proof.
  unfold advance. destruct (collect_messages c) as [c1 messages] eqn:Hc.
  apply collect_messages_spec in Hc as (F1 & -> & P1 & M1).
  match goal with |- context [foldl deliver_message c1 ?ms] =>
    destruct (deliver_messages_spec ms c1) as (F2 & P2 & M2);
    set (c2 := foldl deliver_message c1 ms) in * end.
  assert (∀ id p2, fc_platforms c2 !! id = Some p2 ↔
    ∃ p, fc_platforms c !! id = Some p ∧
      p2 = handed (inbox id (outbox (hash_iter (fc_platforms c)))) (emptied p)) as Hc2.
  { intros id p2. rewrite M2, map_lookup_imap, M1, lookup_fmap.
    destruct (fc_platforms c !! id) as [p|]; naive_solver. }
  destruct F1 as (F11 & F12 & F13), F2 as (F21 & F22 & F23).
  unfold run_platforms. rewrite exec_bind_Returned. unfold print_log_messages, extract_pull_messages.
  setoid_rewrite efold_run_platform; [|apply hash_iter_NoDup].
  setoid_rewrite extract_loop_plain. split.
  - intros (c3 & ((G1 & G2 & G3) & P3 & M3 & N3) & [= <-]). simpl.
    split_and!; [repeat split; simpl; congruence| |].
    + by rewrite P3, P2, P1, filter_app, filter_consumer.
    + intros id. destruct (fc_platforms c !! id) as [p|] eqn:E.
      * destruct (M3 id (handed (inbox id (outbox (hash_iter (fc_platforms c)))) (emptied p)))
          as (p' & -> & Hrun); [apply hash_iter_elem, Hc2; eauto|].
        by rewrite F22, F12 in Hrun.
      * destruct (fc_platforms c3 !! id) eqn:E3; [|done]. rewrite N3 in E3.
        -- by apply Hc2 in E3 as (p & Hp & _); rewrite E in Hp.
        -- rewrite hash_iter_fst. intros [? (? & Hp & _)%Hc2]. by rewrite E in Hp.
  - intros ((G1 & G2 & G3) & Pull & M).
    exists (set_pull_messages (fc_pull_messages c2) c'). split.
    + split_and!; simpl; [repeat split; simpl; congruence|done| |].
      * intros id p2 (p & Hp & ->)%hash_iter_elem%Hc2. specialize (M id). rewrite Hp in M.
        destruct (fc_platforms c' !! id) as [p'|]; [|done]. exists p'.
        split; [done|]. by rewrite F22, F12.
      * intros id Hid. specialize (M id).
        destruct (fc_platforms c !! id) as [p|] eqn:E.
        -- destruct Hid. apply hash_iter_fst. eexists. apply Hc2. eauto.
        -- destruct (fc_platforms c' !! id); [done|].
           destruct (fc_platforms c2 !! id) eqn:E2; [|done].
           by apply Hc2 in E2 as (p & Hp & _); rewrite E in Hp.
    + f_equal. simpl. rewrite P2, P1, filter_app, filter_consumer, <- Pull. by destruct c'.
Qed.

Lemma outbox_elem m entries :
  m ∈ outbox entries ↔ ∃ id p, (id, p) ∈ entries ∧ m ∈ fh_messages_out (fp_host p).
Proof.
  unfold outbox. rewrite list_elem_of_In, in_concat. setoid_rewrite in_map_iff.
  setoid_rewrite list_elem_of_In. split.
  - intros (l & ([id p] & <- & Hp) & Hm). by exists id, p.
  - intros (id & p & Hp & Hm). eexists. split; [by exists (id, p)|done].
Qed.

Lemma inbox_elem m id messages :
  m ∈ inbox id messages ↔ ∃ o, o ∈ messages ∧ route o = Some (id, m).
Proof.
  unfold inbox, addressed. rewrite list_elem_of_omap. setoid_rewrite list_elem_of_omap. split.
  - intros ([r x] & (o & Ho & Hr) & H). simpl in H. case_decide as Hd; [|done].
    exists o. split; [done|]. congruence.
  - intros (o & Ho & Hr). exists (id, m). split; [eauto|]. simpl. by rewrite decide_True.
Qed.

Lemma inbox_outbox id entries :
  inbox id (outbox entries)
  = concat (map (λ entry, inbox id (fh_messages_out (fp_host entry.2))) entries).
Proof.
  induction entries as [|e entries IH]; [done|]. unfold outbox. simpl. rewrite <- IH.
  unfold inbox. by rewrite !omap_app.
Qed.

End harness.
