(* ===== verification/ClusterTheorems.v ===== *)
(** * Theorems about a cluster of replicas

    What holds of every cluster that the harness can reach: each platform runs a driver that
    is reachable on its own, the traffic between platforms is handshakes and encrypted
    messages, and replicas that have applied the same part of the log are in the same
    state. *)

From S2P Require Import Prelude RaftTypes Storage Endpoint F64 Snapshot Handshake Communication Model.
From S2P Require Import Consensus Driver DriverProps Counter DriverTheorems Cluster.

(** ** Reachable clusters *)

Section reachable.
Context {OS : OakSession} {R St P Sd Rc A Ent C : Type}.
Context `{HRaft : !Raft R St, HStore : !Store St, HSender : !SnapshotSender Sd,
          HReceiver : !SnapshotReceiver Rc, HProc : !SnapshotProcessor P Sd Rc,
          HActor : !Actor Ent A, HComm : !CommunicationModule C}.
Context `{HMsg : !ProtoCodec RaftMessage, HChange : !ProtoCodec RaftConfigChange,
          HEntry : !ProtoCodec Entry, HHash : !HashOrder Z}.
Variable create_store : Z → St.
Variable snapshot_is_empty : RaftSnapshot → bool.
Variable request_fuel : nat.
Variables (raft0 : R) (snapshot0 : P) (communication0 : C).

#[local] Abbreviation Cluster := (@FakeCluster OS R P A C).
#[local] Abbreviation Platform := (@FakePlatform OS R P A C).
#[local] Abbreviation call := (platform_call create_store snapshot_is_empty request_fuel).
#[local] Abbreviation calls := (platform_calls create_store snapshot_is_empty request_fuel).
#[local] Abbreviation send := (send_messages_in create_store snapshot_is_empty request_fuel).
#[local] Abbreviation advance := (advance create_store snapshot_is_empty request_fuel).
#[local] Abbreviation advance_until := (advance_until create_store snapshot_is_empty request_fuel).
#[local] Abbreviation start_node := (start_node raft0 snapshot0 communication0).

(** The operations of the harness. *)
Inductive cluster_step : Cluster → Cluster → Prop :=
| step_start_node c id leader actor c' :
    start_node id leader actor c = Returned c' → cluster_step c c'
| step_stop_node c id : cluster_step c (stop_node id c)
| step_app_message c id correlation_id header payload c' :
    send_app_message id correlation_id header payload c = Returned c' → cluster_step c c'
| step_change_cluster c id change_id replica_id change_type c' :
    on_platform id (send_change_cluster change_id replica_id change_type) c = Returned c' →
    cluster_step c c'
| step_advance env c c' : advance env c = Returned c' → cluster_step c c'
| step_extract {F} (filter : F → OutMessage → F * bool) f c :
    cluster_step c (extract_pull_messages filter f c).1.1
| step_leader c id : cluster_step c (set_leader_id id c).

Definition cluster_reachable (app_config : bytes) : Cluster → Prop :=
  rtc cluster_step (fake_cluster_new app_config).

(** The loops over rounds are made of these steps. *)
Lemma advance_until_steps {F} fuel envs (condition : F → OutMessage → F * bool) f c c' f' out :
  advance_until fuel envs condition f c = Returned (c', f', out) →
  rtc cluster_step c c' ∧ out ≠ [].
Proof.
  revert envs f c. induction fuel as [|fuel IH]; intros envs f c; simpl; [done|].
  intros (c1 & H1 & H)%exec_bind_Returned.
  pose proof (step_extract condition f c1) as H2.
  destruct (extract_pull_messages condition f c1) as [[c2 f2] taken]. simpl in *.
  assert (rtc cluster_step c c2) as H12.
  { eapply rtc_l; [by eapply step_advance|]. by apply rtc_once. }
  destruct taken as [|m taken].
  - apply IH in H as [H ?]. split; [|done]. by etrans.
  - by injection H as <- _ <-.
Qed.

Lemma added_to_cluster_steps fuel envs id c c' :
  advance_until_added_to_cluster create_store snapshot_is_empty request_fuel fuel envs id c
  = Returned c' → rtc cluster_step c c'.
Proof.
  intros ([[c1 f1] out] & H & [= <-])%exec_bind_Returned.
  by apply advance_until_steps in H as [].
Qed.

Lemma add_node_steps fuel envs id c c' :
  add_node_to_cluster create_store snapshot_is_empty request_fuel fuel envs id c = Returned c' →
  rtc cluster_step c c'.
Proof.
  intros (c1 & H1 & H)%exec_bind_Returned.
  eapply rtc_l; [by eapply step_change_cluster|]. by eapply added_to_cluster_steps.
Qed.

(** A leader that was found is one that a replica reported, and not the excluded one. *)
Lemma extract_loop_leader excluding messages leader leader' out kept :
  extract_loop (elected_leader excluding) leader messages = (leader', out, kept) →
  (out = [] ∧ leader' = leader) ∨
  (out ≠ [] ∧ leader' ≠ 0 ∧ excluding ≠ Some leader' ∧
   ∃ r, {| out_msg := Some (OutCheckCluster r) |} ∈ out ∧ chk_leader_replica_id r = leader').
Proof.
  revert leader leader' out kept.
  induction messages as [|m messages IH]; intros leader leader' out kept; simpl.
  { intros [= <- <- _]. by left. }
  destruct (elected_leader excluding leader m) as [leader1 taken] eqn:E1.
  destruct (extract_loop _ leader1 messages) as [[f o] k] eqn:E2.
  destruct (IH _ _ _ _ E2) as [[-> ->]|(Hne & H0 & Hx & r & Hr & Hl)]; clear IH; last first.
  { destruct taken; intros [= <- <- _]; right; split_and!; try done; exists r; [|done].
    split; [by right|done]. }
  unfold elected_leader in E1. destruct m as [[[]|]]; simpl in E1;
    try (injection E1 as <- <-; intros [= <- <- _]; by left).
  repeat case_decide; injection E1 as <- <-; intros [= <- <- _]; [by left..|].
  right. split_and!; try done. exists m. split; [by left|done].
Qed.

Lemma elected_leader_steps fuel envs excluding c c' :
  advance_until_elected_leader create_store snapshot_is_empty request_fuel fuel envs excluding c
  = Returned c' →
  rtc cluster_step c c' ∧ fc_leader_id c' ≠ 0 ∧ excluding ≠ Some (fc_leader_id c').
Proof.
  intros ([[c1 leader] out] & H & [= <-])%exec_bind_Returned. split.
  - apply advance_until_steps in H as [H _]. eapply rtc_r; [exact H|]. apply step_leader.
  - simpl. revert H. generalize 0 at 1. revert envs c.
    induction fuel as [|fuel IH]; intros envs c l0; simpl; [done|].
    intros (c2 & _ & H)%exec_bind_Returned. unfold extract_pull_messages in H.
    destruct (extract_loop (elected_leader excluding) l0 _) as [[l1 o] k] eqn:E.
    apply extract_loop_leader in E as [[-> ->]|(Hne & H0 & Hx & _)]; [by eapply IH|].
    destruct o; [done|]. by injection H as _ <- _.
Qed.

(** *** What holds of every platform *)

(** What the harness itself asks a replica for. *)
Definition requested (message : option InMsg) : Prop :=
  match message with
  | Some (InStartReplica _) | Some (InChangeCluster _) | Some (InDeliverAppMessage _) => True
  | _ => False
  end.

(** A property of the traffic that every call of a reachable driver keeps. *)
Variable protected : OutMessage → Prop.
Hypothesis call_protected : ∀ actor d ent logs instant opt_message d' sent,
  driver_reachable create_store snapshot_is_empty request_fuel raft0 snapshot0 actor
    communication0 d →
  in_u64 instant →
  receive_message create_store snapshot_is_empty request_fuel ent logs instant opt_message d
  = Returned (d', Ok (Some sent)) →
  Forall (λ o, local_out o ∨ protected o) sent.

Record platform_inv (id : Z) (p : Platform) : Prop := {
  pi_id : fp_id p = id;
  pi_instant : in_u64 (fp_instant p);
  pi_driver : ∃ actor, driver_reachable create_store snapshot_is_empty request_fuel raft0
    snapshot0 actor communication0 (fp_driver p);
  pi_out : Forall (λ o, local_out o ∨ protected o) (fh_messages_out (fp_host p))
}.

Lemma platform_call_inv inputs opt_message id p p' :
  platform_inv id p → call inputs opt_message p = Returned p' →
  platform_inv id p' ∧ fp_messages_in p' = fp_messages_in p.
Proof.
  unfold platform_call. intros [H1 H2 [actor H3] H4] H.
  destruct (receive_message _ _ _ _ _ _ _ _) as [[d [sent|e]]| |] eqn:Hr; [|done..].
  injection H as <-. split; [|done]. split; simpl; [done|done|..].
  - exists actor. by eapply reach_call.
  - destruct sent as [sent|]; [|done]. simpl. apply Forall_app. split; [done|].
    by eapply call_protected.
Qed.

Lemma platform_calls_inv env messages id p p' :
  platform_inv id p → calls env messages p = Returned p' →
  platform_inv id p' ∧ fp_messages_in p' = fp_messages_in p.
Proof.
  revert env p. induction messages as [|m messages IH]; intros env p Hp; simpl.
  - by intros [= <-].
  - intros (p1 & H1 & H)%exec_bind_Returned.
    apply (platform_call_inv _ _ id) in H1 as [Hp1 <-]; [|done]. by eapply IH.
Qed.

(** After its calls a platform has nothing left to do. *)
Lemma send_messages_in_inv env id p p' :
  platform_inv id p → send env p = Returned p' → platform_inv id p' ∧ fp_messages_in p' = [].
Proof.
  intros [H1 H2 H3 H4]. unfold send_messages_in.
  set (p0 := {| fp_id := fp_id p; fp_messages_in := []; fp_instant := fp_instant p;
                fp_driver := fp_driver p; fp_host := fp_host p |}).
  assert (platform_inv id p0) as Hp0 by by split.
  destruct (fp_messages_in p); intros H.
  - by apply (platform_call_inv _ _ id) in H.
  - by apply (platform_calls_inv _ _ id) in H.
Qed.

Record cluster_inv (c : Cluster) : Prop := {
  ci_platform : map_Forall platform_inv (fc_platforms c);
  ci_requested : map_Forall (λ _ p, Forall requested (fp_messages_in p)) (fc_platforms c);
  ci_pull : Forall (λ o, (local_out o ∨ protected o) ∧ route o = None) (fc_pull_messages c)
}.

Lemma platform_inv_handed id messages p :
  platform_inv id p → platform_inv id (handed messages (emptied p)).
Proof. intros []. by split. Qed.

Lemma platform_inv_advance_time id duration p :
  platform_inv id p → platform_inv id (advance_time duration p).
Proof. intros []. split; try done. apply u64_add_range. Qed.

Lemma on_platform_inv id f c c' :
  (∀ p, platform_inv id p → Forall requested (fp_messages_in p) →
     platform_inv id (f p) ∧ Forall requested (fp_messages_in (f p))) →
  cluster_inv c → on_platform id f c = Returned c' → cluster_inv c'.
Proof.
  intros Hf [H1 H2 H3] (p & Hp & [= <-])%exec_bind_Returned.
  assert (fc_platforms c !! id = Some p) as Hid
    by (unfold exec_unwrap in Hp; destruct (fc_platforms c !! id); congruence).
  destruct (Hf p (H1 _ _ Hid) (H2 _ _ Hid)) as [Hp1 Hp2].
  split; [by apply map_Forall_insert_2|by apply map_Forall_insert_2|done].
Qed.

Lemma append_requested id message p :
  requested message → platform_inv id p → Forall requested (fp_messages_in p) →
  platform_inv id (append_message_in message p) ∧
  Forall requested (fp_messages_in (append_message_in message p)).
Proof.
  intros Hm [] Hq. split; [by split|]. simpl. apply Forall_app. split; [done|by constructor].
Qed.

Lemma extract_loop_subset {F} (filter : F → OutMessage → F * bool) f messages f' out kept :
  extract_loop filter f messages = (f', out, kept) → ∀ m, m ∈ kept → m ∈ messages.
Proof.
  revert f f' out kept. induction messages as [|x messages IH]; intros f f' out kept; simpl.
  - by intros [= _ _ <-].
  - destruct (filter f x) as [f1 taken]. destruct (extract_loop _ _ _) as [[f2 o] k] eqn:E.
    pose proof (IH _ _ _ _ E) as H. destruct taken; intros [= _ _ <-] m Hm.
    + right. by apply H.
    + apply elem_of_cons in Hm as [->|Hm]; [by left|]. right. by apply H.
Qed.

Lemma advance_inv env c c' : cluster_inv c → advance env c = Returned c' → cluster_inv c'.
Proof.
  intros [H1 H2 H3] (_ & Hpull & Hp)%advance_spec.
  assert (∀ id p', fc_platforms c' !! id = Some p' →
    platform_inv id p' ∧ fp_messages_in p' = []) as Hall.
  { intros id p' Hp'. specialize (Hp id). rewrite Hp' in Hp.
    destruct (fc_platforms c !! id) as [p|] eqn:E; [|done].
    eapply send_messages_in_inv; [|exact Hp].
    apply platform_inv_advance_time, platform_inv_handed. by apply H1. }
  split.
  - intros id p' Hp'. by apply Hall.
  - intros id p' Hp'. by rewrite (proj2 (Hall id p' Hp')).
  - rewrite Hpull. apply Forall_app. rewrite !Forall_forall in *. split; intros m.
    + intros [_ Hm]%list_elem_of_filter. by apply H3.
    + intros [[Hroute _] (id & q & Hq%hash_iter_elem & Hm)%outbox_elem]%list_elem_of_filter.
      destruct (H1 id q Hq) as [_ _ _ Hout]. rewrite Forall_forall in Hout. split; [|done].
      by apply Hout.
Qed.

Lemma cluster_step_inv c c' : cluster_inv c → cluster_step c c' → cluster_inv c'.
Proof.
  intros Hc. destruct 1 as [c id leader actor c' H|c id|c id correlation_id header payload c' H
    |c id change_id replica_id change_type c' H|env c c' H|F filter f c|c id].
  - unfold start_node in H.
    eapply (on_platform_inv id _ _ c'); [| |exact H].
    + intros p Hp Hq. by apply append_requested.
    + destruct Hc as [H1 H2 H3]. split; simpl; [|by apply map_Forall_insert_2|done].
      apply map_Forall_insert_2; [|done]. split; simpl; [done|done| |done].
      exists actor. apply reach_new.
  - destruct Hc as [H1 H2 H3]. unfold stop_node. case_decide; split; simpl;
      by try apply map_Forall_delete.
  - eapply on_platform_inv; [|exact Hc|exact H]. intros p Hp Hq. by apply append_requested.
  - eapply on_platform_inv; [|exact Hc|exact H]. intros p Hp Hq. by apply append_requested.
  - by eapply advance_inv.
  - destruct Hc as [H1 H2 H3]. unfold extract_pull_messages.
    destruct (extract_loop filter f _) as [[f' out] kept] eqn:E. split; simpl; try done.
    rewrite Forall_forall in *. intros m Hm. apply H3. by eapply extract_loop_subset.
  - by destruct Hc.
Qed.

Lemma cluster_reachable_inv app_config c : cluster_reachable app_config c → cluster_inv c.
Proof.
  unfold cluster_reachable. intros H.
  assert (cluster_inv (fake_cluster_new app_config)) as H0.
  { split; [apply map_Forall_empty|apply map_Forall_empty|constructor]. }
  induction H as [|c1 c2 c3 H12 _ IH]; [done|]. apply IH. by eapply cluster_step_inv.
Qed.
End reachable.

(** ** The traffic between platforms *)

Section traffic.
Context {OS : OakSession} {R St P Sd Rc A Ent S X : Type}.
Context `{HRaft : !Raft R St, HStore : !Store St, HSender : !SnapshotSender Sd,
          HReceiver : !SnapshotReceiver Rc, HProc : !SnapshotProcessor P Sd Rc,
          HActor : !Actor Ent A}.
Context `{HMsg : !ProtoCodec RaftMessage, HChange : !ProtoCodec RaftConfigChange,
          HEntry : !ProtoCodec Entry}.
Context `{HSession : !HandshakeSession S X, HEncryptor : !Encryptor X, HHash : !HashOrder Z}.
Variable create_store : Z → St.
Variable snapshot_is_empty : RaftSnapshot → bool.
Variable request_fuel : nat.
Variables (raft0 : R) (snapshot0 : P).
Variable session_provider_get : Z → Z → Role → S.
Hypothesis provider_ok : ∀ self peer role, session_ok (session_provider_get self peer role).

#[local] Instance cluster_communication : CommunicationModule DefaultCommunicationModule :=
  DefaultCommunicationModule_impl session_provider_get.

(** What a communication module may hand out to the network. *)
Definition traffic_ok (o : OutMessage) : Prop :=
  ∃ inputs comm id st, comm_run session_provider_get inputs comm ∧
    cm_replicas comm !! id = Some st ∧ out_ok (.∈ inputs) id st o.

Lemma call_traffic_ok actor d ent logs instant opt_message d' sent :
  driver_reachable create_store snapshot_is_empty request_fuel raft0 snapshot0 actor comm_new d →
  in_u64 instant →
  receive_message create_store snapshot_is_empty request_fuel ent logs instant opt_message d
  = Returned (d', Ok (Some sent)) →
  Forall (λ o, local_out o ∨ traffic_ok o) sent.
Proof.
  intros Hd Hi Hr.
  destruct (call_outputs _ _ _ _ _ _ _ _ _ _ _ _ _ _ Hd Hi Hr)
    as (own & inputs & c & c' & peers & -> & Hown & Hrun & Ht).
  apply Forall_app. split; [eapply Forall_impl; [exact Hown|]; by left|].
  pose proof (comm_run_ok session_provider_get provider_ok _ _ Hrun) as Hok.
  destruct (comm_take_ok _ _ Hok) as (c2 & out & Ht' & _ & Hout). rewrite Ht' in Ht.
  injection Ht as _ <-. eapply Forall_impl; [exact Hout|]. intros o (id & st & Hst & Ho). right.
  by exists inputs, c, id, st.
Qed.

(** Encryption leaves the addresses of a message alone. *)
Lemma encrypt_route e plain cipher id :
  encrypt_out_message e plain = Some cipher → out_peer plain = Ok id →
  ∃ m, in_of_out cipher = Some m ∧ route {| out_msg := Some cipher |} = Some (id, m).
Proof.
  intros He Hid. destruct plain; try done; simpl in *;
    (destruct (encrypt e _) as [x|]; [|done]); injection He as <-; injection Hid as <-; eauto.
Qed.

Lemma traffic_ok_routed o : traffic_ok o → is_Some (route o).
Proof.
  intros (inputs & comm & id & st & _ & _ & [[hs ->]|(m & e & m' & _ & _ & _ & Hid & _ & He & ->)]).
  - by eexists.
  - destruct (encrypt_route e m m' id He Hid) as (x & _ & ->). by eexists.
Qed.

(** C5: Nothing crosses the network in the clear.  In every cluster that the harness can
    reach, whatever was started, stopped, asked and drawn, the messages that a round hands to
    a platform besides the requests of the test are handshake messages, and messages that
    were encrypted under the encryptor of a completed handshake session with that very
    platform, from a message its sender gave to its communication module; the consumer sees
    only answers of drivers, application messages and logs. *)
Theorem cluster_traffic_protected app_config env (c c' : @FakeCluster OS R P A DefaultCommunicationModule)
    id p :
  cluster_reachable create_store snapshot_is_empty request_fuel raft0 snapshot0 comm_new app_config c →
  advance create_store snapshot_is_empty request_fuel env c = Returned c' →
  fc_platforms c !! id = Some p →
  (∃ p', fc_platforms c' !! id = Some p' ∧ fp_messages_in p' = [] ∧
     send_messages_in create_store snapshot_is_empty request_fuel (env id) (round_start c id p)
     = Returned p') ∧
  (∃ received, fp_messages_in (round_start c id p) = fp_messages_in p ++ (Some <$> received) ∧
     Forall requested (fp_messages_in p) ∧
     Forall (λ m, (∃ hs, m = InSecureChannelHandshake hs) ∨
       ∃ inputs comm st e plain cipher, comm_run session_provider_get inputs comm ∧
         cm_replicas comm !! id = Some st ∧ cs_handshake_state st = HCompleted ∧
         cs_encryptor st = Some e ∧ genuine e ∧ plain ∈ inputs ∧ out_peer plain = Ok id ∧
         encrypt_out_message e plain = Some cipher ∧ in_of_out cipher = Some m) received) ∧
  Forall local_out (fc_pull_messages c').
Proof.
  intros Hc Ha Hp.
  pose proof (cluster_reachable_inv _ _ _ _ _ _ traffic_ok call_traffic_ok _ _ Hc) as Hinv.
  pose proof (advance_inv _ _ _ _ _ _ traffic_ok call_traffic_ok _ _ _ Hinv Ha) as Hinv'.
  destruct Hinv as [H1 H2 H3]. split_and!.
  - pose proof Ha as (_ & _ & Hall)%advance_spec. specialize (Hall id). rewrite Hp in Hall.
    destruct (fc_platforms c' !! id) as [p'|]; [|done]. exists p'. split; [done|].
    split; [|done]. eapply (send_messages_in_inv _ _ _ _ _ _ traffic_ok call_traffic_ok);
      [|exact Hall]. apply platform_inv_advance_time, platform_inv_handed. by apply H1.
  - eexists. split; [reflexivity|]. split; [by apply (H2 id)|]. apply Forall_forall.
    intros m (o & (q & pq & Hq%hash_iter_elem & Ho)%outbox_elem & Hroute)%inbox_elem.
    destruct (H1 q pq Hq) as [_ _ _ Hout]. rewrite Forall_forall in Hout.
    destruct (Hout o Ho) as [(x & Hx & Hl)|
      (inputs & comm & peer & st & Hrun & Hst & [[hs ->]|(plain & e & cipher & Hs & He & Hg & Hid & Hin & Henc & ->)])].
    + destruct o as [o']. simpl in Hx. subst o'. by destruct x.
    + left. injection Hroute as _ <-. by eexists.
    + right. destruct (encrypt_route e plain cipher peer Henc Hid) as (x & Hx & Hr).
      rewrite Hr in Hroute. injection Hroute as -> ->.
      exists inputs, comm, st, e, plain, cipher. by split_and!.
  - destruct Hinv' as [_ _ H3']. eapply Forall_impl; [exact H3'|].
    intros o [[Ho|Ho] Hr]; [done|]. apply traffic_ok_routed in Ho as [? Ho]. congruence.
Qed.
End traffic.

(** * A concrete cluster *)

Section samples.
#[local] Existing Instances comm_sample_oak_session comm_sample_client_handshaker
  comm_sample_server_handshaker comm_sample_hash_order sample_session_impl
  request_payload_codec response_payload_codec snapshot_metadata_codec
  counter_request_codec counter_out_codec counter_snapshot_codec
  raft_message_codec config_change_codec entry_codec toy_counter toy_communication.

(** Nodes that do not vote: the first sends the second a message at every tick. *)
Record ChatNode := { cn_id : Z; cn_store : MemoryStorageCore; cn_ticked : bool }.

Definition chat_with (n : ChatNode) (store : MemoryStorageCore) (ticked : bool) : ChatNode :=
  {| cn_id := cn_id n; cn_store := store; cn_ticked := ticked |}.

#[local] Instance chat_raw_node : RawNode ChatNode MemoryStorageCore unit :=
  {| node_new config store := Ok {| cn_id := rlc_id config; cn_store := store; cn_ticked := false |};
     node_is_leader n := bool_decide (cn_id n = 1);
     node_leader_id _ := 1;
     node_term _ := 1;
     node_has_pending_conf _ := false;
     node_store := cn_store;
     node_set_store n st := chat_with n st (cn_ticked n);
     node_step n _ := Return (n, Ok ());
     node_propose n _ := Return (n, Ok ());
     node_propose_conf_change n _ := Return (n, Err ProposalDropped);
     node_tick n := Return (chat_with n (cn_store n) (bool_decide (cn_id n = 1)));
     node_apply_conf_change n _ := Return (n, Err RaftOther);
     node_has_ready := cn_ticked;
     node_ready n :=
       Return (chat_with n (cn_store n) false, (),
               {| rr_messages := [create_raft_message 1 2 (MsgOther 8)]; rr_persisted_messages := [];
                  rr_entries := []; rr_committed_entries := []; rr_hard_state := None;
                  rr_snapshot := {| snap_data := []; snap_metadata := None |}; rr_number := 1 |});
     node_advance n _ := Return (n, {| rl_messages := []; rl_committed_entries := [] |});
     node_advance_apply n := Return n;
     node_report_snapshot n _ _ := Return n |}.

#[local] Abbreviation chat_advance :=
  (advance storage_new toy_is_empty 20 (λ _ _, (toy_entropy, []))).

#[local] Abbreviation chat_start :=
  (start_node raft_simple_new (processor_new sender_new receiver_new) comm_new).

Definition ChatCluster : Type :=
  @FakeCluster _ (@RaftSimple ChatNode unit)
    (@DefaultSnapshotProcessor DefaultSnapshotSender DefaultSnapshotReceiver) CounterActor
    (@DefaultCommunicationModule _ SampleSession DefaultEncryptor).

Definition chat_cluster : exec ChatCluster :=
  c ← chat_start 1 true counter_new (fake_cluster_new []);
  chat_start 2 false counter_new c.

Fixpoint rounds (n : nat) (c : ChatCluster) : exec ChatCluster :=
  match n with O => Returned c | S n => c ← chat_advance c; rounds n c end.

Definition system_messages (id : Z) (c : ChatCluster) : list DeliverSystemMessage :=
  omap (λ m, match m with InDeliverSystemMessage m => Some m | _ => None end)
    (inbox id (outbox (hash_iter (fc_platforms c)))).


#[local] Abbreviation chat_reachable :=
  (cluster_reachable storage_new toy_is_empty 20 raft_simple_new
     (processor_new sender_new receiver_new) comm_new []).

Lemma chat_cluster_reachable c : chat_cluster = Returned c → chat_reachable c.
Proof.
  intros (c1 & H1 & H2)%exec_bind_Returned.
  eapply rtc_l; [by eapply step_start_node|]. eapply rtc_once. by eapply step_start_node.
Qed.

Lemma rounds_reachable n c c' : chat_reachable c → rounds n c = Returned c' → chat_reachable c'.
Proof.
  revert c. induction n as [|n IH]; intros c Hc; simpl; [by intros [= <-]|].
  intros (c1 & H1 & H)%exec_bind_Returned. eapply IH; [|exact H].
  eapply rtc_r; [exact Hc|]. by eapply step_advance.
Qed.

(** After six rounds the handshake is done and what the first node had to say is under
    way, encrypted. *)
Definition chatting : exec ChatCluster := c ← chat_cluster; rounds 6 c.

Lemma chatting_runs :
  match chatting with
  | Returned c =>
      bool_decide (length (system_messages 2 c) = 5%nat) &&
      bool_decide (is_Some (fc_platforms c !! 2)) &&
      match chat_advance c with Returned _ => true | _ => false end
  | _ => false
  end = true.
Proof. by vm_compute. Qed.

Lemma cluster_traffic_protected_witness :
  ∃ c c' p m, chatting = Returned c ∧ chat_advance c = Returned c' ∧
    m ∈ system_messages 2 c ∧ fc_platforms c !! 2 = Some p ∧
    (∃ inputs comm st e plain cipher, comm_run sample_provider inputs comm ∧
       cm_replicas comm !! 2 = Some st ∧ cs_handshake_state st = HCompleted ∧
       cs_encryptor st = Some e ∧ genuine e ∧ plain ∈ inputs ∧ out_peer plain = Ok 2 ∧
       encrypt_out_message e plain = Some cipher ∧
       in_of_out cipher = Some (InDeliverSystemMessage m)) ∧
    Forall local_out (fc_pull_messages c').
Proof.
  pose proof chatting_runs as Hok. destruct chatting as [c| |] eqn:Hc; [|discriminate Hok..].
  apply andb_prop in Hok as [Hok H3]. apply andb_prop in Hok as [H1 H2].
  apply bool_decide_eq_true in H1, H2. destruct H2 as [p Hp].
  destruct (chat_advance c) as [c'| |] eqn:Ha; [|discriminate H3..].
  assert (chat_reachable c) as Hreach.
  { unfold chatting in Hc. apply exec_bind_Returned in Hc as (c0 & Hc0 & Hc).
    eapply rounds_reachable; [|exact Hc]. by apply chat_cluster_reachable. }
  destruct (system_messages 2 c) as [|m l] eqn:Em; [discriminate H1|].
  assert (m ∈ system_messages 2 c) as Hm by (rewrite Em; by left).
  destruct (cluster_traffic_protected storage_new toy_is_empty 20 raft_simple_new
    (processor_new sender_new receiver_new) sample_provider sample_provider_ok [] _ c c' 2 p
    Hreach Ha Hp) as (_ & (received & Hrec & _ & Hall) & Hpull).
  exists c, c', p, m. split; [done|]. split; [done|]. split; [exact Hm|]. split; [done|].
  split; [|done].
  apply (inj (app _)), (inj (fmap Some)) in Hrec. subst received.
  rewrite Forall_forall in Hall. unfold system_messages in Hm.
  apply list_elem_of_omap in Hm as (x & Hx & Hxm). destruct x; try discriminate Hxm.
  injection Hxm as ->. destruct (Hall _ Hx) as [[hs Hhs]|H]; [discriminate Hhs|exact H].
Defined.
End samples.
