(* ===== verification/Agreement.v ===== *)
(** * Replicas agree

    A system of drivers that run an actor over one log.  The Raft library and the transfer
    of snapshots between replicas are represented by what they promise: the entries handed
    out at an index are the same everywhere and come in order, and a snapshot that is handed
    out was held by the store of a replica before.  Given that, replicas that have applied
    the same part of the log are in the same state, whatever else their drivers were asked
    to do. *)

From S2P Require Import Prelude RaftTypes Storage Endpoint F64 Snapshot Handshake Communication Model.
From S2P Require Import Consensus Driver DriverProps Counter DriverTheorems.

(** ** What Raft hands out *)

Inductive Handed :=
| HandedSnapshot (snapshot : RaftSnapshot)
| HandedEntries (entries : list RaftEntry).

(** The history of a node: all that it handed out, and the snapshots, by their index, that
    its store may hold.  Only a ready hands something out; a store holds what a call put
    there. *)
Section histories.
Context {R St : Type} `{HRaft : !Raft R St, HStore : !Store St}.

Definition same_history (handed : R → list Handed) (held : R → list (Z * bytes)) (r r' : R) : Prop :=
  handed r' = handed r ∧ held r' = held r ∧ raft_initialized r' = raft_initialized r.

Class RaftHistory : Type := {
  handed : R → list Handed;
  held : R → list (Z * bytes);
  (* a store that holds nothing *)
  fresh : St → Prop;
  history_init r id config snapshot leader store r' :
    raft_initialized r = false → fresh store → raft_init r id config snapshot leader store = Return (r', Ok ()) →
    handed r' = handed r ∧ raft_initialized r' = true ∧
    ∀ x, x ∈ held r' → x ∈ held r ∨ (leader = true ∧ x = (1, snapshot));
  history_step r message r' res :
    raft_make_step r message = Return (r', res) → same_history handed held r r';
  history_proposal r proposal r' res :
    raft_make_proposal r proposal = Return (r', res) → same_history handed held r r';
  history_config_proposal r change r' res :
    raft_make_config_change_proposal r change = Return (r', res) → same_history handed held r r';
  history_tick r r' : raft_make_tick r = Return r' → same_history handed held r r';
  history_config_change r change r' res :
    raft_apply_config_change r change = Return (r', res) → same_history handed held r r';
  history_get_ready r r' ready :
    raft_get_ready r = Return (r', ready) →
    handed r' = handed r ++ [HandedSnapshot (rr_snapshot ready);
                             HandedEntries (rr_committed_entries ready)] ∧
    held r' = held r ∧ raft_initialized r' = raft_initialized r;
  history_advance_ready r ready r' light :
    raft_advance_ready r ready = Return (r', light) →
    handed r' = handed r ++ [HandedEntries (rl_committed_entries light)] ∧
    held r' = held r ∧ raft_initialized r' = raft_initialized r;
  history_advance_apply r r' : raft_advance_apply r = Return r' → same_history handed held r r';
  history_report r id status r' :
    raft_report_snapshot r id status = Return r' → same_history handed held r r';
  history_set_hard_state r st state r' :
    raft_store r = Return st → raft_set_store r (store_set_hard_state st state) = Return r' →
    same_history handed held r r';
  history_append r st entries st' res r' :
    raft_store r = Return st → store_append_entries st entries = Return (st', res) →
    raft_set_store r st' = Return r' → same_history handed held r r';
  history_apply_snapshot r st snapshot st' res r' :
    raft_store r = Return st → store_apply_snapshot st snapshot = Return (st', res) →
    raft_set_store r st' = Return r' →
    handed r' = handed r ∧ raft_initialized r' = raft_initialized r ∧
    ∀ x, x ∈ held r' → x ∈ held r ∨
      ∃ metadata, get_metadata snapshot = Return metadata ∧
        x = (md_index metadata, snap_data snapshot);
  history_create_snapshot r st index config data st' res r' :
    raft_store r = Return st → store_create_snapshot st index config data = Return (st', res) →
    raft_set_store r st' = Return r' →
    handed r' = handed r ∧ raft_initialized r' = raft_initialized r ∧
    ∀ x, x ∈ held r' → x ∈ held r ∨ x = (index, data)
}.
End histories.
Arguments RaftHistory R St {_ _}.

(** ** Actors whose replicas can agree *)

Section actors.
Context {Ent A : Type} `{HActor : !Actor Ent A}.

(** [same] relates actors in the same replicated state, [behind] a state with one that the
    log reaches from it. *)
Class AgreeingActor (same behind : A → A → Prop) : Prop := {
  same_equivalence :: Equivalence same;
  behind_proper :: Proper (same ==> same ==> iff) behind;
  behind_preorder :: PreOrder behind;
  agree_init ctx1 ctx2 a1 a2 a1' a2' :
    ctx_config ctx1 = ctx_config ctx2 →
    on_init ctx1 a1 = Returned (a1', Ok ()) → on_init ctx2 a2 = Returned (a2', Ok ()) →
    same a1' a2';
  agree_shutdown a : same (on_shutdown a) a;
  agree_command ctx ent command a a' o :
    on_process_command ctx ent command a = Returned (a', Ok o) → same a' a;
  agree_save ctx a a' data : on_save_snapshot ctx a = Returned (a', Ok data) → same a' a;
  agree_load ctx ctx' a a' data b b' :
    behind b a → on_save_snapshot ctx a = Returned (a', Ok data) →
    on_load_snapshot ctx' data b = Returned (b', Ok ()) → same b' a;
  agree_event ctx1 ctx2 ent1 ent2 c1 c2 event a1 a2 a1' o1 :
    same a1 a2 → on_apply_event ctx1 ent1 c1 event a1 = Returned (a1', Ok o1) →
    ∃ a2' o2, on_apply_event ctx2 ent2 c2 event a2 = Returned (a2', Ok o2) ∧ same a1' a2';
  agree_event_behind ctx ent c event a a' o :
    on_apply_event ctx ent c event a = Returned (a', Ok o) → behind a a'
}.

Context (same behind : A → A → Prop) `{HA : !AgreeingActor same behind}.
Context `{HEntry : !ProtoCodec Entry}.
(** The committed log, and the configuration that the replicas are started with. *)
Variables (log : Z → RaftEntry) (config : bytes).

(** The states that replicas can be in after the log up to an index.  The log starts with a
    snapshot of the initial state at index one. *)
Inductive state_at : Z → A → Prop :=
| at_new ctx a0 a :
    ctx_config ctx = config → on_init ctx a0 = Returned (a, Ok ()) → state_at 0 a
| at_first a : state_at 0 a → state_at 1 a
| at_same n a a' : state_at n a → same a' a → state_at n a'
| at_event n a i p event ctx ent c a' o :
    1 ≤ n → state_at n a → committed_event (log (n + 1)) = Some (i, p, event) →
    on_apply_event ctx ent c event a = Returned (a', Ok o) → state_at (n + 1) a'
| at_other n a :
    1 ≤ n → state_at n a → committed_event (log (n + 1)) = None → state_at (n + 1) a
| at_load n a ctx data a' m b ctx' b' :
    state_at n a → on_save_snapshot ctx a = Returned (a', Ok data) →
    state_at m b → m ≤ n → on_load_snapshot ctx' data b = Returned (b', Ok ()) →
    state_at n b'.

(** The run of the log from one initial state, with fixed inputs. *)
Context (ctx0 : ActorContext) (ent0 : Ent) (c0 : ActorEventContext) (first : A).

Definition run_step (n : Z) (a : A) : option A :=
  match committed_event (log n) with
  | None => Some a
  | Some (_, _, event) =>
      match on_apply_event ctx0 ent0 c0 event a with
      | Returned (a', Ok _) => Some a'
      | _ => None
      end
  end.

(** After [k] entries; the first has index two. *)
Fixpoint log_run (k : nat) : option A :=
  match k with
  | O => Some first
  | S k => a ← log_run k; run_step (Z.of_nat k + 2) a
  end.

Definition run_length (n : Z) : nat := Z.to_nat (n - 1).

Lemma log_run_behind_add k j a b : log_run k = Some a → log_run (j + k) = Some b → behind a b.
Proof using HA.
  intros Ha. revert b. induction j as [|j IH]; intros b; simpl.
  - rewrite Ha. by intros [= <-].
  - intros (x & Hx & Hs)%bind_Some. transitivity x; [by apply IH|].
    unfold run_step in Hs. destruct (committed_event _) as [[[i p] event]|]; [|by injection Hs as <-].
    destruct (on_apply_event _ _ _ _ _) as [[y [o|]]| |] eqn:Hy; try done. injection Hs as <-.
    by eapply agree_event_behind.
Qed.

Lemma log_run_behind n m a b :
  n ≤ m → log_run (run_length n) = Some a → log_run (run_length m) = Some b → behind a b.
Proof using HA.
  intros Hnm Ha Hb. eapply (log_run_behind_add (run_length n) (run_length m - run_length n)); [done|].
  replace (run_length m - run_length n + run_length n)%nat with (run_length m); [done|].
  unfold run_length. lia.
Qed.

(** Every state at an index is that of the run. *)
Lemma state_at_run n a :
  (∀ ctx a0 a, ctx_config ctx = config → on_init ctx a0 = Returned (a, Ok ()) → same a first) →
  state_at n a → 0 ≤ n ∧ ∃ c, log_run (run_length n) = Some c ∧ same a c.
Proof using HA.
  intros Hfirst. induction 1 as [ctx a1 a Hc Hi|a Ha [_ (c & Hc & Hs)]|n a a' Ha [Hn (c & Hc & Hs)] Hsame
    |n a i p event ctx ent cc a' o Hn Ha [_ (c & Hc & Hs)] Hev Hap
    |n a Hn Ha [_ (c & Hc & Hs)] Hev|n a ctx data a' m b ctx' b' Ha [Hn (c & Hc & Hs)] Hsave
      Hb [Hm (d & Hd & Hsd)] Hmn Hload].
  - split; [lia|]. exists first. split; [done|]. by eapply Hfirst.
  - split; [lia|]. by exists c.
  - split; [lia|]. exists c. split; [done|]. by etrans.
  - split; [lia|]. destruct (agree_event ctx ctx0 ent ent0 cc c0 event a c a' o Hs Hap)
      as (c' & o' & Hc' & Hs').
    exists c'. split; [|done].
    replace (run_length (n + 1)) with (S (run_length n)) by (unfold run_length; lia).
    simpl. rewrite Hc. simpl. unfold run_step.
    replace (Z.of_nat (run_length n) + 2) with (n + 1) by (unfold run_length; lia).
    by rewrite Hev, Hc'.
  - split; [lia|]. exists c. split; [|done].
    replace (run_length (n + 1)) with (S (run_length n)) by (unfold run_length; lia).
    simpl. rewrite Hc. simpl. unfold run_step.
    replace (Z.of_nat (run_length n) + 2) with (n + 1) by (unfold run_length; lia).
    by rewrite Hev.
  - split; [lia|]. exists c. split; [done|]. transitivity a; [|done].
    eapply (agree_load ctx ctx'); [|exact Hsave|exact Hload].
    rewrite Hsd, Hs. by apply (log_run_behind m n).
Qed.
End actors.

Section actors_agree.
Context {Ent A : Type} `{HActor : !Actor Ent A, HInh : !Inhabited Ent}.
Context (same behind : A → A → Prop) `{HA : !AgreeingActor same behind}.
Context `{HEntry : !ProtoCodec Entry}.
Variables (log : Z → RaftEntry) (config : bytes).

#[local] Abbreviation state_at := (state_at same log config).

Lemma state_at_init n a :
  state_at n a → ∃ ctx a0 a1, ctx_config ctx = config ∧ on_init ctx a0 = Returned (a1, Ok ()).
Proof. induction 1; eauto. Qed.

(** At one index there is one replicated state. *)
Lemma state_at_agree n a1 a2 : state_at n a1 → state_at n a2 → same a1 a2.
Proof using HA HInh.
  intros H1 H2. destruct (state_at_init n a1 H1) as (ctx & a0 & first & Hctx & Hinit).
  assert (∀ ctx a0 a, ctx_config ctx = config → on_init ctx a0 = Returned (a, Ok ()) →
    same a first) as Hfirst.
  { intros ctx' a0' a Hc Hi. eapply (agree_init ctx' ctx); [congruence|exact Hi|exact Hinit]. }
  pose (c0 := {| ec_index := 0; ec_owned := false |}).
  destruct (state_at_run same behind log config ctx inhabitant c0 first n a1 Hfirst H1)
    as (_ & x & Hx & Hs1).
  destruct (state_at_run same behind log config ctx inhabitant c0 first n a2 Hfirst H2)
    as (_ & y & Hy & Hs2).
  rewrite Hx in Hy. injection Hy as <-. by rewrite Hs1, Hs2.
Qed.

Lemma state_at_nonneg n a : state_at n a → 0 ≤ n.
Proof. induction 1; lia. Qed.

(** A snapshot that a replica took at an index. *)
Definition saved (x : Z * bytes) : Prop :=
  ∃ ctx a a', state_at x.1 a ∧ on_save_snapshot ctx a = Returned (a', Ok x.2).

(** Replaying the entries that follow an index. *)
Lemma replay_state_at ctx ent self k n a a' cs :
  1 ≤ n → state_at n a →
  replay ctx ent self (omap committed_event (map log (seqZ (n + 1) (Z.of_nat k)))) a
  = Returned (a', Ok cs) →
  state_at (n + Z.of_nat k) a'.
Proof.
  revert n a cs. induction k as [|k IH]; intros n a cs Hn Ha Hr.
  - simpl in Hr. injection Hr as <- _. by rewrite Z.add_0_r.
  - rewrite seqZ_cons in Hr by lia. cbn [map omap list_omap] in Hr.
    replace (Z.pred (Z.of_nat (S k))) with (Z.of_nat k) in Hr by lia.
    replace (Z.succ (n + 1)) with (n + 1 + 1) in Hr by lia.
    replace (n + Z.of_nat (S k)) with (n + 1 + Z.of_nat k) by lia.
    destruct (committed_event (log (n + 1))) as [[[i p] event]|] eqn:E; cbn [replay] in Hr.
    + apply method_bind_Returned in Hr as (a1 & o & H1 & Hr).
      apply method_bind_Returned in Hr as (a2 & cs' & H2 & [= -> _]).
      eapply IH; [lia| |exact H2]. by eapply at_event.
    + eapply IH; [lia| |exact Hr]. by apply at_other.
Qed.
End actors_agree.

(** ** Drivers *)

Section drivers.
Context {OS : OakSession} {R St P Sd Rc A Ent C : Type}.
Context `{HRaft : !Raft R St, HStore : !Store St, HSender : !SnapshotSender Sd,
          HReceiver : !SnapshotReceiver Rc, HProc : !SnapshotProcessor P Sd Rc,
          HActor : !Actor Ent A, HComm : !CommunicationModule C}.
Context `{HMsg : !ProtoCodec RaftMessage, HChange : !ProtoCodec RaftConfigChange,
          HEntry : !ProtoCodec Entry, HInh : !Inhabited Ent, HHist : !RaftHistory R St}.
Context (same behind : A → A → Prop) `{HA : !AgreeingActor same behind}.
Variable create_store : Z → St.
Variable snapshot_is_empty : RaftSnapshot → bool.
Variable request_fuel : nat.
Variables (log : Z → RaftEntry) (config : bytes).

#[local] Abbreviation Drv := (@Driver OS R P A C).
#[local] Abbreviation state_at := (state_at same log config).
#[local] Abbreviation saved := (saved same log config).

Definition applied_index (d : Drv) : Z := rp_applied_index (dr_raft_progress d).

(** *** What methods leave alone *)

(** The history, and the actor and the applied index when they are asked for. *)
Definition view (actor index : bool) (d : Drv) :=
  (handed (dr_raft d), held (dr_raft d), raft_initialized (dr_raft d), dr_is_ephemeral d,
   dr_driver_state d, if actor then Some (dr_actor d) else None,
   if index then Some (applied_index d) else None).

Section quiet.
Context {actor index : bool}.

Definition quiet {X} (m : method Drv PalError X) : Prop :=
  ∀ d, mwp m (λ _ d', view actor index d' = view actor index d) (λ _ _, True) d.

Lemma quiet_bind {X Y} (m : method Drv PalError X) (f : X → method Drv PalError Y) :
  quiet m → (∀ x, quiet (f x)) → quiet (m ≫= f).
Proof.
  intros Hm Hf d. apply mwp_bind. eapply mwp_mono; [apply Hm| |done].
  intros x d1 H1. eapply mwp_mono; [apply Hf| |done]. simpl. intros y d2 H2. congruence.
Qed.

Lemma quiet_pure {X} (m : method Drv PalError X) :
  (∀ d d' x, m d = Returned (d', Ok x) → d' = d) → quiet m.
Proof.
  intros H d. unfold mwp. destruct (m d) as [[d' [x|e]]| |] eqn:E; try done.
  by rewrite (H _ _ _ E).
Qed.

Lemma quiet_ret {X} (x : X) : quiet (mret x).
Proof. apply quiet_pure. by intros d d' y [= <- _]. Qed.

Lemma quiet_get : quiet get_self.
Proof. apply quiet_pure. by intros d d' y [= <- _]. Qed.

Lemma quiet_try {X} (r : result PalError X) : quiet (try_ r).
Proof. apply quiet_pure. by intros d d' y [= <- _]. Qed.

Lemma quiet_fail {X} e : quiet (fail (A := X) e).
Proof. apply quiet_pure. by intros d d' y. Qed.

Lemma quiet_call {X} (o : outcome X) : quiet (call o).
Proof. apply quiet_pure. intros d d' y. unfold call. by destruct o; intros [= <- _]. Qed.

Lemma quiet_read_store {X} (f : St → outcome X) : quiet (read_store f).
Proof.
  apply quiet_pure. intros d d' x. unfold read_store.
  by destruct (raft_store (dr_raft d) ≫= f); intros [= <- _].
Qed.

Lemma quiet_modify f : (∀ d, view actor index (f d) = view actor index d) → quiet (modify f).
Proof. intros H d. apply H. Qed.

Lemma quiet_on_raft {X} (f : R → outcome (R * X)) :
  (∀ r r' x, f r = Return (r', x) → same_history handed held r r') → quiet (on_raft f).
Proof.
  intros H d. unfold mwp, on_raft. destruct (f (dr_raft d)) as [[r x]|] eqn:E; [|done].
  destruct (H _ _ _ E) as (H1 & H2 & H3). unfold view. cbn. by rewrite H1, H2, H3.
Qed.

Lemma quiet_on_raft_ f :
  (∀ r r', f r = Return r' → same_history handed held r r') → quiet (on_raft_ f).
Proof.
  intros H. apply quiet_on_raft. intros r r' x (r1 & H1 & [= <- _])%bind_Return. by apply H.
Qed.

Lemma quiet_on_communication {X} (f : C → outcome (C * result PalError X)) : quiet (on_communication f).
Proof.
  intros d. unfold mwp, on_communication. by destruct (f (dr_communication d)) as [[c [x|e]]|].
Qed.

Lemma quiet_on_role {X} (f : Sd + Rc → exec ((Sd + Rc) * X)) : quiet (on_role f).
Proof.
  intros d. unfold mwp, on_role.
  destruct (snapshot_role (dr_snapshot d) (dr_instant d)) as [[p role]|]; [|done].
  by destruct (f role) as [[role' x]| |].
Qed.

Lemma quiet_stash_message m : quiet (stash_message m).
Proof. by apply quiet_modify. Qed.

Lemma quiet_for_each {X} (f : X → method Drv PalError unit) l :
  (∀ x, quiet (f x)) → quiet (for_each f l).
Proof. intros H. induction l as [|x l IH]; [apply quiet_ret|]. by apply quiet_bind. Qed.

Lemma on_store_Return {X} (f : St → outcome (St * X)) (d d' : Drv) x :
  on_store f d = Returned (d', Ok x) →
  ∃ st st' r, raft_store (dr_raft d) = Return st ∧ f st = Return (st', x) ∧
    raft_set_store (dr_raft d) st' = Return r ∧ d' = set_driver_raft r d.
Proof.
  unfold on_store, on_raft. intros H.
  destruct (raft_store (dr_raft d)) as [st|] eqn:E1; [|done]. simpl in H.
  destruct (f st) as [[st' y]|] eqn:E2; [|done]. simpl in H.
  destruct (raft_set_store (dr_raft d) st') as [r|] eqn:E3; [|done]. simpl in H.
  injection H as <- <-. by exists st, st', r.
Qed.

Lemma quiet_on_store {X} (f : St → outcome (St * X)) :
  (∀ r st st' x r', raft_store r = Return st → f st = Return (st', x) →
     raft_set_store r st' = Return r' → same_history handed held r r') →
  quiet (on_store f).
Proof.
  intros H d. unfold mwp. destruct (on_store f d) as [[d' [x|]]| |] eqn:E; try done.
  apply on_store_Return in E as (st & st' & r & H1 & H2 & H3 & ->).
  destruct (H _ _ _ _ _ H1 H2 H3) as (G1 & G2 & G3). unfold view. cbn. by rewrite G1, G2, G3.
Qed.

End quiet.
#[local] Arguments quiet actor index {X} m.

Lemma quiet_on_actor {X} index (m : method A ActorError X) : quiet false index (on_actor m).
Proof.
  intros d. unfold mwp, on_actor. by destruct (m (dr_actor d)) as [[a [x|e]]| |].
Qed.

Lemma quiet_set_applied_index actor index : quiet actor false (set_applied_index index).
Proof. by apply quiet_modify. Qed.

Create HintDb quiet.
#[local] Hint Resolve quiet_ret quiet_get quiet_try quiet_fail quiet_call quiet_read_store
  quiet_on_communication quiet_on_role quiet_stash_message quiet_on_actor
  quiet_set_applied_index : quiet.

Ltac quiet_step :=
  lazymatch goal with
  | |- quiet _ _ (mbind _ _) => apply quiet_bind; [|intros ?]
  | |- quiet _ _ (for_each _ _) => apply quiet_for_each; intros ?
  | |- quiet _ _ (match ?x with _ => _ end) => destruct x
  | |- quiet _ _ (modify _) => by apply quiet_modify
  | |- quiet _ _ (on_raft_ _) =>
      apply quiet_on_raft_; intros ? ?;
      first [apply history_tick|apply history_advance_apply|apply history_report]
  | |- quiet _ _ (on_raft _) =>
      apply quiet_on_raft; intros ? ? ?;
      first [apply history_step|apply history_proposal|apply history_config_proposal
            |apply history_config_change]
  | |- quiet _ _ (on_store _) =>
      apply quiet_on_store; intros ? ? ? ? ?;
      first [apply history_append|intros ? [= <- _]; by apply history_set_hard_state]
  | |- quiet _ _ _ => solve [auto with quiet nocore]
  end.

Lemma quiet_trigger_raft_tick actor index : quiet actor index trigger_raft_tick.
Proof. unfold trigger_raft_tick. repeat quiet_step. Qed.

Lemma quiet_send_raft_messages actor index messages : quiet actor index (send_raft_messages messages).
Proof. unfold send_raft_messages, send_raft_message, stash_snapshot. repeat quiet_step. Qed.

Lemma quiet_stash_leader_state actor index : quiet actor index stash_leader_state.
Proof. unfold stash_leader_state, update_snapshot_cluster_change. repeat quiet_step. Qed.

Lemma quiet_process_snapshot_progress actor index : quiet actor index process_snapshot_progress.
Proof. unfold process_snapshot_progress. repeat quiet_step. Qed.

Lemma quiet_process_snapshot_sending actor index : quiet actor index (process_snapshot_sending request_fuel).
Proof. unfold process_snapshot_sending. repeat quiet_step. Qed.

Lemma quiet_process_actor_raft_proposals actor index : quiet actor index process_actor_raft_proposals.
Proof. unfold process_actor_raft_proposals, make_raft_proposal. repeat quiet_step. Qed.

Lemma quiet_stash_log_entries actor index logs : quiet actor index (stash_log_entries logs).
Proof. unfold stash_log_entries. repeat quiet_step. Qed.

Lemma quiet_stash_comms actor index : quiet actor index stash_comms_module_entries.
Proof. unfold stash_comms_module_entries. repeat quiet_step. Qed.

Lemma quiet_take_out actor index : quiet actor index take_out_messages.
Proof. unfold take_out_messages. repeat quiet_step. Qed.

Lemma quiet_preset actor index instant : quiet actor index (preset_state_machine instant).
Proof. unfold preset_state_machine. repeat quiet_step. Qed.

(** Messages other than those that start and stop the replica. *)
Lemma quiet_dispatch actor index message :
  (∀ m, message ≠ InStartReplica m) → message ≠ InStopReplica →
  quiet actor index (dispatch create_store message).
Proof.
  intros Hstart Hstop. destruct message; try done; [by destruct (Hstart m)|..];
  unfold dispatch, process_change_cluster, process_check_cluster, process_deliver_system_message,
    process_deliver_snapshot_request, process_deliver_snapshot_response,
    process_deliver_snapshot_failure, deliver_to_sender, process_get_replica_state,
    process_secure_channel_handshake, make_raft_config_change_proposal, make_raft_step,
    reset_leader_state, check_driver_started, check_driver_state, check_non_ephemeral;
  repeat quiet_step.
Qed.

Lemma quiet_apply_entries ent entries : quiet false false (apply_raft_committed_entries ent entries).
Proof.
  unfold apply_raft_committed_entries, apply_committed_entry, collect_config_state, stash_command.
  repeat quiet_step.
Qed.

(** *** Following the log *)

(** What Raft promises about the history of a node that is at index [n]: the entries are
    those of the log that follow, and a snapshot is one that some store held, not older
    than what was applied. *)
Fixpoint handed_ok (M : list (Z * bytes)) (n : Z) (h : list Handed) : Prop :=
  match h with
  | [] => True
  | HandedSnapshot s :: h =>
      if snapshot_is_empty s then handed_ok M n h
      else ∃ metadata, get_metadata s = Return metadata ∧
        (md_index metadata, snap_data s) ∈ M ∧ n ≤ md_index metadata ∧
        handed_ok M (md_index metadata) h
  | HandedEntries entries :: h =>
      merge_sort entry_index_le entries = map log (seqZ (n + 1) (zlen entries)) ∧
      handed_ok M (n + zlen entries) h
  end.

(** The index that a history leads to. *)
Fixpoint index_after (n : Z) (h : list Handed) : Z :=
  match h with
  | [] => n
  | HandedSnapshot s :: h =>
      index_after (if snapshot_is_empty s then n
                   else match snap_metadata s with Some m => md_index m | None => n end) h
  | HandedEntries entries :: h => index_after (n + zlen entries) h
  end.

Lemma handed_ok_app M n h1 h2 :
  handed_ok M n (h1 ++ h2) ↔ handed_ok M n h1 ∧ handed_ok M (index_after n h1) h2.
Proof.
  revert n. induction h1 as [|[s|entries] h1 IH]; intros n; simpl.
  - tauto.
  - destruct (snapshot_is_empty s); [apply IH|]. split.
    + intros (m & Hm & Hin & Hle & H). apply IH in H as [H1 H2].
      unfold get_metadata in Hm. apply unwrap_Return in Hm as Hm'. rewrite Hm'. eauto 10.
    + intros [(m & Hm & Hin & Hle & H1) H2]. unfold get_metadata in Hm.
      apply unwrap_Return in Hm as Hm'. rewrite Hm' in H2. exists m. split_and!; [done..|].
      by apply IH.
  - rewrite IH. tauto.
Qed.

Lemma index_after_app n h1 h2 : index_after n (h1 ++ h2) = index_after (index_after n h1) h2.
Proof.
  revert n. induction h1 as [|[s|entries] h1 IH]; intros n; simpl; [done|apply IH..].
Qed.

Lemma handed_ok_prefix M n h1 h2 : h1 `prefix_of` h2 → handed_ok M n h2 → handed_ok M n h1.
Proof. by intros [h ->] [H _]%handed_ok_app. Qed.

(** Snapshots that stores held before. *)
Context (M : list (Z * bytes)) (HM : ∀ x, x ∈ M → saved x).
Hypothesis log_index : ∀ i, entry_index (log i) = i.
Hypothesis create_fresh : ∀ n, fresh (create_store n).

(** A replica that has done all of the history [h]. *)
Record tracks (h : list Handed) (d : Drv) : Prop := {
  tr_ephemeral : dr_is_ephemeral d = false;
  tr_state : dr_driver_state d ≠ DriverCreated;
  tr_index : Z.max 1 (applied_index d) = index_after 1 h;
  tr_actor : state_at (applied_index d) (dr_actor d);
  tr_held : ∀ x, x ∈ held (dr_raft d) → saved x
}.

(** An initialised replica with [p] of its history left to do. *)
Definition following (p : list Handed) (d : Drv) : Prop :=
  raft_initialized (dr_raft d) = true ∧ ∃ h, handed (dr_raft d) = h ++ p ∧ tracks h d.

Definition replica_ok (d : Drv) : Prop :=
  if raft_initialized (dr_raft d) then following [] d
  else handed (dr_raft d) = [] ∧ held (dr_raft d) = [] ∧ applied_index d = 0.

Lemma following_view p d d' : view true true d' = view true true d → following p d → following p d'.
Proof.
  intros [= H1 H2 H3 H4 H5 H6 H7] [Hi (h & Hh & [T1 T2 T3 T4 T5])].
  split; [congruence|]. exists h. split; [congruence|].
  split; rewrite ?H2, ?H4, ?H5, ?H6, ?H7; done.
Qed.

Lemma replica_ok_view d d' : view true true d' = view true true d → replica_ok d → replica_ok d'.
Proof.
  intros Hv. pose proof Hv as [= H1 H2 H3 H4 H5 H6 H7]. unfold replica_ok. rewrite H3.
  destruct (raft_initialized (dr_raft d)).
  - by apply following_view.
  - by rewrite H1, H2, H7.
Qed.

(** A driver that was not started has no node. *)
Definition unstarted (d : Drv) : Prop :=
  dr_driver_state d = DriverCreated → raft_initialized (dr_raft d) = false.

Lemma unstarted_view actor index d d' :
  view actor index d' = view actor index d → unstarted d → unstarted d'.
Proof. intros [= _ _ H3 _ H5 _ _] H. unfold unstarted. by rewrite H3, H5. Qed.

(** The history only grows; when it is as promised, a method that finds [I] leaves [J]. *)
Definition grows {X} (I : Drv → Prop) (J : X → Drv → Prop) (m : method Drv PalError X) : Prop :=
  ∀ d, unstarted d → mwp m (λ x d', unstarted d' ∧ handed (dr_raft d) `prefix_of` handed (dr_raft d') ∧
    (handed_ok M 1 (handed (dr_raft d')) → I d → J x d')) (λ _ _, True) d.

Lemma grows_bind {X Y} I J K (m : method Drv PalError X) (f : X → method Drv PalError Y) :
  grows I J m → (∀ x, grows (J x) K (f x)) → grows I K (m ≫= f).
Proof.
  intros Hm Hf d Hd. apply mwp_bind. eapply mwp_mono; [by apply Hm| |done].
  intros x d1 (U1 & P1 & H1). eapply mwp_mono; [by apply Hf| |done]. intros y d2 (U2 & P2 & H2). simpl.
  split; [done|]. split; [by etrans|]. intros Hok HI. apply H2; [done|]. apply H1; [|done].
  by eapply handed_ok_prefix.
Qed.

Lemma grows_quiet {X} (I : Drv → Prop) (m : method Drv PalError X) :
  (∀ d d', view true true d' = view true true d → I d → I d') → quiet true true m → grows I (λ _, I) m.
Proof.
  intros HI Hm d Hd. eapply mwp_mono; [apply Hm| |done]. simpl. intros x d' Hv.
  split; [by eapply unstarted_view|].
  pose proof Hv as [= H1 _ _ _ _ _ _]. rewrite H1. split; [done|]. intros _. by apply HI.
Qed.

Lemma grows_following {X} p (m : method Drv PalError X) :
  quiet true true m → grows (following p) (λ _, following p) m.
Proof. apply grows_quiet. intros d d'. apply following_view. Qed.

Lemma grows_ok {X} (m : method Drv PalError X) : quiet true true m → grows replica_ok (λ _, replica_ok) m.
Proof. apply grows_quiet. intros d d'. apply replica_ok_view. Qed.

Lemma grows_get_ready :
  grows (following []) (λ ready, following [HandedSnapshot (rr_snapshot ready);
    HandedEntries (rr_committed_entries ready)]) (on_raft raft_get_ready).
Proof.
  intros d Hd. unfold mwp, on_raft. destruct (raft_get_ready (dr_raft d)) as [[r ready]|] eqn:E; [|done].
  destruct (history_get_ready _ _ _ E) as (H1 & H2 & H3). cbn.
  split; [unfold unstarted; cbn; by rewrite H3|]. split; [rewrite H1; by apply prefix_app_r|].
  intros _ [Hi (h & Hh & [T1 T2 T3 T4 T5])]. split; [cbn; congruence|]. exists h. cbn.
  rewrite H1, Hh, app_nil_r. split; [done|]. split; cbn; try done. by rewrite H2.
Qed.

Lemma grows_advance_ready ready :
  grows (following []) (λ light, following [HandedEntries (rl_committed_entries light)])
    (on_raft (λ raft, raft_advance_ready raft ready)).
Proof.
  intros d Hd. unfold mwp, on_raft.
  destruct (raft_advance_ready (dr_raft d) ready) as [[r light]|] eqn:E; [|done].
  destruct (history_advance_ready _ _ _ _ E) as (H1 & H2 & H3). cbn.
  split; [unfold unstarted; cbn; by rewrite H3|]. split; [rewrite H1; by apply prefix_app_r|].
  intros _ [Hi (h & Hh & [T1 T2 T3 T4 T5])]. split; [cbn; congruence|]. exists h. cbn.
  rewrite H1, Hh, app_nil_r. split; [done|]. split; cbn; try done. by rewrite H2.
Qed.

(** The committed entries of a ready lead to the state of their last index. *)
Lemma grows_apply_entries ent entries p :
  grows (following (HandedEntries entries :: p)) (λ _, following p)
    (apply_raft_committed_entries ent entries).
Proof.
  intros d Hd. pose proof (quiet_apply_entries ent entries d) as Hq. unfold mwp in *.
  destruct (apply_raft_committed_entries ent entries d) as [[d' [[]|]]| |] eqn:E; try done.
  split; [by eapply unstarted_view|].
  injection Hq as H1 H2 H3 H4 H5. rewrite H1. split; [done|].
  intros Hok [Hi (h & Hh & [T1 T2 T3 T4 T5])]. split; [congruence|].
  exists (h ++ [HandedEntries entries]).
  split; [rewrite H1, Hh; by rewrite <- (assoc_L (++))|].
  rewrite Hh in Hok. apply handed_ok_app in Hok as [_ [Hlog _]].
  apply for_each_applied in E as (_ & (cs & Hr & _) & Hx). fold (applied_index d) in Hx.
  fold (applied_index d') in Hx. rewrite Hlog in Hr, Hx. rewrite <- T3 in Hr, Hx.
  pose proof (state_at_nonneg _ _ _ _ _ T4) as Hnn.
  assert (applied_index d' = match entries with [] => applied_index d
    | _ => Z.max 1 (applied_index d) + zlen entries end) as Hindex.
  { destruct entries as [|e entries]; [by rewrite Hx|].
    rewrite Hx. cbn [length]. rewrite seqZ_S, map_app. cbn [map]. rewrite last_snoc. simpl. rewrite log_index. lia. }
  assert (state_at (Z.max 1 (applied_index d)) (dr_actor d)) as T4'.
  { destruct (decide (applied_index d = 0)) as [E0|]; [|by rewrite Z.max_r by lia].
    rewrite E0 in T4 |- *. by apply at_first. }
  split; rewrite ?H4, ?H5, ?H2; try done.
  - rewrite index_after_app. simpl. rewrite <- T3, Hindex. destruct entries; simpl; lia.
  - rewrite Hindex. destruct entries as [|e entries].
    + simpl in Hr. injection Hr as <- _. done.
    + eapply replay_state_at; [|exact T4'|exact Hr]. lia.
Qed.

(** A snapshot leads to the state it was taken in. *)
Lemma grows_restore_snapshot snapshot p :
  grows (following (HandedSnapshot snapshot :: p)) (λ _, following p)
    (restore_raft_snapshot snapshot_is_empty snapshot).
Proof.
  intros d Hd. unfold restore_raft_snapshot. destruct (snapshot_is_empty snapshot) eqn:Eempty.
  { apply mwp_ret. split; [done|]. split; [done|]. intros _ [Hi (h & Hh & [T1 T2 T3 T4 T5])]. split; [done|].
    exists (h ++ [HandedSnapshot snapshot]). rewrite Hh, <- (assoc_L (++)). split; [done|].
    split; try done. rewrite index_after_app. simpl. by rewrite Eempty. }
  mwp_step. mwp_step. mwp_step. unfold collect_config_state at 1, modify at 1, mwp at 1.
  mwp_step. match goal with |- mwp _ _ _ ?d1 => set (d1' := d1) end.
  unfold mwp at 1.
  destruct (on_store _ d1') as [[d2 [res|]]| |] eqn:Estore; try done.
  apply on_store_Return in Estore as (st & st' & r & S1 & S2 & S3 & ->).
  destruct (history_apply_snapshot _ _ _ _ _ _ S1 S2 S3) as (H1 & H2 & H3).
  mwp_step. mwp_step; [|done]. mwp_step. mwp_step. mwp_step.
  unfold mwp at 1, on_actor at 1.
  destruct (on_load_snapshot _ _ _) as [[a' [[]|]]| |] eqn:Eload; try done.
  mwp_step. apply mwp_call. intros metadata Hm. unfold mwp, set_applied_index, modify. cbn in *.
  split; [unfold unstarted; cbn; by rewrite H2|].
  rewrite H1. split; [done|]. intros Hok [Hi (h & Hh & [T1 T2 T3 T4 T5])].
  split; [cbn; congruence|]. exists (h ++ [HandedSnapshot snapshot]). cbn.
  rewrite H1, Hh, <- (assoc_L (++)). split; [done|].
  rewrite Hh in Hok. apply handed_ok_app in Hok as [_ Hok]. simpl in Hok. rewrite Eempty in Hok.
  destruct Hok as (md & Hmd & Hin & Hle & _). rewrite Hm in Hmd. injection Hmd as <-.
  pose proof (HM _ Hin) as (ctx & b & b' & Hb & Hsave). simpl in Hb, Hsave.
  pose proof (state_at_nonneg _ _ _ _ _ T4) as Hnn. rewrite <- T3 in Hle.
  split; cbn; try done.
  - unfold applied_index. cbn. rewrite index_after_app. simpl. rewrite Eempty.
    unfold get_metadata in Hm. apply unwrap_Return in Hm as ->. lia.
  - unfold applied_index. cbn. eapply at_load; [exact Hb|exact Hsave|exact T4|lia|exact Eload].
  - intros x [Hx|(md & Hmd & ->)]%H3; [by apply T5|]. rewrite Hm in Hmd. injection Hmd as <-.
    by apply HM.
Qed.

Lemma grows_advance_raft ent :
  grows (following []) (λ _, following []) (advance_raft snapshot_is_empty ent).
Proof.
  unfold advance_raft. eapply grows_bind; [apply grows_following, quiet_trigger_raft_tick|].
  intros []. eapply grows_bind; [apply grows_following, quiet_get|]. intros d.
  eapply grows_bind; [apply grows_following, quiet_call|]. intros [|]; simpl;
    [|apply grows_following, quiet_ret].
  eapply grows_bind; [apply grows_get_ready|]. intros ready.
  eapply grows_bind; [apply grows_following, quiet_send_raft_messages|]. intros [].
  eapply grows_bind; [apply grows_following; repeat quiet_step|]. intros [].
  eapply grows_bind; [apply grows_restore_snapshot|]. intros [].
  eapply grows_bind; [apply grows_apply_entries|]. intros [].
  eapply grows_bind; [apply grows_following, quiet_send_raft_messages|]. intros [].
  eapply grows_bind; [apply grows_following; repeat quiet_step|]. intros [].
  eapply grows_bind; [apply grows_advance_ready|]. intros light.
  eapply grows_bind; [apply grows_following, quiet_send_raft_messages|]. intros [].
  eapply grows_bind; [apply grows_apply_entries|]. intros [].
  apply grows_following. repeat quiet_step.
Qed.

(** A snapshot is taken of the state at the applied index. *)
Lemma grows_maybe_create_snapshot :
  grows (following []) (λ _, following []) maybe_create_raft_snapshot.
Proof.
  intros d Hd. unfold maybe_create_raft_snapshot. mwp_step. mwp_step. mwp_step.
  unfold mwp at 1, read_store at 1.
  destruct (raft_store (dr_raft d) ≫= _) as [should|]; [|done].
  destruct should; simpl; [|mwp_step; done]. mwp_step. unfold mwp at 1, on_actor at 1.
  destruct (on_save_snapshot _ _) as [[a [data|]]| |] eqn:Esave; try done.
  mwp_step. unfold mwp at 1.
  destruct (on_store _ _) as [[d2 [res|]]| |] eqn:Estore; try done.
  apply on_store_Return in Estore as (st & st' & r & S1 & S2 & S3 & ->).
  destruct (history_create_snapshot _ _ _ _ _ _ _ _ S1 S2 S3) as (H1 & H2 & H3). cbn in *.
  destruct res; [|done]. cbn. split; [unfold unstarted; cbn; by rewrite H2|].
  rewrite H1. split; [done|].
  intros _ [Hi (h & Hh & [T1 T2 T3 T4 T5])]. split; [cbn; congruence|].
  exists h. cbn. split; [congruence|]. split; cbn; try done.
  - eapply at_same; [exact T4|]. by eapply agree_save.
  - intros x [Hx| ->]%H3; [by apply T5|]. by exists (core_context (dr_core d)), (dr_actor d), a.
Qed.

Lemma grows_process_state_machine ent :
  grows replica_ok (λ _, replica_ok) (process_state_machine snapshot_is_empty ent).
Proof.
  intros d Hd. unfold process_state_machine. mwp_step. mwp_step.
  destruct (raft_initialized (dr_raft d)) eqn:Hi; [|mwp_step; done].
  assert (grows (following []) (λ _, following [])
    (advance_raft snapshot_is_empty ent;; maybe_create_raft_snapshot;; stash_leader_state)) as Hg.
  { eapply grows_bind; [apply grows_advance_raft|]. intros [].
    eapply grows_bind; [apply grows_maybe_create_snapshot|]. intros [].
    apply grows_following, quiet_stash_leader_state. }
  eapply mwp_mono; [by apply Hg| |done]. simpl. intros [] d' (Hu & Hp & H).
  split; [done|]. split; [done|]. intros Hok HI. unfold replica_ok in *. rewrite Hi in HI. destruct (H Hok HI) as [Hi' Hf].
  rewrite Hi'. by split.
Qed.

Lemma check_driver_state_spec state (d : Drv) :
  mwp (check_driver_state state) (λ _ d', d' = d ∧ dr_driver_state d = state) (λ _ _, True) d.
Proof.
  unfold check_driver_state. mwp_step. mwp_step. destruct (decide (dr_driver_state d ≠ state)) as [|Hd];
    [done|]. split; [done|]. by destruct (decide (dr_driver_state d = state)) as [|Hne].
Qed.

(** Commands leave the replicated state alone; what they want to change is proposed. *)
Lemma grows_process_deliver_app_message command_ent event_ent m :
  grows replica_ok (λ _, replica_ok) (process_deliver_app_message command_ent event_ent m).
Proof.
  intros d Hd. unfold process_deliver_app_message.
  apply mwp_bind. eapply mwp_mono; [apply check_driver_state_spec| |done]. intros [] ? [-> _].
  mwp_step. mwp_step. mwp_step. unfold mwp at 1, on_actor at 1.
  destruct (on_process_command _ _ _ _) as [[a [o|]]| |] eqn:Ecmd; try done.
  set (d1 := set_driver_actor a d).
  assert (replica_ok d → replica_ok d1) as Hd1.
  { unfold replica_ok. cbn. destruct (raft_initialized (dr_raft d)) eqn:Hi; [|done].
    intros [_ (h & Hh & [T1 T2 T3 T4 T5])]. split; [done|]. exists h. split; [done|].
    split; try done. eapply at_same; [exact T4|]. by eapply agree_command. }
  assert (handed (dr_raft d1) = handed (dr_raft d)) as Hhanded by done.
  mwp_step. eapply mwp_mono; [apply (quiet_for_each (actor := true) (index := true)); intros c;
    apply quiet_stash_message| |done]. simpl. intros [] d2 Hv.
  pose proof Hv as [= V1 V2 V3 V4 V5 V6 V7].
  assert (unstarted d2) as Hu2 by (eapply (unstarted_view true true d1); [exact Hv|exact Hd]).
  assert (replica_ok d → replica_ok d2) as Hd2 by (intros HI; eapply replica_ok_view; [exact Hv|by apply Hd1]).
  destruct (co_event o) as [ev|]; [|mwp_step; by rewrite V1].
  destruct (dr_is_ephemeral d) eqn:Eeph; last first.
  { unfold modify, mwp. cbn. split; [exact Hu2|]. split; [by rewrite V1|]. intros _ HI.
    apply (replica_ok_view d2); [done|by apply Hd2]. }
  mwp_step. unfold mwp at 1, on_actor at 1.
  destruct (on_apply_event _ _ _ _ _) as [[a' [eo|]]| |]; try done.
  eapply mwp_mono; [apply (quiet_for_each (actor := true) (index := true)); intros c;
    apply quiet_stash_message| |done]. simpl. intros [] d3 Hv3.
  split; [eapply unstarted_view; [exact Hv3|exact Hu2]|].
  pose proof Hv3 as [= W1 W2 W3 W4 W5 W6 W7]. rewrite W1. cbn. rewrite V1. split; [done|].
  intros _ HI. unfold replica_ok in *. rewrite W3. cbn. rewrite V3.
  destruct (raft_initialized (dr_raft d)) eqn:Hi.
  - destruct HI as [_ (h & _ & [T1 _ _ _ _])]. congruence.
  - rewrite W1, W2. unfold applied_index in *. rewrite W7. cbn. rewrite V1, V2, V7. done.
Qed.

Lemma grows_process_stop_node : grows replica_ok (λ _, replica_ok) process_stop_node.
Proof.
  intros d Hd. unfold process_stop_node. mwp_step. mwp_step.
  case_decide as Hst; [mwp_step; done|].
  mwp_step. unfold modify at 1, mwp at 1. mwp_step. unfold modify at 1, mwp at 1.
  unfold stash_message, modify, mwp. cbn. split; [done|]. split; [done|]. intros _.
  unfold replica_ok. cbn. destruct (raft_initialized (dr_raft d)) eqn:Hi; [|done].
  intros [_ (h & Hh & [T1 T2 T3 T4 T5])]. split; [done|]. exists h. split; [done|].
  split; try done. eapply at_same; [exact T4|]. apply agree_shutdown.
Qed.

(** Starting Raft: the leader's store holds the initial state at index one. *)
Lemma initialize_raft_node_ok raft_config snapshot leader d :
  raft_initialized (dr_raft d) = false →
  mwp (initialize_raft_node create_store raft_config snapshot leader)
    (λ _ d', raft_initialized (dr_raft d') = true ∧ handed (dr_raft d') = handed (dr_raft d) ∧
       dr_actor d' = dr_actor d ∧ dr_is_ephemeral d' = dr_is_ephemeral d ∧
       applied_index d' = (if leader then 1 else applied_index d) ∧
       ∀ x, x ∈ held (dr_raft d') → x ∈ held (dr_raft d) ∨ (leader = true ∧ x = (1, snapshot)))
    (λ _ _, True) d.
Proof.
  intros Hi. unfold initialize_raft_node. mwp_step. mwp_step. mwp_step.
  unfold modify at 1, mwp at 1. mwp_step. unfold mwp at 1, on_raft at 1. cbn.
  destruct (raft_init _ _ _ _ _ _) as [[r [[]|e]]|] eqn:E; [| |done].
  2: { mwp_step. by mwp_step. }
  destruct (history_init _ _ _ _ _ _ _ Hi (create_fresh _) E) as (H1 & H2 & H3).
  mwp_step. mwp_step; [|done]. mwp_step.
  destruct leader.
  - unfold modify at 1, mwp at 1. mwp_step. unfold modify at 1, mwp at 1. mwp_step. mwp_step.
    mwp_step. mwp_step. by unfold modify, mwp.
  - mwp_step. mwp_step. unfold modify at 1, mwp at 1. mwp_step. mwp_step. mwp_step. mwp_step.
    by unfold modify, mwp.
Qed.

Lemma grows_process_start_node request :
  srr_app_config request = config →
  grows replica_ok (λ _, replica_ok) (process_start_node create_store request).
Proof.
  intros Hconfig d Hd. unfold process_start_node. apply mwp_bind.
  eapply mwp_mono; [apply check_driver_state_spec| |done]. intros [] ? [-> Hcreated].
  mwp_step. unfold modify at 1, mwp at 1. mwp_step. unfold modify at 1, mwp at 1.
  mwp_step. mwp_step. mwp_step. unfold mwp at 1, on_actor at 1. cbn.
  destruct (on_init _ _) as [[a [[]|]]| |] eqn:Einit; try done.
  assert (state_at 0 a) as Ha by (eapply at_new; [|exact Einit]; by rewrite <- Hconfig).
  mwp_step. unfold modify at 1, mwp at 1. mwp_step.
  destruct (srr_is_ephemeral request) eqn:Eeph.
  { mwp_step. mwp_step. unfold modify at 1, mwp at 1. mwp_step. unfold modify at 1, mwp at 1.
    unfold stash_message, modify, mwp. cbn. split; [done|]. split; [done|]. intros _.
    unfold replica_ok. cbn. destruct (raft_initialized (dr_raft d)); [|done]. intros [_ (h & _ & [_ T2 _ _ _])]. done. }
  mwp_step. unfold mwp at 1, on_actor at 1. cbn.
  destruct (on_save_snapshot _ _) as [[a' [snapshot|]]| |] eqn:Esave; try done.
  mwp_step. mwp_step. mwp_step. unfold modify at 1, mwp at 1.
  eapply mwp_mono; [apply initialize_raft_node_ok; by apply Hd| |done].
  intros [] d3 (H1 & H2 & H3 & H4 & H5 & H6). cbn in H2, H3, H4, H6.
  mwp_step. unfold modify at 1, mwp at 1. mwp_step. unfold modify at 1, mwp at 1.
  unfold stash_message, modify, mwp. cbn. rewrite H2. split; [done|]. split; [done|].
  intros _ HI. unfold replica_ok in *. cbn. rewrite H1.
  destruct (raft_initialized (dr_raft d)) eqn:Hi.
  { destruct HI as [_ (h & _ & [_ T2 _ _ _])]. done. }
  destruct HI as (I1 & I2 & I3). split; [done|]. exists []. cbn. rewrite H2, I1. split; [done|].
  assert (state_at 0 a') as Ha'
    by (eapply at_same; [exact Ha|]; by eapply agree_save).
  change (applied_index (set_driver_snapshot _ _)) with (applied_index d) in H5.
  split; unfold applied_index in *; cbn; rewrite ?H3, ?H4, ?H5; try done.
  - destruct (srr_is_leader request); [done|]. by rewrite I3.
  - destruct (srr_is_leader request); [by apply at_first|]. by rewrite I3.
  - intros x [Hx|[_ ->]]%H6; [rewrite I2 in Hx; by apply elem_of_nil in Hx|].
    eexists _, a, a'. split; [by apply at_first|]. simpl. exact Esave.
Qed.

Lemma grows_process_and_send ent logs app :
  grows replica_ok (λ _, replica_ok)
    (process_and_send snapshot_is_empty request_fuel ent logs app).
Proof.
  unfold process_and_send. eapply grows_bind; [apply grows_ok, quiet_get|]. intros d.
  eapply grows_bind.
  { case_decide; [|apply grows_ok, quiet_ret].
    eapply grows_bind; [apply grows_process_deliver_app_message|]. intros [].
    apply grows_ok. repeat quiet_step. }
  intros []. eapply grows_bind; [apply grows_ok, quiet_get|]. intros d'. eapply grows_bind.
  { destruct (dr_is_ephemeral d'); [apply grows_ok, quiet_ret|].
    eapply grows_bind; [apply grows_ok, quiet_process_actor_raft_proposals|]. intros [].
    eapply grows_bind; [apply grows_ok, quiet_process_snapshot_progress|]. intros [].
    eapply grows_bind; [apply grows_process_state_machine|]. intros [].
    apply grows_ok, quiet_process_snapshot_sending. }
  intros []. eapply grows_bind; [apply grows_ok, quiet_stash_log_entries|]. intros [].
  eapply grows_bind; [apply grows_ok, quiet_stash_comms|]. intros [].
  apply grows_ok, quiet_take_out.
Qed.

(** A start request carries the configuration that the replicas share. *)
Definition starts_with (message : option (option InMsg)) : Prop :=
  match message with
  | Some (Some (InStartReplica request)) => srr_app_config request = config
  | _ => True
  end.

Lemma grows_dispatch message :
  starts_with (Some (Some message)) →
  grows replica_ok (λ _, replica_ok) (dispatch create_store message).
Proof.
  intros Hm. destruct message; try (apply grows_ok, quiet_dispatch; done).
  - by apply grows_process_start_node.
  - apply grows_process_stop_node.
Qed.

(** A call whose history is as promised keeps the replica on the log. *)
Lemma call_follows ent logs instant opt_message d d' r :
  starts_with opt_message →
  receive_message create_store snapshot_is_empty request_fuel ent logs instant opt_message d
  = Returned (d', Ok r) →
  unstarted d → unstarted d' ∧ (handed_ok M 1 (handed (dr_raft d')) → replica_ok d → replica_ok d').
Proof.
  intros Hm Hr Hd.
  assert (grows replica_ok (λ _, replica_ok)
    (receive_message create_store snapshot_is_empty request_fuel ent logs instant opt_message)) as Hg.
  { unfold receive_message. eapply grows_bind; [apply grows_ok, quiet_preset|]. intros [].
    destruct opt_message as [[message|]|].
    - eapply grows_bind; [by apply grows_dispatch|]. intros [].
      eapply grows_bind; [apply grows_process_and_send|]. intros sent. apply grows_ok, quiet_ret.
    - apply grows_ok, quiet_ret.
    - eapply grows_bind; [apply grows_process_and_send|]. intros sent. apply grows_ok, quiet_ret. }
  by destruct (mwp_Returned _ _ _ _ _ _ (Hg d Hd) Hr) as (Hu & _ & H).
Qed.
End drivers.

(** ** The system *)

Section system.
Context {OS : OakSession} {R St P Sd Rc A Ent C : Type}.
Context `{HRaft : !Raft R St, HStore : !Store St, HSender : !SnapshotSender Sd,
          HReceiver : !SnapshotReceiver Rc, HProc : !SnapshotProcessor P Sd Rc,
          HActor : !Actor Ent A, HComm : !CommunicationModule C}.
Context `{HMsg : !ProtoCodec RaftMessage, HChange : !ProtoCodec RaftConfigChange,
          HEntry : !ProtoCodec Entry, HInh : !Inhabited Ent, HHist : !RaftHistory R St}.
Context (same behind : A → A → Prop) `{HA : !AgreeingActor same behind}.
Variable create_store : Z → St.
Variable snapshot_is_empty : RaftSnapshot → bool.
Variable request_fuel : nat.
Variables (raft0 : R) (snapshot0 : P) (communication0 : C).
Variables (log : Z → RaftEntry) (config : bytes).
(** The node of a new driver, and the numbering of the log. *)
Hypothesis raft0_new : raft_initialized raft0 = false ∧ handed raft0 = [] ∧ held raft0 = [].
Hypothesis log_index : ∀ i, entry_index (log i) = i.
Hypothesis create_fresh : ∀ n, fresh (create_store n).

#[local] Abbreviation Drv := (@Driver OS R P A C).

(** Drivers that are created, called in any order with any messages, times and draws, and
    removed; with the snapshots that their stores have held.  The history of a node after a
    call is as Raft promises. *)
Inductive system_ran : gmap Z Drv → list (Z * bytes) → Prop :=
| sys_empty : system_ran ∅ []
| sys_add id actor σ M :
    system_ran σ M →
    system_ran (<[id := driver_new raft0 snapshot0 actor communication0]> σ) M
| sys_remove id σ M : system_ran σ M → system_ran (delete id σ) M
| sys_call id d ent logs instant opt_message d' r σ M :
    system_ran σ M → σ !! id = Some d → starts_with config opt_message →
    receive_message create_store snapshot_is_empty request_fuel ent logs instant opt_message d
    = Returned (d', Ok r) →
    handed_ok snapshot_is_empty log M 1 (handed (dr_raft d')) →
    system_ran (<[id := d']> σ) (M ++ held (dr_raft d')).

Lemma system_ran_ok σ M :
  system_ran σ M →
  map_Forall (λ _ d, unstarted d ∧ replica_ok same snapshot_is_empty log config d) σ ∧
  ∀ x, x ∈ M → saved same log config x.
Proof using HA create_fresh log_index raft0_new.
  induction 1 as [|id actor σ M _ [IH1 IH2]|id σ M _ [IH1 IH2]
    |id d ent logs instant opt_message d' r σ M _ [IH1 IH2] Hid Hm Hr Hok].
  - split; [apply map_Forall_empty|]. by intros x ?%elem_of_nil.
  - split; [|done]. apply map_Forall_insert_2; [|done]. destruct raft0_new as (R1 & R2 & R3).
    split; [by intros _|]. unfold replica_ok. cbn. by rewrite R1.
  - split; [by apply map_Forall_delete|done].
  - destruct (IH1 id d Hid) as [Hu Hd].
    destruct (call_follows same behind create_store snapshot_is_empty request_fuel log config M IH2
      log_index create_fresh ent logs instant opt_message d d' r Hm Hr Hu) as [Hu' Hd'].
    specialize (Hd' Hok Hd). split; [by apply map_Forall_insert_2|].
    intros x [Hx|Hx]%elem_of_app; [by apply IH2|].
    unfold replica_ok in Hd'. destruct (raft_initialized (dr_raft d')).
    + destruct Hd' as [_ (h & _ & [_ _ _ _ T5])]. by apply T5.
    + destruct Hd' as (_ & Hh & _). rewrite Hh in Hx. by apply elem_of_nil in Hx.
Qed.

(** C3: Replicas agree on what they have applied.  Take an actor whose replicated state is
    determined by the configuration and the events applied ([AgreeingActor]): initialising it
    and applying an event depend on nothing else, processing a command, saving a snapshot and
    shutting down leave the state as it is, and a loaded snapshot restores the saved state.
    The counter is such an actor; the ledger, whose commands can move its clock, and the
    tablet store, whose initial tablets are drawn at random, are not.  Take any run of a
    system of drivers of such an actor: they are started with one configuration, called in any
    order and with any messages, stopped and removed.  If Raft hands out one log, in order, and
    only snapshots that the store of some replica held, then any two replicas at the same applied index are in the same
    replicated state, also when one of them got there by a snapshot; a replica at index
    zero has the state that the log starts from; and every snapshot in a store is that of
    the state at its index, so that loading it into a replica that is behind leads to the
    state of any replica at that index. *)
Theorem system_replicas_agree σ M i j d1 d2 :
  system_ran σ M → σ !! i = Some d1 → σ !! j = Some d2 →
  raft_initialized (dr_raft d1) = true → raft_initialized (dr_raft d2) = true →
  (applied_index d1 = applied_index d2 → same (dr_actor d1) (dr_actor d2)) ∧
  (applied_index d1 = 0 → applied_index d2 = 1 → same (dr_actor d1) (dr_actor d2)) ∧
  (∀ data ctx a, (applied_index d1, data) ∈ M → applied_index d2 ≤ applied_index d1 →
     on_load_snapshot ctx data (dr_actor d2) = Returned (a, Ok ()) → same a (dr_actor d1)).
Proof using HA HInh create_fresh log_index raft0_new.
  intros Hs H1 H2 I1 I2. apply system_ran_ok in Hs as [Hall HM].
  destruct (Hall i d1 H1) as [_ K1], (Hall j d2 H2) as [_ K2].
  unfold replica_ok in K1, K2. rewrite I1 in K1. rewrite I2 in K2.
  destruct K1 as [_ (h1 & _ & [_ _ _ S1 _])], K2 as [_ (h2 & _ & [_ _ _ S2 _])]. split_and!.
  - intros E. rewrite E in S1. by eapply (state_at_agree same behind).
  - intros E1 E2. rewrite E1 in S1. rewrite E2 in S2. apply at_first in S1.
    by eapply (state_at_agree same behind).
  - intros data ctx a Hin Hle Hload. destruct (HM _ Hin) as (ctx' & b & b' & Hb & Hsave).
    simpl in Hb, Hsave. eapply (state_at_agree same behind); [|exact S1].
    eapply at_load; [exact Hb|exact Hsave|exact S2|exact Hle|exact Hload].
Qed.
End system.

(** ** The runtime's node and store *)

Section simple_history.
Context {N Ready : Type} `{HNode : !RawNode N MemoryStorageCore Ready}.

(** The snapshot of a store; index zero stands for none. *)
Definition store_held (st : MemoryStorageCore) : list (Z * bytes) :=
  match snap_metadata (msc_snapshot st) with
  | Some metadata =>
      if decide (md_index metadata = 0) then []
      else [(md_index metadata, snap_data (msc_snapshot st))]
  | None => []
  end.

Definition same_node_history (node_handed : N → list Handed) (n n' : N) : Prop :=
  node_handed n' = node_handed n ∧
  msc_snapshot (node_store n') = msc_snapshot (node_store n).

(** What the library does with the store it is given, and what it hands out: it reads the
    store and only hands something out with a ready. *)
Class NodeHistory : Type := {
  node_handed : N → list Handed;
  node_new_history config store n :
    node_new config store = Ok n →
    node_handed n = [] ∧ msc_snapshot (node_store n) = msc_snapshot store;
  node_store_set n st :
    node_store (node_set_store n st) = st ∧ node_handed (node_set_store n st) = node_handed n;
  node_step_history n message n' res :
    node_step n message = Return (n', res) → same_node_history node_handed n n';
  node_propose_history n proposal n' res :
    node_propose n proposal = Return (n', res) → same_node_history node_handed n n';
  node_propose_conf_history n change n' res :
    node_propose_conf_change n change = Return (n', res) → same_node_history node_handed n n';
  node_tick_history n n' : node_tick n = Return n' → same_node_history node_handed n n';
  node_apply_conf_history n change n' res :
    node_apply_conf_change n change = Return (n', res) → same_node_history node_handed n n';
  node_ready_history n n' ready raft_ready :
    node_ready n = Return (n', ready, raft_ready) →
    node_handed n' = node_handed n ++ [HandedSnapshot (rr_snapshot raft_ready);
                                       HandedEntries (rr_committed_entries raft_ready)] ∧
    msc_snapshot (node_store n') = msc_snapshot (node_store n);
  node_advance_history n ready n' light :
    node_advance n ready = Return (n', light) →
    node_handed n' = node_handed n ++ [HandedEntries (rl_committed_entries light)] ∧
    msc_snapshot (node_store n') = msc_snapshot (node_store n);
  node_advance_apply_history n n' :
    node_advance_apply n = Return n' → same_node_history node_handed n n';
  node_report_history n id status n' :
    node_report_snapshot n id status = Return n' → same_node_history node_handed n n'
}.

Context `{HHist : !NodeHistory}.

Definition simple_handed (r : @RaftSimple N Ready) : list Handed :=
  match rs_raft_node r with Some n => node_handed n | None => [] end.

Definition simple_held (r : @RaftSimple N Ready) : list (Z * bytes) :=
  match rs_raft_node r with Some n => store_held (node_store n) | None => [] end.

#[local] Abbreviation same_simple := (same_history (R := RaftSimple) simple_handed simple_held).

Lemma on_node_history {X} (f : N → outcome (N * X)) r r' x :
  (∀ n n' y, f n = Return (n', y) → same_node_history node_handed n n') →
  on_node r f = Return (r', x) → same_simple r r'.
Proof.
  intros Hf (n & Hn & H)%bind_Return. apply bind_Return in H as ([n' y] & H1 & [= <- <-]).
  apply unwrap_Return in Hn. destruct (Hf _ _ _ H1) as [G1 G2].
  unfold same_history, simple_handed, simple_held, store_held. cbn.
  unfold simple_initialized. cbn. rewrite Hn, G1, G2. done.
Qed.

Lemma on_node_history_ (f : N → outcome N) r r' :
  (∀ n n', f n = Return n' → same_node_history node_handed n n') →
  on_node_ r f = Return r' → same_simple r r'.
Proof.
  intros Hf (n & Hn & H)%bind_Return. apply bind_Return in H as (n' & H1 & [= <-]).
  apply unwrap_Return in Hn. destruct (Hf _ _ H1) as [G1 G2].
  unfold same_history, simple_handed, simple_held, store_held. cbn.
  unfold simple_initialized. cbn. rewrite Hn, G1, G2. done.
Qed.

(** Writing a store back to the node. *)
Lemma set_store_history r st st' r' :
  simple_store r = Return st → simple_set_store r st' = Return r' →
  simple_handed r' = simple_handed r ∧ simple_initialized r' = simple_initialized r ∧
  simple_held r' = store_held st' ∧ simple_held r = store_held st.
Proof.
  intros (n & Hn & [= <-])%bind_Return (n' & Hn' & [= <-])%bind_Return.
  apply unwrap_Return in Hn, Hn'. rewrite Hn in Hn'. injection Hn' as <-.
  destruct (node_store_set n st') as [G1 G2].
  unfold simple_handed, simple_held, simple_initialized. cbn. by rewrite Hn, G1, G2.
Qed.

(** *** What the store's methods hold *)

Lemma append_entries_held st entries st' res :
  append_entries st entries = Return (st', res) → msc_snapshot st' = msc_snapshot st.
Proof.
  unfold append_entries. destruct entries; [by intros [= <- _]|]. intros H. outcome_inv.
  case_decide; outcome_inv. case_decide; outcome_inv. by simplify_eq.
Qed.

Lemma set_snapshot_held st snapshot st' :
  set_snapshot st snapshot = Return st' → msc_snapshot st' = snapshot.
Proof. unfold set_snapshot. intros H. outcome_inv. by simplify_eq. Qed.

Lemma apply_snapshot_held st snapshot st' res :
  apply_snapshot st snapshot = Return (st', res) →
  msc_snapshot st' = msc_snapshot st ∨ msc_snapshot st' = snapshot.
Proof.
  unfold apply_snapshot. intros H. outcome_inv. case_decide; outcome_inv; simplify_eq; [by left|].
  right. by eapply set_snapshot_held.
Qed.

Lemma compact_entries_held st index st' res :
  compact_entries st index = Return (st', res) → msc_snapshot st' = msc_snapshot st.
Proof.
  unfold compact_entries. intros H. outcome_inv. case_decide; outcome_inv; [by simplify_eq|].
  case_decide; outcome_inv. destruct (head (msc_entries st)); outcome_inv; by simplify_eq.
Qed.

Lemma create_snapshot_held st index config data st' res :
  create_snapshot st index config data = Return (st', res) →
  msc_snapshot st' = msc_snapshot st ∨
  ∃ term, msc_snapshot st' =
    create_raft_snapshot (create_raft_snapshot_metadata index term config) data.
Proof.
  unfold create_snapshot. intros H. outcome_inv. case_decide; outcome_inv.
  case_decide; outcome_inv; [simplify_eq; by left|].
  match goal with H : match ?x with _ => _ end = _ |- _ => destruct x as [term|] end;
    outcome_inv; [|simplify_eq; by left].
  right. exists term. erewrite compact_entries_held by eassumption. by eapply set_snapshot_held.
Qed.

Lemma store_held_create index term config data x :
  (∃ st, msc_snapshot st = create_raft_snapshot (create_raft_snapshot_metadata index term config) data ∧
     x ∈ store_held st) → x = (index, data).
Proof.
  intros (st & Hst & Hx). unfold store_held in Hx. rewrite Hst in Hx. cbn in Hx.
  case_decide; [by apply elem_of_nil in Hx|]. by apply list_elem_of_singleton in Hx.
Qed.

#[global] Program Instance simple_history : RaftHistory (@RaftSimple N Ready) MemoryStorageCore :=
  {| handed := simple_handed; held := simple_held; fresh st := store_held st = [] |}.
Next Obligation.
  intros r id config snapshot leader store r' Hi Hfresh H. cbn in *. unfold simple_init in H.
  apply bind_Return in H as ([st res] & H1 & H). destruct res as [[]|]; [|done].
  destruct (node_new config st) as [n|] eqn:E; [|done]. injection H as <-.
  destruct (node_new_history _ _ _ E) as [G1 G2].
  assert (rs_raft_node r = None) as Hnone.
  { unfold simple_initialized in Hi. apply bool_decide_eq_false in Hi. by apply eq_None_not_Some. }
  unfold simple_handed, simple_held. cbn. rewrite Hnone, G1. split_and!; [done|done|].
  intros x Hx. right. unfold store_held in Hx. rewrite G2 in Hx. fold (store_held st) in Hx.
  destruct leader; [|injection H1 as <-; rewrite Hfresh in Hx; by apply elem_of_nil in Hx].
  split; [done|]. apply apply_snapshot_held in H1 as [Hsn|Hsn].
  - unfold store_held in Hx, Hfresh. rewrite Hsn, Hfresh in Hx. by apply elem_of_nil in Hx.
  - eapply store_held_create. by exists st.
Qed.
Next Obligation. intros r m r' res. apply on_node_history. intros n n' y. apply node_step_history. Qed.
Next Obligation.
  intros r m r' res. apply on_node_history. intros n n' y. apply node_propose_history.
Qed.
Next Obligation.
  intros r m r' res. apply on_node_history. intros n n' y. apply node_propose_conf_history.
Qed.
Next Obligation. intros r r'. apply on_node_history_, node_tick_history. Qed.
Next Obligation.
  intros r m r' res. apply on_node_history. intros n n' y. apply node_apply_conf_history.
Qed.
Next Obligation.
  intros r r' rd. cbn. intros (n & Hn & H)%bind_Return.
  apply bind_Return in H as ([[n' ready] raft_ready] & H1 & [= <- <-]). apply unwrap_Return in Hn.
  destruct (node_ready_history _ _ _ _ H1) as [G1 G2].
  unfold simple_handed, simple_held, simple_initialized, store_held. cbn. by rewrite Hn, G1, G2.
Qed.
Next Obligation.
  intros r rd r' light. cbn. intros (ready & _ & H)%bind_Return.
  apply bind_Return in H as (n & Hn & H). apply bind_Return in H as ([n' l] & H1 & [= <- <-]).
  apply unwrap_Return in Hn. destruct (node_advance_history _ _ _ _ H1) as [G1 G2].
  unfold simple_handed, simple_held, simple_initialized, store_held. cbn. by rewrite Hn, G1, G2.
Qed.
Next Obligation. intros r r'. apply on_node_history_, node_advance_apply_history. Qed.
Next Obligation. intros r id status r'. apply on_node_history_. intros n n'. apply node_report_history. Qed.
Next Obligation.
  intros r st state r' H1 H2. destruct (set_store_history _ _ _ _ H1 H2) as (G1 & G2 & G3 & G4).
  split_and!; [done|by rewrite G3, G4|done].
Qed.
Next Obligation.
  intros r st entries st' res r' H1 H2 H3.
  destruct (set_store_history _ _ _ _ H1 H3) as (G1 & G2 & G3 & G4).
  split_and!; [done| |done]. rewrite G3, G4. unfold store_held. by erewrite append_entries_held.
Qed.
Next Obligation.
  intros r st snapshot st' res r' H1 H2 H3.
  destruct (set_store_history _ _ _ _ H1 H3) as (G1 & G2 & G3 & G4). split_and!; [done..|].
  intros x. cbn. rewrite G3, G4. intros Hx. apply apply_snapshot_held in H2 as [Hsn|Hsn].
  - left. unfold store_held in *. by rewrite <- Hsn.
  - right. unfold store_held in Hx. rewrite Hsn in Hx. unfold get_metadata.
    destruct (snap_metadata snapshot) as [md|]; [|by apply elem_of_nil in Hx]. exists md.
    split; [done|]. case_decide; [by apply elem_of_nil in Hx|]. by apply list_elem_of_singleton in Hx.
Qed.
Next Obligation.
  intros r st index config data st' res r' H1 H2 H3.
  destruct (set_store_history _ _ _ _ H1 H3) as (G1 & G2 & G3 & G4). split_and!; [done..|].
  intros x. cbn. rewrite G3, G4. intros Hx. apply create_snapshot_held in H2 as [Hsn|[term Hsn]].
  - left. unfold store_held in *. by rewrite <- Hsn.
  - right. eapply store_held_create. by exists st'.
Qed.
End simple_history.
Arguments NodeHistory N {_ _}.

(** ** The counter *)

Section counter_agrees.
Variable in_message_decode : bytes → option AtomicCounterInMessage.
Variable config_decode : bytes → option CounterConfig.
Context `{HReq : !ProtoCodec CounterRequest, HOut : !ProtoCodec AtomicCounterOutMessage,
          HSnap : !ProtoCodec CounterSnapshot}.

Definition same_counters (a b : CounterActor) : Prop := ca_values a = ca_values b.

(** Counters are never removed. *)
Definition fewer_counters (a b : CounterActor) : Prop := dom (ca_values a) ⊆ dom (ca_values b).

#[local] Instance counter_actor : Actor unit CounterActor :=
  CounterActor_Actor in_message_decode config_decode.

Lemma apply_cas_values name r payload a b a' o :
  same_counters a b → apply_compare_and_swap name r payload a = Returned (a', Ok o) →
  ∃ b', apply_compare_and_swap name r payload b = Returned (b', Ok o) ∧
    same_counters a' b' ∧ fewer_counters a a'.
Proof.
  unfold same_counters, fewer_counters, apply_compare_and_swap. intros <-.
  case_decide; intros [= <- <-]; (eexists; split; [done|]); simpl; (split; [done|]);
    rewrite dom_insert_L; set_solver.
Qed.

Lemma counter_event_values ctx1 ctx2 (ent1 ent2 : unit) c1 c2 event a1 a2 a1' o1 :
  same_counters a1 a2 → on_apply_event ctx1 ent1 c1 event a1 = Returned (a1', Ok o1) →
  (∃ a2' o2, on_apply_event ctx2 ent2 c2 event a2 = Returned (a2', Ok o2) ∧ same_counters a1' a2') ∧
  fewer_counters a1 a1'.
Proof.
  cbn. unfold counter_on_apply_event. intros Hs.
  intros (b1 & req & H1 & H)%method_bind_Returned. unfold try_ in H1. injection H1 as <- H1.
  apply method_bind_Returned in H as (b2 & op & H2 & H).
  unfold call in H2. destruct (unwrap (cr_op req)) as [op'|] eqn:Eop; [|done]. injection H2 as <- <-.
  apply method_bind_Returned in H as (b3 & resp & H3 & H).
  destruct op' as [r]. destruct (apply_cas_values _ _ _ _ a2 _ _ Hs H3) as (b4 & H4 & Hs4 & Hf).
  assert (b3 = a1') as -> by (by destruct (ec_owned c1); injection H as <- _).
  split; [|done]. unfold mbind, method_bind, try_, call. rewrite H1, Eop, H4.
  destruct (ec_owned c2); eexists _, _; by split.
Qed.

#[global] Instance counter_agreeing : AgreeingActor same_counters fewer_counters.
Proof.
  split.
  - split; repeat intro; unfold same_counters in *; congruence.
  - intros a a' Ha b b' Hb. unfold same_counters, fewer_counters in *. by rewrite Ha, Hb.
  - split; repeat intro; unfold fewer_counters in *; set_solver.
  - intros ctx1 ctx2 a1 a2 a1' a2' Hc. cbn. unfold counter_on_init, mbind, method_bind, set_self, try_, get_self.
    rewrite Hc. destruct (ok_or _ _); [|done]. by intros [= <-] [= <-].
  - done.
  - intros ctx ent command a a' o. cbn. unfold counter_on_process_command, same_counters.
    destruct command as [command|]; [|by intros [= <- _]].
    unfold counter_get_context, mbind, method_bind.
    destruct (in_message_decode _) as [[[request|]]|]; [|by intros [= <- _]|];
      (destruct (ca_context a); [|done]); [|by intros [= <- _]].
    destruct (ctx_leader ctx), (cr_op request); by intros [= <- _].
  - intros ctx a a' data. cbn. unfold counter_on_save_snapshot, mbind, method_bind, get_self.
    by intros [= <- _].
  - intros ctx ctx' a a' data b b' Hb Hsave Hload. unfold same_counters.
    destruct (counter_snapshot_roundtrip a a' data b Hb Hsave) as [_ H].
    change (counter_on_load_snapshot data b = Returned (b', Ok ())) in Hload.
    rewrite H in Hload. by injection Hload as <-.
  - intros. by eapply counter_event_values.
  - intros ctx ent c event a a' o H. eapply (counter_event_values ctx ctx ent ent c c); [|exact H]. done.
Qed.
End counter_agrees.

(** * A concrete system *)

Section samples.
#[local] Existing Instances comm_sample_oak_session comm_sample_client_handshaker
  comm_sample_server_handshaker comm_sample_hash_order sample_session_impl
  request_payload_codec response_payload_codec snapshot_metadata_codec
  counter_request_codec counter_out_codec counter_snapshot_codec
  raft_message_codec config_change_codec entry_codec toy_counter toy_communication.

(** Nodes that hand out what a script says: the first commits an entry, the second is
    brought up to date by a snapshot. *)
Record ScriptNode := {
  sn_store : MemoryStorageCore;
  sn_script : list (RaftSnapshot * list RaftEntry);
  sn_handed : list Handed
}.

Definition script_with (n : ScriptNode) (store : MemoryStorageCore)
    (script : list (RaftSnapshot * list RaftEntry)) (history : list Handed) : ScriptNode :=
  {| sn_store := store; sn_script := script; sn_handed := history |}.

Definition script_log (i : Z) : RaftEntry := toy_entry i 1.

Definition script_snapshot : RaftSnapshot :=
  create_raft_snapshot (create_raft_snapshot_metadata 2 1 (create_raft_config_state [1]))
    (proto_encode {| csn_values := {[ "a" := {| cv_value := 5; cv_payload := [] |} ]} |}).

Definition script (id : Z) : list (RaftSnapshot * list RaftEntry) :=
  if decide (id = 1) then [({| snap_data := []; snap_metadata := None |}, [script_log 2])]
  else [(script_snapshot, [])].

#[local] Instance script_raw_node : RawNode ScriptNode MemoryStorageCore unit :=
  {| node_new config store :=
       Ok {| sn_store := store; sn_script := script (rlc_id config); sn_handed := [] |};
     node_is_leader _ := false;
     node_leader_id _ := 1;
     node_term _ := 1;
     node_has_pending_conf _ := false;
     node_store := sn_store;
     node_set_store n st := script_with n st (sn_script n) (sn_handed n);
     node_step n _ := Return (n, Ok ());
     node_propose n _ := Return (n, Ok ());
     node_propose_conf_change n _ := Return (n, Err ProposalDropped);
     node_tick n := Return n;
     node_apply_conf_change n _ := Return (n, Err RaftOther);
     node_has_ready n := bool_decide (sn_script n ≠ []);
     node_ready n :=
       match sn_script n with
       | [] => Panic
       | (snapshot, entries) :: script =>
           Return (script_with n (sn_store n) script
                     (sn_handed n ++ [HandedSnapshot snapshot; HandedEntries entries]), (),
                   {| rr_messages := []; rr_persisted_messages := []; rr_entries := entries;
                      rr_committed_entries := entries; rr_hard_state := None;
                      rr_snapshot := snapshot; rr_number := 1 |})
       end;
     node_advance n _ :=
       Return (script_with n (sn_store n) (sn_script n) (sn_handed n ++ [HandedEntries []]),
               {| rl_messages := []; rl_committed_entries := [] |});
     node_advance_apply n := Return n;
     node_report_snapshot n _ _ := Return n |}.

#[local] Program Instance script_history : NodeHistory ScriptNode := {| node_handed := sn_handed |}.
Next Obligation. by intros config store n [= <-]. Qed.
Next Obligation. by intros n st. Qed.
Next Obligation. by intros n m n' res [= <- _]. Qed.
Next Obligation. by intros n m n' res [= <- _]. Qed.
Next Obligation. by intros n m n' res [= <- _]. Qed.
Next Obligation. by intros n n' [= <-]. Qed.
Next Obligation. by intros n m n' res [= <- _]. Qed.
Next Obligation.
  intros n n' ready raft_ready. cbn. destruct (sn_script n) as [|[snapshot entries] l]; [done|].
  by intros [= <- _ <-].
Qed.
Next Obligation. by intros n ready n' light [= <- <-]. Qed.
Next Obligation. by intros n n' [= <-]. Qed.
Next Obligation. by intros n id status n' [= <-]. Qed.

Definition ScriptDriver : Type :=
  @Driver _ (@RaftSimple ScriptNode unit)
    (@DefaultSnapshotProcessor DefaultSnapshotSender DefaultSnapshotReceiver) CounterActor
    (@DefaultCommunicationModule _ SampleSession DefaultEncryptor).

Definition script_driver : ScriptDriver :=
  driver_new raft_simple_new (processor_new sender_new receiver_new) counter_new comm_new.

(** A snapshot after every entry. *)
Definition script_start (id : Z) : option (option InMsg) :=
  Some (Some (InStartReplica
    {| srr_is_leader := bool_decide (id = 1); srr_replica_id_hint := id;
       srr_raft_config := Some
         {| rc_tick_period := 10; rc_election_tick := 20; rc_heartbeat_tick := 2;
            rc_max_size_per_msg := 0;
            rc_snapshot_config := Some
              {| cfg_snapshot_count := 0; cfg_chunk_size := 20; cfg_max_pending_chunks := 2 |};
            rc_handshake_retry_tick := 1 |};
       srr_app_config := []; srr_attestation_config := None; srr_is_ephemeral := false |})).

#[local] Abbreviation script_started id :=
  (receive_message storage_new toy_is_empty 20 toy_entropy [] 10 (script_start id) script_driver).

#[local] Abbreviation script_ran :=
  (system_ran storage_new toy_is_empty 20 raft_simple_new (processor_new sender_new receiver_new)
     comm_new script_log []).

(** What a call has to have done: the driver is at index two and its store holds [M]. *)
Definition check_started (M : list (Z * bytes))
    (x : exec (ScriptDriver * result PalError (option (list OutMessage)))) : bool :=
  match x with
  | Returned (d, Ok _) =>
      bool_decide (held (dr_raft d) = M) && raft_initialized (dr_raft d) &&
      bool_decide (applied_index d = 2)
  | _ => false
  end.

Definition handed_by (x : exec (ScriptDriver * result PalError (option (list OutMessage))))
    : list Handed :=
  match x with Returned (d, Ok _) => handed (dr_raft d) | _ => [] end.

Lemma check_started_spec M x :
  check_started M x = true →
  ∃ d r, x = Returned (d, Ok r) ∧ held (dr_raft d) = M ∧ raft_initialized (dr_raft d) = true ∧
    applied_index d = 2 ∧ handed_by x = handed (dr_raft d).
Proof.
  destruct x as [[d [r|]]| |]; [|done..]. unfold check_started.
  rewrite !andb_true_iff, !bool_decide_eq_true. intros [[H1 H2] H3]. by exists d, r.
Qed.

Lemma script_checked1 : check_started [(2, snap_data script_snapshot)] (script_started 1) = true.
Proof. vm_compute. reflexivity. Qed.

Lemma script_checked2 : check_started [(2, snap_data script_snapshot)] (script_started 2) = true.
Proof. vm_compute. reflexivity. Qed.

Lemma script_handed_ok1 : handed_ok toy_is_empty script_log [] 1 (handed_by (script_started 1)).
Proof.
  assert (handed_by (script_started 1) =
    [HandedSnapshot {| snap_data := []; snap_metadata := None |};
     HandedEntries [script_log 2]; HandedEntries []]) as -> by (vm_compute; reflexivity).
  split; [vm_compute; reflexivity|]. split; [vm_compute; reflexivity|exact I].
Qed.

Lemma script_handed_ok2 :
  handed_ok toy_is_empty script_log [(2, snap_data script_snapshot)] 1
    (handed_by (script_started 2)).
Proof.
  assert (handed_by (script_started 2) =
    [HandedSnapshot script_snapshot; HandedEntries []; HandedEntries []]) as ->
    by (vm_compute; reflexivity).
  exists (create_raft_snapshot_metadata 2 1 (create_raft_config_state [1])).
  split; [reflexivity|]. split; [by left|]. split; [vm_compute; discriminate|].
  split; [reflexivity|]. split; [reflexivity|exact I].
Qed.

Lemma script_raft0 :
  raft_initialized (R := @RaftSimple ScriptNode unit) raft_simple_new = false ∧
  handed (R := @RaftSimple ScriptNode unit) raft_simple_new = [] ∧
  held (R := @RaftSimple ScriptNode unit) raft_simple_new = [].
Proof. by vm_compute. Qed.

Lemma script_system d1 d2 r1 r2 :
  script_started 1 = Returned (d1, Ok r1) → script_started 2 = Returned (d2, Ok r2) →
  held (dr_raft d1) = [(2, snap_data script_snapshot)] →
  handed_ok toy_is_empty script_log [] 1 (handed (dr_raft d1)) →
  handed_ok toy_is_empty script_log [(2, snap_data script_snapshot)] 1 (handed (dr_raft d2)) →
  script_ran (<[2 := d2]> (<[2 := script_driver]> (<[1 := d1]> (<[1 := script_driver]> ∅))))
    (([] ++ held (dr_raft d1)) ++ held (dr_raft d2)).
Proof.
  intros E1 E2 M1 G1 G2.
  eapply (sys_call _ _ _ _ _ _ _ _ 2 script_driver toy_entropy [] 10 (script_start 2) d2 r2).
  - apply sys_add.
    eapply (sys_call _ _ _ _ _ _ _ _ 1 script_driver toy_entropy [] 10 (script_start 1) d1 r1).
    + apply sys_add, sys_empty.
    + apply lookup_insert_eq.
    + reflexivity.
    + exact E1.
    + exact G1.
  - apply lookup_insert_eq.
  - reflexivity.
  - exact E2.
  - rewrite M1. exact G2.
Qed.

(** The first replica applies the entry and takes a snapshot; the second loads it. *)
Lemma system_replicas_agree_witness :
  ∃ d1 d2 r1 r2, script_started 1 = Returned (d1, Ok r1) ∧ script_started 2 = Returned (d2, Ok r2) ∧
    applied_index d1 = 2 ∧ applied_index d2 = 2 ∧ same_counters (dr_actor d1) (dr_actor d2).
Proof.
  destruct (check_started_spec _ _ script_checked1) as (d1 & r1 & E1 & M1 & I1 & A1 & G1).
  destruct (check_started_spec _ _ script_checked2) as (d2 & r2 & E2 & M2 & I2 & A2 & G2).
  pose proof script_handed_ok1 as K1. rewrite G1 in K1.
  pose proof script_handed_ok2 as K2. rewrite G2 in K2.
  pose proof (script_system d1 d2 r1 r2 E1 E2 M1 K1 K2) as Hran.
  exists d1, d2, r1, r2. split; [exact E1|]. split; [exact E2|].
  split; [exact A1|]. split; [exact A2|].
  destruct (system_replicas_agree same_counters fewer_counters storage_new toy_is_empty 20
    raft_simple_new (processor_new sender_new receiver_new) comm_new script_log [] script_raft0
    (λ i, eq_refl) (λ n, eq_refl) _ _ 1 2 d1 d2 Hran) as [H _].
  - rewrite lookup_insert_ne by discriminate. rewrite lookup_insert_ne by discriminate.
    apply lookup_insert_eq.
  - apply lookup_insert_eq.
  - exact I1.
  - exact I2.
  - apply H. congruence.
Defined.
End samples.
