(* ===== verification/CacheTypes.v ===== *)
(** * Tablet transactions: messages, tablets and eventual results

    The data of [src/apps/tablet_cache/service/src/transaction.rs], the messages of
    [proto/tablet_cache.proto] and the eventual results of [transaction/result.rs],
    which the caches, the coordinator and the manager share. *)

From S2P Require Import Prelude TabletStore.

(** ** Ordered sets

    A [BTreeSet<u32>] is a finite set that is iterated in increasing order. *)

Definition set_iter (s : gset Z) : list Z := merge_sort Z.le (elements s).

(** ** Messages *)

Inductive TabletDataStorageStatus :=
| StorageUnspecified
| StorageFailed
| StorageSucceeded.

(** [TabletDataStorageStatus::from_i32] *)
Definition storage_status_from_i32 (status : Z) : option TabletDataStorageStatus :=
  match status with
  | 0 => Some StorageUnspecified
  | 1 => Some StorageFailed
  | 2 => Some StorageSucceeded
  | _ => None
  end.

Record LoadTabletRequest := { ltq_blob_uri : string }.

Record LoadTabletResponse := { ltr_status : Z }.

Record StoreTabletRequest := { stq_blob_uri : string }.

Record StoreTabletResponse := { str_status : Z }.

Record ExecuteTabletOpsRequest := { etq_recipient_node_id : Z }.

Record ExecuteTabletOpsFailure := {
  etf_status : Z;
  etf_diagnostic_message : string
}.

(** [InMessage]: what goes into the transaction manager, with correlation ids. *)
Inductive TransactionInMessage :=
| InLoadTabletResponse (correlation_id : Z) (response : LoadTabletResponse) (contents : bytes)
| InStoreTabletResponse (correlation_id : Z) (response : StoreTabletResponse)
| InExecuteTabletOpsResponse (correlation_id : Z) (response : TabletsResponse)
| InExecuteTabletOpsError (correlation_id : Z) (error : ExecuteTabletOpsFailure).

(** [OutMessage]: what comes from the transaction manager. *)
Inductive TransactionOutMessage :=
| OutLoadTabletRequest (correlation_id : Z) (request : LoadTabletRequest)
| OutStoreTabletRequest (correlation_id : Z) (request : StoreTabletRequest) (contents : bytes)
| OutExecuteTabletOpsRequest (correlation_id : Z) (request : ExecuteTabletOpsRequest)
    (tablets_request : TabletsRequest).

(** ** Configuration *)

Record TableMetadataCacheConfig := {
  tmc_table_name : string;
  tmc_table_region_size : Z
}.

Record TabletMetadataCacheConfig := { tmc_table_configs : list TableMetadataCacheConfig }.

Record TabletDataCacheConfig := { tdc_tablet_cache_capacity : Z }.

Record StoreConfig := {
  sc_table_name : string;
  sc_min_pending_before_resolve : Z;
  sc_min_pending_before_process : Z
}.

Record TransactionManagerConfig := {
  tmc_data_cache_config : option TabletDataCacheConfig;
  tmc_metadata_cache_config : option TabletMetadataCacheConfig
}.

(** ** Tablets

    [TabletData] is read-only shared data, hence its value. *)

Record Tablet (T : Type) := {
  tb_metadata : TabletMetadata;
  tb_contents : option T;
  tb_updated_contents : option T;
  tb_is_dirty : bool
}.
Arguments Build_Tablet {T}.
Arguments tb_metadata {T}.
Arguments tb_contents {T}.
Arguments tb_updated_contents {T}.
Arguments tb_is_dirty {T}.

Section tablet.
Context {T : Type}.

Definition tablet_create (tablet_metadata : TabletMetadata) : Tablet T :=
  {| tb_metadata := tablet_metadata; tb_contents := None;
     tb_updated_contents := None; tb_is_dirty := false |}.

Definition tablet_create_with_contents (tablet_metadata : TabletMetadata)
    (tablet_contents : T) : Tablet T :=
  {| tb_metadata := tablet_metadata; tb_contents := Some tablet_contents;
     tb_updated_contents := None; tb_is_dirty := false |}.

Definition tablet_get_id (t : Tablet T) : Z := tm_tablet_id (tb_metadata t).

(** [get_metadata_mut] and the assignment of [contents] inside the crate *)
Definition tablet_with_metadata (metadata : TabletMetadata) (t : Tablet T) : Tablet T :=
  {| tb_metadata := metadata; tb_contents := tb_contents t;
     tb_updated_contents := tb_updated_contents t; tb_is_dirty := tb_is_dirty t |}.

Definition tablet_with_contents (contents : option T) (t : Tablet T) : Tablet T :=
  {| tb_metadata := tb_metadata t; tb_contents := contents;
     tb_updated_contents := tb_updated_contents t; tb_is_dirty := tb_is_dirty t |}.

Definition tablet_get_contents (t : Tablet T) : outcome T := unwrap (tb_contents t).

Definition tablet_set_contents (contents : T) (t : Tablet T) : Tablet T :=
  {| tb_metadata := tb_metadata t; tb_contents := tb_contents t;
     tb_updated_contents := Some contents; tb_is_dirty := true |}.

Definition tablet_take_updated_contents (t : Tablet T) : Tablet T * option T :=
  ({| tb_metadata := tb_metadata t; tb_contents := tb_contents t;
      tb_updated_contents := None; tb_is_dirty := tb_is_dirty t |},
   tb_updated_contents t).
End tablet.

(** ** Descriptors and queries *)

Record TabletDescriptor := {
  td_tablet_id : Z;
  td_cache_ready : bool
}.

Record TableQuery := {
  tq_query_id : Z;
  tq_table_name : string;
  tq_key_hashes : gset Z
}.

#[global] Instance TableQuery_eq_dec : EqDecision TableQuery.
Proof. solve_decision. Defined.

(** The loop inserts the hashes one by one. *)
Definition table_query_create (query_id : Z) (table_name : string) (key_hashes : list Z)
    : TableQuery :=
  {| tq_query_id := query_id; tq_table_name := table_name;
     tq_key_hashes := foldl (λ s h, {[ h ]} ∪ s) ∅ key_hashes |}.

Definition table_query_create_from (q : TableQuery) (key_hashes : list Z) : TableQuery :=
  table_query_create (tq_query_id q) (tq_table_name q) key_hashes.

(** [TabletTransactionOutcome] *)
Inductive TabletTransactionOutcome :=
| TransactionSucceeded
| TransactionFailed.

#[global] Instance TabletTransactionOutcome_eq_dec : EqDecision TabletTransactionOutcome.
Proof. solve_decision. Defined.

(** ** Handlers

    A closure passed to the transaction manager captures shared state of its owner,
    the world [W]: it is a function of the results and that state.  A process handler
    is lent the tablets and gives them back, changed in place. *)

Definition ResolveHandler (W : Type) : Type :=
  list (TableQuery * TabletDescriptor) → W → outcome W.

Definition ProcessHandler (W T : Type) : Type :=
  Z → list (TableQuery * Tablet T) → W → outcome (W * list (Tablet T)).

(** ** Eventual results

    A handle and its source share a cell.  The cells live in the object that holds
    the sources; handles and sources are their addresses. *)

Record ResultCore (E T : Type) := {
  rc_result : option T;
  rc_error : option E
}.
Arguments Build_ResultCore {E T}.
Arguments rc_result {E T}.
Arguments rc_error {E T}.

Record ResultCells (E T : Type) := {
  cells_next : Z;
  cells_map : gmap Z (ResultCore E T)
}.
Arguments Build_ResultCells {E T}.
Arguments cells_next {E T}.
Arguments cells_map {E T}.

Section result.
Context {E T : Type}.

Definition no_cells : ResultCells E T := {| cells_next := 0; cells_map := ∅ |}.

Definition alloc_cell (core : ResultCore E T) (c : ResultCells E T) : ResultCells E T * Z :=
  ({| cells_next := cells_next c + 1; cells_map := <[cells_next c := core]> (cells_map c) |},
   cells_next c).

Definition create_eventual_result (c : ResultCells E T) : ResultCells E T * Z :=
  alloc_cell {| rc_result := None; rc_error := None |} c.

Definition create_result_from_error (error : E) (c : ResultCells E T) : ResultCells E T * Z :=
  alloc_cell {| rc_result := None; rc_error := Some error |} c.

Definition check_result (c : ResultCells E T) (handle : Z) : option (result E T) :=
  core ← cells_map c !! handle;
  match rc_result core, rc_error core with
  | Some r, _ => Some (Ok r)
  | None, Some e => Some (Err e)
  | None, None => None
  end.

(** The assertion of [set_result] and [set_error]. *)
Definition cell_pending (core : ResultCore E T) : bool :=
  match rc_result core, rc_error core with None, None => true | _, _ => false end.

Definition set_result (c : ResultCells E T) (source : Z) (r : T) : outcome (ResultCells E T) :=
  core ← unwrap (cells_map c !! source);
  if cell_pending core
  then Return {| cells_next := cells_next c;
                 cells_map := <[source := {| rc_result := Some r; rc_error := rc_error core |}]>
                   (cells_map c) |}
  else Panic.

Definition set_error (c : ResultCells E T) (source : Z) (e : E) : outcome (ResultCells E T) :=
  core ← unwrap (cells_map c !! source);
  if cell_pending core
  then Return {| cells_next := cells_next c;
                 cells_map := <[source := {| rc_result := rc_result core; rc_error := Some e |}]>
                   (cells_map c) |}
  else Panic.

(** ** Lemmas on results *)

(** Addresses at or above the counter are unused. *)
Definition cells_ok (c : ResultCells E T) : Prop :=
  ∀ a, is_Some (cells_map c !! a) → a < cells_next c.

(** A cell that exists and was not set. *)
Definition cell_unset (c : ResultCells E T) (a : Z) : Prop :=
  cells_map c !! a = Some {| rc_result := None; rc_error := None |}.

Lemma no_cells_ok : cells_ok no_cells.
Proof. intros a [? H]. unfold no_cells in H. simpl in H. by rewrite lookup_empty in H. Qed.

Lemma alloc_cell_ok core c : cells_ok c → cells_ok (alloc_cell core c).1.
Proof.
  intros Hok a. simpl. destruct (decide (a = cells_next c)) as [->|Hne]; [lia|].
  rewrite lookup_insert_ne by done. intros H. specialize (Hok a H). lia.
Qed.

Lemma alloc_cell_other core c a :
  cells_ok c → is_Some (cells_map c !! a) → cells_map (alloc_cell core c).1 !! a = cells_map c !! a.
Proof. intros Hok Ha. simpl. apply lookup_insert_ne. specialize (Hok a Ha). lia. Qed.

Lemma set_result_unset c a r :
  cell_unset c a →
  set_result c a r
  = Return {| cells_next := cells_next c;
              cells_map := <[a := {| rc_result := Some r; rc_error := None |}]> (cells_map c) |}.
Proof. intros H. unfold set_result. rewrite H. done. Qed.

Lemma set_error_unset c a e :
  cell_unset c a →
  set_error c a e
  = Return {| cells_next := cells_next c;
              cells_map := <[a := {| rc_result := None; rc_error := Some e |}]> (cells_map c) |}.
Proof. intros H. unfold set_error. rewrite H. done. Qed.

Lemma check_result_set c a r :
  cell_unset c a →
  ∃ c', set_result c a r = Return c' ∧ check_result c' a = Some (Ok r) ∧
    (∀ b, a ≠ b → cells_map c' !! b = cells_map c !! b) ∧ (cells_ok c → cells_ok c').
Proof.
  intros Hu. rewrite set_result_unset by done. eexists. split; [done|]. split_and!.
  - unfold check_result. simpl. by rewrite lookup_insert_eq.
  - intros b Hb. simpl. by rewrite lookup_insert_ne.
  - intros Hok b [x Hx]. simpl in *. apply Hok. destruct (decide (a = b)) as [<-|].
    + by eexists.
    + rewrite lookup_insert_ne in Hx by done. by eexists.
Qed.

Lemma check_error_set c a e :
  cell_unset c a →
  ∃ c', set_error c a e = Return c' ∧ check_result c' a = Some (Err e) ∧
    (∀ b, a ≠ b → cells_map c' !! b = cells_map c !! b) ∧ (cells_ok c → cells_ok c').
Proof.
  intros Hu. rewrite set_error_unset by done. eexists. split; [done|]. split_and!.
  - unfold check_result. simpl. by rewrite lookup_insert_eq.
  - intros b Hb. simpl. by rewrite lookup_insert_ne.
  - intros Hok b [x Hx]. simpl in *. apply Hok. destruct (decide (a = b)) as [<-|].
    + by eexists.
    + rewrite lookup_insert_ne in Hx by done. by eexists.
Qed.

(** Results are set once: what a handle has seen stays, and new cells are fresh. *)
Definition cells_extend (c c' : ResultCells E T) : Prop :=
  cells_ok c → cells_ok c' ∧ ∀ h x, check_result c h = Some x → check_result c' h = Some x.

#[global] Instance cells_extend_preorder : PreOrder cells_extend.
Proof.
  split; [by intros c|]. intros c1 c2 c3 H12 H23 H1. destruct (H12 H1) as [H2 Hr].
  destruct (H23 H2) as [H3 Hr']. split; [done|]. auto.
Qed.

Lemma check_result_exists c h x : check_result c h = Some x → is_Some (cells_map c !! h).
Proof. unfold check_result. destruct (cells_map c !! h); [by eexists|done]. Qed.

Lemma alloc_cell_extend core c : cells_extend c (alloc_cell core c).1.
Proof.
  intros Hok. split; [by apply alloc_cell_ok|]. intros h x Hx. unfold check_result in *.
  rewrite alloc_cell_other; [done..|]. by eapply check_result_exists.
Qed.

(** Overwriting a cell that was not set. *)
Lemma overwrite_extend c a core core' :
  cells_map c !! a = Some core → cell_pending core = true →
  cells_extend c {| cells_next := cells_next c; cells_map := <[a := core']> (cells_map c) |}.
Proof.
  intros Ha Hp Hok. split.
  - intros b. simpl. destruct (decide (a = b)) as [<-|]; [intros _; apply Hok; by eexists|].
    rewrite lookup_insert_ne by done. apply Hok.
  - intros h x Hx. unfold check_result in *. simpl.
    destruct (decide (a = h)) as [<-|Hne]; [|by rewrite lookup_insert_ne].
    rewrite Ha in Hx. simpl in Hx. unfold cell_pending in Hp. by destruct (rc_result core), (rc_error core).
Qed.

Lemma set_result_extend c a r c' : set_result c a r = Return c' → cells_extend c c'.
Proof.
  unfold set_result. intros H. apply bind_Return in H as (core & Hc & H).
  apply unwrap_Return in Hc. destruct (cell_pending core) eqn:Hp; [|done].
  injection H as <-. by eapply overwrite_extend.
Qed.

Lemma set_error_extend c a e c' : set_error c a e = Return c' → cells_extend c c'.
Proof.
  unfold set_error. intros H. apply bind_Return in H as (core & Hc & H).
  apply unwrap_Return in Hc. destruct (cell_pending core) eqn:Hp; [|done].
  injection H as <-. by eapply overwrite_extend.
Qed.
End result.

(** ** Lemmas on ordered sets and queries *)

Lemma elem_of_set_iter s h : h ∈ set_iter s ↔ h ∈ s.
Proof.
  unfold set_iter. rewrite (merge_sort_Permutation Z.le (elements s)). apply elem_of_elements.
Qed.

Lemma NoDup_set_iter s : NoDup (set_iter s).
Proof.
  unfold set_iter. rewrite (merge_sort_Permutation Z.le (elements s)). apply NoDup_elements.
Qed.

Lemma Sorted_set_iter s : StronglySorted Z.le (set_iter s).
Proof. apply (StronglySorted_merge_sort Z.le). Qed.

(** Increasing, as the elements are distinct. *)
Lemma StronglySorted_lt l : StronglySorted Z.le l → NoDup l → StronglySorted Z.lt l.
Proof.
  induction 1 as [|x l Hl IH Hx]; intros Hnd; [constructor|].
  apply NoDup_cons in Hnd as [Hni Hnd]. constructor; [auto|].
  apply Forall_forall. intros y Hy. rewrite Forall_forall in Hx. specialize (Hx y Hy).
  assert (x ≠ y) by (intros ->; done). lia.
Qed.

Lemma set_iter_increasing s : StronglySorted Z.lt (set_iter s).
Proof. apply StronglySorted_lt; [apply Sorted_set_iter|apply NoDup_set_iter]. Qed.

(** The increasing enumeration is unique. *)
Lemma set_iter_unique s l :
  StronglySorted Z.lt l → (∀ x, x ∈ l ↔ x ∈ s) → set_iter s = l.
Proof.
  intros Hl Hin.
  assert (StronglySorted Z.le l ∧ NoDup l) as [Hle Hnd].
  { clear Hin. induction Hl as [|x l Hl [IH1 IH2] Hx]; [split; constructor|]. split.
    - constructor; [done|]. eapply Forall_impl; [exact Hx|]. intros. lia.
    - constructor; [|done]. intros Hxl. rewrite Forall_forall in Hx. specialize (Hx x Hxl). lia. }
  apply (StronglySorted_unique Z.le); [apply Sorted_set_iter|done|].
  apply NoDup_Permutation; [apply NoDup_set_iter|done|].
  intros x. by rewrite elem_of_set_iter.
Qed.

Lemma set_iter_singleton x : set_iter {[ x ]} = [x].
Proof.
  apply set_iter_unique; [repeat constructor|]. intros y.
  by rewrite list_elem_of_singleton, elem_of_singleton.
Qed.

Lemma set_iter_min x s :
  (∀ y, y ∈ s → x < y) → set_iter ({[ x ]} ∪ s) = x :: set_iter s.
Proof.
  intros Hmin. apply set_iter_unique.
  - constructor; [apply set_iter_increasing|]. apply Forall_forall. intros y.
    rewrite elem_of_set_iter. auto.
  - intros y. by rewrite elem_of_cons, elem_of_set_iter, elem_of_union, elem_of_singleton.
Qed.

Lemma list_filter_all {A} (P : A → Prop) `{!∀ x, Decision (P x)} l :
  Forall P l → filter P l = l.
Proof. induction 1; [done|]. rewrite filter_cons_True by done. by f_equal. Qed.

Lemma list_filter_none {A} (P : A → Prop) `{!∀ x, Decision (P x)} l :
  Forall (λ x, ¬ P x) l → filter P l = [].
Proof. induction 1; [done|]. by rewrite filter_cons_False. Qed.

Lemma key_hashes_create query_id table_name hs h :
  h ∈ tq_key_hashes (table_query_create query_id table_name hs) ↔ h ∈ hs.
Proof.
  simpl. enough (∀ s : gset Z,
    h ∈ foldl (λ s h, {[ h ]} ∪ s) s hs ↔ h ∈ hs ∨ h ∈ s) as ->.
  { rewrite elem_of_empty. tauto. }
  induction hs as [|x hs IH]; intros s; simpl; [set_solver|].
  rewrite IH, elem_of_union, elem_of_singleton, elem_of_cons. tauto.
Qed.
