(* ===== verification/MetadataCache.v ===== *)
(** * The tablet metadata cache

    [src/apps/tablet_cache/service/src/transaction/metadata.rs]: the hashing ring of a
    table is cut into regions; a stale region is listed from the tablet store when a
    query waits for it, and queries are resolved to the tablets that are responsible
    for their hashes once all their regions are fresh. *)

From S2P Require Import Prelude TabletStore CacheTypes.

Inductive TabletMetadataCacheInMessage :=
| ListResponse (correlation_id : Z) (list_op_results : list TabletOpResult).

Inductive TabletMetadataCacheOutMessage :=
| ListRequest (correlation_id : Z) (list_ops : list TabletOp).

(** ** Regions *)

Inductive TableRegionState :=
| RegionStale (resolve_requests : list Z) (prepared_op : bool)
| RegionFresh.

Record TableRegion := {
  rg_state : TableRegionState;
  rg_tablet_ids : gset Z
}.

Definition region_create : TableRegion :=
  {| rg_state := RegionStale [] false; rg_tablet_ids := ∅ |}.

Definition maybe_prepare_list_op (r : TableRegion) (region_from region_to : Z)
    : TableRegion * option TabletOpKind :=
  match rg_state r with
  | RegionStale resolve_requests prepared_op =>
      if negb prepared_op && negb (bool_decide (resolve_requests = []))
      then ({| rg_state := RegionStale resolve_requests true;
               rg_tablet_ids := rg_tablet_ids r |},
            Some (ListTablet region_from region_to))
      else (r, None)
  | RegionFresh => (r, None)
  end.

Definition maybe_fresh_tablet_ids (r : TableRegion) : option (gset Z) :=
  match rg_state r with
  | RegionStale _ _ => None
  | RegionFresh => Some (rg_tablet_ids r)
  end.

(** The requests that wait for a region. *)
Definition region_waiting (r : TableRegion) : list Z :=
  match rg_state r with RegionStale resolve_requests _ => resolve_requests | RegionFresh => [] end.

Definition mark_stale (r : TableRegion) : TableRegion :=
  {| rg_state := RegionStale (region_waiting r) false; rg_tablet_ids := ∅ |}.

(** With the requests to notify. *)
Definition mark_fresh (r : TableRegion) (tablet_ids : list Z) : TableRegion * list Z :=
  ({| rg_state := RegionFresh; rg_tablet_ids := list_to_set tablet_ids |}, region_waiting r).

Definition region_register_pending_query (r : TableRegion) (resolve_request_id : Z)
    : outcome TableRegion :=
  match rg_state r with
  | RegionStale resolve_request_ids prepared_op =>
      Return {| rg_state := RegionStale (resolve_request_ids ++ [resolve_request_id]) prepared_op;
                rg_tablet_ids := rg_tablet_ids r |}
  | RegionFresh => Panic
  end.

(** ** Tables

    [TableMetadata] of the cache; the name is taken by the table of the store. *)

Record CachedTable := {
  ct_table_name : string;
  ct_region_size : Z;
  ct_regions : gmap Z TableRegion;
  ct_tablets : gmap Z TabletMetadata
}.

Definition ct_with (t : CachedTable) (regions : gmap Z TableRegion)
    (tablets : gmap Z TabletMetadata) : CachedTable :=
  {| ct_table_name := ct_table_name t; ct_region_size := ct_region_size t;
     ct_regions := regions; ct_tablets := tablets |}.

(** Division by a zero size panics; a table that exists has a positive one. *)
Definition cached_table_create (table_name : string) (region_size : Z) : outcome CachedTable :=
  if decide (region_size = 0) then Panic
  else
    let regions_count := (two32 - 1) `div` region_size in
    Return
      {| ct_table_name := table_name; ct_region_size := region_size;
         ct_regions :=
           foldl (λ regions region_idx, <[region_idx := region_create]> regions) ∅
             (seqZ 0 regions_count);
         ct_tablets := ∅ |}.

Definition map_table_region (region_size hash_value : Z) : Z := hash_value `div` region_size.

Definition compute_table_region_bounds (region_size region_idx : Z) : Z * Z :=
  let region_start := region_idx *₃₂ region_size in
  let region_end :=
    if decide (region_start > (two32 - 1) -₃₂ region_size) then two32 - 1
    else (region_start +₃₂ region_size) -₃₂ 1 in
  (region_start, region_end).

Definition insert_latest_tablet (tablets : gmap Z TabletMetadata)
    (tablet_metadata : TabletMetadata) : gmap Z TabletMetadata :=
  match tablets !! tm_tablet_id tablet_metadata with
  | Some latest_tablet_metadata =>
      if decide (tm_tablet_version latest_tablet_metadata < tm_tablet_version tablet_metadata)
      then <[tm_tablet_id tablet_metadata := tablet_metadata]> tablets
      else tablets
  | None => <[tm_tablet_id tablet_metadata := tablet_metadata]> tablets
  end.

Definition cached_table_update_tablet (t : CachedTable) (tablet_metadata : TabletMetadata)
    (conflict : bool) : CachedTable :=
  let tablet_id := tm_tablet_id tablet_metadata in
  let tablets := insert_latest_tablet (ct_tablets t) tablet_metadata in
  let table_region_idx := map_table_region (ct_region_size t) tablet_id in
  let regions :=
    match ct_regions t !! table_region_idx with
    | Some table_region =>
        if conflict then <[table_region_idx := mark_stale table_region]> (ct_regions t)
        else ct_regions t
    | None => ct_regions t
    end in
  ct_with t regions tablets.

Definition update_region (t : CachedTable) (table_region_start : Z)
    (tablets : option (list TabletMetadata)) : CachedTable * (Z * list Z) :=
  let table_region_idx := map_table_region (ct_region_size t) table_region_start in
  match ct_regions t !! table_region_idx with
  | Some table_region =>
      match tablets with
      | Some tablets =>
          let '(table_region, resolve_requests_to_notify) :=
            mark_fresh table_region (tm_tablet_id <$> tablets) in
          (ct_with t (<[table_region_idx := table_region]> (ct_regions t))
             (foldl insert_latest_tablet (ct_tablets t) tablets),
           (table_region_idx, resolve_requests_to_notify))
      | None =>
          (ct_with t (<[table_region_idx := mark_stale table_region]> (ct_regions t))
             (ct_tablets t),
           (table_region_idx, []))
      end
  | None => (t, (table_region_idx, []))
  end.

Definition register_pending_query (t : CachedTable) (resolve_request_id table_region_idx : Z)
    : outcome CachedTable :=
  match ct_regions t !! table_region_idx with
  | Some table_region =>
      table_region ← region_register_pending_query table_region resolve_request_id;
      Return (ct_with t (<[table_region_idx := table_region]> (ct_regions t)) (ct_tablets t))
  | None => Return t
  end.

(** [iter().cycle()]: the whole sequence and what is left of the current round. *)
Definition cycle_next (all rest : list Z) : option (Z * list Z) :=
  match rest, all with
  | x :: rest, _ => Some (x, rest)
  | [], x :: rest => Some (x, rest)
  | [], [] => None
  end.

(** The state of the merge of tablet ids and key hashes. *)
Record MergeState := {
  mg_ids : list Z;
  mg_tablet_id : Z;
  mg_key_hashes : list Z;
  mg_result : list (TableQuery * TabletMetadata)
}.

(** Pushes the hashes collected for the current tablet, if any. *)
Definition merge_flush (t : CachedTable) (table_query : TableQuery) (st : MergeState)
    : outcome MergeState :=
  if decide (mg_key_hashes st = []) then Return st
  else
    tablet ← unwrap (ct_tablets t !! mg_tablet_id st);
    Return {| mg_ids := mg_ids st; mg_tablet_id := mg_tablet_id st; mg_key_hashes := [];
              mg_result := mg_result st
                ++ [(table_query_create_from table_query (mg_key_hashes st), tablet)] |}.

Definition merge_step (t : CachedTable) (all : list Z) (table_query : TableQuery)
    (st : MergeState) (key_hash : Z) : outcome MergeState :=
  if decide (mg_tablet_id st < key_hash) then
    st ← merge_flush t table_query st;
    '(curr_tablet_id, rest) ← unwrap (cycle_next all (mg_ids st));
    Return {| mg_ids := rest; mg_tablet_id := curr_tablet_id;
              mg_key_hashes := mg_key_hashes st; mg_result := mg_result st |}
  else
    Return {| mg_ids := mg_ids st; mg_tablet_id := mg_tablet_id st;
              mg_key_hashes := mg_key_hashes st ++ [key_hash]; mg_result := mg_result st |}.

Definition try_resolve_pending_query (t : CachedTable) (table_region_idx : Z)
    (table_query : TableQuery) : outcome (option (list (TableQuery * TabletMetadata))) :=
  match ct_regions t !! table_region_idx with
  | Some table_region =>
      match maybe_fresh_tablet_ids table_region with
      | Some fresh_tablet_ids =>
          let all := set_iter fresh_tablet_ids in
          '(curr_tablet_id, rest) ← unwrap (cycle_next all all);
          st ← ofold (merge_step t all table_query)
                 {| mg_ids := rest; mg_tablet_id := curr_tablet_id;
                    mg_key_hashes := []; mg_result := [] |}
                 (set_iter (tq_key_hashes table_query));
          st ← merge_flush t table_query st;
          Return (Some (mg_result st))
      | None => Return None
      end
  | None => Panic
  end.

(** *** Splitting a query by regions *)

Record SplitState := {
  sp_region_idx : Z;
  sp_region_end : Z;
  sp_key_hashes : list Z;
  sp_result : list (TableQuery * Z)
}.

(** Pushes the hashes collected for the current region, if any. *)
Definition split_flush (query : TableQuery) (st : SplitState) : SplitState :=
  if decide (sp_key_hashes st = []) then st
  else
    {| sp_region_idx := sp_region_idx st; sp_region_end := sp_region_end st;
       sp_key_hashes := [];
       sp_result := sp_result st
         ++ [(table_query_create_from query (sp_key_hashes st), sp_region_idx st)] |}.

(** The inner [while]; its fuel is a number of regions. *)
Fixpoint advance_region (fuel : nat) (region_size : Z) (query : TableQuery) (key_hash : Z)
    (st : SplitState) : SplitState :=
  match fuel with
  | O => st
  | S fuel =>
      if decide (sp_region_end st < key_hash) then
        let st := split_flush query st in
        let region_idx := sp_region_idx st +₃₂ 1 in
        advance_region fuel region_size query key_hash
          {| sp_region_idx := region_idx;
             sp_region_end := (compute_table_region_bounds region_size region_idx).2;
             sp_key_hashes := sp_key_hashes st; sp_result := sp_result st |}
      else st
  end.

(** From the current region the loop needs at most as many rounds as there are
    regions up to the one of the hash. *)
Definition split_fuel (region_size region_idx key_hash : Z) : nat :=
  S (Z.to_nat (map_table_region region_size key_hash - region_idx)).

Definition split_step (region_size : Z) (query : TableQuery) (st : SplitState) (key_hash : Z)
    : SplitState :=
  let st := advance_region (split_fuel region_size (sp_region_idx st) key_hash)
              region_size query key_hash st in
  {| sp_region_idx := sp_region_idx st; sp_region_end := sp_region_end st;
     sp_key_hashes := sp_key_hashes st ++ [key_hash]; sp_result := sp_result st |}.

Definition split_and_map_query (t : CachedTable) (query : TableQuery)
    (result : list (TableQuery * Z)) : list (TableQuery * Z) :=
  match set_iter (tq_key_hashes query) with
  | [] => result
  | first :: _ =>
      let region_idx := map_table_region (ct_region_size t) first in
      let st :=
        foldl (split_step (ct_region_size t) query)
          {| sp_region_idx := region_idx;
             sp_region_end := (compute_table_region_bounds (ct_region_size t) region_idx).2;
             sp_key_hashes := []; sp_result := result |}
          (set_iter (tq_key_hashes query)) in
      sp_result (split_flush query st)
  end.

(** ** Resolve requests *)

Record TabletResolveResult := {
  trr_table_query_id : Z;
  trr_table_name : string;
  trr_tablet_metadata : TabletMetadata;
  trr_key_hashes : list Z
}.

Definition resolve_result_create (table_query_id : Z) (table_name : string)
    (tablet_metadata : TabletMetadata) : TabletResolveResult :=
  {| trr_table_query_id := table_query_id; trr_table_name := table_name;
     trr_tablet_metadata := tablet_metadata; trr_key_hashes := [] |}.

Definition append_key_hashes (r : TabletResolveResult) (key_hashes : gset Z)
    : TabletResolveResult :=
  {| trr_table_query_id := trr_table_query_id r; trr_table_name := trr_table_name r;
     trr_tablet_metadata := trr_tablet_metadata r;
     trr_key_hashes := trr_key_hashes r ++ set_iter key_hashes |}.

Definition take_result (r : TabletResolveResult) : TableQuery * TabletMetadata :=
  (table_query_create (trr_table_query_id r) (trr_table_name r) (trr_key_hashes r),
   trr_tablet_metadata r).

(** [append_results], on the builders by table name and tablet id. *)
Definition append_result (results : gmap (string * Z) TabletResolveResult)
    (x : TableQuery * TabletMetadata) : gmap (string * Z) TabletResolveResult :=
  let '(table_query, tablet_metadata) := x in
  let key := (tq_table_name table_query, tm_tablet_id tablet_metadata) in
  let builder :=
    match results !! key with
    | Some r => r
    | None =>
        resolve_result_create (tq_query_id table_query) (tq_table_name table_query)
          tablet_metadata
    end in
  <[key := append_key_hashes builder (tq_key_hashes table_query)]> results.

Definition append_results (results : gmap (string * Z) TabletResolveResult)
    (table_query_result : list (TableQuery * TabletMetadata))
    : gmap (string * Z) TabletResolveResult :=
  foldl append_result results table_query_result.

(** Handles of resolutions. *)
Abbreviation ResolveCells := (ResultCells TabletsRequestStatus (list (TableQuery * TabletMetadata))).

Section cache.
Context {W : Type} `{HZ : !HashOrder Z, HS : !HashOrder string, HSZ : !HashOrder (string * Z)}.

Inductive TableResolveNotification :=
| NotifySource (source : Z)
| NotifyHandler (handler : ResolveHandler W).

Record TabletResolve := {
  rs_notification : TableResolveNotification;
  rs_pending_table_queries : gmap (string * Z) TableQuery;
  rs_results : gmap (string * Z) TabletResolveResult
}.

(** Calls the source or the handler, which changes the cells or the world. *)
Definition notify (notification : TableResolveNotification)
    (results : list (TableQuery * TabletMetadata)) (cells : ResolveCells) (w : W)
    : outcome (ResolveCells * W) :=
  match notification with
  | NotifySource result_source =>
      cells ← set_result cells result_source results;
      Return (cells, w)
  | NotifyHandler handler =>
      w ← handler ((λ '(table_query, tablet_metadata),
                      (table_query, {| td_tablet_id := tm_tablet_id tablet_metadata;
                                       td_cache_ready := true |})) <$> results) w;
      Return (cells, w)
  end.

Definition maybe_resolve_results (r : TabletResolve) (cells : ResolveCells) (w : W)
    : outcome (TabletResolve * ResolveCells * W) :=
  if decide (rs_pending_table_queries r = ∅) then
    let results := take_result <$> (hash_iter (rs_results r)).*2 in
    '(cells, w) ← notify (rs_notification r) results cells w;
    Return ({| rs_notification := rs_notification r;
               rs_pending_table_queries := rs_pending_table_queries r;
               rs_results := ∅ |}, cells, w)
  else Return (r, cells, w).

(** The loop over the split queries: resolves or registers one. *)
Definition resolve_split_query (resolve_request_id : Z)
    (st : TabletResolve * gmap string CachedTable) (x : TableQuery * Z)
    : outcome (TabletResolve * gmap string CachedTable) :=
  let '(r, tables) := st in
  let '(table_query, table_region_idx) := x in
  table_metadata ← unwrap (tables !! tq_table_name table_query);
  resolved ← try_resolve_pending_query table_metadata table_region_idx table_query;
  match resolved with
  | Some table_query_result =>
      Return ({| rs_notification := rs_notification r;
                 rs_pending_table_queries := rs_pending_table_queries r;
                 rs_results := append_results (rs_results r) table_query_result |}, tables)
  | None =>
      table_metadata ← register_pending_query table_metadata resolve_request_id table_region_idx;
      Return ({| rs_notification := rs_notification r;
                 rs_pending_table_queries :=
                   <[(tq_table_name table_query, table_region_idx) := table_query]>
                     (rs_pending_table_queries r);
                 rs_results := rs_results r |},
              <[tq_table_name table_query := table_metadata]> tables)
  end.

Definition tablet_resolve_create (resolve_request_id : Z) (queries : list TableQuery)
    (notification : TableResolveNotification) (tables : gmap string CachedTable)
    (cells : ResolveCells) (w : W)
    : outcome (TabletResolve * gmap string CachedTable * ResolveCells * W) :=
  split_queries ←
    ofold (λ split_queries query,
             table ← unwrap (tables !! tq_table_name query);
             Return (split_and_map_query table query split_queries)) [] queries;
  '(r, tables) ←
    ofold (resolve_split_query resolve_request_id)
      ({| rs_notification := notification; rs_pending_table_queries := ∅; rs_results := ∅ |},
       tables) split_queries;
  '(r, cells, w) ← maybe_resolve_results r cells w;
  Return (r, tables, cells, w).

Definition process_results_fresh (r : TabletResolve) (table_name : string)
    (table_region_idx : Z) (table_metadata : CachedTable) (cells : ResolveCells) (w : W)
    : outcome (TabletResolve * ResolveCells * W) :=
  r ←
    match rs_pending_table_queries r !! (table_name, table_region_idx) with
    | Some pending_table_query =>
        resolved ← try_resolve_pending_query table_metadata table_region_idx pending_table_query;
        table_query_result ← unwrap resolved;
        Return {| rs_notification := rs_notification r;
                  rs_pending_table_queries :=
                    delete (table_name, table_region_idx) (rs_pending_table_queries r);
                  rs_results := append_results (rs_results r) table_query_result |}
    | None => Return r
    end;
  maybe_resolve_results r cells w.

(** ** The cache *)

Record DefaultTabletMetadataCache := {
  mc_correlation_counter : Z;
  mc_resolve_request_counter : Z;
  mc_config : TabletMetadataCacheConfig;
  mc_tables : gmap string CachedTable;
  mc_resolve_requests : gmap Z TabletResolve;
  mc_out_messages : list TabletMetadataCacheOutMessage;
  mc_cells : ResolveCells
}.

Definition metadata_cache_create (correlation_counter : Z) : DefaultTabletMetadataCache :=
  {| mc_correlation_counter := correlation_counter; mc_resolve_request_counter := 1;
     mc_config := {| tmc_table_configs := [] |}; mc_tables := ∅; mc_resolve_requests := ∅;
     mc_out_messages := []; mc_cells := no_cells |}.

Definition mc_with_tables (tables : gmap string CachedTable) (c : DefaultTabletMetadataCache)
    : DefaultTabletMetadataCache :=
  {| mc_correlation_counter := mc_correlation_counter c;
     mc_resolve_request_counter := mc_resolve_request_counter c;
     mc_config := mc_config c; mc_tables := tables;
     mc_resolve_requests := mc_resolve_requests c; mc_out_messages := mc_out_messages c;
     mc_cells := mc_cells c |}.

Definition metadata_cache_init (c : DefaultTabletMetadataCache)
    (config : TabletMetadataCacheConfig) : outcome DefaultTabletMetadataCache :=
  tables ←
    ofold (λ tables table_config,
             table ← cached_table_create (tmc_table_name table_config)
                       (tmc_table_region_size table_config);
             Return (<[tmc_table_name table_config := table]> tables))
      (mc_tables c) (tmc_table_configs config);
  Return {| mc_correlation_counter := mc_correlation_counter c;
            mc_resolve_request_counter := mc_resolve_request_counter c;
            mc_config := config; mc_tables := tables;
            mc_resolve_requests := mc_resolve_requests c;
            mc_out_messages := mc_out_messages c; mc_cells := mc_cells c |}.

(** The body of the loop over the regions of a table. *)
Definition prepare_region (t : CachedTable)
    (st : gmap Z TableRegion * list TabletOp) (x : Z * TableRegion)
    : gmap Z TableRegion * list TabletOp :=
  let '(table_region_idx, table_region) := x in
  let '(table_region_from, table_region_to) :=
    compute_table_region_bounds (ct_region_size t) table_region_idx in
  let '(table_region, list_op) :=
    maybe_prepare_list_op table_region table_region_from table_region_to in
  (<[table_region_idx := table_region]> st.1,
   match list_op with
   | Some list_op => st.2 ++ [{| to_table_name := ct_table_name t; to_op := Some list_op |}]
   | None => st.2
   end).

Definition prepare_list_op (t : CachedTable) (list_ops : list TabletOp)
    : CachedTable * list TabletOp :=
  let '(regions, list_ops) :=
    foldl (prepare_region t) (ct_regions t, list_ops) (hash_iter (ct_regions t)) in
  (ct_with t regions (ct_tablets t), list_ops).

Definition prepare_list_ops (tables : gmap string CachedTable)
    : gmap string CachedTable * list TabletOp :=
  foldl (λ st x, let '(t, ops) := prepare_list_op x.2 st.2 in (<[x.1 := t]> st.1, ops))
    (tables, []) (hash_iter tables).

Definition metadata_cache_make_progress (c : DefaultTabletMetadataCache)
    : DefaultTabletMetadataCache :=
  let '(tables, list_ops) := prepare_list_ops (mc_tables c) in
  if decide (list_ops = []) then mc_with_tables tables c
  else
    let correlation_counter := mc_correlation_counter c +₆₄ 1 in
    {| mc_correlation_counter := correlation_counter;
       mc_resolve_request_counter := mc_resolve_request_counter c;
       mc_config := mc_config c; mc_tables := tables;
       mc_resolve_requests := mc_resolve_requests c;
       mc_out_messages := mc_out_messages c ++ [ListRequest correlation_counter list_ops];
       mc_cells := mc_cells c |}.

Definition resolve_tablets_with_notification (c : DefaultTabletMetadataCache) (w : W)
    (queries : list TableQuery) (notification : TableResolveNotification)
    : outcome (DefaultTabletMetadataCache * W) :=
  let resolve_request_counter := mc_resolve_request_counter c +₆₄ 1 in
  '(r, tables, cells, w) ←
    tablet_resolve_create resolve_request_counter queries notification (mc_tables c)
      (mc_cells c) w;
  Return ({| mc_correlation_counter := mc_correlation_counter c;
             mc_resolve_request_counter := resolve_request_counter;
             mc_config := mc_config c; mc_tables := tables;
             mc_resolve_requests := <[resolve_request_counter := r]> (mc_resolve_requests c);
             mc_out_messages := mc_out_messages c; mc_cells := cells |}, w).

Definition mc_with_cells (cells : ResolveCells) (c : DefaultTabletMetadataCache)
    : DefaultTabletMetadataCache :=
  {| mc_correlation_counter := mc_correlation_counter c;
     mc_resolve_request_counter := mc_resolve_request_counter c;
     mc_config := mc_config c; mc_tables := mc_tables c;
     mc_resolve_requests := mc_resolve_requests c; mc_out_messages := mc_out_messages c;
     mc_cells := cells |}.

(** Resolving with a result source does not touch the world. *)
Definition metadata_cache_resolve_tablets (c : DefaultTabletMetadataCache) (w : W)
    (queries : list TableQuery) : outcome (DefaultTabletMetadataCache * W * Z) :=
  let '(cells, result_handle) := create_eventual_result (mc_cells c) in
  '(c, w) ←
    resolve_tablets_with_notification (mc_with_cells cells c) w queries
      (NotifySource result_handle);
  Return (c, w, result_handle).

Definition metadata_cache_resolve_tablets_with_handler (c : DefaultTabletMetadataCache) (w : W)
    (queries : list TableQuery) (handler : ResolveHandler W)
    : outcome (DefaultTabletMetadataCache * W) :=
  resolve_tablets_with_notification c w queries (NotifyHandler handler).

Definition metadata_cache_update_tablet (c : DefaultTabletMetadataCache) (table_name : string)
    (tablet_metadata : TabletMetadata) (conflict : bool) : DefaultTabletMetadataCache :=
  match mc_tables c !! table_name with
  | Some table_metadata =>
      mc_with_tables
        (<[table_name := cached_table_update_tablet table_metadata tablet_metadata conflict]>
           (mc_tables c)) c
  | None => c
  end.

(** Notifies one resolve request of a fresh region. *)
Definition notify_request (table_name : string) (table_region_idx : Z)
    (table_metadata : CachedTable) (st : gmap Z TabletResolve * ResolveCells * W)
    (resolve_request_id : Z) : outcome (gmap Z TabletResolve * ResolveCells * W) :=
  let '(resolve_requests, cells, w) := st in
  match resolve_requests !! resolve_request_id with
  | Some resolve_request =>
      '(resolve_request, cells, w) ←
        process_results_fresh resolve_request table_name table_region_idx table_metadata cells w;
      Return (<[resolve_request_id := resolve_request]> resolve_requests, cells, w)
  | None => Return st
  end.

(** The body of the loop over the results of a response. *)
Definition process_list_result (st : DefaultTabletMetadataCache * W)
    (list_op_result : TabletOpResult) : outcome (DefaultTabletMetadataCache * W) :=
  let '(c, w) := st in
  match tor_op_result list_op_result with
  | Some (ListTabletResult key_hash_from _ tablets) =>
      let table_name := tor_table_name list_op_result in
      match mc_tables c !! table_name with
      | Some table_metadata =>
          let op_succeeded := bool_decide (tor_status list_op_result = TabletOpSucceeded) in
          let '(table_metadata, (table_region_idx, resolve_requests_to_notify)) :=
            update_region table_metadata key_hash_from
              (if op_succeeded then Some tablets else None) in
          '(resolve_requests, cells, w) ←
            ofold (notify_request table_name table_region_idx table_metadata)
              (mc_resolve_requests c, mc_cells c, w) resolve_requests_to_notify;
          Return ({| mc_correlation_counter := mc_correlation_counter c;
                     mc_resolve_request_counter := mc_resolve_request_counter c;
                     mc_config := mc_config c;
                     mc_tables := <[table_name := table_metadata]> (mc_tables c);
                     mc_resolve_requests := resolve_requests;
                     mc_out_messages := mc_out_messages c; mc_cells := cells |}, w)
      | None => Return (c, w)
      end
  | _ => Panic
  end.

Definition metadata_cache_process_in_message (c : DefaultTabletMetadataCache) (w : W)
    (in_message : TabletMetadataCacheInMessage) : outcome (DefaultTabletMetadataCache * W) :=
  let '(ListResponse correlation_id list_op_results) := in_message in
  ofold process_list_result (c, w) list_op_results.

Definition metadata_cache_take_out_messages (c : DefaultTabletMetadataCache)
    : DefaultTabletMetadataCache * list TabletMetadataCacheOutMessage :=
  ({| mc_correlation_counter := mc_correlation_counter c;
      mc_resolve_request_counter := mc_resolve_request_counter c;
      mc_config := mc_config c; mc_tables := mc_tables c;
      mc_resolve_requests := mc_resolve_requests c; mc_out_messages := [];
      mc_cells := mc_cells c |}, mc_out_messages c).
End cache.
Arguments TableResolveNotification : clear implicits.
Arguments TabletResolve : clear implicits.
Arguments DefaultTabletMetadataCache : clear implicits.

(** ** The interface

    The trait [TabletMetadataCache], with the check of a result handle. *)
Class TabletMetadataCache (W M : Type) : Type := {
  mci_init : M → TabletMetadataCacheConfig → outcome M;
  mci_make_progress : M → Z → outcome M;
  mci_resolve_tablets : M → W → list TableQuery → outcome (M * W * Z);
  mci_resolve_tablets_with_handler :
    M → W → list TableQuery → ResolveHandler W → outcome (M * W);
  mci_update_tablet : M → string → TabletMetadata → bool → outcome M;
  mci_process_in_message : M → W → TabletMetadataCacheInMessage → outcome (M * W);
  mci_take_out_messages : M → M * list TabletMetadataCacheOutMessage;
  mci_check_result : M → Z → option (result TabletsRequestStatus (list (TableQuery * TabletMetadata)))
}.

#[global] Instance DefaultTabletMetadataCache_instance {W : Type}
    `{!HashOrder Z, !HashOrder string, !HashOrder (string * Z)} :
    TabletMetadataCache W (DefaultTabletMetadataCache W) :=
  {| mci_init := metadata_cache_init;
     mci_make_progress c _ := Return (metadata_cache_make_progress c);
     mci_resolve_tablets := metadata_cache_resolve_tablets;
     mci_resolve_tablets_with_handler := metadata_cache_resolve_tablets_with_handler;
     mci_update_tablet c table_name tablet_metadata conflict :=
       Return (metadata_cache_update_tablet c table_name tablet_metadata conflict);
     mci_process_in_message := metadata_cache_process_in_message;
     mci_take_out_messages := metadata_cache_take_out_messages;
     mci_check_result c handle := check_result (mc_cells c) handle |}.
