(* ===== verification/MetadataTheorems.v ===== *)
(** * Properties of the tablet metadata cache

    The regions of a table partition the hashes, queries are split by region, hashes
    are resolved to the tablets the store holds responsible for them, and the cache
    keeps its bookkeeping of waiting requests. *)

From S2P Require Import Prelude TabletStore CacheTypes MetadataCache.

(** ** Regions *)

(** A size the code can divide by. *)
Definition region_size_ok (region_size : Z) : Prop := 0 < region_size < two32.

Section regions.
Context (region_size : Z) (Hsize : region_size_ok region_size).

Lemma map_table_region_range h :
  in_u32 h → 0 ≤ map_table_region region_size h ≤ (two32 - 1) `div` region_size.
Proof.
  intros Hh. unfold map_table_region, region_size_ok, in_u32 in *. split.
  - apply Z.div_pos; lia.
  - apply Z.div_le_mono; lia.
Qed.

Lemma map_table_region_mono h h' :
  h ≤ h' → map_table_region region_size h ≤ map_table_region region_size h'.
Proof. intros. unfold map_table_region, region_size_ok in *. apply Z.div_le_mono; lia. Qed.

(** The bounds without wrap-around. *)
Lemma compute_table_region_bounds_exact idx :
  0 ≤ idx ≤ (two32 - 1) `div` region_size →
  compute_table_region_bounds region_size idx
  = (idx * region_size, Z.min (idx * region_size + region_size - 1) (two32 - 1)).
Proof.
  intros Hi. unfold region_size_ok in *.
  assert (idx * region_size ≤ two32 - 1) as Hle.
  { pose proof (Z.mul_div_le (two32 - 1) region_size ltac:(lia)). nia. }
  assert (0 ≤ idx * region_size) by nia.
  unfold compute_table_region_bounds, u32_mul, u32_sub, u32_add.
  rewrite (Z.mod_small (idx * region_size)) by lia.
  rewrite (Z.mod_small (two32 - 1 - region_size)) by lia.
  f_equal. case_decide; [lia|].
  rewrite (Z.mod_small (idx * region_size + region_size)) by lia.
  rewrite Z.mod_small by lia. lia.
Qed.

Lemma region_bounds_iff idx h :
  0 ≤ idx ≤ (two32 - 1) `div` region_size → in_u32 h →
  (idx * region_size ≤ h ≤ Z.min (idx * region_size + region_size - 1) (two32 - 1)
   ↔ map_table_region region_size h = idx).
Proof.
  intros Hi Hh. unfold map_table_region, region_size_ok, in_u32 in *. split.
  - intros [Hlo Hhi]. symmetry. apply (Z.div_unique_pos h region_size idx (h - idx * region_size)); lia.
  - intros <-. pose proof (Z.div_mod h region_size ltac:(lia)).
    pose proof (Z.mod_pos_bound h region_size ltac:(lia)). lia.
Qed.

(** The end of a region decides whether a later hash lies beyond it. *)
Lemma region_end_lt idx h :
  0 ≤ idx ≤ map_table_region region_size h → in_u32 h →
  ((compute_table_region_bounds region_size idx).2 < h ↔ idx < map_table_region region_size h).
Proof.
  intros Hi Hh. pose proof (map_table_region_range h Hh).
  rewrite compute_table_region_bounds_exact by lia. simpl.
  pose proof (region_bounds_iff idx h ltac:(lia) Hh) as Hiff.
  pose proof (map_table_region_range h Hh).
  unfold map_table_region, region_size_ok, in_u32 in *.
  assert (idx * region_size ≤ h).
  { pose proof (Z.mul_div_le h region_size ltac:(lia)). nia. }
  split.
  - intros. destruct (decide (h `div` region_size = idx)); [|lia]. lia.
  - intros. apply Z.nle_gt. intros ?. assert (h `div` region_size = idx) by (apply Hiff; lia). lia.
Qed.

(** ** Splitting *)

Section splitting.
Context (query : TableQuery).

(** The groups of the hashes of a list by the regions of a second list. *)
Definition region_group (hs : list Z) (idx : Z) : TableQuery * Z :=
  (table_query_create_from query (filter (λ h, map_table_region region_size h = idx) hs), idx).

(** [h] is reached from region [idx] on. *)
Definition split_at (idx : Z) (st : SplitState) : Prop :=
  sp_region_idx st = idx ∧
  sp_region_end st = (compute_table_region_bounds region_size idx).2.

Lemma split_flush_at idx st : split_at idx st → split_at idx (split_flush query st).
Proof. unfold split_at, split_flush. by case_decide. Qed.

Lemma split_flush_empty st : sp_key_hashes (split_flush query st) = [].
Proof. unfold split_flush. by case_decide. Qed.

Lemma split_flush_flush st : split_flush query (split_flush query st) = split_flush query st.
Proof.
  unfold split_flush at 1. by rewrite decide_True by apply split_flush_empty.
Qed.

(** The inner loop stops in the region of the hash, having flushed what it left. *)
Lemma advance_region_spec fuel idx h st :
  split_at idx st → 0 ≤ idx ≤ map_table_region region_size h → in_u32 h →
  (Z.to_nat (map_table_region region_size h - idx) < fuel)%nat →
  let st' := advance_region fuel region_size query h st in
  split_at (map_table_region region_size h) st' ∧
  (if decide (idx = map_table_region region_size h) then st' = st
   else sp_key_hashes st' = [] ∧ sp_result st' = sp_result (split_flush query st)).
Proof.
  revert idx st. induction fuel as [|fuel IH]; intros idx st [Hidx Hend] Hi Hh Hf; [lia|].
  pose proof (map_table_region_range h Hh) as Hr.
  assert ((two32 - 1) `div` region_size ≤ two32 - 1) by
    (unfold region_size_ok in *; apply Z.div_le_upper_bound; nia).
  cbn [advance_region]. rewrite Hend. case_decide as Hlt.
  - apply region_end_lt in Hlt; [|done..]. rewrite decide_False by lia.
    set (st1 := split_flush query st).
    assert (split_at idx st1) as [Hidx1 _] by (by apply split_flush_at).
    rewrite Hidx1, u32_add_small by lia.
    edestruct (IH (idx + 1)) as [Hat Hres];
      [|lia|done|lia|split; [exact Hat|]]; [by split|].
    case_decide as Heq.
    + rewrite Hres. simpl. split; [apply split_flush_empty|done].
    + destruct Hres as [Hk Hres]. split; [done|]. rewrite Hres. unfold split_flush at 1. simpl.
      rewrite decide_True by apply split_flush_empty. done.
  - assert (idx = map_table_region region_size h) as <-.
    { rewrite region_end_lt in Hlt by done. lia. }
    rewrite decide_True by done. done.
Qed.

Abbreviation region_of := (map_table_region region_size).

Definition regions_of (hs : list Z) : gset Z := list_to_set (region_of <$> hs).

(** The reference: one group per region that occurs, in increasing order. *)
Definition split_spec (hs : list Z) : list (TableQuery * Z) :=
  region_group hs <$> set_iter (regions_of hs).

Lemma regions_of_single idx ks :
  ks ≠ [] → Forall (λ k, region_of k = idx) ks → regions_of ks = {[idx]}.
Proof.
  intros Hks Hall. apply set_eq. intros x. unfold regions_of.
  rewrite elem_of_list_to_set, list_elem_of_fmap, elem_of_singleton.
  rewrite Forall_forall in Hall. split.
  - intros (k & -> & Hk). auto.
  - intros ->. destruct ks as [|k ks]; [done|]. exists k. split; [|by left].
    symmetry. apply Hall. by left.
Qed.

Lemma split_spec_single idx ks :
  ks ≠ [] → Forall (λ k, region_of k = idx) ks →
  split_spec ks = [(table_query_create_from query ks, idx)].
Proof.
  intros Hks Hall. unfold split_spec.
  rewrite (regions_of_single idx) by done.
  rewrite set_iter_singleton. unfold region_group. simpl. do 3 f_equal.
  by apply list_filter_all.
Qed.

Lemma split_spec_app idx ks hs :
  ks ≠ [] → Forall (λ k, region_of k = idx) ks → Forall (λ h, idx < region_of h) hs →
  split_spec (ks ++ hs) = (table_query_create_from query ks, idx) :: split_spec hs.
Proof.
  intros Hks Hall Hlt. unfold split_spec.
  assert (regions_of (ks ++ hs) = {[idx]} ∪ regions_of hs) as ->.
  { unfold regions_of. rewrite fmap_app, list_to_set_app_L. f_equal.
    by apply regions_of_single. }
  rewrite set_iter_min.
  2: { intros x. unfold regions_of. rewrite elem_of_list_to_set, list_elem_of_fmap.
       intros (k & -> & Hk). rewrite Forall_forall in Hlt. auto. }
  simpl. f_equal.
  - unfold region_group. f_equal. f_equal. rewrite filter_app.
    rewrite list_filter_all by done. rewrite list_filter_none; [apply app_nil_r|].
    eapply Forall_impl; [exact Hlt|]. intros h H1 H2. simpl in *. lia.
  - apply list_fmap_ext. intros i x Hx. unfold region_group. f_equal. f_equal.
    rewrite filter_app. rewrite (list_filter_none _ ks); [done|].
    apply list_elem_of_lookup_2, elem_of_set_iter in Hx. unfold regions_of in Hx.
    rewrite elem_of_list_to_set, list_elem_of_fmap in Hx. destruct Hx as (h & -> & Hh).
    rewrite Forall_forall in Hlt. specialize (Hlt h Hh).
    eapply Forall_impl; [exact Hall|]. intros k H1 H2. simpl in *. lia.
Qed.

(** The outer loop. *)
Lemma split_loop_spec hs idx st :
  split_at idx st → 0 ≤ idx → Forall (λ k, region_of k = idx) (sp_key_hashes st) →
  StronglySorted Z.lt hs → Forall in_u32 hs → Forall (λ h, idx ≤ region_of h) hs →
  sp_result (split_flush query (foldl (split_step region_size query) st hs))
  = sp_result st ++ split_spec (sp_key_hashes st ++ hs).
Proof.
  revert idx st. induction hs as [|h hs IH]; intros idx st Hat Hi Hks Hs Hu Hle; cbn [foldl].
  - rewrite app_nil_r. unfold split_flush. case_decide as Hk.
    + rewrite Hk. by rewrite app_nil_r.
    + destruct Hat as [-> _]. by rewrite (split_spec_single idx).
  - inversion_clear Hs as [|? ? Hs' Hlt]. inversion_clear Hu. inversion_clear Hle.
    assert (Forall (λ h', region_of h ≤ region_of h') hs) as Hge.
    { eapply Forall_impl; [exact Hlt|]. intros h' ?. apply map_table_region_mono. lia. }
    unfold split_step at 2. unfold split_fuel.
    assert (sp_region_idx st = idx) as -> by apply Hat.
    destruct (advance_region_spec (S (Z.to_nat (region_of h - idx))) idx h st)
      as [Hat' Hst]; [done|lia|done|lia|].
    set (st' := advance_region _ _ _ _ st) in *. clearbody st'. case_decide as Heq.
    + rewrite Hst in *. rewrite (IH (region_of h)); [|done|lia| |done..].
      * cbn. by rewrite <- (assoc_L (++)).
      * cbn. apply Forall_app. split; [by rewrite <- Heq|by constructor].
    + destruct Hst as [Hk Hr]. rewrite (IH (region_of h)); [|done|lia| |done..].
      2: { cbn. rewrite Hk. by constructor. }
      cbn. rewrite Hk, Hr. cbn [app]. unfold split_flush. case_decide as Hk0.
      * by rewrite Hk0.
      * assert (sp_region_idx st = idx) as -> by apply Hat. cbn [sp_result].
        rewrite <- (assoc_L (++)). f_equal. rewrite (split_spec_app idx); [done..|].
        constructor; [lia|]. eapply Forall_impl; [exact Hge|]. intros x Hx. simpl in *. lia.
Qed.
End splitting.
End regions.

Lemma set_iter_Forall (P : Z → Prop) s : (∀ h, h ∈ s → P h) → Forall P (set_iter s).
Proof. intros H. apply Forall_forall. intros h. rewrite elem_of_set_iter. auto. Qed.

Lemma split_and_map_query_groups t query result :
  region_size_ok (ct_region_size t) → (∀ h, h ∈ tq_key_hashes query → in_u32 h) →
  split_and_map_query t query result
  = result ++ split_spec (ct_region_size t) query (set_iter (tq_key_hashes query)).
Proof.
  intros Hsize Hu. unfold split_and_map_query.
  pose proof (set_iter_increasing (tq_key_hashes query)) as Hs.
  pose proof (set_iter_Forall in_u32 _ Hu) as Hall. revert Hs Hall.
  generalize (set_iter (tq_key_hashes query)) as hs. intros [|h hs] Hs Hall.
  - by rewrite app_nil_r.
  - inversion_clear Hall. inversion_clear Hs as [|? ? Hs' Hlt].
    rewrite (split_loop_spec (ct_region_size t) Hsize query (h :: hs)
      (map_table_region (ct_region_size t) h)); [done|done| |constructor|by constructor..|].
    + apply map_table_region_range; done.
    + constructor; [done|]. eapply Forall_impl; [exact Hlt|].
      intros x Hx. apply map_table_region_mono; [done|]. lia.
Qed.

(** ** Resolving *)

(** The first of the ids at or after a hash. *)
Definition successor (ids : list Z) (h id : Z) : Prop :=
  id ∈ ids ∧ h ≤ id ∧ ∀ id', id' ∈ ids → h ≤ id' → id ≤ id'.

Section resolving.
Context (t : CachedTable) (query : TableQuery) (all : list Z).
Hypothesis Hall : StronglySorted Z.lt all.

(** A resolved query holds hashes of the original one, all with the same successor. *)
Definition resolved_ok (x : TableQuery * TabletMetadata) : Prop :=
  tq_query_id x.1 = tq_query_id query ∧ tq_table_name x.1 = tq_table_name query ∧
  ∃ id, ct_tablets t !! id = Some x.2 ∧
    ∀ h, h ∈ tq_key_hashes x.1 → h ∈ tq_key_hashes query ∧ successor all h id.

(** The merge after the hashes up to [b]: the ids before the current one are passed, or
    all of them are. *)
Definition merge_at (b : Z) (st : MergeState) : Prop :=
  (∃ passed, all = passed ++ mg_tablet_id st :: mg_ids st ∧ Forall (λ id, id ≤ b) passed) ∨
  (mg_tablet_id st ∈ all ∧ Forall (λ id, id ∈ all) (mg_ids st) ∧ Forall (λ id, id ≤ b) all).

Definition merge_ok (st : MergeState) : Prop :=
  Forall (λ h, h ∈ tq_key_hashes query ∧ successor all h (mg_tablet_id st)) (mg_key_hashes st) ∧
  Forall resolved_ok (mg_result st).

Lemma merge_at_elem b st : merge_at b st → mg_tablet_id st ∈ all.
Proof. intros [(passed & -> & _)|(? & _)]; [|done]. apply elem_of_app. right. by left. Qed.

Lemma merge_flush_ok st st' :
  merge_ok st → merge_flush t query st = Return st' →
  merge_ok st' ∧ mg_ids st' = mg_ids st ∧ mg_tablet_id st' = mg_tablet_id st ∧
  mg_key_hashes st' = [].
Proof.
  intros Hok. unfold merge_flush. case_decide as Hnil; [by intros [= <-]|].
  destruct Hok as [Hk Hr]. intros H. outcome_inv. subst st'. split_and!; [|done..].
  split; [constructor|]. apply Forall_app. split; [done|]. constructor; [|constructor].
  split; [done|]. split; [done|]. eexists. split; [done|]. intros h Hh.
  apply key_hashes_create in Hh. rewrite Forall_forall in Hk. auto.
Qed.

Lemma merge_step_ok b h st st' :
  merge_at b st → merge_ok st → b < h → h ∈ tq_key_hashes query →
  merge_step t all query st h = Return st' → merge_at h st' ∧ merge_ok st'.
Proof.
  intros Hat Hok Hb Hh. unfold merge_step. case_decide as Hlt.
  - intros H. apply bind_Return in H as (st1 & Hf & H).
    apply merge_flush_ok in Hf as (Hok1 & Hids & Hid & Hk); [|done].
    apply bind_Return in H as ([id rest] & Hc & H). apply unwrap_Return in Hc.
    injection H as <-. split.
    2: { split; simpl; [rewrite Hk; constructor|apply Hok1]. }
    rewrite Hids in Hc. destruct Hat as [(passed & Heq & Hp)|(Hin & Hrest & Hle)].
    + assert (Forall (λ id, id ≤ h) (passed ++ [mg_tablet_id st])) as Hp'.
      { apply Forall_app. split; [|repeat constructor; lia].
        eapply Forall_impl; [exact Hp|]. intros x Hx. simpl in *. lia. }
      destruct (mg_ids st) as [|x xs] eqn:Em; simpl in Hc.
      * right. rewrite <- Heq in Hp'. destruct all as [|y ys]; [done|]. injection Hc as -> ->.
        simpl. split_and!; [by left| |done].
        apply Forall_forall. intros z Hz. by right.
      * injection Hc as -> ->. left. exists (passed ++ [mg_tablet_id st]). simpl. split; [|done].
        by rewrite <- (assoc_L (++)).
    + right. simpl.
      assert (id ∈ all ∧ Forall (λ id, id ∈ all) rest) as [? ?].
      { destruct (mg_ids st) as [|x xs]; simpl in Hc.
        - destruct all as [|y ys]; [done|]. injection Hc as -> ->. split; [by left|].
          apply Forall_forall. intros z Hz. by right.
        - injection Hc as -> ->. by inversion_clear Hrest. }
      split_and!; [done..|]. eapply Forall_impl; [exact Hle|]. intros x Hx. simpl in *. lia.
  - intros [= <-]. destruct Hat as [(passed & Heq & Hp)|(Hin & _ & Hle)].
    2: { rewrite Forall_forall in Hle. specialize (Hle _ Hin). simpl in *. lia. }
    split.
    + left. exists passed. simpl. split; [done|].
      eapply Forall_impl; [exact Hp|]. intros x Hx. simpl in *. lia.
    + destruct Hok as [Hk Hr]. split; [|done]. simpl. apply Forall_app. split; [done|].
      constructor; [|constructor]. split; [done|]. split_and!.
      * rewrite Heq. apply elem_of_app. right. by left.
      * lia.
      * intros id' Hid' Hle. rewrite Heq in Hid', Hall.
        apply elem_of_app in Hid' as [Hid'|Hid'].
        { rewrite Forall_forall in Hp. specialize (Hp _ Hid'). simpl in *. lia. }
        apply elem_of_cons in Hid' as [->|Hid']; [done|].
        apply StronglySorted_app_1_r in Hall. inversion_clear Hall as [|? ? _ Hx].
        rewrite Forall_forall in Hx. specialize (Hx _ Hid'). lia.
Qed.

Lemma merge_loop_ok hs b st st' :
  merge_at b st → merge_ok st → StronglySorted Z.lt hs → Forall (λ h, b < h) hs →
  Forall (λ h, h ∈ tq_key_hashes query) hs →
  ofold (merge_step t all query) st hs = Return st' → merge_ok st'.
Proof.
  revert b st. induction hs as [|h hs IH]; intros b st Hat Hok Hs Hb Hq H; simpl in H.
  - by injection H as <-.
  - inversion_clear Hs. inversion_clear Hb. inversion_clear Hq.
    apply bind_Return in H as (st1 & Hst & H).
    destruct (merge_step_ok b h st st1) as [Hat1 Hok1]; [done..|]. by eapply (IH h).
Qed.
End resolving.

Lemma try_resolve_sound t idx query res r :
  ct_regions t !! idx = Some r → rg_state r = RegionFresh →
  (∀ h, h ∈ tq_key_hashes query → 0 ≤ h) →
  try_resolve_pending_query t idx query = Return (Some res) →
  Forall (resolved_ok t query (set_iter (rg_tablet_ids r))) res.
Proof.
  intros Hr Hfresh Hpos H. unfold try_resolve_pending_query in H. rewrite Hr in H.
  unfold maybe_fresh_tablet_ids in H. rewrite Hfresh in H.
  apply bind_Return in H as ([id rest] & Hc & H). apply unwrap_Return in Hc.
  apply bind_Return in H as (st & Hloop & H). apply bind_Return in H as (st' & Hf & H).
  injection H as <-. pose proof (set_iter_increasing (rg_tablet_ids r)) as Hs.
  eapply (merge_loop_ok _ _ _ Hs _ (-1)) in Hloop.
  - apply (merge_flush_ok _ _ (set_iter (rg_tablet_ids r))) in Hf as [[_ Hres] _]; done.
  - left. exists []. simpl. split; [|constructor].
    destruct (set_iter (rg_tablet_ids r)); [done|]. by injection Hc as -> ->.
  - split; constructor.
  - apply set_iter_increasing.
  - apply set_iter_Forall. intros h Hh. specialize (Hpos h Hh). lia.
  - by apply set_iter_Forall.
Qed.

(** ** Well-formed tables *)

(** Tablets under their ids; a fresh region has tablets, all with known metadata. *)
Definition tablets_keyed (m : gmap Z TabletMetadata) : Prop :=
  ∀ id x, m !! id = Some x → tm_tablet_id x = id.

Record table_ok (t : CachedTable) : Prop := {
  table_ok_size : region_size_ok (ct_region_size t);
  table_ok_keyed : tablets_keyed (ct_tablets t);
  table_ok_fresh : ∀ idx r, ct_regions t !! idx = Some r → rg_state r = RegionFresh →
    rg_tablet_ids r ≠ ∅ ∧ ∀ id, id ∈ rg_tablet_ids r → is_Some (ct_tablets t !! id)
}.

(** Known tablets stay known, at the same or a later version. *)
Definition versions_le (m m' : gmap Z TabletMetadata) : Prop :=
  ∀ id x, m !! id = Some x → ∃ y, m' !! id = Some y ∧ tm_tablet_version x ≤ tm_tablet_version y.

#[global] Instance versions_le_preorder : PreOrder versions_le.
Proof.
  split; [intros m id x Hx; by exists x|].
  intros m1 m2 m3 H12 H23 id x Hx. destruct (H12 id x Hx) as (y & Hy & ?).
  destruct (H23 id y Hy) as (z & Hz & ?). exists z. split; [done|lia].
Qed.

Lemma insert_latest_tablet_versions m x :
  tablets_keyed m →
  versions_le m (insert_latest_tablet m x) ∧ tablets_keyed (insert_latest_tablet m x) ∧
  ∃ y, insert_latest_tablet m x !! tm_tablet_id x = Some y ∧
       tm_tablet_version x ≤ tm_tablet_version y.
Proof.
  intros Hk. unfold insert_latest_tablet.
  assert (tablets_keyed (<[tm_tablet_id x := x]> m)) as Hk'.
  { intros id y [[<- <-]|[_ ?]]%lookup_insert_Some; [done|by apply Hk]. }
  destruct (m !! tm_tablet_id x) as [y|] eqn:E; [case_decide|].
  - split_and!; [|done|exists x; rewrite lookup_insert_eq; split; [done|lia]].
    intros id z Hz. destruct (decide (id = tm_tablet_id x)) as [->|].
    + exists x. rewrite lookup_insert_eq. split; [done|]. simplify_eq. lia.
    + exists z. by rewrite lookup_insert_ne.
  - split_and!; [done..|]. exists y. split; [done|lia].
  - split_and!; [|done|exists x; rewrite lookup_insert_eq; split; [done|lia]].
    intros id z Hz. exists z. rewrite lookup_insert_ne; [split; [done|lia]|]. congruence.
Qed.

Lemma insert_latest_tablets_versions l m :
  tablets_keyed m →
  versions_le m (foldl insert_latest_tablet m l) ∧
  tablets_keyed (foldl insert_latest_tablet m l) ∧
  ∀ x, x ∈ l → ∃ y, foldl insert_latest_tablet m l !! tm_tablet_id x = Some y ∧
    tm_tablet_version x ≤ tm_tablet_version y.
Proof.
  revert m. induction l as [|x l IH]; intros m Hk; simpl.
  { split_and!; [done..|]. by intros x ?%elem_of_nil. }
  destruct (insert_latest_tablet_versions m x Hk) as (H1 & H2 & y & Hy & Hv).
  destruct (IH _ H2) as (H3 & H4 & H5). split_and!; [by etrans|done|].
  intros z [->|Hz]%elem_of_cons; [|auto].
  destruct (H3 _ _ Hy) as (y' & Hy' & ?). exists y'. split; [done|lia].
Qed.

Lemma versions_le_is_Some m m' id : versions_le m m' → is_Some (m !! id) → is_Some (m' !! id).
Proof. intros Hv [x Hx]. destruct (Hv id x Hx) as (y & Hy & _). by exists y. Qed.

(** What the operations of a table keep. *)
Definition table_step (t t' : CachedTable) : Prop :=
  ct_table_name t' = ct_table_name t ∧ ct_region_size t' = ct_region_size t ∧
  dom (ct_regions t') = dom (ct_regions t) ∧ versions_le (ct_tablets t) (ct_tablets t').

#[global] Instance table_step_preorder : PreOrder table_step.
Proof.
  split; [by intros t; unfold table_step|]. intros t1 t2 t3 (? & ? & ? & ?) (? & ? & ? & ?).
  unfold table_step. split_and!; [congruence..|]. by etrans.
Qed.

(** Replacing one existing region, and tablets by later ones, keeps a table. *)
Lemma table_replace_region t idx r r' tablets :
  table_ok t → ct_regions t !! idx = Some r → versions_le (ct_tablets t) tablets →
  tablets_keyed tablets →
  (rg_state r' = RegionFresh →
   rg_tablet_ids r' ≠ ∅ ∧ ∀ id, id ∈ rg_tablet_ids r' → is_Some (tablets !! id)) →
  table_ok (ct_with t (<[idx := r']> (ct_regions t)) tablets) ∧
  table_step t (ct_with t (<[idx := r']> (ct_regions t)) tablets).
Proof.
  intros [Hsz Hk Hf] Hr Hv Hk' Hr'. split.
  - split; simpl; [done..|]. intros i x [[<- <-]|[_ Hx]]%lookup_insert_Some; [done|].
    intros Hfr. destruct (Hf i x Hx Hfr) as [Hne Hid]. split; [done|].
    intros id Hin. eapply versions_le_is_Some; eauto.
  - split_and!; [done..| |done]. simpl. by rewrite dom_insert_lookup_L by (by exists r).
Qed.

Lemma cached_table_update_tablet_ok t x conflict :
  table_ok t → table_ok (cached_table_update_tablet t x conflict) ∧
  table_step t (cached_table_update_tablet t x conflict).
Proof.
  intros Ht. destruct (insert_latest_tablet_versions (ct_tablets t) x) as (Hv & Hk & _);
    [apply Ht|]. unfold cached_table_update_tablet.
  assert (table_ok (ct_with t (ct_regions t) (insert_latest_tablet (ct_tablets t) x)) ∧
          table_step t (ct_with t (ct_regions t) (insert_latest_tablet (ct_tablets t) x))).
  { split; [|by split_and!]. destruct Ht as [Hsz _ Hf]. split; simpl; [done..|].
    intros i r Hr Hfr. destruct (Hf i r Hr Hfr) as [Hne Hid]. split; [done|].
    intros id Hin. eapply versions_le_is_Some; eauto. }
  destruct (ct_regions t !! _) as [r|] eqn:E; [|done]. destruct conflict; [|done].
  by eapply table_replace_region.
Qed.

Lemma update_region_ok t start tablets :
  table_ok t → tablets ≠ Some [] →
  table_ok (update_region t start tablets).1 ∧ table_step t (update_region t start tablets).1.
Proof.
  intros Ht Hne. unfold update_region.
  destruct (ct_regions t !! _) as [r|] eqn:E; [|done]. destruct tablets as [l|]; simpl.
  - destruct (insert_latest_tablets_versions l (ct_tablets t)) as (Hv & Hk & Hl); [apply Ht|].
    eapply table_replace_region; [done..|]. intros _. simpl. split.
    + destruct l as [|x l]; [done|]. simpl. intros Heq.
      apply (not_elem_of_empty (C:=gset Z) (tm_tablet_id x)). rewrite <- Heq.
      apply elem_of_union. left. by apply elem_of_singleton.
    + intros id. rewrite elem_of_list_to_set, list_elem_of_fmap. intros (x & -> & Hx).
      destruct (Hl x Hx) as (y & Hy & _). by exists y.
  - eapply table_replace_region; [done..|apply Ht|done].
Qed.

Lemma register_pending_query_ok t id idx r :
  table_ok t → ct_regions t !! idx = Some r → rg_state r ≠ RegionFresh →
  ∃ r', register_pending_query t id idx
        = Return (ct_with t (<[idx := r']> (ct_regions t)) (ct_tablets t)) ∧
    region_waiting r' = region_waiting r ++ [id] ∧ rg_state r' ≠ RegionFresh.
Proof.
  intros Ht Hr Hst. unfold register_pending_query. rewrite Hr.
  unfold region_register_pending_query, region_waiting.
  destruct (rg_state r) as [ws p|] eqn:E; [|done]. simpl. eexists. done.
Qed.

Lemma cycle_next_Some all rest :
  all ≠ [] → Forall (λ id, id ∈ all) rest →
  ∃ x rest', cycle_next all rest = Some (x, rest') ∧ x ∈ all ∧ Forall (λ id, id ∈ all) rest'.
Proof.
  intros Hne Hrest. destruct rest as [|x rest].
  - destruct all as [|x all]; [done|]. exists x, all. split_and!; [done|by left|].
    apply Forall_forall. intros y Hy. by right.
  - inversion_clear Hrest. by exists x, rest.
Qed.

Section merging.
Context (t : CachedTable) (query : TableQuery) (all : list Z).
Hypothesis Hknown : ∀ id, id ∈ all → is_Some (ct_tablets t !! id).
Hypothesis Hnil : all ≠ [].

Definition merge_in (st : MergeState) : Prop :=
  mg_tablet_id st ∈ all ∧ Forall (λ id, id ∈ all) (mg_ids st).

Lemma merge_flush_returns st :
  merge_in st → ∃ st', merge_flush t query st = Return st' ∧ merge_in st'.
Proof.
  intros Hst. unfold merge_flush. case_decide; [by eexists|].
  destruct (Hknown _ (proj1 Hst)) as [y ->]. simpl. by eexists.
Qed.

Lemma merge_step_returns st h :
  merge_in st → ∃ st', merge_step t all query st h = Return st' ∧ merge_in st'.
Proof.
  intros Hst. unfold merge_step. case_decide; [|by eexists].
  destruct (merge_flush_returns st Hst) as (st1 & -> & _ & Hids). simpl.
  destruct (cycle_next_Some all (mg_ids st1) Hnil Hids) as (y & ys & -> & ? & ?). simpl.
  by eexists.
Qed.

Lemma merge_loop_returns hs st :
  merge_in st → ∃ st', ofold (merge_step t all query) st hs = Return st' ∧ merge_in st'.
Proof.
  revert st. induction hs as [|h hs IH]; intros st Hst; simpl; [by eexists|].
  destruct (merge_step_returns st h Hst) as (st1 & -> & Hst1). simpl. auto.
Qed.
End merging.

(** A query on an existing region is resolved exactly when the region is fresh. *)
Lemma try_resolve_returns t idx query r :
  table_ok t → ct_regions t !! idx = Some r →
  ∃ res, try_resolve_pending_query t idx query = Return res ∧
    (is_Some res ↔ rg_state r = RegionFresh).
Proof.
  intros Ht Hr. unfold try_resolve_pending_query. rewrite Hr. unfold maybe_fresh_tablet_ids.
  destruct (rg_state r) eqn:Est.
  { exists None. split; [done|]. split; [by intros [? [=]]|done]. }
  destruct (table_ok_fresh t Ht idx r Hr Est) as [Hne Hids].
  pose proof (elem_of_set_iter (rg_tablet_ids r)) as Hiff.
  assert (set_iter (rg_tablet_ids r) ≠ []) as Hnil.
  { apply set_choose_L in Hne as [x Hx]. intros Heq. rewrite <- Hiff, Heq in Hx.
    by apply elem_of_nil in Hx. }
  assert (∀ id, id ∈ set_iter (rg_tablet_ids r) → is_Some (ct_tablets t !! id)) as Hall.
  { intros id. rewrite Hiff. auto. }
  destruct (cycle_next_Some _ _ Hnil (proj2 (Forall_forall _ _) (λ _ H, H)))
    as (x & rest & -> & Hx & Hrest). simpl.
  destruct (merge_loop_returns t query _ Hall Hnil (set_iter (tq_key_hashes query))
    {| mg_ids := rest; mg_tablet_id := x; mg_key_hashes := []; mg_result := [] |})
    as (st & -> & Hst); [done|]. simpl.
  destruct (merge_flush_returns t query _ Hall st Hst) as (st' & -> & _). simpl.
  eexists. split; [done|]. split; [done|]. by eexists.
Qed.

(** The regions of a new table are stale and nobody waits for them. *)
Lemma foldl_insert_regions l (m : gmap Z TableRegion) idx r :
  foldl (λ regions region_idx, <[region_idx := region_create]> regions) m l !! idx = Some r →
  r = region_create ∨ m !! idx = Some r.
Proof.
  revert m. induction l as [|x l IH]; intros m; simpl; [by right|]. intros [?|H]%IH; [by left|].
  apply lookup_insert_Some in H as [[_ <-]|[_ ?]]; [by left|by right].
Qed.

(** ** The bookkeeping of waiting requests *)

Section bookkeeping.
Context {W : Type} `{HZ : !HashOrder Z, HS : !HashOrder string, HSZ : !HashOrder (string * Z)}.

(** The states of the world in which the handlers may be called. *)
Variable world_ok : W → Prop.

Definition handler_ok (h : ResolveHandler W) : Prop :=
  ∀ l w, world_ok w → ∃ w', h l w = Return w' ∧ world_ok w'.

(** A request with pending queries was not answered; one without was. *)
Definition request_ok (cells : ResolveCells) (r : TabletResolve W) : Prop :=
  match rs_notification r with
  | NotifySource a =>
      if decide (rs_pending_table_queries r = ∅)
      then ∃ answer, check_result cells a = Some (Ok answer)
      else cell_unset cells a
  | NotifyHandler h => handler_ok h
  end.

Record requests_ok (reqs : gmap Z (TabletResolve W)) (cells : ResolveCells) : Prop := {
  requests_cells : cells_ok cells;
  requests_each : ∀ id r, reqs !! id = Some r → request_ok cells r;
  requests_distinct : ∀ id id' r r' a, reqs !! id = Some r → reqs !! id' = Some r' →
    rs_notification r = NotifySource a → rs_notification r' = NotifySource a → id = id'
}.

(** A request that is not yet answered. *)
Definition unanswered (cells : ResolveCells) (r : TabletResolve W) : Prop :=
  match rs_notification r with
  | NotifySource a => cell_unset cells a
  | NotifyHandler h => handler_ok h
  end.

(** The cells change only at the source of a request, if at all. *)
Definition cells_frame (r : TabletResolve W) (cells cells' : ResolveCells) : Prop :=
  (cells_ok cells → cells_ok cells') ∧
  ∀ a, rs_notification r ≠ NotifySource a →
    cells_map cells' !! a = cells_map cells !! a.

Lemma maybe_resolve_results_spec r cells w :
  unanswered cells r → world_ok w →
  ∃ r' cells' w', maybe_resolve_results r cells w = Return (r', cells', w') ∧ world_ok w' ∧
    rs_notification r' = rs_notification r ∧
    rs_pending_table_queries r' = rs_pending_table_queries r ∧
    request_ok cells' r' ∧ cells_frame r cells cells'.
Proof using HSZ.
  intros Hu Hw. unfold maybe_resolve_results, request_ok, unanswered in *. case_decide as Hp.
  - unfold notify, cells_frame. destruct (rs_notification r) as [a|h] eqn:En.
    + destruct (check_result_set cells a (take_result <$> (hash_iter (rs_results r)).*2) Hu)
        as (cells' & -> & Hc & Hfr & Hok). simpl. eexists _, _, _. split; [done|]. simpl.
      split_and!; [done..| |done|].
      * rewrite decide_True by done. by eexists.
      * intros b Hb. apply Hfr. congruence.
    + simpl. match goal with |- context [h ?l w] => destruct (Hu l w Hw) as (w' & -> & Hw') end.
      eexists _, _, _. by split.
  - eexists _, _, _. split; [done|]. split_and!; [done..| |done].
    destruct (rs_notification r); [|done]. by rewrite decide_False.
Qed.

(** One more or one changed request. *)
Lemma requests_ok_insert reqs cells cells' id r :
  requests_ok reqs cells → cells_frame r cells cells' → request_ok cells' r →
  (∀ id' r' a, id' ≠ id → reqs !! id' = Some r' → rs_notification r' = NotifySource a →
    rs_notification r ≠ NotifySource a) →
  requests_ok (<[id := r]> reqs) cells'.
Proof using.
  intros [Hc He Hd] [Hck Hfr] Hr Hne. split; [auto| |].
  - intros id' r' [[<- <-]|[Hid Hr']]%lookup_insert_Some; [done|].
    specialize (He id' r' Hr'). unfold request_ok in *.
    destruct (rs_notification r') as [a|h] eqn:En; [|done].
    specialize (Hfr a ltac:(eauto)). unfold check_result, cell_unset in *. by rewrite Hfr.
  - intros i i' x x' a [[<- <-]|[Hi Hx]]%lookup_insert_Some [[<- <-]|[Hi' Hx']]%lookup_insert_Some
      Ha Ha'; [done| | |by eapply Hd].
    + by destruct (Hne i' x' a).
    + by destruct (Hne i x a).
Qed.

(** The requests that wait for a region of a table. *)
Definition table_waiting (t : CachedTable) (idx : Z) : list Z :=
  match ct_regions t !! idx with Some r => region_waiting r | None => [] end.

Definition waiting (tables : gmap string CachedTable) (name : string) (idx : Z) : list Z :=
  match tables !! name with Some t => table_waiting t idx | None => [] end.

Lemma waiting_insert tables name t name' idx :
  waiting (<[name := t]> tables) name' idx =
  if decide (name = name') then table_waiting t idx else waiting tables name' idx.
Proof using.
  unfold waiting. case_decide as Heq; [subst; by rewrite lookup_insert_eq|].
  by rewrite lookup_insert_ne.
Qed.

Lemma table_waiting_insert t idx r tablets idx' :
  table_waiting (ct_with t (<[idx := r]> (ct_regions t)) tablets) idx' =
  if decide (idx = idx') then region_waiting r else table_waiting t idx'.
Proof using.
  unfold table_waiting. simpl. case_decide as Heq; [subst; by rewrite lookup_insert_eq|].
  by rewrite lookup_insert_ne.
Qed.

Lemma cached_table_create_ok name region_size :
  region_size_ok region_size →
  ∃ t, cached_table_create name region_size = Return t ∧
    table_ok t ∧ ∀ idx, table_waiting t idx = [].
Proof using.
  intros Hsz. unfold cached_table_create. rewrite decide_False by (unfold region_size_ok in *; lia).
  eexists. split; [done|]. set (t := {| ct_table_name := name |}).
  assert (∀ idx r, ct_regions t !! idx = Some r → r = region_create) as Hr.
  { intros idx r [?|H]%foldl_insert_regions; [done|]. by rewrite lookup_empty in H. }
  split; [split; [done|by intros id x H; simpl in H; rewrite lookup_empty in H|]|].
  - by intros idx r ->%Hr.
  - intros idx. unfold table_waiting. destruct (ct_regions t !! idx) as [r|] eqn:E; [|done].
    by apply Hr in E as ->.
Qed.

Lemma update_tablet_waiting t x conflict idx :
  table_waiting (cached_table_update_tablet t x conflict) idx = table_waiting t idx.
Proof using.
  unfold cached_table_update_tablet. destruct (ct_regions t !! _) as [r|] eqn:E; [|done].
  destruct conflict; [|done]. rewrite table_waiting_insert. case_decide as Heq; [|done].
  unfold table_waiting. by rewrite <- Heq, E.
Qed.

Lemma update_region_waiting t start tablets idx :
  table_waiting (update_region t start tablets).1 idx =
  if tablets then
    if decide (map_table_region (ct_region_size t) start = idx) then [] else table_waiting t idx
  else table_waiting t idx.
Proof using.
  unfold update_region. destruct (ct_regions t !! _) as [r|] eqn:E.
  - destruct tablets as [l|]; simpl; rewrite table_waiting_insert; [done|].
    case_decide as Heq; [|done]. unfold table_waiting. by rewrite <- Heq, E.
  - destruct tablets as [l|]; [|done]. simpl. case_decide as Heq; [|done].
    unfold table_waiting. by rewrite <- Heq, E.
Qed.

Lemma update_region_fresh t start tablets :
  tablets ≠ None → table_waiting t (map_table_region (ct_region_size t) start) ≠ [] →
  ∃ rg, ct_regions (update_region t start tablets).1
          !! map_table_region (ct_region_size t) start = Some rg ∧ rg_state rg = RegionFresh.
Proof using.
  intros Htab. unfold update_region, table_waiting.
  destruct (ct_regions t !! _) as [rg|]; [|done]. destruct tablets; [|done]. intros _. simpl.
  eexists. by rewrite lookup_insert_eq.
Qed.

Lemma update_region_notify t start tablets :
  (update_region t start tablets).2 =
  (map_table_region (ct_region_size t) start,
   if tablets then table_waiting t (map_table_region (ct_region_size t) start) else []).
Proof using.
  unfold update_region, table_waiting. destruct (ct_regions t !! _) as [r|] eqn:E;
    by destruct tablets.
Qed.

(** Notifying requests of a fresh region removes it from what they wait for. *)
Lemma notify_requests_spec name idx t ws reqs cells w :
  table_ok t →
  (ws ≠ [] → ∃ rg, ct_regions t !! idx = Some rg ∧ rg_state rg = RegionFresh) →
  NoDup ws → requests_ok reqs cells → world_ok w →
  (∀ id, id ∈ ws → ∃ r, reqs !! id = Some r ∧ is_Some (rs_pending_table_queries r !! (name, idx))) →
  ∃ reqs' cells' w', ofold (notify_request name idx t) (reqs, cells, w) ws
                     = Return (reqs', cells', w') ∧
    world_ok w' ∧ requests_ok reqs' cells' ∧ dom reqs' = dom reqs ∧
    ∀ id r, reqs !! id = Some r → ∃ r', reqs' !! id = Some r' ∧
      rs_notification r' = rs_notification r ∧
      rs_pending_table_queries r' =
        if decide (id ∈ ws) then delete (name, idx) (rs_pending_table_queries r)
        else rs_pending_table_queries r.
Proof using HSZ.
  intros Ht. revert reqs cells w.
  induction ws as [|id ws IH]; intros reqs cells w Hrg Hnd Hreqs Hw Hws; simpl.
  { eexists _, _, _. split_and!; [done..|]. intros id r Hr. by exists r. }
  destruct (Hrg ltac:(done)) as (rg & Hrg1 & Hfresh). apply NoDup_cons in Hnd as [Hid Hnd].
  destruct (Hws id) as (r & Hr & [q Hq]); [by left|]. rewrite Hr. unfold process_results_fresh.
  rewrite Hq. destruct (try_resolve_returns t idx q rg Ht Hrg1) as (res & -> & Hres). simpl.
  destruct (proj2 Hres Hfresh) as [l ->]. simpl.
  match goal with |- context [maybe_resolve_results ?x _ _] => set (r1 := x) end.
  assert (unanswered cells r1) as Hun.
  { pose proof (requests_each _ _ Hreqs id r Hr) as He. unfold request_ok, unanswered in *.
    simpl. destruct (rs_notification r); [|done]. rewrite decide_False in He; [done|].
    intros Hemp. by rewrite Hemp, lookup_empty in Hq. }
  destruct (maybe_resolve_results_spec r1 cells w Hun Hw)
    as (r' & cells' & w' & -> & Hw' & Hn & Hp & Hr' & Hfr). simpl.
  assert (cells_frame r' cells cells') as Hfr' by (unfold cells_frame in *; by rewrite Hn).
  assert (requests_ok (<[id := r']> reqs) cells') as Hreqs'.
  { apply (requests_ok_insert reqs cells); [done..|]. intros id' x a Hne Hx Ha Ha'.
    rewrite Hn in Ha'. apply Hne. by eapply (requests_distinct _ _ Hreqs). }
  destruct (IH (<[id := r']> reqs) cells' w') as (reqs' & cells2 & w2 & -> & ? & ? & Hdom & Heff);
    [by eauto|done..| |].
  { intros id' Hid'. destruct (Hws id') as (x & Hx & ?); [by right|]. exists x.
    rewrite lookup_insert_ne by (intros ->; done). done. }
  eexists _, _, _. split_and!; [done..| |].
  - rewrite Hdom. by rewrite dom_insert_lookup_L by (by exists r).
  - intros id' x Hx. destruct (decide (id' = id)) as [->|Hne].
    + simplify_eq. destruct (Heff id r') as (r2 & Hr2 & Hn2 & Hp2); [by rewrite lookup_insert_eq|].
      rewrite decide_False in Hp2 by done. rewrite decide_True by (by left).
      exists r2. by rewrite Hn2, Hn, Hp2, Hp.
    + destruct (Heff id' x) as (r2 & Hr2 & Hn2 & Hp2); [by rewrite lookup_insert_ne|].
      exists r2. split_and!; [done..|]. rewrite Hp2.
      assert (id' ∈ ws ↔ id' ∈ id :: ws) as Hiff by (rewrite elem_of_cons; tauto).
      by rewrite (decide_ext _ _ _ _ Hiff).
Qed.

(** The invariant of a cache: a request waits for exactly the regions its pending
    queries are in, once each. *)
Record cache_ok (c : DefaultTabletMetadataCache W) : Prop := {
  cache_tables : ∀ name t, mc_tables c !! name = Some t → table_ok t;
  cache_requests : requests_ok (mc_resolve_requests c) (mc_cells c);
  cache_waiting : ∀ name idx id, id ∈ waiting (mc_tables c) name idx ↔
    ∃ r, mc_resolve_requests c !! id = Some r ∧
      is_Some (rs_pending_table_queries r !! (name, idx));
  cache_waiting_once : ∀ name idx, NoDup (waiting (mc_tables c) name idx);
  cache_ids : ∀ id, is_Some (mc_resolve_requests c !! id) →
    id ≤ mc_resolve_request_counter c
}.

(** What operations keep of the tables. *)
Definition tables_step (tables tables' : gmap string CachedTable) : Prop :=
  ∀ name, option_relation table_step (const False) (const False)
    (tables !! name) (tables' !! name).

#[global] Instance tables_step_preorder : PreOrder tables_step.
Proof using.
  split.
  - intros m name. by destruct (m !! name).
  - intros m1 m2 m3 H12 H23 name. specialize (H12 name). specialize (H23 name).
    destruct (m1 !! name), (m2 !! name), (m3 !! name); simpl in *; try done. by etrans.
Qed.

Lemma tables_step_insert tables name t t' :
  tables !! name = Some t → table_step t t' → tables_step tables (<[name := t']> tables).
Proof using.
  intros Ht Hs name'. destruct (decide (name = name')) as [<-|].
  - by rewrite Ht, lookup_insert_eq.
  - rewrite lookup_insert_ne by done. by destruct (tables !! name').
Qed.

(** ** List responses *)

(** A result of the tablet store to a list operation. *)
Definition list_result_ok (x : TabletOpResult) : Prop :=
  match tor_op_result x with
  | Some (ListTabletResult _ _ tablets) => tor_status x = TabletOpSucceeded → tablets ≠ []
  | _ => False
  end.

(** The region of a successful result. *)
Definition listed_region (tables : gmap string CachedTable) (x : TabletOpResult)
    : option (string * Z) :=
  match tor_op_result x, tables !! tor_table_name x with
  | Some (ListTabletResult key_hash_from _ _), Some t =>
      if decide (tor_status x = TabletOpSucceeded)
      then Some (tor_table_name x, map_table_region (ct_region_size t) key_hash_from) else None
  | _, _ => None
  end.

(** What a result removes from the queries of every request. *)
Definition pending_after {A} (region : option (string * Z)) (pending : gmap (string * Z) A)
    : gmap (string * Z) A :=
  match region with Some k => delete k pending | None => pending end.

(** The invariant after a region of a table became fresh, or was listed in vain. *)
Lemma cache_ok_listed c name t t' region reqs' cells' :
  cache_ok c → mc_tables c !! name = Some t → table_ok t' →
  (∀ idx, table_waiting t' idx =
     if decide (region = Some (name, idx)) then [] else table_waiting t idx) →
  (∀ n idx, region = Some (n, idx) → n = name) →
  requests_ok reqs' cells' → dom reqs' = dom (mc_resolve_requests c) →
  (∀ id r, mc_resolve_requests c !! id = Some r → ∃ r', reqs' !! id = Some r' ∧
     rs_pending_table_queries r' = pending_after region (rs_pending_table_queries r)) →
  cache_ok {| mc_correlation_counter := mc_correlation_counter c;
              mc_resolve_request_counter := mc_resolve_request_counter c;
              mc_config := mc_config c; mc_tables := <[name := t']> (mc_tables c);
              mc_resolve_requests := reqs'; mc_out_messages := mc_out_messages c;
              mc_cells := cells' |}.
Proof using.
  intros Hc Ht Ht' Hwait Hname Hreqs Hdom Heff.
  assert (∀ n idx, waiting (<[name := t']> (mc_tables c)) n idx =
    if decide (region = Some (n, idx)) then [] else waiting (mc_tables c) n idx) as Hw'.
  { intros n idx. rewrite waiting_insert. case_decide as Hn.
    - subst n. rewrite Hwait. unfold waiting. by rewrite Ht.
    - rewrite decide_False; [done|]. intros Heq. by apply Hname in Heq. }
  assert (∀ id r', reqs' !! id = Some r' → ∃ r, mc_resolve_requests c !! id = Some r ∧
    rs_pending_table_queries r' = pending_after region (rs_pending_table_queries r)) as Hback.
  { intros id r' Hr'. assert (is_Some (mc_resolve_requests c !! id)) as [r Hr].
    { apply elem_of_dom. rewrite <- Hdom. apply elem_of_dom. by exists r'. }
    exists r. split; [done|]. destruct (Heff id r Hr) as (r2 & Hr2 & Hp). by simplify_eq. }
  split; simpl.
  - intros n x [[<- <-]|[_ Hx]]%lookup_insert_Some; [done|]. by eapply (cache_tables c Hc).
  - done.
  - intros n idx id. rewrite Hw'. split.
    + case_decide as Hreg; [by intros ?%elem_of_nil|]. intros Hid.
      apply (cache_waiting c Hc) in Hid as (r & Hr & Hp).
      destruct (Heff id r Hr) as (r' & Hr' & Hp'). exists r'. split; [done|]. rewrite Hp'.
      destruct region as [k|]; [|done]. simpl. rewrite lookup_delete_ne; [done|]. congruence.
    + intros (r' & Hr' & Hp'). destruct (Hback id r' Hr') as (r & Hr & Heq). rewrite Heq in Hp'.
      case_decide as Hreg.
      * subst region. simpl in Hp'. rewrite lookup_delete_eq in Hp'. by destruct Hp'.
      * apply (cache_waiting c Hc). exists r. split; [done|].
        destruct region as [k|]; [|done]. simpl in Hp'.
        rewrite lookup_delete_ne in Hp'; [done|]. congruence.
  - intros n idx. rewrite Hw'. case_decide; [constructor|]. apply (cache_waiting_once c Hc).
  - intros id Hid. apply (cache_ids c Hc). apply elem_of_dom. rewrite <- Hdom. by apply elem_of_dom.
Qed.

(** Notifying everything that waits for a region of a cache. *)
Lemma notify_waiting_spec c w name t t' idx :
  cache_ok c → world_ok w → mc_tables c !! name = Some t → table_ok t' →
  (table_waiting t idx ≠ [] →
   ∃ rg, ct_regions t' !! idx = Some rg ∧ rg_state rg = RegionFresh) →
  ∃ reqs' cells' w',
    ofold (notify_request name idx t') (mc_resolve_requests c, mc_cells c, w) (table_waiting t idx)
    = Return (reqs', cells', w') ∧
    world_ok w' ∧ requests_ok reqs' cells' ∧ dom reqs' = dom (mc_resolve_requests c) ∧
    ∀ id r, mc_resolve_requests c !! id = Some r → ∃ r', reqs' !! id = Some r' ∧
      rs_notification r' = rs_notification r ∧
      rs_pending_table_queries r' = delete (name, idx) (rs_pending_table_queries r).
Proof using HSZ.
  intros Hc Hw Ht Ht' Hfresh.
  pose proof (cache_waiting c Hc name idx) as Hws.
  pose proof (cache_waiting_once c Hc name idx) as Hnd.
  unfold waiting in Hws, Hnd. rewrite Ht in Hws, Hnd.
  destruct (notify_requests_spec name idx t' (table_waiting t idx) (mc_resolve_requests c)
    (mc_cells c) w) as (reqs' & cells' & w' & -> & Hw' & Hreqs' & Hdom & Heff);
    [done..|apply (cache_requests c Hc)|done|apply Hws|].
  eexists _, _, _. split_and!; [done..|]. intros id r Hr.
  destruct (Heff id r Hr) as (r' & Hr' & Hn & Hp). exists r'. split_and!; [done..|]. rewrite Hp.
  case_decide as Hin; [done|]. symmetry. apply delete_id, eq_None_not_Some.
  intros ?. apply Hin, Hws. by exists r.
Qed.

Lemma process_list_result_spec c w x :
  cache_ok c → world_ok w → list_result_ok x →
  ∃ c' w', process_list_result (c, w) x = Return (c', w') ∧ cache_ok c' ∧ world_ok w' ∧
    tables_step (mc_tables c) (mc_tables c') ∧
    mc_resolve_request_counter c' = mc_resolve_request_counter c ∧
    ∀ id r, mc_resolve_requests c !! id = Some r → ∃ r', mc_resolve_requests c' !! id = Some r' ∧
      rs_notification r' = rs_notification r ∧
      rs_pending_table_queries r'
      = pending_after (listed_region (mc_tables c) x) (rs_pending_table_queries r).
Proof using HSZ.
  intros Hc Hw Hx. unfold process_list_result, list_result_ok, listed_region in *.
  destruct (tor_op_result x) as [[from to l| | | |]|]; try done.
  destruct (mc_tables c !! tor_table_name x) as [t|] eqn:Et; simpl.
  2: { exists c, w. split_and!; [done..|]. intros id r Hr. by exists r. }
  pose proof (cache_tables c Hc _ t Et) as Ht. set (idx := map_table_region _ from).
  assert (∀ tablets, tablets ≠ Some [] → ∃ t', table_ok t' ∧ table_step t t' ∧
    update_region t from tablets = (t', (idx, if tablets then table_waiting t idx else [])) ∧
    (∀ i, table_waiting t' i
      = if tablets then if decide (idx = i) then [] else table_waiting t i
        else table_waiting t i) ∧
    (tablets ≠ None → table_waiting t idx ≠ [] →
      ∃ rg, ct_regions t' !! idx = Some rg ∧ rg_state rg = RegionFresh)) as Hupd.
  { intros tablets Hne. exists (update_region t from tablets).1.
    destruct (update_region_ok t from tablets Ht Hne). split_and!; [done..| | |].
    - rewrite (surjective_pairing (update_region t from tablets)). f_equal.
      apply update_region_notify.
    - apply update_region_waiting.
    - apply update_region_fresh. }
  case_bool_decide as Hok.
  - rewrite decide_True by done. destruct (Hupd (Some l)) as (t' & Ht' & Hst & -> & Hwait & Hfr).
    { intros [= ->]. by apply Hx. }
    destruct (notify_waiting_spec c w (tor_table_name x) t t' idx)
      as (reqs' & cells' & w' & -> & Hw' & Hreqs' & Hdom & Heff); [done..|by apply Hfr|].
    simpl. eexists _, _. split; [done|]. split_and!; [|done|by eapply tables_step_insert|done|done].
    eapply (cache_ok_listed c _ t t' (Some (tor_table_name x, idx))); [done..| | |done|done|].
    + intros i. rewrite Hwait. case_decide as H1; case_decide as H2; congruence.
    + by intros ? ? [= -> ->].
    + intros id r Hr. destruct (Heff id r Hr) as (r' & ? & _ & ?). by exists r'.
  - rewrite decide_False by done. destruct (Hupd None) as (t' & Ht' & Hst & -> & Hwait & _); [done|].
    simpl. eexists _, _. split; [done|]. split_and!; [|done|by eapply tables_step_insert|done|].
    + apply (cache_ok_listed c _ t t' None); [done..|apply (cache_requests c Hc)|done|].
      intros id r Hr. by exists r.
    + intros id r Hr. by exists r.
Qed.

(** Listing every region leaves nothing pending. *)
Lemma pending_after_all {A} (regions : list (option (string * Z))) (p : gmap (string * Z) A) :
  (∀ k, is_Some (p !! k) → Some k ∈ regions) →
  foldl (λ p region, pending_after region p) p regions = ∅.
Proof using.
  revert p. induction regions as [|region regions IH]; intros p Hall; simpl.
  - apply map_empty. intros k. apply eq_None_not_Some. intros Hk. apply Hall in Hk.
    by apply elem_of_nil in Hk.
  - apply IH. intros k. destruct region as [k'|]; simpl.
    + intros [Hne Hk]%lookup_delete_is_Some. apply Hall in Hk.
      apply elem_of_cons in Hk as [[= ->]|?]; done.
    + intros Hk. apply Hall in Hk. by apply elem_of_cons in Hk as [?|?].
Qed.

(** The regions of results do not depend on what was listed before. *)
Lemma listed_region_step tables tables' x :
  tables_step tables tables' → listed_region tables' x = listed_region tables x.
Proof using.
  intros Hs. specialize (Hs (tor_table_name x)). unfold listed_region.
  destruct (tables !! _), (tables' !! _); try done. destruct Hs as (_ & -> & _). done.
Qed.

Lemma process_list_results_spec results c w :
  cache_ok c → world_ok w → Forall list_result_ok results →
  ∃ c' w', ofold process_list_result (c, w) results = Return (c', w') ∧ cache_ok c' ∧
    world_ok w' ∧ tables_step (mc_tables c) (mc_tables c') ∧
    mc_resolve_request_counter c' = mc_resolve_request_counter c ∧
    ∀ id r, mc_resolve_requests c !! id = Some r → ∃ r', mc_resolve_requests c' !! id = Some r' ∧
      rs_notification r' = rs_notification r ∧
      rs_pending_table_queries r'
      = foldl (λ p region, pending_after region p) (rs_pending_table_queries r)
          (listed_region (mc_tables c) <$> results).
Proof using HSZ.
  revert c w. induction results as [|x results IH]; intros c w Hc Hw Hres; cbn [ofold foldl].
  { exists c, w. split_and!; [done..|]. intros id r Hr. by exists r. }
  inversion_clear Hres.
  destruct (process_list_result_spec c w x) as (c1 & w1 & -> & Hc1 & Hw1 & Hs1 & Hn1 & He1); [done..|].
  destruct (IH c1 w1) as (c2 & w2 & Heq & Hc2 & Hw2 & Hs2 & Hn2 & He2); [done..|].
  exists c2, w2. split_and!; [done|done|done|by etrans|congruence|].
  intros id r Hr. destruct (He1 id r Hr) as (r1 & Hr1 & Hno1 & Hp1).
  destruct (He2 id r1 Hr1) as (r2 & Hr2 & Hno2 & Hp2). exists r2. split_and!; [done|congruence|].
  rewrite Hp2, Hp1. simpl. f_equal. apply list_fmap_ext. intros i y _.
  by apply listed_region_step.
Qed.

(** ** Resolving *)

Abbreviation split_key x := (tq_table_name x.1, x.2).

(** One split query is resolved, or waits for its region. *)
Lemma resolve_split_query_spec id (r : TabletResolve W) tables x t rg :
  (∀ name t, tables !! name = Some t → table_ok t) →
  tables !! tq_table_name x.1 = Some t → ct_regions t !! x.2 = Some rg →
  ∃ r' tables', resolve_split_query id (r, tables) x = Return (r', tables') ∧
    rs_notification r' = rs_notification r ∧
    (∀ name t, tables' !! name = Some t → table_ok t) ∧ tables_step tables tables' ∧
    (rs_pending_table_queries r' = rs_pending_table_queries r ∧ tables' = tables ∨
     (∃ q, rs_pending_table_queries r' = <[split_key x := q]> (rs_pending_table_queries r)) ∧
     ∀ name idx, waiting tables' name idx
       = waiting tables name idx ++ if decide ((name, idx) = split_key x) then [id] else []).
Proof using.
  intros Hok Ht Hrg. destruct x as [q idx]. simpl in *. rewrite Ht. simpl.
  pose proof (Hok _ _ Ht) as Htok.
  destruct (try_resolve_returns t idx q rg Htok Hrg) as (res & -> & Hres). simpl.
  destruct res as [l|].
  - eexists _, _. split; [done|]. simpl. split_and!; [done..|]. by left.
  - assert (rg_state rg ≠ RegionFresh) as Hst.
    { intros Hf. apply Hres in Hf as [? [=]]. }
    destruct (register_pending_query_ok t id idx rg) as (rg' & -> & Hwait & Hst'); [done..|].
    simpl. destruct (table_replace_region t idx rg rg' (ct_tablets t)) as [Htok' Hstep];
      [done..|apply Htok|done|].
    eexists _, _. split; [done|]. split_and!; [done| | |right; split].
    + intros n y [[<- <-]|[_ Hy]]%lookup_insert_Some; [done|by eapply Hok].
    + by eapply tables_step_insert.
    + by eexists.
    + intros n i. rewrite waiting_insert. case_decide as Hn.
      * subst n. rewrite table_waiting_insert. unfold waiting. rewrite Ht.
        case_decide as Hi; [subst i|].
        -- rewrite decide_True by done. rewrite Hwait. unfold table_waiting. by rewrite Hrg.
        -- rewrite decide_False by congruence. by rewrite app_nil_r.
      * rewrite decide_False by congruence. by rewrite app_nil_r.
Qed.

(** All of them: what is pending afterwards is what the request registered for. *)
Lemma resolve_splits_spec id splits (r : TabletResolve W) tables :
  (∀ name t, tables !! name = Some t → table_ok t) →
  (∀ x, x ∈ splits → ∃ t rg, tables !! tq_table_name x.1 = Some t ∧ ct_regions t !! x.2 = Some rg) →
  NoDup ((λ x, split_key x) <$> splits) →
  (∀ x, x ∈ splits → rs_pending_table_queries r !! split_key x = None) →
  ∃ r' tables', ofold (resolve_split_query id) (r, tables) splits = Return (r', tables') ∧
    rs_notification r' = rs_notification r ∧
    (∀ name t, tables' !! name = Some t → table_ok t) ∧ tables_step tables tables' ∧
    (∀ k, is_Some (rs_pending_table_queries r !! k) → is_Some (rs_pending_table_queries r' !! k)) ∧
    ∀ name idx, waiting tables' name idx = waiting tables name idx ++
      if decide (is_Some (rs_pending_table_queries r' !! (name, idx))
                 ∧ rs_pending_table_queries r !! (name, idx) = None) then [id] else [].
Proof using.
  revert r tables. induction splits as [|x splits IH]; intros r tables Hok Hx Hnd Hnone.
  { exists r, tables. split_and!; [done..|]. intros name idx. rewrite decide_False.
    - by rewrite app_nil_r.
    - intros [[? ?] ?]. congruence. }
  rewrite fmap_cons in Hnd. apply NoDup_cons in Hnd as [Hni Hnd].
  destruct (Hx x) as (t & rg & Ht & Hrg); [by left|]. cbn [ofold].
  destruct (resolve_split_query_spec id r tables x t rg)
    as (r1 & tables1 & -> & Hn1 & Hok1 & Hs1 & Hcase); [done..|].
  assert (∀ k, k ∉ (λ x, split_key x) <$> [x] →
    rs_pending_table_queries r1 !! k = rs_pending_table_queries r !! k) as Hother.
  { intros k Hk. destruct Hcase as [[-> _]|[[q ->] _]]; [done|].
    rewrite lookup_insert_ne; [done|]. intros <-. apply Hk. by left. }
  destruct (IH r1 tables1) as (r2 & tables2 & Heq & Hn2 & Hok2 & Hs2 & Hmono & Hwait).
  { done. }
  { intros y Hy. destruct (Hx y) as (t' & rg' & Ht' & Hrg'); [by right|].
    specialize (Hs1 (tq_table_name y.1)). rewrite Ht' in Hs1.
    destruct (tables1 !! _) as [t1|]; [|done]. exists t1. destruct Hs1 as (_ & _ & Hdom & _).
    assert (is_Some (ct_regions t1 !! y.2)) as [rg1 ?]; [|by exists rg1].
    apply elem_of_dom. rewrite Hdom. apply elem_of_dom. by exists rg'. }
  { done. }
  { intros y Hy. rewrite Hother; [apply Hnone; by right|].
    intros [Heq|Habs]%elem_of_cons; [|by apply elem_of_nil in Habs].
    apply Hni. rewrite <- Heq. apply list_elem_of_fmap. by exists y. }
  exists r2, tables2. split_and!; [done|congruence|done|by etrans| |].
  - intros k Hk. apply Hmono. destruct Hcase as [[-> _]|[[q ->] _]]; [done|].
    apply lookup_insert_is_Some'. by right.
  - intros name idx. rewrite Hwait. destruct Hcase as [[Hp ->]|[[q Hp] Hw1]].
    { by rewrite Hp. }
    rewrite Hw1, <- (assoc_L (++)). f_equal. case_decide as Hk.
    + rewrite Hk in *. rewrite (decide_False (P:=_ ∧ rs_pending_table_queries r1 !! _ = None)).
      2: { rewrite Hp, lookup_insert_eq. naive_solver. }
      rewrite decide_True; [done|]. split; [|apply Hnone; by left].
      apply Hmono. rewrite Hp, lookup_insert_eq. by eexists.
    + simpl. rewrite Hp, lookup_insert_ne by done. done.
Qed.

(** Queries of different tables, on hashes in known regions. *)
Definition query_ok (tables : gmap string CachedTable) (q : TableQuery) : Prop :=
  ∃ t, tables !! tq_table_name q = Some t ∧ ∀ h, h ∈ tq_key_hashes q →
    in_u32 h ∧ is_Some (ct_regions t !! map_table_region (ct_region_size t) h).

(** The queries of a request that the cache can resolve: one per table, and on regions that the
    table has.  Two queries on one region panic, see [duplicate_region_panics]. *)
Definition queries_ok (tables : gmap string CachedTable) (queries : list TableQuery) : Prop :=
  NoDup (tq_table_name <$> queries) ∧ Forall (query_ok tables) queries.

Lemma split_spec_elem region_size q hs x :
  x ∈ split_spec region_size q hs →
  tq_table_name x.1 = tq_table_name q ∧ ∃ h, h ∈ hs ∧ x.2 = map_table_region region_size h.
Proof using.
  unfold split_spec. intros (idx & -> & Hidx)%list_elem_of_fmap. split; [done|]. simpl.
  rewrite elem_of_set_iter in Hidx. unfold regions_of in Hidx.
  rewrite elem_of_list_to_set, list_elem_of_fmap in Hidx. destruct Hidx as (h & -> & Hh). eauto.
Qed.

Lemma split_spec_keys region_size q hs :
  NoDup ((λ x, split_key x) <$> split_spec region_size q hs).
Proof using.
  unfold split_spec. rewrite <- list_fmap_compose. apply NoDup_fmap_2_strong; [|apply NoDup_set_iter].
  by intros i j _ _ [= ->].
Qed.

Lemma split_queries_spec tables queries acc :
  (∀ name t, tables !! name = Some t → table_ok t) → queries_ok tables queries →
  ∃ splits,
    ofold (λ split_queries query,
             table ← unwrap (tables !! tq_table_name query);
             Return (split_and_map_query table query split_queries)) acc queries
    = Return (acc ++ splits) ∧
    NoDup ((λ x, split_key x) <$> splits) ∧
    ∀ x, x ∈ splits → tq_table_name x.1 ∈ tq_table_name <$> queries ∧
      ∃ t rg, tables !! tq_table_name x.1 = Some t ∧ ct_regions t !! x.2 = Some rg.
Proof using.
  intros Hok [Hnd Hq]. revert acc. induction Hq as [|q queries (t & Ht & Hh) Hq IH]; intros acc.
  { exists []. rewrite app_nil_r. split_and!; [done|constructor|]. by intros x ?%elem_of_nil. }
  rewrite fmap_cons in Hnd. apply NoDup_cons in Hnd as [Hni Hnd]. cbn [ofold]. rewrite Ht. simpl.
  rewrite split_and_map_query_groups; [|by apply (Hok _ _ Ht)|by intros h [? _]%Hh].
  set (groups := split_spec _ q _).
  destruct (IH Hnd (acc ++ groups)) as (splits & -> & Hnd' & Hin).
  assert (∀ x, x ∈ groups → tq_table_name x.1 = tq_table_name q ∧
    ∃ rg, ct_regions t !! x.2 = Some rg) as Hg.
  { intros x (Hn & h & Hx & ->)%split_spec_elem. split; [done|].
    apply elem_of_set_iter, Hh in Hx as [_ [rg ?]]. by exists rg. }
  exists (groups ++ splits). split_and!; [by rewrite (assoc_L (++))| |].
  - rewrite fmap_app. apply NoDup_app. split_and!; [apply split_spec_keys| |done].
    intros k (x & -> & Hx)%list_elem_of_fmap (y & Heq & Hy)%list_elem_of_fmap.
    apply Hin in Hy as [Hy _]. apply Hg in Hx as [Hx _]. apply Hni. rewrite <- Hx. congruence.
  - intros x [Hx|Hx]%elem_of_app.
    + destruct (Hg x Hx) as [Hn [rg Hrg]]. rewrite Hn. split; [by left|]. eauto.
    + destruct (Hin x Hx) as [? ?]. split; [by right|done].
Qed.

(** A notification that no request of the cache has. *)
Definition notification_ok (c : DefaultTabletMetadataCache W)
    (notification : TableResolveNotification W) : Prop :=
  match notification with
  | NotifySource a => cell_unset (mc_cells c) a ∧
      ∀ id r, mc_resolve_requests c !! id = Some r → rs_notification r ≠ NotifySource a
  | NotifyHandler h => handler_ok h
  end.

Lemma resolve_with_notification_spec c w queries notification :
  cache_ok c → world_ok w → queries_ok (mc_tables c) queries → notification_ok c notification →
  0 ≤ mc_resolve_request_counter c < two64 - 1 →
  ∃ c' w', resolve_tablets_with_notification c w queries notification = Return (c', w') ∧
    cache_ok c' ∧ world_ok w' ∧ tables_step (mc_tables c) (mc_tables c') ∧
    mc_resolve_request_counter c' = mc_resolve_request_counter c + 1 ∧
    mc_resolve_requests c !! mc_resolve_request_counter c' = None ∧
    ∃ r, mc_resolve_requests c' = <[mc_resolve_request_counter c' := r]> (mc_resolve_requests c) ∧
      rs_notification r = notification.
Proof using HSZ.
  intros Hc Hw Hq Hn Hcount. unfold resolve_tablets_with_notification.
  rewrite u64_add_small by lia. set (id := mc_resolve_request_counter c + 1).
  assert (mc_resolve_requests c !! id = None) as Hfresh.
  { apply eq_None_not_Some. intros Hid%(cache_ids c Hc). lia. }
  unfold tablet_resolve_create.
  destruct (split_queries_spec (mc_tables c) queries []) as (splits & -> & Hnd & Hin);
    [apply (cache_tables c Hc)|done|]. cbn [mbind outcome_bind app].
  match goal with |- context [ofold (resolve_split_query id) (?x, _) _] => set (r0 := x) end.
  destruct (resolve_splits_spec id splits r0 (mc_tables c))
    as (r & tables & -> & Hnr & Htok & Hstep & _ & Hwait);
    [apply (cache_tables c Hc)|by intros x [_ ?]%Hin|done|by intros; apply lookup_empty|].
  cbn [mbind outcome_bind]. assert (rs_notification r = notification) as Hnot by done.
  assert (unanswered (mc_cells c) r) as Hun.
  { unfold unanswered. rewrite Hnot. destruct notification; [apply Hn|done]. }
  destruct (maybe_resolve_results_spec r (mc_cells c) w Hun Hw)
    as (r' & cells & w' & -> & Hw' & Hn' & Hp' & Hr' & Hfr). cbn [mbind outcome_bind].
  rewrite Hnot in Hn'. eexists _, _. split; [done|]. cbn [mc_tables mc_resolve_requests].
  split_and!; [|done..|by exists r'].
  split; cbn -[waiting].
  - done.
  - apply (requests_ok_insert _ (mc_cells c)); [apply (cache_requests c Hc)| |done|].
    + unfold cells_frame in *. by rewrite Hn', <- Hnot.
    + intros id' x a Hne Hx Ha Ha'. rewrite Hn' in Ha'.
      rewrite Ha' in Hn. by eapply (proj2 Hn).
  - intros name idx i. rewrite Hwait, elem_of_app, (cache_waiting c Hc). split.
    + intros [(x & Hx & Hp)|Hi].
      * exists x. split; [|done]. rewrite lookup_insert_ne; [done|]. congruence.
      * case_decide as Hk; [|by apply elem_of_nil in Hi]. apply list_elem_of_singleton in Hi as ->.
        exists r'. rewrite lookup_insert_eq, Hp'. split; [done|apply Hk].
    + intros (x & [[<- <-]|[Hne Hx]]%lookup_insert_Some & Hp); [right|left; by exists x].
      rewrite Hp' in Hp. rewrite decide_True; [by left|]. split; [done|]. apply lookup_empty.
  - intros name idx. rewrite Hwait. apply NoDup_app. split_and!.
    + apply (cache_waiting_once c Hc).
    + intros i Hi%(cache_waiting c Hc). case_decide; [|apply not_elem_of_nil].
      rewrite list_elem_of_singleton. intros ->. destruct Hi as (? & ? & _). congruence.
    + case_decide; [apply NoDup_singleton|constructor].
  - intros i. rewrite lookup_insert_is_Some'. intros [<-|Hi]; [done|].
    apply (cache_ids c Hc) in Hi. lia.
Qed.

(** The address of a request is in use. *)
Lemma request_ok_address cells (r : TabletResolve W) a :
  request_ok cells r → rs_notification r = NotifySource a → is_Some (cells_map cells !! a).
Proof using.
  unfold request_ok, check_result, cell_unset. intros H Ha. rewrite Ha in H. case_decide.
  - destruct (cells_map cells !! a); [by eexists|by destruct H].
  - by eexists.
Qed.

Lemma cache_ok_alloc c :
  cache_ok c →
  cache_ok (mc_with_cells (create_eventual_result (mc_cells c)).1 c) ∧
  notification_ok (mc_with_cells (create_eventual_result (mc_cells c)).1 c)
    (NotifySource (create_eventual_result (mc_cells c)).2).
Proof using.
  intros [Ht Hr Hw Ho Hi]. destruct Hr as [Hcells Heach Hdist].
  assert (∀ id r a, mc_resolve_requests c !! id = Some r → rs_notification r = NotifySource a →
    a < cells_next (mc_cells c)) as Hlt.
  { intros id r a Hr Ha. apply Hcells. eapply request_ok_address; eauto. }
  split; [split; [done| |done..]|split].
  - split; [by apply alloc_cell_ok| |done]. intros id r Hr. specialize (Heach id r Hr) as He.
    unfold request_ok, check_result, cell_unset in *.
    destruct (rs_notification r) as [a|h] eqn:En; [|done]. simpl.
    specialize (Hlt id r a Hr En). rewrite lookup_insert_ne by lia. done.
  - unfold cell_unset. simpl. by rewrite lookup_insert_eq.
  - simpl. intros id r Hr Ha. specialize (Hlt id r _ Hr Ha). lia.
Qed.

(** ** Listing stale regions *)

(** A loop over the entries of a map that replaces each of them. *)
Lemma foldl_insert_each {K V B} `{Countable K} (f : K → V → V) (g : B → K * V → B)
    (l : list (K * V)) (m : gmap K V) (b : B) :
  NoDup l.*1 →
  let st := foldl (λ st x, (<[x.1 := f x.1 x.2]> st.1, g st.2 x)) (m, b) l in
  (∀ k, st.1 !! k = match list_to_map (M:=gmap K V) l !! k with
                    | Some v => Some (f k v) | None => m !! k end) ∧
  st.2 = foldl g b l.
Proof using.
  revert m b. induction l as [|[k v] l IH]; intros m b Hnd; simpl.
  { split; [|done]. intros k. by rewrite lookup_empty. }
  apply NoDup_cons in Hnd as [Hk Hnd].
  destruct (IH (<[k := f k v]> m) (g b (k, v)) Hnd) as [IH1 IH2]. split; [|exact IH2].
  intros k'. rewrite IH1. destruct (decide (k = k')) as [<-|Hne].
  - rewrite (not_elem_of_list_to_map_1 l k) by done. by rewrite !lookup_insert_eq.
  - by rewrite !lookup_insert_ne.
Qed.

Lemma foldl_hash_iter_each {K V B} `{!EqDecision K, !Countable K, !HashOrder K}
    (f : K → V → V) (g : B → K * V → B) (m : gmap K V) (b : B) :
  let st := foldl (λ st x, (<[x.1 := f x.1 x.2]> st.1, g st.2 x)) (m, b) (hash_iter m) in
  (∀ k, st.1 !! k = f k <$> m !! k) ∧ st.2 = foldl g b (hash_iter m).
Proof using.
  destruct (foldl_insert_each f g (hash_iter m) m b) as [H1 H2].
  { rewrite hash_iter_perm. apply NoDup_fst_map_to_list. }
  split; [|exact H2]. intros k. rewrite H1.
  rewrite (list_to_map_proper _ (map_to_list m));
    [|rewrite hash_iter_perm; apply NoDup_fst_map_to_list|apply hash_iter_perm].
  rewrite list_to_map_to_list. by destruct (m !! k).
Qed.

(** A stale region that requests wait for and that was not listed yet. *)
Definition needs_listing (r : TableRegion) : bool :=
  match rg_state r with
  | RegionStale ws prepared => negb prepared && negb (bool_decide (ws = []))
  | RegionFresh => false
  end.

Definition region_listed (r : TableRegion) : TableRegion :=
  if needs_listing r
  then {| rg_state := RegionStale (region_waiting r) true; rg_tablet_ids := rg_tablet_ids r |}
  else r.

(** The list operation for a region of a table. *)
Definition region_list_op (t : CachedTable) (idx : Z) : TabletOp :=
  let '(from, to) := compute_table_region_bounds (ct_region_size t) idx in
  {| to_table_name := ct_table_name t; to_op := Some (ListTablet from to) |}.

Definition table_list_ops (t : CachedTable) : list TabletOp :=
  (λ x, region_list_op t x.1) <$> filter (λ x, needs_listing x.2 = true) (hash_iter (ct_regions t)).

Lemma maybe_prepare_list_op_spec r from to :
  maybe_prepare_list_op r from to
  = (region_listed r, if needs_listing r then Some (ListTablet from to) else None).
Proof using.
  unfold maybe_prepare_list_op, region_listed, needs_listing, region_waiting.
  destruct (rg_state r) as [ws p|]; [|done]. by destruct (negb p && _).
Qed.

Lemma region_listed_waiting r : region_waiting (region_listed r) = region_waiting r.
Proof using. unfold region_listed. by destruct (needs_listing r). Qed.

Lemma region_listed_fresh r :
  rg_state (region_listed r) = RegionFresh → rg_state r = RegionFresh ∧ region_listed r = r.
Proof using. unfold region_listed. by destruct (needs_listing r). Qed.

Lemma region_listed_done r : needs_listing (region_listed r) = false.
Proof using. unfold region_listed. by destruct (needs_listing r) eqn:E. Qed.

Lemma foldl_pointwise {A B} (f g : A → B → A) l a :
  (∀ a b, f a b = g a b) → foldl f a l = foldl g a l.
Proof using. intros Heq. revert a. induction l; intros; simpl; [done|]. by rewrite Heq. Qed.

Definition table_listed (t : CachedTable) : CachedTable :=
  ct_with t (region_listed <$> ct_regions t) (ct_tablets t).

Lemma prepare_list_op_spec t ops :
  prepare_list_op t ops = (table_listed t, ops ++ table_list_ops t).
Proof using.
  set (g := λ ops (x : Z * TableRegion),
    if needs_listing x.2 then ops ++ [region_list_op t x.1] else ops).
  unfold prepare_list_op. rewrite (foldl_pointwise (prepare_region t)
    (λ st x, (<[x.1 := region_listed x.2]> st.1, g st.2 x))).
  2: { intros st [idx r]. unfold prepare_region, g, region_list_op. simpl.
       rewrite maybe_prepare_list_op_spec. by destruct (needs_listing r). }
  destruct (foldl_hash_iter_each (λ _, region_listed) g (ct_regions t) ops) as [H1 H2].
  destruct (foldl _ _ _) as [regions ops'] eqn:E. simpl in *. unfold table_listed. f_equal.
  - f_equal. apply map_eq. intros idx. by rewrite H1, lookup_fmap.
  - rewrite H2. unfold table_list_ops. clear. revert ops.
    induction (hash_iter (ct_regions t)) as [|x l IH]; intros ops; simpl; [by rewrite app_nil_r|].
    rewrite IH. unfold g at 1. rewrite filter_cons. destruct (needs_listing x.2) eqn:E.
    + rewrite decide_True by done. by rewrite <- (assoc_L (++)).
    + by rewrite decide_False by done.
Qed.

Lemma table_listed_ok t :
  table_ok t → table_ok (table_listed t) ∧ table_step t (table_listed t) ∧
  ∀ idx, table_waiting (table_listed t) idx = table_waiting t idx.
Proof using.
  intros Ht. split_and!.
  - split; [apply Ht..|]. simpl. intros idx r. rewrite lookup_fmap.
    intros (r0 & Hr0 & ->)%fmap_Some. intros [Hf ->]%region_listed_fresh.
    by apply (table_ok_fresh t Ht idx).
  - split_and!; [done..| |done]. simpl. apply dom_fmap_L.
  - intros idx. unfold table_waiting. simpl. rewrite lookup_fmap.
    destruct (ct_regions t !! idx); [|done]. apply region_listed_waiting.
Qed.

Lemma prepare_list_ops_spec tables :
  prepare_list_ops tables
  = (table_listed <$> tables, (hash_iter tables).*2 ≫= table_list_ops).
Proof using.
  set (g := λ ops (x : string * CachedTable), ops ++ table_list_ops x.2).
  unfold prepare_list_ops.
  rewrite (foldl_pointwise _ (λ st x, (<[x.1 := table_listed x.2]> st.1, g st.2 x))).
  2: { intros st x. by rewrite prepare_list_op_spec. }
  destruct (foldl_hash_iter_each (λ _, table_listed) g tables []) as [H1 H2].
  destruct (foldl _ _ _) as [tables' ops'] eqn:E. simpl in *. f_equal.
  - apply map_eq. intros idx. by rewrite H1, lookup_fmap.
  - rewrite H2. change ((hash_iter tables).*2 ≫= table_list_ops)
      with ([] ++ ((hash_iter tables).*2 ≫= table_list_ops)). clear. generalize (@nil TabletOp).
    induction (hash_iter tables) as [|x l IH]; intros ops; simpl; [by rewrite app_nil_r|].
    rewrite IH. unfold g. by rewrite <- (assoc_L (++)).
Qed.

(** Replacing every table by one with the same waiting requests. *)
Lemma cache_ok_tables c tables counter out :
  cache_ok c → (∀ name t, tables !! name = Some t → table_ok t) →
  (∀ name idx, waiting tables name idx = waiting (mc_tables c) name idx) →
  cache_ok {| mc_correlation_counter := counter;
              mc_resolve_request_counter := mc_resolve_request_counter c;
              mc_config := mc_config c; mc_tables := tables;
              mc_resolve_requests := mc_resolve_requests c; mc_out_messages := out;
              mc_cells := mc_cells c |}.
Proof using.
  intros [Ht Hr Hw Ho Hi] Hok Hwait. split; simpl; [done|done| |by intros; rewrite Hwait|done].
  intros name idx id. by rewrite Hwait.
Qed.

Lemma make_progress_ok c :
  cache_ok c → cache_ok (metadata_cache_make_progress c) ∧
  tables_step (mc_tables c) (mc_tables (metadata_cache_make_progress c)).
Proof using.
  intros Hc. pose proof (cache_tables c Hc) as Htab. unfold metadata_cache_make_progress.
  rewrite prepare_list_ops_spec.
  assert (∀ name t, (table_listed <$> mc_tables c) !! name = Some t → table_ok t) as Hok.
  { intros name t. rewrite lookup_fmap. intros (t0 & Ht0 & ->)%fmap_Some.
    by apply table_listed_ok, (Htab name). }
  assert (∀ name idx, waiting (table_listed <$> mc_tables c) name idx
    = waiting (mc_tables c) name idx) as Hwait.
  { intros name idx. unfold waiting. rewrite lookup_fmap.
    destruct (mc_tables c !! name) as [t|] eqn:E; [|done]. by apply table_listed_ok, (Htab name). }
  assert (tables_step (mc_tables c) (table_listed <$> mc_tables c)).
  { intros name. rewrite lookup_fmap. destruct (mc_tables c !! name) as [t|] eqn:E; [|done].
    by apply table_listed_ok, (Htab name). }
  case_decide; (split; [by apply cache_ok_tables|done]).
Qed.

Lemma update_tablet_ok c name x conflict :
  cache_ok c → cache_ok (metadata_cache_update_tablet c name x conflict) ∧
  tables_step (mc_tables c) (mc_tables (metadata_cache_update_tablet c name x conflict)).
Proof using.
  intros Hc. unfold metadata_cache_update_tablet.
  destruct (mc_tables c !! name) as [t|] eqn:E; [|done].
  destruct (cached_table_update_tablet_ok t x conflict) as [Ht Hs];
    [by apply (cache_tables c Hc name)|].
  split; [|by eapply tables_step_insert]. apply cache_ok_tables; [done| |].
  - intros n y [[<- <-]|[_ Hy]]%lookup_insert_Some; [done|by eapply (cache_tables c Hc)].
  - intros n idx. rewrite waiting_insert. case_decide as Hn; [|done]. subst n.
    unfold waiting. rewrite E. apply update_tablet_waiting.
Qed.

Lemma resolve_tablets_spec c w queries :
  cache_ok c → world_ok w → queries_ok (mc_tables c) queries →
  0 ≤ mc_resolve_request_counter c < two64 - 1 →
  ∃ c' w' handle, metadata_cache_resolve_tablets c w queries = Return (c', w', handle) ∧
    cache_ok c' ∧ world_ok w' ∧ tables_step (mc_tables c) (mc_tables c') ∧
    mc_resolve_request_counter c' = mc_resolve_request_counter c + 1 ∧
    ∃ r, mc_resolve_requests c' !! mc_resolve_request_counter c' = Some r ∧
      rs_notification r = NotifySource handle.
Proof using HSZ.
  intros Hc Hw Hq Hn. unfold metadata_cache_resolve_tablets.
  destruct (cache_ok_alloc c Hc) as [Hc' Hnot].
  destruct (create_eventual_result (mc_cells c)) as [cells handle]. simpl in *.
  destruct (resolve_with_notification_spec (mc_with_cells cells c) w queries (NotifySource handle))
    as (c' & w' & -> & Hc2 & Hw' & Hs & Hcount & _ & r & Hr & Hnr); [done..|]. simpl.
  exists c', w', handle. split_and!; [done..|]. exists r. by rewrite Hr, lookup_insert_eq.
Qed.

Lemma cache_ok_create n : cache_ok (metadata_cache_create n).
Proof using.
  split; simpl.
  - intros name t Ht. by rewrite lookup_empty in Ht.
  - split; [apply no_cells_ok|..]; intros; by rewrite lookup_empty in *.
  - intros name idx id. unfold waiting. rewrite lookup_empty. split; [by intros ?%elem_of_nil|].
    intros (r & Hr & _). by rewrite lookup_empty in Hr.
  - intros name idx. unfold waiting. rewrite lookup_empty. constructor.
  - intros id [r Hr]. by rewrite lookup_empty in Hr.
Qed.

Lemma metadata_cache_init_ok c config :
  cache_ok c → mc_tables c = ∅ →
  Forall (λ tc, region_size_ok (tmc_table_region_size tc)) (tmc_table_configs config) →
  ∃ c', metadata_cache_init c config = Return c' ∧ cache_ok c' ∧
    mc_resolve_request_counter c' = mc_resolve_request_counter c.
Proof using.
  intros Hc Hemp Hsizes. unfold metadata_cache_init.
  assert (∀ tables : gmap string CachedTable,
    (∀ name t, tables !! name = Some t → table_ok t ∧ ∀ idx, table_waiting t idx = []) →
    ∃ tables', ofold (λ tables table_config,
             table ← cached_table_create (tmc_table_name table_config)
                       (tmc_table_region_size table_config);
             Return (<[tmc_table_name table_config := table]> tables))
      tables (tmc_table_configs config) = Return tables' ∧
    ∀ name t, tables' !! name = Some t → table_ok t ∧ ∀ idx, table_waiting t idx = []) as Hloop.
  { induction Hsizes as [|tc tcs Hsz Hsizes IH]; intros tables Hok; [by exists tables|].
    cbn [ofold]. destruct (cached_table_create_ok (tmc_table_name tc) _ Hsz) as (t & -> & Ht).
    cbn [mbind outcome_bind]. apply IH.
    intros name t' [[<- <-]|[_ ?]]%lookup_insert_Some; [done|by eapply Hok]. }
  destruct (Hloop (mc_tables c)) as (tables & -> & Hok); [by rewrite Hemp|]. simpl.
  eexists. split; [done|]. split; [|done].
  apply (cache_ok_tables {| mc_correlation_counter := mc_correlation_counter c;
     mc_resolve_request_counter := mc_resolve_request_counter c;
     mc_config := config; mc_tables := mc_tables c;
     mc_resolve_requests := mc_resolve_requests c;
     mc_out_messages := mc_out_messages c; mc_cells := mc_cells c |}); [by destruct Hc|by apply Hok|].
  intros name idx. simpl. rewrite Hemp. unfold waiting. rewrite lookup_empty.
  destruct (tables !! name) eqn:E; [|done]. by eapply Hok.
Qed.

(** ** Runs *)

(** The calls on a cache. *)
Inductive MetadataOp :=
| OpMakeProgress
| OpResolveTablets (queries : list TableQuery)
| OpResolveTabletsWithHandler (queries : list TableQuery) (handler : ResolveHandler W)
| OpUpdateTablet (table_name : string) (tablet_metadata : TabletMetadata) (conflict : bool)
| OpProcessInMessage (in_message : TabletMetadataCacheInMessage)
| OpTakeOutMessages.

Definition run_metadata_op (st : DefaultTabletMetadataCache W * W) (op : MetadataOp)
    : outcome (DefaultTabletMetadataCache W * W) :=
  let '(c, w) := st in
  match op with
  | OpMakeProgress => Return (metadata_cache_make_progress c, w)
  | OpResolveTablets queries =>
      '(c, w, _) ← metadata_cache_resolve_tablets c w queries; Return (c, w)
  | OpResolveTabletsWithHandler queries handler =>
      metadata_cache_resolve_tablets_with_handler c w queries handler
  | OpUpdateTablet table_name tablet_metadata conflict =>
      Return (metadata_cache_update_tablet c table_name tablet_metadata conflict, w)
  | OpProcessInMessage in_message => metadata_cache_process_in_message c w in_message
  | OpTakeOutMessages => Return ((metadata_cache_take_out_messages c).1, w)
  end.

(** Calls as the manager makes them: queries on known regions, handlers that can be
    called, responses to list operations that found tablets. *)
Definition metadata_op_ok (tables : gmap string CachedTable) (op : MetadataOp) : Prop :=
  match op with
  | OpResolveTablets queries => queries_ok tables queries
  | OpResolveTabletsWithHandler queries handler => queries_ok tables queries ∧ handler_ok handler
  | OpProcessInMessage (ListResponse _ results) => Forall list_result_ok results
  | _ => True
  end.

Lemma query_ok_step tables tables' q :
  tables_step tables tables' → query_ok tables q → query_ok tables' q.
Proof using.
  intros Hs (t & Ht & Hh). specialize (Hs (tq_table_name q)). rewrite Ht in Hs.
  destruct (tables' !! tq_table_name q) as [t'|] eqn:E; [|done].
  destruct Hs as (_ & Hsz & Hdom & _). exists t'. split; [done|]. intros h Hin.
  destruct (Hh h Hin) as [? Hr]. split; [done|]. rewrite Hsz.
  apply elem_of_dom. rewrite Hdom. by apply elem_of_dom.
Qed.

Lemma metadata_op_ok_step tables tables' op :
  tables_step tables tables' → metadata_op_ok tables op → metadata_op_ok tables' op.
Proof using.
  intros Hs. assert (∀ queries, queries_ok tables queries → queries_ok tables' queries) as Hq.
  { intros queries [? Hall]. split; [done|]. eapply Forall_impl; [exact Hall|].
    intros q. by apply query_ok_step. }
  destruct op; simpl; [done|auto|naive_solver|done..].
Qed.

Lemma run_metadata_op_spec c w op :
  cache_ok c → world_ok w → metadata_op_ok (mc_tables c) op →
  0 ≤ mc_resolve_request_counter c < two64 - 1 →
  ∃ c' w', run_metadata_op (c, w) op = Return (c', w') ∧ cache_ok c' ∧ world_ok w' ∧
    tables_step (mc_tables c) (mc_tables c') ∧
    mc_resolve_request_counter c ≤ mc_resolve_request_counter c'
      ≤ mc_resolve_request_counter c + 1.
Proof using HSZ.
  intros Hc Hw Hop Hn. destruct op as [|queries|queries h|name x b|[i results]|]; simpl in *.
  - destruct (make_progress_ok c Hc) as [? ?]. eexists _, _. split_and!; [done..| |].
    all: unfold metadata_cache_make_progress; destruct (prepare_list_ops _); case_decide; simpl; lia.
  - destruct (resolve_tablets_spec c w queries) as (c' & w' & h & -> & ? & ? & ? & ? & _); [done..|].
    simpl. eexists _, _. split_and!; [done..|lia|lia].
  - destruct Hop as [Hq Hh]. unfold metadata_cache_resolve_tablets_with_handler.
    destruct (resolve_with_notification_spec c w queries (NotifyHandler h))
      as (c' & w' & -> & ? & ? & ? & ? & _); [done..|].
    eexists _, _. split_and!; [done..|lia|lia].
  - destruct (update_tablet_ok c name x b Hc). eexists _, _. split_and!; [done..| |].
    all: unfold metadata_cache_update_tablet; destruct (mc_tables c !! name); simpl; lia.
  - destruct (process_list_results_spec results c w) as (c' & w' & -> & ? & ? & ? & ? & _); [done..|].
    eexists _, _. split_and!; [done..|lia|lia].
  - eexists _, _. split_and!; [done| |done|done|simpl; lia..].
    apply (cache_ok_tables c); [done|by apply (cache_tables c Hc)|done].
Qed.

Lemma run_metadata_ops_spec ops c w :
  cache_ok c → world_ok w → Forall (metadata_op_ok (mc_tables c)) ops →
  0 ≤ mc_resolve_request_counter c → mc_resolve_request_counter c + zlen ops < two64 →
  ∃ c' w', ofold run_metadata_op (c, w) ops = Return (c', w') ∧ cache_ok c' ∧ world_ok w' ∧
    tables_step (mc_tables c) (mc_tables c').
Proof using HSZ.
  revert c w. induction ops as [|op ops IH]; intros c w Hc Hw Hops H0 Hlen; cbn [ofold].
  { eexists _, _. split_and!; done. }
  inversion_clear Hops as [|? ? Hop Hrest]. rewrite length_cons, Nat2Z.inj_succ in Hlen.
  destruct (run_metadata_op_spec c w op) as (c1 & w1 & -> & Hc1 & Hw1 & Hs1 & Hn1); [done..|lia|].
  destruct (IH c1 w1) as (c2 & w2 & Heq & ? & ? & Hs2); [done..| |lia|lia|].
  { eapply Forall_impl; [exact Hrest|]. intros o. by apply metadata_op_ok_step. }
  exists c2, w2. split_and!; [done..|]. by etrans.
Qed.
End bookkeeping.

(** ** The listing of a region *)

Lemma region_bounds_range region_size (Hsize : region_size_ok region_size) idx :
  0 ≤ idx ≤ (two32 - 1) `div` region_size →
  let region_start := idx * region_size in
  let region_end := Z.min (idx * region_size + region_size - 1) (two32 - 1) in
  in_u32 region_start ∧ in_u32 region_end ∧ region_start ≤ region_end.
Proof.
  intros Hi. unfold region_size_ok, in_u32 in *.
  pose proof (Z.mul_div_le (two32 - 1) region_size ltac:(lia)).
  assert (0 ≤ idx * region_size ≤ two32 - 1) by nia. simpl. lia.
Qed.

Lemma responsible_entry m h e : responsible m h = Some e → m !! e.1 = Some e.2.
Proof.
  intros H. apply tablets_sorted_spec. unfold responsible in H.
  destruct (head (filter _ _)) as [e'|] eqn:E.
  - injection H as <-. apply head_Some_elem_of, list_elem_of_filter in E. apply E.
  - by apply head_Some_elem_of.
Qed.

(** Among the tablets listed for a range, the first one at or after a hash of the range
    is the responsible one. *)
Lemma listing_successor table es from to h id :
  (∀ e, e ∈ es ↔ ∃ h, in_hash_range from to h ∧ responsible (tb_tablets table) h = Some e) →
  tablets_keyed (tb_tablets table) → in_hash_range from to h →
  successor (set_iter (list_to_set (tm_tablet_id <$> es.*2))) h id →
  ∃ y, responsible (tb_tablets table) h = Some (id, y) ∧ y ∈ es.*2.
Proof.
  intros Hin Hkeyed Hh (Hid & Hle & Hmin).
  assert (∀ e, e ∈ es → tb_tablets table !! e.1 = Some e.2 ∧ tm_tablet_id e.2 = e.1) as Hring.
  { intros e (h' & _ & He)%Hin. apply responsible_entry in He. split; [done|].
    by apply Hkeyed in He. }
  assert (∀ i, i ∈ set_iter (list_to_set (tm_tablet_id <$> es.*2)) ↔ ∃ e, e ∈ es ∧ i = e.1) as Hids.
  { intros i. rewrite elem_of_set_iter, elem_of_list_to_set, list_elem_of_fmap. split.
    - intros (y & -> & (e & -> & He)%list_elem_of_fmap). exists e. split; [done|]. by apply Hring.
    - intros (e & He & ->). exists e.2. split; [by symmetry; apply Hring|].
      by apply list_elem_of_fmap_2. }
  apply Hids in Hid as (e & He & ->). destruct (tablets_sorted_spec (tb_tablets table)) as [Hs Hel].
  assert (e ∈ filter (λ e, h ≤ e.1) (tablets_sorted (tb_tablets table))) as Hef.
  { apply list_elem_of_filter. split; [done|]. apply Hel, Hring, He. }
  destruct (head (filter (λ e, h ≤ e.1) (tablets_sorted (tb_tablets table)))) as [m|] eqn:Em.
  2: { destruct (filter _ _); [by apply elem_of_nil in Hef|done]. }
  assert (responsible (tb_tablets table) h = Some m) as Hm.
  { unfold responsible. by rewrite Em. }
  apply ring_head in Em as [Hmf Hmmin]; [|by apply ring_sorted_filter].
  assert (m ∈ es) as Hmes by (apply Hin; by exists h).
  apply list_elem_of_filter in Hmf as [Hhm Hmr]. pose proof (Hmmin e Hef).
  assert (e.1 ≤ m.1). { apply Hmin; [|done]. apply Hids. by exists m. }
  exists m.2. split; [|by apply list_elem_of_fmap_2]. rewrite Hm. f_equal.
  rewrite (surjective_pairing m) at 1. f_equal. lia.
Qed.

(** * Claims *)

(** C38: Regions partition the hashes.  For every region size, the bounds of a region are
    computed without overflow, stay in 32 bits, and contain a hash exactly when the
    hash is mapped to that region; the last region ends at the largest hash. *)
Theorem region_bounds_partition region_size idx h :
  region_size_ok region_size → in_u32 h → 0 ≤ idx ≤ map_table_region region_size (two32 - 1) →
  let '(region_start, region_end) := compute_table_region_bounds region_size idx in
  region_start = idx * region_size ∧ in_u32 region_start ∧ in_u32 region_end ∧
  region_start ≤ region_end ∧
  (region_start ≤ h ≤ region_end ↔ map_table_region region_size h = idx) ∧
  (idx = map_table_region region_size (two32 - 1) → region_end = two32 - 1).
Proof.
  intros Hs Hh Hi. pose proof (region_bounds_iff region_size Hs idx h Hi Hh) as Hiff.
  pose proof (region_bounds_iff region_size Hs idx (two32 - 1) Hi ltac:(done)) as Hlast.
  rewrite (compute_table_region_bounds_exact region_size Hs idx Hi).
  unfold map_table_region, region_size_ok, in_u32 in *.
  pose proof (Z.mul_div_le (two32 - 1) region_size ltac:(lia)).
  assert (0 ≤ idx * region_size ≤ two32 - 1) by nia.
  split_and!; [done|lia..|exact Hiff|]. intros ->. destruct Hlast as [_ Hlast].
  specialize (Hlast eq_refl). lia.
Qed.

(** Queries are split by region.  Splitting a query of 32-bit hashes appends one query
    per region that occurs, in increasing order of regions, each with exactly the
    hashes of the original query in that region; in particular the loop over regions
    ends. *)
Theorem split_by_region t query result :
  region_size_ok (ct_region_size t) → (∀ h, h ∈ tq_key_hashes query → in_u32 h) →
  split_and_map_query t query result
  = result ++ split_spec (ct_region_size t) query (set_iter (tq_key_hashes query)).
Proof. apply split_and_map_query_groups. Qed.


Section claims.
Context {W : Type} `{HZ : !HashOrder Z, HS : !HashOrder string, HSZ : !HashOrder (string * Z)}.
Variable world_ok : W → Prop.

(** C20: The cache never panics and loses no request.  Starting from a configured cache, make
    any calls in which the queries of one request are on different tables and on known regions
    ([queries_ok]), the handlers return and keep what they rely on, and the listings in the
    responses have tablets ([metadata_op_ok]).  All of them return, and after them a request
    waits for a region exactly when it has a query pending there, and its
    handle has a result exactly when nothing is pending; known tablets only move to
    later versions. *)
Theorem metadata_cache_safe n config c0 ops (w : W) :
  metadata_cache_init (metadata_cache_create n) config = Return c0 →
  Forall (λ tc, region_size_ok (tmc_table_region_size tc)) (tmc_table_configs config) →
  world_ok w → Forall (metadata_op_ok world_ok (mc_tables c0)) ops → zlen ops < two64 - 1 →
  ∃ c w', ofold run_metadata_op (c0, w) ops = Return (c, w') ∧ world_ok w' ∧
    (∀ name idx id, id ∈ waiting (mc_tables c) name idx ↔
      ∃ r, mc_resolve_requests c !! id = Some r ∧
        is_Some (rs_pending_table_queries r !! (name, idx))) ∧
    (∀ id r handle, mc_resolve_requests c !! id = Some r →
      rs_notification r = NotifySource handle →
      (is_Some (check_result (mc_cells c) handle) ↔ rs_pending_table_queries r = ∅)) ∧
    (∀ name t, mc_tables c0 !! name = Some t →
      ∃ t', mc_tables c !! name = Some t' ∧ versions_le (ct_tablets t) (ct_tablets t')).
Proof using HZ HS HSZ.
  intros Hinit Hsizes Hw Hops Hlen.
  destruct (metadata_cache_init_ok world_ok (metadata_cache_create n) config)
    as (c0' & Hinit' & Hc0 & Hcount); [|done..|].
  { apply cache_ok_create. }
  rewrite Hinit in Hinit'. injection Hinit' as <-. simpl in Hcount.
  destruct (run_metadata_ops_spec world_ok ops c0 w) as (c & w' & Hrun & Hc & Hw' & Hstep);
    [done..|lia|lia|].
  exists c, w'. split_and!; [done..|apply (cache_waiting _ c Hc)| |].
  - intros id r handle Hr Hh. pose proof (requests_each _ _ _ (cache_requests _ c Hc) id r Hr) as He.
    unfold request_ok in He. rewrite Hh in He. case_decide as Hp.
    { destruct He as [answer ->]. split; [done|by eexists]. }
    split; [|done]. intros [x Hx]. unfold check_result in Hx. by rewrite He in Hx.
  - intros name t Ht. specialize (Hstep name). rewrite Ht in Hstep.
    destruct (mc_tables c !! name) as [t'|]; [|done]. exists t'. split; [done|]. apply Hstep.
Qed.

(** Listing answers requests.  When a response lists every region that the pending
    queries of a request are in, processing it returns and the request's handle has a
    result. *)
Theorem listed_request_answered c (w : W) correlation_id results id r handle :
  cache_ok world_ok c → world_ok w → Forall list_result_ok results →
  mc_resolve_requests c !! id = Some r → rs_notification r = NotifySource handle →
  (∀ k, is_Some (rs_pending_table_queries r !! k) →
     Some k ∈ listed_region (mc_tables c) <$> results) →
  ∃ c' w', metadata_cache_process_in_message c w (ListResponse correlation_id results)
           = Return (c', w') ∧
    ∃ answer, check_result (mc_cells c') handle = Some (Ok answer).
Proof using HSZ.
  intros Hc Hw Hres Hr Hh Hall.
  destruct (process_list_results_spec world_ok results c w)
    as (c' & w' & Hrun & Hc' & _ & _ & _ & Heff); [done..|].
  exists c', w'. split; [done|]. destruct (Heff id r Hr) as (r' & Hr' & Hn & Hp).
  pose proof (requests_each _ _ _ (cache_requests _ c' Hc') id r' Hr') as He.
  unfold request_ok in He. rewrite Hn, Hh, decide_True in He; [done|].
  rewrite Hp. by apply pending_after_all.
Qed.

(** Stale regions are listed once.  Making progress sends a list request exactly when
    some stale region has waiting requests and was not listed yet; the request has
    one list operation for each such region, with its bounds, and none of them is
    listed again before it was answered or became stale anew. *)
Theorem list_requests_exact (c : DefaultTabletMetadataCache W) :
  let c' := metadata_cache_make_progress c in
  ∃ ops,
    (∀ op, op ∈ ops ↔ ∃ name t idx r, mc_tables c !! name = Some t ∧
       ct_regions t !! idx = Some r ∧ needs_listing r = true ∧ op = region_list_op t idx) ∧
    mc_out_messages c' = mc_out_messages c ++
      (if decide (ops = []) then [] else [ListRequest (mc_correlation_counter c +₆₄ 1) ops]) ∧
    (∀ name t idx r, mc_tables c' !! name = Some t → ct_regions t !! idx = Some r →
       needs_listing r = false).
Proof using HZ HS HSZ.
  unfold metadata_cache_make_progress. rewrite prepare_list_ops_spec.
  exists ((hash_iter (mc_tables c)).*2 ≫= table_list_ops). split_and!.
  - intros op. rewrite list_elem_of_bind. split.
    + intros (t & ([idx r] & -> & [Hn Hr]%list_elem_of_filter)%list_elem_of_fmap
        & ([name t'] & -> & Hx)%list_elem_of_fmap). simpl in *.
      rewrite hash_iter_perm in Hr. rewrite hash_iter_perm in Hx.
      apply elem_of_map_to_list in Hr. apply elem_of_map_to_list in Hx.
      by exists name, t', idx, r.
    + intros (name & t & idx & r & Ht & Hr & Hn & ->). exists t. split; apply list_elem_of_fmap.
      * exists (idx, r). split; [done|]. apply list_elem_of_filter. split; [done|].
        rewrite hash_iter_perm. by apply elem_of_map_to_list.
      * exists (name, t). split; [done|]. rewrite hash_iter_perm. by apply elem_of_map_to_list.
  - case_decide; simpl; [by rewrite app_nil_r|done].
  - intros name t idx r Ht Hr. assert ((table_listed <$> mc_tables c) !! name = Some t) as Ht'.
    { by case_decide. }
    rewrite lookup_fmap in Ht'. apply fmap_Some in Ht' as (t0 & _ & ->). simpl in Hr.
    rewrite lookup_fmap in Hr. apply fmap_Some in Hr as (r0 & _ & ->). apply region_listed_done.
Qed.
End claims.

(** ** What modelling showed *)

(** The region of the largest hash is never created, whatever the region size: resolving
    a hash in it panics. *)
Lemma foldl_insert_regions_None l (m : gmap Z TableRegion) idx :
  idx ∉ l → m !! idx = None →
  foldl (λ regions region_idx, <[region_idx := region_create]> regions) m l !! idx = None.
Proof.
  revert m. induction l as [|x l IH]; intros m Hi Hm; simpl; [done|].
  apply not_elem_of_cons in Hi as [Hx Hi]. apply IH; [done|]. by rewrite lookup_insert_ne.
Qed.

Lemma last_region_panics name region_size t query :
  cached_table_create name region_size = Return t →
  try_resolve_pending_query t (map_table_region region_size (two32 - 1)) query = Panic.
Proof.
  unfold cached_table_create. case_decide; [done|]. intros [= <-].
  unfold try_resolve_pending_query. simpl. rewrite foldl_insert_regions_None; [done| |done].
  rewrite elem_of_seqZ. unfold map_table_region. lia.
Qed.

(** A listing without tablets makes the next query on the region panic. *)
Lemma empty_listing_panics t idx rg query :
  ct_regions t !! idx = Some rg → rg_state rg = RegionFresh → rg_tablet_ids rg = ∅ →
  try_resolve_pending_query t idx query = Panic.
Proof.
  intros Hr Hf He. unfold try_resolve_pending_query, maybe_fresh_tablet_ids. by rewrite Hr, Hf, He.
Qed.

(** ** Concrete instances *)

#[local] Instance sample_order_Z : HashOrder Z := default_hash_order Z.
#[local] Instance sample_order_string : HashOrder string := default_hash_order string.
#[local] Instance sample_order_pair : HashOrder (string * Z) := default_hash_order (string * Z).

Definition sample_region_size : Z := 1073741824.

Definition sample_tablet (id version : Z) : TabletMetadata :=
  {| tm_tablet_id := id; tm_tablet_version := version; tm_deleted := false;
     tm_blob_encryption_key := []; tm_blob_size := 0; tm_blob_hash := []; tm_blob_uri := "" |}.

(** A table whose first region has tablets 10 and 20. *)
Definition sample_cached_table : CachedTable :=
  {| ct_table_name := "A"; ct_region_size := sample_region_size;
     ct_regions := {[ 0 := {| rg_state := RegionFresh; rg_tablet_ids := {[ 10; 20 ]} |};
                      1 := region_create; 2 := region_create ]};
     ct_tablets := {[ 10 := sample_tablet 10 3; 20 := sample_tablet 20 5 ]} |}.

Definition sample_config : TabletMetadataCacheConfig :=
  {| tmc_table_configs := [ {| tmc_table_name := "A";
                               tmc_table_region_size := sample_region_size |} ] |}.

(** The first hash beyond a tablet is in no resolved query: hash 15 belongs to tablet 20
    but is lost. *)
Example switch_hash_dropped :
  try_resolve_pending_query sample_cached_table 0 (table_query_create 1 "A" [5; 15; 16])
  = Return (Some [ (table_query_create 1 "A" [5], sample_tablet 10 3);
                   (table_query_create 1 "A" [16], sample_tablet 20 5) ]) ∧
  successor [10; 20] 15 20.
Proof.
  split; [by vm_compute|]. split_and!; [by right; left|lia|].
  intros id [->|[->|?%elem_of_nil]%elem_of_cons]%elem_of_cons ?; [lia|done|done].
Qed.

(** Two queries of one request on the same stale region register twice: the answer to
    the region's listing panics. *)
Example duplicate_region_panics :
  (c0 ← metadata_cache_init (metadata_cache_create 0) sample_config;
   ofold run_metadata_op (c0, ())
     [ OpResolveTablets [table_query_create 1 "A" [1]; table_query_create 2 "A" [2]];
       OpProcessInMessage (ListResponse 1
         [ {| tor_table_name := "A"; tor_status := TabletOpSucceeded;
              tor_op_result := Some (ListTabletResult 0 (sample_region_size - 1)
                [sample_tablet 10 3]) |} ]) ])
  = Panic.
Proof. by vm_compute. Qed.

Lemma region_bounds_partition_witness :
  compute_table_region_bounds sample_region_size 3 = (3221225472, 4294967295) ∧
  (3221225472 ≤ 4000000000 ≤ 4294967295 ↔ map_table_region sample_region_size 4000000000 = 3).
Proof.
  split; [by vm_compute|].
  pose proof (region_bounds_partition sample_region_size 3 4000000000) as H.
  apply H; unfold region_size_ok, sample_region_size, in_u32, map_table_region; [lia..|].
  vm_compute. split; intros [=].
Defined.

Lemma split_by_region_witness :
  split_and_map_query sample_cached_table
    (table_query_create 1 "A" [1073741825; 7; 5]) []
  = [ (table_query_create 1 "A" [5; 7], 0); (table_query_create 1 "A" [1073741825], 1) ].
Proof.
  rewrite (split_by_region sample_cached_table (table_query_create 1 "A" [1073741825; 7; 5]) []).
  - by vm_compute.
  - unfold region_size_ok. simpl. unfold sample_region_size. lia.
  - intros h. rewrite key_hashes_create. unfold in_u32.
    intros [->|[->|[->|?%elem_of_nil]%elem_of_cons]%elem_of_cons]%elem_of_cons; [lia..|done].
Defined.

Lemma sample_cached_table_ok : table_ok sample_cached_table.
Proof.
  split.
  - unfold region_size_ok. simpl. unfold sample_region_size. lia.
  - intros id x. simpl. intros [[<- <-]|[_ Hx]]%lookup_insert_Some; [done|].
    by apply lookup_singleton_Some in Hx as [<- <-].
  - intros idx r. simpl. intros [[<- <-]|[_ Hr]]%lookup_insert_Some.
    + intros _. split; [done|]. intros id. simpl.
      rewrite elem_of_union, !elem_of_singleton. intros [->| ->]; by eexists.
    + apply lookup_insert_Some in Hr as [[_ <-]|[_ Hr]]; [done|].
      by apply lookup_singleton_Some in Hr as [_ <-].
Qed.


Definition sample_cache : DefaultTabletMetadataCache unit :=
  match metadata_cache_init (metadata_cache_create 0) sample_config with
  | Return c => c | Panic => metadata_cache_create 0 end.

Definition sample_query : TableQuery := table_query_create 1 "A" [5; 1073741825].

Definition sample_listing (from id : Z) : TabletOpResult :=
  {| tor_table_name := "A"; tor_status := TabletOpSucceeded;
     tor_op_result := Some (ListTabletResult from (from + sample_region_size - 1)
       [sample_tablet id 3]) |}.

Definition sample_results : list TabletOpResult :=
  [sample_listing 0 10; sample_listing sample_region_size 1073741830].

(** The cache after a query on two regions. *)
Definition sample_resolved : DefaultTabletMetadataCache unit :=
  match run_metadata_op (sample_cache, ()) (OpResolveTablets [sample_query]) with
  | Return (c, _) => c | Panic => sample_cache end.

Abbreviation always := (λ _ : unit, True).

Lemma sample_query_ok : queries_ok (mc_tables sample_cache) [sample_query].
Proof.
  split; [apply NoDup_singleton|]. constructor; [|constructor].
  unfold query_ok. destruct (mc_tables sample_cache !! tq_table_name sample_query) as [t|] eqn:E;
    [|by vm_compute in E].
  exists t. split; [done|]. vm_compute in E. injection E as <-.
  intros h. unfold sample_query. rewrite key_hashes_create. unfold in_u32.
  intros [->|[->|?%elem_of_nil]%elem_of_cons]%elem_of_cons; [..|done];
    (split; [lia|]; by vm_compute; eexists).
Qed.

Lemma sample_sizes_ok :
  Forall (λ tc, region_size_ok (tmc_table_region_size tc)) (tmc_table_configs sample_config).
Proof. repeat constructor. Qed.

Lemma sample_results_ok : Forall list_result_ok sample_results.
Proof. by repeat constructor. Qed.

Lemma metadata_cache_safe_witness :
  ∃ c w', ofold run_metadata_op (sample_cache, ())
    [OpResolveTablets [sample_query]; OpMakeProgress;
     OpProcessInMessage (ListResponse 1 sample_results)] = Return (c, w') ∧
    ∀ name idx id, id ∈ waiting (mc_tables c) name idx ↔
      ∃ r, mc_resolve_requests c !! id = Some r ∧
        is_Some (rs_pending_table_queries r !! (name, idx)).
Proof.
  destruct (metadata_cache_safe always 0 sample_config sample_cache
    [OpResolveTablets [sample_query]; OpMakeProgress;
     OpProcessInMessage (ListResponse 1 sample_results)] ()) as (c & w' & Hrun & _ & Hw & _).
  - by vm_compute.
  - apply sample_sizes_ok.
  - done.
  - constructor; [apply sample_query_ok|]. constructor; [done|].
    constructor; [apply sample_results_ok|constructor].
  - simpl. lia.
  - exists c, w'. split; [exact Hrun|exact Hw].
Defined.

Lemma sample_resolved_ok : cache_ok always sample_resolved.
Proof.
  destruct (metadata_cache_init_ok always (metadata_cache_create 0) sample_config)
    as (c0 & H0 & Hc0 & _); [apply cache_ok_create|done|apply sample_sizes_ok|].
  assert (c0 = sample_cache) as -> by (unfold sample_cache; by rewrite H0).
  destruct (run_metadata_op_spec always sample_cache () (OpResolveTablets [sample_query]))
    as (c & w & Hrun & Hc & _); [done|done|apply sample_query_ok| |].
  { vm_compute. by split. }
  assert (c = sample_resolved) as -> by (unfold sample_resolved; by rewrite Hrun). done.
Qed.

Lemma pending_check {A} (p : gmap (string * Z) A) (regions : list (option (string * Z))) :
  forallb (λ x, bool_decide (Some x.1 ∈ regions)) (map_to_list p) = true →
  ∀ k, is_Some (p !! k) → Some k ∈ regions.
Proof.
  intros H k [x Hx]. rewrite forallb_forall in H.
  specialize (H (k, x)). rewrite bool_decide_eq_true in H. apply H.
  by apply list_elem_of_In, elem_of_map_to_list.
Qed.

Lemma listed_request_answered_witness :
  ∃ c' w', metadata_cache_process_in_message sample_resolved () (ListResponse 1 sample_results)
           = Return (c', w') ∧
    ∃ answer, check_result (mc_cells c') 0 = Some (Ok answer).
Proof.
  destruct (mc_resolve_requests sample_resolved !! 2) as [r|] eqn:E; [|by vm_compute in E].
  apply (listed_request_answered always sample_resolved () 1 sample_results 2 r 0).
  - apply sample_resolved_ok.
  - done.
  - apply sample_results_ok.
  - exact E.
  - vm_compute in E. by injection E as <-.
  - apply pending_check. vm_compute in E. injection E as <-. by vm_compute.
Defined.
