(* ===== verification/DataCache.v ===== *)
(** * The tablet data cache

    [src/apps/tablet_cache/service/src/transaction/data.rs]: tablets are loaded from and
    stored in the tablet data storage one by one; a batch of tablets is completed when
    all its cache entries are ready.  The serializer and the eviction policy are
    classes, as the traits of the source. *)

From stdpp Require Import pretty.
From S2P Require Import Prelude TabletStore CacheTypes.

Inductive TabletDataCacheInMessage :=
| LoadResponse (correlation_id : Z) (response : LoadTabletResponse) (contents : bytes)
| StoreResponse (correlation_id : Z) (response : StoreTabletResponse).

Inductive TabletDataCacheOutMessage :=
| LoadRequest (correlation_id : Z) (request : LoadTabletRequest)
| StoreRequest (correlation_id : Z) (request : StoreTabletRequest) (contents : bytes).

(** [TabletDataSerializer] *)
Class TabletDataSerializer (T : Type) : Type := {
  serialize : T → result unit bytes;
  deserialize : string → bytes → result unit T;
  get_size : T → Z
}.

(** [BytesTabletDataSerializer] *)
#[global] Instance BytesTabletDataSerializer : TabletDataSerializer bytes :=
  {| serialize tablet_value := Ok tablet_value;
     deserialize table_name tablet_data := Ok tablet_data;
     get_size tablet_value := zlen tablet_value |}.

(** ** Entries *)

(** A key is the uri of the blob. *)
Abbreviation TabletCacheKey := string.

Definition cache_key_from (tablet_metadata : TabletMetadata) : TabletCacheKey :=
  tm_blob_uri tablet_metadata.

Section entry.
Context {T : Type}.

Inductive TabletCacheEntryState :=
| EntryLoad
| EntryStore (data : T)
| EntryCache (data : T)
| EntryError.

Record TabletCacheEntry := {
  ce_tablet_metadata : TabletMetadata;
  ce_state : TabletCacheEntryState;
  ce_tablet_batch_ids : list Z
}.

Definition entry_with_load_state (correlation_id : Z) (tablet_metadata : TabletMetadata)
    : TabletCacheEntry * TabletDataCacheOutMessage :=
  ({| ce_tablet_metadata := tablet_metadata; ce_state := EntryLoad; ce_tablet_batch_ids := [] |},
   LoadRequest correlation_id {| ltq_blob_uri := tm_blob_uri tablet_metadata |}).

Definition entry_with_store_state (correlation_id : Z) (tablet_metadata : TabletMetadata)
    (tablet_value : T) (tablet_contents : bytes)
    : TabletCacheEntry * TabletDataCacheOutMessage :=
  ({| ce_tablet_metadata := tablet_metadata; ce_state := EntryStore tablet_value;
      ce_tablet_batch_ids := [] |},
   StoreRequest correlation_id {| stq_blob_uri := tm_blob_uri tablet_metadata |} tablet_contents).

Definition entry_with_state (e : TabletCacheEntry) (state : TabletCacheEntryState)
    : TabletCacheEntry :=
  {| ce_tablet_metadata := ce_tablet_metadata e; ce_state := state;
     ce_tablet_batch_ids := ce_tablet_batch_ids e |}.

Definition entry_with_batches (e : TabletCacheEntry) (ids : list Z) : TabletCacheEntry :=
  {| ce_tablet_metadata := ce_tablet_metadata e; ce_state := ce_state e;
     ce_tablet_batch_ids := ids |}.

Definition register_waiting_batch (e : TabletCacheEntry) (tablet_batch_id : Z)
    : TabletCacheEntry :=
  entry_with_batches e (ce_tablet_batch_ids e ++ [tablet_batch_id]).

Definition take_waiting_batches (e : TabletCacheEntry) : TabletCacheEntry * list Z :=
  match ce_state e with
  | EntryCache _ | EntryError => (entry_with_batches e [], ce_tablet_batch_ids e)
  | _ => (e, [])
  end.

Definition process_load_response (e : TabletCacheEntry) (response : LoadTabletResponse)
    (tablet_value : result unit T) : outcome TabletCacheEntry :=
  match ce_state e with
  | EntryLoad =>
      match storage_status_from_i32 (ltr_status response) with
      | Some StorageSucceeded =>
          match tablet_value with
          | Ok tablet_value => Return (entry_with_state e (EntryCache tablet_value))
          | Err _ => Return (entry_with_state e EntryError)
          end
      | Some StorageFailed => Return (entry_with_state e EntryError)
      | _ => Panic
      end
  | _ => Panic
  end.

Definition process_store_response (e : TabletCacheEntry) (response : StoreTabletResponse)
    : outcome TabletCacheEntry :=
  match ce_state e with
  | EntryStore tablet_value =>
      match storage_status_from_i32 (str_status response) with
      | Some StorageSucceeded => Return (entry_with_state e (EntryCache tablet_value))
      | Some StorageFailed => Return (entry_with_state e EntryError)
      | _ => Panic
      end
  | _ => Panic
  end.
End entry.
Arguments TabletCacheEntryState : clear implicits.
Arguments TabletCacheEntry : clear implicits.

(** [TabletDataCachePolicy], with the state of the policy. *)
Class TabletDataCachePolicy (P T : Type) : Type := {
  evict : P → Z → Z → gmap TabletCacheKey (TabletCacheEntry T) → P * list TabletCacheKey
}.

(** [DefaultTabletDataCachePolicy] never evicts anything. *)
#[global] Instance DefaultTabletDataCachePolicy T : TabletDataCachePolicy unit T :=
  {| evict p instant tablet_cache_size tablet_cache_entries := (p, []) |}.

(** ** Batches *)

Abbreviation LoadCells T := (ResultCells TabletDataStorageStatus (list (TabletMetadata * T))).
Abbreviation StoreCells := (ResultCells TabletDataStorageStatus unit).

Section batch.
Context {T : Type}.

Inductive TabletBatchState :=
| BatchLoad (loaded_tablets : list (TabletMetadata * T)) (source : Z)
| BatchStore (source : Z)
| BatchError
| BatchCompleted.

Record TabletBatch := {
  tb_batch_id : Z;
  tb_batch_state : TabletBatchState;
  tb_remaining_cache_entries : Z
}.

(** The cells of both kinds of results. *)
Record DataCells := {
  dc_load_cells : LoadCells T;
  dc_store_cells : StoreCells
}.

Definition with_load_cells (c : DataCells) (l : LoadCells T) : DataCells :=
  {| dc_load_cells := l; dc_store_cells := dc_store_cells c |}.

Definition with_store_cells (c : DataCells) (s : StoreCells) : DataCells :=
  {| dc_load_cells := dc_load_cells c; dc_store_cells := s |}.

Definition batch_with_load_state (batch_id : Z) (c : DataCells) : TabletBatch * DataCells * Z :=
  let '(l, op) := create_eventual_result (dc_load_cells c) in
  ({| tb_batch_id := batch_id; tb_batch_state := BatchLoad [] op;
      tb_remaining_cache_entries := 0 |}, with_load_cells c l, op).

Definition batch_with_store_state (batch_id : Z) (c : DataCells) : TabletBatch * DataCells * Z :=
  let '(s, op) := create_eventual_result (dc_store_cells c) in
  ({| tb_batch_id := batch_id; tb_batch_state := BatchStore op;
      tb_remaining_cache_entries := 0 |}, with_store_cells c s, op).

Definition batch_is_ready (b : TabletBatch) : bool :=
  bool_decide (tb_remaining_cache_entries b = 0).

(** The counter is a [usize]. *)
Definition resolve_pending_cache_entry (b : TabletBatch) (e : TabletCacheEntry T)
    (c : DataCells) : outcome (TabletBatch * DataCells) :=
  let remaining := tb_remaining_cache_entries b -₆₄ 1 in
  let has_completed := bool_decide (remaining = 0) in
  '(state, c) ←
    match ce_state e, tb_batch_state b with
    | EntryCache tablet_value, BatchLoad loaded_tablets loaded_tablets_source =>
        let loaded_tablets := loaded_tablets ++ [(ce_tablet_metadata e, tablet_value)] in
        if has_completed then
          l ← set_result (dc_load_cells c) loaded_tablets_source loaded_tablets;
          Return (BatchCompleted, with_load_cells c l)
        else Return (BatchLoad loaded_tablets loaded_tablets_source, c)
    | EntryError, BatchLoad _ loaded_tablets_source =>
        l ← set_error (dc_load_cells c) loaded_tablets_source StorageFailed;
        Return (BatchError, with_load_cells c l)
    | EntryCache _, BatchStore stored_tablets_source =>
        if has_completed then
          s ← set_result (dc_store_cells c) stored_tablets_source ();
          Return (BatchCompleted, with_store_cells c s)
        else Return (BatchStore stored_tablets_source, c)
    | EntryError, BatchStore stored_tablets_source =>
        s ← set_error (dc_store_cells c) stored_tablets_source StorageFailed;
        Return (BatchError, with_store_cells c s)
    | _, state => Return (state, c)
    end;
  Return ({| tb_batch_id := tb_batch_id b; tb_batch_state := state;
             tb_remaining_cache_entries := remaining |}, c).

Definition add_pending_cache_entry (b : TabletBatch) (e : TabletCacheEntry T) (c : DataCells)
    : outcome (TabletBatch * TabletCacheEntry T * DataCells) :=
  let b := {| tb_batch_id := tb_batch_id b; tb_batch_state := tb_batch_state b;
              tb_remaining_cache_entries := tb_remaining_cache_entries b +₆₄ 1 |} in
  match ce_state e with
  | EntryLoad | EntryStore _ => Return (b, register_waiting_batch e (tb_batch_id b), c)
  | EntryCache _ | EntryError =>
      '(b, c) ← resolve_pending_cache_entry b e c;
      Return (b, e, c)
  end.
End batch.
Arguments TabletBatchState : clear implicits.
Arguments TabletBatch : clear implicits.
Arguments DataCells : clear implicits.

(** ** The cache *)

(** The decimal rendering of a [u32]. *)
Definition format_u32 (z : Z) : string := pretty (Z.to_N z).

(** The base64 encoding of the [base64] crate is a parameter. *)
Definition format_blob_uri (base64 : bytes → string) (tablet_id tablet_version : Z)
    (blob_hash : bytes) : string :=
  (format_u32 tablet_id +:+ "_" +:+ format_u32 tablet_version +:+ "_" +:+ base64 blob_hash)%string.

Section cache.
Context {T P : Type} `{HSer : !TabletDataSerializer T, HPol : !TabletDataCachePolicy P T,
  HK : !HashOrder TabletCacheKey}.
Variable sha256 : bytes → bytes.
Variable base64 : bytes → string.

Record DefaultTabletDataCache := {
  dc_correlation_counter : Z;
  dc_batch_counter : Z;
  dc_config : TabletDataCacheConfig;
  dc_tablet_cache_policy : P;
  dc_tablet_cache_entries : gmap TabletCacheKey (TabletCacheEntry T);
  dc_tablet_batches : gmap Z (TabletBatch T);
  dc_tablet_operations : gmap Z TabletCacheKey;
  dc_out_messages : list TabletDataCacheOutMessage;
  dc_cells : DataCells T
}.

Definition data_cache_create (correlation_counter : Z) (policy : P) : DefaultTabletDataCache :=
  {| dc_correlation_counter := correlation_counter; dc_batch_counter := 0;
     dc_config := {| tdc_tablet_cache_capacity := 0 |}; dc_tablet_cache_policy := policy;
     dc_tablet_cache_entries := ∅; dc_tablet_batches := ∅; dc_tablet_operations := ∅;
     dc_out_messages := [];
     dc_cells := {| dc_load_cells := no_cells; dc_store_cells := no_cells |} |}.

Definition data_cache_init (d : DefaultTabletDataCache) (config : TabletDataCacheConfig)
    : DefaultTabletDataCache :=
  {| dc_correlation_counter := dc_correlation_counter d; dc_batch_counter := dc_batch_counter d;
     dc_config := config; dc_tablet_cache_policy := dc_tablet_cache_policy d;
     dc_tablet_cache_entries := dc_tablet_cache_entries d;
     dc_tablet_batches := dc_tablet_batches d; dc_tablet_operations := dc_tablet_operations d;
     dc_out_messages := dc_out_messages d; dc_cells := dc_cells d |}.

Definition dc_with (d : DefaultTabletDataCache)
    (entries : gmap TabletCacheKey (TabletCacheEntry T)) (batches : gmap Z (TabletBatch T))
    (cells : DataCells T) : DefaultTabletDataCache :=
  {| dc_correlation_counter := dc_correlation_counter d; dc_batch_counter := dc_batch_counter d;
     dc_config := dc_config d; dc_tablet_cache_policy := dc_tablet_cache_policy d;
     dc_tablet_cache_entries := entries; dc_tablet_batches := batches;
     dc_tablet_operations := dc_tablet_operations d; dc_out_messages := dc_out_messages d;
     dc_cells := cells |}.

(** Registers a batch with the entries of its keys. *)
Definition register_pending_cache_entry
    (st : TabletBatch T * gmap TabletCacheKey (TabletCacheEntry T) * DataCells T)
    (tablet_cache_key : TabletCacheKey)
    : outcome (TabletBatch T * gmap TabletCacheKey (TabletCacheEntry T) * DataCells T) :=
  let '(b, entries, cells) := st in
  match entries !! tablet_cache_key with
  | Some e =>
      '(b, e, cells) ← add_pending_cache_entry b e cells;
      Return (b, <[tablet_cache_key := e]> entries, cells)
  | None => Return st
  end.

Definition register_pending_cache_entries (b : TabletBatch T)
    (entries : gmap TabletCacheKey (TabletCacheEntry T)) (cells : DataCells T)
    (tablet_cache_keys : list TabletCacheKey)
    : outcome (TabletBatch T * gmap TabletCacheKey (TabletCacheEntry T) * DataCells T) :=
  ofold register_pending_cache_entry (b, entries, cells) tablet_cache_keys.

(** The new version of the metadata, with the contents to store. *)
Definition prepare_tablet_write (tablet_metadata : TabletMetadata) (tablet_value : T)
    : result unit (TabletMetadata * bytes) :=
  tablet_contents ← serialize tablet_value;
  let tablet_version := tm_tablet_version tablet_metadata +₃₂ 1 in
  let blob_hash := sha256 tablet_contents in
  Ok ({| tm_tablet_id := tm_tablet_id tablet_metadata; tm_tablet_version := tablet_version;
         tm_deleted := tm_deleted tablet_metadata;
         tm_blob_encryption_key := tm_blob_encryption_key tablet_metadata;
         tm_blob_size := zlen tablet_contents `mod` two32; tm_blob_hash := blob_hash;
         tm_blob_uri :=
           format_blob_uri base64 (tm_tablet_id tablet_metadata) tablet_version blob_hash |},
      tablet_contents).

Definition prepare_tablet_read (tablet_contents : bytes) : result unit T :=
  deserialize "todo" tablet_contents.

(** The loop of [make_progress] over the batches that wait for an entry. *)
Definition notify_batch (e : TabletCacheEntry T)
    (st : gmap Z (TabletBatch T) * DataCells T) (tablet_batch_id : Z)
    : outcome (gmap Z (TabletBatch T) * DataCells T) :=
  let '(batches, cells) := st in
  b ← unwrap (batches !! tablet_batch_id);
  '(b, cells) ← resolve_pending_cache_entry b e cells;
  Return (<[tablet_batch_id := b]> batches, cells).

(** What [make_progress] carries over the entries: the entries, the batches, the cells
    and the failed keys. *)
Definition notify_entry
    (st : gmap TabletCacheKey (TabletCacheEntry T) * gmap Z (TabletBatch T) * DataCells T
          * list TabletCacheKey)
    (x : TabletCacheKey * TabletCacheEntry T)
    : outcome (gmap TabletCacheKey (TabletCacheEntry T) * gmap Z (TabletBatch T) * DataCells T
               * list TabletCacheKey) :=
  let '(entries, batches, cells, failed) := st in
  let '(key, e) := x in
  let '(e, waiting) := take_waiting_batches e in
  '(batches, cells) ← ofold (notify_batch e) (batches, cells) waiting;
  Return (<[key := e]> entries, batches, cells,
          match ce_state e with EntryError => failed ++ [key] | _ => failed end).

Definition data_cache_make_progress (d : DefaultTabletDataCache) (instant : Z)
    : outcome DefaultTabletDataCache :=
  '(entries, batches, cells, failed) ←
    ofold notify_entry (dc_tablet_cache_entries d, dc_tablet_batches d, dc_cells d, [])
      (hash_iter (dc_tablet_cache_entries d));
  let batches := filter (λ x, batch_is_ready x.2 = false) batches in
  let entries := foldl (λ entries key, delete key entries) entries failed in
  let '(policy, evicted) :=
    evict (dc_tablet_cache_policy d) instant (tdc_tablet_cache_capacity (dc_config d)) entries in
  let entries := foldl (λ entries key, delete key entries) entries evicted in
  Return {| dc_correlation_counter := dc_correlation_counter d;
            dc_batch_counter := dc_batch_counter d; dc_config := dc_config d;
            dc_tablet_cache_policy := policy; dc_tablet_cache_entries := entries;
            dc_tablet_batches := batches; dc_tablet_operations := dc_tablet_operations d;
            dc_out_messages := dc_out_messages d; dc_cells := cells |}.

(** A new entry under a new correlation id, with its request. *)
Definition insert_entry (d : DefaultTabletDataCache) (key : TabletCacheKey)
    (make : Z → TabletCacheEntry T * TabletDataCacheOutMessage) : DefaultTabletDataCache :=
  let correlation_counter := dc_correlation_counter d +₆₄ 1 in
  let '(e, request) := make correlation_counter in
  {| dc_correlation_counter := correlation_counter; dc_batch_counter := dc_batch_counter d;
     dc_config := dc_config d; dc_tablet_cache_policy := dc_tablet_cache_policy d;
     dc_tablet_cache_entries := <[key := e]> (dc_tablet_cache_entries d);
     dc_tablet_batches := dc_tablet_batches d;
     dc_tablet_operations := <[correlation_counter := key]> (dc_tablet_operations d);
     dc_out_messages := dc_out_messages d ++ [request]; dc_cells := dc_cells d |}.

Definition load_tablet (d : DefaultTabletDataCache) (tablet_metadata : TabletMetadata)
    : DefaultTabletDataCache :=
  let key := cache_key_from tablet_metadata in
  match dc_tablet_cache_entries d !! key with
  | None => insert_entry d key (λ id, entry_with_load_state id tablet_metadata)
  | Some _ => d
  end.

(** The end of [load_tablets] and [store_tablets]: a new batch for the keys. *)
Definition start_batch (d : DefaultTabletDataCache)
    (make : Z → DataCells T → TabletBatch T * DataCells T * Z)
    (tablet_cache_keys : list TabletCacheKey) : outcome (DefaultTabletDataCache * Z) :=
  let batch_counter := dc_batch_counter d +₆₄ 1 in
  let '(b, cells, result_handle) := make batch_counter (dc_cells d) in
  '(b, entries, cells) ←
    register_pending_cache_entries b (dc_tablet_cache_entries d) cells tablet_cache_keys;
  Return ({| dc_correlation_counter := dc_correlation_counter d;
             dc_batch_counter := batch_counter; dc_config := dc_config d;
             dc_tablet_cache_policy := dc_tablet_cache_policy d;
             dc_tablet_cache_entries := entries;
             dc_tablet_batches :=
               if batch_is_ready b then dc_tablet_batches d
               else <[batch_counter := b]> (dc_tablet_batches d);
             dc_tablet_operations := dc_tablet_operations d;
             dc_out_messages := dc_out_messages d; dc_cells := cells |}, result_handle).

Definition data_cache_load_tablets (d : DefaultTabletDataCache)
    (tablets_metadata : list TabletMetadata) : outcome (DefaultTabletDataCache * Z) :=
  let d := foldl load_tablet d tablets_metadata in
  start_batch d batch_with_load_state (cache_key_from <$> tablets_metadata).

(** The first loop of [store_tablets]: the metadata written so far, and the contents
    unless some tablet could not be serialized. *)
Fixpoint prepare_tablet_writes (tablets_data : list (TabletMetadata * T))
    : list TabletMetadata * result unit (list bytes) :=
  match tablets_data with
  | [] => ([], Ok [])
  | (tablet_metadata, tablet_value) :: tablets_data =>
      match prepare_tablet_write tablet_metadata tablet_value with
      | Ok (tablet_metadata, tablet_contents) =>
          let '(metadata, contents) := prepare_tablet_writes tablets_data in
          (tablet_metadata :: metadata, contents ← contents; Ok (tablet_contents :: contents))
      | Err e => (tablet_metadata :: tablets_data.*1, Err e)
      end
  end.

Definition store_tablet (d : DefaultTabletDataCache) (x : TabletMetadata * T * bytes)
    : outcome DefaultTabletDataCache :=
  let '(tablet_metadata, tablet_value, tablet_contents) := x in
  let key := cache_key_from tablet_metadata in
  match dc_tablet_cache_entries d !! key with
  | None =>
      Return (insert_entry d key
        (λ id, entry_with_store_state id tablet_metadata tablet_value tablet_contents))
  | Some _ => Panic
  end.

(** Returns the metadata as it was updated in place. *)
Definition data_cache_store_tablets (d : DefaultTabletDataCache)
    (tablets_data : list (TabletMetadata * T))
    : outcome (DefaultTabletDataCache * list TabletMetadata * Z) :=
  let '(metadata, prepared) := prepare_tablet_writes tablets_data in
  match prepared with
  | Err _ =>
      let '(s, handle) := create_result_from_error StorageFailed (dc_store_cells (dc_cells d)) in
      Return (dc_with d (dc_tablet_cache_entries d) (dc_tablet_batches d)
                (with_store_cells (dc_cells d) s), metadata, handle)
  | Ok contents =>
      d ← ofold store_tablet d (zip (zip metadata tablets_data.*2) contents);
      '(d, handle) ← start_batch d batch_with_store_state (cache_key_from <$> metadata);
      Return (d, metadata, handle)
  end.

Definition data_cache_process_in_message (d : DefaultTabletDataCache)
    (in_message : TabletDataCacheInMessage) : outcome DefaultTabletDataCache :=
  let correlation_id :=
    match in_message with LoadResponse id _ _ | StoreResponse id _ => id end in
  match dc_tablet_operations d !! correlation_id with
  | Some key =>
      e ← unwrap (dc_tablet_cache_entries d !! key);
      e ←
        match in_message with
        | LoadResponse _ response contents =>
            process_load_response e response (prepare_tablet_read contents)
        | StoreResponse _ response => process_store_response e response
        end;
      Return {| dc_correlation_counter := dc_correlation_counter d;
                dc_batch_counter := dc_batch_counter d; dc_config := dc_config d;
                dc_tablet_cache_policy := dc_tablet_cache_policy d;
                dc_tablet_cache_entries := <[key := e]> (dc_tablet_cache_entries d);
                dc_tablet_batches := dc_tablet_batches d;
                dc_tablet_operations := delete correlation_id (dc_tablet_operations d);
                dc_out_messages := dc_out_messages d; dc_cells := dc_cells d |}
  | None => Return d
  end.

Definition data_cache_take_out_messages (d : DefaultTabletDataCache)
    : DefaultTabletDataCache * list TabletDataCacheOutMessage :=
  ({| dc_correlation_counter := dc_correlation_counter d; dc_batch_counter := dc_batch_counter d;
      dc_config := dc_config d; dc_tablet_cache_policy := dc_tablet_cache_policy d;
      dc_tablet_cache_entries := dc_tablet_cache_entries d;
      dc_tablet_batches := dc_tablet_batches d; dc_tablet_operations := dc_tablet_operations d;
      dc_out_messages := []; dc_cells := dc_cells d |}, dc_out_messages d).
End cache.
Arguments DefaultTabletDataCache : clear implicits.

(** ** The interface

    The trait [TabletDataCache], with the checks of result handles.  [store_tablets]
    returns the metadata it updated in place. *)
Class TabletDataCache (D T : Type) : Type := {
  dci_init : D → TabletDataCacheConfig → outcome D;
  dci_make_progress : D → Z → outcome D;
  dci_load_tablets : D → list TabletMetadata → outcome (D * Z);
  dci_store_tablets : D → list (TabletMetadata * T) → outcome (D * list TabletMetadata * Z);
  dci_process_in_message : D → TabletDataCacheInMessage → outcome D;
  dci_take_out_messages : D → D * list TabletDataCacheOutMessage;
  dci_check_load : D → Z → option (result TabletDataStorageStatus (list (TabletMetadata * T)));
  dci_check_store : D → Z → option (result TabletDataStorageStatus unit)
}.

Definition DefaultTabletDataCache_instance {T P : Type}
    `{!TabletDataSerializer T, !TabletDataCachePolicy P T, !HashOrder string}
    (sha256 : bytes → bytes) (base64 : bytes → string) :
    TabletDataCache (DefaultTabletDataCache T P) T :=
  {| dci_init d config := Return (data_cache_init d config);
     dci_make_progress := data_cache_make_progress;
     dci_load_tablets := data_cache_load_tablets;
     dci_store_tablets := data_cache_store_tablets sha256 base64;
     dci_process_in_message := data_cache_process_in_message;
     dci_take_out_messages := data_cache_take_out_messages;
     dci_check_load d handle := check_result (dc_load_cells (dc_cells d)) handle;
     dci_check_store d handle := check_result (dc_store_cells (dc_cells d)) handle |}.
