(* ===== verification/DataTheorems.v ===== *)
(** * Properties of the tablet data cache

    The blob uris are unique, batches count exactly the entries they wait for, nothing
    panics, results hold the requested tablets, and what was stored is read back. *)

From Stdlib Require Import Ascii Strings.Byte.
From stdpp Require Import pretty.
From S2P Require Import Prelude TabletStore CacheTypes DataCache.

(** ** Blob uris *)

(** What precedes the first underscore. *)
Fixpoint before_underscore (s : string) : string * string :=
  match s with
  | EmptyString => (EmptyString, EmptyString)
  | String c s' =>
      if decide (c = "_"%char) then (EmptyString, s')
      else let '(a, b) := before_underscore s' in (String c a, b)
  end.

Fixpoint no_underscore (s : string) : Prop :=
  match s with EmptyString => True | String c s => c ≠ "_"%char ∧ no_underscore s end.

Lemma before_underscore_app a b :
  no_underscore a → before_underscore (a +:+ "_" +:+ b)%string = (a, b).
Proof.
  induction a as [|c a IH]; simpl.
  - intros _. done.
  - intros [Hc Ha]. rewrite decide_False by done. change (a ++ String "_" b)%string with (a +:+ "_" +:+ b)%string. by rewrite IH.
Qed.

Lemma pretty_N_char_no_underscore x : pretty_N_char x ≠ "_"%char.
Proof. unfold pretty_N_char. by repeat case_match. Qed.

Lemma pretty_N_go_no_underscore x s : no_underscore s → no_underscore (pretty_N_go x s).
Proof.
  revert s. induction (N.lt_wf_0 x) as [x _ IH]; intros s Hs.
  destruct (decide (0 < x)%N) as [Hx|Hx].
  - rewrite pretty_N_go_step by done. apply IH; [by apply N.div_lt|].
    split; [apply pretty_N_char_no_underscore|done].
  - assert (x = 0%N) as -> by lia. by rewrite pretty_N_go_0.
Qed.

Lemma format_u32_no_underscore z : no_underscore (format_u32 z).
Proof.
  unfold format_u32, pretty, pretty_N. case_decide; [done|].
  by apply pretty_N_go_no_underscore.
Qed.

Lemma format_blob_uri_inj_lemma base64 id v h id' v' h' :
  Inj (=) (=) base64 → 0 ≤ id → 0 ≤ v → 0 ≤ id' → 0 ≤ v' →
  format_blob_uri base64 id v h = format_blob_uri base64 id' v' h' → id = id' ∧ v = v' ∧ h = h'.
Proof.
  intros Hb ? ? ? ? Heq. unfold format_blob_uri in Heq.
  apply (f_equal before_underscore) in Heq.
  rewrite !before_underscore_app in Heq by apply format_u32_no_underscore.
  injection Heq as Hid Heq. apply (f_equal before_underscore) in Heq.
  rewrite !before_underscore_app in Heq by apply format_u32_no_underscore.
  injection Heq as Hv Hh. apply Hb in Hh. unfold format_u32 in *.
  apply (inj pretty) in Hid. apply (inj pretty) in Hv. split_and!; [lia|lia|done].
Qed.

(** ** The bookkeeping of batches *)

Section books.
Context {T : Type}.
Implicit Types (entries : gmap TabletCacheKey (TabletCacheEntry T))
  (batches : gmap Z (TabletBatch T)) (cells : DataCells T) (b : TabletBatch T)
  (e : TabletCacheEntry T).

(** The batches that wait for entries, once per entry they wait for. *)
Definition waiting_ids entries : list Z := (map_to_list entries).*2 ≫= ce_tablet_batch_ids.

Definition count_id (id : Z) (l : list Z) : Z := zlen (filter (λ x, x = id) l).

Lemma count_id_app id l l' : count_id id (l ++ l') = count_id id l + count_id id l'.
Proof. unfold count_id. rewrite filter_app, length_app. lia. Qed.

Lemma count_id_cons id x l : count_id id (x :: l) = (if decide (x = id) then 1 else 0) + count_id id l.
Proof. unfold count_id. rewrite filter_cons. case_decide; simpl; lia. Qed.

#[global] Instance count_id_proper id : Proper ((≡ₚ) ==> (=)) (count_id id).
Proof. intros l l' Hl. unfold count_id. by rewrite Hl. Qed.

Lemma count_id_elem id l : id ∈ l ↔ 0 < count_id id l.
Proof.
  unfold count_id. split.
  - intros Hin. destruct (filter (λ x, x = id) l) eqn:E; [|simpl; lia].
    assert (id ∈ filter (λ x, x = id) l) as H by (by apply list_elem_of_filter).
    rewrite E in H. by apply elem_of_nil in H.
  - destruct (filter (λ x, x = id) l) as [|x l'] eqn:E; [simpl; lia|]. intros _.
    assert (x ∈ filter (λ x, x = id) l) as [-> ?]%list_elem_of_filter by (rewrite E; by left). done.
Qed.

Lemma count_id_nonneg id l : 0 ≤ count_id id l.
Proof. unfold count_id. lia. Qed.

Lemma waiting_ids_lookup entries key e :
  entries !! key = Some e →
  waiting_ids entries ≡ₚ ce_tablet_batch_ids e ++ waiting_ids (delete key entries).
Proof.
  intros He. unfold waiting_ids. rewrite <- (insert_delete_id entries key e) at 1 by done.
  rewrite map_to_list_insert by apply lookup_delete_eq. done.
Qed.

Lemma waiting_ids_insert entries key e :
  waiting_ids (<[key := e]> entries) ≡ₚ ce_tablet_batch_ids e ++ waiting_ids (delete key entries).
Proof.
  rewrite (waiting_ids_lookup (<[key := e]> entries) key e) by apply lookup_insert_eq.
  by rewrite delete_insert_eq.
Qed.

Lemma waiting_ids_same entries key e e' :
  entries !! key = Some e → ce_tablet_batch_ids e' = ce_tablet_batch_ids e →
  waiting_ids (<[key := e']> entries) ≡ₚ waiting_ids entries.
Proof.
  intros He Hids. rewrite waiting_ids_insert, Hids. by rewrite <- waiting_ids_lookup.
Qed.

(** Where the result of a batch goes. *)
Definition batch_source b : option (bool * Z) :=
  match tb_batch_state b with
  | BatchLoad _ s => Some (true, s)
  | BatchStore s => Some (false, s)
  | BatchError | BatchCompleted => None
  end.

(** The cell of a batch without a result is unset. *)
Definition batch_ok cells b : Prop :=
  match tb_batch_state b with
  | BatchLoad _ s => cell_unset (dc_load_cells cells) s
  | BatchStore s => cell_unset (dc_store_cells cells) s
  | BatchError | BatchCompleted => True
  end.

Definition data_cells_ok cells : Prop :=
  cells_ok (dc_load_cells cells) ∧ cells_ok (dc_store_cells cells).

Record books entries batches cells : Prop := {
  books_known : ∀ id, id ∈ waiting_ids entries → is_Some (batches !! id);
  books_count : ∀ id b, batches !! id = Some b →
    tb_batch_id b = id ∧ tb_remaining_cache_entries b = count_id id (waiting_ids entries) ∧
    tb_remaining_cache_entries b < two63;
  books_batch : ∀ id b, batches !! id = Some b → batch_ok cells b;
  books_source : ∀ id id' b b' src, batches !! id = Some b → batches !! id' = Some b' →
    batch_source b = Some src → batch_source b' = Some src → id = id';
  books_cells : data_cells_ok cells
}.

Lemma batch_ok_frame cells cells' b b2 :
  (∀ s, batch_source b ≠ Some (true, s) →
     cells_map (dc_load_cells cells') !! s = cells_map (dc_load_cells cells) !! s) →
  (∀ s, batch_source b ≠ Some (false, s) →
     cells_map (dc_store_cells cells') !! s = cells_map (dc_store_cells cells) !! s) →
  (∀ src, batch_source b2 = Some src → batch_source b ≠ Some src) →
  batch_ok cells b2 → batch_ok cells' b2.
Proof.
  intros Hl Hs Hne. unfold batch_ok, batch_source in *.
  destruct (tb_batch_state b2) as [l s|s| |]; [| |done..]; unfold cell_unset.
  - rewrite Hl; [done|]. by apply Hne.
  - rewrite Hs; [done|]. by apply Hne.
Qed.

(** What resolving a ready entry does to a batch and its cell. *)
Inductive resolved_batch (e : TabletCacheEntry T) (cells cells' : DataCells T) (remaining : Z)
    : TabletBatchState T → TabletBatchState T → Prop :=
| ResolvedLoad data loaded s : ce_state e = EntryCache data → remaining ≠ 0 → cells' = cells →
    resolved_batch e cells cells' remaining (BatchLoad loaded s)
      (BatchLoad (loaded ++ [(ce_tablet_metadata e, data)]) s)
| ResolvedStore data s : ce_state e = EntryCache data → remaining ≠ 0 → cells' = cells →
    resolved_batch e cells cells' remaining (BatchStore s) (BatchStore s)
| ResolvedLast data loaded s : ce_state e = EntryCache data → remaining = 0 →
    check_result (dc_load_cells cells') s = Some (Ok (loaded ++ [(ce_tablet_metadata e, data)])) →
    resolved_batch e cells cells' remaining (BatchLoad loaded s) BatchCompleted
| ResolvedStored data s : ce_state e = EntryCache data → remaining = 0 →
    check_result (dc_store_cells cells') s = Some (Ok ()) →
    resolved_batch e cells cells' remaining (BatchStore s) BatchCompleted
| ResolvedLoadError loaded s : ce_state e = EntryError →
    check_result (dc_load_cells cells') s = Some (Err StorageFailed) →
    resolved_batch e cells cells' remaining (BatchLoad loaded s) BatchError
| ResolvedStoreError s : ce_state e = EntryError →
    check_result (dc_store_cells cells') s = Some (Err StorageFailed) →
    resolved_batch e cells cells' remaining (BatchStore s) BatchError
| ResolvedDone state : (state = BatchError ∨ state = BatchCompleted) → cells' = cells →
    resolved_batch e cells cells' remaining state state.

Definition entry_ready e : Prop :=
  match ce_state e with EntryCache _ | EntryError => True | _ => False end.

Definition entry_waiting e : bool :=
  match ce_state e with EntryLoad | EntryStore _ => true | _ => false end.

Lemma entry_waiting_spec e : entry_waiting e = true ↔ ¬ entry_ready e.
Proof. unfold entry_waiting, entry_ready. destruct (ce_state e); naive_solver. Qed.

Lemma entry_waiting_ready e : entry_waiting e ≠ true ↔ entry_ready e.
Proof. unfold entry_waiting, entry_ready. destruct (ce_state e); naive_solver. Qed.

(** Cells that changed only at the source of a batch. *)
Record source_frame cells cells' b : Prop := {
  frame_load : ∀ s, batch_source b ≠ Some (true, s) →
    cells_map (dc_load_cells cells') !! s = cells_map (dc_load_cells cells) !! s;
  frame_store : ∀ s, batch_source b ≠ Some (false, s) →
    cells_map (dc_store_cells cells') !! s = cells_map (dc_store_cells cells) !! s;
  frame_ok : data_cells_ok cells → data_cells_ok cells'
}.

Lemma source_frame_load cells b loaded s l :
  tb_batch_state b = BatchLoad loaded s →
  (∀ a, s ≠ a → cells_map l !! a = cells_map (dc_load_cells cells) !! a) →
  (cells_ok (dc_load_cells cells) → cells_ok l) → source_frame cells (with_load_cells cells l) b.
Proof.
  intros Hst Hfr Hok. split; [|done|].
  - intros a Ha. apply Hfr. unfold batch_source in Ha. rewrite Hst in Ha. congruence.
  - intros [? ?]. split; [by apply Hok|done].
Qed.

Lemma source_frame_store cells b s l :
  tb_batch_state b = BatchStore s →
  (∀ a, s ≠ a → cells_map l !! a = cells_map (dc_store_cells cells) !! a) →
  (cells_ok (dc_store_cells cells) → cells_ok l) → source_frame cells (with_store_cells cells l) b.
Proof.
  intros Hst Hfr Hok. split; [done| |].
  - intros a Ha. apply Hfr. unfold batch_source in Ha. rewrite Hst in Ha. congruence.
  - intros [? ?]. split; [done|by apply Hok].
Qed.

Lemma source_frame_refl cells b : source_frame cells cells b.
Proof. by split. Qed.

#[local] Hint Resolve source_frame_refl source_frame_load source_frame_store : rust.
#[local] Hint Constructors resolved_batch : rust.

(** Resolving an entry counts down, and sets the batch's own cell at most. *)
Lemma resolve_entry_spec b e cells :
  batch_ok cells b → entry_ready e →
  ∃ b' cells', resolve_pending_cache_entry b e cells = Return (b', cells') ∧
    tb_batch_id b' = tb_batch_id b ∧
    tb_remaining_cache_entries b' = tb_remaining_cache_entries b -₆₄ 1 ∧
    resolved_batch e cells cells' (tb_remaining_cache_entries b -₆₄ 1)
      (tb_batch_state b) (tb_batch_state b') ∧
    source_frame cells cells' b.
Proof.
  intros Hb He. unfold resolve_pending_cache_entry, batch_ok, entry_ready in *.
  destruct (ce_state e) eqn:Ee; try done;
    destruct (tb_batch_state b) as [loaded s|s| |] eqn:Est;
    repeat case_bool_decide;
    try match goal with
    | |- context [set_result ?c ?s ?r] =>
        destruct (check_result_set c s r Hb) as (c' & -> & Hc & Hfr & Hok)
    | |- context [set_error ?c ?s ?r] =>
        destruct (check_error_set c s r Hb) as (c' & -> & Hc & Hfr & Hok)
    end; eexists _, _; (split; [done|]); split_and!; simpl; eauto with rust.
Qed.

Lemma resolved_batch_ok e cells cells' b b' :
  resolved_batch e cells cells' (tb_remaining_cache_entries b') (tb_batch_state b) (tb_batch_state b') →
  batch_ok cells b →
  batch_ok cells' b' ∧ (∀ src, batch_source b' = Some src → batch_source b = Some src).
Proof.
  unfold batch_ok, batch_source. intros Hr. by inversion Hr; subst.
Qed.

(** One batch changes together with the entries that wait for it. *)
Lemma books_replace entries entries' batches cells cells' id b b' :
  books entries batches cells → batches !! id = Some b → tb_batch_id b' = id →
  tb_remaining_cache_entries b' = count_id id (waiting_ids entries') →
  tb_remaining_cache_entries b' < two63 →
  (∀ id', id' ≠ id → count_id id' (waiting_ids entries') = count_id id' (waiting_ids entries)) →
  batch_ok cells' b' → (∀ src, batch_source b' = Some src → batch_source b = Some src) →
  source_frame cells cells' b → books entries' (<[id := b']> batches) cells'.
Proof.
  intros [Hk Hc Hb Hs Hok] Hid Hid' Hrem Hlt Hcount Hb' Hsrc Hfr. split.
  - intros i Hi. apply lookup_insert_is_Some'. destruct (decide (id = i)); [by left|right].
    apply Hk. rewrite count_id_elem in *. by rewrite <- Hcount.
  - intros i x [[<- <-]|[Hne Hx]]%lookup_insert_Some; [done|].
    rewrite Hcount by done. by apply Hc.
  - intros i x [[<- <-]|[Hne Hx]]%lookup_insert_Some; [done|].
    eapply batch_ok_frame; [apply Hfr|apply Hfr| |by eapply Hb].
    intros src Hsrc' Habs. apply Hne. by eapply Hs.
  - intros i i' x x' src [[<- <-]|[Hne Hx]]%lookup_insert_Some
      [[<- <-]|[Hne' Hx']]%lookup_insert_Some H1 H2; [done|..].
    + eapply Hs; eauto.
    + symmetry. eapply Hs; eauto.
    + by eapply Hs.
  - by apply Hfr.
Qed.

(** ** Following a load *)

(** The metadata of the entries a batch waits for. *)
Definition entry_metas (id : Z) e : list TabletMetadata :=
  replicate (Z.to_nat (count_id id (ce_tablet_batch_ids e))) (ce_tablet_metadata e).

Definition waiting_metas (id : Z) entries : list TabletMetadata :=
  (map_to_list entries).*2 ≫= entry_metas id.

Lemma waiting_metas_lookup id entries key e :
  entries !! key = Some e →
  waiting_metas id entries ≡ₚ entry_metas id e ++ waiting_metas id (delete key entries).
Proof.
  intros He. unfold waiting_metas. rewrite <- (insert_delete_id entries key e) at 1 by done.
  rewrite map_to_list_insert by apply lookup_delete_eq. done.
Qed.

Lemma waiting_metas_insert id entries key e :
  waiting_metas id (<[key := e]> entries) ≡ₚ entry_metas id e ++ waiting_metas id (delete key entries).
Proof.
  rewrite (waiting_metas_lookup id (<[key := e]> entries) key e) by apply lookup_insert_eq.
  by rewrite delete_insert_eq.
Qed.

Lemma waiting_metas_length id entries :
  zlen (waiting_metas id entries) = count_id id (waiting_ids entries).
Proof.
  unfold waiting_metas, waiting_ids. induction (map_to_list entries).*2 as [|e l IH]; [done|].
  rewrite !bind_cons, length_app, count_id_app, Nat2Z.inj_add, IH. unfold entry_metas.
  rewrite length_replicate. pose proof (count_id_nonneg id (ce_tablet_batch_ids e)). lia.
Qed.

(** What the data of entries must satisfy. *)
Variable good : TabletMetadata → T → Prop.

Definition entry_good e : Prop :=
  match ce_state e with
  | EntryStore data | EntryCache data => good (ce_tablet_metadata e) data
  | EntryLoad | EntryError => True
  end.

(** A load of some tablets: its batch has some of them and waits for the others, or it
    was answered with all of them, or it failed. *)
Inductive tracked (handle : Z) (metas : list TabletMetadata) entries batches cells : Prop :=
| TrackedBatch id b loaded :
    batches !! id = Some b → tb_batch_state b = BatchLoad loaded handle →
    0 < tb_remaining_cache_entries b → Forall (λ x, good x.1 x.2) loaded →
    loaded.*1 ++ waiting_metas id entries ≡ₚ metas → tracked handle metas entries batches cells
| TrackedLoaded loaded :
    check_result (dc_load_cells cells) handle = Some (Ok loaded) →
    Forall (λ x, good x.1 x.2) loaded → loaded.*1 ≡ₚ metas →
    tracked handle metas entries batches cells
| TrackedFailed :
    check_result (dc_load_cells cells) handle = Some (Err StorageFailed) →
    tracked handle metas entries batches cells.

(** An answered load stays answered while cells change at unset sources. *)
Lemma check_result_frame cells cells' b handle x :
  batch_ok cells b → source_frame cells cells' b →
  check_result (dc_load_cells cells) handle = Some x →
  check_result (dc_load_cells cells') handle = Some x.
Proof.
  intros Hb Hfr Hx. unfold check_result in *. rewrite (frame_load _ _ _ Hfr); [done|].
  intros Hsrc. unfold batch_ok, batch_source in *.
  destruct (tb_batch_state b); simplify_eq. by rewrite Hb in Hx.
Qed.

(** One resolved registration of a ready entry. *)
Lemma tracked_resolved handle metas entries entries' batches cells cells' id b b' e :
  books entries batches cells → batches !! id = Some b → entry_good e →
  resolved_batch e cells cells' (tb_remaining_cache_entries b') (tb_batch_state b) (tb_batch_state b') →
  source_frame cells cells' b → 0 ≤ tb_remaining_cache_entries b' →
  zlen (waiting_metas id entries') = tb_remaining_cache_entries b' →
  waiting_metas id entries ≡ₚ ce_tablet_metadata e :: waiting_metas id entries' →
  (∀ i, i ≠ id → waiting_metas i entries' ≡ₚ waiting_metas i entries) →
  tracked handle metas entries batches cells →
  tracked handle metas entries' (<[id := b']> batches) cells'.
Proof.
  intros Hb Hid Hgood Hres Hfr Hrem Hlen Hmetas Hother Htr.
  pose proof (books_batch _ _ _ Hb id b Hid) as Hbok.
  destruct Htr as [i x loaded Hi Hx Hpos Hg Hp|loaded Hl Hg Hp|Hf].
  2: by eapply TrackedLoaded; [by eapply check_result_frame|..].
  2: by eapply TrackedFailed, check_result_frame.
  destruct (decide (i = id)) as [->|Hne].
  2: { apply (TrackedBatch _ _ _ _ _ i x loaded); [by rewrite lookup_insert_ne|done..|].
       by rewrite Hother. }
  simplify_eq. rewrite Hx in Hres. unfold entry_good in Hgood.
  inversion Hres as [data ? ? He Hr Hc| |data ? ? He Hr Hc| |? ? He Hc| |? [?|?]]; subst; try done;
    rewrite ?He in Hgood.
  - apply (TrackedBatch _ _ _ _ _ id b' (loaded ++ [(ce_tablet_metadata e, data)]));
      [by rewrite lookup_insert_eq|done|lia|by apply Forall_app; split; [|constructor]|].
    rewrite <- Hp, Hmetas, fmap_app, <- (assoc_L (++)). done.
  - apply (TrackedLoaded _ _ _ _ _ (loaded ++ [(ce_tablet_metadata e, data)])); [done|..].
    + by apply Forall_app; split; [|constructor].
    + rewrite <- Hp, Hmetas, fmap_app. destruct (waiting_metas id entries'); [done|].
      simpl in Hlen. lia.
  - by apply TrackedFailed.
Qed.

(** Notifying the batches of a ready entry, which are taken off the entry. *)
Lemma notify_batches_spec entries batches cells key e :
  books entries batches cells → entries !! key = Some e → entry_ready e → entry_good e →
  ∃ batches' cells',
    ofold (notify_batch (entry_with_batches e [])) (batches, cells) (ce_tablet_batch_ids e)
    = Return (batches', cells') ∧
    books (<[key := entry_with_batches e []]> entries) batches' cells' ∧
    dom batches' = dom batches ∧
    ∀ handle metas, tracked handle metas entries batches cells →
      tracked handle metas (<[key := entry_with_batches e []]> entries) batches' cells'.
Proof.
  intros Hb He Hr Hgood.
  assert (∀ ids batches cells,
    books (<[key := entry_with_batches e ids]> entries) batches cells →
    ∃ batches' cells',
      ofold (notify_batch (entry_with_batches e [])) (batches, cells) ids
      = Return (batches', cells') ∧
      books (<[key := entry_with_batches e []]> entries) batches' cells' ∧
      dom batches' = dom batches ∧
      ∀ handle metas, tracked handle metas (<[key := entry_with_batches e ids]> entries) batches cells →
        tracked handle metas (<[key := entry_with_batches e []]> entries) batches' cells') as Hloop.
  { clear Hb batches cells. induction ids as [|id ids IH]; intros batches cells Hb;
      cbn [ofold]; [by eexists _, _|].
    assert (∀ i ids, count_id i (waiting_ids (<[key := entry_with_batches e ids]> entries))
      = count_id i ids + count_id i (waiting_ids (delete key entries))) as Hcnt.
    { intros i ids'. by rewrite waiting_ids_insert, count_id_app. }
    pose proof (count_id_nonneg id ids) as H1.
    pose proof (count_id_nonneg id (waiting_ids (delete key entries))) as H2.
    destruct (books_known _ _ _ Hb id) as [b Hid].
    { apply count_id_elem. rewrite Hcnt, count_id_cons, decide_True by done. lia. }
    destruct (books_count _ _ _ Hb id b Hid) as (Hbid & Hrem & Hlt).
    pose proof (books_batch _ _ _ Hb id b Hid) as Hbok.
    destruct (resolve_entry_spec b (entry_with_batches e []) cells Hbok Hr)
      as (b' & cells' & Heq & Hbid' & Hrem' & Hres & Hfr). rewrite <- Hrem' in Hres.
    assert (notify_batch (entry_with_batches e []) (batches, cells) id
      = Return (<[id := b']> batches, cells')) as ->.
    { unfold notify_batch. rewrite Hid. simpl. by rewrite Heq. }
    cbn [mbind outcome_bind]. rewrite Hcnt, count_id_cons, decide_True in Hrem by done.
    rewrite u64_sub_small in Hrem' by lia.
    destruct (resolved_batch_ok _ _ _ _ _ Hres Hbok) as [Hbok' Hsrc].
    destruct (IH (<[id := b']> batches) cells') as (batches2 & cells2 & -> & Hb2 & Hdom2 & Htr2).
    { eapply books_replace; [exact Hb|done|congruence| |lia| |done..].
      - rewrite Hcnt. lia.
      - intros i Hne. rewrite !Hcnt, count_id_cons, decide_False by done. lia. }
    eexists _, _. split_and!; [done|done|by rewrite Hdom2, dom_insert_lookup_L by (by exists b)|].
    intros handle metas Htr. apply Htr2.
    eapply (tracked_resolved _ _ _ _ _ _ _ id b b' (entry_with_batches e [])); [exact Hb|done|exact Hgood|exact Hres|exact Hfr|lia|..|exact Htr].
    - rewrite waiting_metas_length, Hcnt. lia.
    - rewrite !waiting_metas_insert. unfold entry_metas. simpl.
      rewrite count_id_cons, decide_True by done. by rewrite Z2Nat.inj_add by lia.
    - intros i Hne. rewrite !waiting_metas_insert. unfold entry_metas. simpl.
      by rewrite count_id_cons, decide_False by done. }
  assert (<[key := entry_with_batches e (ce_tablet_batch_ids e)]> entries = entries) as Hself.
  { rewrite insert_id; [done|]. rewrite He. by destruct e. }
  rewrite <- Hself in Hb. destruct (Hloop _ _ _ Hb) as (batches' & cells' & ? & ? & ? & Htr).
  eexists _, _. split_and!; [done..|]. intros handle metas. rewrite <- Hself at 1. apply Htr.
Qed.

(** ** Making progress *)

(** What notifying does to an entry. *)
Definition entry_notified e : TabletCacheEntry T :=
  match ce_state e with EntryCache _ | EntryError => entry_with_batches e [] | _ => e end.

Lemma entry_notified_fields e :
  ce_state (entry_notified e) = ce_state e ∧
  ce_tablet_metadata (entry_notified e) = ce_tablet_metadata e ∧
  (entry_ready e → ce_tablet_batch_ids (entry_notified e) = []).
Proof. unfold entry_notified, entry_ready. by destruct (ce_state e) eqn:E. Qed.

Lemma notify_entry_spec entries batches cells failed key e :
  books entries batches cells → entries !! key = Some e → entry_good e →
  ∃ batches' cells',
    notify_entry (entries, batches, cells, failed) (key, e)
    = Return (<[key := entry_notified e]> entries, batches', cells',
        match ce_state e with EntryError => failed ++ [key] | _ => failed end) ∧
    books (<[key := entry_notified e]> entries) batches' cells' ∧
    dom batches' = dom batches ∧
    ∀ handle metas, tracked handle metas entries batches cells →
      tracked handle metas (<[key := entry_notified e]> entries) batches' cells'.
Proof.
  intros Hb He Hg. unfold notify_entry, take_waiting_batches, entry_notified.
  destruct (ce_state e) eqn:Est; simpl.
  1, 2: rewrite Est; eexists _, _; split; [done|]; by rewrite insert_id.
  all: destruct (notify_batches_spec entries batches cells key e) as (batches' & cells' & -> & ? & ? & ?);
    [done|done|unfold entry_ready; by rewrite Est|done|]; simpl; rewrite Est;
    by eexists _, _.
Qed.

Definition entry_failed e : bool := match ce_state e with EntryError => true | _ => false end.

Lemma notify_entries_spec l entries batches cells failed :
  books entries batches cells → NoDup l.*1 →
  Forall (λ x, entries !! x.1 = Some x.2 ∧ entry_good x.2) l →
  ∃ entries' batches' cells',
    ofold notify_entry (entries, batches, cells, failed) l
    = Return (entries', batches', cells',
        failed ++ (filter (λ x, entry_failed x.2 = true) l).*1) ∧
    books entries' batches' cells' ∧ dom batches' = dom batches ∧
    (∀ key, entries' !! key
      = if decide (key ∈ l.*1) then entry_notified <$> entries !! key else entries !! key) ∧
    ∀ handle metas, tracked handle metas entries batches cells →
      tracked handle metas entries' batches' cells'.
Proof.
  revert entries batches cells failed.
  induction l as [|[key e] l IH]; intros entries batches cells failed Hb Hnd Hl; cbn [ofold].
  { eexists _, _, _. simpl. by rewrite app_nil_r. }
  rewrite fmap_cons in *. apply NoDup_cons in Hnd as [Hk Hnd].
  inversion_clear Hl as [|? ? [He Hg] Hl']. cbn [fst snd] in *.
  destruct (notify_entry_spec entries batches cells failed key e) as (batches1 & cells1 & Heq & Hb1 & Hd1 & Ht1);
    [done..|]. rewrite Heq. cbn [mbind outcome_bind].
  destruct (IH (<[key := entry_notified e]> entries) batches1 cells1
    (match ce_state e with EntryError => failed ++ [key] | _ => failed end))
    as (entries2 & batches2 & cells2 & -> & Hb2 & Hd2 & Hlook & Ht2); [done..| |].
  { rewrite Forall_forall in Hl' |- *. intros y Hy. destruct (Hl' y Hy) as [? ?]. split; [|done].
    rewrite lookup_insert_ne; [done|]. intros ->. apply Hk. by apply list_elem_of_fmap_2. }
  eexists _, _, _. split_and!; [|done|congruence| |auto].
  - rewrite filter_cons. cbn [snd]. destruct (decide (entry_failed e = true)) as [Hf|Hf];
      unfold entry_failed in Hf; destruct (ce_state e); simpl; try done.
    by rewrite <- (assoc_L (++)).
  - intros k. rewrite Hlook. destruct (decide (k = key)) as [->|Hne].
    + rewrite decide_False by done. rewrite decide_True by (by left).
      by rewrite lookup_insert_eq, He.
    + rewrite lookup_insert_ne by done.
      assert (k ∈ l.*1 ↔ k ∈ key :: l.*1) as Hiff by (rewrite elem_of_cons; tauto).
      by rewrite (decide_ext _ _ _ _ Hiff).
Qed.

(** Batches without remaining entries, and entries that no batch waits for, can go. *)
Lemma books_filter entries batches cells :
  books entries batches cells →
  books entries (filter (λ x, batch_is_ready x.2 = false) batches) cells ∧
  ∀ handle metas, tracked handle metas entries batches cells →
    tracked handle metas entries (filter (λ x, batch_is_ready x.2 = false) batches) cells.
Proof.
  intros [Hk Hc Hb Hs Hok]. split; [split|].
  - intros id Hid. destruct (Hk id Hid) as [b Hb']. exists b. apply map_lookup_filter_Some.
    split; [done|]. unfold batch_is_ready. simpl. apply bool_decide_eq_false.
    destruct (Hc id b Hb') as (_ & -> & _). apply count_id_elem in Hid. lia.
  - intros id b [Hid _]%map_lookup_filter_Some. by apply Hc.
  - intros id b [Hid _]%map_lookup_filter_Some. by eapply Hb.
  - intros id id' b b' src [Hid _]%map_lookup_filter_Some [Hid' _]%map_lookup_filter_Some. by apply Hs.
  - done.
  - intros handle metas [id b loaded Hid Hst Hpos Hg Hp|loaded Hl Hg Hp|Hf].
    + apply (TrackedBatch _ _ _ _ _ id b loaded); [|done..]. apply map_lookup_filter_Some.
      split; [done|]. unfold batch_is_ready. simpl. apply bool_decide_eq_false. lia.
    + by eapply TrackedLoaded.
    + by apply TrackedFailed.
Qed.

(** Changing entries without changing who waits. *)
Lemma books_entries entries entries' batches cells :
  (∀ id, waiting_metas id entries' ≡ₚ waiting_metas id entries) →
  books entries batches cells →
  books entries' batches cells ∧
  ∀ handle metas, tracked handle metas entries batches cells →
    tracked handle metas entries' batches cells.
Proof.
  intros Hm [Hk Hc Hb Hs Hok].
  assert (∀ id, count_id id (waiting_ids entries') = count_id id (waiting_ids entries)) as Hcnt.
  { intros id. by rewrite <- !waiting_metas_length, Hm. }
  split; [split; [|..|done]|].
  - intros id Hid. apply Hk. rewrite count_id_elem in *. by rewrite <- Hcnt.
  - intros id b Hid. rewrite Hcnt. by apply Hc.
  - done.
  - done.
  - intros handle metas [id b loaded Hid Hst Hpos Hg Hp|loaded Hl Hg Hp|Hf].
    + apply (TrackedBatch _ _ _ _ _ id b loaded); [done..|]. by rewrite Hm.
    + by eapply TrackedLoaded.
    + by apply TrackedFailed.
Qed.

Lemma waiting_metas_delete id entries key :
  (∀ e, entries !! key = Some e → ce_tablet_batch_ids e = []) →
  waiting_metas id (delete key entries) ≡ₚ waiting_metas id entries.
Proof.
  intros He. destruct (entries !! key) as [e|] eqn:E; [|by rewrite delete_id].
  rewrite (waiting_metas_lookup id entries key e) by done. unfold entry_metas.
  by rewrite (He e eq_refl).
Qed.

Lemma waiting_metas_deletes id keys entries :
  (∀ key e, key ∈ keys → entries !! key = Some e → ce_tablet_batch_ids e = []) →
  waiting_metas id (foldl (λ entries key, delete key entries) entries keys) ≡ₚ waiting_metas id entries.
Proof.
  revert entries. induction keys as [|key keys IH]; intros entries He; simpl; [done|].
  rewrite IH.
  - apply waiting_metas_delete. intros e. apply He. by left.
  - intros k e Hk Hd. apply lookup_delete_Some in Hd as [_ ?]. eapply He; [by right|done].
Qed.

Lemma lookup_deletes keys entries key e :
  foldl (λ entries key, delete key entries) entries keys !! key = Some e ↔
  key ∉ keys ∧ entries !! key = Some e.
Proof.
  revert entries. induction keys as [|k keys IH]; intros entries; simpl.
  { split; [|by intros [_ ?]]. split; [apply not_elem_of_nil|done]. }
  rewrite IH, lookup_delete_Some, not_elem_of_cons. naive_solver.
Qed.

(** ** Registering a batch *)

(** Entries that differ at most in who waits for them. *)
Definition entries_same entries entries' : Prop :=
  ∀ key, option_relation (λ e e', ce_state e' = ce_state e ∧
      ce_tablet_metadata e' = ce_tablet_metadata e) (const False) (const False)
    (entries !! key) (entries' !! key).

#[global] Instance entries_same_preorder : PreOrder entries_same.
Proof.
  split.
  - intros m key. by destruct (m !! key).
  - intros m1 m2 m3 H12 H23 key. specialize (H12 key). specialize (H23 key).
    destruct (m1 !! key), (m2 !! key), (m3 !! key); simpl in *; try done.
    destruct H12 as [? ?], H23 as [? ?]. split; congruence.
Qed.

Lemma entries_same_insert entries key e e' :
  entries !! key = Some e → ce_state e' = ce_state e →
  ce_tablet_metadata e' = ce_tablet_metadata e → entries_same entries (<[key := e']> entries).
Proof.
  intros He H1 H2 k. destruct (decide (key = k)) as [<-|].
  - by rewrite He, lookup_insert_eq.
  - rewrite lookup_insert_ne by done. by destruct (entries !! k).
Qed.

(** Loads with another source are not affected by what happens to a batch. *)
Lemma tracked_other handle metas entries entries' batches cells cells' id b b' :
  batch_ok cells b → source_frame cells cells' b → batch_source b ≠ Some (true, handle) →
  (∀ i, i ≠ id → waiting_metas i entries' ≡ₚ waiting_metas i entries) →
  tracked handle metas entries (<[id := b]> batches) cells →
  tracked handle metas entries' (<[id := b']> batches) cells'.
Proof.
  intros Hb Hfr Hsrc Hother [i x loaded Hi Hx Hpos Hg Hp|loaded Hl Hg Hp|Hf].
  - apply lookup_insert_Some in Hi as [[<- <-]|[Hne Hi]].
    { destruct Hsrc. unfold batch_source. by rewrite Hx. }
    apply (TrackedBatch _ _ _ _ _ i x loaded); [by rewrite lookup_insert_ne|done..|].
    by rewrite Hother.
  - eapply TrackedLoaded; [by eapply check_result_frame|done..].
  - by eapply TrackedFailed, check_result_frame.
Qed.

(** The batch that counts one more entry. *)
Definition batch_counted b : TabletBatch T :=
  {| tb_batch_id := tb_batch_id b; tb_batch_state := tb_batch_state b;
     tb_remaining_cache_entries := tb_remaining_cache_entries b +₆₄ 1 |}.

Lemma add_pending_waiting b e cells :
  entry_waiting e = true →
  add_pending_cache_entry b e cells
  = Return (batch_counted b, register_waiting_batch e (tb_batch_id b), cells).
Proof. unfold entry_waiting, add_pending_cache_entry. by destruct (ce_state e). Qed.

Lemma add_pending_ready b e cells :
  entry_ready e →
  add_pending_cache_entry b e cells
  = '(b, cells) ← resolve_pending_cache_entry (batch_counted b) e cells; Return (b, e, cells).
Proof. unfold entry_ready, add_pending_cache_entry. by destruct (ce_state e). Qed.

(** What registering a batch with one key does. *)
Record registered (entries entries' : gmap TabletCacheKey (TabletCacheEntry T))
    (batches : gmap Z (TabletBatch T)) (cells cells' : DataCells T) (id : Z)
    (b b' : TabletBatch T) (key : TabletCacheKey) : Prop := {
  registered_books : books entries' (<[id := b']> batches) cells';
  registered_same : entries_same entries entries';
  registered_count : tb_remaining_cache_entries b' ≤ tb_remaining_cache_entries b + 1;
  registered_source : ∀ src, batch_source b' = Some src → batch_source b = Some src;
  registered_tracked : ∀ handle metas, batch_source b ≠ Some (true, handle) →
    tracked handle metas entries (<[id := b]> batches) cells →
    tracked handle metas entries' (<[id := b']> batches) cells';
  registered_waiting : ∀ e, entries !! key = Some e → ¬ entry_ready e →
    tb_batch_state b' = tb_batch_state b ∧
    tb_remaining_cache_entries b' = tb_remaining_cache_entries b + 1 ∧
    waiting_metas id entries' ≡ₚ ce_tablet_metadata e :: waiting_metas id entries
}.

Lemma waiting_metas_register i id entries key e :
  entries !! key = Some e →
  waiting_metas i (<[key := register_waiting_batch e id]> entries)
  ≡ₚ (if decide (i = id) then [ce_tablet_metadata e] else []) ++ waiting_metas i entries.
Proof.
  intros He. rewrite waiting_metas_insert, (waiting_metas_lookup i entries key e) by done.
  unfold entry_metas. simpl. rewrite count_id_app, count_id_cons.
  pose proof (count_id_nonneg i (ce_tablet_batch_ids e)).
  assert (count_id i [] = 0) as -> by done. destruct (decide (i = id)) as [->|].
  - rewrite decide_True by done. by rewrite Z.add_comm, Z2Nat.inj_add by lia.
  - rewrite decide_False by done. by rewrite !Z.add_0_r.
Qed.

Lemma register_waiting_spec entries batches cells id b key e :
  books entries (<[id := b]> batches) cells → tb_remaining_cache_entries b < two63 - 1 →
  entries !! key = Some e → entry_waiting e = true →
  registered entries (<[key := register_waiting_batch e id]> entries) batches cells cells id
    b (batch_counted b) key.
Proof.
  intros Hb Hlt He Hw. assert ((<[id := b]> batches) !! id = Some b) as Hid by apply lookup_insert_eq.
  destruct (books_count _ _ _ Hb id b Hid) as (Hbid & Hrem & _).
  pose proof (books_batch _ _ _ Hb id b Hid) as Hbok.
  pose proof (count_id_nonneg id (waiting_ids entries)) as Hnn.
  pose proof (waiting_metas_register) as Hm.
  assert (tb_remaining_cache_entries (batch_counted b) = tb_remaining_cache_entries b + 1) as Hc.
  { simpl. by rewrite u64_add_small by lia. }
  split; [|by eapply entries_same_insert|lia|done| |].
  - rewrite <- (insert_insert_eq batches id (batch_counted b) b).
    eapply books_replace; [exact Hb|done|done| |lia| |exact Hbok|done|apply source_frame_refl].
    + rewrite Hc, <- waiting_metas_length, Hm, decide_True by done. simpl.
      rewrite Nat2Z.inj_succ, waiting_metas_length. lia.
    + intros i Hne. by rewrite <- !waiting_metas_length, Hm, decide_False by done.
  - intros handle metas Hsrc. eapply tracked_other; [done|apply source_frame_refl|done|].
    intros i Hne. by rewrite Hm, decide_False.
  - intros x Hx _. simplify_eq. split_and!; [done..|]. by rewrite Hm, decide_True.
Qed.

Lemma register_ready_spec entries batches cells id b key e :
  books entries (<[id := b]> batches) cells → tb_remaining_cache_entries b < two63 - 1 →
  entries !! key = Some e → entry_ready e →
  ∃ b' cells', resolve_pending_cache_entry (batch_counted b) e cells = Return (b', cells') ∧
    registered entries entries batches cells cells' id b b' key.
Proof.
  intros Hb Hlt He Hr. assert ((<[id := b]> batches) !! id = Some b) as Hid by apply lookup_insert_eq.
  destruct (books_count _ _ _ Hb id b Hid) as (Hbid & Hrem & _).
  pose proof (books_batch _ _ _ Hb id b Hid) as Hbok.
  pose proof (count_id_nonneg id (waiting_ids entries)) as Hnn.
  destruct (resolve_entry_spec (batch_counted b) e cells)
    as (b' & cells' & Heq & Hbid' & Hrem' & Hres & Hfr); [done..|].
  rewrite <- Hrem' in Hres.
  destruct (resolved_batch_ok e cells cells' (batch_counted b) b') as [Hbok' Hsrc]; [done..|].
  simpl in Hrem', Hbid'. rewrite u64_add_small, u64_sub_small in Hrem' by (rewrite ?u64_add_small; lia).
  exists b', cells'. split; [done|]. split; [|done|lia|done| |].
  - rewrite <- (insert_insert_eq batches id b' b).
    eapply books_replace; [exact Hb|done|congruence|lia|lia|done|done|done|].
    by destruct Hfr.
  - intros handle metas Hs. eapply (tracked_other _ _ _ _ _ _ _ _ b); [done| |done|done].
    by destruct Hfr.
  - intros x Hx. by simplify_eq.
Qed.

Lemma register_entry_spec entries batches cells id b key :
  books entries (<[id := b]> batches) cells → tb_remaining_cache_entries b < two63 - 1 →
  ∃ b' entries' cells',
    register_pending_cache_entry (b, entries, cells) key = Return (b', entries', cells') ∧
    registered entries entries' batches cells cells' id b b' key.
Proof.
  intros Hb Hlt. unfold register_pending_cache_entry.
  destruct (books_count _ _ _ Hb id b) as (Hbid & _); [apply lookup_insert_eq|].
  destruct (entries !! key) as [e|] eqn:He.
  2: { eexists _, _, _. split; [done|]. split; [done..|lia|done|done|congruence]. }
  destruct (decide (entry_waiting e = true)) as [Hw|Hr%entry_waiting_ready].
  - rewrite add_pending_waiting by done. cbn [mbind outcome_bind]. rewrite Hbid.
    eexists _, _, _. split; [done|]. by apply register_waiting_spec.
  - rewrite add_pending_ready by done.
    destruct (register_ready_spec entries batches cells id b key e) as (b' & cells' & -> & Hreg);
      [done..|]. cbn [mbind outcome_bind]. rewrite insert_id by done. by eexists _, _, _.
Qed.

(** All keys of a batch. *)
Lemma register_entries_spec keys entries batches cells id b :
  books entries (<[id := b]> batches) cells →
  tb_remaining_cache_entries b + zlen keys < two63 →
  ∃ b' entries' cells',
    register_pending_cache_entries b entries cells keys = Return (b', entries', cells') ∧
    books entries' (<[id := b']> batches) cells' ∧ entries_same entries entries' ∧
    (∀ src, batch_source b' = Some src → batch_source b = Some src) ∧
    (∀ handle metas, batch_source b ≠ Some (true, handle) →
       tracked handle metas entries (<[id := b]> batches) cells →
       tracked handle metas entries' (<[id := b']> batches) cells') ∧
    (∀ metas, Forall2 (λ key m, ∃ e, entries !! key = Some e ∧ ¬ entry_ready e ∧
        ce_tablet_metadata e = m) keys metas →
       tb_batch_state b' = tb_batch_state b ∧
       tb_remaining_cache_entries b' = tb_remaining_cache_entries b + zlen keys ∧
       waiting_metas id entries' ≡ₚ metas ++ waiting_metas id entries).
Proof.
  revert entries cells b. induction keys as [|key keys IH]; intros entries cells b Hb Hlt.
  { eexists _, _, _. split; [done|]. split_and!; [done..|].
    intros metas Hm. apply Forall2_nil_inv_l in Hm as ->. simpl. split_and!; [done|lia|done]. }
  rewrite length_cons, Nat2Z.inj_succ in Hlt. unfold register_pending_cache_entries. cbn [ofold].
  destruct (register_entry_spec entries batches cells id b key) as (b1 & entries1 & cells1 & -> & Hreg);
    [done|lia|]. destruct Hreg as [Hb1 Hsame Hcnt Hsrc Htr Hwait]. cbn [mbind outcome_bind].
  destruct (IH entries1 cells1 b1) as (b2 & entries2 & cells2 & Heq & Hb2 & Hsame2 & Hsrc2 & Htr2 & Hw2);
    [done|lia|].
  unfold register_pending_cache_entries in Heq. rewrite Heq.
  eexists _, _, _. split; [done|]. split_and!; [done|by etrans|auto| |].
  - intros handle metas Hs Ht. apply Htr2; [|auto]. intros Habs. by apply Hs, Hsrc.
  - intros metas (m & metas' & (e & He & Hnr & Hm) & Hall & ->)%Forall2_cons_inv_l.
    destruct (Hwait e He Hnr) as (Hst & Hrem & Hmet). destruct (Hw2 metas') as (Hst2 & Hrem2 & Hmet2).
    { eapply Forall2_impl; [exact Hall|]. intros k m' (e' & He' & Hnr' & Hm').
      specialize (Hsame k). rewrite He' in Hsame. destruct (entries1 !! k) as [e1|] eqn:E; [|done].
      destruct Hsame as [Hs1 Hs2]. exists e1. split; [done|]. unfold entry_ready in *.
      by rewrite Hs1, Hs2. }
    rewrite Hst2, Hrem2, Hmet2, Hmet, Hst, Hrem, length_cons, Nat2Z.inj_succ, Hm.
    split_and!; [done|lia|]. by rewrite <- Permutation_middle.
Qed.
End books.

(** ** The invariant of the cache *)

Section cache.
Context {T P : Type} `{HSer : !TabletDataSerializer T, HPol : !TabletDataCachePolicy P T,
  HK : !HashOrder string}.
Variable sha256 : bytes → bytes.
Variable base64 : bytes → string.
Variable good : TabletMetadata → T → Prop.

(** Eviction is limited to ready entries, as the trait requires. *)
Hypothesis Hevict : ∀ p instant capacity entries key e,
  key ∈ (evict p instant capacity entries).2 → entries !! key = Some e → entry_ready e.

Implicit Type d : DefaultTabletDataCache T P.

(** Outstanding operations belong to pending entries, and the other way around. *)
Record data_ok d : Prop := {
  data_books : books (dc_tablet_cache_entries d) (dc_tablet_batches d) (dc_cells d);
  data_good : ∀ key e, dc_tablet_cache_entries d !! key = Some e → entry_good good e;
  data_keyed : ∀ key e, dc_tablet_cache_entries d !! key = Some e →
    cache_key_from (ce_tablet_metadata e) = key;
  data_ops : ∀ id key, dc_tablet_operations d !! id = Some key →
    id ≤ dc_correlation_counter d ∧
    ∃ e, dc_tablet_cache_entries d !! key = Some e ∧ entry_waiting e = true;
  data_ops_once : ∀ id id' key, dc_tablet_operations d !! id = Some key →
    dc_tablet_operations d !! id' = Some key → id = id';
  data_pending : ∀ key e, dc_tablet_cache_entries d !! key = Some e → entry_waiting e = true →
    ∃ id, dc_tablet_operations d !! id = Some key;
  data_batch_ids : ∀ id, is_Some (dc_tablet_batches d !! id) → id ≤ dc_batch_counter d
}.

(** A load that is answered with the requested tablets. *)
Definition load_tracked d (handle : Z) (metas : list TabletMetadata) : Prop :=
  tracked good handle metas (dc_tablet_cache_entries d) (dc_tablet_batches d) (dc_cells d).

Lemma data_cache_create_ok n (p : P) : data_ok (data_cache_create n p).
Proof using.
  split; simpl; try (intros; by rewrite lookup_empty in *).
  - split; simpl.
    + intros id Hid. unfold waiting_ids in Hid. rewrite map_to_list_empty in Hid.
      by apply elem_of_nil in Hid.
    + intros id b Hb. by rewrite lookup_empty in Hb.
    + intros id b Hb. by rewrite lookup_empty in Hb.
    + intros id id' b b' src Hb. by rewrite lookup_empty in Hb.
    + split; apply no_cells_ok.
Qed.

(** *** Making progress *)

(** Dropping entries that are ready, after they were notified. *)
Lemma data_ok_dropped d policy entries' batches' cells' keys :
  data_ok d →
  (∀ key, entries' !! key = entry_notified <$> dc_tablet_cache_entries d !! key) →
  books entries' batches' cells' →
  (∀ key e, key ∈ keys → entries' !! key = Some e → entry_ready e) →
  let entries := foldl (λ entries key, delete key entries) entries' keys in
  let batches := filter (λ x, batch_is_ready x.2 = false) batches' in
  (∀ id, is_Some (batches' !! id) → id ≤ dc_batch_counter d) →
  data_ok {| dc_correlation_counter := dc_correlation_counter d;
             dc_batch_counter := dc_batch_counter d; dc_config := dc_config d;
             dc_tablet_cache_policy := policy; dc_tablet_cache_entries := entries;
             dc_tablet_batches := batches; dc_tablet_operations := dc_tablet_operations d;
             dc_out_messages := dc_out_messages d; dc_cells := cells' |} ∧
  ∀ handle metas, tracked good handle metas entries' batches' cells' →
    tracked good handle metas entries batches cells'.
Proof using.
  intros [Hb Hg Hk Ho Ho1 Hp Hi] Hlook Hb' Hready entries batches Hids.
  assert (∀ key e', entries' !! key = Some e' → ∃ e, dc_tablet_cache_entries d !! key = Some e ∧
    ce_state e' = ce_state e ∧ ce_tablet_metadata e' = ce_tablet_metadata e ∧
    (entry_ready e' → ce_tablet_batch_ids e' = [])) as Hback.
  { intros key e' He'. rewrite Hlook in He'. apply fmap_Some in He' as (e & He & ->).
    exists e. destruct (entry_notified_fields e) as (Hs & Hm & Hr). split_and!; [done..|].
    unfold entry_ready in *. by rewrite Hs. }
  assert (∀ id, waiting_metas id entries ≡ₚ waiting_metas id entries') as Hmetas.
  { intros id. apply waiting_metas_deletes. intros key e Hin He.
    destruct (Hback key e He) as (_ & _ & _ & _ & Hr). apply Hr. by eapply Hready. }
  destruct (books_filter good entries' batches' cells' Hb') as [Hb2 Ht2].
  destruct (books_entries good entries' entries batches cells' Hmetas Hb2) as [Hb3 Ht3].
  split; [|auto]. split; simpl.
  - done.
  - intros key e' [_ He']%lookup_deletes. destruct (Hback key e' He') as (e & He & Hs & Hm & _).
    unfold entry_good. rewrite Hs, Hm. by eapply Hg.
  - intros key e' [_ He']%lookup_deletes. destruct (Hback key e' He') as (e & He & _ & -> & _).
    by apply Hk.
  - intros id key Hid. destruct (Ho id key Hid) as (? & e & He & Hw). split; [done|].
    exists e. split; [|done].
    assert (entries' !! key = Some e) as He'.
    { rewrite Hlook, He. simpl. f_equal. unfold entry_notified, entry_waiting in *.
      by destruct (ce_state e). }
    apply lookup_deletes. split; [|done]. intros Hin.
    apply entry_waiting_spec in Hw. by eapply Hw, Hready.
  - done.
  - intros key e' [_ He']%lookup_deletes Hw. destruct (Hback key e' He') as (e & He & Hs & _).
    eapply Hp; [done|]. unfold entry_waiting in *. by rewrite <- Hs.
  - intros id [b [Hid _]%map_lookup_filter_Some]. apply Hids. by exists b.
Qed.

Lemma make_progress_spec d instant :
  data_ok d →
  ∃ d', data_cache_make_progress d instant = Return d' ∧ data_ok d' ∧
    dc_correlation_counter d' = dc_correlation_counter d ∧
    dc_batch_counter d' = dc_batch_counter d ∧
    dc_tablet_operations d' = dc_tablet_operations d ∧
    (∀ key e, dc_tablet_cache_entries d' !! key = Some e → entry_ready e →
       ce_tablet_batch_ids e = []) ∧
    ∀ handle metas, load_tracked d handle metas → load_tracked d' handle metas.
Proof using HK HPol Hevict.
  intros Hd. unfold data_cache_make_progress. set (entries := dc_tablet_cache_entries d).
  assert (∀ x, x ∈ hash_iter entries ↔ entries !! x.1 = Some x.2) as Hin.
  { intros [k e]. by rewrite hash_iter_perm, elem_of_map_to_list. }
  destruct (notify_entries_spec good (hash_iter entries) entries (dc_tablet_batches d) (dc_cells d) [])
    as (entries1 & batches1 & cells1 & -> & Hb1 & Hdom & Hlook & Htr1); [apply Hd| | |].
  { rewrite hash_iter_perm. apply NoDup_fst_map_to_list. }
  { apply Forall_forall. intros x Hx%Hin. split; [done|]. by eapply (data_good d Hd). }
  assert (∀ key, entries1 !! key = entry_notified <$> entries !! key) as Hlook1.
  { intros key. rewrite Hlook. destruct (entries !! key) as [e|] eqn:E; [|by case_decide].
    rewrite decide_True; [done|]. apply list_elem_of_fmap. exists (key, e). split; [done|].
    by apply Hin. }
  cbn [mbind outcome_bind app].
  set (failed := (filter _ (hash_iter entries)).*1).
  assert (∀ key e, key ∈ failed → entries1 !! key = Some e → entry_ready e) as Hfailed.
  { intros key e ([k x] & -> & [Hx Hkx%Hin]%list_elem_of_filter)%list_elem_of_fmap Hkey.
    simpl in *. rewrite Hlook1, Hkx in Hkey. injection Hkey as <-.
    unfold entry_ready, entry_failed in *. destruct (entry_notified_fields x) as (-> & _).
    by destruct (ce_state x). }
  destruct (evict _ _ _ (foldl _ entries1 failed)) as [policy evicted] eqn:Ev.
  rewrite <- foldl_app.
  destruct (data_ok_dropped d policy entries1 batches1 cells1 (failed ++ evicted)) as [Hd' Ht'].
  { done. }
  { done. }
  { done. }
  { intros key e Hin' Hkey. destruct (decide (key ∈ failed)) as [Hf|Hf]; [by eapply Hfailed|].
    apply elem_of_app in Hin' as [?|He]; [done|].
    eapply (Hevict (dc_tablet_cache_policy d)); [|by apply lookup_deletes]. by rewrite Ev. }
  { intros id Hid. apply (data_batch_ids d Hd). apply elem_of_dom. rewrite <- Hdom.
    by apply elem_of_dom. }
  eexists. split; [done|]. split_and!; [exact Hd'|done..| |].
  - intros key e [_ He]%lookup_deletes Hr. rewrite Hlook1 in He.
    apply fmap_Some in He as (x & _ & ->). apply entry_notified_fields.
    unfold entry_ready in *. by rewrite (proj1 (entry_notified_fields x)) in Hr.
  - intros handle metas Ht. by apply Ht', Htr1.
Qed.

(** *** New entries and batches *)

Lemma insert_entry_ok d key make e request :
  data_ok d → dc_tablet_cache_entries d !! key = None →
  make (dc_correlation_counter d +₆₄ 1) = (e, request) → ce_tablet_batch_ids e = [] →
  entry_waiting e = true → entry_good good e → cache_key_from (ce_tablet_metadata e) = key →
  0 ≤ dc_correlation_counter d < two64 - 1 →
  data_ok (insert_entry d key make) ∧
  dc_correlation_counter (insert_entry d key make) = dc_correlation_counter d + 1 ∧
  dc_tablet_cache_entries (insert_entry d key make) = <[key := e]> (dc_tablet_cache_entries d) ∧
  dc_batch_counter (insert_entry d key make) = dc_batch_counter d ∧
  ∀ handle metas, load_tracked d handle metas → load_tracked (insert_entry d key make) handle metas.
Proof using.
  intros [Hb Hg Hk Ho Ho1 Hp Hi] Hnone Hmake Hids Hw Hgood Hkey Hn. unfold insert_entry.
  rewrite Hmake. rewrite u64_add_small by lia. simpl.
  destruct (books_entries good (dc_tablet_cache_entries d) (<[key := e]> (dc_tablet_cache_entries d))
    (dc_tablet_batches d) (dc_cells d)) as [Hb' Ht'].
  { intros id. rewrite waiting_metas_insert, delete_id by done. unfold entry_metas. by rewrite Hids. }
  { done. }
  split_and!; [|done..]. split; simpl.
  - done.
  - intros k x [[<- <-]|[_ Hx]]%lookup_insert_Some; [done|by eapply Hg].
  - intros k x [[<- <-]|[_ Hx]]%lookup_insert_Some; [done|by eapply Hk].
  - intros id k [[<- <-]|[_ Hx]]%lookup_insert_Some.
    + split; [lia|]. exists e. by rewrite lookup_insert_eq.
    + destruct (Ho id k Hx) as (? & x & Hk' & ?). split; [lia|]. exists x.
      rewrite lookup_insert_ne; [done|]. congruence.
  - intros id id' k [[<- <-]|[Hne Hx]]%lookup_insert_Some [[<- Hk']|[Hne' Hx']]%lookup_insert_Some;
      [done| | |by eapply Ho1].
    + destruct (Ho id' key Hx') as (_ & x & ? & _). congruence.
    + subst k. destruct (Ho id key Hx) as (_ & x & ? & _). congruence.
  - intros k x [[<- <-]|[Hne Hx]]%lookup_insert_Some Hwx.
    + eexists. by rewrite lookup_insert_eq.
    + destruct (Hp k x Hx Hwx) as [id Hid]. exists id. rewrite lookup_insert_ne; [done|].
      intros <-. destruct (Ho _ _ Hid) as [? _]. lia.
  - done.
Qed.

(** A new batch and its cell. *)
Record new_batch (cells cells' : DataCells T) (id : Z) (b : TabletBatch T) : Prop := {
  new_batch_id : tb_batch_id b = id;
  new_batch_count : tb_remaining_cache_entries b = 0;
  new_batch_ok : batch_ok cells' b;
  new_batch_others : ∀ b', batch_ok cells b' → batch_ok cells' b' ∧
    ∀ src, batch_source b' = Some src → batch_source b ≠ Some src;
  new_batch_cells : data_cells_ok cells';
  new_batch_results : ∀ a x, check_result (dc_load_cells cells) a = Some x →
    check_result (dc_load_cells cells') a = Some x;
  new_batch_handle : ∀ a x, check_result (dc_load_cells cells) a = Some x →
    batch_source b ≠ Some (true, a)
}.

Lemma batch_with_load_state_new id (cells : DataCells T) :
  data_cells_ok cells →
  let '(b, cells', handle) := batch_with_load_state id cells in
  new_batch cells cells' id b ∧ tb_batch_state b = BatchLoad [] handle.
Proof using.
  intros [Hl Hs]. unfold batch_with_load_state. simpl. split; [|done].
  assert (∀ a, is_Some (cells_map (dc_load_cells cells) !! a) → a ≠ cells_next (dc_load_cells cells))
    as Hne by (intros a Ha; specialize (Hl a Ha); lia).
  assert (∀ a x, check_result (dc_load_cells cells) a = Some x →
    is_Some (cells_map (dc_load_cells cells) !! a)) as Hsome.
  { intros a x Hx. unfold check_result in Hx. by destruct (cells_map _ !! a); [eexists|]. }
  split; simpl; [done|done| | | | |].
  - unfold batch_ok, cell_unset. simpl. apply lookup_insert_eq.
  - intros b' Hb'. unfold batch_ok, batch_source, cell_unset in *.
    destruct (tb_batch_state b') as [l s|s| |]; simpl; split; try done.
    + rewrite lookup_insert_ne; [done|]. apply not_eq_sym, Hne. by eexists.
    + intros src [= <-] [= Heq]. eapply (Hne s); [by eexists|done].
    + by intros src [= <-].
  - split; [|done]. by apply alloc_cell_ok.
  - intros a x Hx. unfold check_result in *. simpl. rewrite lookup_insert_ne; [done|].
    apply not_eq_sym, Hne. by eapply Hsome.
  - intros a x Hx. unfold batch_source. simpl. intros [= Heq]. eapply (Hne a); [by eapply Hsome|done].
Qed.

Lemma batch_with_store_state_new id (cells : DataCells T) :
  data_cells_ok cells →
  let '(b, cells', handle) := batch_with_store_state id cells in
  new_batch cells cells' id b ∧ tb_batch_state b = BatchStore handle.
Proof using.
  intros [Hl Hs]. unfold batch_with_store_state. simpl. split; [|done].
  assert (∀ a, is_Some (cells_map (dc_store_cells cells) !! a) → a ≠ cells_next (dc_store_cells cells))
    as Hne by (intros a Ha; specialize (Hs a Ha); lia).
  split; simpl; [done|done| | | |done|done].
  - unfold batch_ok, cell_unset. simpl. apply lookup_insert_eq.
  - intros b' Hb'. unfold batch_ok, batch_source, cell_unset in *.
    destruct (tb_batch_state b') as [l s|s| |]; simpl; split; try done.
    + by intros src [= <-].
    + rewrite lookup_insert_ne; [done|]. apply not_eq_sym, Hne. by eexists.
    + intros src [= <-] [= Heq]. eapply (Hne s); [by eexists|done].
  - split; [done|]. by apply alloc_cell_ok.
Qed.

Lemma books_new_batch entries batches cells cells' id (b : TabletBatch T) :
  books entries batches cells → new_batch cells cells' id b → batches !! id = None →
  books entries (<[id := b]> batches) cells' ∧
  ∀ handle metas, tracked good handle metas entries batches cells →
    tracked good handle metas entries (<[id := b]> batches) cells' ∧
    batch_source b ≠ Some (true, handle).
Proof using.
  intros [Hk Hc Hb Hs Hok] Hnew Hnone. split; [split|].
  - intros i Hi. apply lookup_insert_is_Some'. right. by apply Hk.
  - intros i x [[<- <-]|[_ Hx]]%lookup_insert_Some; [|by apply Hc].
    split; [apply Hnew|]. rewrite (new_batch_count _ _ _ _ Hnew). split; [|lia].
    destruct (decide (id ∈ waiting_ids entries)) as [Hin|Hin].
    + apply Hk in Hin as [? ?]. congruence.
    + rewrite count_id_elem in Hin. pose proof (count_id_nonneg id (waiting_ids entries)). lia.
  - intros i x [[<- <-]|[_ Hx]]%lookup_insert_Some; [apply Hnew|].
    by apply (new_batch_others _ _ _ _ Hnew), (Hb i).
  - intros i i' x x' src [[<- <-]|[Hne Hx]]%lookup_insert_Some
      [[<- <-]|[Hne' Hx']]%lookup_insert_Some H1 H2; [done|..|by eapply Hs].
    + by destruct (proj2 (new_batch_others _ _ _ _ Hnew x' (Hb _ _ Hx')) src H2).
    + by destruct (proj2 (new_batch_others _ _ _ _ Hnew x (Hb _ _ Hx)) src H1).
  - apply Hnew.
  - intros handle metas [i x loaded Hi Hx Hpos Hg Hp|loaded Hl Hg Hp|Hf].
    + split.
      * apply (TrackedBatch _ _ _ _ _ _ i x loaded); [|done..].
        rewrite lookup_insert_ne; [done|]. congruence.
      * apply (new_batch_others _ _ _ _ Hnew x (Hb _ _ Hi)). unfold batch_source. by rewrite Hx.
    + split; [eapply TrackedLoaded; [by eapply (new_batch_results _ _ _ _ Hnew)|done..]|].
      by eapply (new_batch_handle _ _ _ _ Hnew).
    + split; [by eapply TrackedFailed, (new_batch_results _ _ _ _ Hnew)|].
      by eapply (new_batch_handle _ _ _ _ Hnew).
Qed.

(** A batch that needs nothing more is not kept. *)
Lemma books_settled entries batches cells id (b : TabletBatch T) :
  books entries (<[id := b]> batches) cells → batches !! id = None →
  let batches' := if batch_is_ready b then batches else <[id := b]> batches in
  books entries batches' cells ∧
  ∀ handle metas, tracked good handle metas entries (<[id := b]> batches) cells →
    tracked good handle metas entries batches' cells.
Proof using.
  intros Hb Hnone. unfold batch_is_ready. case_bool_decide as Hr; [|done].
  destruct Hb as [Hk Hc Hb Hs Hok].
  assert (∀ i x, batches !! i = Some x → (<[id := b]> batches) !! i = Some x) as Hin.
  { intros i x Hx. rewrite lookup_insert_ne; [done|]. congruence. }
  split; [split|]; simpl.
  - intros i Hi. destruct (Hk i Hi) as [x [[<- <-]|[_ Hx]]%lookup_insert_Some]; [|by exists x].
    destruct (Hc id b) as (_ & Hcnt & _); [apply lookup_insert_eq|].
    apply count_id_elem in Hi. lia.
  - intros i x Hx. by apply Hc, Hin.
  - intros i x Hx. by eapply Hb, Hin.
  - intros i i' x x' src Hx Hx'. by apply Hs; apply Hin.
  - done.
  - intros handle metas [i x loaded Hi Hx Hpos Hg Hp|loaded Hl Hg Hp|Hf].
    + apply lookup_insert_Some in Hi as [[<- <-]|[_ Hi]]; [lia|].
      by apply (TrackedBatch _ _ _ _ _ _ i x loaded).
    + by eapply TrackedLoaded.
    + by apply TrackedFailed.
Qed.

Lemma start_batch_spec d make keys b0 cells0 handle :
  data_ok d → make (dc_batch_counter d + 1) (dc_cells d) = (b0, cells0, handle) →
  new_batch (dc_cells d) cells0 (dc_batch_counter d + 1) b0 →
  0 ≤ dc_batch_counter d < two64 - 1 → zlen keys < two63 →
  ∃ d', start_batch d make keys = Return (d', handle) ∧ data_ok d' ∧
    dc_correlation_counter d' = dc_correlation_counter d ∧
    dc_batch_counter d' = dc_batch_counter d + 1 ∧
    entries_same (dc_tablet_cache_entries d) (dc_tablet_cache_entries d') ∧
    (∀ h metas, load_tracked d h metas → load_tracked d' h metas) ∧
    (∀ metas, tb_batch_state b0 = BatchLoad [] handle → keys ≠ [] →
       Forall2 (λ key m, ∃ e, dc_tablet_cache_entries d !! key = Some e ∧ ¬ entry_ready e ∧
         ce_tablet_metadata e = m) keys metas → load_tracked d' handle metas).
Proof using.
  intros Hd Hmake Hnew Hn Hlen. unfold start_batch. rewrite u64_add_small by lia.
  set (id := dc_batch_counter d + 1) in *. rewrite Hmake.
  assert (dc_tablet_batches d !! id = None) as Hnone.
  { apply eq_None_not_Some. intros Hi%(data_batch_ids d Hd). lia. }
  destruct (books_new_batch _ _ _ _ _ _ (data_books d Hd) Hnew Hnone) as [Hb0 Ht0].
  pose proof (new_batch_count _ _ _ _ Hnew) as Hc0.
  destruct (register_entries_spec good keys (dc_tablet_cache_entries d) (dc_tablet_batches d)
    cells0 id b0) as (b & entries & cells & -> & Hb & Hsame & _ & Ht & Hw); [done|lia|].
  cbn [mbind outcome_bind].
  destruct (books_settled entries (dc_tablet_batches d) cells id b Hb Hnone) as [Hb' Ht'].
  eexists. split; [done|]. split_and!; [|done|done|done| |]; simpl.
  - assert (∀ key e', entries !! key = Some e' → ∃ e, dc_tablet_cache_entries d !! key = Some e ∧
      ce_state e' = ce_state e ∧ ce_tablet_metadata e' = ce_tablet_metadata e) as Hback.
    { intros key e' He'. specialize (Hsame key). rewrite He' in Hsame.
      destruct (dc_tablet_cache_entries d !! key) as [e|]; [|done]. by exists e. }
    destruct Hd as [_ Hg Hk Ho Ho1 Hp Hi]. split; simpl; [done|..].
    + intros key e' He'. destruct (Hback key e' He') as (e & He & Hs & Hm). unfold entry_good.
      rewrite Hs, Hm. by eapply Hg.
    + intros key e' He'. destruct (Hback key e' He') as (e & He & _ & ->). by apply Hk.
    + intros i key Hi'. destruct (Ho i key Hi') as (? & e & He & Hwt). split; [done|].
      specialize (Hsame key). rewrite He in Hsame. destruct (entries !! key) as [e'|]; [|done].
      exists e'. split; [done|]. unfold entry_waiting in *. by destruct Hsame as [-> _].
    + done.
    + intros key e' He' Hwt. destruct (Hback key e' He') as (e & He & Hs & _).
      eapply Hp; [done|]. unfold entry_waiting in *. by rewrite <- Hs.
    + intros i. destruct (batch_is_ready b); [|rewrite lookup_insert_is_Some'; intros [<-|Hx]]; [..|].
      * intros Hx. specialize (Hi i Hx). lia.
      * lia.
      * specialize (Hi i Hx). lia.
  - intros h metas Hh. apply Ht'. destruct (Ht0 h metas Hh) as [? ?]. by apply Ht.
  - intros metas Hst Hne Hall. destruct (Hw metas Hall) as (Hstb & Hrem & Hmet).
    assert (zlen keys ≠ 0) by (destruct keys; simpl; [done|lia]). rewrite Hc0 in Hrem.
    apply Ht', (TrackedBatch _ _ _ _ _ _ id b []);
      [by rewrite lookup_insert_eq|by rewrite Hstb|lia|constructor|]. rewrite Hmet.
    enough (waiting_metas id (dc_tablet_cache_entries d) = []) as -> by by rewrite app_nil_r.
    apply nil_length_inv, Nat2Z.inj. rewrite waiting_metas_length.
    destruct (books_count _ _ _ Hb0 id b0) as (_ & <- & _); [apply lookup_insert_eq|done].
Qed.

(** *** Loading *)

(** An entry that waits to be loaded. *)
Definition loading_entry (m : TabletMetadata) : TabletCacheEntry T :=
  {| ce_tablet_metadata := m; ce_state := EntryLoad; ce_tablet_batch_ids := [] |}.

Lemma load_tablet_ok d m :
  data_ok d → 0 ≤ dc_correlation_counter d < two64 - 1 →
  let d' := load_tablet d m in
  data_ok d' ∧
  dc_correlation_counter d ≤ dc_correlation_counter d' ≤ dc_correlation_counter d + 1 ∧
  dc_batch_counter d' = dc_batch_counter d ∧
  dc_tablet_cache_entries d'
  = match dc_tablet_cache_entries d !! cache_key_from m with
    | Some _ => dc_tablet_cache_entries d
    | None => <[cache_key_from m := loading_entry m]> (dc_tablet_cache_entries d)
    end ∧
  ∀ h metas, load_tracked d h metas → load_tracked d' h metas.
Proof using.
  intros Hd Hn. unfold load_tablet.
  destruct (dc_tablet_cache_entries d !! cache_key_from m) eqn:E.
  { split_and!; [done|lia|lia|done..]. }
  destruct (insert_entry_ok d (cache_key_from m) (λ id, entry_with_load_state id m)
    (loading_entry m) (LoadRequest (dc_correlation_counter d +₆₄ 1)
      {| ltq_blob_uri := tm_blob_uri m |})) as (? & ? & ? & ? & ?); [done..|].
  split_and!; [done|lia|lia|done..].
Qed.

Lemma load_tablets_fold metas d :
  data_ok d → 0 ≤ dc_correlation_counter d → dc_correlation_counter d + zlen metas < two64 →
  let d' := foldl load_tablet d metas in
  data_ok d' ∧
  dc_correlation_counter d ≤ dc_correlation_counter d' ≤ dc_correlation_counter d + zlen metas ∧
  dc_batch_counter d' = dc_batch_counter d ∧
  (∀ key e, dc_tablet_cache_entries d !! key = Some e → dc_tablet_cache_entries d' !! key = Some e) ∧
  (∀ key e, dc_tablet_cache_entries d' !! key = Some e → dc_tablet_cache_entries d !! key = Some e ∨
     ∃ m, m ∈ metas ∧ key = cache_key_from m ∧ e = loading_entry m) ∧
  (∀ m, m ∈ metas → is_Some (dc_tablet_cache_entries d' !! cache_key_from m)) ∧
  ∀ h ms, load_tracked d h ms → load_tracked d' h ms.
Proof using.
  revert d. induction metas as [|m metas IH]; intros d Hd H0 Hlen; cbn [foldl].
  { split_and!; [done|lia|simpl; lia|done|done|by left|by intros m ?%elem_of_nil|done]. }
  rewrite length_cons, Nat2Z.inj_succ in *.
  destruct (load_tablet_ok d m) as (Hd1 & Hc1 & Hn1 & He1 & Ht1); [done|lia|].
  destruct (IH (load_tablet d m)) as (Hd2 & Hc2 & Hn2 & Hkeep & Hnew & Hall & Ht2); [done|lia..|].
  assert (is_Some (dc_tablet_cache_entries (load_tablet d m) !! cache_key_from m)) as [x Hx].
  { rewrite He1. destruct (dc_tablet_cache_entries d !! cache_key_from m) eqn:E.
    - by eexists.
    - by rewrite lookup_insert_eq. }
  split_and!; [done|lia|lia|congruence|..|auto].
  - intros key e He. apply Hkeep. rewrite He1.
    destruct (dc_tablet_cache_entries d !! cache_key_from m) eqn:E; [done|].
    rewrite lookup_insert_ne; [done|]. congruence.
  - intros key e [He|(m' & ? & ? & ?)]%Hnew; [|right; exists m'; split; [by right|done]].
    rewrite He1 in He. destruct (dc_tablet_cache_entries d !! cache_key_from m) eqn:E; [by left|].
    apply lookup_insert_Some in He as [[<- <-]|[_ He]]; [|by left].
    right. exists m. split; [by left|done].
  - intros m' [->|Hm']%elem_of_cons; [|auto]. exists x. by apply Hkeep.
Qed.

(** None of the tablets is ready, and different tablets have different blobs. *)
Definition load_fresh d (metas : list TabletMetadata) : Prop :=
  metas ≠ [] ∧
  (∀ m e, m ∈ metas → dc_tablet_cache_entries d !! cache_key_from m = Some e →
     ¬ entry_ready e ∧ ce_tablet_metadata e = m) ∧
  (∀ m m', m ∈ metas → m' ∈ metas → cache_key_from m = cache_key_from m' → m = m').

Lemma load_tablets_spec d metas :
  data_ok d → 0 ≤ dc_correlation_counter d → dc_correlation_counter d + zlen metas < two64 →
  0 ≤ dc_batch_counter d < two64 - 1 → zlen metas < two63 →
  ∃ d' handle, data_cache_load_tablets d metas = Return (d', handle) ∧ data_ok d' ∧
    dc_correlation_counter d ≤ dc_correlation_counter d' ≤ dc_correlation_counter d + zlen metas ∧
    dc_batch_counter d' = dc_batch_counter d + 1 ∧
    (∀ h ms, load_tracked d h ms → load_tracked d' h ms) ∧
    (load_fresh d metas → load_tracked d' handle metas).
Proof using.
  intros Hd H0 Hlen Hbc Hlen'. unfold data_cache_load_tablets.
  destruct (load_tablets_fold metas d) as (Hd1 & Hc1 & Hn1 & Hkeep & Hnew & Hall & Ht1); [done..|].
  set (d1 := foldl load_tablet d metas) in *.
  pose proof (batch_with_load_state_new (dc_batch_counter d1 + 1) (dc_cells d1)
    (books_cells _ _ _ (data_books d1 Hd1))) as Hnb.
  destruct (batch_with_load_state _ (dc_cells d1)) as [[b0 cells0] handle] eqn:Eb.
  destruct Hnb as [Hnb Hst].
  destruct (start_batch_spec d1 batch_with_load_state (cache_key_from <$> metas) b0 cells0 handle)
    as (d' & -> & Hd' & Hc' & Hn' & _ & Ht' & Hnewt); [done..|lia|by rewrite length_fmap|].
  exists d', handle. split_and!; [done|done|lia|lia|lia|auto|].
  intros (Hne & Hfr & Hinj). apply Hnewt; [done| |].
  { by destruct metas. }
  apply Forall2_fmap_l.
  apply Forall_Forall2_diag, Forall_forall. intros m Hm. simpl.
  destruct (Hall m Hm) as [e He]. exists e. split; [done|].
  destruct (Hnew _ _ He) as [He0|(m' & Hm' & Hk & ->)].
  - by apply Hfr.
  - split; [by intros []|]. simpl. by apply Hinj.
Qed.

(** *** Storing *)

Lemma store_tablets_fold xs d :
  data_ok d → 0 ≤ dc_correlation_counter d → dc_correlation_counter d + zlen xs < two64 →
  NoDup ((λ x, cache_key_from x.1.1) <$> xs) →
  Forall (λ x, dc_tablet_cache_entries d !! cache_key_from x.1.1 = None ∧ good x.1.1 x.1.2) xs →
  ∃ d', ofold store_tablet d xs = Return d' ∧ data_ok d' ∧
    dc_correlation_counter d ≤ dc_correlation_counter d' ≤ dc_correlation_counter d + zlen xs ∧
    dc_batch_counter d' = dc_batch_counter d ∧
    ∀ h ms, load_tracked d h ms → load_tracked d' h ms.
Proof using.
  revert d. induction xs as [|[[m v] contents] xs IH]; intros d Hd H0 Hlen Hnd Hall; cbn [ofold].
  { exists d. split_and!; [done|done|lia|simpl; lia|done|done]. }
  rewrite fmap_cons in Hnd. apply NoDup_cons in Hnd as [Hni Hnd].
  inversion_clear Hall as [|? ? [Hnone Hg] Hall']. simpl in Hnone, Hg.
  rewrite length_cons, Nat2Z.inj_succ in *.
  assert (store_tablet d (m, v, contents) = Return (insert_entry d (cache_key_from m)
    (λ id, entry_with_store_state id m v contents))) as ->.
  { unfold store_tablet. by rewrite Hnone. }
  cbn [mbind outcome_bind].
  edestruct (insert_entry_ok d (cache_key_from m)
    (λ id, entry_with_store_state id m v contents)) as (Hd1 & Hc1 & He1 & Hn1 & Ht1);
    [done|done|reflexivity|done|done|exact Hg|done|lia|].
  destruct (IH (insert_entry d (cache_key_from m) (λ id, entry_with_store_state id m v contents)))
    as (d' & -> & Hd' & Hc' & Hn' & Ht'); [done|lia|lia|done| |].
  { rewrite Forall_forall in Hall' |- *. intros y Hy. destruct (Hall' y Hy) as [Hy1 Hy2].
    split; [|done]. rewrite He1, lookup_insert_ne; [done|]. intros Heq. apply Hni.
    apply list_elem_of_fmap. by exists y. }
  exists d'. split_and!; [done|done|lia|lia|congruence|auto].
Qed.

Lemma prepare_tablet_writes_length data metas contents :
  prepare_tablet_writes sha256 base64 data = (metas, Ok contents) →
  length metas = length data ∧ length contents = length data.
Proof using.
  revert metas contents. induction data as [|[m v] data IH]; intros metas contents; simpl.
  { by intros [= <- <-]. }
  destruct (prepare_tablet_write sha256 base64 m v) as [[m' c]|?]; [|done].
  destruct (prepare_tablet_writes sha256 base64 data) as [ms [cs|?]]; simpl; [|done].
  intros [= <- <-]. destruct (IH ms cs eq_refl). simpl. lia.
Qed.

(** Writes of good data under new blob names. *)
Definition store_ok d (data : list (TabletMetadata * T)) : Prop :=
  match prepare_tablet_writes sha256 base64 data with
  | (metas, Ok _) =>
      NoDup (cache_key_from <$> metas) ∧
      Forall (λ m, dc_tablet_cache_entries d !! cache_key_from m = None) metas ∧
      Forall2 good metas data.*2
  | (_, Err _) => True
  end.

Lemma zip3_keys (metas : list TabletMetadata) (vs : list T) (contents : list bytes) :
  length vs = length metas → length contents = length metas →
  (λ x, cache_key_from x.1.1) <$> zip (zip metas vs) contents = cache_key_from <$> metas.
Proof using.
  revert vs contents. induction metas as [|m metas IH]; intros [|v vs] [|c contents] H1 H2;
    simplify_eq/=; [done|]. f_equal. by apply IH.
Qed.

Lemma zip3_Forall (Q : TabletMetadata → Prop) metas vs (contents : list bytes) :
  Forall Q metas → Forall2 good metas vs →
  Forall (λ x, Q x.1.1 ∧ good x.1.1 x.1.2) (zip (zip metas vs) contents).
Proof using.
  intros HQ Hg. revert contents. induction Hg as [|m v metas vs Hmv Hg IH]; intros contents; [done|].
  inversion_clear HQ. destruct contents as [|c contents]; constructor; [done|]. by apply IH.
Qed.

Lemma store_tablets_spec d data :
  data_ok d → 0 ≤ dc_correlation_counter d → dc_correlation_counter d + zlen data < two64 →
  0 ≤ dc_batch_counter d < two64 - 1 → zlen data < two63 → store_ok d data →
  ∃ d' metas handle, data_cache_store_tablets sha256 base64 d data = Return (d', metas, handle) ∧
    data_ok d' ∧
    dc_correlation_counter d ≤ dc_correlation_counter d' ≤ dc_correlation_counter d + zlen data ∧
    dc_batch_counter d ≤ dc_batch_counter d' ≤ dc_batch_counter d + 1 ∧
    ∀ h ms, load_tracked d h ms → load_tracked d' h ms.
Proof using.
  intros Hd H0 Hlen Hbc Hlen' Hok. unfold data_cache_store_tablets, store_ok in *.
  destruct (prepare_tablet_writes sha256 base64 data) as [metas [contents|?]] eqn:Ep.
  - destruct Hok as (Hnd & Hnone & Hgood).
    apply prepare_tablet_writes_length in Ep as [Hl1 Hl2].
    destruct (store_tablets_fold (zip (zip metas data.*2) contents) d)
      as (d1 & -> & Hd1 & Hc1 & Hn1 & Ht1).
    { done. }
    { done. }
    { rewrite !length_zip_with, length_fmap. lia. }
    { rewrite zip3_keys; rewrite ?length_fmap; done || lia. }
    { by apply (zip3_Forall (λ m, dc_tablet_cache_entries d !! cache_key_from m = None)). }
    rewrite !length_zip_with, length_fmap in Hc1. cbn [mbind outcome_bind].
    pose proof (batch_with_store_state_new (dc_batch_counter d1 + 1) (dc_cells d1)
      (books_cells _ _ _ (data_books d1 Hd1))) as Hnb.
    destruct (batch_with_store_state _ (dc_cells d1)) as [[b0 cells0] handle] eqn:Eb.
    destruct Hnb as [Hnb Hst].
    destruct (start_batch_spec d1 batch_with_store_state (cache_key_from <$> metas) b0 cells0 handle)
      as (d' & -> & Hd' & Hc' & Hn' & _ & Ht' & _); [done..|lia|rewrite length_fmap; lia|].
    cbn [mbind outcome_bind]. eexists _, _, _. split_and!; [done|done|lia..|auto].
  - eexists _, _, _. split_and!; [done| |simpl; lia..|].
    + destruct Hd as [[Hk Hc Hb Hs [Hl Hst]] Hg Hky Ho Ho1 Hp Hi]. split; [|done..].
      split; simpl; [done..| |done|split; [done|by apply alloc_cell_ok]].
      intros i b Hib. specialize (Hb i b Hib). unfold batch_ok, cell_unset in *. simpl.
      destruct (tb_batch_state b) as [?|s| |]; try done.
      rewrite lookup_insert_ne; [done|]. specialize (Hst s ltac:(by eexists)). lia.
    + intros h ms [i x loaded Hi Hx Hpos Hg Hp|loaded Hl Hg Hp|Hf].
      * by apply (TrackedBatch _ _ _ _ _ _ i x loaded).
      * by apply (TrackedLoaded _ _ _ _ _ _ loaded).
      * by apply TrackedFailed.
Qed.

(** *** Responses *)

(** A response of the kind the entry waits for, with a known status and good data. *)
Definition response_ok d (in_message : TabletDataCacheInMessage) : Prop :=
  let correlation_id :=
    match in_message with LoadResponse id _ _ | StoreResponse id _ => id end in
  ∀ key e, dc_tablet_operations d !! correlation_id = Some key →
    dc_tablet_cache_entries d !! key = Some e →
    match in_message, ce_state e with
    | LoadResponse _ response contents, EntryLoad =>
        ltr_status response = 1 ∨ ltr_status response = 2 ∧
          ∀ v, deserialize "todo" contents = Ok v → good (ce_tablet_metadata e) v
    | StoreResponse _ response, EntryStore _ => str_status response = 1 ∨ str_status response = 2
    | _, _ => False
    end.

Lemma process_in_message_spec d in_message :
  data_ok d → response_ok d in_message →
  ∃ d', data_cache_process_in_message d in_message = Return d' ∧ data_ok d' ∧
    dc_correlation_counter d' = dc_correlation_counter d ∧
    dc_batch_counter d' = dc_batch_counter d ∧
    ∀ h ms, load_tracked d h ms → load_tracked d' h ms.
Proof using.
  intros Hd Hr. unfold data_cache_process_in_message, response_ok in *.
  set (id := match in_message with LoadResponse id _ _ | StoreResponse id _ => id end) in *.
  destruct (dc_tablet_operations d !! id) as [key|] eqn:Eo; [|by exists d].
  destruct (data_ops d Hd id key Eo) as (Hid & e & He & Hw). rewrite He. cbn [unwrap mbind outcome_bind].
  specialize (Hr key e eq_refl He).
  assert (∃ state, match in_message with
      | LoadResponse _ response contents =>
          process_load_response e response (prepare_tablet_read contents)
      | StoreResponse _ response => process_store_response e response
      end = Return (entry_with_state e state) ∧ entry_waiting (entry_with_state e state) = false ∧
      entry_good good (entry_with_state e state)) as (state & -> & Hready & Hgood).
  { pose proof (data_good d Hd key e He) as Hg. unfold entry_good in *.
    destruct in_message as [i response contents|i response];
      unfold process_load_response, process_store_response, prepare_tablet_read in *.
    - destruct (ce_state e); try done. destruct Hr as [->|[-> Hv]]; simpl; [by eexists|].
      destruct (deserialize "todo" contents) eqn:Ed; eexists; split_and!; try done. by apply Hv.
    - destruct (ce_state e); try done. by destruct Hr as [-> | ->]; simpl; eexists. }
  cbn [mbind outcome_bind]. set (e' := entry_with_state e state) in *.
  destruct (books_entries good (dc_tablet_cache_entries d) (<[key := e']> (dc_tablet_cache_entries d))
    (dc_tablet_batches d) (dc_cells d)) as [Hb' Ht']; [|apply Hd|].
  { intros i. by rewrite waiting_metas_insert, (waiting_metas_lookup i (dc_tablet_cache_entries d) key e). }
  destruct Hd as [Hb Hg Hk Ho Ho1 Hp Hi]. eexists. split; [done|]. split_and!; [|done|done|apply Ht'].
  split; simpl; [done|..].
  - intros k x [[<- <-]|[_ Hx]]%lookup_insert_Some; [done|by eapply Hg].
  - intros k x [[<- <-]|[_ Hx]]%lookup_insert_Some; [by apply (Hk key e)|by eapply Hk].
  - intros i k [Hne Hik]%lookup_delete_Some. destruct (Ho i k Hik) as (? & x & Hx & ?).
    split; [done|]. exists x. split; [|done]. rewrite lookup_insert_ne; [done|].
    intros <-. apply Hne. by eapply Ho1.
  - intros i i' k [_ ?]%lookup_delete_Some [_ ?]%lookup_delete_Some. by eapply Ho1.
  - intros k x [[<- <-]|[Hne Hx]]%lookup_insert_Some Hwx; [congruence|].
    destruct (Hp k x Hx Hwx) as [i Hik]. exists i. apply lookup_delete_Some. split; [|done].
    intros <-. congruence.
  - done.
Qed.

(** ** Runs *)

Inductive DataOp :=
| OpDataMakeProgress (instant : Z)
| OpLoadTablets (tablets_metadata : list TabletMetadata)
| OpStoreTablets (tablets_data : list (TabletMetadata * T))
| OpDataInMessage (in_message : TabletDataCacheInMessage)
| OpDataTakeOut.

Definition run_data_op d (op : DataOp) : outcome (DefaultTabletDataCache T P) :=
  match op with
  | OpDataMakeProgress instant => data_cache_make_progress d instant
  | OpLoadTablets metas => '(d, _) ← data_cache_load_tablets d metas; Return d
  | OpStoreTablets data => '(d, _, _) ← data_cache_store_tablets sha256 base64 d data; Return d
  | OpDataInMessage in_message => data_cache_process_in_message d in_message
  | OpDataTakeOut => Return (data_cache_take_out_messages d).1
  end.

(** The calls as the coordinator makes them, within the range of the counters. *)
Definition data_op_ok d (op : DataOp) : Prop :=
  match op with
  | OpDataMakeProgress _ | OpDataTakeOut => True
  | OpLoadTablets metas => zlen metas < two63 ∧
      dc_correlation_counter d + zlen metas < two64 ∧ dc_batch_counter d < two64 - 1
  | OpStoreTablets data => zlen data < two63 ∧
      dc_correlation_counter d + zlen data < two64 ∧ dc_batch_counter d < two64 - 1 ∧
      store_ok d data
  | OpDataInMessage in_message => response_ok d in_message
  end.

Definition data_inv d : Prop :=
  data_ok d ∧ 0 ≤ dc_correlation_counter d ∧ 0 ≤ dc_batch_counter d.

Lemma run_data_op_spec d op :
  data_inv d → data_op_ok d op →
  ∃ d', run_data_op d op = Return d' ∧ data_inv d' ∧
    ∀ h ms, load_tracked d h ms → load_tracked d' h ms.
Proof using HK HPol Hevict.
  intros (Hd & H1 & H2) Hop. unfold data_inv.
  destruct op as [instant|metas|data|msg|]; simpl in *.
  - destruct (make_progress_spec d instant Hd) as (d' & -> & ? & ? & ? & _ & _ & ?). exists d'.
    split_and!; [done|done|lia|lia|done].
  - destruct Hop as (? & ? & ?).
    destruct (load_tablets_spec d metas) as (d' & h & -> & ? & ? & ? & ? & _); [done|lia..|].
    exists d'. split_and!; [done|done|lia|lia|done].
  - destruct Hop as (? & ? & ? & ?).
    destruct (store_tablets_spec d data) as (d' & ms & h & -> & ? & ? & ? & ?); [done|lia..|done|].
    exists d'. split_and!; [done|done|lia|lia|done].
  - destruct (process_in_message_spec d msg Hd Hop) as (d' & -> & ? & ? & ? & ?). exists d'.
    split_and!; [done|done|lia|lia|done].
  - eexists. split_and!; [done| |done|done|done]. by destruct Hd.
Qed.

(** Caches reached by such calls. *)
Inductive data_reachable (d0 : DefaultTabletDataCache T P) : DefaultTabletDataCache T P → Prop :=
| DataReachedStart : data_reachable d0 d0
| DataReachedStep d op d' : data_reachable d0 d → data_op_ok d op → run_data_op d op = Return d' →
    data_reachable d0 d'.

Lemma data_reachable_inv d0 d :
  data_inv d0 → data_reachable d0 d →
  data_inv d ∧ ∀ h ms, load_tracked d0 h ms → load_tracked d h ms.
Proof using HK HPol Hevict.
  intros H0. induction 1 as [|d op d' Hd IH Hop Hrun]; [done|]. destruct IH as [IH Ht].
  destruct (run_data_op_spec d op IH Hop) as (d1 & Hrun' & Hd1 & Ht1).
  rewrite Hrun in Hrun'. injection Hrun' as <-. split; [done|]. auto.
Qed.

(** * Claims *)

(** C21: The data cache never panics.  In every cache reached from a new one by loads,
    stores of new blobs, responses that match what was asked and progress, every such
    call returns; an entry is pending exactly when one operation is outstanding for
    it, and a batch counts exactly the entries it still waits for. *)
Theorem data_cache_safe n (p : P) d :
  0 ≤ n → data_reachable (data_cache_create n p) d →
  (∀ op, data_op_ok d op → ∃ d', run_data_op d op = Return d') ∧
  (∀ key e, dc_tablet_cache_entries d !! key = Some e →
     (entry_waiting e = true ↔ ∃ id, dc_tablet_operations d !! id = Some key ∧
        ∀ id', dc_tablet_operations d !! id' = Some key → id' = id)) ∧
  (∀ id b, dc_tablet_batches d !! id = Some b →
     tb_remaining_cache_entries b = count_id id (waiting_ids (dc_tablet_cache_entries d))).
Proof using HK HPol Hevict.
  intros Hn Hr. destruct (data_reachable_inv (data_cache_create n p) d) as [Hinv _]; [|done|].
  { split; [apply data_cache_create_ok|done]. }
  pose proof (proj1 Hinv) as Hd. split_and!.
  - intros op Hop. destruct (run_data_op_spec d op Hinv Hop) as (d' & ? & _). by exists d'.
  - intros key e He. split.
    + intros Hw. destruct (data_pending d Hd key e He Hw) as [id Hid]. exists id. split; [done|].
      intros id' Hid'. by eapply (data_ops_once d Hd).
    + intros (id & Hid & _). destruct (data_ops d Hd id key Hid) as (_ & e' & He' & ?). congruence.
  - intros id b Hb. by apply (books_count _ _ _ (data_books d Hd)).
Qed.

(** C23: A load returns what was asked for.  When tablets with distinct blobs are loaded
    while none of them is in the cache, then in every cache reached later the result
    of the load, if it succeeded, holds exactly the requested tablets, each with data
    that came from the storage or from a store. *)
Theorem loaded_batch_complete n (p : P) d metas d1 handle d2 loaded :
  0 ≤ n → data_reachable (data_cache_create n p) d → data_op_ok d (OpLoadTablets metas) →
  load_fresh d metas → data_cache_load_tablets d metas = Return (d1, handle) →
  data_reachable d1 d2 → check_result (dc_load_cells (dc_cells d2)) handle = Some (Ok loaded) →
  loaded.*1 ≡ₚ metas ∧ Forall (λ x, good x.1 x.2) loaded.
Proof using HK HPol Hevict.
  intros Hn Hr (Hop1 & Hop2 & Hop3) Hfresh Hload Hr2 Hres.
  destruct (data_reachable_inv (data_cache_create n p) d) as [(Hd & Hc & Hb) _]; [|done|].
  { split; [apply data_cache_create_ok|done]. }
  destruct (load_tablets_spec d metas) as (d1' & h & Heq & Hd1 & Hc1 & Hb1 & _ & Ht); [done|lia..|].
  rewrite Hload in Heq. injection Heq as <- <-.
  destruct (data_reachable_inv d1 d2) as [(Hd2 & _) Ht2]; [by split_and!; [|lia|lia]|done|].
  destruct (Ht2 _ _ (Ht Hfresh)) as [id b l Hid Hst _ _ _|l Hl Hg Hp|Hf].
  - pose proof (books_batch _ _ _ (data_books d2 Hd2) id b Hid) as Hbok.
    unfold batch_ok in Hbok. rewrite Hst in Hbok. unfold check_result in Hres.
    by rewrite Hbok in Hres.
  - simplify_eq. done.
  - congruence.
Qed.

(** C39: Loads are answered.  When all operations that were outstanding have been answered,
    the next progress answers every load that was made of uncached tablets. *)
Theorem load_answered n (p : P) d metas d1 handle d2 instant d3 :
  0 ≤ n → data_reachable (data_cache_create n p) d → data_op_ok d (OpLoadTablets metas) →
  load_fresh d metas → data_cache_load_tablets d metas = Return (d1, handle) →
  data_reachable d1 d2 → dc_tablet_operations d2 = ∅ →
  data_cache_make_progress d2 instant = Return d3 →
  is_Some (check_result (dc_load_cells (dc_cells d3)) handle).
Proof using HK HPol Hevict.
  intros Hn Hr (Hop1 & Hop2 & Hop3) Hfresh Hload Hr2 Hops Hprog.
  destruct (data_reachable_inv (data_cache_create n p) d) as [(Hd & Hc & Hb) _]; [|done|].
  { split; [apply data_cache_create_ok|done]. }
  destruct (load_tablets_spec d metas) as (d1' & h & Heq & Hd1 & Hc1 & Hb1 & _ & Ht); [done|lia..|].
  rewrite Hload in Heq. injection Heq as <- <-.
  destruct (data_reachable_inv d1 d2) as [(Hd2 & _) Ht2]; [by split_and!; [|lia|lia]|done|].
  destruct (make_progress_spec d2 instant Hd2) as (d3' & Hp3 & Hd3 & _ & _ & Ho3 & Hq3 & Ht3).
  rewrite Hprog in Hp3. injection Hp3 as <-.
  destruct (Ht3 _ _ (Ht2 _ _ (Ht Hfresh))) as [id b l Hid Hst Hpos _ _|l Hl _ _|Hf]; [|by eexists..].
  exfalso. destruct (books_count _ _ _ (data_books d3 Hd3) id b Hid) as (_ & Hcnt & _).
  rewrite Hcnt in Hpos. apply count_id_elem in Hpos. unfold waiting_ids in Hpos.
  apply list_elem_of_bind in Hpos as (e & Hide & ([key e'] & -> & Hin)%list_elem_of_fmap).
  apply elem_of_map_to_list in Hin. simpl in Hide.
  destruct (decide (entry_waiting e' = true)) as [Hw|Hw%entry_waiting_ready].
  - destruct (data_pending d3 Hd3 key e' Hin Hw) as [i Hi]. by rewrite Ho3, Hops, lookup_empty in Hi.
  - rewrite (Hq3 key e' Hin Hw) in Hide. by apply elem_of_nil in Hide.
Qed.
End cache.

Section roundtrip.
Context {T P : Type} `{HSer : !TabletDataSerializer T, HPol : !TabletDataCachePolicy P T,
  HK : !HashOrder string}.
Variable sha256 : bytes → bytes.
Variable base64 : bytes → string.

(** Loading one tablet that is in the cache is answered at once. *)
Lemma load_cached_single (d : DefaultTabletDataCache T P) m e v :
  dc_tablet_cache_entries d !! cache_key_from m = Some e → ce_state e = EntryCache v →
  ∃ d' handle, data_cache_load_tablets d [m] = Return (d', handle) ∧
    check_result (dc_load_cells (dc_cells d')) handle = Some (Ok [(ce_tablet_metadata e, v)]) ∧
    dc_out_messages d' = dc_out_messages d.
Proof using.
  intros He Hst. unfold data_cache_load_tablets. cbn [foldl fmap list_fmap map].
  unfold load_tablet. rewrite He. unfold start_batch, register_pending_cache_entries. simpl.
  rewrite He. rewrite add_pending_ready by (unfold entry_ready; by rewrite Hst).
  unfold resolve_pending_cache_entry. rewrite Hst. simpl.
  rewrite set_result_unset.
  2: { unfold cell_unset. simpl. apply lookup_insert_eq. }
  simpl. eexists _, _. split; [done|]. simpl. split; [|done].
  unfold check_result. simpl. by rewrite lookup_insert_eq.
Qed.

(** After a store its entry holds the value, under the new metadata. *)
Lemma store_single (d : DefaultTabletDataCache T P) m v contents d1 m' handle :
  serialize v = Ok contents →
  data_cache_store_tablets sha256 base64 d [(m, v)] = Return (d1, [m'], handle) →
  prepare_tablet_write sha256 base64 m v = Ok (m', contents) ∧
  ∃ e, dc_tablet_cache_entries d1 !! cache_key_from m' = Some e ∧
    ce_state e = EntryStore v ∧ ce_tablet_metadata e = m'.
Proof using.
  intros Hser Hstore. unfold data_cache_store_tablets, prepare_tablet_writes in Hstore.
  assert (∃ mm, prepare_tablet_write sha256 base64 m v = Ok (mm, contents)) as [mm Hp].
  { unfold prepare_tablet_write. rewrite Hser. by eexists. }
  rewrite Hp in Hstore. cbn [zip_with fmap list_fmap map mbind result_bind ofold store_tablet fst snd]
    in Hstore.
  destruct (dc_tablet_cache_entries d !! cache_key_from mm) eqn:E; [done|].
  cbn [mbind outcome_bind] in Hstore. unfold start_batch, register_pending_cache_entries in Hstore.
  simpl in Hstore. rewrite lookup_insert_eq in Hstore. rewrite add_pending_waiting in Hstore by done.
  simpl in Hstore. injection Hstore as <- <- <-. split; [done|]. simpl.
  eexists. rewrite lookup_insert_eq. by split.
Qed.

(** C40: What was stored is read back.  Storing a tablet under a new blob name raises its
    version by one; once the storage has confirmed it, loading the new version returns
    the stored data at once and sends no request. *)
Theorem stored_then_loaded (d : DefaultTabletDataCache T P) m v contents d1 m' handle id response d2 :
  serialize v = Ok contents →
  data_cache_store_tablets sha256 base64 d [(m, v)] = Return (d1, [m'], handle) →
  dc_tablet_operations d1 !! id = Some (tm_blob_uri m') → str_status response = 2 →
  data_cache_process_in_message d1 (StoreResponse id response) = Return d2 →
  tm_tablet_id m' = tm_tablet_id m ∧ tm_tablet_version m' = tm_tablet_version m +₃₂ 1 ∧
  ∃ d3 handle', data_cache_load_tablets d2 [m'] = Return (d3, handle') ∧
    check_result (dc_load_cells (dc_cells d3)) handle' = Some (Ok [(m', v)]) ∧
    dc_out_messages d3 = dc_out_messages d2.
Proof using.
  intros Hser Hstore Hop Hst Hproc.
  destruct (store_single d m v contents d1 m' handle Hser Hstore) as (Hp & e & He & Hes & Hem).
  unfold prepare_tablet_write in Hp. rewrite Hser in Hp. injection Hp as Hm'.
  split_and!; [by rewrite <- Hm'..|]. clear Hm'.
  unfold data_cache_process_in_message in Hproc. rewrite Hop in Hproc.
  unfold cache_key_from in He. rewrite He in Hproc. cbn [unwrap mbind outcome_bind] in Hproc.
  unfold process_store_response in Hproc. rewrite Hes, Hst in Hproc. simpl in Hproc.
  injection Hproc as Hd2.
  destruct (load_cached_single d2 m' (entry_with_state e (EntryCache v)) v)
    as (d3 & h & Hl & Hc & Ho); [by rewrite <- Hd2; apply lookup_insert_eq|done|].
  exists d3, h. split_and!; [exact Hl| |exact Ho]. rewrite Hc. simpl. by rewrite Hem.
Qed.
End roundtrip.

(** Blob names are unique.  Tablets of different id, version or content hash get
    different blob uris, as the base64 encoding is injective. *)
Theorem format_blob_uri_inj base64 tablet_id version hash tablet_id' version' hash' :
  Inj (=) (=) base64 → in_u32 tablet_id → in_u32 version → in_u32 tablet_id' → in_u32 version' →
  format_blob_uri base64 tablet_id version hash = format_blob_uri base64 tablet_id' version' hash' →
  tablet_id = tablet_id' ∧ version = version' ∧ hash = hash'.
Proof. intros Hb [? _] [? _] [? _] [? _]. by apply format_blob_uri_inj_lemma. Qed.

(** ** What modelling showed *)

(** A load or store of no tablets is never answered: no batch is kept for it. *)
Lemma empty_load_unanswered {T P} (d : DefaultTabletDataCache T P) :
  0 ≤ dc_batch_counter d < two64 - 1 →
  ∃ d' handle, data_cache_load_tablets d [] = Return (d', handle) ∧
    check_result (dc_load_cells (dc_cells d')) handle = None ∧
    dc_tablet_batches d' = dc_tablet_batches d ∧
    dc_tablet_operations d' = dc_tablet_operations d.
Proof.
  intros Hn. eexists _, _. split; [done|]. split_and!; [|done|done].
  unfold check_result. simpl. by rewrite lookup_insert_eq.
Qed.

Lemma empty_store_unanswered {T P} `{!TabletDataSerializer T} sha256 base64
    (d : DefaultTabletDataCache T P) :
  ∃ d' handle, data_cache_store_tablets sha256 base64 d [] = Return (d', [], handle) ∧
    check_result (dc_store_cells (dc_cells d')) handle = None ∧
    dc_tablet_batches d' = dc_tablet_batches d.
Proof.
  eexists _, _. split; [done|]. split; [|done].
  unfold check_result. simpl. by rewrite lookup_insert_eq.
Qed.

(** ** Concrete instances *)

#[local] Instance data_sample_order : HashOrder string := default_hash_order string.

Definition data_sample_tablet (id version : Z) (uri : string) : TabletMetadata :=
  {| tm_tablet_id := id; tm_tablet_version := version; tm_deleted := false;
     tm_blob_encryption_key := []; tm_blob_size := 0; tm_blob_hash := [x00]; tm_blob_uri := uri |}.

Definition data_sample_sha (b : bytes) : bytes := b.

Abbreviation sample_data_cache := (data_cache_create (T:=bytes) 0 ()).

#[local] Instance string_of_list_byte_Inj : Inj (=) (=) String.string_of_list_byte.
Proof.
  intros a b H. apply (f_equal String.list_byte_of_string) in H.
  by rewrite !String.list_byte_of_string_of_list_byte in H.
Qed.

Abbreviation sample_run := (run_data_op data_sample_sha String.string_of_list_byte
  (T:=bytes) (P:=unit)).

Definition sample_metas : list TabletMetadata :=
  [data_sample_tablet 1 3 "a"; data_sample_tablet 2 5 "b"].

Definition loaded_of (d : DefaultTabletDataCache bytes unit) (handle : Z)
    : option (result TabletDataStorageStatus (list (TabletMetadata * bytes))) :=
  check_result (dc_load_cells (dc_cells d)) handle.

(** Loading two tablets of which the first is cached is answered with the first only. *)
Example load_answered_early :
  ∃ d, ofold sample_run sample_data_cache
    [ OpLoadTablets [data_sample_tablet 1 3 "a"];
      OpDataInMessage (LoadResponse 1 {| ltr_status := 2 |} [x07]);
      OpDataMakeProgress 1; OpLoadTablets sample_metas ] = Return d ∧
    loaded_of d 1 = Some (Ok [(data_sample_tablet 1 3 "a", [x07])]) ∧
    dc_tablet_operations d !! 2 = Some "b".
Proof. eexists. split; [by vm_compute|]. by vm_compute. Qed.

(** New tablets of the store have no blob yet: their uris are equal, and loading two of
    them gives the first one twice. *)
Example new_tablets_share_entry :
  ∃ d, ofold sample_run sample_data_cache
    [ OpLoadTablets [default_tablet 1; default_tablet 2];
      OpDataInMessage (LoadResponse 1 {| ltr_status := 2 |} []);
      OpDataMakeProgress 1 ] = Return d ∧
    loaded_of d 0 = Some (Ok [(default_tablet 1, []); (default_tablet 1, [])]).
Proof. eexists. split; by vm_compute. Qed.

(** The contents a storage returns are not compared with the hash in the metadata. *)
Example loaded_contents_unverified :
  ∃ d, ofold sample_run sample_data_cache
    [ OpLoadTablets [data_sample_tablet 1 3 "a"];
      OpDataInMessage (LoadResponse 1 {| ltr_status := 2 |} [x07; x07]);
      OpDataMakeProgress 1 ] = Return d ∧
    loaded_of d 0 = Some (Ok [(data_sample_tablet 1 3 "a", [x07; x07])]) ∧
    data_sample_sha [x07; x07] ≠ tm_blob_hash (data_sample_tablet 1 3 "a").
Proof. eexists. split; [by vm_compute|]. by vm_compute. Qed.

(** *** Witnesses *)

Abbreviation any_data := (λ (_ : TabletMetadata) (_ : bytes), True).

Lemma sample_evict (p : unit) instant capacity (entries : gmap string (TabletCacheEntry bytes)) key e :
  key ∈ (evict p instant capacity entries).2 → entries !! key = Some e → entry_ready e.
Proof. by intros ?%elem_of_nil. Qed.

Abbreviation sample_reachable := (data_reachable data_sample_sha String.string_of_list_byte any_data).

Lemma data_cache_safe_witness :
  ∃ d', sample_run sample_data_cache (OpLoadTablets sample_metas) = Return d'.
Proof.
  destruct (data_cache_safe data_sample_sha String.string_of_list_byte any_data sample_evict 0 ()
    sample_data_cache) as (H & _ & _); [done|apply DataReachedStart|].
  apply H. split_and!; done.
Defined.

(** The cache after asking for both tablets. *)
Definition sample_asked : DefaultTabletDataCache bytes unit :=
  match data_cache_load_tablets sample_data_cache sample_metas with
  | Return (d, _) => d | Panic => sample_data_cache end.

Lemma sample_load_fresh : load_fresh sample_data_cache sample_metas.
Proof.
  split_and!; [done|..].
  - intros m e _ He. simpl in He. by rewrite lookup_empty in He.
  - intros m m' Hm Hm' Heq. unfold sample_metas in Hm, Hm'.
    rewrite !elem_of_cons, elem_of_nil in Hm, Hm'.
    destruct Hm as [->|[->|[]]], Hm' as [->|[->|[]]]; done.
Qed.

Definition sample_responses : list (DataOp (T:=bytes)) :=
  [ OpDataInMessage (LoadResponse 2 {| ltr_status := 2 |} [x02]);
    OpDataInMessage (LoadResponse 1 {| ltr_status := 2 |} [x01]) ].

Definition sample_step (d : DefaultTabletDataCache bytes unit) (op : DataOp) :
    DefaultTabletDataCache bytes unit :=
  match sample_run d op with Return d => d | Panic => d end.

Definition sample_answered : DefaultTabletDataCache bytes unit :=
  foldl sample_step sample_asked sample_responses.

Lemma sample_answered_reachable : sample_reachable sample_asked sample_answered.
Proof.
  set (o1 := OpDataInMessage (T:=bytes) (LoadResponse 2 {| ltr_status := 2 |} [x02])).
  set (o2 := OpDataInMessage (T:=bytes) (LoadResponse 1 {| ltr_status := 2 |} [x01])).
  apply (DataReachedStep _ _ _ _ (sample_step sample_asked o1) o2).
  - apply (DataReachedStep _ _ _ _ sample_asked o1); [apply DataReachedStart| |by vm_compute].
    intros key e Hop He. vm_compute in Hop. injection Hop as <-. vm_compute in He.
    injection He as <-. right. done.
  - intros key e Hop He. vm_compute in Hop. injection Hop as <-. vm_compute in He.
    injection He as <-. right. done.
  - by vm_compute.
Qed.

Lemma load_answered_witness :
  ∃ d3, data_cache_make_progress sample_answered 1 = Return d3 ∧ is_Some (loaded_of d3 0).
Proof.
  destruct (data_cache_make_progress sample_answered 1) as [d3|] eqn:E; [|by vm_compute in E].
  exists d3. split; [done|].
  apply (load_answered data_sample_sha String.string_of_list_byte any_data sample_evict 0 ()
    sample_data_cache sample_metas sample_asked 0 sample_answered 1 d3); try done.
  - apply DataReachedStart.
  - apply sample_load_fresh.
  - apply sample_answered_reachable.
Defined.

Lemma loaded_batch_complete_witness :
  ∃ d3 loaded, data_cache_make_progress sample_answered 1 = Return d3 ∧
    loaded_of d3 0 = Some (Ok loaded) ∧ loaded.*1 ≡ₚ sample_metas.
Proof.
  destruct (data_cache_make_progress sample_answered 1) as [d3|] eqn:E; [|by vm_compute in E].
  assert (sample_reachable sample_asked d3) as Hr.
  { apply (DataReachedStep _ _ _ _ sample_answered (OpDataMakeProgress 1));
      [apply sample_answered_reachable|done|exact E]. }
  vm_compute in E. injection E as <-.
  eexists _, _. split; [done|]. split; [by vm_compute|].
  eapply (loaded_batch_complete data_sample_sha String.string_of_list_byte any_data sample_evict 0 ()
    sample_data_cache sample_metas sample_asked 0); [done|apply DataReachedStart|done|
    apply sample_load_fresh|done|exact Hr|by vm_compute].
Defined.

Lemma stored_then_loaded_witness :
  ∃ d1 m' handle d2 d3 handle',
    data_cache_store_tablets data_sample_sha String.string_of_list_byte sample_data_cache
      [(data_sample_tablet 1 3 "a", [x07])] = Return (d1, [m'], handle) ∧
    data_cache_process_in_message d1 (StoreResponse 1 {| str_status := 2 |}) = Return d2 ∧
    tm_tablet_version m' = 4 ∧
    data_cache_load_tablets d2 [m'] = Return (d3, handle') ∧
    loaded_of d3 handle' = Some (Ok [(m', [x07])]).
Proof.
  destruct (data_cache_store_tablets data_sample_sha String.string_of_list_byte sample_data_cache
    [(data_sample_tablet 1 3 "a", [x07])]) as [[[d1 [|m' [|? ?]]] handle]|] eqn:E1;
    try (by vm_compute in E1).
  assert (dc_tablet_operations d1 !! 1 = Some (tm_blob_uri m')) as Hop.
  { vm_compute in E1. injection E1 as <- <- <-. by vm_compute. }
  destruct (data_cache_process_in_message d1 (StoreResponse 1 {| str_status := 2 |}))
    as [d2|] eqn:E2.
  2: { vm_compute in E1. injection E1 as <- <- <-. by vm_compute in E2. }
  destruct (stored_then_loaded data_sample_sha String.string_of_list_byte sample_data_cache
    (data_sample_tablet 1 3 "a") [x07] [x07] d1 m' handle 1 {| str_status := 2 |} d2)
    as (_ & Hv & d3 & handle' & Hl & Hc & _); [done|exact E1|exact Hop|done|exact E2|].
  exists d1, m', handle, d2, d3, handle'. split_and!; [done|exact E2| |exact Hl|exact Hc].
  rewrite Hv. by vm_compute.
Defined.

Lemma format_blob_uri_inj_witness :
  format_blob_uri String.string_of_list_byte 1 23 [x05] ≠ format_blob_uri String.string_of_list_byte 12 3 [x05].
Proof.
  intros Heq. destruct (format_blob_uri_inj String.string_of_list_byte 1 23 [x05] 12 3 [x05])
    as [H _]; [apply _|done..|exact Heq|]. done.
Defined.
