(* ===== verification/Coordinator.v ===== *)
(** * The transaction coordinator

    [src/apps/tablet_cache/service/src/transaction/coordinator.rs]: a transaction resolves,
    loads, processes and stores tablets, turns what it read and wrote into checks and
    updates, and is completed by the results of the tablet store.  The caches are the
    interfaces of the sources' traits. *)

From S2P Require Import Prelude TabletStore CacheTypes MetadataCache DataCache.

Inductive TabletTransactionCoordinatorInMessage :=
| CoordinatorOpsResponse (correlation_id : Z) (tablet_op_results : list TabletOpResult).

Inductive TabletTransactionCoordinatorOutMessage :=
| CoordinatorOpsRequest (correlation_id : Z) (tablet_ops : list TabletOp).

(** The id of the tablet in the upper, its version in the lower half. *)
Definition create_tablet_key (metadata : TabletMetadata) : Z :=
  Z.lor (Z.shiftl (tm_tablet_id metadata) 32 `mod` two64) (tm_tablet_version metadata).

(** ** Tablets of a transaction *)

Record TabletState (T : Type) := {
  ts_query : TableQuery;
  ts_tablet : Tablet T
}.
Arguments Build_TabletState {T}.
Arguments ts_query {T}.
Arguments ts_tablet {T}.

Section tablet_state.
Context {T : Type}.

Definition tablet_state_create (query : TableQuery) (metadata : TabletMetadata) : TabletState T :=
  {| ts_query := query; ts_tablet := tablet_create metadata |}.

(** [tablet_mut] lends the tablet; what comes back replaces it. *)
Definition ts_with_tablet (ts : TabletState T) (tablet : Tablet T) : TabletState T :=
  {| ts_query := ts_query ts; ts_tablet := tablet |}.

Definition tablet_init (ts : TabletState T) (data : T) : TabletState T :=
  ts_with_tablet ts (tablet_with_contents (Some data) (ts_tablet ts)).

(** The updated contents, which are taken from the tablet, with its metadata. *)
Definition tablet_prepare (ts : TabletState T) : TabletState T * option (TabletMetadata * T) :=
  let '(tablet, updated) := tablet_take_updated_contents (ts_tablet ts) in
  (ts_with_tablet ts tablet,
   match updated with
   | Some updated_contents => Some (tb_metadata tablet, updated_contents)
   | None => None
   end).

Definition get_tablet_op (ts : TabletState T) : TabletOp :=
  let tablet_metadata := tb_metadata (ts_tablet ts) in
  let op :=
    if tb_is_dirty (ts_tablet ts) then UpdateTablet (Some tablet_metadata)
    else CheckTablet (tm_tablet_id tablet_metadata) (tm_tablet_version tablet_metadata) in
  {| to_table_name := tq_table_name (ts_query ts); to_op := Some op |}.
End tablet_state.

(** ** Committing *)

Record CommittingTabletTransactionState := { cts_tablet_ops : list TabletOp }.

(** One pair of an operation and its result. *)
Definition complete_op
    (st : TabletTransactionOutcome * list (string * TabletMetadata * bool))
    (x : TabletOp * TabletOpResult)
    : outcome (TabletTransactionOutcome * list (string * TabletMetadata * bool)) :=
  let '(transaction_outcome, metadata_to_update_cache) := st in
  let '(tablet_op, tablet_op_result) := x in
  let op_succeeded := bool_decide (tor_status tablet_op_result = TabletOpSucceeded) in
  let transaction_outcome :=
    if op_succeeded then transaction_outcome else TransactionFailed in
  match to_op tablet_op, tor_op_result tablet_op_result with
  | Some (CheckTablet _ _), Some (CheckTabletResult existing_tablet) =>
      if op_succeeded then Return (transaction_outcome, metadata_to_update_cache)
      else
        existing_tablet ← unwrap existing_tablet;
        Return (transaction_outcome,
                metadata_to_update_cache ++ [(to_table_name tablet_op, existing_tablet, true)])
  | Some (UpdateTablet tablet_metadata), Some (UpdateTabletResult existing_tablet) =>
      if op_succeeded then
        tablet_metadata ← unwrap tablet_metadata;
        Return (transaction_outcome,
                metadata_to_update_cache ++ [(to_table_name tablet_op, tablet_metadata, false)])
      else
        existing_tablet ← unwrap existing_tablet;
        Return (transaction_outcome,
                metadata_to_update_cache ++ [(to_table_name tablet_op, existing_tablet, true)])
  | _, _ => Panic
  end.

Definition committing_complete (s : CommittingTabletTransactionState)
    (tablet_op_results : list TabletOpResult)
    : outcome (TabletTransactionOutcome * list (string * TabletMetadata * bool)) :=
  ofold complete_op (TransactionSucceeded, []) (zip (cts_tablet_ops s) tablet_op_results).

(** ** Preparing *)

Section coordinator.
Context {W T M D : Type} `{HM : !TabletMetadataCache W M, HD : !TabletDataCache D T,
  HO : !HashOrder Z}.

Inductive TabletProcessStatus :=
| ProcessPending (queries : list TableQuery)
| ProcessResolving (resolve_result : Z)
| ProcessLoading (load_result : Z)
| ProcessStoring (store_result : Z)
| ProcessCompleted
| ProcessFailed.

Record TabletProcessState := {
  ps_status : TabletProcessStatus;
  ps_handler : ProcessHandler W T;
  ps_tablets : gmap Z (TabletState T)
}.

Record PreparingTabletTransactionState := {
  pts_transaction_id : Z;
  pts_process_requests : list TabletProcessState
}.

Inductive PreparingTabletTransactionOutcome :=
| PreparingSucceeded (tablet_ops : list TabletOp)
| PreparingFailed.

Definition preparing_create (transaction_id : Z) : PreparingTabletTransactionState :=
  {| pts_transaction_id := transaction_id; pts_process_requests := [] |}.

Definition ps_with (p : TabletProcessState) (status : TabletProcessStatus)
    (tablets : gmap Z (TabletState T)) : TabletProcessState :=
  {| ps_status := status; ps_handler := ps_handler p; ps_tablets := tablets |}.

(** Assignments to the states under their keys, one after the other. *)
Definition insert_states (tablets : gmap Z (TabletState T)) (l : list (Z * TabletState T))
    : gmap Z (TabletState T) :=
  foldl (λ tablets x, <[x.1 := x.2]> tablets) tablets l.

(** Starts to track the resolved tablets. *)
Definition track_resolved (tablets : gmap Z (TabletState T))
    (resolve_values : list (TableQuery * TabletMetadata)) : gmap Z (TabletState T) :=
  insert_states tablets
    ((λ x, (create_tablet_key x.2, tablet_state_create x.1 x.2)) <$> resolve_values).

(** Sets the loaded data in the state of one tablet. *)
Definition init_loaded (tablets : gmap Z (TabletState T)) (x : TabletMetadata * T)
    : outcome (gmap Z (TabletState T)) :=
  ts ← unwrap (tablets !! create_tablet_key x.1);
  Return (<[create_tablet_key x.1 := tablet_init ts x.2]> tablets).

(** The tablets as the handler left them. *)
Definition put_back (tablets : gmap Z (TabletState T)) (refs : list (Z * TabletState T))
    (lent : list (Tablet T)) : gmap Z (TabletState T) :=
  insert_states tablets (zip_with (λ x t, (x.1, ts_with_tablet x.2 t)) refs lent).

(** The loop that prepares each tablet: its key, its state afterwards and what it has to
    write. *)
Definition prepare_states (tablets : gmap Z (TabletState T))
    : list (Z * (TabletState T * option (TabletMetadata * T))) :=
  (λ x, (x.1, tablet_prepare x.2)) <$> hash_iter tablets.

(** The tablets with something to write. *)
Definition states_to_write (prepared : list (Z * (TabletState T * option (TabletMetadata * T))))
    : list (Z * TabletState T * (TabletMetadata * T)) :=
  omap (λ x, w ← x.2.2; Some (x.1, x.2.1, w)) prepared.

(** The updates of the metadata that the data cache made in place. *)
Definition put_metadata (tablets : gmap Z (TabletState T))
    (written : list (Z * TabletState T * (TabletMetadata * T))) (metadata : list TabletMetadata)
    : gmap Z (TabletState T) :=
  insert_states tablets
    (zip_with (λ x m, (x.1.1, ts_with_tablet x.1.2 (tablet_with_metadata m (ts_tablet x.1.2))))
       written metadata).

(** The branch of a successful load: the handler runs and its writes are stored. *)
Definition process_loaded (transaction_id : Z) (p : TabletProcessState) (d : D) (w : W)
    (load_values : list (TabletMetadata * T)) : outcome (TabletProcessState * D * W) :=
  tablets ← ofold init_loaded (ps_tablets p) load_values;
  let refs := hash_iter tablets in
  '(w, lent) ← ps_handler p transaction_id
                 ((λ x, (ts_query x.2, ts_tablet x.2)) <$> refs) w;
  let tablets := put_back tablets refs lent in
  let prepared := prepare_states tablets in
  let tablets := insert_states tablets ((λ x, (x.1, x.2.1)) <$> prepared) in
  let written := states_to_write prepared in
  '(d, metadata, store_result) ← dci_store_tablets d written.*2;
  Return (ps_with p (ProcessStoring store_result) (put_metadata tablets written metadata), d, w).

(** One round of the loop of [make_progress]. *)
Definition advance_process (transaction_id : Z) (p : TabletProcessState) (m : M) (d : D) (w : W)
    : outcome (TabletProcessState * M * D * W) :=
  match ps_status p with
  | ProcessPending process_queries =>
      '(m, w, resolve_result) ← mci_resolve_tablets m w process_queries;
      Return (ps_with p (ProcessResolving resolve_result) (ps_tablets p), m, d, w)
  | ProcessResolving resolve_result =>
      match mci_check_result (W:=W) m resolve_result with
      | Some (Ok resolve_values) =>
          '(d, load_result) ← dci_load_tablets d resolve_values.*2;
          Return (ps_with p (ProcessLoading load_result)
                    (track_resolved (ps_tablets p) resolve_values), m, d, w)
      | Some (Err _) => Return (ps_with p ProcessFailed (ps_tablets p), m, d, w)
      | None => Return (p, m, d, w)
      end
  | ProcessLoading load_result =>
      match dci_check_load d load_result with
      | Some (Ok load_values) =>
          '(p, d, w) ← process_loaded transaction_id p d w load_values;
          Return (p, m, d, w)
      | Some (Err _) => Return (ps_with p ProcessFailed (ps_tablets p), m, d, w)
      | None => Return (p, m, d, w)
      end
  | ProcessStoring store_result =>
      match dci_check_store d store_result with
      | Some (Ok _) => Return (ps_with p ProcessCompleted (ps_tablets p), m, d, w)
      | Some (Err _) => Return (ps_with p ProcessFailed (ps_tablets p), m, d, w)
      | None => Return (p, m, d, w)
      end
  | ProcessCompleted | ProcessFailed => Return (p, m, d, w)
  end.

Fixpoint advance_processes (transaction_id : Z) (ps : list TabletProcessState)
    (m : M) (d : D) (w : W) : outcome (list TabletProcessState * M * D * W) :=
  match ps with
  | [] => Return ([], m, d, w)
  | p :: ps =>
      '(p, m, d, w) ← advance_process transaction_id p m d w;
      '(ps, m, d, w) ← advance_processes transaction_id ps m d w;
      Return (p :: ps, m, d, w)
  end.

Definition preparing_make_progress (s : PreparingTabletTransactionState) (m : M) (d : D) (w : W)
    : outcome (PreparingTabletTransactionState * M * D * W) :=
  '(ps, m, d, w) ← advance_processes (pts_transaction_id s) (pts_process_requests s) m d w;
  Return ({| pts_transaction_id := pts_transaction_id s; pts_process_requests := ps |}, m, d, w).

Definition init_pending (s : PreparingTabletTransactionState) (queries : list TableQuery)
    (handler : ProcessHandler W T) : PreparingTabletTransactionState :=
  {| pts_transaction_id := pts_transaction_id s;
     pts_process_requests := pts_process_requests s
       ++ [{| ps_status := ProcessPending queries; ps_handler := handler; ps_tablets := ∅ |}] |}.

(** Anything but a completed process counts as active. *)
Definition process_active (p : TabletProcessState) : bool :=
  match ps_status p with ProcessCompleted => false | _ => true end.

Definition is_active (s : PreparingTabletTransactionState) : bool :=
  existsb process_active (pts_process_requests s).

Definition process_failed (p : TabletProcessState) : bool :=
  match ps_status p with ProcessFailed => true | _ => false end.

(** The operations of a process, in the order of its tablets. *)
Definition process_ops (p : TabletProcessState) : list TabletOp :=
  get_tablet_op <$> (hash_iter (ps_tablets p)).*2.

Definition preparing_complete (s : PreparingTabletTransactionState)
    : PreparingTabletTransactionOutcome :=
  if existsb process_failed (pts_process_requests s) then PreparingFailed
  else PreparingSucceeded (pts_process_requests s ≫= process_ops).

(** ** The coordinator *)

Inductive TabletTransactionState :=
| TransactionPreparing (transaction_state : PreparingTabletTransactionState)
| TransactionCommitting (transaction_state : CommittingTabletTransactionState)
| TransactionCompleted (transaction_outcome : TabletTransactionOutcome).

Record DefaultTabletTransactionCoordinator := {
  co_correlation_counter : Z;
  co_transaction_counter : Z;
  co_transactions : gmap Z TabletTransactionState;
  co_correlations : gmap Z Z;
  co_out_messages : list TabletTransactionCoordinatorOutMessage
}.

Definition coordinator_create (correlation_counter : Z) : DefaultTabletTransactionCoordinator :=
  {| co_correlation_counter := correlation_counter; co_transaction_counter := 1;
     co_transactions := ∅; co_correlations := ∅; co_out_messages := [] |}.

Definition co_with (c : DefaultTabletTransactionCoordinator)
    (transactions : gmap Z TabletTransactionState) (correlations : gmap Z Z)
    : DefaultTabletTransactionCoordinator :=
  {| co_correlation_counter := co_correlation_counter c;
     co_transaction_counter := co_transaction_counter c; co_transactions := transactions;
     co_correlations := correlations; co_out_messages := co_out_messages c |}.

Definition transaction_stash_request (c : DefaultTabletTransactionCoordinator)
    (transaction_id : Z) (tablet_ops : list TabletOp) : DefaultTabletTransactionCoordinator :=
  let correlation_counter := co_correlation_counter c +₆₄ 1 in
  {| co_correlation_counter := correlation_counter;
     co_transaction_counter := co_transaction_counter c; co_transactions := co_transactions c;
     co_correlations := <[correlation_counter := transaction_id]> (co_correlations c);
     co_out_messages := co_out_messages c ++ [CoordinatorOpsRequest correlation_counter tablet_ops] |}.

Definition coordinator_init (c : DefaultTabletTransactionCoordinator)
    : DefaultTabletTransactionCoordinator := c.

(** The loop over the transactions. *)
Definition advance_transaction (st : gmap Z TabletTransactionState * M * D * W)
    (x : Z * TabletTransactionState)
    : outcome (gmap Z TabletTransactionState * M * D * W) :=
  let '(transactions, m, d, w) := st in
  match x.2 with
  | TransactionPreparing transaction_state =>
      '(transaction_state, m, d, w) ← preparing_make_progress transaction_state m d w;
      Return (<[x.1 := TransactionPreparing transaction_state]> transactions, m, d, w)
  | _ => Return st
  end.

Definition coordinator_make_progress (c : DefaultTabletTransactionCoordinator)
    (m : M) (d : D) (w : W)
    : outcome (DefaultTabletTransactionCoordinator * M * D * W) :=
  '(transactions, m, d, w) ←
    ofold advance_transaction (co_transactions c, m, d, w) (hash_iter (co_transactions c));
  Return (co_with c transactions (co_correlations c), m, d, w).

Definition coordinator_process_in_message (c : DefaultTabletTransactionCoordinator) (m : M)
    (in_message : TabletTransactionCoordinatorInMessage)
    : outcome (DefaultTabletTransactionCoordinator * M) :=
  let '(CoordinatorOpsResponse correlation_id tablet_op_results) := in_message in
  match co_correlations c !! correlation_id with
  | Some transaction_id =>
      let c := co_with c (co_transactions c) (delete correlation_id (co_correlations c)) in
      match co_transactions c !! transaction_id with
      | Some (TransactionCommitting transaction_state) =>
          '(transaction_outcome, metadata_to_update_cache) ←
            committing_complete transaction_state tablet_op_results;
          m ← ofold (λ m '(table_name, tablet_metadata, conflict),
                       mci_update_tablet (W:=W) m table_name tablet_metadata conflict)
                m metadata_to_update_cache;
          Return (co_with c (<[transaction_id := TransactionCompleted transaction_outcome]>
                               (co_transactions c)) (co_correlations c), m)
      | _ => Return (c, m)
      end
  | None => Return (c, m)
  end.

Definition coordinator_take_out_messages (c : DefaultTabletTransactionCoordinator)
    : DefaultTabletTransactionCoordinator * list TabletTransactionCoordinatorOutMessage :=
  ({| co_correlation_counter := co_correlation_counter c;
      co_transaction_counter := co_transaction_counter c; co_transactions := co_transactions c;
      co_correlations := co_correlations c; co_out_messages := [] |}, co_out_messages c).

Definition create_transaction (c : DefaultTabletTransactionCoordinator)
    : DefaultTabletTransactionCoordinator * Z :=
  let transaction_id := co_transaction_counter c +₆₄ 1 in
  ({| co_correlation_counter := co_correlation_counter c;
      co_transaction_counter := transaction_id;
      co_transactions :=
        <[transaction_id := TransactionPreparing (preparing_create transaction_id)]>
          (co_transactions c);
      co_correlations := co_correlations c; co_out_messages := co_out_messages c |},
   transaction_id).

Definition process_transaction (c : DefaultTabletTransactionCoordinator) (transaction_id : Z)
    (queries : list TableQuery) (handler : ProcessHandler W T)
    : outcome DefaultTabletTransactionCoordinator :=
  transaction ← unwrap (co_transactions c !! transaction_id);
  match transaction with
  | TransactionPreparing transaction_state =>
      Return (co_with c (<[transaction_id := TransactionPreparing
                (init_pending transaction_state queries handler)]> (co_transactions c))
                (co_correlations c))
  | _ => Panic
  end.

Definition has_transaction_pending_process (c : DefaultTabletTransactionCoordinator)
    (transaction_id : Z) : outcome bool :=
  transaction ← unwrap (co_transactions c !! transaction_id);
  match transaction with
  | TransactionPreparing transaction_state => Return (is_active transaction_state)
  | _ => Return false
  end.

Definition commit_transaction (c : DefaultTabletTransactionCoordinator) (transaction_id : Z)
    : outcome DefaultTabletTransactionCoordinator :=
  transaction ← unwrap (co_transactions c !! transaction_id);
  match transaction with
  | TransactionPreparing transaction_state =>
      if is_active transaction_state then Panic
      else
        let '(c, updated_transaction) :=
          match preparing_complete transaction_state with
          | PreparingSucceeded tablet_ops =>
              (transaction_stash_request c transaction_id tablet_ops,
               TransactionCommitting {| cts_tablet_ops := tablet_ops |})
          | PreparingFailed => (c, TransactionCompleted TransactionFailed)
          end in
        Return (co_with c (<[transaction_id := updated_transaction]> (co_transactions c))
                  (co_correlations c))
  | _ => Panic
  end.

Definition abort_transaction (c : DefaultTabletTransactionCoordinator) (transaction_id : Z)
    : DefaultTabletTransactionCoordinator :=
  co_with c (delete transaction_id (co_transactions c)) (co_correlations c).

Definition check_transaction_result (c : DefaultTabletTransactionCoordinator)
    (transaction_id : Z)
    : outcome (DefaultTabletTransactionCoordinator * option TabletTransactionOutcome) :=
  transaction ← unwrap (co_transactions c !! transaction_id);
  match transaction with
  | TransactionPreparing _ => Panic
  | TransactionCommitting _ => Return (c, None)
  | TransactionCompleted transaction_outcome =>
      Return (abort_transaction c transaction_id, Some transaction_outcome)
  end.
End coordinator.
Arguments TabletProcessStatus : clear implicits.
Arguments TabletProcessState : clear implicits.
Arguments PreparingTabletTransactionState : clear implicits.
Arguments TabletTransactionState : clear implicits.
Arguments DefaultTabletTransactionCoordinator : clear implicits.
