(* ===== verification/CoordinatorTheorems.v ===== *)
(** * Properties of the transaction coordinator

    Tablet keys are unique, every tablet of a transaction is checked or updated at the
    version it was resolved at, and a transaction that the tablet store accepts has
    seen current tablets only. *)

From Stdlib Require Import Ascii Strings.Byte.
From stdpp Require Import pretty.
From S2P Require Import Prelude TabletStore CacheTypes MetadataCache DataCache Coordinator.

(** ** Tablet keys *)

Lemma create_tablet_key_sum m :
  in_u32 (tm_tablet_id m) → in_u32 (tm_tablet_version m) →
  create_tablet_key m = tm_tablet_id m * two32 + tm_tablet_version m.
Proof.
  intros Hid Hv. unfold create_tablet_key, in_u32 in *. rewrite Z.shiftl_mul_pow2 by lia.
  change (2 ^ 32) with two32. rewrite Z.mod_small by lia. rewrite <- Z.add_lor_land.
  enough (Z.land (tm_tablet_id m * two32) (tm_tablet_version m) = 0) as -> by lia.
  change two32 with (2 ^ 32). rewrite <- (Z.mod_small (tm_tablet_version m) (2 ^ 32)) by lia.
  apply Z.bits_inj'. intros n Hn. rewrite Z.land_spec, Z.bits_0.
  destruct (decide (n < 32)).
  - rewrite Z.mul_pow2_bits_low by lia. done.
  - rewrite (Z.mod_pow2_bits_high _ 32) by lia. apply andb_false_r.
Qed.

(** ** The interface of the data cache that the coordinator relies on *)

(** Any call on a data cache. *)
Inductive data_call {D T} `{!TabletDataCache D T} (d : D) : D → Prop :=
| CallInit config d' : dci_init d config = Return d' → data_call d d'
| CallMakeProgress instant d' : dci_make_progress d instant = Return d' → data_call d d'
| CallLoad metas d' h : dci_load_tablets d metas = Return (d', h) → data_call d d'
| CallStore data d' metas h : dci_store_tablets d data = Return (d', metas, h) → data_call d d'
| CallProcess msg d' : dci_process_in_message d msg = Return d' → data_call d d'
| CallTake : data_call d (dci_take_out_messages d).1.

(** The types of ids and versions in the source. *)
Definition metadata_u32 (m : TabletMetadata) : Prop :=
  in_u32 (tm_tablet_id m) ∧ in_u32 (tm_tablet_version m).

(** A tablet at its next version. *)
Definition next_version (m m' : TabletMetadata) : Prop :=
  tm_tablet_id m' = tm_tablet_id m ∧ tm_tablet_version m' = tm_tablet_version m +₃₂ 1.

(** A store either raises the versions of all its tablets or fails for good. *)
Class DataCacheLaws (D T : Type) `{!TabletDataCache D T} : Type := {
  dcl_ok : D → Prop;
  dcl_failed : D → Z → Prop;
  dcl_store d data d' metas h :
    dcl_ok d → dci_store_tablets d data = Return (d', metas, h) →
    Forall2 (λ x m', next_version x.1 m') data metas ∨ dcl_failed d' h;
  dcl_failed_check d h : dcl_failed d h → dci_check_store d h ≠ Some (Ok ());
  dcl_ok_call d d' : dcl_ok d → data_call d d' → dcl_ok d';
  dcl_failed_call d d' h : dcl_ok d → dcl_failed d h → data_call d d' → dcl_failed d' h
}.

(** ** Processes *)

Section processes.
Context {W T M D : Type} `{HM : !TabletMetadataCache W M, HD : !TabletDataCache D T,
  HO : !HashOrder Z, HL : !DataCacheLaws D T}.
Implicit Types (p : TabletProcessState W T) (ts : TabletState T) (tablets : gmap Z (TabletState T)).

(** A handler changes tablets only through [set_contents]. *)
Definition process_handler_ok (h : ProcessHandler W T) : Prop :=
  ∀ id refs w w' lent, h id refs w = Return (w', lent) →
    Forall2 (λ x t, t = x.2 ∨ ∃ c, t = tablet_set_contents c x.2) refs lent.

(** A tablet as it was resolved. *)
Definition clean (k : Z) ts : Prop :=
  create_tablet_key (tb_metadata (ts_tablet ts)) = k ∧ tb_is_dirty (ts_tablet ts) = false ∧
  tb_updated_contents (ts_tablet ts) = None.

(** A tablet that the handler has seen. *)
Definition processed (k : Z) ts : Prop :=
  create_tablet_key (tb_metadata (ts_tablet ts)) = k ∧ metadata_u32 (tb_metadata (ts_tablet ts)) ∧
  (tb_is_dirty (ts_tablet ts) = true ↔ is_Some (tb_updated_contents (ts_tablet ts))).

(** A tablet whose write was started: at the resolved version, or at the next one if it
    was written. *)
Definition final (k : Z) ts : Prop :=
  ∃ base, create_tablet_key base = k ∧ metadata_u32 base ∧
    if tb_is_dirty (ts_tablet ts) then next_version base (tb_metadata (ts_tablet ts))
    else tb_metadata (ts_tablet ts) = base.

Definition all_states (P : Z → TabletState T → Prop) tablets : Prop :=
  ∀ k ts, tablets !! k = Some ts → P k ts.

(** Tablets at the types of the source. *)
Definition state_u32 (k : Z) ts : Prop := metadata_u32 (tb_metadata (ts_tablet ts)).

Definition process_ok (d : D) p : Prop :=
  process_handler_ok (ps_handler p) ∧
  match ps_status p with
  | ProcessPending _ | ProcessResolving _ => ps_tablets p = ∅
  | ProcessLoading _ => all_states clean (ps_tablets p)
  | ProcessStoring h => all_states final (ps_tablets p) ∨ dcl_failed d h
  | ProcessCompleted => all_states final (ps_tablets p)
  | ProcessFailed => True
  end.

Lemma insert_states_lookup tablets l k ts :
  insert_states tablets l !! k = Some ts →
  (k, ts) ∈ l ∨ (k ∉ l.*1 ∧ tablets !! k = Some ts).
Proof using.
  revert tablets. induction l as [|[k' ts'] l IH]; intros tablets; simpl.
  { intros H. right. split; [apply not_elem_of_nil|done]. }
  intros [?|[Hni H]]%IH; [left; by right|].
  apply lookup_insert_Some in H as [[<- <-]|[Hne H]]; [left; by left|right].
  split; [|done]. rewrite not_elem_of_cons. done.
Qed.

Lemma insert_states_all (P : Z → TabletState T → Prop) tablets l :
  all_states P tablets → Forall (λ x, P x.1 x.2) l → all_states P (insert_states tablets l).
Proof using.
  intros Ht Hl k ts [Hin|[_ ?]]%insert_states_lookup; [|by apply Ht].
  rewrite Forall_forall in Hl. by apply (Hl (k, ts)).
Qed.

Lemma init_loaded_all (P : Z → TabletState T → Prop) tablets values tablets' :
  (∀ k ts v, P k ts → P k (tablet_init ts v)) →
  all_states P tablets → ofold init_loaded tablets values = Return tablets' →
  all_states P tablets'.
Proof using.
  intros HP Ht. apply ofold_invariant; [|done]. clear -HP. intros tablets x tablets' Ht H.
  unfold init_loaded in H. outcome_inv. subst. intros k ts [[<- <-]|[_ ?]]%lookup_insert_Some.
  - by apply HP, (Ht _ x0).
  - by apply Ht.
Qed.

Lemma states_to_write_elem tablets k ts w :
  (k, ts, w) ∈ states_to_write (prepare_states tablets) ↔
  ∃ ts0, tablets !! k = Some ts0 ∧ tablet_prepare ts0 = (ts, Some w).
Proof using.
  unfold states_to_write, prepare_states. rewrite list_elem_of_omap. split.
  - intros ([k' [ts' o]] & ([k0 ts0] & Heq & Hin)%list_elem_of_fmap & H). cbn [fst snd] in *.
    rewrite hash_iter_perm, elem_of_map_to_list in Hin. destruct o as [w'|]; [|done].
    injection H as -> -> ->. apply pair_eq in Heq as [-> Heq].
    exists ts0. by rewrite <- Heq.
  - intros (ts0 & H0 & Hp). exists (k, (ts, Some w)). split; [|done].
    apply list_elem_of_fmap. exists (k, ts0). rewrite <- Hp. split; [done|].
    by rewrite hash_iter_perm, elem_of_map_to_list.
Qed.

Lemma tablet_prepare_spec ts :
  tb_metadata (ts_tablet (tablet_prepare ts).1) = tb_metadata (ts_tablet ts) ∧
  tb_is_dirty (ts_tablet (tablet_prepare ts).1) = tb_is_dirty (ts_tablet ts) ∧
  (tablet_prepare ts).2
  = (λ c, (tb_metadata (ts_tablet ts), c)) <$> tb_updated_contents (ts_tablet ts).
Proof using. unfold tablet_prepare. simpl. by destruct (tb_updated_contents (ts_tablet ts)). Qed.

(** The states after the handler: each with the tablet that was handed back for it. *)
Lemma put_back_states tablets lent k ts :
  length lent = length (hash_iter tablets) →
  put_back tablets (hash_iter tablets) lent !! k = Some ts →
  ∃ i ts0 t, hash_iter tablets !! i = Some (k, ts0) ∧ lent !! i = Some t ∧
    ts = ts_with_tablet ts0 t.
Proof using.
  intros Hlen Hk. unfold put_back in Hk. apply insert_states_lookup in Hk as [Hin|[Hni Hk]].
  - apply elem_of_lookup_zip_with_1 in Hin as (i & [k' ts0] & t & Heq & Hi & Ht).
    injection Heq as -> ->. by exists i, ts0, t.
  - destruct Hni. assert ((k, ts) ∈ hash_iter tablets) as [i Hi]%list_elem_of_lookup.
    { by rewrite hash_iter_perm, elem_of_map_to_list. }
    destruct (lookup_lt_is_Some_2 lent i) as [t Ht].
    { rewrite Hlen. by eapply lookup_lt_Some. }
    apply list_elem_of_fmap. exists (k, ts_with_tablet ts t). split; [done|].
    apply elem_of_lookup_zip_with. by exists i, (k, ts), t.
Qed.

Lemma put_back_processed tablets lent :
  all_states clean tablets → all_states state_u32 tablets →
  Forall2 (λ x t, t = x.2 ∨ ∃ c, t = tablet_set_contents c x.2)
    ((λ x, (ts_query x.2, ts_tablet x.2)) <$> hash_iter tablets) lent →
  all_states processed (put_back tablets (hash_iter tablets) lent).
Proof using.
  intros Ht Hu Hl k ts Hk. rewrite Forall2_fmap_l in Hl.
  apply put_back_states in Hk as (i & ts0 & t & Hi & Hti & ->);
    [|by rewrite (Forall2_length _ _ _ Hl)].
  eapply Forall2_lookup_lr in Hl; [|done..]. simpl in Hl.
  apply list_elem_of_lookup_2 in Hi. rewrite hash_iter_perm, elem_of_map_to_list in Hi.
  destruct (Ht k ts0 Hi) as (Hkey & Hd & Hup). specialize (Hu k ts0 Hi).
  destruct Hl as [-> | [c ->]]; (split_and!; [done..|]); simpl.
  - rewrite Hd, Hup. split; [done|by intros []].
  - split; [by eexists|done].
Qed.

(** The states after the writes were started: what was written has the metadata that the
    data cache gave it. *)
Lemma put_metadata_states (R : TabletMetadata * T → TabletMetadata → Prop) tablets metas k ts :
  let prepared := prepare_states tablets in
  let written := states_to_write prepared in
  Forall2 R written.*2 metas →
  put_metadata (insert_states tablets ((λ x, (x.1, x.2.1)) <$> prepared)) written metas !! k
    = Some ts →
  ∃ ts0, tablets !! k = Some ts0 ∧
    match tb_updated_contents (ts_tablet ts0) with
    | Some c => ∃ m', R (tb_metadata (ts_tablet ts0), c) m' ∧
        ts = ts_with_tablet ts0
               (tablet_with_metadata m' (tablet_take_updated_contents (ts_tablet ts0)).1)
    | None => ts = (tablet_prepare ts0).1
    end.
Proof using.
  intros prepared written Hm Hk. unfold put_metadata in Hk.
  rewrite Forall2_fmap_l in Hm. pose proof (Forall2_length _ _ _ Hm) as Hlen.
  apply insert_states_lookup in Hk as [Hin|[Hni Hk]].
  - apply elem_of_lookup_zip_with_1 in Hin as (i & [[k' ts1] w] & m & Heq & Hw & Hmi).
    injection Heq as -> ->. eapply Forall2_lookup_lr in Hm; [|done..]. simpl in Hm.
    apply list_elem_of_lookup_2, states_to_write_elem in Hw as (ts0 & H0 & Hp).
    exists ts0. split; [done|]. unfold tablet_prepare in Hp. simpl in Hp.
    destruct (tb_updated_contents (ts_tablet ts0)) as [c|]; [|done]. injection Hp as <- <-.
    exists m. by split.
  - apply insert_states_lookup in Hk as [Hin|[Hni' Hk]].
    + apply list_elem_of_fmap in Hin as ([k1 [ts1 o]] & Heq & Hin). injection Heq as -> ->.
      unfold prepared, prepare_states in Hin.
      apply list_elem_of_fmap in Hin as ([k0 ts0] & Heq & Hin). apply pair_eq in Heq as [-> Hp]. cbn [fst snd] in *.
      rewrite hash_iter_perm, elem_of_map_to_list in Hin. exists ts0. split; [done|].
      destruct (tablet_prepare_spec ts0) as (_ & _ & Hupd). rewrite <- Hp in Hupd |- *. simpl in *.
      destruct (tb_updated_contents (ts_tablet ts0)) as [c|] eqn:Ec; [|done].
      destruct Hni. subst o.
      assert ((k0, ts1, (tb_metadata (ts_tablet ts0), c)) ∈ written) as Hw.
      { apply states_to_write_elem. by exists ts0. }
      apply list_elem_of_lookup in Hw as [i Hi].
      destruct (lookup_lt_is_Some_2 metas i) as [m Hmi].
      { rewrite <- Hlen. by eapply lookup_lt_Some. }
      apply list_elem_of_fmap. eexists. split;
        [|apply elem_of_lookup_zip_with; by exists i, (k0, ts1, (tb_metadata (ts_tablet ts0), c)), m].
      done.
    + destruct Hni'. apply list_elem_of_fmap.
      exists (k, (tablet_prepare ts).1). split; [done|]. apply list_elem_of_fmap.
      exists (k, tablet_prepare ts). split; [done|]. apply list_elem_of_fmap. exists (k, ts).
      split; [done|]. by rewrite hash_iter_perm, elem_of_map_to_list.
Qed.

Lemma put_metadata_final tablets metas :
  all_states processed tablets →
  let prepared := prepare_states tablets in
  let written := states_to_write prepared in
  Forall2 (λ x m', next_version x.1 m') written.*2 metas →
  all_states final
    (put_metadata (insert_states tablets ((λ x, (x.1, x.2.1)) <$> prepared)) written metas).
Proof using.
  intros Ht prepared written Hm k ts Hk.
  destruct (put_metadata_states _ tablets metas k ts Hm Hk) as (ts0 & H0 & Hts).
  destruct (Ht k ts0 H0) as (Hkey & Hu & Hd). exists (tb_metadata (ts_tablet ts0)).
  split_and!; [done..|]. destruct (tb_updated_contents (ts_tablet ts0)) as [c|] eqn:Ec.
  - destruct Hts as (m' & Hm' & ->). simpl. by rewrite (proj2 Hd ltac:(by eexists)).
  - subst ts. simpl. destruct (tb_is_dirty (ts_tablet ts0)); [|done].
    destruct (proj1 Hd eq_refl) as [? [=]].
Qed.

Lemma data_calls_ok d d' :
  rtc data_call d d' → dcl_ok d →
  dcl_ok d' ∧ (∀ h, dcl_failed d h → dcl_failed d' h) ∧ ∀ p, process_ok d p → process_ok d' p.
Proof using.
  intros Hc Hd. assert (dcl_ok d' ∧ ∀ h, dcl_failed d h → dcl_failed d' h) as [Hd' Hf].
  { induction Hc as [d|d d1 d2 Hc _ IH]; [done|]. destruct IH as [? Hf]; [by eapply dcl_ok_call|].
    split; [done|]. intros h Hh. apply Hf. by eapply (dcl_failed_call d). }
  split_and!; [done..|]. intros p [Hh Hp]. split; [done|].
  destruct (ps_status p); try done. destruct Hp as [?|?]; [by left|right; auto].
Qed.

Lemma process_loaded_ok id p d w values p' d' w' :
  dcl_ok d → process_handler_ok (ps_handler p) → all_states clean (ps_tablets p) →
  all_states state_u32 (ps_tablets p) →
  process_loaded id p d w values = Return (p', d', w') → process_ok d' p' ∧ data_call d d'.
Proof using.
  intros Hd Hh Ht Hu H. unfold process_loaded in H.
  apply bind_Return in H as (tablets & Hinit & H).
  apply (init_loaded_all clean) in Hinit as Hc; [|by intros k [q t] v|done].
  apply (init_loaded_all state_u32) in Hinit; [|by intros k [q t] v|done].
  apply bind_Return in H as ([w1 lent] & Hrun & H). apply Hh in Hrun.
  apply put_back_processed in Hrun; [|done..]. simpl in H.
  apply bind_Return in H as ([[d1 metas] h] & Hstore & H). injection H as <- <- <-.
  split; [|by eapply CallStore]. split; [done|]. simpl.
  destruct (dcl_store _ _ _ _ _ Hd Hstore) as [Hm|Hf]; [left|by right].
  by apply put_metadata_final.
Qed.

Lemma track_resolved_clean values :
  all_states clean (track_resolved (T:=T) ∅ values).
Proof using.
  apply insert_states_all; [by intros k ts Hk; rewrite lookup_empty in Hk|].
  apply Forall_fmap, Forall_true. intros [q m]. done.
Qed.

(** Tablets that a process is about to hand to its handler. *)
Definition process_u32 p : Prop :=
  match ps_status p with ProcessLoading _ => all_states state_u32 (ps_tablets p) | _ => True end.

Lemma advance_process_ok id p m d w p' m' d' w' :
  dcl_ok d → process_ok d p → process_u32 p → advance_process (W:=W) (M:=M) id p m d w = Return (p', m', d', w') →
  process_ok d' p' ∧ rtc data_call d d'.
Proof using.
  intros Hd [Hh Hp] Hu H. unfold advance_process in H. unfold process_u32 in Hu.
  destruct (ps_status p) eqn:Est.
  - apply bind_Return in H as ([[m1 w1] h] & _ & H). by injection H as <- <- <- <-.
  - destruct (mci_check_result m resolve_result) as [[values|]|].
    + apply bind_Return in H as ([d1 h] & Hl & H). injection H as <- <- <- <-. split.
      * split; [done|]. simpl. rewrite Hp. apply track_resolved_clean.
      * by eapply rtc_once, CallLoad.
    + by injection H as <- <- <- <-.
    + injection H as <- <- <- <-. split; [|done]. split; [done|]. by rewrite Est.
  - destruct (dci_check_load d load_result) as [[values|]|].
    + apply bind_Return in H as ([[p1 d1] w1] & Hl & H). injection H as <- <- <- <-.
      apply process_loaded_ok in Hl as [? ?]; [|done..]. split; [done|]. by apply rtc_once.
    + by injection H as <- <- <- <-.
    + injection H as <- <- <- <-. split; [|done]. split; [done|]. by rewrite Est.
  - destruct (dci_check_store d store_result) as [[[]|]|] eqn:Ec.
    + injection H as <- <- <- <-. split; [|done]. split; [done|]. simpl.
      destruct Hp as [?|Hf]; [done|]. by apply dcl_failed_check in Hf.
    + by injection H as <- <- <- <-.
    + injection H as <- <- <- <-. split; [|done]. split; [done|]. by rewrite Est.
  - injection H as <- <- <- <-. split; [|done]. split; [done|]. by rewrite Est.
  - injection H as <- <- <- <-. split; [|done]. split; [done|]. by rewrite Est.
Qed.

Lemma advance_processes_ok id ps m d w ps' m' d' w' :
  dcl_ok d → Forall (process_ok d) ps → Forall process_u32 ps →
  advance_processes (W:=W) (M:=M) id ps m d w = Return (ps', m', d', w') →
  Forall (process_ok d') ps' ∧ rtc data_call d d'.
Proof using.
  revert m d w ps'. induction ps as [|p ps IH];
    intros m d w ps' Hd Hps Hus H; cbn [advance_processes] in H.
  { injection H as <- <- <- <-. by split; [constructor|]. }
  inversion_clear Hps as [|? ? Hp Hps']. inversion_clear Hus as [|? ? Hu Hus'].
  apply bind_Return in H as ([[[p1 m1] d1] w1] & Hadv & H).
  apply bind_Return in H as ([[[ps1 m2] d2] w2] & Hrest & H). injection H as <- <- <- <-.
  apply advance_process_ok in Hadv as [Hp1 Hc1]; [|done..].
  destruct (data_calls_ok d d1 Hc1 Hd) as (Hd1 & _ & Hk1).
  apply IH in Hrest as [Hps1 Hc2]; [|done|by eapply Forall_impl; [exact Hps'|]|done].
  destruct (data_calls_ok d1 d2 Hc2 Hd1) as (_ & _ & Hk2).
  split; [|by etrans]. constructor; [auto|done].
Qed.

(** ** Transactions *)

(** Every process of a transaction in preparation is in order. *)
Definition transaction_ok (d : D) (t : TabletTransactionState W T) : Prop :=
  match t with
  | TransactionPreparing s => Forall (process_ok d) (pts_process_requests s)
  | TransactionCommitting _ | TransactionCompleted _ => True
  end.

Definition transaction_u32 (t : TabletTransactionState W T) : Prop :=
  match t with
  | TransactionPreparing s => Forall process_u32 (pts_process_requests s)
  | TransactionCommitting _ | TransactionCompleted _ => True
  end.

Definition coordinator_u32 (c : DefaultTabletTransactionCoordinator W T) : Prop :=
  map_Forall (λ _, transaction_u32) (co_transactions c).

Definition coordinator_ok (d : D) (c : DefaultTabletTransactionCoordinator W T) : Prop :=
  map_Forall (λ _, transaction_ok d) (co_transactions c).

Lemma coordinator_ok_calls d d' c :
  rtc data_call d d' → dcl_ok d → coordinator_ok d c → coordinator_ok d' c.
Proof using.
  intros Hc Hd Hok id t Ht. specialize (Hok id t Ht). destruct t; [|done..]. simpl in *.
  eapply Forall_impl; [exact Hok|]. by apply data_calls_ok.
Qed.

Lemma coordinator_make_progress_ok c m d w c' m' d' w' :
  dcl_ok d → coordinator_ok d c → coordinator_u32 c →
  coordinator_make_progress (M:=M) c m d w = Return (c', m', d', w') →
  coordinator_ok d' c' ∧ rtc data_call d d'.
Proof using.
  intros Hd Hc Hu H. unfold coordinator_make_progress in H.
  apply bind_Return in H as ([[[ts1 m1] d1] w1] & Hloop & H). injection H as <- <- <- <-.
  assert (Forall (λ x, transaction_ok d x.2 ∧ transaction_u32 x.2) (hash_iter (co_transactions c)))
    as Hall.
  { apply Forall_forall. intros [id t] Hx. rewrite hash_iter_perm, elem_of_map_to_list in Hx.
    split; [by apply (Hc id t)|by apply (Hu id t)]. }
  clear Hu.
  unfold coordinator_ok in *. simpl. revert Hc Hall Hloop.
  generalize (hash_iter (co_transactions c)) as l. generalize (co_transactions c) as ts.
  intros ts l. revert m d w ts Hd.
  induction l as [|[id t] l IH]; intros m d w ts Hd Hts Hall Hloop; simpl in Hloop.
  { by injection Hloop as <- <- <- <-. }
  inversion_clear Hall as [|? ? [Ht Htu] Hall']. destruct t as [s|s|o]; simpl in *.
  2, 3: by eapply (IH m d w).
  apply bind_Return in Hloop as ([[[ts2 m2] d2] w2] & Hadv & Hloop).
  apply bind_Return in Hadv as ([[[s2 m3] d3] w3] & Hadv & Heq). injection Heq as <- <- <- <-.
  unfold preparing_make_progress in Hadv.
  apply bind_Return in Hadv as ([[[ps m4] d4] w4] & Hadv & Heq). injection Heq as <- <- <- <-.
  apply advance_processes_ok in Hadv as [Hps Hc1]; [|done..].
  destruct (data_calls_ok d d4 Hc1 Hd) as (Hd4 & _ & Hk).
  assert (∀ t, transaction_ok d t → transaction_ok d4 t) as Hkt.
  { intros [s'|s'|o'] Hs'; [|done..]. simpl in *. by eapply Forall_impl. }
  eapply IH in Hloop as [? ?]; [|done| |].
  - split; [done|]. by etrans.
  - intros i y [[<- <-]|[_ Hx]]%lookup_insert_Some; [done|]. apply Hkt. by eapply Hts.
  - eapply Forall_impl; [exact Hall'|]. intros y [? ?]. split; [by apply Hkt|done].
Qed.

(** ** Calls on a coordinator *)

(** A call on the coordinator or on the data cache it works with.  Any metadata cache may
    be passed; counters do not wrap, and ids and versions are 32-bit numbers. *)
Inductive coordinator_step :
    DefaultTabletTransactionCoordinator W T * D → DefaultTabletTransactionCoordinator W T * D → Prop :=
| StepMakeProgress c (m : M) d w c' m' d' w' :
    coordinator_u32 c → coordinator_make_progress c m d w = Return (c', m', d', w') →
    coordinator_step (c, d) (c', d')
| StepInMessage c (m : M) d msg c' m' :
    coordinator_process_in_message c m msg = Return (c', m') → coordinator_step (c, d) (c', d)
| StepTakeMessages c d : coordinator_step (c, d) ((coordinator_take_out_messages c).1, d)
| StepCreate c d : 0 ≤ co_transaction_counter c < two64 - 1 →
    coordinator_step (c, d) ((create_transaction c).1, d)
| StepProcess c d id queries handler c' : process_handler_ok handler →
    process_transaction c id queries handler = Return c' → coordinator_step (c, d) (c', d)
| StepCommit c d id c' : 0 ≤ co_correlation_counter c < two64 - 1 →
    commit_transaction c id = Return c' → coordinator_step (c, d) (c', d)
| StepAbort c d id : coordinator_step (c, d) (abort_transaction c id, d)
| StepCheck c d id c' o :
    check_transaction_result c id = Return (c', o) → coordinator_step (c, d) (c', d)
| StepData c d d' : data_call d d' → coordinator_step (c, d) (c, d').

(** Every correlation id that awaits a response belongs to one transaction, which is being
    committed unless it was aborted. *)
Record coordinator_books (c : DefaultTabletTransactionCoordinator W T) : Prop := {
  cb_correlation corr id : co_correlations c !! corr = Some id →
    corr ≤ co_correlation_counter c ∧ id ≤ co_transaction_counter c ∧
    ∀ t, co_transactions c !! id = Some t → ∃ s, t = TransactionCommitting s;
  cb_unique corr corr' id :
    co_correlations c !! corr = Some id → co_correlations c !! corr' = Some id → corr = corr';
  cb_transaction id t : co_transactions c !! id = Some t → id ≤ co_transaction_counter c;
  cb_awaited id s : co_transactions c !! id = Some (TransactionCommitting s) →
    ∃ corr, co_correlations c !! corr = Some id
}.

Definition coordinator_inv (x : DefaultTabletTransactionCoordinator W T * D) : Prop :=
  dcl_ok x.2 ∧ coordinator_ok x.2 x.1 ∧ coordinator_books x.1.

Lemma coordinator_create_inv n d : dcl_ok d → coordinator_inv (coordinator_create n, d).
Proof using.
  intros Hd. unfold coordinator_inv, coordinator_ok. simpl.
  split_and!; [done|apply map_Forall_empty|].
  split; simpl; setoid_rewrite lookup_empty; done.
Qed.

(** Progress keeps the kinds of all transactions. *)
Lemma coordinator_make_progress_frame c (m : M) d w c' m' d' w' :
  coordinator_make_progress c m d w = Return (c', m', d', w') →
  co_correlations c' = co_correlations c ∧ co_correlation_counter c' = co_correlation_counter c ∧
  co_transaction_counter c' = co_transaction_counter c ∧
  ∀ id, match co_transactions c !! id with
        | Some (TransactionPreparing _) =>
            ∃ s, co_transactions c' !! id = Some (TransactionPreparing s)
        | t => co_transactions c' !! id = t
        end.
Proof using.
  intros H. unfold coordinator_make_progress in H.
  apply bind_Return in H as ([[[ts1 m1] d1] w1] & Hloop & H). injection H as <- <- <- <-. simpl.
  split_and!; [done..|].
  assert (∀ id t, (id, t) ∈ hash_iter (co_transactions c) → co_transactions c !! id = Some t) as Hall.
  { intros id t Hx. by rewrite hash_iter_perm, elem_of_map_to_list in Hx. }
  set (same := λ ts : gmap Z (TabletTransactionState W T),
    ∀ id, match co_transactions c !! id with
          | Some (TransactionPreparing _) => ∃ s, ts !! id = Some (TransactionPreparing s)
          | t => ts !! id = t
          end).
  change (same ts1).
  assert (same (co_transactions c)) as H0.
  { intros id. destruct (co_transactions c !! id) as [[]|]; [by eexists|done..]. }
  revert Hall H0 Hloop. generalize (hash_iter (co_transactions c)) as l.
  generalize (co_transactions c) at 2 3 as ts. intros ts l. revert m d w ts.
  induction l as [|[id t] l IH]; intros m d w ts Hall Hs Hloop; simpl in Hloop.
  { by injection Hloop as <- <- <- <-. }
  assert (∀ id t, (id, t) ∈ l → co_transactions c !! id = Some t) as Hall'.
  { intros id' t' ?. apply Hall. by right. }
  destruct t as [s|s|o]; simpl in *; [|by eapply IH..].
  apply bind_Return in Hloop as ([[[ts2 m2] d2] w2] & Hadv & Hloop).
  apply bind_Return in Hadv as ([[[s2 m3] d3] w3] & _ & Heq). injection Heq as <- <- <- <-.
  eapply (IH m3 d3 w3); [done| |done]. intros id'. specialize (Hs id').
  destruct (decide (id = id')) as [<-|Hne].
  - rewrite (Hall id (TransactionPreparing s)) by by left. rewrite lookup_insert_eq. by eexists.
  - by rewrite lookup_insert_ne.
Qed.

(** Changing one transaction that no correlation id belongs to, or removing one. *)
Lemma books_update c c' id t :
  coordinator_books c → co_correlations c' = co_correlations c →
  co_correlation_counter c' = co_correlation_counter c →
  co_transaction_counter c ≤ co_transaction_counter c' →
  co_transactions c' = partial_alter (λ _, t) id (co_transactions c) →
  t = None ∨ (∀ corr, co_correlations c !! corr ≠ Some id) ∧ (∀ s, t ≠ Some (TransactionCommitting s)) →
  (is_Some t → id ≤ co_transaction_counter c') → coordinator_books c'.
Proof using.
  intros [Hc Hu Ht Ha] Hcorr Hn Htn Hts Hcase Hid. split; rewrite ?Hcorr, ?Hts; [|done|..].
  - intros corr id' Hx. destruct (Hc _ _ Hx) as (? & ? & Hk). split_and!; [lia..|].
    intros t' Ht'. destruct (decide (id = id')) as [<-|].
    + rewrite lookup_partial_alter_eq in Ht'. destruct Hcase as [->|[Hno _]]; [done|].
      by destruct (Hno corr).
    + rewrite lookup_partial_alter_ne in Ht' by done. auto.
  - intros id' t' Ht'. destruct (decide (id = id')) as [<-|].
    + rewrite lookup_partial_alter_eq in Ht'. apply Hid. by rewrite Ht'.
    + rewrite lookup_partial_alter_ne in Ht' by done. apply Ht in Ht'. lia.
  - intros id' s Ht'. destruct (decide (id = id')) as [<-|].
    + rewrite lookup_partial_alter_eq in Ht'. destruct Hcase as [->|[_ Hno]]; [done|].
      by destruct (Hno s).
    + rewrite lookup_partial_alter_ne in Ht' by done. eauto.
Qed.

(** A transaction that is not being committed awaits nothing. *)
Lemma books_no_correlation c id t :
  coordinator_books c → co_transactions c !! id = Some t → (∀ s, t ≠ TransactionCommitting s) →
  ∀ corr, co_correlations c !! corr ≠ Some id.
Proof using.
  intros Hb Ht Hno corr Hx. destruct (cb_correlation _ Hb _ _ Hx) as (_ & _ & Hk).
  destruct (Hk t Ht) as [s ->]. by apply (Hno s).
Qed.

Lemma books_take c : coordinator_books c → coordinator_books (coordinator_take_out_messages c).1.
Proof using. by intros []. Qed.

Lemma books_process c id queries handler c' :
  coordinator_books c → process_transaction c id queries handler = Return c' → coordinator_books c'.
Proof using.
  intros Hb H. unfold process_transaction in H. destruct (co_transactions c !! id) as [t|] eqn:Et; [|done].
  cbn in H. destruct t as [s| |]; [|done..]. injection H as <-.
  eapply books_update; [done..|simpl; lia|done| |].
  - right. split; [|done]. by eapply books_no_correlation.
  - intros _. simpl. by eapply cb_transaction.
Qed.

Lemma books_create c :
  0 ≤ co_transaction_counter c < two64 - 1 → coordinator_books c →
  coordinator_books (create_transaction c).1.
Proof using.
  intros Hn Hb. assert (co_transaction_counter c +₆₄ 1 = co_transaction_counter c + 1) as Heq.
  { unfold u64_add. rewrite Z.mod_small; lia. }
  eapply books_update; [done..|simpl; lia|simpl; done| |simpl; lia].
  right. split; [|done]. intros corr Hx. destruct (cb_correlation _ Hb _ _ Hx). simpl in *. lia.
Qed.

Lemma books_commit c id c' :
  0 ≤ co_correlation_counter c < two64 - 1 → coordinator_books c →
  commit_transaction c id = Return c' → coordinator_books c'.
Proof using.
  intros Hn Hb H. unfold commit_transaction in H.
  destruct (co_transactions c !! id) as [t|] eqn:Et; [|done]. cbn in H.
  destruct t as [s| |]; [|done..]. destruct (is_active s); [done|].
  assert (∀ corr, co_correlations c !! corr ≠ Some id) as Hno by by eapply books_no_correlation.
  pose proof (cb_transaction _ Hb _ _ Et) as Hid.
  destruct (preparing_complete s) as [ops|]; injection H as <-.
  2: { eapply books_update; [done..|simpl; lia|done| |done]. by right. }
  assert (co_correlation_counter c +₆₄ 1 = co_correlation_counter c + 1) as Heq.
  { unfold u64_add. rewrite Z.mod_small; lia. }
  destruct Hb as [Hc Hu Ht Ha].
  assert (∀ corr i, co_correlations c !! corr = Some i → corr ≠ co_correlation_counter c + 1) as Hf.
  { intros corr i (? & _)%Hc. lia. }
  split; simpl; rewrite ?Heq.
  - intros corr id' [[<- <-]|[Hne Hx]]%lookup_insert_Some.
    + split_and!; [lia..|]. intros t' Ht'. rewrite lookup_insert_eq in Ht'. injection Ht' as <-. by eexists.
    + destruct (Hc _ _ Hx) as (? & ? & Hk). split_and!; [lia..|]. intros t' Ht'.
      rewrite lookup_insert_ne in Ht'; [auto|]. intros <-. by destruct (Hno corr).
  - intros corr corr' id' [[<- <-]|[Hne Hx]]%lookup_insert_Some
      [[<- Heq']|[Hne' Hx']]%lookup_insert_Some; [done|..].
    + by destruct (Hno corr').
    + subst. by destruct (Hno corr).
    + eauto.
  - intros id' t' [[<- <-]|[_ ?]]%lookup_insert_Some; [done|eauto].
  - intros id' s' [[<- _]|[Hne Hs]]%lookup_insert_Some.
    + eexists. by rewrite lookup_insert_eq.
    + destruct (Ha _ _ Hs) as [corr Hx]. exists corr. rewrite lookup_insert_ne; [done|].
      intros <-. by apply Hf in Hx.
Qed.

Lemma books_message c (m : M) msg c' m' :
  coordinator_books c → coordinator_process_in_message c m msg = Return (c', m') →
  coordinator_books c'.
Proof using.
  intros Hb H. destruct msg as [corr results]. unfold coordinator_process_in_message in H.
  destruct (co_correlations c !! corr) as [id|] eqn:Ec; [|by injection H as <- <-].
  destruct (cb_correlation _ Hb _ _ Ec) as (_ & Hid & Hk).
  set (c1 := co_with c (co_transactions c) (delete corr (co_correlations c))) in *.
  assert (∀ corr', co_correlations c1 !! corr' ≠ Some id) as Hno.
  { simpl. intros corr' [Hne Hx]%lookup_delete_Some. by destruct (cb_unique _ Hb _ _ _ Ec Hx). }
  assert (co_transactions c !! id = None → coordinator_books c1) as Hnone.
  { intros Hn. destruct Hb as [Hc Hu Ht Ha]. split; simpl; [|..|done|].
    - intros corr' id' [_ Hx]%lookup_delete_Some. auto.
    - intros corr1 corr2 id' [_ Hx]%lookup_delete_Some [_ Hx']%lookup_delete_Some. eauto.
    - intros id' s Hs. destruct (Ha _ _ Hs) as [corr' Hx]. exists corr'. apply lookup_delete_Some.
      split; [|done]. intros <-. rewrite Ec in Hx. injection Hx as <-. by rewrite Hn in Hs. }
  destruct (co_transactions c1 !! id) as [t|] eqn:Et; simpl in Et.
  2: { injection H as <- <-. auto. }
  destruct (Hk t Et) as [s ->].
  apply bind_Return in H as ([o metas] & _ & H). apply bind_Return in H as (m1 & _ & H).
  injection H as <- <-. clear Hnone. destruct Hb as [Hc Hu Ht Ha]. split; simpl.
  - intros corr' id' [Hne Hx]%lookup_delete_Some. destruct (Hc _ _ Hx) as (? & ? & Hk').
    split_and!; [done..|]. intros t'. rewrite lookup_insert_ne; [auto|].
    intros <-. destruct (Hno corr'). simpl. by rewrite lookup_delete_ne.
  - intros corr1 corr2 id' [_ Hx]%lookup_delete_Some [_ Hx']%lookup_delete_Some. eauto.
  - intros id' t' [[<- <-]|[_ ?]]%lookup_insert_Some; [done|eauto].
  - intros id' s' [[_ ?]|[Hne Hs]]%lookup_insert_Some; [done|].
    destruct (Ha _ _ Hs) as [corr' Hx]. exists corr'. rewrite lookup_delete_ne; [done|].
    intros <-. rewrite Ec in Hx. by injection Hx as <-.
Qed.

Lemma books_progress c (m : M) d w c' m' d' w' :
  coordinator_books c → coordinator_make_progress c m d w = Return (c', m', d', w') →
  coordinator_books c'.
Proof using.
  intros [Hc Hu Ht Ha] (Hcorr & Hn & Htn & Hk)%coordinator_make_progress_frame.
  split; rewrite ?Hcorr, ?Hn, ?Htn; [|done|..].
  - intros corr id Hx. destruct (Hc _ _ Hx) as (? & ? & Hs). split_and!; [done..|].
    intros t Ht'. specialize (Hk id). destruct (co_transactions c !! id) as [[s|s|o]|].
    + by destruct (Hs _ eq_refl) as [s' ?].
    + rewrite Hk in Ht'. injection Ht' as <-. by eexists.
    + by destruct (Hs _ eq_refl) as [s' ?].
    + by rewrite Hk in Ht'.
  - intros id t Ht'. specialize (Hk id). destruct (co_transactions c !! id) as [t0|] eqn:Et.
    + by apply Ht in Et.
    + by rewrite Hk in Ht'.
  - intros id s Hs. specialize (Hk id). destruct (co_transactions c !! id) as [[s'|s'|o]|] eqn:Et.
    + destruct Hk as [? Hk]. by rewrite Hk in Hs.
    + eauto.
    + by rewrite Hk in Hs.
    + by rewrite Hk in Hs.
Qed.

Lemma coordinator_ok_insert d c c' id t :
  coordinator_ok d c → co_transactions c' = <[id := t]> (co_transactions c) → transaction_ok d t →
  coordinator_ok d c'.
Proof using. intros Hc Hts Ht. unfold coordinator_ok. rewrite Hts. by apply map_Forall_insert_2. Qed.

Lemma coordinator_ok_message d c (m : M) msg c' m' :
  coordinator_ok d c → coordinator_process_in_message c m msg = Return (c', m') →
  coordinator_ok d c'.
Proof using.
  intros Hc H. destruct msg as [corr results]. unfold coordinator_process_in_message in H.
  destruct (co_correlations c !! corr) as [id|]; [|by injection H as <- <-].
  cbn [co_with co_transactions co_correlations] in H.
  destruct (co_transactions c !! id) as [[s|s|o]|]; [by injection H as <- <-| |by injection H as <- <-..].
  apply bind_Return in H as ([o metas] & _ & H). apply bind_Return in H as (m1 & _ & H).
  injection H as <- <-. by eapply coordinator_ok_insert.
Qed.

Lemma coordinator_step_inv x y : coordinator_step x y → coordinator_inv x → coordinator_inv y.
Proof using.
  intros Hstep (Hd & Hc & Hb). unfold coordinator_inv.
  destruct Hstep as [c m d w c' m' d' w' Hu H|c m d msg c' m' H|c d|c d Hn|c d id qs h c' Hh H
    |c d id c' Hn H|c d id|c d id c' o H|c d d' H]; simpl in *.
  - destruct (coordinator_make_progress_ok _ _ _ _ _ _ _ _ Hd Hc Hu H) as [? Hcalls].
    split_and!; [by eapply data_calls_ok|done|by eapply books_progress].
  - split_and!; [done|by eapply coordinator_ok_message|by eapply books_message].
  - split_and!; [done..|by apply books_take].
  - split_and!; [done| |by apply books_create]. by eapply coordinator_ok_insert; [|simpl; done|constructor].
  - split_and!; [done| |by eapply books_process]. unfold process_transaction in H.
    destruct (co_transactions c !! id) as [t|] eqn:Et; [|done]. cbn in H.
    destruct t as [s| |]; [|done..]. injection H as <-.
    eapply coordinator_ok_insert; [done|simpl; done|]. specialize (Hc _ _ Et). simpl in *.
    apply Forall_app. split; [done|]. constructor; [|constructor]. by split.
  - split_and!; [done| |by eapply books_commit]. unfold commit_transaction in H.
    destruct (co_transactions c !! id) as [t|] eqn:Et; [|done]. cbn in H.
    destruct t as [s| |]; [|done..]. destruct (is_active s); [done|].
    destruct (preparing_complete s); injection H as <-; by eapply coordinator_ok_insert; [|simpl; done|].
  - split_and!; [done| |].
    + intros i t. simpl. intros [_ ?]%lookup_delete_Some. by eapply Hc.
    + eapply (books_update c _ id None); [done..|simpl; lia|done|by left|by intros []].
  - unfold check_transaction_result in H. destruct (co_transactions c !! id) as [t|] eqn:Et; [|done].
    cbn in H. destruct t as [s| |o']; [done|by injection H as <- <-|]. injection H as <- <-.
    split_and!; [done| |].
    + intros i t. simpl. intros [_ ?]%lookup_delete_Some. by eapply Hc.
    + eapply (books_update c _ id None); [done..|simpl; lia|done|by left|by intros []].
  - split_and!; [by eapply dcl_ok_call| |done]. eapply coordinator_ok_calls; [|done..].
    by apply rtc_once.
Qed.

Lemma coordinator_steps_inv x y : rtc coordinator_step x y → coordinator_inv x → coordinator_inv y.
Proof using. induction 1; eauto using coordinator_step_inv. Qed.

(** ** The requests that were sent *)

Definition out_correlation (x : Z * TabletTransactionCoordinatorOutMessage) : Z :=
  let '(CoordinatorOpsRequest corr _) := x.2 in corr.

(** What a call added to the messages that wait to be taken. *)
Definition emitted (c c' : DefaultTabletTransactionCoordinator W T)
    : list TabletTransactionCoordinatorOutMessage :=
  drop (length (co_out_messages c)) (co_out_messages c').

(** A run from a new coordinator with the requests it sent, each with the transaction whose
    commit sent it. *)
Inductive coordinator_sends (n : Z) (d0 : D) :
    list (Z * TabletTransactionCoordinatorOutMessage) →
    DefaultTabletTransactionCoordinator W T * D → Prop :=
| SendsStart : coordinator_sends n d0 [] (coordinator_create n, d0)
| SendsCommit sent c d id c' : coordinator_sends n d0 sent (c, d) →
    0 ≤ co_correlation_counter c < two64 - 1 → commit_transaction c id = Return c' →
    coordinator_sends n d0 (sent ++ (pair id <$> emitted c c')) (c', d)
| SendsOther sent c d c' d' : coordinator_sends n d0 sent (c, d) →
    coordinator_step (c, d) (c', d') → emitted c c' = [] →
    coordinator_sends n d0 sent (c', d').

(** A transaction that is being committed and the correlation id that it awaits. *)
Definition awaited (c : DefaultTabletTransactionCoordinator W T) (corr id : Z)
    (s : CommittingTabletTransactionState) : Prop :=
  co_correlations c !! corr = Some id ∧ co_transactions c !! id = Some (TransactionCommitting s).

Lemma emitted_same c c' : co_out_messages c' = co_out_messages c → emitted c c' = [].
Proof using. intros H. unfold emitted. by rewrite H, drop_all. Qed.

Lemma commit_emits c id c' :
  0 ≤ co_correlation_counter c < two64 - 1 → coordinator_books c →
  commit_transaction c id = Return c' →
  (emitted c c' = [] ∧ co_correlation_counter c' = co_correlation_counter c ∧
   ∀ corr i s, awaited c' corr i s → awaited c corr i s) ∨
  ∃ ops, emitted c c' = [CoordinatorOpsRequest (co_correlation_counter c + 1) ops] ∧
    co_correlation_counter c' = co_correlation_counter c + 1 ∧
    ∀ corr i s, awaited c' corr i s → awaited c corr i s ∨
      corr = co_correlation_counter c + 1 ∧ i = id ∧ cts_tablet_ops s = ops.
Proof using.
  intros Hn Hb H. unfold commit_transaction in H.
  destruct (co_transactions c !! id) as [t|] eqn:Et; [|done]. cbn in H.
  destruct t as [s| |]; [|done..]. destruct (is_active s); [done|].
  assert (∀ corr, co_correlations c !! corr ≠ Some id) as Hno by by eapply books_no_correlation.
  assert (co_correlation_counter c +₆₄ 1 = co_correlation_counter c + 1) as Heq.
  { unfold u64_add. rewrite Z.mod_small; lia. }
  destruct (preparing_complete s) as [ops|]; injection H as <-.
  - right. exists ops. unfold awaited, emitted. simpl. rewrite Heq.
    split_and!; [by rewrite drop_app_length|done|].
    + intros corr i s' [Hc Hs].
      destruct (decide (i = id)) as [->|Hne].
      * right. rewrite lookup_insert_eq in Hs. injection Hs as <-.
        apply lookup_insert_Some in Hc as [[<- _]|[_ Hc]]; [done|by apply Hno in Hc].
      * left. rewrite lookup_insert_ne in Hs by done.
        apply lookup_insert_Some in Hc as [[_ ?]|[_ Hc]]; [congruence|done].
  - left. split_and!; [by apply emitted_same|done|]. intros corr i s' [Hc Hs]. simpl in Hc, Hs.
    apply lookup_insert_Some in Hs as [[_ ?]|[_ Hs]]; done.
Qed.

(** The other calls neither send a request nor make a transaction await one. *)
Lemma other_call_awaits c d c' d' :
  coordinator_books c → coordinator_step (c, d) (c', d') →
  (∃ id, 0 ≤ co_correlation_counter c < two64 - 1 ∧ commit_transaction c id = Return c' ∧ d' = d) ∨
  emitted c c' = [] ∧ co_correlation_counter c' = co_correlation_counter c ∧
  ∀ corr i s, awaited c' corr i s → awaited c corr i s.
Proof using.
  intros Hb Hstep. unfold awaited. remember (c, d) as x eqn:Ex. remember (c', d') as y eqn:Ey.
  destruct Hstep as [c0 m d0 w c1 m' d1 w' Hu H|c0 m d0 msg c1 m' H|c0 d0|c0 d0 Hn|c0 d0 id qs h c1 Hh H
    |c0 d0 id c1 Hn H|c0 d0 id|c0 d0 id c1 o H|c0 d0 d1 H]; injection Ex as -> ->; injection Ey as <- <-.
  - right. unfold coordinator_make_progress in H. pose proof H as Hf.
    apply coordinator_make_progress_frame in Hf as (Hc & Hk & _ & Hts). split_and!; [|done|].
    + apply bind_Return in H as ([[[ts1 m1] d2] w1] & _ & H). injection H as <- _ _ _. by apply emitted_same.
    + intros corr i s [H1 H2]. rewrite Hc in H1. specialize (Hts i). split; [done|].
      destruct (co_transactions c !! i) as [[]|]; [|congruence..]. destruct Hts as [? Hts]. congruence.
  - right. destruct msg as [corr results]. unfold coordinator_process_in_message in H.
    destruct (co_correlations c !! corr) as [id|] eqn:Ec; [|injection H as <- _; by rewrite emitted_same].
    destruct (co_transactions _ !! id) as [[s|s|o]|] eqn:Et; cbn in Et;
      [..|injection H as <- _; rewrite emitted_same by done; simpl; split_and!; [done..|];
          intros corr' i s' [[_ Hx]%lookup_delete_Some ?]; done].
    1,3: injection H as <- _; rewrite emitted_same by done; simpl; split_and!; [done..|];
      intros corr' i s' [[_ Hx]%lookup_delete_Some ?]; done.
    apply bind_Return in H as ([o metas] & _ & H). apply bind_Return in H as (m1 & _ & H).
    injection H as <- _. rewrite emitted_same by done. simpl. split_and!; [done..|].
    intros corr' i s' [[_ Hx]%lookup_delete_Some [[_ ?]|[_ ?]]%lookup_insert_Some]; done.
  - right. split_and!; [by unfold emitted; simpl; rewrite drop_nil|done|done].
  - right. rewrite emitted_same by done; simpl; split_and!; [done..|].
    by intros corr i s [? [[_ ?]|[_ ?]]%lookup_insert_Some].
  - right. unfold process_transaction in H. destruct (co_transactions c !! id) as [t|]; [|done].
    cbn in H. destruct t as [s| |]; [|done..]. injection H as <-.
    rewrite emitted_same by done; simpl; split_and!; [done..|]. by intros corr i s' [? [[_ ?]|[_ ?]]%lookup_insert_Some].
  - left. by exists id.
  - right. rewrite emitted_same by done; simpl; split_and!; [done..|]. by intros corr i s [? [_ ?]%lookup_delete_Some].
  - right. unfold check_transaction_result in H. destruct (co_transactions c !! id) as [t|]; [|done].
    cbn in H. destruct t as [s| |o']; [done|injection H as <- _; by rewrite emitted_same|].
    injection H as <- _. rewrite emitted_same by done; simpl; split_and!; [done..|].
    by intros corr i s [? [_ ?]%lookup_delete_Some].
  - right. split_and!; [by apply emitted_same|done|done].
Qed.

Lemma coordinator_sends_steps n d0 sent x :
  coordinator_sends n d0 sent x → rtc coordinator_step (coordinator_create n, d0) x.
Proof using.
  induction 1 as [|sent c d id c' _ IH Hn H|sent c d c' d' _ IH H _]; [done|..];
    (eapply rtc_r; [exact IH|]); [by eapply StepCommit|done].
Qed.

(** Every run has its requests. *)
Lemma coordinator_steps_send n d0 x :
  dcl_ok d0 → rtc coordinator_step (coordinator_create n, d0) x →
  ∃ sent, coordinator_sends n d0 sent x.
Proof using.
  intros Hd. revert x. apply rtc_ind_r; [by eexists; constructor|].
  intros [c d] [c' d'] Hx Hstep [sent IH].
  destruct (coordinator_steps_inv _ _ Hx (coordinator_create_inv n d0 Hd)) as (_ & _ & Hb).
  destruct (other_call_awaits _ _ _ _ Hb Hstep) as [(id & Hn & H & ->)|(He & _)].
  - eexists. by eapply SendsCommit.
  - eexists. by eapply SendsOther.
Qed.

(** Awaited responses answer the request of their transaction, and no two requests were sent
    under one correlation id. *)
Lemma coordinator_sends_awaited n d0 sent c d :
  dcl_ok d0 → coordinator_sends n d0 sent (c, d) →
  (∀ corr id s, awaited c corr id s → (id, CoordinatorOpsRequest corr (cts_tablet_ops s)) ∈ sent) ∧
  Forall (λ x, out_correlation x ≤ co_correlation_counter c) sent ∧
  NoDup (out_correlation <$> sent).
Proof using.
  intros Hd Hs. remember (c, d) as x eqn:Ex. revert c d Ex.
  induction Hs as [|sent c1 d1 id c' Hs IH Hn H|sent c1 d1 c' d' Hs IH H He]; intros c d [= <- <-].
  - split_and!; [by intros corr id s [? _]|constructor|constructor].
  - destruct (IH _ _ eq_refl) as (IHa & IHn & IHd).
    destruct (coordinator_steps_inv _ _ (coordinator_sends_steps _ _ _ _ Hs)
      (coordinator_create_inv n d0 Hd)) as (_ & _ & Hb).
    destruct (commit_emits _ _ _ Hn Hb H) as [(-> & Hk & Hw)|(ops & -> & Hk & Hw)]; simpl.
    { rewrite app_nil_r, Hk. auto. }
    assert (∀ y, y ∈ sent → out_correlation y ≤ co_correlation_counter c1) as Hle by by apply Forall_forall.
    split_and!.
    + intros corr i s [Ha|(-> & -> & <-)]%Hw; apply elem_of_app; [by left; apply IHa|right].
      by apply list_elem_of_singleton.
    + rewrite Hk. apply Forall_app. split; [|constructor; [unfold out_correlation; simpl; lia|done]].
      eapply Forall_impl; [exact IHn|]. simpl. intros; lia.
    + rewrite fmap_app. apply NoDup_app. split_and!; [done| |apply NoDup_singleton].
      intros corr (y & -> & Hy%Hle)%list_elem_of_fmap Hc%list_elem_of_singleton.
      unfold out_correlation in Hc at 2. simpl in Hc. lia.
  - destruct (IH _ _ eq_refl) as (IHa & IHn & IHd).
    destruct (coordinator_steps_inv _ _ (coordinator_sends_steps _ _ _ _ Hs)
      (coordinator_create_inv n d0 Hd)) as (_ & _ & Hb).
    simpl in Hb. destruct (other_call_awaits _ _ _ _ Hb H) as [(id & Hn & Hc & ->)|(_ & Hk & Hw)].
    + destruct (commit_emits _ _ _ Hn Hb Hc) as [(_ & Hk & Hw)|(ops & He' & _)]; [|congruence].
      rewrite Hk. auto.
    + rewrite Hk. auto.
Qed.

(** ** What a commit asks for *)

(** The operation of a tablet holds exactly when the store has the tablet at the version
    it was resolved at. *)
Definition tablet_current (tables : gmap string TableMetadata) (k : Z) ts : Prop :=
  ∃ table t, tables !! tq_table_name (ts_query ts) = Some table ∧
    tb_tablets table !! (k `div` two32) = Some t ∧ tm_tablet_version t = k `mod` two32.

Definition tablet_stored (tables : gmap string TableMetadata) (k : Z) ts : Prop :=
  ∃ table, tables !! tq_table_name (ts_query ts) = Some table ∧
    is_Some (tb_tablets table !! (k `div` two32)).

(** Stored versions are 32-bit numbers. *)
Definition tables_u32 (tables : gmap string TableMetadata) : Prop :=
  ∀ name table id t, tables !! name = Some table → tb_tablets table !! id = Some t →
    in_u32 (tm_tablet_version t).

Lemma create_tablet_key_parts m :
  metadata_u32 m →
  create_tablet_key m `div` two32 = tm_tablet_id m ∧
  create_tablet_key m `mod` two32 = tm_tablet_version m.
Proof using.
  intros [Hid Hv]. rewrite create_tablet_key_sum by done. unfold in_u32 in *.
  rewrite Z.div_add_l, Z.div_small, (Z.add_comm (_ * _)), Z_mod_plus_full, Z.mod_small by lia. lia.
Qed.

Lemma u32_succ_inj x y : in_u32 x → in_u32 y → x +₃₂ 1 = y +₃₂ 1 → x = y.
Proof using.
  intros Hx Hy H. unfold u32_add, in_u32 in *.
  assert (x + 1 < two32 ∨ x + 1 = two32) as [?|Hxe] by lia;
    assert (y + 1 < two32 ∨ y + 1 = two32) as [?|Hye] by lia.
  - rewrite !Z.mod_small in H by lia. lia.
  - rewrite Hye, Z_mod_same_full, Z.mod_small in H by lia. lia.
  - rewrite Hxe, Z_mod_same_full, Z.mod_small in H by lia. lia.
  - lia.
Qed.

Lemma get_tablet_op_holds tables k ts :
  tables_u32 tables → final k ts →
  op_supported (get_tablet_op ts) ∧
  (op_holds tables (get_tablet_op ts) = true ↔ tablet_current tables k ts).
Proof using.
  intros Htab (base & Hk & Hu & Hts). destruct (create_tablet_key_parts base Hu) as [Hdiv Hmod].
  rewrite Hk in Hdiv, Hmod. unfold tablet_current. rewrite Hdiv, Hmod. destruct Hu as [_ Hu].
  unfold get_tablet_op, op_supported, op_holds. simpl.
  destruct (tb_is_dirty (ts_tablet ts)); (split; [done|]);
    destruct (tables !! tq_table_name (ts_query ts)) as [table|] eqn:Et; simpl;
    try (split; [done|by intros (? & ? & ? & _)]).
  - destruct Hts as [-> ->]. destruct (tb_tablets table !! tm_tablet_id base) as [t|] eqn:Ei.
    + rewrite bool_decide_eq_true. split.
      * intros Hv%u32_succ_inj; [|done|by eapply Htab]. by exists table, t.
      * intros (table' & t' & [= <-] & Ht' & <-). rewrite Ei in Ht'. by injection Ht' as <-.
    + split; [done|]. intros (table' & t' & [= <-] & Ht' & _). by rewrite Ei in Ht'.
  - rewrite Hts. destruct (tb_tablets table !! tm_tablet_id base) as [t|] eqn:Ei.
    + rewrite bool_decide_eq_true. split.
      * intros Hv. by exists table, t.
      * intros (table' & t' & [= <-] & Ht' & <-). rewrite Ei in Ht'. by injection Ht' as <-.
    + split; [done|]. intros (table' & t' & [= <-] & Ht' & _). by rewrite Ei in Ht'.
Qed.

(** ** What the tablet store answers *)

(** A result of the kind of its operation, with the existing tablet if it failed. *)
Definition result_matches (op : TabletOp) (r : TabletOpResult) : Prop :=
  match to_op op, tor_op_result r with
  | Some (CheckTablet _ _), Some (CheckTabletResult existing) =>
      tor_status r = TabletOpSucceeded ∨ is_Some existing
  | Some (UpdateTablet (Some _)), Some (UpdateTabletResult existing) =>
      tor_status r = TabletOpSucceeded ∨ is_Some existing
  | _, _ => False
  end.

Lemma complete_op_matches op r o metas :
  result_matches op r →
  ∃ metas', complete_op (o, metas) (op, r)
    = Return (if decide (tor_status r = TabletOpSucceeded) then o else TransactionFailed, metas').
Proof using.
  unfold result_matches, complete_op. rewrite bool_decide_decide.
  destruct (to_op op) as [[| | |[u|]|]|]; try done;
    destruct (tor_op_result r) as [[]|]; try done; intros Hm;
    destruct (decide (tor_status r = TabletOpSucceeded)); try by eexists.
  all: destruct Hm as [?|[e ->]]; [done|]; by eexists.
Qed.

Lemma committing_complete_matches ops rs :
  Forall2 result_matches ops rs →
  ∃ metas, committing_complete {| cts_tablet_ops := ops |} rs
    = Return (if forallb (λ r, bool_decide (tor_status r = TabletOpSucceeded)) rs
              then TransactionSucceeded else TransactionFailed, metas).
Proof using.
  intros Hm. unfold committing_complete. simpl.
  assert (∀ o metas0, ∃ metas, ofold complete_op (o, metas0) (zip ops rs)
    = Return (if forallb (λ r, bool_decide (tor_status r = TabletOpSucceeded)) rs
              then o else TransactionFailed, metas)) as Hgen; [|by apply Hgen].
  induction Hm as [|op r ops rs Hr Hm IH]; intros o metas0; [by exists metas0|].
  cbn [zip zip_with ofold forallb].
  destruct (complete_op_matches op r o metas0 Hr) as [metas1 ->]. cbn [mbind outcome_bind].
  rewrite bool_decide_decide. destruct (decide (tor_status r = TabletOpSucceeded)); simpl; [apply IH|].
  destruct (IH TransactionFailed metas1) as [metas ->]. exists metas. by destruct (forallb _ rs).
Qed.

Lemma prepare_tablet_op_matches tables k ts r :
  final k ts → tablet_stored tables k ts → prepare_tablet_op tables (get_tablet_op ts) = Return r →
  result_matches (get_tablet_op ts) r.
Proof using.
  intros (base & Hk & Hu & Hts) (table & Htable & t & Ht) H.
  destruct (create_tablet_key_parts base Hu) as [Hdiv _]. rewrite Hk in Hdiv. rewrite Hdiv in Ht.
  unfold prepare_tablet_op, get_tablet_op, result_matches in *. simpl in *. rewrite Htable in H.
  destruct (tb_is_dirty (ts_tablet ts)); simpl in *.
  - destruct Hts as [Hid _]. rewrite Hid, Ht in H. injection H as <-. simpl. right. by eexists.
  - rewrite Hts, Ht in H. destruct (decide _); injection H as <-; simpl; [by left|right; by eexists].
Qed.

Lemma prepare_tablet_ops_forall tables ops rs :
  prepare_tablet_ops tables ops = Return rs →
  Forall2 (λ op r, prepare_tablet_op tables op = Return r) ops rs.
Proof using.
  revert rs. induction ops as [|op ops IH]; intros rs H; simpl in H; [injection H as <-; constructor|].
  apply bind_Return in H as (r & Hr & H). apply bind_Return in H as (rs' & Hrs & H).
  injection H as <-. constructor; auto.
Qed.

(** Committing hands the prepared results on. *)
Lemma commit_tablet_ops_results tables l tables' rs :
  commit_tablet_ops tables l = Return (tables', rs) → rs = l.*2.
Proof using.
  revert tables rs. induction l as [|[op r] l IH]; intros tables rs H; simpl in H.
  { by injection H as <- <-. }
  apply bind_Return in H as ([t1 r1] & H1 & H). apply bind_Return in H as ([t2 rs2] & H2 & H).
  injection H as <- <-. apply IH in H2 as ->. simpl. f_equal. unfold commit_tablet_op in H1.
  apply bind_Return in H1 as (table & _ & H1). apply bind_Return in H1 as (kind & _ & H1).
  apply bind_Return in H1 as ([table1 r2] & H1 & Heq). injection Heq as <- <-.
  destruct kind; simpl in H1; try done; outcome_inv; done.
Qed.

Lemma on_apply_outcome tables ops :
  Forall op_supported ops →
  (∀ rs, prepare_tablet_ops tables ops = Return rs → Forall2 result_matches ops rs) →
  ∃ tables' response,
    on_apply_tablets_request tables {| tr_tablet_ops := ops |}
    = Return (tables', (ExecuteTabletOpsResponse, response)) ∧
    tables' = (if forallb (op_holds tables) ops then foldl op_effect tables ops else tables) ∧
    ∃ metas, committing_complete {| cts_tablet_ops := ops |} (trs_tablet_results response)
      = Return (if forallb (op_holds tables) ops then TransactionSucceeded else TransactionFailed,
                metas).
Proof using.
  intros Hsup Hm. unfold on_apply_tablets_request. simpl.
  destruct (prepare_tablet_ops_spec tables ops Hsup) as (rs & Hrs & Hall & Hres).
  specialize (Hm rs Hrs). destruct (committing_complete_matches ops rs Hm) as [metas Hcomplete].
  rewrite Hrs. cbn [mbind outcome_bind]. rewrite Hall in *.
  destruct (forallb (op_holds tables) ops) eqn:E.
  - destruct (commit_tablet_ops_spec tables ops rs tables Hres E eq_refl) as (rs' & Hc & _).
    rewrite Hc. cbn [mbind outcome_bind]. apply commit_tablet_ops_results in Hc as ->.
    eexists _, _. split_and!; [done..|]. simpl. exists metas.
    rewrite snd_zip; [done|]. by rewrite (Forall2_length _ _ _ Hm).
  - eexists _, _. split_and!; [done..|]. by exists metas.
Qed.

(** The tablets that a transaction works on, with the keys they were resolved under. *)
Definition transaction_tablet (s : PreparingTabletTransactionState W T) (k : Z) ts : Prop :=
  ∃ p, p ∈ pts_process_requests s ∧ ps_tablets p !! k = Some ts.

Lemma inactive_final d s k ts :
  Forall (process_ok d) (pts_process_requests s) → is_active s = false →
  transaction_tablet s k ts → final k ts.
Proof using.
  intros Hok Hact (p & Hp & Hk). rewrite Forall_forall in Hok. destruct (Hok p Hp) as [_ H].
  assert (process_active p = false) as Hap.
  { apply not_true_is_false. intros Ht. unfold is_active in Hact. apply not_true_iff_false in Hact.
    apply Hact, existsb_exists. exists p. split; [by apply list_elem_of_In|done]. }
  unfold process_active in Hap. destruct (ps_status p); try done. by apply H.
Qed.

Lemma transaction_ops_elem s op :
  op ∈ pts_process_requests s ≫= process_ops ↔
  ∃ k ts, transaction_tablet s k ts ∧ op = get_tablet_op ts.
Proof using.
  rewrite list_elem_of_bind. unfold process_ops, transaction_tablet. split.
  - intros (p & (ts & -> & ([k ts'] & -> & Hx)%list_elem_of_fmap)%list_elem_of_fmap & Hp).
    rewrite hash_iter_perm, elem_of_map_to_list in Hx. exists k, ts'. split; [|done]. by exists p.
  - intros (k & ts & (p & Hp & Hk) & ->). exists p. split; [|done]. apply list_elem_of_fmap_2.
    apply list_elem_of_fmap. exists (k, ts). split; [done|]. by rewrite hash_iter_perm, elem_of_map_to_list.
Qed.

Lemma commit_transaction_inv (c : DefaultTabletTransactionCoordinator W T) id s c' :
  co_transactions c !! id = Some (TransactionPreparing s) → commit_transaction c id = Return c' →
  is_active s = false ∧
  let corr := co_correlation_counter c +₆₄ 1 in
  let ops := pts_process_requests s ≫= process_ops in
  co_transactions c' = <[id := TransactionCommitting {| cts_tablet_ops := ops |}]> (co_transactions c) ∧
  co_correlations c' = <[corr := id]> (co_correlations c) ∧
  co_out_messages c' = co_out_messages c ++ [CoordinatorOpsRequest corr ops].
Proof using.
  intros Hs H. unfold commit_transaction in H. rewrite Hs in H. cbn in H.
  destruct (is_active s) eqn:Ea; [done|]. split; [done|]. unfold preparing_complete in H.
  assert (existsb process_failed (pts_process_requests s) = false) as Hf.
  { apply not_true_iff_false. intros (p & Hp & Hpf)%existsb_exists.
    apply not_true_iff_false in Ea. apply Ea, existsb_exists. exists p. split; [done|].
    unfold process_failed in Hpf. unfold process_active. by destruct (ps_status p). }
  rewrite Hf in H. by injection H as <-.
Qed.

Lemma forallb_ops_current tables s d :
  tables_u32 tables → Forall (process_ok d) (pts_process_requests s) → is_active s = false →
  let ops := pts_process_requests s ≫= process_ops in
  Forall op_supported ops ∧
  (forallb (op_holds tables) ops = true ↔
   ∀ k ts, transaction_tablet s k ts → tablet_current tables k ts).
Proof using.
  intros Htab Hok Hact ops. split.
  { apply Forall_forall. intros op (k & ts & Hts & ->)%transaction_ops_elem.
    by eapply get_tablet_op_holds, inactive_final. }
  rewrite forallb_forall. split.
  - intros H k ts Hts. eapply get_tablet_op_holds; [done|by eapply inactive_final|].
    apply H, list_elem_of_In, transaction_ops_elem. by exists k, ts.
  - intros H op (k & ts & Hts & ->)%list_elem_of_In%transaction_ops_elem.
    eapply get_tablet_op_holds; [done|by eapply inactive_final|by apply H].
Qed.

(** * Claims *)

(** C17: Commits are optimistic and atomic.  For every transaction that can be committed
    after any calls, the request to the tablet store checks or updates exactly the
    tablets the transaction worked on; the store applies it, and the transaction
    succeeds exactly when the store still has each of these tablets at the version
    the transaction resolved it at.  Then the written tablets, one version later,
    are in the store; otherwise the store is unchanged. *)
Theorem optimistic_commit n d0 c d id s c' tables :
  dcl_ok d0 → rtc coordinator_step (coordinator_create n, d0) (c, d) →
  co_transactions c !! id = Some (TransactionPreparing s) → commit_transaction c id = Return c' →
  tables_u32 tables → (∀ k ts, transaction_tablet s k ts → tablet_stored tables k ts) →
  ∃ ops tables' response outcome metas,
    co_transactions c' !! id = Some (TransactionCommitting {| cts_tablet_ops := ops |}) ∧
    co_out_messages c'
      = co_out_messages c ++ [CoordinatorOpsRequest (co_correlation_counter c +₆₄ 1) ops] ∧
    (∀ op, op ∈ ops ↔ ∃ k ts, transaction_tablet s k ts ∧ op = get_tablet_op ts) ∧
    on_apply_tablets_request tables {| tr_tablet_ops := ops |}
      = Return (tables', (ExecuteTabletOpsResponse, response)) ∧
    committing_complete {| cts_tablet_ops := ops |} (trs_tablet_results response)
      = Return (outcome, metas) ∧
    (outcome = TransactionSucceeded ↔
      ∀ k ts, transaction_tablet s k ts → tablet_current tables k ts) ∧
    tables' = (if decide (outcome = TransactionSucceeded) then foldl op_effect tables ops
               else tables) ∧
    (∀ k ts, transaction_tablet s k ts → tb_is_dirty (ts_tablet ts) = true →
      tm_tablet_id (tb_metadata (ts_tablet ts)) = k `div` two32 ∧
      tm_tablet_version (tb_metadata (ts_tablet ts)) = k `mod` two32 +₃₂ 1).
Proof using.
  intros Hd0 Hreach Hs Hcommit Htab Hstored.
  destruct (coordinator_steps_inv _ _ Hreach (coordinator_create_inv n d0 Hd0)) as (_ & Hc & _).
  specialize (Hc _ _ Hs). simpl in Hc.
  destruct (commit_transaction_inv c id s c' Hs Hcommit) as (Hact & Ht & _ & Hm).
  destruct (forallb_ops_current tables s d Htab Hc Hact) as [Hsup Hiff].
  destruct (on_apply_outcome tables (pts_process_requests s ≫= process_ops) Hsup)
    as (tables' & response & Happly & Htables & metas & Hcomplete).
  { intros rs Hrs%prepare_tablet_ops_forall. apply Forall2_same_length_lookup.
    split; [by apply (Forall2_length _ _ _ Hrs)|]. intros i op r Hop Hr'.
    eapply Forall2_lookup_lr in Hrs as Hr; [|done..].
    apply list_elem_of_lookup_2, transaction_ops_elem in Hop as (k & ts & Hts & ->).
    eapply prepare_tablet_op_matches; [by eapply inactive_final|by apply Hstored|done]. }
  eexists _, _, response, _, metas. split_and!.
  - by rewrite Ht, lookup_insert_eq.
  - done.
  - apply transaction_ops_elem.
  - exact Happly.
  - exact Hcomplete.
  - rewrite <- Hiff. by destruct (forallb _ _).
  - rewrite Htables. by destruct (forallb _ _).
  - intros k ts Hts Hdirty. destruct (inactive_final d s k ts Hc Hact Hts) as (base & <- & Hu & Hn).
    rewrite Hdirty in Hn. destruct Hn as [-> ->].
    by destruct (create_tablet_key_parts base Hu) as [-> ->].
Qed.

(** C24: A response completes its own transaction.  Take any run of calls with the requests
    that it sent.  The response under a correlation id that is awaited completes exactly the
    transaction whose commit sent the one request under that id, with the outcome of the
    results it carries for the operations of that request; no other transaction changes, and
    nothing is awaited for it any more, so that a second response changes nothing. *)
Theorem response_completes_transaction n d0 sent c d (m : M) corr id t results c' m' :
  dcl_ok d0 → coordinator_sends n d0 sent (c, d) →
  co_correlations c !! corr = Some id → co_transactions c !! id = Some t →
  coordinator_process_in_message c m (CoordinatorOpsResponse corr results) = Return (c', m') →
  ∃ ops outcome metas, t = TransactionCommitting {| cts_tablet_ops := ops |} ∧
    (id, CoordinatorOpsRequest corr ops) ∈ sent ∧
    (∀ id' ops', (id', CoordinatorOpsRequest corr ops') ∈ sent → id' = id ∧ ops' = ops) ∧
    committing_complete {| cts_tablet_ops := ops |} results = Return (outcome, metas) ∧
    co_transactions c' = <[id := TransactionCompleted outcome]> (co_transactions c) ∧
    (∀ corr', co_correlations c' !! corr' ≠ Some id) ∧
    (∀ m1 results', coordinator_process_in_message (M:=M) c' m1 (CoordinatorOpsResponse corr results')
                    = Return (c', m1)).
Proof using.
  intros Hd0 Hsends Hcorr Ht H.
  destruct (coordinator_steps_inv _ _ (coordinator_sends_steps _ _ _ _ Hsends)
    (coordinator_create_inv n d0 Hd0)) as (_ & _ & Hb).
  destruct (coordinator_sends_awaited _ _ _ _ _ Hd0 Hsends) as (Hsent & _ & Hunique).
  destruct (cb_correlation _ Hb _ _ Hcorr) as (_ & _ & Hk). destruct (Hk t Ht) as [[ops] ->].
  specialize (Hsent corr id _ (conj Hcorr Ht)). simpl in Hsent.
  unfold coordinator_process_in_message in H. rewrite Hcorr in H. cbn in H. rewrite Ht in H.
  apply bind_Return in H as ([o metas] & Hcomplete & H). apply bind_Return in H as (m1 & _ & H).
  injection H as <- <-. exists ops, o, metas. split_and!; [done..| |done|done| |]; simpl.
  - intros id' ops' Hsent'. by injection (NoDup_fmap_key out_correlation sent _ _ Hunique Hsent' Hsent eq_refl).
  - intros corr' [Hne Hx]%lookup_delete_Some. by destruct (cb_unique _ Hb _ _ _ Hcorr Hx).
  - intros m2 results'. by rewrite lookup_delete_eq.
Qed.
End processes.

(** C37: Keys separate tablets and versions.  The key of a tablet fits 64 bits, gives back
    its id and its version, and orders tablets by id and then by version. *)
Theorem tablet_key_faithful m m' :
  metadata_u32 m → metadata_u32 m' →
  in_u64 (create_tablet_key m) ∧ create_tablet_key m `div` two32 = tm_tablet_id m ∧
  create_tablet_key m `mod` two32 = tm_tablet_version m ∧
  (create_tablet_key m < create_tablet_key m' ↔
   tm_tablet_id m < tm_tablet_id m' ∨
   tm_tablet_id m = tm_tablet_id m' ∧ tm_tablet_version m < tm_tablet_version m').
Proof.
  intros Hm Hm'. destruct (create_tablet_key_parts m Hm) as [Hdiv Hmod].
  split_and!; [|done..|].
  all: destruct Hm as [Hid Hv], Hm' as [Hid' Hv']; rewrite !create_tablet_key_sum by done;
    unfold in_u32, in_u64 in *; lia.
Qed.

(** ** What modelling showed *)

(** A failed process keeps its transaction active for good: the commit panics instead of
    failing the transaction. *)
Lemma failed_process_blocks_commit {W T} `{!HashOrder Z}
    (c : DefaultTabletTransactionCoordinator W T) id s p :
  co_transactions c !! id = Some (TransactionPreparing s) → p ∈ pts_process_requests s →
  ps_status p = ProcessFailed →
  has_transaction_pending_process c id = Return true ∧ commit_transaction c id = Panic.
Proof.
  intros Hs Hp Hf. assert (is_active s = true) as Ha.
  { apply existsb_exists. exists p. split; [by apply list_elem_of_In|].
    unfold process_active. by rewrite Hf. }
  unfold has_transaction_pending_process, commit_transaction. rewrite Hs. cbn. by rewrite Ha.
Qed.

(** A response without results counts as a success. *)
Lemma empty_response_succeeds s : committing_complete s [] = Return (TransactionSucceeded, []).
Proof. unfold committing_complete. by rewrite zip_with_nil_r. Qed.

(** Tablets of different tables with the same id and version share one key: the later one
    replaces the earlier. *)
Lemma tables_share_key {T} q q' m m' :
  create_tablet_key m = create_tablet_key m' →
  track_resolved (T:=T) ∅ [(q, m); (q', m')] = {[ create_tablet_key m' := tablet_state_create q' m' ]}.
Proof. intros H. unfold track_resolved, insert_states. simpl. rewrite H. apply insert_insert_eq. Qed.

(** A request of two updates of which the second conflicts: the store keeps its tables,
    the transaction fails, and yet the metadata cache is told that the first update took
    place. *)
Example uncommitted_version_cached :
  let table := {| tb_config := {| tc_table_name := "A"; tc_max_tablet_size := 0;
                                  tc_min_tablet_size := 0; tc_initial_tablet_count := 2 |};
                  tb_tablets := {[ 10 := default_tablet 10; 20 := default_tablet 20 ]} |} in
  let update id version :=
    {| to_table_name := "A";
       to_op := Some (UpdateTablet (Some
         {| tm_tablet_id := id; tm_tablet_version := version; tm_deleted := false;
            tm_blob_encryption_key := []; tm_blob_size := 0; tm_blob_hash := [];
            tm_blob_uri := "new" |})) |} in
  let ops := [update 10 1; update 20 7] in
  ∃ response metas new,
    on_apply_tablets_request {[ "A" := table ]} {| tr_tablet_ops := ops |}
    = Return ({[ "A" := table ]}, (ExecuteTabletOpsResponse, response)) ∧
    committing_complete {| cts_tablet_ops := ops |} (trs_tablet_results response)
    = Return (TransactionFailed, ("A", new, false) :: metas) ∧
    tm_tablet_id new = 10 ∧ tm_tablet_version new = 1.
Proof. eexists _, _, _. split_and!; [by vm_compute..|done|done]. Qed.

(** ** The default data cache keeps the laws *)

Section default_data_cache.
Context {T P : Type} `{HSer : !TabletDataSerializer T, HPol : !TabletDataCachePolicy P T,
  HK : !HashOrder string}.
Variable sha256 : bytes → bytes.
Variable base64 : bytes → string.
Implicit Types (d : DefaultTabletDataCache T P) (cells : DataCells T).

#[local] Existing Instance DefaultTabletDataCache_instance.

Definition store_extend cells cells' : Prop :=
  cells_extend (dc_store_cells cells) (dc_store_cells cells').

#[local] Instance store_extend_preorder : PreOrder store_extend.
Proof. split; [by intros c|]. intros c1 c2 c3 H12 H23. unfold store_extend in *. by etrans. Qed.

Lemma resolve_pending_extend b e cells b' cells' :
  resolve_pending_cache_entry b e cells = Return (b', cells') → store_extend cells cells'.
Proof using.
  intros H. unfold resolve_pending_cache_entry in H.
  apply bind_Return in H as ([state c1] & H & Heq). injection Heq as _ <-.
  destruct (ce_state e), (tb_batch_state b); try by injection H as _ <-.
  all: try case_bool_decide; try by injection H as _ <-.
  all: apply bind_Return in H as (c2 & Hset & H); injection H as _ <-; unfold store_extend; simpl.
  all: try done; first [by eapply set_result_extend|by eapply set_error_extend].
Qed.

Lemma add_pending_extend b e cells b' e' cells' :
  add_pending_cache_entry b e cells = Return (b', e', cells') → store_extend cells cells'.
Proof using.
  intros H. unfold add_pending_cache_entry in H.
  destruct (ce_state e); try by injection H as _ _ <-.
  all: apply bind_Return in H as ([b1 c1] & H & Heq); injection Heq as _ _ <-.
  all: by eapply resolve_pending_extend.
Qed.

Lemma register_extend b entries cells keys b' entries' cells' :
  register_pending_cache_entries b entries cells keys = Return (b', entries', cells') →
  store_extend cells cells'.
Proof using.
  unfold register_pending_cache_entries. intros H.
  apply (ofold_invariant (λ st, store_extend cells st.2)) in H; [done| |done].
  clear. intros [[b entries] c] key [[b' entries'] c'] Hc H. simpl in *.
  destruct (entries !! key) as [e|]; [|by injection H as _ _ <-].
  apply bind_Return in H as ([[b1 e1] c1] & H & Heq). injection Heq as _ _ <-.
  etrans; [done|]. by eapply add_pending_extend.
Qed.

Lemma start_batch_extend d make keys d' h :
  (∀ id c, store_extend c (make id c).1.2) →
  start_batch d make keys = Return (d', h) → store_extend (dc_cells d) (dc_cells d').
Proof using.
  intros Hmake H. unfold start_batch in H. specialize (Hmake (dc_batch_counter d +₆₄ 1) (dc_cells d)).
  destruct (make _ _) as [[b c] handle]. apply bind_Return in H as ([[b1 entries] c1] & H & Heq).
  injection Heq as <- _. simpl in *. etrans; [done|]. by eapply register_extend.
Qed.

Lemma make_progress_extend d instant d' :
  data_cache_make_progress d instant = Return d' → store_extend (dc_cells d) (dc_cells d').
Proof using.
  intros H. unfold data_cache_make_progress in H.
  apply bind_Return in H as ([[[entries batches] cells] failed] & H & Heq).
  destruct (evict _ _ _ _) as [policy evicted]. injection Heq as <-. simpl.
  apply (ofold_invariant (λ st, store_extend (dc_cells d) st.1.2)) in H; [done| |done].
  clear. intros [[[entries batches] c] failed] [key e] [[[entries' batches'] c'] failed'] Hc H.
  simpl in *. destruct (take_waiting_batches e) as [e1 waiting].
  apply bind_Return in H as ([batches1 c1] & H & Heq). injection Heq as _ _ <- _.
  etrans; [exact Hc|]. clear Hc.
  apply (ofold_invariant (λ st, store_extend c st.2)) in H; [done| |done].
  clear. intros [batches c0] id [batches' c0'] Hc H. simpl in *.
  apply bind_Return in H as (b & _ & H). apply bind_Return in H as ([b1 c1] & H & Heq).
  injection Heq as _ <-. etrans; [done|]. by eapply resolve_pending_extend.
Qed.

Lemma foldl_load_tablet_cells d metas : dc_cells (foldl load_tablet d metas) = dc_cells d.
Proof using.
  revert d. induction metas as [|m metas IH]; intros d; [done|]. simpl. rewrite IH.
  unfold load_tablet, insert_entry. by destruct (_ !! _).
Qed.

Lemma store_tablets_cells d l d' : ofold store_tablet d l = Return d' → dc_cells d' = dc_cells d.
Proof using.
  intros H. apply (ofold_invariant (λ d', dc_cells d' = dc_cells d)) in H; [done| |done].
  clear. intros d' [[m v] c] d'' Heq H. unfold store_tablet in H. destruct (_ !! _); [done|].
  by injection H as <-.
Qed.

Lemma data_call_extend d d' :
  @data_call _ T (DefaultTabletDataCache_instance sha256 base64) d d' →
  store_extend (dc_cells d) (dc_cells d').
Proof using.
  destruct 1 as [config d' H|instant d' H|metas d' h H|data d' metas h H|msg d' H|]; simpl in *.
  - by injection H as <-.
  - by eapply make_progress_extend.
  - unfold data_cache_load_tablets in H. apply start_batch_extend in H; [|done].
    by rewrite foldl_load_tablet_cells in H.
  - unfold data_cache_store_tablets in H. destruct (prepare_tablet_writes _ _ data) as [ms [cs|e]].
    + apply bind_Return in H as (d1 & H1 & H). apply bind_Return in H as ([d2 h2] & H2 & H).
      injection H as <- _ _. apply store_tablets_cells in H1. rewrite <- H1.
      eapply start_batch_extend; [|done]. intros id c. apply alloc_cell_extend.
    + injection H as <- _ _. apply alloc_cell_extend.
  - unfold data_cache_process_in_message in H. destruct (_ !! _) as [key|]; [|by injection H as <-].
    apply bind_Return in H as (e & _ & H). apply bind_Return in H as (e1 & _ & H).
    by injection H as <-.
  - done.
Qed.

Lemma prepare_tablet_writes_versions data :
  let '(metas, prepared) := prepare_tablet_writes sha256 base64 data in
  match prepared with
  | Ok _ => Forall2 (λ x m', next_version x.1 m') data metas
  | Err _ => True
  end.
Proof using.
  induction data as [|[m v] data IH]; simpl; [constructor|]. unfold prepare_tablet_write.
  destruct (serialize v) as [contents|]; simpl; [|done].
  destruct (prepare_tablet_writes sha256 base64 data) as [metas [cs|]]; simpl; [|done].
  by constructor.
Qed.

#[global] Instance DefaultTabletDataCache_laws :
  @DataCacheLaws (DefaultTabletDataCache T P) T (DefaultTabletDataCache_instance sha256 base64).
Proof using.
  refine (@Build_DataCacheLaws _ _ (DefaultTabletDataCache_instance sha256 base64)
    (λ d, cells_ok (dc_store_cells (dc_cells d)))
    (λ d h, check_result (dc_store_cells (dc_cells d)) h = Some (Err StorageFailed)) _ _ _ _).
  - intros d data d' metas h Hok H. simpl in H. unfold data_cache_store_tablets in H.
    pose proof (prepare_tablet_writes_versions data) as Hv.
    destruct (prepare_tablet_writes sha256 base64 data) as [ms [cs|e]].
    + left. apply bind_Return in H as (d1 & _ & H). apply bind_Return in H as ([d2 h2] & _ & H).
      by injection H as _ <- _.
    + right. injection H as <- _ <-. unfold check_result. simpl. by rewrite lookup_insert_eq.
  - intros d h H. simpl. by rewrite H.
  - intros d d' Hok Hc%data_call_extend. by apply Hc.
  - intros d d' h Hok Hh Hc%data_call_extend. by apply (Hc Hok).
Defined.
End default_data_cache.

(** ** Concrete instances *)

#[local] Instance coordinator_order_Z : HashOrder Z := default_hash_order Z.
#[local] Instance coordinator_order_string : HashOrder string := default_hash_order string.
#[local] Instance coordinator_order_pair : HashOrder (string * Z) := default_hash_order (string * Z).

#[local] Instance coordinator_sample_data :
  TabletDataCache (DefaultTabletDataCache bytes unit) bytes :=
  DefaultTabletDataCache_instance id String.string_of_list_byte.

#[local] Instance coordinator_sample_laws : DataCacheLaws (DefaultTabletDataCache bytes unit) bytes :=
  DefaultTabletDataCache_laws id String.string_of_list_byte.

(** A coordinator with both caches. *)
Abbreviation SampleParts :=
  (DefaultTabletTransactionCoordinator unit bytes * DefaultTabletMetadataCache unit
   * DefaultTabletDataCache bytes unit)%type.

Definition sample_stored (id version : Z) : TabletMetadata :=
  {| tm_tablet_id := id; tm_tablet_version := version; tm_deleted := false;
     tm_blob_encryption_key := []; tm_blob_size := 1; tm_blob_hash := [x01];
     tm_blob_uri := (pretty id +:+ "_" +:+ pretty version)%string |}.

(** Writes every tablet it is given. *)
Definition sample_write : ProcessHandler unit bytes := λ _ refs w,
  Return (w, (λ x, tablet_set_contents [x07] x.2) <$> refs).

Definition sample_transaction : outcome SampleParts :=
  m ← metadata_cache_init (metadata_cache_create 0)
        {| tmc_table_configs := [ {| tmc_table_name := "A"; tmc_table_region_size := 1073741824 |} ] |};
  '(m, _) ← metadata_cache_process_in_message m ()
        (ListResponse 1 [ {| tor_table_name := "A"; tor_status := TabletOpSucceeded;
           tor_op_result := Some (ListTabletResult 0 1073741823 [sample_stored 10 3]) |} ]);
  c ← process_transaction (create_transaction (coordinator_create 0)).1 2
        [table_query_create 1 "A" [5]] sample_write;
  Return (c, m, data_cache_create 0 ()).

Definition sample_round (x : SampleParts) : outcome SampleParts :=
  '(c, m, d, _) ← coordinator_make_progress x.1.1 x.1.2 x.2 ();
  Return (c, m, d).

Definition sample_data (f : DefaultTabletDataCache bytes unit →
    outcome (DefaultTabletDataCache bytes unit)) (x : SampleParts) : outcome SampleParts :=
  d ← f x.2; Return (x.1.1, x.1.2, d).

(** The calls up to the end of the process. *)
Definition sample_calls : list (SampleParts → outcome SampleParts) :=
  [ sample_round; sample_round;
    sample_data (λ d, data_cache_process_in_message d (LoadResponse 1 {| ltr_status := 2 |} [x01]));
    sample_data (λ d, data_cache_make_progress d 1);
    sample_round;
    sample_data (λ d, data_cache_process_in_message d (StoreResponse 2 {| str_status := 2 |}));
    sample_data (λ d, data_cache_make_progress d 2);
    sample_round ].

Definition sample_parts (n : nat) : SampleParts :=
  match x ← sample_transaction; ofold (λ x f, f x) x (take n sample_calls) with
  | Return x => x
  | Panic => (coordinator_create 0, metadata_cache_create 0, data_cache_create 0 ())
  end.

Definition sample_tables : gmap string TableMetadata :=
  {[ "A" := {| tb_config := {| tc_table_name := "A"; tc_max_tablet_size := 0;
                               tc_min_tablet_size := 0; tc_initial_tablet_count := 1 |};
               tb_tablets := {[ 10 := sample_stored 10 3 ]} |} ]}.

Abbreviation sample_pair x := ((x : SampleParts).1.1, (x : SampleParts).2).

Lemma sample_round_step x y :
  coordinator_u32 x.1.1 → sample_round x = Return y → coordinator_step (sample_pair x) (sample_pair y).
Proof.
  intros Hu H. unfold sample_round in H. apply bind_Return in H as ([[[c m] d] w] & H & Heq).
  injection Heq as <-. by eapply StepMakeProgress.
Qed.

Lemma sample_data_step f x y :
  (∀ d d', f d = Return d' → data_call d d') → sample_data f x = Return y →
  coordinator_step (M:=DefaultTabletMetadataCache unit) (sample_pair x) (sample_pair y).
Proof.
  intros Hf H. unfold sample_data in H. apply bind_Return in H as (d & H & Heq).
  injection Heq as <-. apply StepData. by apply Hf.
Qed.

Lemma sample_write_ok : process_handler_ok sample_write.
Proof.
  intros id refs w w' lent [= _ <-]. apply Forall2_fmap_r, Forall_Forall2_diag, Forall_true.
  intros x. right. by eexists.
Qed.

(** The widths of a concrete coordinator. *)
Definition metadata_u32b (m : TabletMetadata) : bool :=
  (0 <=? tm_tablet_id m) && (tm_tablet_id m <? two32) &&
  (0 <=? tm_tablet_version m) && (tm_tablet_version m <? two32).

Definition coordinator_u32b {W} (c : DefaultTabletTransactionCoordinator W bytes) : bool :=
  forallb (λ x : Z * TabletTransactionState W bytes,
    match x.2 with
    | TransactionPreparing s =>
        forallb (λ p, forallb (λ y : Z * TabletState bytes, metadata_u32b (tb_metadata (ts_tablet y.2)))
                        (map_to_list (ps_tablets p))) (pts_process_requests s)
    | _ => true
    end) (map_to_list (co_transactions c)).

Lemma coordinator_u32b_sound {W} (c : DefaultTabletTransactionCoordinator W bytes) :
  coordinator_u32b c = true → coordinator_u32 c.
Proof.
  unfold coordinator_u32b. rewrite forallb_forall. intros H id t Ht.
  specialize (H (id, t)). rewrite <- list_elem_of_In, elem_of_map_to_list in H.
  specialize (H Ht). simpl in H. destruct t as [s| |]; [|done..]. simpl. apply Forall_forall.
  intros p Hp. rewrite forallb_forall in H. apply list_elem_of_In, H in Hp.
  rewrite forallb_forall in Hp. unfold process_u32. destruct (ps_status p); try done.
  intros k ts Hk. specialize (Hp (k, ts)).
  rewrite <- list_elem_of_In, elem_of_map_to_list in Hp. specialize (Hp Hk).
  unfold metadata_u32b in Hp. unfold state_u32, metadata_u32, in_u32. simpl in Hp.
  rewrite !andb_true_iff, !Z.leb_le, !Z.ltb_lt in Hp. lia.
Qed.

Lemma sample_parts_reached :
  rtc (coordinator_step (M:=DefaultTabletMetadataCache unit))
    (coordinator_create 0, data_cache_create 0 ()) (sample_pair (sample_parts 8)).
Proof.
  eapply rtc_l; [by apply StepCreate|].
  eapply rtc_l.
  { apply (StepProcess _ _ 2 [table_query_create 1 "A" [5]] sample_write (sample_parts 0).1.1);
      [apply sample_write_ok|by vm_compute]. }
  assert (∀ n, coordinator_u32b (sample_parts n).1.1 = true →
    sample_round (sample_parts n) = Return (sample_parts (S n)) →
    coordinator_step (sample_pair (sample_parts n)) (sample_pair (sample_parts (S n)))) as Hround.
  { intros n Hu. by apply sample_round_step, coordinator_u32b_sound. }
  apply (rtc_l _ _ (sample_pair (sample_parts 1))); [by apply (Hround 0%nat); vm_compute|].
  apply (rtc_l _ _ (sample_pair (sample_parts 2))); [by apply (Hround 1%nat); vm_compute|].
  apply (rtc_l _ _ (sample_pair (sample_parts 3))).
  { apply (sample_data_step (λ d, data_cache_process_in_message d (LoadResponse 1 {| ltr_status := 2 |} [x01]))
      (sample_parts 2)); [|by vm_compute]. intros d d' H.
    by apply (CallProcess d (LoadResponse 1 {| ltr_status := 2 |} [x01])). }
  apply (rtc_l _ _ (sample_pair (sample_parts 4))).
  { apply (sample_data_step (λ d, data_cache_make_progress d 1)
      (sample_parts 3)); [|by vm_compute]. intros d d' H.
    by apply (CallMakeProgress d 1). }
  apply (rtc_l _ _ (sample_pair (sample_parts 5))); [by apply (Hround 4%nat); vm_compute|].
  apply (rtc_l _ _ (sample_pair (sample_parts 6))).
  { apply (sample_data_step (λ d, data_cache_process_in_message d (StoreResponse 2 {| str_status := 2 |}))
      (sample_parts 5)); [|by vm_compute]. intros d d' H.
    by apply (CallProcess d (StoreResponse 2 {| str_status := 2 |})). }
  apply (rtc_l _ _ (sample_pair (sample_parts 7))).
  { apply (sample_data_step (λ d, data_cache_make_progress d 2)
      (sample_parts 6)); [|by vm_compute]. intros d d' H.
    by apply (CallMakeProgress d 2). }
  apply rtc_once. by apply (Hround 7%nat); vm_compute.
Qed.

Definition sample_committed : DefaultTabletTransactionCoordinator unit bytes :=
  match commit_transaction (sample_parts 8).1.1 2 with
  | Return c => c | Panic => coordinator_create 0 end.

Definition sample_preparing : PreparingTabletTransactionState unit bytes :=
  match co_transactions (sample_parts 8).1.1 !! 2 with
  | Some (TransactionPreparing s) => s
  | _ => preparing_create 0
  end.

(** The only tablet of the sample. *)
Lemma sample_tablet_key k ts :
  transaction_tablet sample_preparing k ts → k = 10 * two32 + 3 ∧ tq_table_name (ts_query ts) = "A".
Proof.
  intros (p & Hp & Hk).
  assert (forallb (λ p : TabletProcessState unit bytes,
    forallb (λ y : Z * TabletState bytes,
      bool_decide (y.1 = 10 * two32 + 3) && bool_decide (tq_table_name (ts_query y.2) = "A"))
      (map_to_list (ps_tablets p))) (pts_process_requests sample_preparing) = true) as H
    by by vm_compute.
  rewrite forallb_forall in H. apply list_elem_of_In, H in Hp. rewrite forallb_forall in Hp.
  specialize (Hp (k, ts)). rewrite <- list_elem_of_In, elem_of_map_to_list in Hp.
  specialize (Hp Hk). by rewrite andb_true_iff, !bool_decide_eq_true in Hp.
Qed.

Lemma sample_tables_u32 : tables_u32 sample_tables.
Proof.
  intros name table id t Htable Ht. unfold sample_tables in Htable.
  apply lookup_singleton_Some in Htable as [<- <-]. simpl in Ht.
  apply lookup_singleton_Some in Ht as [<- <-]. unfold in_u32. simpl. lia.
Qed.

Lemma sample_tables_current k ts :
  transaction_tablet sample_preparing k ts → tablet_current sample_tables k ts.
Proof.
  intros [-> Hq]%sample_tablet_key. unfold tablet_current. rewrite Hq.
  change ((10 * two32 + 3) `div` two32) with 10. change ((10 * two32 + 3) `mod` two32) with 3.
  unfold sample_tables. setoid_rewrite lookup_singleton_Some.
  eexists _, _. split_and!; [done..|by apply lookup_singleton_Some|done].
Qed.

(** A transaction that writes tablet 10 at version 3 succeeds on a store that has it at
    that version. *)
Lemma optimistic_commit_witness :
  ∃ ops tables' response outcome metas,
    co_out_messages sample_committed = [CoordinatorOpsRequest 1 ops] ∧
    on_apply_tablets_request sample_tables {| tr_tablet_ops := ops |}
      = Return (tables', (ExecuteTabletOpsResponse, response)) ∧
    committing_complete {| cts_tablet_ops := ops |} (trs_tablet_results response)
      = Return (outcome, metas) ∧ outcome = TransactionSucceeded.
Proof.
  destruct (optimistic_commit (M:=DefaultTabletMetadataCache unit) 0 (data_cache_create 0 ())
    (sample_parts 8).1.1 (sample_parts 8).2 2 sample_preparing sample_committed sample_tables)
    as (ops & tables' & response & outcome & metas & _ & Hm & _ & Happly & Hc & Hiff & _).
  - apply no_cells_ok.
  - apply sample_parts_reached.
  - by vm_compute.
  - by vm_compute.
  - apply sample_tables_u32.
  - intros k ts (table & t & Ht & Hk & _)%sample_tables_current. exists table. by rewrite Hk.
  - assert (co_out_messages (sample_parts 8).1.1 = []) as E1 by by vm_compute.
    assert (co_correlation_counter (sample_parts 8).1.1 +₆₄ 1 = 1) as E2 by by vm_compute.
    rewrite E1, E2 in Hm.
    exists ops, tables', response, outcome, metas. split_and!; [exact Hm|exact Happly|exact Hc|].
    apply Hiff, sample_tables_current.
Defined.

(** The response to the sample's request completes transaction 2. *)
Lemma response_completes_transaction_witness :
  ∃ c' m' outcome,
    coordinator_process_in_message sample_committed (sample_parts 8).1.2
      (CoordinatorOpsResponse 1 [ {| tor_table_name := "A"; tor_status := TabletOpSucceeded;
         tor_op_result := Some (UpdateTabletResult None) |} ]) = Return (c', m') ∧
    co_transactions c' !! 2 = Some (TransactionCompleted outcome) ∧
    outcome = TransactionSucceeded.
Proof.
  set (results := [ {| tor_table_name := "A"; tor_status := TabletOpSucceeded;
                       tor_op_result := Some (UpdateTabletResult None) |} ]).
  destruct (coordinator_process_in_message sample_committed (sample_parts 8).1.2
    (CoordinatorOpsResponse 1 results)) as [[c' m']|] eqn:E.
  2: { by vm_compute in E. }
  destruct (co_transactions sample_committed !! 2) as [t|] eqn:Et.
  2: { by vm_compute in Et. }
  destruct (coordinator_steps_send (M:=DefaultTabletMetadataCache unit) 0 (data_cache_create 0 ())
    (sample_committed, (sample_parts 8).2)) as [sent Hsent]; [apply no_cells_ok|..].
  { eapply rtc_r; [apply sample_parts_reached|].
    apply (StepCommit (sample_parts 8).1.1 (sample_parts 8).2 2 sample_committed).
    + assert (co_correlation_counter (sample_parts 8).1.1 = 0) as -> by by vm_compute. lia.
    + by vm_compute. }
  destruct (response_completes_transaction (M:=DefaultTabletMetadataCache unit) 0
    (data_cache_create 0 ()) sent sample_committed (sample_parts 8).2 (sample_parts 8).1.2 1 2 t results
    c' m') as (ops & outcome & metas & Hs & _ & _ & Hc & Ht & _).
  - apply no_cells_ok.
  - exact Hsent.
  - by vm_compute.
  - exact Et.
  - exact E.
  - exists c', m', outcome. split_and!; [done|by rewrite Ht, lookup_insert_eq|].
    subst t. vm_compute in Et. injection Et as <-. vm_compute in Hc. by injection Hc as <- _.
Defined.

Lemma tablet_key_faithful_witness :
  create_tablet_key (sample_stored 10 3) = 42949672963 ∧
  in_u64 (create_tablet_key (sample_stored 10 3)) ∧
  create_tablet_key (sample_stored 10 3) < create_tablet_key (sample_stored 11 0).
Proof.
  split; [by vm_compute|].
  destruct (tablet_key_faithful (sample_stored 10 3) (sample_stored 11 0)) as (H & _ & _ & Hlt);
    [split; unfold in_u32; simpl; lia..|].
  split; [exact H|]. apply Hlt. left. simpl. lia.
Defined.
