(* ===== verification/BlobReads.v ===== *)
(** * What the data cache reads

    The blobs that tablets name, as a client of the data cache sees them: a load yields, for
    the blobs that were asked for, the contents that the blobs have, and a store names new
    blobs with the contents it was given.  The default cache of
    [src/apps/tablet_cache/service/src/transaction/data.rs] keeps this for any storage that
    answers loads with the contents of the blob. *)

From S2P Require Import Prelude TabletStore CacheTypes MetadataCache DataCache DataTheorems.
From S2P Require Import Coordinator CoordinatorTheorems.

(** A name stands for the contents of one version of one tablet. *)
Class BlobNames (T : Type) : Type := {
  names_blob : string → Z → T → Prop;
  names_functional u k k' v v' : names_blob u k v → names_blob u k' v' → k = k' ∧ v = v'
}.

(** A tablet that names a blob of its own. *)
Definition named {T} `{!BlobNames T} (m : TabletMetadata) : Prop :=
  ∃ v, names_blob (tm_blob_uri m) (create_tablet_key m) v.

(** What was loaded for some blobs. *)
Definition values_ok {T} `{!BlobNames T} (uris : list string) (values : list (TabletMetadata * T))
    : Prop :=
  Forall (λ x, tm_blob_uri x.1 ∈ uris ∧
    names_blob (tm_blob_uri x.1) (create_tablet_key x.1) x.2) values.

(** What a client may know of a data cache: that it is in order, that it can make a number of
    new batches, that a message is what the storage holds, and that a handle is for the load of
    some blobs. *)
Class DataCacheView (D : Type) : Type := {
  dcr_ok : D → Prop;
  dcr_room : D → nat → Prop;
  dcr_honest : D → TabletDataCacheInMessage → Prop;
  dcr_loading : D → Z → list string → Prop
}.

(** The calls of a client and of a storage that keep to it. *)
Inductive honest_call {D T} `{!TabletDataCache D T, !BlobNames T, !DataCacheView D} (d : D)
    : D → Prop :=
| HonestInit config d' : dci_init d config = Return d' → honest_call d d'
| HonestProgress instant d' : dci_make_progress d instant = Return d' → honest_call d d'
| HonestLoad metas d' h : dcr_room d 1 → Forall named metas →
    dci_load_tablets d metas = Return (d', h) → honest_call d d'
| HonestStore data d' metas h : dcr_room d 1 → Forall (λ x, metadata_u32 x.1) data →
    dci_store_tablets d data = Return (d', metas, h) → honest_call d d'
| HonestMessage msg d' : dcr_honest d msg → dci_process_in_message d msg = Return d' →
    honest_call d d'
| HonestTake : honest_call d (dci_take_out_messages d).1.

Class DataCacheReads (D T : Type) `{!TabletDataCache D T, !DataCacheLaws D T, !BlobNames T,
    !DataCacheView D} : Prop := {
  dcr_room_le d n n' : (n' ≤ n)%nat → dcr_room d n → dcr_room d n';
  dcr_load d n metas d' h :
    dcr_ok d → dcr_room d (S n) → Forall named metas → dci_load_tablets d metas = Return (d', h) →
    dcr_room d' n ∧ dcr_loading d' h (tm_blob_uri <$> metas);
  dcr_loaded d h uris values :
    dcr_loading d h uris → dci_check_load d h = Some (Ok values) → values_ok uris values;
  dcr_store d n data d' metas h :
    dcr_ok d → dcr_room d (S n) → Forall (λ x, metadata_u32 x.1) data →
    dci_store_tablets d data = Return (d', metas, h) →
    dcr_room d' n ∧
    (Forall2 (λ x m', next_version x.1 m' ∧
       names_blob (tm_blob_uri m') (create_tablet_key m') x.2) data metas ∨ dcl_failed d' h);
  dcr_call d d' :
    dcr_ok d → honest_call d d' →
    dcr_ok d' ∧ ∀ h uris, dcr_loading d h uris → dcr_loading d' h uris
}.

Lemma honest_data_call {D T} `{!TabletDataCache D T, !BlobNames T, !DataCacheView D} (d d' : D) :
  honest_call d d' → data_call d d'.
Proof. destruct 1; by econstructor. Qed.

(** What setting a cell does to the results. *)
Lemma set_result_results {E A} (c c' : ResultCells E A) s r :
  set_result c s r = Return c' →
  cells_next c' = cells_next c ∧ (cells_ok c → cells_ok c') ∧
  ∀ h x, check_result c' h = Some (Ok x) → check_result c h = Some (Ok x) ∨ h = s ∧ x = r.
Proof.
  intros H. unfold set_result in H. apply bind_Return in H as (core & Hc & H).
  apply unwrap_Return in Hc. destruct (cell_pending core) eqn:Ep; [|done]. injection H as <-.
  split_and!; [done|by apply (overwrite_extend c s core _ Hc Ep)|].
  intros h x. unfold check_result. simpl. destruct (decide (s = h)) as [<-|];
    [rewrite lookup_insert_eq; simpl; intros [= <-]; by right|].
  rewrite lookup_insert_ne by done. by left.
Qed.

Lemma set_error_results {E A} (c c' : ResultCells E A) s er :
  set_error c s er = Return c' →
  cells_next c' = cells_next c ∧ (cells_ok c → cells_ok c') ∧
  ∀ h x, check_result c' h = Some (Ok x) → check_result c h = Some (Ok x).
Proof.
  intros H. unfold set_error in H. apply bind_Return in H as (core & Hc & H).
  apply unwrap_Return in Hc. destruct (cell_pending core) eqn:Ep; [|done]. injection H as <-.
  split_and!; [done|by apply (overwrite_extend c s core _ Hc Ep)|].
  intros h x. unfold check_result. simpl. destruct (decide (s = h)) as [<-|].
  - rewrite lookup_insert_eq, Hc. simpl. unfold cell_pending in Ep. by destruct (rc_result core).
  - by rewrite lookup_insert_ne.
Qed.

(** ** The default cache *)

Section default_cache.
Context {T P : Type} `{HSer : !TabletDataSerializer T, HPol : !TabletDataCachePolicy P T,
  HK : !HashOrder string, HB : !BlobNames T}.
Variable sha256 : bytes → bytes.
Variable base64 : bytes → string.

(** New names stand for what was stored under them. *)
Hypothesis names_written : ∀ m v m' c,
  metadata_u32 m → prepare_tablet_write sha256 base64 m v = Ok (m', c) →
  names_blob (tm_blob_uri m') (create_tablet_key m') v.

Implicit Types (entries : gmap TabletCacheKey (TabletCacheEntry T))
  (batches : gmap Z (TabletBatch T)) (cells : DataCells T) (b : TabletBatch T)
  (e : TabletCacheEntry T) (d : DefaultTabletDataCache T P).

Definition entry_named (u : string) e : Prop :=
  cache_key_from (ce_tablet_metadata e) = u ∧
  match ce_state e with
  | EntryLoad => named (ce_tablet_metadata e)
  | EntryStore v | EntryCache v => names_blob u (create_tablet_key (ce_tablet_metadata e)) v
  | EntryError => True
  end.

(** The parts that a load goes through. *)
Abbreviation parts := (gmap TabletCacheKey (TabletCacheEntry T) * gmap Z (TabletBatch T)
  * DataCells T)%type.

Record parts_ok (counter : Z) (x : parts) : Prop := {
  po_entry u e : x.1.1 !! u = Some e →
    entry_named u e ∧ ∀ id, id ∈ ce_tablet_batch_ids e → id ≤ counter;
  po_batch id b : x.1.2 !! id = Some b →
    id ≤ counter ∧
    ∀ loaded s, tb_batch_state b = BatchLoad loaded s → s < cells_next (dc_load_cells x.2);
  po_cells : cells_ok (dc_load_cells x.2)
}.

(** The load of a handle is of some blobs only. *)
Record loads (h : Z) (uris : list string) (x : parts) : Prop := {
  ld_handle : h < cells_next (dc_load_cells x.2);
  ld_result values : check_result (dc_load_cells x.2) h = Some (Ok values) → values_ok uris values;
  ld_batch id b loaded : x.1.2 !! id = Some b → tb_batch_state b = BatchLoad loaded h →
    values_ok uris loaded ∧ ∀ u e, x.1.1 !! u = Some e → id ∈ ce_tablet_batch_ids e → u ∈ uris
}.

Definition keeps (counter : Z) (x y : parts) : Prop :=
  parts_ok counter x → parts_ok counter y ∧ ∀ h uris, loads h uris x → loads h uris y.

#[local] Instance keeps_preorder counter : PreOrder (keeps counter).
Proof.
  split; [by intros x|]. intros x y z Hxy Hyz Hx. destruct (Hxy Hx) as [Hy Hl].
  destruct (Hyz Hy) as [Hz Hl']. split; [done|]. auto.
Qed.

(** What resolving an entry may add to a batch and to the results. *)
Lemma resolve_pending_loads b e cells b' cells' :
  resolve_pending_cache_entry b e cells = Return (b', cells') →
  tb_batch_id b' = tb_batch_id b ∧
  cells_next (dc_load_cells cells') = cells_next (dc_load_cells cells) ∧
  (cells_ok (dc_load_cells cells) → cells_ok (dc_load_cells cells')) ∧
  (∀ loaded s, tb_batch_state b' = BatchLoad loaded s →
     ∃ loaded0, tb_batch_state b = BatchLoad loaded0 s ∧
       (loaded = loaded0 ∨
        ∃ v, ce_state e = EntryCache v ∧ loaded = loaded0 ++ [(ce_tablet_metadata e, v)])) ∧
  (∀ h values, check_result (dc_load_cells cells') h = Some (Ok values) →
     check_result (dc_load_cells cells) h = Some (Ok values) ∨
     ∃ loaded v, tb_batch_state b = BatchLoad loaded h ∧ ce_state e = EntryCache v ∧
       values = loaded ++ [(ce_tablet_metadata e, v)]).
Proof using.
  intros H. unfold resolve_pending_cache_entry in H.
  apply bind_Return in H as ([state c1] & H & Heq). injection Heq as <- <-. simpl.
  destruct (ce_state e) as [|v|v|], (tb_batch_state b) as [loaded s|s| |];
    try case_bool_decide; outcome_inv; subst; simpl;
    repeat match goal with
    | H : (_, _) = (_, _) |- _ => injection H as <- <-
    | H : set_result (dc_load_cells _) _ _ = _ |- _ => apply set_result_results in H as (-> & ? & ?)
    | H : set_error (dc_load_cells _) _ _ = _ |- _ => apply set_error_results in H as (-> & ? & ?)
    end; simpl; split_and!; try done; try naive_solver.
Qed.

(** A batch resolved by the entry of a blob it may wait for. *)
Lemma resolve_pending_values h uris u b e cells b' cells' :
  resolve_pending_cache_entry b e cells = Return (b', cells') → entry_named u e →
  (∀ loaded, tb_batch_state b = BatchLoad loaded h → u ∈ uris ∧ values_ok uris loaded) →
  (∀ values, check_result (dc_load_cells cells) h = Some (Ok values) → values_ok uris values) →
  (∀ loaded, tb_batch_state b' = BatchLoad loaded h → values_ok uris loaded) ∧
  (∀ values, check_result (dc_load_cells cells') h = Some (Ok values) → values_ok uris values).
Proof using.
  intros (_ & _ & _ & Hst & Hch)%resolve_pending_loads [Hu Hn] Hb Hc.
  assert (∀ loaded v, tb_batch_state b = BatchLoad loaded h → ce_state e = EntryCache v →
    values_ok uris (loaded ++ [(ce_tablet_metadata e, v)])) as Happ.
  { intros loaded v Hl Hv. destruct (Hb loaded Hl) as [Hin Hvs]. rewrite Hv in Hn.
    apply Forall_app. split; [done|]. constructor; [|constructor]. simpl.
    unfold cache_key_from in Hu. by rewrite Hu. }
  split.
  - intros loaded Hl. destruct (Hst _ _ Hl) as (l0 & H0 & [->|(v & Hv & ->)]); [by apply Hb|eauto].
  - intros values Hv. destruct (Hch _ _ Hv) as [?|(l0 & v & H0 & Hcv & ->)]; eauto.
Qed.

Lemma notify_batch_keeps counter entries u e0 e id batches cells batches' cells' :
  entries !! u = Some e0 → id ∈ ce_tablet_batch_ids e0 → entry_named u e →
  notify_batch e (batches, cells) id = Return (batches', cells') →
  keeps counter (entries, batches, cells) (entries, batches', cells').
Proof using.
  intros He0 Hid Hn H [Hpe Hpb Hpc]. simpl in *. apply bind_Return in H as (b & Hb & H).
  apply unwrap_Return in Hb. apply bind_Return in H as ([b' c'] & H & Heq). injection Heq as <- <-.
  pose proof (resolve_pending_loads _ _ _ _ _ H) as (_ & Hnx & Hok & Hst & _).
  split; [split; simpl; [done| |auto]|].
  - intros i x [[<- <-]|[_ Hx]]%lookup_insert_Some.
    + destruct (Hpb _ _ Hb) as [Hi Hs]. split; [done|]. intros loaded s Hl. rewrite Hnx.
      destruct (Hst _ _ Hl) as (l0 & H0 & _). eauto.
    + rewrite Hnx. by apply Hpb.
  - intros h uris [Hh Hr Hl]. simpl in *.
    destruct (resolve_pending_values h uris u b e cells b' c' H Hn) as [Hb' Hr']; [|done|].
    { intros loaded Hload. destruct (Hl _ _ _ Hb Hload) as [? Hall]. eauto. }
    split; simpl; [by rewrite Hnx|done|].
    intros i x loaded [[<- <-]|[_ Hx]]%lookup_insert_Some Hload; [|by eapply Hl].
    split; [auto|]. destruct (Hst _ _ Hload) as (l0 & H0 & _). by eapply Hl.
Qed.

(** Entries that wait for less, or are gone. *)
Lemma keeps_entries counter entries entries' batches cells :
  (∀ u e', entries' !! u = Some e' → ∃ e, entries !! u = Some e ∧
     (entry_named u e → entry_named u e') ∧
     ∀ id, id ∈ ce_tablet_batch_ids e' → id ∈ ce_tablet_batch_ids e) →
  keeps counter (entries, batches, cells) (entries', batches, cells).
Proof using.
  intros Hsub [Hpe Hpb Hpc]. simpl in *. split; [split; simpl; [|done|done]|].
  - intros u e' (e & He & Hn & Hi)%Hsub. destruct (Hpe _ _ He). split; auto.
  - intros h uris [Hh Hr Hl]. split; simpl in *; [done..|]. intros id b loaded Hb Hs.
    destruct (Hl _ _ _ Hb Hs) as [? Hall]. split; [done|].
    intros u e' (e & He & _ & Hi)%Hsub Hid. eauto.
Qed.

Lemma take_waiting_fields e e' waiting :
  take_waiting_batches e = (e', waiting) →
  ce_state e' = ce_state e ∧ ce_tablet_metadata e' = ce_tablet_metadata e ∧
  (∀ id, id ∈ waiting → id ∈ ce_tablet_batch_ids e) ∧
  (∀ id, id ∈ ce_tablet_batch_ids e' → id ∈ ce_tablet_batch_ids e).
Proof using.
  unfold take_waiting_batches. destruct (ce_state e) eqn:Es; intros [= <- <-]; simpl; rewrite ?Es;
    split_and!; try done; by intros id ?%elem_of_nil.
Qed.

Lemma entry_named_same u e e' :
  ce_state e' = ce_state e → ce_tablet_metadata e' = ce_tablet_metadata e →
  entry_named u e → entry_named u e'.
Proof using. unfold entry_named. by intros -> ->. Qed.

Lemma notify_entry_keeps counter entries batches cells failed u e entries' batches' cells' failed' :
  entries !! u = Some e →
  notify_entry (entries, batches, cells, failed) (u, e)
  = Return (entries', batches', cells', failed') →
  keeps counter (entries, batches, cells) (entries', batches', cells') ∧
  ∀ u', u' ≠ u → entries' !! u' = entries !! u'.
Proof using.
  intros He H. unfold notify_entry in H. destruct (take_waiting_batches e) as [e1 waiting] eqn:Et.
  apply take_waiting_fields in Et as (Hs & Hm & Hw & Hids).
  apply bind_Return in H as ([b1 c1] & H & Heq). injection Heq as <- <- <- <-.
  split; [|intros u' Hne; by rewrite lookup_insert_ne]. intros Hok.
  assert (entry_named u e1) as Hn.
  { eapply entry_named_same; [done..|]. by apply (po_entry _ _ Hok u e). }
  assert (keeps counter (entries, batches, cells) (entries, b1, c1)) as Hk.
  { clear Hok. revert batches cells H. induction waiting as [|id waiting IH];
      intros batches cells H; cbn [ofold] in H; [by injection H as <- <-|].
    apply bind_Return in H as ([b2 c2] & H1 & H). etrans.
    - eapply notify_batch_keeps; [done| |exact Hn|done]. apply Hw. by left.
    - apply IH; [|done]. intros i Hi. apply Hw. by right. }
  revert Hok. change (keeps counter (entries, batches, cells) (<[u:=e1]> entries, b1, c1)).
  etrans; [exact Hk|]. apply keeps_entries.
  intros u' e' [[<- <-]|[_ He']]%lookup_insert_Some; [by exists e|by exists e'].
Qed.

(** Batches that are gone. *)
Lemma keeps_batches counter entries batches batches' cells :
  (∀ id b, batches' !! id = Some b → batches !! id = Some b) →
  keeps counter (entries, batches, cells) (entries, batches', cells).
Proof using.
  intros Hsub [Hpe Hpb Hpc]. simpl in *. split; [split; simpl; [done| |done]|].
  - intros id b Hb%Hsub. by apply Hpb.
  - intros h uris [Hh Hr Hl]. split; simpl in *; [done..|]. intros id b loaded Hb%Hsub. by apply Hl.
Qed.

Abbreviation parts_of d := (dc_tablet_cache_entries d, dc_tablet_batches d, dc_cells d).

Lemma make_progress_keeps counter d instant d' :
  data_cache_make_progress d instant = Return d' →
  keeps counter (parts_of d) (parts_of d') ∧ dc_batch_counter d' = dc_batch_counter d.
Proof using.
  intros H. unfold data_cache_make_progress in H.
  apply bind_Return in H as ([[[entries batches] cells] failed] & H & Heq).
  destruct (evict _ _ _ _) as [policy evicted]. injection Heq as <-. simpl. split; [|done].
  assert (∀ l entries0 batches0 cells0 failed0, NoDup l.*1 →
    (∀ x, x ∈ l → entries0 !! x.1 = Some x.2) →
    ofold notify_entry (entries0, batches0, cells0, failed0) l
      = Return (entries, batches, cells, failed) →
    keeps counter (entries0, batches0, cells0) (entries, batches, cells)) as Hloop.
  { clear H. induction l as [|[u e] l IH]; intros entries0 batches0 cells0 failed0 Hnd Hl H;
      cbn [ofold] in H; [by injection H as <- <- <- <-|].
    apply bind_Return in H as ([[[entries1 batches1] cells1] failed1] & H1 & H).
    rewrite fmap_cons in Hnd. apply NoDup_cons in Hnd as [Hu Hnd].
    apply (notify_entry_keeps counter) in H1 as [Hk Hother]; [|apply (Hl (u, e)); by left].
    etrans; [exact Hk|]. eapply IH; [done| |exact H]. intros x Hx. rewrite Hother; [apply Hl; by right|].
    intros Heq. apply Hu. simpl. rewrite <- Heq. by apply list_elem_of_fmap_2. }
  etrans; [eapply Hloop; [| |exact H]|].
  - rewrite hash_iter_perm. apply NoDup_fst_map_to_list.
  - intros [u e]. by rewrite hash_iter_perm, elem_of_map_to_list.
  - etrans; [apply keeps_batches|apply keeps_entries].
    + intros id b [Hb _]%map_lookup_filter_Some. exact Hb.
    + intros u e' [_ [_ He]%lookup_deletes]%lookup_deletes. by exists e'.
Qed.

(** A message that the storage may send. *)
Definition message_honest d (msg : TabletDataCacheInMessage) : Prop :=
  match msg with
  | LoadResponse id _ contents => ∀ u k v v', dc_tablet_operations d !! id = Some u →
      prepare_tablet_read contents = Ok v → names_blob u k v' → v = v'
  | StoreResponse _ _ => True
  end.

Lemma process_message_keeps counter d msg d' :
  message_honest d msg → data_cache_process_in_message d msg = Return d' →
  keeps counter (parts_of d) (parts_of d') ∧ dc_batch_counter d' = dc_batch_counter d.
Proof using.
  intros Hm H. unfold data_cache_process_in_message in H.
  destruct (dc_tablet_operations d !! _) as [u|] eqn:Eo; [|by injection H as <-].
  apply bind_Return in H as (e & He & H). apply unwrap_Return in He.
  apply bind_Return in H as (e1 & H1 & H). injection H as <-. simpl. split; [|done].
  apply keeps_entries. intros u' e' [[<- <-]|[_ He']]%lookup_insert_Some; [|by exists e'].
  exists e. split; [done|]. unfold entry_named.
  destruct msg as [id response contents|id response]; simpl in *;
    [unfold process_load_response in H1|unfold process_store_response in H1];
    destruct (ce_state e) as [|v0|v0|] eqn:Es; try done;
    destruct (storage_status_from_i32 _) as [[]|]; try done.
  - injection H1 as <-. simpl. by split; [intros [? _]|].
  - destruct (prepare_tablet_read contents) as [v|] eqn:Er; injection H1 as <-; simpl;
      (split; [intros [Hk [v' Hv']]; split; [done|]|done]); [|done].
    unfold cache_key_from in Hk. rewrite Hk in Hv'.
    by rewrite (Hm u _ v v' Eo eq_refl Hv').
  - injection H1 as <-. simpl. by split; [intros [? _]|].
  - injection H1 as <-. simpl. by split; [intros [? ?]|].
Qed.

(** One key of a new batch. *)
Lemma register_entry_loads counter id batches b entries cells u b' entries' cells' :
  tb_batch_id b = id → id ≤ counter →
  register_pending_cache_entry (b, entries, cells) u = Return (b', entries', cells') →
  parts_ok counter (entries, <[id := b]> batches, cells) →
  tb_batch_id b' = id ∧
  (∀ l s, tb_batch_state b' = BatchLoad l s → ∃ l0, tb_batch_state b = BatchLoad l0 s) ∧
  parts_ok counter (entries', <[id := b']> batches, cells') ∧
  ∀ h uris, (∀ l, tb_batch_state b = BatchLoad l h → u ∈ uris) →
    loads h uris (entries, <[id := b]> batches, cells) →
    loads h uris (entries', <[id := b']> batches, cells').
Proof using.
  intros Hid Hle H [Hpe Hpb Hpc]. simpl in *.
  destruct (entries !! u) as [e|] eqn:Eu.
  2: { injection H as <- <- <-. split_and!; [done|eauto|by split|done]. }
  apply bind_Return in H as ([[b1 e1] c1] & H & Heq). injection Heq as <- <- <-.
  destruct (Hpe _ _ Eu) as [Hn Hids]. destruct (Hpb id b (lookup_insert_eq _ _ _)) as [_ Hsrc].
  destruct (entry_waiting e) eqn:Ew.
  - rewrite add_pending_waiting in H by done. injection H as <- <- <-.
    split_and!; [done|by eauto|split; simpl; [| |done]|].
    + intros u' e' [[<- <-]|[_ He']]%lookup_insert_Some; [|by apply Hpe].
      split; [done|]. simpl. intros i [?|Hi%list_elem_of_singleton]%elem_of_app; [auto|lia].
    + intros i x [[<- <-]|[Hne Hx]]%lookup_insert_Some; [done|].
      apply Hpb. by rewrite lookup_insert_ne.
    + intros h uris Hu [Hh Hr Hl]. split; simpl in *; [done..|].
      intros i x loaded [[<- <-]|[Hne Hx]]%lookup_insert_Some Hload.
      * simpl in Hload. destruct (Hl id b loaded (lookup_insert_eq _ _ _) Hload) as [? Hall].
        split; [done|]. intros u' e' [[<- <-]|[_ He']]%lookup_insert_Some Hin; eauto.
      * destruct (Hl i x loaded ltac:(by rewrite lookup_insert_ne) Hload) as [? Hall].
        split; [done|]. intros u' e' [[<- <-]|[_ He']]%lookup_insert_Some Hin; [|eauto].
        simpl in Hin. apply elem_of_app in Hin as [?|Hi%list_elem_of_singleton]; [eauto|congruence].
  - apply not_true_iff_false, entry_waiting_ready in Ew. rewrite add_pending_ready in H by done.
    apply bind_Return in H as ([b2 c2] & H & Heq). injection Heq as <- <- <-.
    pose proof (resolve_pending_loads _ _ _ _ _ H) as (Hid' & Hnx & Hok & Hst & _).
    simpl in Hid', Hst. rewrite (insert_id entries u e) by done.
    split_and!; [congruence| |split; simpl; [done| |auto]|].
    + intros l s Hl. destruct (Hst _ _ Hl) as (l0 & H0 & _). eauto.
    + intros i x [[<- <-]|[Hne Hx]]%lookup_insert_Some; rewrite Hnx.
      * split; [done|]. intros l s Hl. destruct (Hst _ _ Hl) as (l0 & H0 & _). eauto.
      * apply Hpb. by rewrite lookup_insert_ne.
    + intros h uris Hu [Hh Hr Hl]. simpl in *.
      destruct (resolve_pending_values h uris u _ e cells b2 c2 H Hn) as [Hb' Hr']; [|done|].
      { intros loaded Hload. split; [by eapply Hu|].
        by apply (Hl id b loaded (lookup_insert_eq _ _ _) Hload). }
      split; simpl; [by rewrite Hnx|done|].
      intros i x loaded [[<- <-]|[Hne Hx]]%lookup_insert_Some Hload.
      * split; [auto|]. destruct (Hst _ _ Hload) as (l0 & H0 & _). simpl in H0.
        apply (Hl id b l0 (lookup_insert_eq _ _ _) H0).
      * apply (Hl i x loaded); [by rewrite lookup_insert_ne|done].
Qed.

Lemma register_entries_loads counter id batches keys b entries cells b' entries' cells' :
  tb_batch_id b = id → id ≤ counter →
  register_pending_cache_entries b entries cells keys = Return (b', entries', cells') →
  parts_ok counter (entries, <[id := b]> batches, cells) →
  parts_ok counter (entries', <[id := b']> batches, cells') ∧
  ∀ h uris, (∀ l u, tb_batch_state b = BatchLoad l h → u ∈ keys → u ∈ uris) →
    loads h uris (entries, <[id := b]> batches, cells) →
    loads h uris (entries', <[id := b']> batches, cells').
Proof using.
  unfold register_pending_cache_entries. intros Hid Hle. revert b entries cells Hid.
  induction keys as [|u keys IH]; intros b entries cells Hid H Hok; cbn [ofold] in H.
  { by injection H as <- <- <-. }
  apply bind_Return in H as ([[b1 entries1] cells1] & H1 & H).
  destruct (register_entry_loads counter id batches _ _ _ _ _ _ _ Hid Hle H1 Hok)
    as (Hid1 & Hsrc & Hok1 & Hl1).
  destruct (IH _ _ _ Hid1 H Hok1) as [Hok' Hl']. split; [done|]. intros h uris Hu Hl.
  apply Hl'; [|apply Hl1; [|done]].
  - intros l u' Hs Hin. destruct (Hsrc _ _ Hs) as [l0 H0]. eapply Hu; [done|by right].
  - intros l Hs. eapply Hu; [done|by left].
Qed.

(** A new batch for some keys. *)
Lemma start_batch_loads d make keys d' h0 :
  make = batch_with_load_state ∨ make = batch_with_store_state →
  0 ≤ dc_batch_counter d < two64 - 1 → start_batch d make keys = Return (d', h0) →
  parts_ok (dc_batch_counter d) (parts_of d) →
  dc_batch_counter d' = dc_batch_counter d + 1 ∧ parts_ok (dc_batch_counter d') (parts_of d') ∧
  (∀ h uris, loads h uris (parts_of d) → loads h uris (parts_of d')) ∧
  (make = batch_with_load_state → loads h0 keys (parts_of d')).
Proof using.
  intros Hmake Hroom H [Hpe Hpb Hpc]. unfold start_batch in H. simpl in Hpe, Hpb, Hpc.
  rewrite u64_add_small in H by lia. set (id := dc_batch_counter d + 1) in *.
  destruct (make id (dc_cells d)) as [[b cells1] h] eqn:Em.
  apply bind_Return in H as ([[b' entries'] cells'] & H & Heq). injection Heq as <- <-. simpl.
  assert (∀ i x, dc_tablet_batches d !! i = Some x → i ≠ id) as Hfresh.
  { intros i x [? _]%Hpb. unfold id. lia. }
  assert (tb_batch_id b = id ∧ cells_ok (dc_load_cells cells1) ∧
    cells_next (dc_load_cells (dc_cells d)) ≤ cells_next (dc_load_cells cells1) ∧
    (∀ a, a < cells_next (dc_load_cells (dc_cells d)) →
       check_result (dc_load_cells cells1) a = check_result (dc_load_cells (dc_cells d)) a) ∧
    (∀ l s, tb_batch_state b = BatchLoad l s → l = [] ∧ s = h ∧ s < cells_next (dc_load_cells cells1) ∧
       s = cells_next (dc_load_cells (dc_cells d)) ∧ check_result (dc_load_cells cells1) s = None) ∧
    (make = batch_with_load_state → ∃ l s, tb_batch_state b = BatchLoad l s))
    as (Hid & Hc1 & Hnx & Hch & Hst & Hload).
  { destruct Hmake as [-> | ->]; injection Em as <- <- <-; simpl.
    - split_and!; [done|by apply alloc_cell_ok|lia| | |by eexists _, _].
      + intros a Ha. unfold check_result. simpl. by rewrite lookup_insert_ne by lia.
      + intros l s [= <- <-]. split_and!; [done|done|lia|done|]. unfold check_result. simpl.
        by rewrite lookup_insert_eq.
    - split_and!; [done|done|lia|done|done|]. intros Heq.
      apply (f_equal (λ f, tb_batch_state (f id (dc_cells d)).1.1)) in Heq. done. }
  assert (parts_ok id (dc_tablet_cache_entries d, <[id := b]> (dc_tablet_batches d), cells1)) as Hok1.
  { split; simpl; [| |done].
    - intros u e He. destruct (Hpe u e He) as [? Hi]. split; [done|]. intros i Hin%Hi. unfold id. lia.
    - intros i x [[<- <-]|[_ Hx]]%lookup_insert_Some.
      + split; [done|]. intros l s Hs. by apply Hst in Hs as (_ & _ & ? & _).
      + destruct (Hpb i x Hx) as [? Hs]. split; [unfold id; lia|]. intros l s Hl%Hs. lia. }
  destruct (register_entries_loads id id (dc_tablet_batches d) keys b _ _ _ _ _ Hid (Z.le_refl _) H Hok1)
    as [Hok2 Hl2].
  assert (keeps id (entries', <[id := b']> (dc_tablet_batches d), cells')
    (entries', if batch_is_ready b' then dc_tablet_batches d else <[id := b']> (dc_tablet_batches d), cells'))
    as Hk.
  { apply keeps_batches. intros i x Hx. destruct (batch_is_ready b'); [|done].
    rewrite lookup_insert_ne; [done|]. by apply not_eq_sym, (Hfresh i x). }
  destruct (Hk Hok2) as [Hok3 Hl3]. split_and!; [done|done| |].
  - intros h1 uris [Hh Hr Hl]. simpl in Hh, Hr, Hl. apply Hl3, Hl2.
    + intros l u (_ & _ & _ & -> & _)%Hst. lia.
    + split; simpl; [lia|by rewrite Hch|]. intros i x l [[<- <-]|[_ Hx]]%lookup_insert_Some Hs.
      * apply Hst in Hs as (_ & _ & _ & -> & _). lia.
      * by eapply Hl.
  - intros (l & s & Hs)%Hload. destruct (Hst _ _ Hs) as (-> & <- & Hlt & Hs' & Hnone).
    apply Hl3, Hl2; [done|]. split; simpl; [done|by rewrite Hnone|].
    intros i x loaded [[<- <-]|[_ Hx]]%lookup_insert_Some Hx'.
    + rewrite Hs in Hx'. injection Hx' as <-. split; [constructor|].
      intros u e [_ Hi]%Hpe Hin%Hi. unfold id in Hin. lia.
    + apply Hpb in Hx as [_ Hx]. apply Hx in Hx'. lia.
Qed.

Lemma insert_entry_keeps counter d key make e request :
  make (dc_correlation_counter d +₆₄ 1) = (e, request) → entry_named key e →
  ce_tablet_batch_ids e = [] →
  keeps counter (parts_of d) (parts_of (insert_entry d key make)) ∧
  dc_batch_counter (insert_entry d key make) = dc_batch_counter d.
Proof using.
  intros Hm Hn Hi. unfold insert_entry. rewrite Hm. simpl. split; [|done]. intros [Hpe Hpb Hpc].
  simpl in *. split; [split; simpl; [|done|done]|].
  - intros u x [[<- <-]|[_ Hx]]%lookup_insert_Some; [|by apply Hpe].
    split; [done|]. rewrite Hi. by intros id ?%elem_of_nil.
  - intros h uris [Hh Hr Hl]. split; simpl in *; [done..|]. intros id b loaded Hb Hs.
    destruct (Hl _ _ _ Hb Hs) as [? Hall]. split; [done|].
    intros u x [[<- <-]|[_ Hx]]%lookup_insert_Some Hin; [|eauto].
    rewrite Hi in Hin. by apply elem_of_nil in Hin.
Qed.

Lemma load_tablets_keeps counter metas d :
  Forall named metas →
  keeps counter (parts_of d) (parts_of (foldl load_tablet d metas)) ∧
  dc_batch_counter (foldl load_tablet d metas) = dc_batch_counter d.
Proof using.
  revert d. induction metas as [|m metas IH]; intros d; simpl; [done|].
  intros [Hm Hms]%Forall_cons.
  assert (keeps counter (parts_of d) (parts_of (load_tablet d m)) ∧
    dc_batch_counter (load_tablet d m) = dc_batch_counter d) as [Hk Hc].
  { unfold load_tablet. destruct (_ !! _); [done|].
    by eapply insert_entry_keeps. }
  destruct (IH (load_tablet d m) Hms) as [Hk' ->]. split; [by etrans|done].
Qed.

Lemma prepare_writes_named data metas contents :
  Forall (λ x, metadata_u32 x.1) data →
  prepare_tablet_writes sha256 base64 data = (metas, Ok contents) →
  Forall2 (λ x m', next_version x.1 m' ∧
    names_blob (tm_blob_uri m') (create_tablet_key m') x.2) data metas.
Proof using names_written.
  revert metas contents. induction data as [|[m v] data IH]; intros metas contents Hu H; simpl in H.
  { injection H as <- _. constructor. }
  apply Forall_cons in Hu as [Hm Hu]. simpl in Hm.
  destruct (prepare_tablet_write sha256 base64 m v) as [[m' c]|] eqn:Ep; [|done].
  destruct (prepare_tablet_writes sha256 base64 data) as [ms [cs|]]; [|done].
  injection H as <- _. constructor; [|by eapply IH]. simpl. split; [|by eapply names_written].
  unfold prepare_tablet_write in Ep. destruct (serialize v); [|done]. by injection Ep as <- _.
Qed.

Lemma store_tablets_keeps counter l d d' :
  Forall (λ x : TabletMetadata * T * bytes,
    names_blob (tm_blob_uri x.1.1) (create_tablet_key x.1.1) x.1.2) l →
  ofold store_tablet d l = Return d' →
  keeps counter (parts_of d) (parts_of d') ∧ dc_batch_counter d' = dc_batch_counter d.
Proof using.
  revert d. induction l as [|[[m v] c] l IH]; intros d Hl H; cbn [ofold] in H.
  { by injection H as <-. }
  apply Forall_cons in Hl as [Hm Hl]. simpl in Hm.
  apply bind_Return in H as (d1 & H1 & H). unfold store_tablet in H1.
  destruct (_ !! _); [done|]. injection H1 as <-. destruct (IH _ Hl H) as [Hk ->].
  destruct (insert_entry_keeps counter d (cache_key_from m) (λ id, entry_with_store_state id m v c)
    {| ce_tablet_metadata := m; ce_state := EntryStore v; ce_tablet_batch_ids := [] |}
    (StoreRequest (dc_correlation_counter d +₆₄ 1) {| stq_blob_uri := tm_blob_uri m |} c))
    as [Hk' ->]; [done..|]. split; [by etrans|done].
Qed.

(** ** The laws *)

#[local] Existing Instance DefaultTabletDataCache_instance.

#[global] Instance DefaultTabletDataCache_view : DataCacheView (DefaultTabletDataCache T P) :=
  {| dcr_ok d := parts_ok (dc_batch_counter d) (parts_of d);
     dcr_room d n := 0 ≤ dc_batch_counter d ∧ dc_batch_counter d + Z.of_nat n < two64;
     dcr_honest := message_honest;
     dcr_loading d h uris := loads h uris (parts_of d) |}.

(** A call of the cache keeps the parts, up to the counter of batches. *)
Lemma default_load d n metas d' h :
  parts_ok (dc_batch_counter d) (parts_of d) → dcr_room d (S n) → Forall named metas →
  data_cache_load_tablets d metas = Return (d', h) →
  dcr_room d' n ∧ parts_ok (dc_batch_counter d') (parts_of d') ∧
  loads h (tm_blob_uri <$> metas) (parts_of d') ∧
  ∀ h' uris, loads h' uris (parts_of d) → loads h' uris (parts_of d').
Proof using.
  intros Hok [Hn Hr] Hm H. unfold data_cache_load_tablets in H.
  destruct (load_tablets_keeps (dc_batch_counter d) metas d Hm) as [Hk Hc].
  destruct (Hk Hok) as [Hok1 Hl1]. rewrite <- Hc in Hok1.
  apply start_batch_loads in H as (Hc' & Hok' & Hl & Hnew); [|by left|lia|done].
  split_and!; [simpl; lia|done|by apply Hnew|auto].
Qed.

Lemma default_store d n data d' metas h :
  parts_ok (dc_batch_counter d) (parts_of d) → dcr_room d (S n) →
  Forall (λ x, metadata_u32 x.1) data →
  data_cache_store_tablets sha256 base64 d data = Return (d', metas, h) →
  dcr_room d' n ∧
  (Forall2 (λ x m', next_version x.1 m' ∧
     names_blob (tm_blob_uri m') (create_tablet_key m') x.2) data metas ∨
   check_result (dc_store_cells (dc_cells d')) h = Some (Err StorageFailed)) ∧
  parts_ok (dc_batch_counter d') (parts_of d') ∧
  ∀ h' uris, loads h' uris (parts_of d) → loads h' uris (parts_of d').
Proof using names_written.
  intros Hok [Hn Hr] Hu H. unfold data_cache_store_tablets in H.
  destruct (prepare_tablet_writes sha256 base64 data) as [ms [cs|er]] eqn:Ep.
  - apply bind_Return in H as (d1 & H1 & H). apply bind_Return in H as ([d2 h2] & H2 & H).
    injection H as <- <- <-. pose proof (prepare_writes_named _ _ _ Hu Ep) as Hall.
    apply (store_tablets_keeps (dc_batch_counter d)) in H1 as [Hk Hc].
    + destruct (Hk Hok) as [Hok1 Hl1]. rewrite <- Hc in Hok1.
      apply start_batch_loads in H2 as (Hc' & Hok' & Hl & _); [|by right|lia|done].
      split_and!; [simpl; lia|by left|done|auto].
    + apply Forall_forall. intros [[m v] c] Hin%elem_of_zip_l.
      apply list_elem_of_lookup in Hin as [i (Hm & Hv)%lookup_zip_Some].
      apply list_lookup_fmap_Some in Hv as ([m0 v0] & -> & Hv).
      eapply Forall2_lookup_lr in Hall as [_ ?]; [|done..]. done.
  - injection H as <- <- <-. split_and!; [simpl in *; lia|right|by destruct Hok; split|].
    + unfold check_result. simpl. by rewrite lookup_insert_eq.
    + intros h' uris [Hh Hres Hl]. by split.
Qed.

#[global] Instance DefaultTabletDataCache_reads :
  @DataCacheReads (DefaultTabletDataCache T P) T (DefaultTabletDataCache_instance sha256 base64)
    (DefaultTabletDataCache_laws sha256 base64) HB DefaultTabletDataCache_view.
Proof using names_written.
  split.
  - intros d n n' Hle [? ?]. split; [done|]. lia.
  - intros d n metas d' h Hok Hr Hm H. by destruct (default_load _ _ _ _ _ Hok Hr Hm H) as (? & _ & ? & _).
  - intros d h uris values Hl. apply Hl.
  - intros d n data d' metas h Hok Hr Hu H.
    by destruct (default_store _ _ _ _ _ _ Hok Hr Hu H) as (? & ? & _).
  - intros d d' Hok Hc. simpl in *.
    destruct Hc as [config d' H|instant d' H|metas d' h Hr Hm H|data d' metas h Hr Hu H
      |msg d' Hm H|]; simpl in *.
    + by injection H as <-.
    + apply (make_progress_keeps (dc_batch_counter d)) in H as [Hk ->]. by apply Hk.
    + destruct (default_load d 0 _ _ _ Hok Hr Hm H) as (_ & ? & _ & ?). done.
    + destruct (default_store d 0 _ _ _ _ Hok Hr Hu H) as (_ & _ & ? & ?). done.
    + apply (process_message_keeps (dc_batch_counter d)) in H as [Hk ->]; [|done]. by apply Hk.
    + done.
Qed.
End default_cache.
