(* ===== verification/TransactionReads.v ===== *)
(** * What transactions read and write

    The transaction coordinator ([Coordinator]) over a data cache that reads blobs
    ([BlobReads]): every tablet of a transaction that can be committed was handed to the
    handler of its process with the contents of the blob it was resolved to, and the tablet the
    transaction asks the store for names a blob with what the handler wrote. *)

From S2P Require Import Prelude TabletStore CacheTypes MetadataCache DataCache.
From S2P Require Import Coordinator CoordinatorTheorems BlobReads.

Section reads.
Context {W T M D : Type} `{HM : !TabletMetadataCache W M, HD : !TabletDataCache D T,
  HO : !HashOrder Z, HL : !DataCacheLaws D T, HB : !BlobNames T, HV : !DataCacheView D,
  HR : !DataCacheReads D T}.
Variable allowed : ProcessHandler W T → Prop.
Hypothesis allowed_ok : ∀ handler, allowed handler → process_handler_ok handler.
Variable resolvable : TableQuery → TabletMetadata → Prop.

(** The queries that the processes of the transactions may have. *)
Variable asked : list TableQuery → Prop.

(** How the world of the handlers may change while a transaction is prepared. *)
Variable evolves : Z → relation W.
Context `{HE : ∀ id, PreOrder (evolves id)}.
Hypothesis allowed_evolves : ∀ handler id id' refs w w' lent,
  allowed handler → handler id' refs w = Return (w', lent) → evolves id w w'.

Implicit Types (p : TabletProcessState W T) (ts : TabletState T)
  (tablets : gmap Z (TabletState T)) (c : DefaultTabletTransactionCoordinator W T) (d : D).

(** ** The tablets of a process *)

(** Tablets that may be resolved, with blobs of their own, and one blob for each version. *)
Definition resolution_ok (values : list (TableQuery * TabletMetadata)) : Prop :=
  Forall (λ x, resolvable x.1 x.2 ∧ named x.2) values ∧
  ∀ x y, x ∈ values → y ∈ values → create_tablet_key x.2 = create_tablet_key y.2 →
    tm_blob_uri x.2 = tm_blob_uri y.2.

(** A process asks a metadata cache to resolve its queries. *)
Definition asks (m m' : M) : Prop :=
  ∃ (w : W) queries w' h, asked queries ∧ mci_resolve_tablets m w queries = Return (m', w', h).

(** Resolving with a metadata cache, now or after more queries, gives such tablets. *)
Definition cache_resolves (m : M) : Prop :=
  ∀ m', rtc asks m m' →
  (∀ h values, mci_check_result (W:=W) m' h = Some (Ok values) → resolution_ok values) ∧
  ∀ id w queries m'' w' h, asked queries →
    mci_resolve_tablets m' w queries = Return (m'', w', h) → evolves id w w'.

Lemma cache_resolves_asks m m' : rtc asks m m' → cache_resolves m → cache_resolves m'.
Proof using. intros H Hm m2 H2. apply Hm. by etrans. Qed.

(** A tablet before the handler: at the version it was resolved at, with no contents or with
    those of its blob, and the only one of its key among the blobs that are loaded. *)
Record readable (uris : list string) (k : Z) ts : Prop := {
  rd_resolved : resolvable (ts_query ts) (tb_metadata (ts_tablet ts));
  rd_key : create_tablet_key (tb_metadata (ts_tablet ts)) = k;
  rd_clean : tb_is_dirty (ts_tablet ts) = false ∧ tb_updated_contents (ts_tablet ts) = None;
  rd_uri u v : u ∈ uris → names_blob u k v → u = tm_blob_uri (tb_metadata (ts_tablet ts));
  rd_contents v : tb_contents (ts_tablet ts) = Some v →
    names_blob (tm_blob_uri (tb_metadata (ts_tablet ts))) k v
}.

(** What happened to a tablet of a process: it was lent to the handler as resolved and with
    the contents of its blob, in a call since which the world has evolved to what it is; it is
    unchanged, or what the handler wrote is in the blob that its next version names. *)
Record tablet_outcome (handler : ProcessHandler W T) (transaction_id : Z) (w : W) (k : Z) ts
    (base : TabletMetadata) (before after : Tablet T) : Prop := {
  to_resolved : resolvable (ts_query ts) base;
  to_key : create_tablet_key base = k;
  to_u32 : metadata_u32 base;
  to_before : tb_metadata before = base ∧ tb_is_dirty before = false;
  to_contents v : tb_contents before = Some v → names_blob (tm_blob_uri base) k v;
  to_run : ∃ refs w0 w1 lent i, handler transaction_id refs w0 = Return (w1, lent) ∧
    evolves transaction_id w1 w ∧ refs !! i = Some (ts_query ts, before) ∧ lent !! i = Some after;
  to_after :
    let new := tb_metadata (ts_tablet ts) in
    if tb_is_dirty (ts_tablet ts)
    then ∃ v, after = tablet_set_contents v before ∧ next_version base new ∧
           names_blob (tm_blob_uri new) (create_tablet_key new) v
    else after = before ∧ new = base
}.

Definition tablet_done handler transaction_id w k ts : Prop :=
  ∃ base before after, tablet_outcome handler transaction_id w k ts base before after.

Definition process_reads (transaction_id : Z) d w p : Prop :=
  allowed (ps_handler p) ∧
  match ps_status p with
  | ProcessPending queries => asked queries ∧ ps_tablets p = ∅
  | ProcessResolving _ => ps_tablets p = ∅
  | ProcessLoading h => ∃ uris, dcr_loading d h uris ∧ all_states (readable uris) (ps_tablets p)
  | ProcessStoring h =>
      all_states (tablet_done (ps_handler p) transaction_id w) (ps_tablets p) ∨ dcl_failed d h
  | ProcessCompleted => all_states (tablet_done (ps_handler p) transaction_id w) (ps_tablets p)
  | ProcessFailed => True
  end.

Lemma tablet_done_evolves handler id w w' k ts :
  evolves id w w' → tablet_done handler id w k ts → tablet_done handler id w' k ts.
Proof using HE.
  intros Hw (base & before & after & H). exists base, before, after.
  destruct H as [? ? ? ? ? (refs & w0 & w1 & lent & i & ? & ? & ? & ?) ?]. split; try done.
  exists refs, w0, w1, lent, i. split_and!; try done. by etrans.
Qed.

Lemma honest_calls_keep d d' :
  rtc honest_call d d' → dcr_ok d → dcl_ok d →
  dcr_ok d' ∧ dcl_ok d' ∧
  ∀ id w w' p, evolves id w w' → process_reads id d w p → process_reads id d' w' p.
Proof using HE HR.
  intros Hc Hr Hd.
  assert (dcr_ok d' ∧ dcl_ok d' ∧ (∀ h uris, dcr_loading d h uris → dcr_loading d' h uris) ∧
    ∀ h, dcl_failed d h → dcl_failed d' h) as (Hr' & Hd' & Hl & Hf).
  { induction Hc as [d|d d1 d2 Hc _ IH]; [done|]. destruct (dcr_call _ _ Hr Hc) as [Hr1 Hl1].
    apply honest_data_call in Hc. destruct IH as (? & ? & ? & ?); [done|by eapply dcl_ok_call|].
    split_and!; [done|done|auto|]. intros h Hh. by eauto using dcl_failed_call. }
  split_and!; [done..|]. intros id w w' p Hw [Ha Hp]. split; [done|].
  destruct (ps_status p); try done.
  - destruct Hp as (uris & ? & ?). exists uris. auto.
  - destruct Hp as [Hp|?]; [left|right; auto]. intros k ts Hk. by eapply tablet_done_evolves, Hp.
  - intros k ts Hk. by eapply tablet_done_evolves, Hp.
Qed.

(** Tracking what was resolved. *)
Lemma track_resolved_readable values :
  resolution_ok values →
  all_states (readable (tm_blob_uri <$> values.*2)) (track_resolved (T:=T) ∅ values).
Proof using.
  intros [Hn Hu] k ts Hk. unfold track_resolved in Hk.
  apply insert_states_lookup in Hk as [Hin|[_ Hk]]; [|by rewrite lookup_empty in Hk].
  apply list_elem_of_fmap in Hin as ([q m] & Heq & Hin). injection Heq as -> ->.
  rewrite Forall_forall in Hn. split; [by apply (Hn (q, m))|done|done| |done].
  simpl. intros u v Hu' Hv. rewrite <- list_fmap_compose in Hu'.
  apply list_elem_of_fmap in Hu' as ([q' m'] & -> & Hin'). simpl in *.
  destruct (Hn _ Hin') as [_ [v' Hv']]. simpl in Hv'.
  destruct (names_functional _ _ _ _ _ Hv Hv') as [Hk _]. symmetry.
  by apply (Hu (q, m) (q', m')).
Qed.

Lemma init_loaded_readable uris values tablets tablets' :
  values_ok uris values → all_states (readable uris) tablets →
  ofold init_loaded tablets values = Return tablets' → all_states (readable uris) tablets'.
Proof using.
  revert tablets. induction values as [|[e v] values IH]; intros tablets Hv Ht H; cbn [ofold] in H.
  { by injection H as <-. }
  apply Forall_cons in Hv as [[Hin Hname] Hv]. simpl in Hin, Hname.
  apply bind_Return in H as (tablets1 & H1 & H). eapply IH; [done| |exact H].
  unfold init_loaded in H1. apply bind_Return in H1 as (ts & Hts & H1). apply unwrap_Return in Hts.
  simpl in *. injection H1 as <-. intros k ts' [[<- <-]|[_ Hk]]%lookup_insert_Some; [|by apply Ht].
  destruct (Ht _ _ Hts) as [Hres Hk Hc Hu _]. split; [done..|]. simpl.
  intros v' [= <-]. by rewrite <- (Hu _ _ Hin Hname).
Qed.

Lemma init_loaded_u32 values tablets tablets' :
  all_states state_u32 tablets → ofold init_loaded tablets values = Return tablets' →
  all_states state_u32 tablets'.
Proof using. intros Ht H. by eapply (init_loaded_all state_u32); [|exact Ht|exact H]. Qed.

(** What has to be written is at the versions of the tablets. *)
Lemma to_write_u32 tablets :
  all_states state_u32 tablets →
  Forall (λ x, metadata_u32 x.1) (states_to_write (prepare_states tablets)).*2.
Proof using.
  intros Hu. apply Forall_fmap, Forall_forall. intros [[k ts] w] (ts0 & H0 & Hp)%states_to_write_elem.
  unfold tablet_prepare in Hp. simpl in *. destruct (tb_updated_contents (ts_tablet ts0)); [|done].
  injection Hp as _ <-. by apply (Hu k).
Qed.

(** The tablets after the handler and the start of their writes. *)
Lemma written_outcome handler id uris tablets w w' lent metas k ts :
  process_handler_ok handler → all_states (readable uris) tablets → all_states state_u32 tablets →
  handler id ((λ x, (ts_query x.2, ts_tablet x.2)) <$> hash_iter tablets) w = Return (w', lent) →
  let back := put_back tablets (hash_iter tablets) lent in
  let prepared := prepare_states back in
  let written := states_to_write prepared in
  Forall2 (λ x m', next_version x.1 m' ∧
    names_blob (tm_blob_uri m') (create_tablet_key m') x.2) written.*2 metas →
  put_metadata (insert_states back ((λ x, (x.1, x.2.1)) <$> prepared)) written metas !! k = Some ts →
  tablet_done handler id w' k ts.
Proof using HE.
  intros Hh Ht Hu Hrun back prepared written Hm Hk.
  destruct (put_metadata_states _ back metas k ts Hm Hk) as (ts1 & H1 & Hts).
  pose proof (Hh _ _ _ _ _ Hrun) as Hl. rewrite Forall2_fmap_l in Hl.
  apply put_back_states in H1 as (i & ts0 & t & Hi & Hti & ->);
    [|by rewrite (Forall2_length _ _ _ Hl)].
  eapply Forall2_lookup_lr in Hl; [|done..]. simpl in Hl.
  apply list_elem_of_lookup_2 in Hi as Hin. rewrite hash_iter_perm, elem_of_map_to_list in Hin.
  destruct (Ht k ts0 Hin) as [Hres Hkey [Hd Hup] _ Hc]. specialize (Hu k ts0 Hin).
  exists (tb_metadata (ts_tablet ts0)), (ts_tablet ts0), t.
  assert (∃ refs w0 w1 lent i, handler id refs w0 = Return (w1, lent) ∧ evolves id w1 w' ∧
    refs !! i = Some (ts_query ts0, ts_tablet ts0) ∧ lent !! i = Some t) as Hr.
  { eexists _, _, _, _, i. split_and!; [exact Hrun|done| |done]. by rewrite list_lookup_fmap, Hi. }
  simpl in Hts. destruct Hl as [-> | [v ->]]; simpl in Hts.
  - rewrite Hup in Hts. subst ts. split; simpl; try done. by rewrite Hd.
  - destruct Hts as (m' & [Hv Hname] & ->). split; simpl; try done. by exists v.
Qed.

Lemma process_loaded_reads n id p d w values p' d' w' uris :
  dcr_ok d → dcr_room d (S n) → allowed (ps_handler p) →
  values_ok uris values → all_states (readable uris) (ps_tablets p) →
  all_states state_u32 (ps_tablets p) → process_loaded id p d w values = Return (p', d', w') →
  process_reads id d' w' p' ∧ honest_call d d' ∧ dcr_room d' n ∧ ∀ id', evolves id' w w'.
Proof using HE HR allowed_ok allowed_evolves.
  intros Hd Hr Ha Hv Ht Hu H. unfold process_loaded in H.
  apply bind_Return in H as (tablets & Hinit & H).
  pose proof (init_loaded_readable _ _ _ _ Hv Ht Hinit) as Ht1.
  pose proof (init_loaded_u32 _ _ _ Hu Hinit) as Hu1.
  apply bind_Return in H as ([w1 lent] & Hrun & H). simpl in H.
  apply bind_Return in H as ([[d1 metas] h] & Hstore & H). injection H as <- <- <-.
  assert (all_states state_u32 (put_back tablets (hash_iter tablets) lent)) as Hu2.
  { intros k ts Hk. pose proof (allowed_ok _ Ha _ _ _ _ _ Hrun) as Hl. rewrite Forall2_fmap_l in Hl.
    apply put_back_states in Hk as (i & ts0 & t & Hi & Hti & ->);
      [|by rewrite (Forall2_length _ _ _ Hl)].
    eapply Forall2_lookup_lr in Hl; [|done..].
    apply list_elem_of_lookup_2 in Hi. rewrite hash_iter_perm, elem_of_map_to_list in Hi.
    unfold state_u32. specialize (Hu1 k ts0 Hi). by destruct Hl as [-> | [v ->]]. }
  pose proof (to_write_u32 _ Hu2) as Hw.
  destruct (dcr_store _ _ _ _ _ _ Hd Hr Hw Hstore) as [Hr' Hm]. split_and!; [|..|done|].
  - split; [done|]. simpl. destruct Hm as [Hm|?]; [left|by right]. intros k ts Hk.
    eapply written_outcome; [by apply allowed_ok|exact Ht1|exact Hu1|exact Hrun|exact Hm|exact Hk].
  - eapply HonestStore; [|exact Hw|exact Hstore]. eapply dcr_room_le; [|exact Hr]. lia.
  - intros id'. by eapply allowed_evolves.
Qed.

Lemma advance_process_reads n id p m d w p' m' d' w' :
  dcr_ok d → dcr_room d (S n) → cache_resolves m → process_reads id d w p → process_u32 p →
  advance_process id p m d w = Return (p', m', d', w') →
  process_reads id d' w' p' ∧ rtc honest_call d d' ∧ dcr_room d' n ∧ rtc asks m m' ∧
  ∀ id', evolves id' w w'.
Proof using HE HR allowed_ok allowed_evolves.
  intros Hd Hr Hm [Ha Hp] Hu H.
  assert (dcr_room d n) as Hr' by (eapply dcr_room_le; [|exact Hr]; lia).
  unfold advance_process in H. unfold process_u32 in Hu. destruct (ps_status p) eqn:Est.
  - apply bind_Return in H as ([[m1 w1] h] & Hres & H). injection H as <- <- <- <-.
    destruct Hp as [Hq Hp]. split_and!; [done..| |].
    + apply rtc_once. by eexists _, _, _, _.
    + intros id'. eapply Hm; [apply rtc_refl|done|exact Hres].
  - destruct (mci_check_result m resolve_result) as [[values|]|] eqn:Ec.
    + apply bind_Return in H as ([d1 h] & Hl & H). injection H as <- <- <- <-.
      pose proof (proj1 (Hm m (rtc_refl _ _)) _ _ Ec) as Hval.
      assert (Forall named values.*2) as Hnm by (apply Forall_fmap; eapply Forall_impl; [apply Hval|]; by intros x [_ ?]).
      destruct (dcr_load _ _ _ _ _ Hd Hr Hnm Hl) as [Hr1 Hl1]. split_and!; [|..|done|done|done].
      * split; [done|]. simpl. eexists. split; [done|]. rewrite Hp.
        by apply track_resolved_readable.
      * apply rtc_once. eapply HonestLoad; [|exact Hnm|exact Hl]. eapply dcr_room_le; [|exact Hr]. lia.
    + by injection H as <- <- <- <-.
    + injection H as <- <- <- <-. split_and!; [|done..]. split; [done|]. by rewrite Est.
  - destruct Hp as (uris & Hl & Ht). destruct (dci_check_load d load_result) as [[values|]|] eqn:Ec.
    + apply bind_Return in H as ([[p1 d1] w1] & Hpl & H). injection H as <- <- <- <-.
      pose proof (dcr_loaded _ _ _ _ Hl Ec) as Hv.
      eapply process_loaded_reads in Hpl as (? & ? & ? & ?); [|done..].
      split_and!; [done|by apply rtc_once|done|done|done].
    + by injection H as <- <- <- <-.
    + injection H as <- <- <- <-. split_and!; [|done..]. split; [done|]. rewrite Est. by exists uris.
  - destruct (dci_check_store d store_result) as [[[]|]|] eqn:Ec.
    + injection H as <- <- <- <-. split_and!; [|done..]. split; [done|]. simpl.
      destruct Hp as [?|Hf]; [done|]. by apply dcl_failed_check in Hf.
    + by injection H as <- <- <- <-.
    + injection H as <- <- <- <-. split_and!; [|done..]. split; [done|]. by rewrite Est.
  - injection H as <- <- <- <-. split_and!; [|done..]. split; [done|]. by rewrite Est.
  - injection H as <- <- <- <-. split_and!; [|done..]. split; [done|]. by rewrite Est.
Qed.

Lemma advance_processes_reads n id ps m d w ps' m' d' w' :
  dcr_ok d → dcl_ok d → dcr_room d (length ps + n) → cache_resolves m →
  Forall (process_reads id d w) ps → Forall process_u32 ps →
  advance_processes id ps m d w = Return (ps', m', d', w') →
  Forall (process_reads id d' w') ps' ∧ rtc honest_call d d' ∧ dcr_room d' n ∧ rtc asks m m' ∧
  ∀ id', evolves id' w w'.
Proof using HE HR allowed_ok allowed_evolves.
  revert m d w ps'. induction ps as [|p ps IH];
    intros m d w ps' Hd Hl Hr Hm Hps Hus H; cbn [advance_processes] in H.
  { injection H as <- <- <- <-. by split_and!. }
  apply Forall_cons in Hps as [Hp Hps]. apply Forall_cons in Hus as [Hu Hus].
  apply bind_Return in H as ([[[p1 m1] d1] w1] & Hadv & H).
  apply bind_Return in H as ([[[ps1 m2] d2] w2] & Hrest & H). injection H as <- <- <- <-.
  apply (advance_process_reads (length ps + n)) in Hadv as (Hp1 & Hc1 & Hr1 & Hm1 & He1); [|done..].
  destruct (honest_calls_keep d d1 Hc1 Hd Hl) as (Hd1 & Hl1 & Hk1).
  apply IH in Hrest as (Hps1 & Hc2 & Hr2 & Hm2 & He2);
    [|done..|by eapply cache_resolves_asks|by eapply Forall_impl; [exact Hps|intros q; apply Hk1]|done].
  destruct (honest_calls_keep d1 d2 Hc2 Hd1 Hl1) as (_ & _ & Hk2).
  split_and!; [|by etrans|done|by etrans|intros id1; by etrans; [apply He1|apply He2]]. constructor; [by eapply Hk2; [apply He2|]|done].
Qed.

(** ** Transactions *)

Definition transaction_reads d w (t : TabletTransactionState W T) : Prop :=
  match t with
  | TransactionPreparing s =>
      Forall (process_reads (pts_transaction_id s) d w) (pts_process_requests s)
  | TransactionCommitting _ | TransactionCompleted _ => True
  end.

Definition coordinator_reads d w c : Prop :=
  map_Forall (λ _, transaction_reads d w) (co_transactions c).

(** The world changes as the transactions in preparation allow. *)
Definition transaction_evolves (t : TabletTransactionState W T) (w w' : W) : Prop :=
  match t with TransactionPreparing s => evolves (pts_transaction_id s) w w' | _ => True end.

(** The processes that one round may advance. *)
Definition transaction_processes (t : TabletTransactionState W T) : nat :=
  match t with TransactionPreparing s => length (pts_process_requests s) | _ => 0 end.

Definition open_processes c : nat :=
  sum_list_with (λ x, transaction_processes x.2) (hash_iter (co_transactions c)).

Lemma transaction_reads_calls d d' w w' t :
  rtc honest_call d d' → dcr_ok d → dcl_ok d → transaction_evolves t w w' →
  transaction_reads d w t → transaction_reads d' w' t.
Proof using HE HR.
  intros Hc Hd Hl He Ht. destruct t; [|done..]. simpl in *. eapply Forall_impl; [exact Ht|].
  intros p. by apply (honest_calls_keep d d' Hc Hd Hl).
Qed.

Lemma coordinator_progress_reads c m d w c' m' d' w' :
  dcr_ok d → dcl_ok d → dcr_room d (open_processes c) → cache_resolves m →
  coordinator_reads d w c → coordinator_u32 c →
  coordinator_make_progress c m d w = Return (c', m', d', w') →
  coordinator_reads d' w' c' ∧ rtc honest_call d d' ∧ rtc asks m m'.
Proof using HE HR allowed_ok allowed_evolves.
  intros Hd Hl Hr Hm Hc Hu H. unfold coordinator_make_progress in H.
  apply bind_Return in H as ([[[ts1 m1] d1] w1] & Hloop & H). injection H as <- <- <- <-.
  assert (Forall (λ x, transaction_reads d w x.2 ∧ transaction_u32 x.2)
    (hash_iter (co_transactions c))) as Hall.
  { apply Forall_forall. intros [id t] Hx. rewrite hash_iter_perm, elem_of_map_to_list in Hx.
    split; [by apply (Hc id t)|by apply (Hu id t)]. }
  clear Hu. unfold coordinator_reads, open_processes in *. simpl. revert Hc Hall Hr Hloop.
  generalize (hash_iter (co_transactions c)) as l. generalize (co_transactions c) as ts.
  intros ts l. revert m d w ts Hd Hl Hm.
  induction l as [|[id t] l IH]; intros m d w ts Hd Hl Hm Hts Hall Hr Hloop; simpl in Hloop.
  { by injection Hloop as <- <- <- <-. }
  apply Forall_cons in Hall as [[Ht Htu] Hall']. destruct t as [s|s|o]; simpl in *.
  2, 3: by eapply (IH m d w).
  apply bind_Return in Hloop as ([[[ts2 m2] d2] w2] & Hadv & Hloop).
  apply bind_Return in Hadv as ([[[s2 m3] d3] w3] & Hadv & Heq). injection Heq as <- <- <- <-.
  unfold preparing_make_progress in Hadv.
  apply bind_Return in Hadv as ([[[ps m4] d4] w4] & Hadv & Heq). injection Heq as <- <- <- <-.
  eapply advance_processes_reads in Hadv as (Hps & Hc1 & Hr1 & Hm1 & He1); [|done..].
  destruct (honest_calls_keep d d4 Hc1 Hd Hl) as (Hd4 & Hl4 & _).
  assert (∀ t, transaction_reads d w t → transaction_reads d4 w4 t) as Hkt.
  { intros t. eapply transaction_reads_calls; [done..|]. destruct t; [apply He1|done..]. }
  eapply IH in Hloop as (? & ? & ?); [|done..|by eapply cache_resolves_asks| | |done].
  - split_and!; [done|by etrans|by etrans].
  - intros i y [[<- <-]|[_ Hx]]%lookup_insert_Some; [done|]. by eapply Hkt, Hts.
  - eapply Forall_impl; [exact Hall'|]. intros y [? ?]. split; [by apply Hkt|done].
Qed.

(** ** Runs *)

(** A call on a coordinator that does not reach the data cache. *)
Inductive coordinator_call c : DefaultTabletTransactionCoordinator W T → Prop :=
| CallInMessage (m : M) msg c' m' :
    coordinator_process_in_message c m msg = Return (c', m') → coordinator_call c c'
| CallTakeMessages : coordinator_call c (coordinator_take_out_messages c).1
| CallCreate : 0 ≤ co_transaction_counter c < two64 - 1 →
    coordinator_call c (create_transaction c).1
| CallProcessQueries id queries handler c' : allowed handler → asked queries →
    process_transaction c id queries handler = Return c' → coordinator_call c c'
| CallCommit id c' : 0 ≤ co_correlation_counter c < two64 - 1 →
    commit_transaction c id = Return c' → coordinator_call c c'
| CallAbort id : coordinator_call c (abort_transaction c id)
| CallCheck id c' o : check_transaction_result c id = Return (c', o) → coordinator_call c c'.

(** A step of a coordinator with its data cache and the world of its handlers, over a storage
    that answers with the blobs and a metadata cache that resolves to tablets with blobs. *)
Inductive honest_step :
    DefaultTabletTransactionCoordinator W T * D * W →
    DefaultTabletTransactionCoordinator W T * D * W → Prop :=
| HonestRound c (m : M) d w c' m' d' w' :
    coordinator_u32 c → cache_resolves m → dcr_room d (open_processes c) →
    coordinator_make_progress c m d w = Return (c', m', d', w') →
    honest_step (c, d, w) (c', d', w')
| HonestCoordinator c d w c' : coordinator_call c c' → honest_step (c, d, w) (c', d, w)
| HonestData c d w d' : honest_call d d' → honest_step (c, d, w) (c, d', w)
| HonestWorld c d w w' :
    (∀ id t, co_transactions c !! id = Some t → transaction_evolves t w w') →
    honest_step (c, d, w) (c, d, w').

Lemma coordinator_call_reads d w c c' :
  coordinator_call c c' → coordinator_reads d w c → coordinator_reads d w c'.
Proof using.
  assert (∀ c c' id t, coordinator_reads d w c → transaction_reads d w t →
    co_transactions c' = <[id := t]> (co_transactions c) → coordinator_reads d w c') as Hins.
  { intros c0 c1 id t Hc Ht Hts. unfold coordinator_reads. rewrite Hts. by apply map_Forall_insert_2. }
  intros Hcall Hc. destruct Hcall as [m [corr results] c' m' H| |Hn|id qs h c' Ha Hq H|id c' Hn H|id|id c' o H].
  - unfold coordinator_process_in_message in H.
    destruct (co_correlations c !! corr) as [id|]; [|by injection H as <- <-].
    cbn [co_with co_transactions co_correlations] in H.
    destruct (co_transactions c !! id) as [[s|s|o]|]; [by injection H as <- <-| |by injection H as <- <-..].
    apply bind_Return in H as ([o metas] & _ & H). apply bind_Return in H as (m1 & _ & H).
    injection H as <- <-. eapply (Hins c); [done| |simpl; done]. done.
  - done.
  - eapply (Hins c); [done| |simpl; done]. by constructor.
  - unfold process_transaction in H. destruct (co_transactions c !! id) as [t|] eqn:Et; [|done].
    cbn in H. destruct t as [s| |]; [|done..]. injection H as <-.
    eapply (Hins c); [done| |simpl; done]. specialize (Hc _ _ Et). simpl in *.
    apply Forall_app. split; [done|]. constructor; [|constructor]. by split.
  - unfold commit_transaction in H. destruct (co_transactions c !! id) as [t|] eqn:Et; [|done].
    cbn in H. destruct t as [s| |]; [|done..]. destruct (is_active s); [done|].
    destruct (preparing_complete s); injection H as <-; (eapply (Hins c); [done| |simpl; done]); done.
  - intros i t. simpl. intros [_ ?]%lookup_delete_Some. by eapply Hc.
  - unfold check_transaction_result in H. destruct (co_transactions c !! id) as [t|]; [|done].
    cbn in H. destruct t as [s| |o']; [done|by injection H as <- <-|]. injection H as <- <-.
    intros i t. simpl. intros [_ ?]%lookup_delete_Some. by eapply Hc.
Qed.

Definition reads_inv (x : DefaultTabletTransactionCoordinator W T * D * W) : Prop :=
  dcr_ok x.1.2 ∧ dcl_ok x.1.2 ∧ coordinator_reads x.1.2 x.2 x.1.1.

Lemma honest_step_reads x y : honest_step x y → reads_inv x → reads_inv y.
Proof using HE HR allowed_ok allowed_evolves.
  intros Hstep (Hd & Hl & Hc).
  destruct Hstep as [c m d w c' m' d' w' Hu Hm Hr H|c d w c' H|c d w d' H|c d w w' H];
    unfold reads_inv in *; simpl in *.
  - eapply coordinator_progress_reads in H as (Hc' & Hcalls & _); [|done..].
    destruct (honest_calls_keep _ _ Hcalls Hd Hl) as (? & ? & _). done.
  - split_and!; [done..|]. by eapply coordinator_call_reads.
  - destruct (honest_calls_keep d d' (rtc_once _ _ H) Hd Hl) as (? & ? & _). split_and!; [done..|].
    intros id t Ht. eapply transaction_reads_calls; [by apply rtc_once|done..| |by eapply Hc].
    destruct t; [|done..]. simpl. reflexivity.
  - split_and!; [done..|]. intros id t Ht.
    eapply transaction_reads_calls; [apply rtc_refl|done..|by eapply H|by eapply Hc].
Qed.

Lemma honest_steps_reads n d0 w0 c d w :
  dcr_ok d0 → dcl_ok d0 → rtc honest_step (coordinator_create n, d0, w0) (c, d, w) →
  reads_inv (c, d, w).
Proof using HE HR allowed_ok allowed_evolves.
  intros Hd Hl Hsteps. assert (reads_inv (coordinator_create n, d0, w0)) as Hx.
  { split_and!; [done..|]. apply map_Forall_empty. }
  revert Hx. generalize dependent (coordinator_create (W:=W) (T:=T) n, d0, w0).
  intros x Hsteps. remember (c, d, w) as y. clear Heqy.
  induction Hsteps as [x|x x1 y Hst _ IH]; [done|]. intros Hx. by eapply IH, honest_step_reads.
Qed.

(** Every tablet of a transaction that can be committed was processed on the contents of its
    blob. *)
Lemma committed_tablet_done n d0 w0 c d w id s k ts :
  dcr_ok d0 → dcl_ok d0 → rtc honest_step (coordinator_create n, d0, w0) (c, d, w) →
  co_transactions c !! id = Some (TransactionPreparing s) → is_active s = false →
  transaction_tablet s k ts →
  ∃ handler, allowed handler ∧ tablet_done handler (pts_transaction_id s) w k ts.
Proof using HE HR allowed_ok allowed_evolves.
  intros Hd Hl Hsteps Hs Hact (p & Hp & Hk).
  destruct (honest_steps_reads n d0 w0 c d w Hd Hl Hsteps) as (_ & _ & Hc).
  specialize (Hc _ _ Hs). simpl in Hc. rewrite Forall_forall in Hc. destruct (Hc p Hp) as [Ha H].
  exists (ps_handler p). split; [done|].
  assert (process_active p = false) as Hap.
  { apply not_true_is_false. intros Ht. unfold is_active in Hact. apply not_true_iff_false in Hact.
    apply Hact, existsb_exists. exists p. split; [by apply list_elem_of_In|done]. }
  unfold process_active in Hap. destruct (ps_status p); try done. by apply H.
Qed.
End reads.
