(* ===== verification/Serializable.v ===== *)
(** * Transactions over the tablet store

    The tablet store ([TabletStore]) with the coordinators of its clients ([Coordinator]) as one
    system.  A client reads tablets at some point of the log of the store and later sends one
    request that checks or updates them at the versions it read.  The versions of tablets make
    the transactions that succeed serializable: each of them acts as if everything it read was
    read at its own place in the log. *)

From S2P Require Import Prelude TabletStore CacheTypes MetadataCache DataCache Coordinator.
From S2P Require Import CoordinatorTheorems.

#[local] Abbreviation tables_of := (gmap string TableMetadata).

(** A tablet of a table. *)
Definition tablet_of (tables : tables_of) (name : string) (id : Z) : option TabletMetadata :=
  table ← tables !! name; tb_tablets table !! id.

(** Whether the store answers a request with success. *)
Definition request_commits (tables : tables_of) (request : TabletsRequest) : bool :=
  match on_apply_tablets_request tables request with
  | Return (_, (_, response)) =>
      match trs_status response with TabletsSucceeded => true | _ => false end
  | Panic => false
  end.

(** The tables before each request of a log, and after the last one. *)
Fixpoint store_states (tables : tables_of) (log : list TabletsRequest) : list tables_of :=
  tables ::
  match log with
  | [] => []
  | request :: log =>
      match on_apply_tablets_request tables request with
      | Return (tables, _) => store_states tables log
      | Panic => []
      end
  end.

(** An operation on a tablet that was read at a version. *)
Definition op_accesses (op : TabletOp) (name : string) (id version : Z) : Prop :=
  to_table_name op = name ∧
  match to_op op with
  | Some (CheckTablet i v) => i = id ∧ v = version
  | Some (UpdateTablet (Some u)) => tm_tablet_id u = id ∧ tm_tablet_version u = version +₃₂ 1
  | _ => False
  end.

(** What an operation, and then a request, writes to a tablet. *)
Definition op_written (name : string) (id : Z) (op : TabletOp) : option TabletMetadata :=
  match to_op op with
  | Some (UpdateTablet (Some u)) =>
      if decide (to_table_name op = name ∧ tm_tablet_id u = id) then Some u else None
  | _ => None
  end.

Definition ops_written (ops : list TabletOp) (name : string) (id : Z) : option TabletMetadata :=
  last (omap (op_written name id) ops).

Abbreviation request_written request name id := (ops_written (tr_tablet_ops request) name id).

(** The versions of the tablets have room for a number of requests. *)
Definition versions_room (tables : tables_of) (n : nat) : Prop :=
  ∀ name id m, tablet_of tables name id = Some m →
    0 ≤ tm_tablet_version m ∧ tm_tablet_version m + Z.of_nat n < two32.

(** ** One request *)

Lemma op_effect_dom tables op : dom (op_effect tables op) = dom tables.
Proof.
  unfold op_effect. destruct (tables !! to_table_name op) eqn:Ht; [|done].
  destruct (to_op op) as [[| | |[u|]|]|]; try done.
  apply dom_insert_lookup_L. by eexists.
Qed.

Lemma op_effect_tablet tables op name id :
  to_table_name op ∈ dom tables →
  tablet_of (op_effect tables op) name id = op_written name id op ∪ tablet_of tables name id.
Proof.
  intros [table Ht]%elem_of_dom. unfold op_effect, op_written. rewrite Ht.
  destruct (to_op op) as [[| | |[u|]|]|];
    try by (destruct (tablet_of tables name id)).
  unfold tablet_of. case_decide as Hd.
  - destruct Hd as [<- <-]. rewrite lookup_insert_eq. simpl. rewrite lookup_insert_eq.
    by destruct (tables !! _ ≫= _).
  - destruct (decide (to_table_name op = name)) as [<-|].
    + rewrite lookup_insert_eq, Ht. simpl. rewrite lookup_insert_ne by naive_solver.
      by destruct (tb_tablets table !! id).
    + rewrite lookup_insert_ne by done. by destruct (tables !! name ≫= _).
Qed.

Lemma option_union_assoc' {A} (x y z : option A) : x ∪ (y ∪ z) = (x ∪ y) ∪ z.
Proof. by destruct x, y, z. Qed.

Lemma ops_written_snoc ops op name id :
  ops_written (ops ++ [op]) name id = op_written name id op ∪ ops_written ops name id.
Proof.
  unfold ops_written. rewrite omap_app. simpl. destruct (op_written name id op) as [u|].
  - rewrite last_snoc. by destruct (last _).
  - rewrite app_nil_r. by destruct (last _).
Qed.

Lemma ops_effect_tablet tables ops name id :
  Forall (λ op, to_table_name op ∈ dom tables) ops →
  dom (foldl op_effect tables ops) = dom tables ∧
  tablet_of (foldl op_effect tables ops) name id = ops_written ops name id ∪ tablet_of tables name id.
Proof.
  induction ops as [|op ops IH] using rev_ind; intros Hin.
  { split; [done|]. unfold ops_written. simpl. by destruct (tablet_of tables name id). }
  apply Forall_app in Hin as [Hin Hop]. rewrite Forall_singleton in Hop.
  destruct (IH Hin) as [Hdom Htab]. rewrite foldl_snoc, op_effect_dom. split; [done|].
  rewrite op_effect_tablet by (rewrite Hdom; done).
  by rewrite Htab, ops_written_snoc, option_union_assoc'.
Qed.

Lemma op_holds_dom tables op : op_holds tables op = true → to_table_name op ∈ dom tables.
Proof.
  unfold op_holds. intros H. apply elem_of_dom. by destruct (tables !! to_table_name op).
Qed.

(** An operation that holds found its tablet at the version it was given. *)
Lemma op_holds_version tables op name id version m :
  op_holds tables op = true → op_accesses op name id version → tablet_of tables name id = Some m →
  in_u32 version → in_u32 (tm_tablet_version m) → tm_tablet_version m = version.
Proof.
  intros Hop [<- Hacc] Hm Hv Hvm. unfold tablet_of in Hm. unfold op_holds in Hop.
  destruct (tables !! to_table_name op) as [table|]; [|done]. simpl in Hm.
  destruct (to_op op) as [[|i v| |[u|]|]|]; try done; destruct Hacc as [<- Hver];
    rewrite Hm in Hop; apply bool_decide_eq_true in Hop; [congruence|].
  rewrite Hop in Hver. unfold in_u32, u32_add in *.
  destruct (decide (tm_tablet_version m = two32 - 1)), (decide (version = two32 - 1)); subst;
    rewrite ?e, ?e0 in *; try lia; rewrite ?Z.mod_small in Hver by lia; try lia.
  all: rewrite ?Z_mod_same_full, ?Z.mod_small in Hver by lia; lia.
Qed.

Lemma op_written_holds tables op name id u :
  op_holds tables op = true → op_written name id op = Some u →
  ∃ m, tablet_of tables name id = Some m ∧ tm_tablet_version u = tm_tablet_version m +₃₂ 1.
Proof.
  unfold op_holds, op_written, tablet_of. intros Hop Hw.
  destruct (to_op op) as [[| | |[u'|]|]|]; try done. case_decide as Hd; [|done].
  destruct Hd as [<- <-]. injection Hw as ->. destruct (tables !! to_table_name op); [|done].
  simpl. destruct (tb_tablets _ !! _) as [m|]; [|done].
  exists m. split; [done|]. by apply bool_decide_eq_true in Hop.
Qed.

Lemma ops_written_holds tables ops name id u :
  forallb (op_holds tables) ops = true → ops_written ops name id = Some u →
  ∃ m, tablet_of tables name id = Some m ∧ tm_tablet_version u = tm_tablet_version m +₃₂ 1.
Proof.
  rewrite forallb_forall. intros Hops Hw. apply last_Some_elem_of, list_elem_of_omap in Hw
    as (op & Hin & Hw). eapply op_written_holds; [|exact Hw]. apply Hops. by apply list_elem_of_In.
Qed.

(** What the store does with a request, tablet by tablet. *)
Lemma request_step tables request :
  Forall op_supported (tr_tablet_ops request) →
  ∃ tables' answer,
    on_apply_tablets_request tables request = Return (tables', answer) ∧
    request_commits tables request = forallb (op_holds tables) (tr_tablet_ops request) ∧
    (∀ name id, tablet_of tables' name id
      = (if request_commits tables request then request_written request name id else None)
        ∪ tablet_of tables name id).
Proof.
  intros Hsup. destruct (apply_request_spec tables request Hsup) as (tables' & response & Happ & _ & H).
  exists tables', (ExecuteTabletOpsResponse, response). unfold request_commits. rewrite Happ.
  split; [done|]. destruct (forallb _ _) eqn:Hall; destruct H as [-> ->].
  - split; [done|]. intros name id. apply ops_effect_tablet.
    rewrite forallb_forall in Hall. apply Forall_forall. intros op Hin.
    apply op_holds_dom, Hall. by apply list_elem_of_In.
  - split; [done|]. intros name id. by destruct (tablet_of tables name id).
Qed.

(** A step keeps the tablet, or commits a write of the next version of it. *)
Lemma step_tablet tables request tables' answer n name id m :
  Forall op_supported (tr_tablet_ops request) → versions_room tables (S n) →
  on_apply_tablets_request tables request = Return (tables', answer) →
  tablet_of tables name id = Some m →
  ∃ m', tablet_of tables' name id = Some m' ∧
    (m' = m ∧ (request_commits tables request = true → request_written request name id = None) ∨
     request_commits tables request = true ∧ request_written request name id = Some m' ∧
     tm_tablet_version m' = tm_tablet_version m + 1).
Proof.
  intros Hsup Hroom Happ Hm.
  destruct (request_step tables request Hsup) as (t & a & Happ' & Hc & Htab).
  rewrite Happ in Happ'. injection Happ' as <- <-. rewrite Htab, Hm.
  destruct (request_commits tables request); [|exists m; by split; [|left]].
  destruct (request_written request name id) as [u|] eqn:Hw; [|exists m; by split; [|left]].
  exists u. split; [done|]. right. split_and!; [done..|].
  destruct (ops_written_holds tables _ name id u (eq_sym Hc) Hw) as (m0 & Hm0 & ->).
  rewrite Hm in Hm0. injection Hm0 as <-. destruct (Hroom _ _ _ Hm). unfold u32_add.
  apply Z.mod_small. lia.
Qed.

(** No tablet appears. *)
Lemma step_tablet_inv tables request tables' answer name id m' :
  Forall op_supported (tr_tablet_ops request) →
  on_apply_tablets_request tables request = Return (tables', answer) →
  tablet_of tables' name id = Some m' → is_Some (tablet_of tables name id).
Proof.
  intros Hsup Happ. destruct (request_step tables request Hsup) as (t & a & Happ' & Hc & Htab).
  rewrite Happ in Happ'. injection Happ' as <- <-. rewrite Htab.
  destruct (tablet_of tables name id) as [m|] eqn:Hm; [by eexists|].
  destruct (request_commits tables request); [|done].
  destruct (request_written request name id) as [u|] eqn:Hw; [|done].
  destruct (ops_written_holds tables _ name id u (eq_sym Hc) Hw) as (m0 & Hm0 & _). congruence.
Qed.

Lemma step_room tables request tables' answer n :
  Forall op_supported (tr_tablet_ops request) → versions_room tables (S n) →
  on_apply_tablets_request tables request = Return (tables', answer) → versions_room tables' n.
Proof.
  intros Hsup Hroom Happ name id m' Hm'.
  destruct (step_tablet_inv _ _ _ _ _ _ _ Hsup Happ Hm') as [m Hm].
  destruct (step_tablet _ _ _ _ n name id m Hsup Hroom Happ Hm) as (m0 & Hm0 & Hcase).
  rewrite Hm' in Hm0. injection Hm0 as <-. destruct (Hroom _ _ _ Hm).
  destruct Hcase as [[-> _]|(_ & _ & ->)]; lia.
Qed.

(** ** A log of requests *)

#[local] Abbreviation supported := (Forall (λ r, Forall op_supported (tr_tablet_ops r))).

Lemma store_states_head tables log : store_states tables log !! 0%nat = Some tables.
Proof. by destruct log. Qed.

(** The log from a state on. *)
Lemma store_states_drop tables log k s :
  store_states tables log !! k = Some s →
  ∀ i, store_states tables log !! (k + i)%nat = store_states s (drop k log) !! i.
Proof.
  revert tables log. induction k as [|k IH]; intros tables log Hs i.
  - rewrite store_states_head in Hs. by injection Hs as ->.
  - destruct log as [|request log]; [done|]. simpl in *.
    destruct (on_apply_tablets_request tables request) as [[tables' answer]|]; [|done].
    by apply IH.
Qed.

Lemma room_mono tables n n' : (n' ≤ n)%nat → versions_room tables n → versions_room tables n'.
Proof. intros Hn Hroom name id m Hm. destruct (Hroom _ _ _ Hm). lia. Qed.

(** Along a log a tablet stays, its version does not go down, and while the version stays the
    same the tablet is the same and no request writes it. *)
Lemma log_tablet tables log j s name id m :
  supported log → versions_room tables (length log) → store_states tables log !! j = Some s →
  tablet_of tables name id = Some m →
  ∃ m', tablet_of s name id = Some m' ∧ tm_tablet_version m ≤ tm_tablet_version m' ∧
    (tm_tablet_version m' = tm_tablet_version m →
     m' = m ∧ ∀ i r si, (i < j)%nat → log !! i = Some r → store_states tables log !! i = Some si →
       request_commits si r = true → request_written r name id = None).
Proof.
  revert tables log m. induction j as [|j IH]; intros tables log m Hsup Hroom Hs Hm.
  { rewrite store_states_head in Hs. injection Hs as <-. exists m. split_and!; [done..|].
    intros _. split; [done|]. intros. lia. }
  destruct log as [|request log]; [done|]. apply Forall_cons in Hsup as [Hr Hsup]. simpl in Hs.
  destruct (on_apply_tablets_request tables request) as [[tables' answer]|] eqn:Happ; [|done].
  destruct (step_tablet _ _ _ _ _ _ _ _ Hr Hroom Happ Hm) as (m1 & Hm1 & Hcase).
  pose proof (step_room _ _ _ _ _ Hr Hroom Happ) as Hroom'.
  destruct (IH tables' log m1 Hsup Hroom' Hs Hm1) as (m' & Hm' & Hle & Heq).
  exists m'. split; [done|]. destruct Hcase as [[-> Hnone]|(_ & _ & Hv)]; [|lia].
  split; [done|]. intros Hv. destruct (Heq Hv) as [-> Hw]. split; [done|].
  intros [|i] r si Hi Hlog Hsi Hc.
  - injection Hlog as <-. rewrite store_states_head in Hsi. injection Hsi as <-. auto.
  - simpl in Hlog, Hsi. rewrite Happ in Hsi. eapply Hw; [|done..]. lia.
Qed.

(** The room that is left at a state. *)
Lemma log_room tables log k s :
  supported log → versions_room tables (length log) → store_states tables log !! k = Some s →
  (k ≤ length log)%nat ∧ versions_room s (length log - k).
Proof.
  revert tables log. induction k as [|k IH]; intros tables log Hsup Hroom Hs.
  { rewrite store_states_head in Hs. injection Hs as <-. split; [lia|].
    by rewrite Nat.sub_0_r. }
  destruct log as [|request log]; [done|]. apply Forall_cons in Hsup as [Hr Hsup]. simpl in Hs.
  destruct (on_apply_tablets_request tables request) as [[tables' answer]|] eqn:Happ; [|done].
  destruct (IH tables' log Hsup (step_room _ _ _ _ _ Hr Hroom Happ) Hs). simpl. split; [lia|done].
Qed.

(** Every request is answered. *)
Lemma store_states_length tables log :
  supported log → length (store_states tables log) = S (length log).
Proof.
  revert tables. induction log as [|r log IH]; intros tables Hsup; [done|].
  apply Forall_cons in Hsup as [Hr Hsup]. destruct (request_step tables r Hr) as (t & a & Happ & _).
  simpl. rewrite Happ. simpl. by rewrite IH.
Qed.

(** A request that succeeds accesses tablets that are what they were when they had the
    version it was given, whenever that was. *)
Lemma request_serializable tables log k j sk sj request op name id m :
  Forall (λ r, Forall op_supported (tr_tablet_ops r)) log →
  versions_room tables (length log) →
  log !! j = Some request → op ∈ tr_tablet_ops request → (k ≤ j)%nat →
  store_states tables log !! k = Some sk → store_states tables log !! j = Some sj →
  tablet_of sk name id = Some m → op_accesses op name id (tm_tablet_version m) →
  request_commits sj request = true →
  tablet_of sj name id = Some m ∧
  (∀ i r si, (k ≤ i < j)%nat → log !! i = Some r → store_states tables log !! i = Some si →
     request_commits si r = true → request_written r name id = None) ∧
  ∃ s' m', store_states tables log !! S j = Some s' ∧ tablet_of s' name id = Some m' ∧
    m' = default m (request_written request name id) ∧
    tm_tablet_version m'
      = tm_tablet_version m + (if request_written request name id then 1 else 0).
Proof.
  intros Hsup Hroom Hlog Hop Hkj Hsk Hsj Hm Hacc Hc.
  destruct (log_room _ _ _ _ Hsup Hroom Hsk) as [Hk Hroomk].
  destruct (log_room _ _ _ _ Hsup Hroom Hsj) as [Hj Hroomj].
  pose proof (lookup_lt_Some _ _ _ Hlog) as Hlt.
  assert (Hreq : Forall op_supported (tr_tablet_ops request)) by by eapply Forall_lookup_1 in Hsup.
  pose proof (store_states_drop _ _ _ _ Hsk) as Hdrop.
  assert (supported (drop k log)) as Hsup' by by apply Forall_drop.
  rewrite <- length_drop in Hroomk.
  pose proof (Hdrop (j - k)%nat) as Hsj'. replace (k + (j - k))%nat with j in Hsj' by lia.
  rewrite Hsj in Hsj'. symmetry in Hsj'.
  destruct (log_tablet sk (drop k log) (j - k) sj name id m Hsup' Hroomk Hsj' Hm)
    as (m1 & Hm1 & Hle & Heq).
  destruct (request_step sj request Hreq) as (s' & a & Happ & Hall & _).
  rewrite Hc in Hall. symmetry in Hall. rewrite forallb_forall in Hall.
  destruct (Hroomk _ _ _ Hm), (Hroomj _ _ _ Hm1).
  assert (Hv : tm_tablet_version m1 = tm_tablet_version m).
  { eapply op_holds_version; [|done..| |]; [by apply Hall, list_elem_of_In|..];
      unfold in_u32; lia. }
  destruct (Heq Hv) as [-> Hnone]. split; [done|]. split.
  - intros i r si Hi Hr Hsi Hci. eapply (Hnone (i - k)%nat r si); [lia|..|done].
    + rewrite lookup_drop. by replace (k + (i - k))%nat with i by lia.
    + rewrite <- Hdrop. by replace (k + (i - k))%nat with i by lia.
  - replace (length log - j)%nat with (S (length log - S j)) in Hroomj by lia.
    destruct (step_tablet _ _ _ _ _ _ _ _ Hreq Hroomj Happ Hm1) as (m' & Hm' & Hcase).
    exists s', m'. split_and!; [|done|..].
    + replace (S j) with (j + 1)%nat by lia. rewrite (store_states_drop _ _ _ _ Hsj).
      rewrite (drop_S log request j Hlog). simpl. rewrite Happ. apply store_states_head.
    + destruct Hcase as [[-> Hn]|(_ & -> & _)]; [|done]. by rewrite Hn.
    + destruct Hcase as [[-> Hn]|(_ & -> & ->)]; [rewrite Hn by done; simpl; lia|done].
Qed.

(** ** Transactions of a cache *)

Section transactions.
Context {W T M D : Type} `{HM : !TabletMetadataCache W M, HD : !TabletDataCache D T,
  HO : !HashOrder Z, HL : !DataCacheLaws D T}.

(** The operation of a tablet that a transaction has finished with. *)
Lemma get_tablet_op_accesses key (ts : TabletState T) m :
  final key ts → metadata_u32 m → create_tablet_key m = key →
  op_accesses (get_tablet_op ts) (tq_table_name (ts_query ts)) (tm_tablet_id m)
    (tm_tablet_version m).
Proof using.
  intros (base & Hk & Hu & Hts) Hm Hkey. subst key.
  destruct (create_tablet_key_parts base Hu) as [H1 H2], (create_tablet_key_parts m Hm) as [H3 H4].
  rewrite Hkey in H3, H4. split; [done|]. simpl.
  destruct (tb_is_dirty (ts_tablet ts)); [destruct Hts; split; congruence|].
  rewrite Hts. split; congruence.
Qed.

Lemma written_of_update ops op name id u :
  op ∈ ops → op_written name id op = Some u → is_Some (ops_written ops name id).
Proof using.
  intros Hin Hw. unfold ops_written. apply last_is_Some. intros Hnil.
  assert (u ∈ omap (op_written name id) ops) as Hu by (apply list_elem_of_omap; by exists op).
  rewrite Hnil in Hu. by apply not_elem_of_nil in Hu.
Qed.

(** C16: The transactions of the tablet caches are serializable.  Take a transaction that can
    be committed after any calls on a coordinator, and any log of the tablet store with the
    requests of any clients, whose tablets have versions with room for them.  When the request
    of the transaction is in the log and succeeds, every tablet that the transaction worked on
    at the version it had in an earlier state of the store is still the same at the place of
    the request: no request between committed a write to it.  After the request the tablet is
    what the request wrote, one version later, or the same when it was only checked. *)
Theorem transactions_serializable n d0 c d id s c' tables log :
  dcl_ok d0 → rtc (coordinator_step (M:=M)) (coordinator_create n, d0) (c, d) →
  co_transactions c !! id = Some (TransactionPreparing s) → commit_transaction c id = Return c' →
  Forall (λ r, Forall op_supported (tr_tablet_ops r)) log →
  versions_room tables (length log) →
  ∃ ops,
    co_out_messages c'
      = co_out_messages c ++ [CoordinatorOpsRequest (co_correlation_counter c +₆₄ 1) ops] ∧
    ∀ j sj,
      log !! j = Some {| tr_tablet_ops := ops |} → store_states tables log !! j = Some sj →
      request_commits sj {| tr_tablet_ops := ops |} = true →
      ∀ key ts k sk m,
        transaction_tablet s key ts → (k ≤ j)%nat → store_states tables log !! k = Some sk →
        tablet_of sk (tq_table_name (ts_query ts)) (tm_tablet_id m) = Some m →
        metadata_u32 m → create_tablet_key m = key →
        let name := tq_table_name (ts_query ts) in
        tablet_of sj name (tm_tablet_id m) = Some m ∧
        (∀ i r si, (k ≤ i < j)%nat → log !! i = Some r →
           store_states tables log !! i = Some si → request_commits si r = true →
           request_written r name (tm_tablet_id m) = None) ∧
        ∃ s' m', store_states tables log !! S j = Some s' ∧
          tablet_of s' name (tm_tablet_id m) = Some m' ∧
          m' = default m (ops_written ops name (tm_tablet_id m)) ∧
          (tb_is_dirty (ts_tablet ts) = true → tm_tablet_version m' = tm_tablet_version m + 1).
Proof using.
  intros Hd0 Hreach Hs Hcommit Hsup Hroom.
  destruct (coordinator_steps_inv _ _ Hreach (coordinator_create_inv n d0 Hd0)) as (_ & Hc & _).
  specialize (Hc _ _ Hs). simpl in Hc.
  destruct (commit_transaction_inv c id s c' Hs Hcommit) as (Hact & _ & _ & Hout).
  eexists. split; [exact Hout|]. intros j sj Hlog Hsj Hcj key ts k sk m Hts Hk Hsk Hm Hu Hkey name.
  pose proof (inactive_final d s key ts Hc Hact Hts) as Hfinal.
  assert (get_tablet_op ts ∈ pts_process_requests s ≫= process_ops) as Hin.
  { apply transaction_ops_elem. by exists key, ts. }
  pose proof (get_tablet_op_accesses key ts m Hfinal Hu Hkey) as Hacc.
  destruct (request_serializable tables log k j sk sj _ _ name (tm_tablet_id m) m Hsup Hroom Hlog
    Hin Hk Hsk Hsj Hm Hacc Hcj) as (H1 & H2 & s' & m' & H3 & H4 & H5 & H6).
  split_and!; [done..|]. exists s', m'. split_and!; [done..|]. intros Hdirty. rewrite H6. simpl.
  destruct (written_of_update (pts_process_requests s ≫= process_ops) (get_tablet_op ts) name
    (tm_tablet_id m) (tb_metadata (ts_tablet ts)) Hin) as [u ->]; [|done].
  destruct Hacc as [Hn Hacc]. unfold op_written, get_tablet_op in *. simpl in *.
  rewrite Hdirty in *. destruct Hacc as [Hid _]. by rewrite decide_True.
Qed.
End transactions.

(** ** A concrete log *)

#[local] Existing Instances coordinator_order_Z coordinator_order_string coordinator_order_pair.
#[local] Existing Instances coordinator_sample_data coordinator_sample_laws.

(** The request of the sample's transaction, twice. *)
Definition sample_commit_log : list TabletsRequest :=
  match co_out_messages sample_committed with
  | [CoordinatorOpsRequest _ ops] => [ {| tr_tablet_ops := ops |}; {| tr_tablet_ops := ops |} ]
  | _ => []
  end.

Lemma sample_dirty_tablet :
  ∃ ts, transaction_tablet sample_preparing (10 * two32 + 3) ts ∧
    tq_table_name (ts_query ts) = "A" ∧ tb_is_dirty (ts_tablet ts) = true.
Proof.
  assert (match head (pts_process_requests sample_preparing)
                ≫= λ p, ps_tablets p !! (10 * two32 + 3) with
          | Some ts => tq_table_name (ts_query ts) = "A" ∧ tb_is_dirty (ts_tablet ts) = true
          | None => False
          end) as Hts by by vm_compute.
  destruct (pts_process_requests sample_preparing) as [|p l] eqn:Ep; [destruct Hts|].
  cbn [head mbind option_bind] in Hts.
  destruct (ps_tablets p !! (10 * two32 + 3)) as [ts|] eqn:Ets; [|destruct Hts].
  exists ts. split; [|exact Hts]. exists p. split; [|exact Ets]. rewrite Ep. left.
Qed.

(** The transaction writes tablet 10, which it resolved at version 3; its request is the first
    of the log. *)
Lemma transactions_serializable_witness :
  ∃ s' m', store_states sample_tables sample_commit_log !! 1%nat = Some s' ∧
    tablet_of s' "A" 10 = Some m' ∧ tm_tablet_version m' = 4.
Proof.
  destruct (transactions_serializable (M:=DefaultTabletMetadataCache unit) 0
    (data_cache_create 0 ()) (sample_parts 8).1.1 (sample_parts 8).2 2 sample_preparing
    sample_committed sample_tables sample_commit_log) as (ops & Hm & Hser).
  - apply no_cells_ok.
  - apply sample_parts_reached.
  - by vm_compute.
  - by vm_compute.
  - vm_compute. repeat constructor.
  - intros name id m Hm. unfold tablet_of, sample_tables in Hm.
    apply bind_Some in Hm as (table & [_ <-]%lookup_singleton_Some & Hm). simpl in Hm.
    apply lookup_singleton_Some in Hm as [_ <-]. by vm_compute.
  - assert (sample_commit_log !! 0%nat = Some {| tr_tablet_ops := ops |}) as Hlog.
    { assert (co_out_messages (sample_parts 8).1.1 = []) as E by (vm_compute; reflexivity).
      rewrite E in Hm. unfold sample_commit_log. rewrite Hm. reflexivity. }
    assert (request_commits sample_tables {| tr_tablet_ops := ops |} = true) as Hc.
    { assert (request_commits sample_tables <$> sample_commit_log !! 0%nat = Some true) as Hc
        by (vm_compute; reflexivity).
      rewrite Hlog in Hc. injection Hc as Hc. exact Hc. }
    destruct sample_dirty_tablet as (ts & Hts & Hname & Hdirty).
    destruct (Hser 0%nat sample_tables Hlog eq_refl) with (key := 10 * two32 + 3) (ts := ts)
      (k := 0%nat) (sk := sample_tables) (m := sample_stored 10 3)
      as (_ & _ & s' & m' & Hs' & Hm' & _ & Hv); [..|exists s', m'].
    + exact Hc.
    + exact Hts.
    + apply le_n.
    + reflexivity.
    + rewrite Hname. vm_compute. reflexivity.
    + vm_compute. repeat split; discriminate.
    + vm_compute. reflexivity.
    + rewrite Hname in Hm'. split_and!; [exact Hs'|exact Hm'|]. exact (Hv Hdirty).
Defined.
