(* ===== verification/Manager.v ===== *)
(** * The transaction manager

    [src/apps/tablet_cache/service/src/transaction/manager.rs]: routes messages between
    the transaction coordinator and the two caches, and remembers for every request to
    the tablet store the answer to give when the request fails on the way.  The shared
    cell of the manager is never entered again while it is borrowed, as handlers only
    touch the state of their owner; the core is therefore passed as a value. *)

From S2P Require Import Prelude TabletStore CacheTypes MetadataCache DataCache Coordinator.

(** ** The interface of the coordinator

    The trait [TabletTransactionCoordinator]. *)
Class TabletTransactionCoordinator (W T M D C : Type) : Type := {
  cdi_init : C → C;
  cdi_make_progress : C → Z → M → D → W → outcome (C * M * D * W);
  cdi_process_in_message :
    C → M → TabletTransactionCoordinatorInMessage → outcome (C * M);
  cdi_take_out_messages : C → C * list TabletTransactionCoordinatorOutMessage;
  cdi_create_transaction : C → C * Z;
  cdi_process_transaction : C → Z → list TableQuery → ProcessHandler W T → outcome C;
  cdi_has_transaction_pending_process : C → Z → outcome bool;
  cdi_commit_transaction : C → Z → outcome C;
  cdi_abort_transaction : C → Z → C;
  cdi_check_transaction_result : C → Z → outcome (C * option TabletTransactionOutcome)
}.

#[global] Instance DefaultTabletTransactionCoordinator_instance {W T M D : Type}
    `{!TabletMetadataCache W M, !TabletDataCache D T, !HashOrder Z} :
    TabletTransactionCoordinator W T M D (DefaultTabletTransactionCoordinator W T) :=
  {| cdi_init := coordinator_init;
     cdi_make_progress c _ := coordinator_make_progress c;
     cdi_process_in_message := coordinator_process_in_message;
     cdi_take_out_messages := coordinator_take_out_messages;
     cdi_create_transaction := create_transaction;
     cdi_process_transaction := process_transaction;
     cdi_has_transaction_pending_process := has_transaction_pending_process;
     cdi_commit_transaction := commit_transaction;
     cdi_abort_transaction := abort_transaction;
     cdi_check_transaction_result := check_transaction_result |}.

(** ** Requests to the tablet store *)

(** Its status is the number of [TabletsRequestStatus::Failed], which as the status of an
    operation is [Failed] too. *)
Definition create_failed_op_result (tablet_op : TabletOp) : TabletOpResult :=
  {| tor_table_name := to_table_name tablet_op;
     tor_status := TabletOpFailed;
     tor_op_result :=
       match to_op tablet_op with
       | Some (ListTablet key_hash_from key_hash_to) =>
           Some (ListTabletResult key_hash_from key_hash_to [])
       | Some (CheckTablet _ _) => Some (CheckTabletResult None)
       | Some (UpdateTablet _) => Some (UpdateTabletResult None)
       | Some (AddTablet _) => Some (AddTabletResult None)
       | Some (RemoveTablet _ _) => Some (RemoveTabletResult None)
       | None => None
       end |}.

(** The answer to a request that fails on the way. *)
Definition create_tablets_error (ops : list TabletOp) : TabletsResponse :=
  {| trs_status := TabletsFailed; trs_tablet_results := create_failed_op_result <$> ops |}.

Definition is_list_result (r : TabletOpResult) : bool :=
  match tor_op_result r with Some (ListTabletResult _ _ _) => true | _ => false end.

Definition is_execute_result (r : TabletOpResult) : bool :=
  match tor_op_result r with
  | Some (ListTabletResult _ _ _) | None => false
  | Some _ => true
  end.

(** ** The core *)

Section manager.
Context {W T M D C : Type} `{HM : !TabletMetadataCache W M, HD : !TabletDataCache D T,
  HC : !TabletTransactionCoordinator W T M D C}.

Record TabletTransactionManagerCore := {
  mg_transaction_coordinator : C;
  mg_metadata_cache : M;
  mg_data_cache : D;
  mg_tablets_errors : gmap Z TabletsResponse
}.

Definition manager_create (transaction_coordinator : C) (metadata_cache : M) (data_cache : D)
    : TabletTransactionManagerCore :=
  {| mg_transaction_coordinator := transaction_coordinator; mg_metadata_cache := metadata_cache;
     mg_data_cache := data_cache; mg_tablets_errors := ∅ |}.

Definition mg_with (x : TabletTransactionManagerCore) (c : C) (m : M) (d : D)
    : TabletTransactionManagerCore :=
  {| mg_transaction_coordinator := c; mg_metadata_cache := m; mg_data_cache := d;
     mg_tablets_errors := mg_tablets_errors x |}.

Definition mg_with_coordinator (x : TabletTransactionManagerCore) (c : C)
    : TabletTransactionManagerCore :=
  mg_with x c (mg_metadata_cache x) (mg_data_cache x).

Definition mg_with_errors (x : TabletTransactionManagerCore) (errors : gmap Z TabletsResponse)
    : TabletTransactionManagerCore :=
  {| mg_transaction_coordinator := mg_transaction_coordinator x;
     mg_metadata_cache := mg_metadata_cache x; mg_data_cache := mg_data_cache x;
     mg_tablets_errors := errors |}.

Definition manager_init (x : TabletTransactionManagerCore) (config : TransactionManagerConfig)
    : outcome TabletTransactionManagerCore :=
  data_cache_config ← unwrap (tmc_data_cache_config config);
  d ← dci_init (mg_data_cache x) data_cache_config;
  metadata_cache_config ← unwrap (tmc_metadata_cache_config config);
  m ← mci_init (W:=W) (mg_metadata_cache x) metadata_cache_config;
  Return (mg_with x (cdi_init (T:=T) (D:=D) (mg_transaction_coordinator x)) m d).

Definition manager_make_progress (x : TabletTransactionManagerCore) (instant : Z) (w : W)
    : outcome (TabletTransactionManagerCore * W) :=
  m ← mci_make_progress (W:=W) (mg_metadata_cache x) instant;
  d ← dci_make_progress (mg_data_cache x) instant;
  '(c, m, d, w) ← cdi_make_progress (mg_transaction_coordinator x) instant m d w;
  Return (mg_with x c m d, w).

Definition manager_resolve (x : TabletTransactionManagerCore) (w : W) (queries : list TableQuery)
    (handler : ResolveHandler W) : outcome (TabletTransactionManagerCore * W) :=
  '(m, w) ← mci_resolve_tablets_with_handler (mg_metadata_cache x) w queries handler;
  Return (mg_with x (mg_transaction_coordinator x) m (mg_data_cache x), w).

Definition manager_process_transaction (x : TabletTransactionManagerCore) (transaction_id : Z)
    (queries : list TableQuery) (handler : ProcessHandler W T)
    : outcome TabletTransactionManagerCore :=
  c ← cdi_process_transaction (M:=M) (D:=D) (mg_transaction_coordinator x) transaction_id queries
        handler;
  Return (mg_with_coordinator x c).

Definition manager_create_transaction (x : TabletTransactionManagerCore)
    : TabletTransactionManagerCore * Z :=
  let '(c, transaction_id) :=
    cdi_create_transaction (T:=T) (D:=D) (mg_transaction_coordinator x) in
  (mg_with_coordinator x c, transaction_id).

Definition manager_has_transaction_pending_process (x : TabletTransactionManagerCore)
    (transaction_id : Z) : outcome bool :=
  cdi_has_transaction_pending_process (T:=T) (D:=D) (mg_transaction_coordinator x) transaction_id.

Definition manager_commit_transaction (x : TabletTransactionManagerCore) (transaction_id : Z)
    : outcome TabletTransactionManagerCore :=
  c ← cdi_commit_transaction (T:=T) (D:=D) (mg_transaction_coordinator x) transaction_id;
  Return (mg_with_coordinator x c).

Definition manager_abort_transaction (x : TabletTransactionManagerCore) (transaction_id : Z)
    : TabletTransactionManagerCore :=
  mg_with_coordinator x
    (cdi_abort_transaction (T:=T) (D:=D) (mg_transaction_coordinator x) transaction_id).

Definition manager_check_transaction_result (x : TabletTransactionManagerCore)
    (transaction_id : Z)
    : outcome (TabletTransactionManagerCore * option TabletTransactionOutcome) :=
  '(c, o) ← cdi_check_transaction_result (T:=T) (D:=D) (mg_transaction_coordinator x) transaction_id;
  Return (mg_with_coordinator x c, o).

(** Results of listings go to the metadata cache, the others to the coordinator. *)
Definition process_in_tablets_op_response (x : TabletTransactionManagerCore) (w : W)
    (correlation_id : Z) (tablets_response : TabletsResponse)
    : outcome (TabletTransactionManagerCore * W) :=
  let list_op_results := filter is_list_result (trs_tablet_results tablets_response) in
  let execute_op_results := filter is_execute_result (trs_tablet_results tablets_response) in
  '(m, w) ←
    match list_op_results with
    | [] => Return (mg_metadata_cache x, w)
    | _ => mci_process_in_message (mg_metadata_cache x) w (ListResponse correlation_id list_op_results)
    end;
  '(c, m) ←
    match execute_op_results with
    | [] => Return (mg_transaction_coordinator x, m)
    | _ => cdi_process_in_message (T:=T) (D:=D) (mg_transaction_coordinator x) m
             (CoordinatorOpsResponse correlation_id execute_op_results)
    end;
  Return (mg_with x c m (mg_data_cache x), w).

Definition manager_process_in_message (x : TabletTransactionManagerCore) (w : W)
    (message : TransactionInMessage) : outcome (TabletTransactionManagerCore * W) :=
  match message with
  | InLoadTabletResponse correlation_id response tablet_data =>
      d ← dci_process_in_message (mg_data_cache x)
            (LoadResponse correlation_id response tablet_data);
      Return (mg_with x (mg_transaction_coordinator x) (mg_metadata_cache x) d, w)
  | InStoreTabletResponse correlation_id response =>
      d ← dci_process_in_message (mg_data_cache x) (StoreResponse correlation_id response);
      Return (mg_with x (mg_transaction_coordinator x) (mg_metadata_cache x) d, w)
  | InExecuteTabletOpsResponse correlation_id tablets_response =>
      let x := mg_with_errors x (delete correlation_id (mg_tablets_errors x)) in
      process_in_tablets_op_response x w correlation_id tablets_response
  | InExecuteTabletOpsError correlation_id _ =>
      match mg_tablets_errors x !! correlation_id with
      | Some tablets_error =>
          let x := mg_with_errors x (delete correlation_id (mg_tablets_errors x)) in
          process_in_tablets_op_response x w correlation_id tablets_error
      | None => Return (x, w)
      end
  end.

(** The assertion that a correlation id is used once, for one request. *)
Definition stash_tablets_request
    (st : gmap Z TabletsResponse * list TransactionOutMessage) (request : Z * list TabletOp)
    : outcome (gmap Z TabletsResponse * list TransactionOutMessage) :=
  let '(tablets_errors, out_messages) := st in
  let '(correlation_id, ops) := request in
  match tablets_errors !! correlation_id with
  | Some _ => Panic
  | None =>
      Return (<[correlation_id := create_tablets_error ops]> tablets_errors,
              out_messages ++ [OutExecuteTabletOpsRequest correlation_id
                {| etq_recipient_node_id := 0 |} {| tr_tablet_ops := ops |}])
  end.

Definition coordinator_request (message : TabletTransactionCoordinatorOutMessage)
    : Z * list TabletOp :=
  match message with CoordinatorOpsRequest correlation_id ops => (correlation_id, ops) end.

Definition metadata_request (message : TabletMetadataCacheOutMessage) : Z * list TabletOp :=
  match message with ListRequest correlation_id ops => (correlation_id, ops) end.

Definition data_request (message : TabletDataCacheOutMessage) : TransactionOutMessage :=
  match message with
  | LoadRequest correlation_id request => OutLoadTabletRequest correlation_id request
  | StoreRequest correlation_id request tablet_data =>
      OutStoreTabletRequest correlation_id request tablet_data
  end.

Definition manager_take_out_messages (x : TabletTransactionManagerCore)
    : outcome (TabletTransactionManagerCore * list TransactionOutMessage) :=
  let '(c, transaction_out_messages) :=
    cdi_take_out_messages (T:=T) (D:=D) (mg_transaction_coordinator x) in
  st ← ofold stash_tablets_request (mg_tablets_errors x, [])
         (coordinator_request <$> transaction_out_messages);
  let '(m, metadata_out_messages) := mci_take_out_messages (W:=W) (mg_metadata_cache x) in
  '(tablets_errors, out_messages) ←
    ofold stash_tablets_request st (metadata_request <$> metadata_out_messages);
  let '(d, data_out_messages) := dci_take_out_messages (mg_data_cache x) in
  Return (mg_with_errors (mg_with x c m d) tablets_errors,
          out_messages ++ (data_request <$> data_out_messages)).

(** ** Transactions *)

Record DefaultTabletTransaction := {
  dtt_transaction_id : Z;
  dtt_transaction_outcome : option TabletTransactionOutcome
}.

Definition transaction_handle_create (transaction_id : Z) : DefaultTabletTransaction :=
  {| dtt_transaction_id := transaction_id; dtt_transaction_outcome := None |}.

Definition start_transaction (x : TabletTransactionManagerCore)
    : TabletTransactionManagerCore * DefaultTabletTransaction :=
  let '(x, transaction_id) := manager_create_transaction x in
  (x, transaction_handle_create transaction_id).

Definition transaction_process (x : TabletTransactionManagerCore) (t : DefaultTabletTransaction)
    (queries : list TableQuery) (handler : ProcessHandler W T)
    : outcome TabletTransactionManagerCore :=
  manager_process_transaction x (dtt_transaction_id t) queries handler.

Definition transaction_has_pending_process (x : TabletTransactionManagerCore)
    (t : DefaultTabletTransaction) : outcome bool :=
  manager_has_transaction_pending_process x (dtt_transaction_id t).

Definition transaction_commit (x : TabletTransactionManagerCore) (t : DefaultTabletTransaction)
    : outcome (TabletTransactionManagerCore * DefaultTabletTransaction) :=
  x ← manager_commit_transaction x (dtt_transaction_id t);
  Return (x, t).

Definition transaction_abort (x : TabletTransactionManagerCore) (t : DefaultTabletTransaction)
    : TabletTransactionManagerCore :=
  manager_abort_transaction x (dtt_transaction_id t).

Definition transaction_check_result (x : TabletTransactionManagerCore)
    (t : DefaultTabletTransaction)
    : outcome (TabletTransactionManagerCore * DefaultTabletTransaction
               * option TabletTransactionOutcome) :=
  match dtt_transaction_outcome t with
  | Some o => Return (x, t, Some o)
  | None =>
      '(x, o) ← manager_check_transaction_result x (dtt_transaction_id t);
      Return (x, {| dtt_transaction_id := dtt_transaction_id t; dtt_transaction_outcome := o |}, o)
  end.
End manager.
Arguments TabletTransactionManagerCore : clear implicits.

(** ** The interfaces

    The traits [TabletTransactionContext] with [TabletTransaction] and
    [TabletTransactionCommit], and [TabletTransactionManager].  [X] is the manager, [Tx] a
    transaction and [Tc] one that is being committed. *)
Class TabletTransactionContext (W T X Tx Tc : Type) : Type := {
  tci_resolve : X → W → list TableQuery → ResolveHandler W → outcome (X * W);
  tci_start_transaction : X → outcome (X * Tx);
  txi_get_id : Tx → Z;
  txi_process : X → Tx → list TableQuery → ProcessHandler W T → outcome (X * Tx);
  txi_has_pending_process : X → Tx → outcome bool;
  txi_commit : X → Tx → outcome (X * Tc);
  txi_abort : X → Tx → outcome X;
  txi_check_result : X → Tc → outcome (X * Tc * option TabletTransactionOutcome)
}.

Class TabletTransactionManager (W X : Type) : Type := {
  tmi_init : X → TransactionManagerConfig → outcome X;
  tmi_make_progress : X → Z → W → outcome (X * W);
  tmi_process_in_message : X → W → TransactionInMessage → outcome (X * W);
  tmi_take_out_messages : X → outcome (X * list TransactionOutMessage)
}.

Section instances.
Context {W T M D C : Type} `{HM : !TabletMetadataCache W M, HD : !TabletDataCache D T,
  HC : !TabletTransactionCoordinator W T M D C}.

#[global] Instance DefaultTabletTransactionManager_context :
    TabletTransactionContext W T (TabletTransactionManagerCore M D C) DefaultTabletTransaction
      DefaultTabletTransaction :=
  {| tci_resolve := manager_resolve;
     tci_start_transaction x := Return (start_transaction x);
     txi_get_id := dtt_transaction_id;
     txi_process x t queries handler := x ← transaction_process x t queries handler; Return (x, t);
     txi_has_pending_process := transaction_has_pending_process;
     txi_commit := transaction_commit;
     txi_abort x t := Return (transaction_abort x t);
     txi_check_result := transaction_check_result |}.

Definition DefaultTabletTransactionManager :
    TabletTransactionManager W (TabletTransactionManagerCore M D C) :=
  {| tmi_init := manager_init;
     tmi_make_progress := manager_make_progress;
     tmi_process_in_message := manager_process_in_message;
     tmi_take_out_messages := manager_take_out_messages |}.
End instances.
