(* ===== verification/KvStore.v ===== *)
(** * The key-value store

    [src/apps/tablet_cache/service/src/store.rs]: put and get requests are batched, mapped
    to tablets and executed in transactions; their responses are released when the
    transaction is committed.  The core is shared with the handlers that the store gives
    to the transaction manager: it is the world of those handlers, with the flag of its
    [RefCell]. *)

From S2P Require Import Prelude TabletStore CacheTypes Manager.

(** ** Requests *)

Record PutKeyRequest := { pkq_key : string; pkq_value : bytes }.

Record GetKeyRequest := { gkq_key : string }.

Record PutKeyResponse := { pkr_existed : bool }.

Record GetKeyResponse := { gkr_existed : bool; gkr_value : bytes }.

Inductive KeyValueRequest :=
| PutRequest (correlation_id : Z) (request : PutKeyRequest)
| GetRequest (correlation_id : Z) (request : GetKeyRequest).

Inductive KeyValueResponse :=
| PutResponse (correlation_id : Z) (response : PutKeyResponse)
| GetResponse (correlation_id : Z) (response : GetKeyResponse).

Record TabletContents := { tcn_dictionary : gmap string bytes }.

Section store.
Context {Tx Tc : Type} `{HZ : !HashOrder Z, HCodec : !ProtoCodec TabletContents}.

(** The hash of a key by [AHasher], as a [u32]. *)
Variable hash_key : string → Z.

(** ** Queries *)

Record TableAccessor := { ta_table_name : string; ta_query_counter : Z }.

Definition table_accessor_create (table_name : string) : TableAccessor :=
  {| ta_table_name := table_name; ta_query_counter := 0 |}.

Definition get_next_id (a : TableAccessor) : TableAccessor * Z :=
  let query_counter := ta_query_counter a +₆₄ 1 in
  ({| ta_table_name := ta_table_name a; ta_query_counter := query_counter |}, query_counter).

Definition request_key (request : KeyValueRequest) : string :=
  match request with
  | PutRequest _ put_request => pkq_key put_request
  | GetRequest _ get_request => gkq_key get_request
  end.

Definition create_table_query (a : TableAccessor) (requests : list KeyValueRequest)
    : TableAccessor * TableQuery :=
  let hashes := (λ request, hash_key (request_key request)) <$> requests in
  let '(a, id) := get_next_id a in
  (a, table_query_create id (ta_table_name a) hashes).

(** ** Requests that are not associated with a tablet yet *)

Record RequestTracker := {
  rt_min_pending : Z;
  rt_pending_requests : list KeyValueRequest;
  rt_waiting_resolution_requests : gmap Z (list KeyValueRequest)
}.

Definition request_tracker_create (min_pending : Z) : RequestTracker :=
  {| rt_min_pending := min_pending; rt_pending_requests := [];
     rt_waiting_resolution_requests := ∅ |}.

Definition append_pending_request (t : RequestTracker) (request : KeyValueRequest)
    : RequestTracker :=
  {| rt_min_pending := rt_min_pending t;
     rt_pending_requests := rt_pending_requests t ++ [request];
     rt_waiting_resolution_requests := rt_waiting_resolution_requests t |}.

Definition collect_resolve_queries (t : RequestTracker) (a : TableAccessor)
    : RequestTracker * TableAccessor * list TableQuery :=
  if decide (rt_min_pending t ≤ zlen (rt_pending_requests t)) then
    let '(a, query) := create_table_query a (rt_pending_requests t) in
    ({| rt_min_pending := rt_min_pending t; rt_pending_requests := [];
        rt_waiting_resolution_requests :=
          <[tq_query_id query := rt_pending_requests t]> (rt_waiting_resolution_requests t) |},
     a, [query])
  else (t, a, []).

Definition take_resolved_requests (t : RequestTracker) (table_query_id : Z)
    : RequestTracker * list KeyValueRequest :=
  ({| rt_min_pending := rt_min_pending t; rt_pending_requests := rt_pending_requests t;
      rt_waiting_resolution_requests :=
        delete table_query_id (rt_waiting_resolution_requests t) |},
   default [] (rt_waiting_resolution_requests t !! table_query_id)).

(** ** Requests of a tablet *)

Record TabletTracker := {
  tt_min_pending : Z;
  tt_has_transaction : bool;
  tt_pending_requests : list KeyValueRequest;
  tt_waiting_processing_requests : gmap Z (list KeyValueRequest)
}.

Definition tablet_tracker_create (min_pending : Z) : TabletTracker :=
  {| tt_min_pending := min_pending; tt_has_transaction := false; tt_pending_requests := [];
     tt_waiting_processing_requests := ∅ |}.

Definition append_pending_requests (t : TabletTracker) (requests : list KeyValueRequest)
    : TabletTracker :=
  {| tt_min_pending := tt_min_pending t; tt_has_transaction := tt_has_transaction t;
     tt_pending_requests := tt_pending_requests t ++ requests;
     tt_waiting_processing_requests := tt_waiting_processing_requests t |}.

(** The query that was pushed, if any. *)
Definition collect_process_queries (t : TabletTracker) (a : TableAccessor)
    : TabletTracker * TableAccessor * option TableQuery :=
  if decide (tt_min_pending t ≤ zlen (tt_pending_requests t)) then
    if tt_has_transaction t then (t, a, None)
    else
      let '(a, query) := create_table_query a (tt_pending_requests t) in
      ({| tt_min_pending := tt_min_pending t; tt_has_transaction := true;
          tt_pending_requests := [];
          tt_waiting_processing_requests :=
            <[tq_query_id query := tt_pending_requests t]> (tt_waiting_processing_requests t) |},
       a, Some query)
  else (t, a, None).

Definition process_put_request (correlation_id : Z) (put_request : PutKeyRequest)
    (table_query : TableQuery) (contents : TabletContents)
    : TabletContents * option KeyValueResponse :=
  let key_hash := hash_key (pkq_key put_request) in
  if decide (key_hash ∈ tq_key_hashes table_query) then
    let existing_value := tcn_dictionary contents !! pkq_key put_request in
    ({| tcn_dictionary := <[pkq_key put_request := pkq_value put_request]> (tcn_dictionary contents) |},
     Some (PutResponse correlation_id
       {| pkr_existed := match existing_value with Some _ => true | None => false end |}))
  else (contents, None).

Definition process_get_request (correlation_id : Z) (get_request : GetKeyRequest)
    (table_query : TableQuery) (contents : TabletContents) : option KeyValueResponse :=
  let key_hash := hash_key (gkq_key get_request) in
  if decide (key_hash ∈ tq_key_hashes table_query) then
    let existing_value := tcn_dictionary contents !! gkq_key get_request in
    Some (GetResponse correlation_id
      {| gkr_existed := match existing_value with Some _ => true | None => false end;
         gkr_value := default [] existing_value |})
  else None.

(** The contents, whether they were updated, the results and the requests that were put
    back. *)
Record ProcessState := {
  pr_contents : TabletContents;
  pr_tablet_updated : bool;
  pr_results : list (KeyValueRequest * KeyValueResponse);
  pr_requests : list KeyValueRequest
}.

Definition process_one_request (table_query : TableQuery) (s : ProcessState)
    (request : KeyValueRequest) : ProcessState :=
  let '(contents, update, response) :=
    match request with
    | PutRequest correlation_id put_request =>
        let '(contents, response) :=
          process_put_request correlation_id put_request table_query (pr_contents s) in
        (contents, true, response)
    | GetRequest correlation_id get_request =>
        (pr_contents s, false,
         process_get_request correlation_id get_request table_query (pr_contents s))
    end in
  match response with
  | Some response =>
      {| pr_contents := contents; pr_tablet_updated := pr_tablet_updated s || update;
         pr_results := pr_results s ++ [(request, response)]; pr_requests := pr_requests s |}
  | None =>
      {| pr_contents := contents; pr_tablet_updated := pr_tablet_updated s;
         pr_results := pr_results s; pr_requests := pr_requests s ++ [request] |}
  end.

Definition process_table_query (t : TabletTracker) (table_query : TableQuery)
    (tablet : Tablet bytes)
    : outcome (TabletTracker * Tablet bytes * list (KeyValueRequest * KeyValueResponse)) :=
  contents ← tablet_get_contents tablet;
  tablet_contents ← unwrap (proto_decode contents);
  match tt_waiting_processing_requests t !! tq_query_id table_query with
  | Some tablet_requests =>
      let s := foldl (process_one_request table_query)
        {| pr_contents := tablet_contents; pr_tablet_updated := false; pr_results := [];
           pr_requests := [] |} tablet_requests in
      Return ({| tt_min_pending := tt_min_pending t; tt_has_transaction := tt_has_transaction t;
                 tt_pending_requests := tt_pending_requests t;
                 tt_waiting_processing_requests :=
                   <[tq_query_id table_query := pr_requests s]> (tt_waiting_processing_requests t) |},
              if pr_tablet_updated s then tablet_set_contents (proto_encode (pr_contents s)) tablet
              else tablet,
              pr_results s)
  | None => Return (t, tablet, [])
  end.

Definition complete_transaction (t : TabletTracker) : TabletTracker :=
  {| tt_min_pending := tt_min_pending t; tt_has_transaction := false;
     tt_pending_requests := tt_pending_requests t;
     tt_waiting_processing_requests := tt_waiting_processing_requests t |}.

(** ** Requests of a transaction *)

Record TransactionTracker := {
  xt_tablet_ids : list Z;
  xt_requests : list KeyValueRequest;
  xt_responses : list KeyValueResponse;
  xt_transaction : option Tx;
  xt_waiting_commit : option Tc
}.

Definition transaction_tracker_create (tablet_ids : list Z) (transaction : Tx)
    : TransactionTracker :=
  {| xt_tablet_ids := tablet_ids; xt_requests := []; xt_responses := [];
     xt_transaction := Some transaction; xt_waiting_commit := None |}.

Definition append_process_results (t : TransactionTracker)
    (results : list (KeyValueRequest * KeyValueResponse)) : TransactionTracker :=
  {| xt_tablet_ids := xt_tablet_ids t; xt_requests := xt_requests t ++ results.*1;
     xt_responses := xt_responses t ++ results.*2; xt_transaction := xt_transaction t;
     xt_waiting_commit := xt_waiting_commit t |}.

(** ** The core *)

Record SimpleKeyValueStoreCore := {
  kc_table_accessor : TableAccessor;
  kc_request_tracker : RequestTracker;
  kc_tablet_trackers : gmap Z TabletTracker;
  kc_transaction_trackers : gmap Z TransactionTracker;
  kc_responses : list KeyValueResponse;
  kc_config : StoreConfig
}.

Definition store_core_new : SimpleKeyValueStoreCore :=
  {| kc_table_accessor := table_accessor_create "";
     kc_request_tracker := request_tracker_create 0;
     kc_tablet_trackers := ∅; kc_transaction_trackers := ∅; kc_responses := [];
     kc_config := {| sc_table_name := ""; sc_min_pending_before_resolve := 0;
                     sc_min_pending_before_process := 0 |} |}.

(** The configuration itself is not kept. *)
Definition store_core_init (k : SimpleKeyValueStoreCore) (config : StoreConfig)
    : SimpleKeyValueStoreCore :=
  {| kc_table_accessor := table_accessor_create (sc_table_name config);
     kc_request_tracker := request_tracker_create (sc_min_pending_before_resolve config);
     kc_tablet_trackers := kc_tablet_trackers k;
     kc_transaction_trackers := kc_transaction_trackers k; kc_responses := kc_responses k;
     kc_config := kc_config k |}.

Definition kc_with (k : SimpleKeyValueStoreCore) (a : TableAccessor) (r : RequestTracker)
    (tablets : gmap Z TabletTracker) (transactions : gmap Z TransactionTracker)
    : SimpleKeyValueStoreCore :=
  {| kc_table_accessor := a; kc_request_tracker := r; kc_tablet_trackers := tablets;
     kc_transaction_trackers := transactions; kc_responses := kc_responses k;
     kc_config := kc_config k |}.

(** Requests are moved to the tablet of the first result of their query. *)
Definition associate_resolved (k : SimpleKeyValueStoreCore) (x : TableQuery * TabletDescriptor)
    : SimpleKeyValueStoreCore :=
  let '(table_query, tablet_descriptor) := x in
  let tablet_id := td_tablet_id tablet_descriptor in
  let tablet_tracker :=
    default (tablet_tracker_create (sc_min_pending_before_process (kc_config k)))
      (kc_tablet_trackers k !! tablet_id) in
  let '(request_tracker, requests) :=
    take_resolved_requests (kc_request_tracker k) (tq_query_id table_query) in
  kc_with k (kc_table_accessor k) request_tracker
    (<[tablet_id := append_pending_requests tablet_tracker requests]> (kc_tablet_trackers k))
    (kc_transaction_trackers k).

Definition handle_query_resolve (results : list (TableQuery * TabletDescriptor))
    (k : SimpleKeyValueStoreCore) : SimpleKeyValueStoreCore :=
  foldl associate_resolved k results.

(** The loop over the tablets of a transaction. *)
Fixpoint process_tablets (transaction_id : Z) (results : list (TableQuery * Tablet bytes))
    (k : SimpleKeyValueStoreCore) (transaction_tracker : TransactionTracker)
    : outcome (SimpleKeyValueStoreCore * TransactionTracker * list (Tablet bytes)) :=
  match results with
  | [] => Return (k, transaction_tracker, [])
  | (table_query, tablet) :: results =>
      '(k, transaction_tracker, tablet) ←
        match kc_tablet_trackers k !! tablet_get_id tablet with
        | Some tablet_tracker =>
            '(tablet_tracker, tablet', process_results) ←
              process_table_query tablet_tracker table_query tablet;
            Return (kc_with k (kc_table_accessor k) (kc_request_tracker k)
                      (<[tablet_get_id tablet := tablet_tracker]> (kc_tablet_trackers k))
                      (kc_transaction_trackers k),
                    append_process_results transaction_tracker process_results, tablet')
        | None => Return (k, transaction_tracker, tablet)
        end;
      '(k, transaction_tracker, tablets) ←
        process_tablets transaction_id results k transaction_tracker;
      Return (k, transaction_tracker, tablet :: tablets)
  end.

Definition handle_query_process (transaction_id : Z)
    (results : list (TableQuery * Tablet bytes)) (k : SimpleKeyValueStoreCore)
    : outcome (SimpleKeyValueStoreCore * list (Tablet bytes)) :=
  match kc_transaction_trackers k !! transaction_id with
  | Some transaction_tracker =>
      '(k, transaction_tracker, tablets) ←
        process_tablets transaction_id results k transaction_tracker;
      Return (kc_with k (kc_table_accessor k) (kc_request_tracker k) (kc_tablet_trackers k)
                (<[transaction_id := transaction_tracker]> (kc_transaction_trackers k)), tablets)
  | None => Return (k, results.*2)
  end.

Definition append_request (k : SimpleKeyValueStoreCore) (request : KeyValueRequest)
    : SimpleKeyValueStoreCore :=
  kc_with k (kc_table_accessor k) (append_pending_request (kc_request_tracker k) request)
    (kc_tablet_trackers k) (kc_transaction_trackers k).

Definition core_take_responses (k : SimpleKeyValueStoreCore)
    : SimpleKeyValueStoreCore * list KeyValueResponse :=
  ({| kc_table_accessor := kc_table_accessor k; kc_request_tracker := kc_request_tracker k;
      kc_tablet_trackers := kc_tablet_trackers k;
      kc_transaction_trackers := kc_transaction_trackers k; kc_responses := [];
      kc_config := kc_config k |}, kc_responses k).

(** ** The shared cell *)

(** [Rc<RefCell<SimpleKeyValueStoreCore>>] *)
Record StoreCell := { st_core : SimpleKeyValueStoreCore; st_borrowed : bool }.

Definition simple_store_create : StoreCell :=
  {| st_core := store_core_new; st_borrowed := false |}.

(** [borrow_mut] for the time of a call. *)
Definition with_borrow {A} (w : StoreCell)
    (f : SimpleKeyValueStoreCore → outcome (SimpleKeyValueStoreCore * A))
    : outcome (StoreCell * A) :=
  if st_borrowed w then Panic
  else
    '(k, a) ← f (st_core w);
    Return ({| st_core := k; st_borrowed := false |}, a).

(** The closures that [make_progress] hands out. *)
Definition resolve_handler : ResolveHandler StoreCell := λ results w,
  '(w, _) ← with_borrow w (λ k, Return (handle_query_resolve results k, ()));
  Return w.

Definition process_handler : ProcessHandler StoreCell bytes := λ transaction_id results w,
  with_borrow w (handle_query_process transaction_id results).

(** ** Progress, over the transaction context *)

Section progress.
Context {X : Type} `{HX : !TabletTransactionContext StoreCell bytes X Tx Tc}.

(** The handler may be called while the core is borrowed. *)
Definition maybe_resolve_tablets (k : SimpleKeyValueStoreCore) (x : X)
    : outcome (SimpleKeyValueStoreCore * X) :=
  let '(request_tracker, table_accessor, resolve_queries) :=
    collect_resolve_queries (kc_request_tracker k) (kc_table_accessor k) in
  let k := kc_with k table_accessor request_tracker (kc_tablet_trackers k)
             (kc_transaction_trackers k) in
  match resolve_queries with
  | [] => Return (k, x)
  | _ =>
      '(x, w) ← tci_resolve x {| st_core := k; st_borrowed := true |} resolve_queries
                  resolve_handler;
      Return (st_core w, x)
  end.

(** The loop over the tablets: trackers, accessor, queries and ids. *)
Definition collect_tablet
    (st : gmap Z TabletTracker * TableAccessor * list TableQuery * list Z)
    (x : Z * TabletTracker)
    : gmap Z TabletTracker * TableAccessor * list TableQuery * list Z :=
  let '(tablet_trackers, table_accessor, queries, tablet_ids) := st in
  let '(tablet_id, tablet_tracker) := x in
  let '(tablet_tracker, table_accessor, query) :=
    collect_process_queries tablet_tracker table_accessor in
  match query with
  | Some query =>
      (<[tablet_id := tablet_tracker]> tablet_trackers, table_accessor, queries ++ [query],
       tablet_ids ++ [tablet_id])
  | None => (tablet_trackers, table_accessor, queries, tablet_ids)
  end.

Definition maybe_start_transaction (k : SimpleKeyValueStoreCore) (x : X)
    : outcome (SimpleKeyValueStoreCore * X) :=
  let '(tablet_trackers, table_accessor, queries, tablet_ids) :=
    foldl collect_tablet (kc_tablet_trackers k, kc_table_accessor k, [], [])
      (hash_iter (kc_tablet_trackers k)) in
  let k := kc_with k table_accessor (kc_request_tracker k) tablet_trackers
             (kc_transaction_trackers k) in
  match queries with
  | [] => Return (k, x)
  | _ =>
      '(x, transaction) ← tci_start_transaction x;
      '(x, transaction) ← txi_process x transaction queries process_handler;
      Return (kc_with k table_accessor (kc_request_tracker k) tablet_trackers
                (<[txi_get_id transaction := transaction_tracker_create tablet_ids transaction]>
                   (kc_transaction_trackers k)), x)
  end.

Definition maybe_commit_transaction (t : TransactionTracker) (x : X)
    : outcome (TransactionTracker * X) :=
  match xt_waiting_commit t, xt_transaction t with
  | None, Some transaction =>
      pending ← txi_has_pending_process x transaction;
      if pending : bool then Return (t, x)
      else
        '(x, commit) ← txi_commit x transaction;
        Return ({| xt_tablet_ids := xt_tablet_ids t; xt_requests := xt_requests t;
                   xt_responses := xt_responses t; xt_transaction := None;
                   xt_waiting_commit := Some commit |}, x)
  | _, _ => Return (t, x)
  end.

Definition commit_one (st : gmap Z TransactionTracker * X) (y : Z * TransactionTracker)
    : outcome (gmap Z TransactionTracker * X) :=
  let '(transaction_trackers, x) := st in
  '(t, x) ← maybe_commit_transaction y.2 x;
  Return (<[y.1 := t]> transaction_trackers, x).

Definition maybe_commit_transactions (k : SimpleKeyValueStoreCore) (x : X)
    : outcome (SimpleKeyValueStoreCore * X) :=
  '(transaction_trackers, x) ←
    ofold commit_one (kc_transaction_trackers k, x) (hash_iter (kc_transaction_trackers k));
  Return (kc_with k (kc_table_accessor k) (kc_request_tracker k) (kc_tablet_trackers k)
            transaction_trackers, x).

(** The tablet ids, failed requests and responses that a completed transaction adds. *)
Record Finalized := {
  fz_affected_tablet_ids : list Z;
  fz_failed_requests : list KeyValueRequest;
  fz_responses : list KeyValueResponse
}.

Definition maybe_finalize_transaction (t : TransactionTracker) (f : Finalized) (x : X)
    : outcome (TransactionTracker * Finalized * X * bool) :=
  match xt_waiting_commit t with
  | Some commit =>
      '(x, commit, transaction_outcome) ← txi_check_result x commit;
      match transaction_outcome with
      | Some transaction_outcome =>
          let succeeded := bool_decide (transaction_outcome = TransactionSucceeded) in
          Return ({| xt_tablet_ids := [];
                     xt_requests := if succeeded then xt_requests t else [];
                     xt_responses := if succeeded then [] else xt_responses t;
                     xt_transaction := xt_transaction t; xt_waiting_commit := Some commit |},
                  {| fz_affected_tablet_ids := fz_affected_tablet_ids f ++ xt_tablet_ids t;
                     fz_failed_requests :=
                       fz_failed_requests f ++ if succeeded then [] else xt_requests t;
                     fz_responses := fz_responses f ++ if succeeded then xt_responses t else [] |},
                  x, true)
      | None =>
          Return ({| xt_tablet_ids := xt_tablet_ids t; xt_requests := xt_requests t;
                     xt_responses := xt_responses t; xt_transaction := xt_transaction t;
                     xt_waiting_commit := Some commit |}, f, x, false)
      end
  | None => Return (t, f, x, false)
  end.

Definition finalize_one
    (st : gmap Z TransactionTracker * Finalized * list Z * X) (y : Z * TransactionTracker)
    : outcome (gmap Z TransactionTracker * Finalized * list Z * X) :=
  let '(transaction_trackers, f, completed_transactions, x) := st in
  '(t, f, x, completed) ← maybe_finalize_transaction y.2 f x;
  Return (<[y.1 := t]> transaction_trackers, f,
          if completed : bool then completed_transactions ++ [y.1] else completed_transactions, x).

Definition complete_tablet (tablet_trackers : gmap Z TabletTracker) (tablet_id : Z)
    : gmap Z TabletTracker :=
  match tablet_trackers !! tablet_id with
  | Some tablet_tracker => <[tablet_id := complete_transaction tablet_tracker]> tablet_trackers
  | None => tablet_trackers
  end.

(** The failed requests are collected but not used any further. *)
Definition maybe_finalize_or_retry_transactions (k : SimpleKeyValueStoreCore) (x : X)
    : outcome (SimpleKeyValueStoreCore * X) :=
  '(transaction_trackers, f, completed_transactions, x) ←
    ofold finalize_one
      (kc_transaction_trackers k,
       {| fz_affected_tablet_ids := []; fz_failed_requests := []; fz_responses := kc_responses k |},
       [], x)
      (hash_iter (kc_transaction_trackers k));
  Return ({| kc_table_accessor := kc_table_accessor k; kc_request_tracker := kc_request_tracker k;
             kc_tablet_trackers :=
               foldl complete_tablet (kc_tablet_trackers k) (fz_affected_tablet_ids f);
             kc_transaction_trackers :=
               foldl (λ m transaction_id, delete transaction_id m) transaction_trackers
                 completed_transactions;
             kc_responses := fz_responses f; kc_config := kc_config k |}, x).

(** ** The store *)

Definition store_init (w : StoreCell) (config : StoreConfig) : outcome StoreCell :=
  '(w, _) ← with_borrow w (λ k, Return (store_core_init k config, ()));
  Return w.

Definition store_make_progress (w : StoreCell) (instant : Z) (x : X) : outcome (StoreCell * X) :=
  with_borrow w (λ k,
    '(k, x) ← maybe_resolve_tablets k x;
    '(k, x) ← maybe_start_transaction k x;
    '(k, x) ← maybe_commit_transactions k x;
    maybe_finalize_or_retry_transactions k x).

Definition store_process_request (w : StoreCell) (request : KeyValueRequest) : outcome StoreCell :=
  '(w, _) ← with_borrow w (λ k, Return (append_request k request, ()));
  Return w.

Definition store_take_responses (w : StoreCell) : outcome (StoreCell * list KeyValueResponse) :=
  with_borrow w (λ k, Return (core_take_responses k)).
End progress.
End store.
Arguments TransactionTracker : clear implicits.
Arguments SimpleKeyValueStoreCore : clear implicits.
Arguments StoreCell : clear implicits.

(** ** The interface

    The trait [KeyValueStore]; [X] is the transaction context. *)
Class KeyValueStore (X W : Type) : Type := {
  kvs_init : W → StoreConfig → outcome W;
  kvs_make_progress : W → Z → X → outcome (W * X);
  kvs_process_request : W → KeyValueRequest → outcome W;
  kvs_take_responses : W → outcome (W * list KeyValueResponse)
}.

Definition SimpleKeyValueStore {X Tx Tc : Type} `{!HashOrder Z, !ProtoCodec TabletContents}
    (hash_key : string → Z) `{!TabletTransactionContext (StoreCell Tx Tc) bytes X Tx Tc} :
    KeyValueStore X (StoreCell Tx Tc) :=
  {| kvs_init := store_init;
     kvs_make_progress := store_make_progress hash_key;
     kvs_process_request := store_process_request;
     kvs_take_responses := store_take_responses |}.
