(* ===== verification/KvTheorems.v ===== *)
(** * Properties of the key-value store

    Executing the requests of a tablet is running them one by one on its dictionary; every
    accepted request is in one place until it is answered, at most once; and a tablet takes
    part in at most one transaction. *)

From stdpp Require Import gmultiset.
From S2P Require Import Prelude TabletStore CacheTypes Manager KvStore.

(** ** Sums over maps

    The correlation ids that a part of the store holds, as a multiset. *)

Definition ids_of {A} (f : A → Z) (l : list A) : gmultiset Z := list_to_set_disj (f <$> l).

Lemma ids_of_app {A} (f : A → Z) l l' : ids_of f (l ++ l') = ids_of f l ⊎ ids_of f l'.
Proof. unfold ids_of. by rewrite fmap_app, list_to_set_disj_app. Qed.

Lemma ids_of_filter {A} (f : A → Z) (P : A → Prop) `{∀ x, Decision (P x)} l :
  ids_of f l = ids_of f (filter P l) ⊎ ids_of f (filter (λ x, ¬ P x) l).
Proof.
  induction l as [|x l IH]; [done|]. rewrite !filter_cons. unfold ids_of in *. simpl.
  destruct (decide (P x)).
  - rewrite (decide_False (P:=¬ P x)) by tauto. simpl. multiset_solver.
  - rewrite decide_True by done. simpl. multiset_solver.
Qed.

Lemma ids_of_elem {A} (f : A → Z) l z : z ∈ ids_of f l ↔ z ∈ f <$> l.
Proof. unfold ids_of. by rewrite elem_of_list_to_set_disj. Qed.

Lemma ids_of_nodup {A} (f : A → Z) l z :
  NoDup (f <$> l) → (multiplicity z (ids_of f l) ≤ 1)%nat.
Proof.
  induction l as [|x l IH]; intros Hn; unfold ids_of in *.
  { simpl. rewrite multiplicity_empty. lia. }
  rewrite fmap_cons in *. apply NoDup_cons in Hn as [Hx Hn]. specialize (IH Hn).
  rewrite list_to_set_disj_cons, multiplicity_disj_union, multiplicity_singleton. case_decide; [subst z|lia].
  assert (multiplicity (f x) (list_to_set_disj (f <$> l)) = 0%nat) as ->; [|lia].
  apply not_elem_of_multiplicity. by rewrite elem_of_list_to_set_disj.
Qed.

Section sums.
Context {A : Type} (F : A → gmultiset Z).
Implicit Types (m : gmap Z A).

Definition msum m : gmultiset Z := map_fold (λ _ a s, F a ⊎ s) ∅ m.

Lemma msum_empty : msum ∅ = ∅.
Proof. apply map_fold_empty. Qed.

Lemma msum_insert m i a : m !! i = None → msum (<[i := a]> m) = F a ⊎ msum m.
Proof. intros Hi. unfold msum. apply (map_fold_insert_L (λ _ a s, F a ⊎ s)); [multiset_solver|done]. Qed.

Lemma msum_delete m i a : m !! i = Some a → msum m = F a ⊎ msum (delete i m).
Proof.
  intros Hi. rewrite <- msum_insert with (i:=i); [|apply lookup_delete_eq].
  by rewrite insert_delete_id.
Qed.

Lemma msum_replace m i a a' : m !! i = Some a → msum (<[i := a']> m) ⊎ F a = msum m ⊎ F a'.
Proof.
  intros Hi. rewrite <- insert_delete_eq, msum_insert, (msum_delete m i a) by
    first [done|apply lookup_delete_eq]. multiset_solver.
Qed.

Lemma msum_elem m x : x ∈ msum m ↔ ∃ i a, m !! i = Some a ∧ x ∈ F a.
Proof.
  induction m as [|i a m Hi IH] using map_ind.
  - rewrite msum_empty. split; [multiset_solver|]. intros (i & a & Hi & _). by rewrite lookup_empty in Hi.
  - rewrite msum_insert, gmultiset_elem_of_disj_union, IH by done. split.
    + intros [Hx|(j & b & Hj & Hx)].
      * exists i, a. by rewrite lookup_insert_eq.
      * exists j, b. rewrite lookup_insert_ne; [done|]. intros <-. by rewrite Hi in Hj.
    + intros (j & b & [[<- <-]|[_ Hj]]%lookup_insert_Some & Hx); [by left|right; eauto].
Qed.
End sums.

(** Sums that change at one key by the same amount. *)
Lemma msum_same {A} (F : A → gmultiset Z) m i a a' :
  m !! i = Some a → F a' = F a → msum F (<[i := a']> m) = msum F m.
Proof. intros Hi HF. pose proof (msum_replace F m i a a' Hi) as H. rewrite HF in H. multiset_solver. Qed.

(** ** Requests and their dictionary *)

Definition request_id (request : KeyValueRequest) : Z :=
  match request with PutRequest id _ | GetRequest id _ => id end.

Definition response_id (response : KeyValueResponse) : Z :=
  match response with PutResponse id _ | GetResponse id _ => id end.

Definition is_put (request : KeyValueRequest) : bool :=
  match request with PutRequest _ _ => true | GetRequest _ _ => false end.

(** What a request means on a dictionary. *)
Definition kv_apply (d : gmap string bytes) (request : KeyValueRequest)
    : gmap string bytes * KeyValueResponse :=
  match request with
  | PutRequest id q =>
      (<[pkq_key q := pkq_value q]> d,
       PutResponse id {| pkr_existed := bool_decide (is_Some (d !! pkq_key q)) |})
  | GetRequest id q =>
      (d, GetResponse id {| gkr_existed := bool_decide (is_Some (d !! gkq_key q));
                            gkr_value := default [] (d !! gkq_key q) |})
  end.

(** Requests one after the other. *)
Fixpoint kv_run (d : gmap string bytes) (requests : list KeyValueRequest)
    : gmap string bytes * list KeyValueResponse :=
  match requests with
  | [] => (d, [])
  | request :: requests =>
      let '(d, response) := kv_apply d request in
      let '(d, responses) := kv_run d requests in
      (d, response :: responses)
  end.

Lemma kv_apply_id d r : response_id (kv_apply d r).2 = request_id r.
Proof. by destruct r. Qed.

Lemma kv_run_ids d rs : response_id <$> (kv_run d rs).2 = request_id <$> rs.
Proof.
  revert d. induction rs as [|r rs IH]; intros d; [done|]. simpl.
  destruct (kv_apply d r) as [d1 res] eqn:E. specialize (IH d1).
  destruct (kv_run d1 rs) as [d2 ress]. simpl in *. f_equal; [|exact IH].
  by rewrite <- (kv_apply_id d r), E.
Qed.

Lemma kv_run_length d rs : length (kv_run d rs).2 = length rs.
Proof. pose proof (f_equal length (kv_run_ids d rs)) as H. by rewrite !length_fmap in H. Qed.

Lemma kv_run_reads d rs : existsb is_put rs = false → (kv_run d rs).1 = d.
Proof.
  revert d. induction rs as [|r rs IH]; intros d; simpl; [done|].
  destruct r as [id q|id q]; simpl; [done|]. intros H. specialize (IH d H).
  by destruct (kv_run d rs).
Qed.

(** ** Processing a query *)

Section processing.
Context `{HCodec : !ProtoCodec TabletContents}.
Variable hash_key : string → Z.

(** The requests that a query covers. *)
Definition covered (q : TableQuery) (r : KeyValueRequest) : Prop :=
  hash_key (request_key r) ∈ tq_key_hashes q.

#[global] Instance covered_dec q r : Decision (covered q r).
Proof. unfold covered. apply _. Defined.

Lemma process_one_request_spec q s r :
  process_one_request hash_key q s r =
  if decide (covered q r) then
    let '(d, response) := kv_apply (tcn_dictionary (pr_contents s)) r in
    {| pr_contents := {| tcn_dictionary := d |};
       pr_tablet_updated := pr_tablet_updated s || is_put r;
       pr_results := pr_results s ++ [(r, response)]; pr_requests := pr_requests s |}
  else
    {| pr_contents := pr_contents s; pr_tablet_updated := pr_tablet_updated s;
       pr_results := pr_results s; pr_requests := pr_requests s ++ [r] |}.
Proof.
  unfold process_one_request. destruct r as [id p|id g].
  - unfold process_put_request. destruct (decide (covered q (PutRequest id p))) as [Hc|Hc].
    + rewrite decide_True by done. simpl. by destruct (tcn_dictionary (pr_contents s) !! pkq_key p).
    + by rewrite decide_False.
  - unfold process_get_request. destruct (decide (covered q (GetRequest id g))) as [Hc|Hc].
    + rewrite decide_True by done. destruct s as [[d] u res reqs]. simpl.
      by destruct (d !! gkq_key g).
    + by rewrite decide_False.
Qed.

Lemma process_requests_spec q rs s :
  let run := kv_run (tcn_dictionary (pr_contents s)) (filter (covered q) rs) in
  foldl (process_one_request hash_key q) s rs
  = {| pr_contents := {| tcn_dictionary := run.1 |};
       pr_tablet_updated := pr_tablet_updated s || existsb is_put (filter (covered q) rs);
       pr_results := pr_results s ++ zip (filter (covered q) rs) run.2;
       pr_requests := pr_requests s ++ filter (λ r, ¬ covered q r) rs |}.
Proof.
  revert s. induction rs as [|r rs IH]; intros s; simpl.
  { destruct s as [[d] u res reqs]. simpl. by rewrite orb_false_r, !app_nil_r. }
  rewrite process_one_request_spec, IH, !filter_cons. case_decide as Hc.
  - rewrite decide_False by tauto. simpl.
    destruct (kv_apply (tcn_dictionary (pr_contents s)) r) as [d response]. simpl.
    destruct (kv_run d (filter (covered q) rs)) as [d' responses]. simpl.
    by rewrite <- orb_assoc, <- app_assoc.
  - rewrite decide_True by done. simpl. by rewrite <- app_assoc.
Qed.

Lemma process_table_query_run t q tablet contents dict requests :
  tb_contents tablet = Some contents → proto_decode contents = Some {| tcn_dictionary := dict |} →
  tt_waiting_processing_requests t !! tq_query_id q = Some requests →
  let batch := filter (covered q) requests in
  let '(dict', responses) := kv_run dict batch in
  process_table_query hash_key t q tablet
  = Return ({| tt_min_pending := tt_min_pending t; tt_has_transaction := tt_has_transaction t;
               tt_pending_requests := tt_pending_requests t;
               tt_waiting_processing_requests :=
                 <[tq_query_id q := filter (λ r, ¬ covered q r) requests]>
                   (tt_waiting_processing_requests t) |},
            if existsb is_put batch
            then tablet_set_contents (proto_encode {| tcn_dictionary := dict' |}) tablet
            else tablet, zip batch responses).
Proof.
  intros Hc Hd Hr batch. destruct (kv_run dict batch) as [dict' responses] eqn:Erun.
  unfold process_table_query, tablet_get_contents. rewrite Hc. cbn [unwrap mbind outcome_bind].
  rewrite Hd. cbn [unwrap mbind outcome_bind]. rewrite Hr, process_requests_spec. simpl.
  fold batch. by rewrite Erun.
Qed.
End processing.

(** ** Where requests are *)

Abbreviation rids := (ids_of request_id).
Abbreviation aids := (ids_of response_id).

Definition tracker_ids (t : TabletTracker) : gmultiset Z :=
  rids (tt_pending_requests t) ⊎ msum rids (tt_waiting_processing_requests t).

Section store.
Context {Tx Tc : Type} `{HZ : !HashOrder Z, HCodec : !ProtoCodec TabletContents}.
Variable hash_key : string → Z.
Implicit Types (k : SimpleKeyValueStoreCore Tx Tc) (x : TransactionTracker Tx Tc).

(** Requests that were not processed yet. *)
Definition store_waiting_ids k : gmultiset Z :=
  rids (rt_pending_requests (kc_request_tracker k))
  ⊎ msum rids (rt_waiting_resolution_requests (kc_request_tracker k))
  ⊎ msum tracker_ids (kc_tablet_trackers k).

(** Requests that were processed in a transaction that is not completed. *)
Definition processed_ids k : gmultiset Z :=
  msum (λ x, rids (xt_requests x)) (kc_transaction_trackers k).

(** All requests that the store holds, with those whose responses are ready. *)
Definition held_ids k : gmultiset Z := store_waiting_ids k ⊎ processed_ids k ⊎ aids (kc_responses k).

(** The tablets of the transactions of the store. *)
Definition busy_tablets k : gmultiset Z :=
  msum (λ x, ids_of id (xt_tablet_ids x)) (kc_transaction_trackers k).

Definition tablets_below (counter : Z) (trackers : gmap Z TabletTracker) : Prop :=
  ∀ tablet_id t id, trackers !! tablet_id = Some t →
    is_Some (tt_waiting_processing_requests t !! id) → id ≤ counter.

Definition has_transaction (trackers : gmap Z TabletTracker) (tablet_id : Z) : Prop :=
  ∃ t, trackers !! tablet_id = Some t ∧ tt_has_transaction t = true.

(** Query ids are not above the counter, the responses of a transaction answer its
    requests, and the tablets with a transaction are the tablets of the transactions,
    each of one. *)
Record store_inv (k : SimpleKeyValueStoreCore Tx Tc) : Prop := {
  si_counter : 0 ≤ ta_query_counter (kc_table_accessor k);
  si_resolution id :
    is_Some (rt_waiting_resolution_requests (kc_request_tracker k) !! id) →
    id ≤ ta_query_counter (kc_table_accessor k);
  si_processing : tablets_below (ta_query_counter (kc_table_accessor k)) (kc_tablet_trackers k);
  si_answers id x : kc_transaction_trackers k !! id = Some x →
    response_id <$> xt_responses x = request_id <$> xt_requests x;
  si_busy tablet_id : (multiplicity tablet_id (busy_tablets k) ≤ 1)%nat;
  si_transaction tablet_id :
    tablet_id ∈ busy_tablets k ↔ has_transaction (kc_tablet_trackers k) tablet_id
}.

Lemma store_core_new_inv : store_inv store_core_new.
Proof using.
  assert (busy_tablets store_core_new = ∅) as Hb by apply msum_empty.
  split; simpl; rewrite ?Hb.
  - done.
  - intros id [? H]. by rewrite lookup_empty in H.
  - intros tid t id H. by rewrite lookup_empty in H.
  - intros id x H. by rewrite lookup_empty in H.
  - intros tid. rewrite multiplicity_empty. lia.
  - intros tid. split; [multiset_solver|]. intros (t & H & _). simpl in H. by rewrite lookup_empty in H.
Qed.

(** *** New requests and resolved queries *)

Lemma append_request_ids k r :
  held_ids (append_request k r) = {[+ request_id r +]} ⊎ held_ids k.
Proof using.
  unfold held_ids, store_waiting_ids, processed_ids, append_request, append_pending_request. simpl.
  rewrite ids_of_app. unfold ids_of at 2. simpl. multiset_solver.
Qed.

Lemma append_request_inv k r : store_inv k → store_inv (append_request k r).
Proof using. by intros []. Qed.

Lemma tracker_ids_append t rs :
  tracker_ids (append_pending_requests t rs) = tracker_ids t ⊎ rids rs.
Proof using. unfold tracker_ids. simpl. rewrite ids_of_app. multiset_solver. Qed.

(** Adding requests to the tracker of a tablet, which is created if needed. *)
Lemma msum_tracker_append trackers tablet_id n rs :
  msum tracker_ids (<[tablet_id := append_pending_requests
      (default (tablet_tracker_create n) (trackers !! tablet_id)) rs]> trackers)
  = msum tracker_ids trackers ⊎ rids rs.
Proof using.
  destruct (trackers !! tablet_id) as [t|] eqn:Et; simpl.
  - pose proof (msum_replace tracker_ids trackers tablet_id t (append_pending_requests t rs) Et) as H.
    rewrite tracker_ids_append in H. multiset_solver.
  - rewrite msum_insert, tracker_ids_append by done.
    assert (tracker_ids (tablet_tracker_create n) = ∅) as ->.
    { unfold tracker_ids. simpl. rewrite msum_empty. done. }
    multiset_solver.
Qed.

Lemma associate_resolved_ids k y : held_ids (associate_resolved k y) = held_ids k.
Proof using.
  destruct y as [q d]. unfold held_ids, store_waiting_ids, processed_ids, associate_resolved. simpl.
  rewrite msum_tracker_append.
  destruct (rt_waiting_resolution_requests (kc_request_tracker k) !! tq_query_id q) as [rs|] eqn:E; simpl.
  - rewrite (msum_delete rids _ _ _ E). multiset_solver.
  - rewrite delete_id by done. assert (rids [] = ∅) as -> by done. multiset_solver.
Qed.

Lemma has_transaction_insert trackers i t tablet_id :
  has_transaction (<[i := t]> trackers) tablet_id ↔
  if decide (i = tablet_id) then tt_has_transaction t = true else has_transaction trackers tablet_id.
Proof using.
  unfold has_transaction. case_decide as Hi; [subst i|].
  - rewrite lookup_insert_eq. split; [by intros (t' & [= <-] & ?)|by exists t].
  - by rewrite lookup_insert_ne.
Qed.

Lemma associate_resolved_inv k y : store_inv k → store_inv (associate_resolved k y).
Proof using.
  destruct y as [q d]. intros [Hc Hr Hp Ha Hb Ht]. split; simpl; [done|..].
  - intros id [rs [_ H]%lookup_delete_Some]. apply Hr. by eexists.
  - intros tid t id [[<- <-]|[_ H]]%lookup_insert_Some; [|exact (Hp _ _ id H)].
    simpl. destruct (kc_tablet_trackers k !! td_tablet_id d) as [t0|] eqn:E; simpl; [exact (Hp _ _ id E)|].
    intros [? H]. by rewrite lookup_empty in H.
  - done.
  - done.
  - intros tid. rewrite (has_transaction_insert (kc_tablet_trackers k)). simpl.
    transitivity (has_transaction (kc_tablet_trackers k) tid); [apply Ht|].
    case_decide as Hi; [subst tid|done]. unfold has_transaction.
    destruct (kc_tablet_trackers k !! td_tablet_id d) as [t0|]; simpl.
    + split; [by intros (t & [= <-] & ?)|by exists t0].
    + split; [by intros (t & [=] & _)|done].
Qed.

Lemma handle_query_resolve_ok k results :
  held_ids (handle_query_resolve results k) = held_ids k ∧
  (store_inv k → store_inv (handle_query_resolve results k)).
Proof using.
  unfold handle_query_resolve. revert k. induction results as [|y results IH]; intros k; simpl; [done|].
  destruct (IH (associate_resolved k y)) as [Hids Hinv]. split.
  - by rewrite Hids, associate_resolved_ids.
  - intros H. by apply Hinv, associate_resolved_inv.
Qed.

(** *** Processing *)

Record processed_query (t t' : TabletTracker) (tablet tablet' : Tablet bytes)
    (results : list (KeyValueRequest * KeyValueResponse)) : Prop := {
  pq_ids : tracker_ids t' ⊎ rids results.*1 = tracker_ids t;
  pq_answers : response_id <$> results.*2 = request_id <$> results.*1;
  pq_transaction : tt_has_transaction t' = tt_has_transaction t;
  pq_queries id : is_Some (tt_waiting_processing_requests t' !! id) →
    is_Some (tt_waiting_processing_requests t !! id);
  pq_tablet : tablet' = tablet ∨ ∃ c, tablet' = tablet_set_contents c tablet
}.

Lemma process_table_query_ok t q tablet t' tablet' results :
  process_table_query hash_key t q tablet = Return (t', tablet', results) →
  processed_query t t' tablet tablet' results.
Proof using.
  intros H. unfold process_table_query in H.
  apply bind_Return in H as (contents & _ & H). apply bind_Return in H as ([dict] & _ & H).
  destruct (tt_waiting_processing_requests t !! tq_query_id q) as [rs|] eqn:E.
  2: { injection H as <- <- <-. split; [multiset_solver|done..|by left]. }
  rewrite process_requests_spec in H. simpl in H. set (batch := filter (covered hash_key q) rs) in *.
  injection H as <- <- <-. pose proof (kv_run_length dict batch) as Hlen.
  assert ((zip batch (kv_run dict batch).2).*1 = batch) as Hz by (apply fst_zip; lia).
  split.
  - rewrite Hz. unfold tracker_ids. simpl.
    pose proof (msum_replace rids _ _ rs (filter (λ r, ¬ covered hash_key q r) rs) E) as Hm.
    rewrite (ids_of_filter request_id (covered hash_key q) rs) in Hm. fold batch in Hm.
    multiset_solver.
  - rewrite Hz, snd_zip by lia. apply kv_run_ids.
  - done.
  - simpl. intros id. destruct (decide (tq_query_id q = id)) as [<-|]; [by rewrite E|].
    by rewrite lookup_insert_ne.
  - destruct (existsb is_put batch); [right; by eexists|by left].
Qed.

Record processed_tablets k k' x x' (results : list (TableQuery * Tablet bytes))
    (tablets : list (Tablet bytes)) : Prop := {
  pt_ids : store_waiting_ids k' ⊎ rids (xt_requests x') = store_waiting_ids k ⊎ rids (xt_requests x);
  pt_core : kc_table_accessor k' = kc_table_accessor k ∧ kc_request_tracker k' = kc_request_tracker k ∧
    kc_transaction_trackers k' = kc_transaction_trackers k ∧ kc_responses k' = kc_responses k;
  pt_below counter : tablets_below counter (kc_tablet_trackers k) →
    tablets_below counter (kc_tablet_trackers k');
  pt_transaction tablet_id :
    has_transaction (kc_tablet_trackers k') tablet_id ↔ has_transaction (kc_tablet_trackers k) tablet_id;
  pt_answers : response_id <$> xt_responses x = request_id <$> xt_requests x →
    response_id <$> xt_responses x' = request_id <$> xt_requests x';
  pt_tablet_ids : xt_tablet_ids x' = xt_tablet_ids x;
  pt_tablets : Forall2 (λ y t, t = y.2 ∨ ∃ c, t = tablet_set_contents c y.2) results tablets
}.

Lemma process_tablets_ok transaction_id results k x k' x' tablets :
  process_tablets hash_key transaction_id results k x = Return (k', x', tablets) →
  processed_tablets k k' x x' results tablets.
Proof using.
  revert k x tablets. induction results as [|[q tablet] results IH]; intros k x tablets H;
    cbn [process_tablets] in H.
  { injection H as <- <- <-. by split. }
  apply bind_Return in H as ([[k1 x1] tablet1] & H1 & H).
  apply bind_Return in H as ([[k2 x2] tablets2] & H2 & H). injection H as <- <- <-.
  apply IH in H2 as [Hids (Ha & Hr & Ht & Hres) Hb Hx Hans Hti Htab].
  destruct (kc_tablet_trackers k !! tablet_get_id tablet) as [t|] eqn:Et.
  2: { injection H1 as -> -> ->. split; [done..|]. constructor; [by left|done]. }
  apply bind_Return in H1 as ([[t' tablet'] res] & Hq & H1). injection H1 as <- <- <-.
  apply process_table_query_ok in Hq as [Qids Qans Qtr Qq Qtab].
  split.
  - rewrite Hids. unfold store_waiting_ids. simpl. rewrite ids_of_app.
    pose proof (msum_replace tracker_ids _ _ t t' Et). multiset_solver.
  - by rewrite Ha, Hr, Ht, Hres.
  - intros counter Hc. apply Hb. simpl. intros tid t0 id [[<- <-]|[_ H]]%lookup_insert_Some Hs.
    + apply (Hc _ t id Et). by apply Qq.
    + by apply (Hc _ _ id H).
  - intros tid. rewrite Hx. simpl. rewrite has_transaction_insert. case_decide as Hi; [|done].
    subst tid. rewrite Qtr. unfold has_transaction. rewrite Et.
    split; [by exists t|by intros (? & [= <-] & ?)].
  - intros Hans0. apply Hans. simpl. by rewrite !fmap_app, Hans0, Qans.
  - by rewrite Hti.
  - constructor; [|done]. exact Qtab.
Qed.

Lemma handle_query_process_ok transaction_id results k k' tablets :
  handle_query_process hash_key transaction_id results k = Return (k', tablets) →
  held_ids k' = held_ids k ∧ (store_inv k → store_inv k') ∧
  dom (kc_transaction_trackers k') = dom (kc_transaction_trackers k) ∧
  Forall2 (λ y t, t = y.2 ∨ ∃ c, t = tablet_set_contents c y.2) results tablets.
Proof using.
  intros H. unfold handle_query_process in H.
  destruct (kc_transaction_trackers k !! transaction_id) as [x|] eqn:Ex.
  2: { injection H as <- <-. split_and!; [done..|].
       apply Forall2_fmap_r, Forall_Forall2_diag, Forall_true. by left. }
  apply bind_Return in H as ([[k1 x1] tablets1] & H & Heq). injection Heq as <- <-.
  apply process_tablets_ok in H as [Hids (Ha & Hr & Ht & Hres) Hb Hx Hans Hti Htab].
  rewrite <- Ht in Ex. split_and!; [| | |done].
  - unfold held_ids, processed_ids. simpl. rewrite Hres.
    pose proof (msum_replace (λ x, rids (xt_requests x)) _ _ x x1 Ex) as Hm. simpl in Hm.
    assert (store_waiting_ids (kc_with k1 (kc_table_accessor k1) (kc_request_tracker k1)
      (kc_tablet_trackers k1) (<[transaction_id:=x1]> (kc_transaction_trackers k1))) = store_waiting_ids k1)
      as -> by done.
    rewrite <- Ht. multiset_solver.
  - intros [Hc Hrs Hp Hxa Hbu Htr].
    assert (busy_tablets (kc_with k1 (kc_table_accessor k1) (kc_request_tracker k1)
      (kc_tablet_trackers k1) (<[transaction_id:=x1]> (kc_transaction_trackers k1))) = busy_tablets k)
      as Hbusy.
    { unfold busy_tablets. simpl. rewrite <- Ht. by rewrite (msum_same _ _ _ x) by (simpl; by rewrite ?Hti). }
    split; rewrite ?Hbusy; simpl; rewrite ?Ha, ?Hr; [done|done|by apply Hb| |done|].
    + intros id y [[<- <-]|[_ Hy]]%lookup_insert_Some.
      * apply Hans, (Hxa transaction_id). by rewrite <- Ht.
      * apply (Hxa id). by rewrite <- Ht.
    + intros tid. by rewrite Hx.
  - simpl. rewrite dom_insert_lookup_L; [by rewrite Ht|by eexists].
Qed.

(** *** New queries *)

Lemma get_next_id_small a :
  0 ≤ ta_query_counter a < two64 - 1 →
  get_next_id a = ({| ta_table_name := ta_table_name a; ta_query_counter := ta_query_counter a + 1 |},
                   ta_query_counter a + 1).
Proof using. intros H. unfold get_next_id. rewrite u64_add_small by lia. done. Qed.

Lemma collect_process_queries_ok t a :
  0 ≤ ta_query_counter a < two64 - 1 →
  (∀ id, is_Some (tt_waiting_processing_requests t !! id) → id ≤ ta_query_counter a) →
  let '(t', a', query) := collect_process_queries hash_key t a in
  match query with
  | Some _ =>
      tt_has_transaction t = false ∧ tt_has_transaction t' = true ∧ tracker_ids t' = tracker_ids t ∧
      ta_query_counter a' = ta_query_counter a + 1 ∧
      ∀ id, is_Some (tt_waiting_processing_requests t' !! id) → id ≤ ta_query_counter a'
  | None => t' = t ∧ a' = a
  end.
Proof using.
  intros Ha Ht. unfold collect_process_queries, create_table_query. case_decide; [|done].
  destruct (tt_has_transaction t) eqn:Eh; [done|]. rewrite get_next_id_small by done. simpl.
  split_and!; [done..| |done|].
  - unfold tracker_ids. simpl. rewrite msum_insert; [unfold ids_of at 1; simpl; multiset_solver|].
    apply eq_None_not_Some. intros ?%Ht. lia.
  - intros id. destruct (decide (ta_query_counter a + 1 = id)) as [<-|]; [lia|].
    rewrite lookup_insert_ne by done. intros ?%Ht. lia.
Qed.

(** What the loop over the tablets has collected. *)
Record collected (trackers trackers' : gmap Z TabletTracker) (a a' : TableAccessor)
    (n : Z) (queries : list TableQuery) (tablet_ids : list Z) : Prop := {
  cl_ids : msum tracker_ids trackers' = msum tracker_ids trackers;
  cl_counter : ta_query_counter a ≤ ta_query_counter a' ≤ ta_query_counter a + n;
  cl_below : tablets_below (ta_query_counter a') trackers';
  cl_nodup : NoDup tablet_ids;
  cl_fresh tablet_id : tablet_id ∈ tablet_ids → ¬ has_transaction trackers tablet_id;
  cl_transaction tablet_id :
    has_transaction trackers' tablet_id ↔ has_transaction trackers tablet_id ∨ tablet_id ∈ tablet_ids;
  cl_length : length queries = length tablet_ids
}.

Lemma collect_tablets_ok l trackers a trackers1 a1 n queries tablet_ids :
  collected trackers trackers1 a a1 n queries tablet_ids →
  0 ≤ ta_query_counter a → 0 ≤ n → ta_query_counter a + n + zlen l < two64 →
  NoDup l.*1 → (∀ i t, (i, t) ∈ l → trackers1 !! i = Some t ∧ i ∉ tablet_ids) →
  let '(trackers', a', queries', tablet_ids') :=
    foldl (collect_tablet hash_key) (trackers1, a1, queries, tablet_ids) l in
  collected trackers trackers' a a' (n + zlen l) queries' tablet_ids'.
Proof using.
  revert trackers1 a1 n queries tablet_ids.
  induction l as [|[i t] l IH]; intros trackers1 a1 n queries tablet_ids Hc Ha Hn Hroom Hnd Hl.
  { simpl. simpl. by rewrite Z.add_0_r. }
  cbn [foldl collect_tablet].
  assert (zlen ((i, t) :: l) = zlen l + 1) as Hlen by (rewrite length_cons; lia).
  assert (0 ≤ zlen l) by lia.
  apply NoDup_cons in Hnd as [Hi Hnd].
  destruct (Hl i t) as [Hlook Hfresh]; [by left|]. destruct Hc as [Ci Cc Cb Cn Cf Ct Cl].
  pose proof (collect_process_queries_ok t a1) as Hq.
  destruct (collect_process_queries hash_key t a1) as [[t' a'] [query|]].
  - destruct Hq as (Hnt & Ht' & Hids & Hcnt & Hbel); [lia|by intros id; apply (Cb i t id)|].
    replace (n + zlen ((i, t) :: l)) with ((n + 1) + zlen l) by lia. apply IH; [|lia..|done|].
    + split.
      * by rewrite (msum_same tracker_ids _ _ t).
      * lia.
      * intros tid t0 id [[<- <-]|[_ H0]]%lookup_insert_Some Hs; [by apply Hbel|].
        specialize (Cb _ _ id H0 Hs). lia.
      * apply NoDup_app. split_and!; [done| |apply NoDup_singleton].
        intros tid Hin ->%list_elem_of_singleton. done.
      * intros tid [Hin| ->%list_elem_of_singleton]%elem_of_app; [by apply Cf|].
        intros Hh. assert (has_transaction trackers1 i) as (t0 & H0 & H1) by (apply Ct; by left).
        rewrite Hlook in H0. injection H0 as <-. by rewrite Hnt in H1.
      * intros tid. rewrite has_transaction_insert, elem_of_app, list_elem_of_singleton.
        case_decide as Hd; [subst tid; tauto|]. rewrite Ct. split; [tauto|]. intros [?|[?|?]]; [tauto..|done].
      * rewrite !length_app, Cl. done.
    + intros j u Hj. destruct (Hl j u) as [Hju Hjf]; [by right|].
      assert (i ≠ j) as Hne. { intros ->. destruct Hi. by apply (list_elem_of_fmap_2 fst) in Hj. }
      split; [by rewrite lookup_insert_ne|].
      rewrite elem_of_app, list_elem_of_singleton. intros [?|?]; [done|congruence].
  - destruct Hq as [-> ->]; [lia|by intros id; apply (Cb i t id)|].
    replace (n + zlen ((i, t) :: l)) with ((n + 1) + zlen l) by lia. apply IH; [|lia..|done|].
    + split; try done. lia.
    + intros j u Hj. apply Hl. by right.
Qed.

(** *** Completed transactions *)

Lemma complete_tablets_ok tablet_ids trackers :
  let trackers' := foldl complete_tablet trackers tablet_ids in
  msum tracker_ids trackers' = msum tracker_ids trackers ∧
  (∀ counter, tablets_below counter trackers → tablets_below counter trackers') ∧
  ∀ tablet_id, has_transaction trackers' tablet_id ↔
    has_transaction trackers tablet_id ∧ tablet_id ∉ tablet_ids.
Proof using.
  revert trackers. induction tablet_ids as [|i tablet_ids IH]; intros trackers; simpl.
  { split_and!; [done..|]. intros tid. split; [|by intros []]. split; [done|apply not_elem_of_nil]. }
  destruct (IH (complete_tablet trackers i)) as (Hids & Hb & Ht). clear IH.
  rewrite Hids. setoid_rewrite Ht. clear Hids Ht.
  assert (complete_tablet trackers i = match trackers !! i with
    | Some t => <[i := complete_transaction t]> trackers | None => trackers end) as Heq by done.
  rewrite Heq in *. clear Heq. destruct (trackers !! i) as [t|] eqn:Et.
  - split_and!.
    + by rewrite (msum_same tracker_ids _ _ t).
    + intros counter Hc. apply Hb. intros tid t0 id [[<- <-]|[_ H0]]%lookup_insert_Some.
      * exact (Hc _ t id Et).
      * exact (Hc _ _ id H0).
    + intros tid. rewrite has_transaction_insert, not_elem_of_cons. case_decide as Hi; simpl.
      * split; [by intros [? _]|]. intros (_ & ? & _). congruence.
      * split; [intros [? ?]; split_and!; congruence|tauto].
  - split_and!; [done..|]. intros tid. rewrite not_elem_of_cons. split; [|tauto].
    intros [Hh ?]. split_and!; [done| |done]. intros ->. destruct Hh as (? & H1 & _). congruence.
Qed.

(** The transactions that are left. *)
Abbreviation remaining trackers completed := (foldl (λ m id, delete id m) trackers completed).

Lemma remaining_lookup {A} (trackers : gmap Z A) completed id :
  remaining trackers completed !! id = if decide (id ∈ completed) then None else trackers !! id.
Proof using.
  revert trackers. induction completed as [|i completed IH]; intros trackers; simpl; [done|].
  rewrite IH. destruct (decide (id ∈ completed)).
  - rewrite decide_True; [done|by right].
  - destruct (decide (i = id)) as [<-|].
    + rewrite lookup_delete_eq, decide_True; [done|by left].
    + rewrite lookup_delete_ne, decide_False; [done| |done]. rewrite not_elem_of_cons. by split.
Qed.

Lemma remaining_insert {A} (trackers : gmap Z A) completed i (y : A) :
  i ∉ completed → remaining (<[i := y]> trackers) completed = <[i := y]> (remaining trackers completed).
Proof using.
  intros Hi. apply map_eq. intros j. rewrite remaining_lookup. destruct (decide (i = j)) as [<-|].
  - by rewrite decide_False, !lookup_insert_eq.
  - by rewrite !lookup_insert_ne, remaining_lookup.
Qed.

Section progress.
Context {X : Type} `{HX : !TabletTransactionContext (StoreCell Tx Tc) bytes X Tx Tc}.

(** What the store relies on: a resolution calls its handler at once or not at all, and
    transactions get increasing ids. *)
Class TransactionContextLaws : Type := {
  tcl_last : X → Z;
  tcl_resolve c (w : StoreCell Tx Tc) queries handler c' w' :
    tci_resolve (T:=bytes) c w queries handler = Return (c', w') →
    tcl_last c' = tcl_last c ∧ (w' = w ∨ ∃ results, handler results w = Return w');
  tcl_start c c' tx :
    0 ≤ tcl_last c < two64 - 1 → tci_start_transaction c = Return (c', tx) →
    tcl_last c < txi_get_id tx ∧ tcl_last c' = txi_get_id tx;
  tcl_process c tx queries handler c' tx' :
    txi_process c tx queries handler = Return (c', tx') →
    tcl_last c' = tcl_last c ∧ txi_get_id tx' = txi_get_id tx;
  tcl_commit c tx c' tc : txi_commit c tx = Return (c', tc) → tcl_last c' = tcl_last c;
  tcl_check c tc c' tc' o :
    txi_check_result c tc = Return (c', tc', o) → tcl_last c' = tcl_last c
}.

Context `{HL : !TransactionContextLaws}.

(** Transactions of the store were started by the context. *)
Definition started k (c : X) : Prop :=
  ∀ id, is_Some (kc_transaction_trackers k !! id) → id ≤ tcl_last c.

Lemma maybe_resolve_tablets_ok k c k' c' :
  ta_query_counter (kc_table_accessor k) < two64 - 1 → store_inv k →
  maybe_resolve_tablets hash_key k c = Return (k', c') →
  store_inv k' ∧ held_ids k' = held_ids k ∧ tcl_last c' = tcl_last c ∧
  kc_transaction_trackers k' = kc_transaction_trackers k ∧
  kc_tablet_trackers k' = kc_tablet_trackers k ∧
  ta_query_counter (kc_table_accessor k') ≤ ta_query_counter (kc_table_accessor k) + 1.
Proof using.
  intros Hroom [Hc Hr Hp Ha Hb Ht] H. unfold maybe_resolve_tablets, collect_resolve_queries in H.
  destruct (decide (rt_min_pending (kc_request_tracker k) ≤ zlen (rt_pending_requests (kc_request_tracker k)))) as [_|_].
  2: { injection H as <- <-. split_and!; [by split|done..|simpl; lia]. }
  unfold create_table_query in H. rewrite get_next_id_small in H by done. simpl in H.
  apply bind_Return in H as ([c1 w] & H & Heq). injection Heq as <- <-.
  apply tcl_resolve in H as [Hlast [->|(results & H)]]; [|done]. simpl.
  split_and!; [|unfold held_ids, store_waiting_ids; simpl|done..|lia].
  - split; simpl; [lia|..|done|done|done].
    + intros id. destruct (decide (ta_query_counter (kc_table_accessor k) + 1 = id)) as [<-|]; [lia|].
      rewrite lookup_insert_ne by done. intros ?%Hr. lia.
    + intros tid t id H1 H2. specialize (Hp _ _ id H1 H2). lia.
  - rewrite msum_insert; [unfold ids_of at 1; simpl; multiset_solver|].
    apply eq_None_not_Some. intros ?%Hr. lia.
Qed.

Lemma maybe_start_transaction_ok k c k' c' :
  ta_query_counter (kc_table_accessor k) + Z.of_nat (size (kc_tablet_trackers k)) < two64 →
  0 ≤ tcl_last c < two64 - 1 → store_inv k → started k c →
  maybe_start_transaction hash_key k c = Return (k', c') →
  store_inv k' ∧ held_ids k' = held_ids k ∧ tcl_last c ≤ tcl_last c' ∧ started k' c'.
Proof using.
  intros Hroom Hlast [Hc Hr Hp Ha Hb Ht] Hs H. unfold maybe_start_transaction in H.
  pose proof (collect_tablets_ok (hash_iter (kc_tablet_trackers k)) (kc_tablet_trackers k)
    (kc_table_accessor k) (kc_tablet_trackers k) (kc_table_accessor k) 0 [] []) as Hcol.
  assert (length (hash_iter (kc_tablet_trackers k)) = size (kc_tablet_trackers k)) as Hlen.
  { by rewrite hash_iter_perm, length_map_to_list. }
  destruct (foldl (collect_tablet hash_key) _ _) as [[[trackers a] queries] tids].
  destruct Hcol as [Ci Cc Cb Cn Cf Ct Cl].
  - split; [done|lia|done|constructor|by intros ? ?%elem_of_nil| |done].
    intros tid. rewrite elem_of_nil. tauto.
  - done.
  - lia.
  - rewrite Hlen. lia.
  - rewrite hash_iter_perm. apply NoDup_fst_map_to_list.
  - intros i t Hin. rewrite hash_iter_perm, elem_of_map_to_list in Hin. split; [done|apply not_elem_of_nil].
  - set (k1 := kc_with k a (kc_request_tracker k) trackers (kc_transaction_trackers k)) in *.
    assert (store_inv k1 ∨ queries ≠ []) as Hk1.
    { destruct queries; [left|by right]. destruct tids; [|done].
      split; simpl; [lia|..|exact Cb|done|done|].
      - intros id ?%Hr. lia.
      - intros tid. rewrite Ct, elem_of_nil. etrans; [apply Ht|]. tauto. }
    assert (held_ids k1 = held_ids k) as Hheld.
    { unfold held_ids, store_waiting_ids. simpl. by rewrite Ci. }
    destruct queries as [|q queries].
    { injection H as <- <-. destruct Hk1 as [Hk1|]; [|done]. split_and!; [done..|lia|done]. }
    apply bind_Return in H as ([c1 tx] & H1 & H). apply bind_Return in H as ([c2 tx2] & H2 & H).
    injection H as <- <-. apply tcl_start in H1 as [Hid Hl1]; [|done].
    apply tcl_process in H2 as [Hl2 Hid2]. rewrite Hid2.
    assert (kc_transaction_trackers k !! txi_get_id tx = None) as Hnone.
    { apply eq_None_not_Some. intros ?%Hs. lia. }
    split_and!; [| |lia|].
    + assert (∀ tid, multiplicity tid (busy_tablets (kc_with k1 a (kc_request_tracker k1) trackers
        (<[txi_get_id tx := transaction_tracker_create tids tx2]> (kc_transaction_trackers k1))))
        = (multiplicity tid (busy_tablets k) + multiplicity tid (ids_of id tids))%nat) as Hbusy.
      { intros tid. unfold busy_tablets. simpl. rewrite msum_insert by done. simpl.
        rewrite multiplicity_disj_union. lia. }
      assert (∀ tid, tid ∈ ids_of id tids ↔ tid ∈ tids) as Hin.
      { intros tid. by rewrite ids_of_elem, list_fmap_id. }
      split; [simpl; lia|simpl; intros id ?%Hr; lia|exact Cb|..].
      * simpl. intros id y [[<- <-]|[_ Hy]]%lookup_insert_Some; [done|]. by apply (Ha id).
      * intros tid. rewrite Hbusy. specialize (Hb tid).
        destruct (decide (tid ∈ tids)) as [Hti|Hti].
        -- assert (multiplicity tid (busy_tablets k) = 0%nat) as ->.
           { apply not_elem_of_multiplicity. intros Hbt%Ht. by apply (Cf tid). }
           apply ids_of_nodup. by rewrite list_fmap_id.
        -- assert (multiplicity tid (ids_of id tids) = 0%nat) as ->; [|lia].
           apply not_elem_of_multiplicity. by rewrite Hin.
      * intros tid. simpl. rewrite Ct, <- Ht, <- Hin. rewrite !elem_of_multiplicity, Hbusy. lia.
    + rewrite <- Hheld. unfold held_ids, processed_ids. simpl. rewrite msum_insert by done. simpl.
      unfold ids_of at 1. simpl.
      assert (store_waiting_ids (kc_with k1 a (kc_request_tracker k) trackers
        (<[txi_get_id tx := transaction_tracker_create tids tx2]> (kc_transaction_trackers k)))
        = store_waiting_ids k1) as -> by done.
      multiset_solver.
    + intros id. simpl. intros [y [[<- _]|[_ Hy]]%lookup_insert_Some]; [lia|].
      enough (id ≤ tcl_last c) by lia. apply Hs. by eexists.
Qed.

(** Two trackers with the same requests, responses and tablets. *)
Definition same_tracker x x' : Prop :=
  xt_tablet_ids x' = xt_tablet_ids x ∧ xt_requests x' = xt_requests x ∧ xt_responses x' = xt_responses x.

Lemma maybe_commit_transaction_ok x c x' c' :
  maybe_commit_transaction x c = Return (x', c') → same_tracker x x' ∧ tcl_last c' = tcl_last c.
Proof using HL.
  intros H. unfold maybe_commit_transaction in H.
  destruct (xt_waiting_commit x); [by injection H as <- <-|].
  destruct (xt_transaction x) as [tx|]; [|by injection H as <- <-].
  apply bind_Return in H as (pending & _ & H). destruct pending; [by injection H as <- <-|].
  apply bind_Return in H as ([c1 tc] & Hc & H). injection H as <- <-. apply tcl_commit in Hc.
  by split.
Qed.

(** Replacing trackers by ones with the same requests. *)
Lemma store_inv_trackers k trackers :
  (∀ id, option_Forall2 same_tracker (kc_transaction_trackers k !! id) (trackers !! id)) →
  let k' := kc_with k (kc_table_accessor k) (kc_request_tracker k) (kc_tablet_trackers k) trackers in
  held_ids k' = held_ids k ∧ (store_inv k → store_inv k').
Proof using.
  intros Hsame k'.
  assert (∀ F : TransactionTracker Tx Tc → gmultiset Z, (∀ x x', same_tracker x x' → F x' = F x) →
    msum F trackers = msum F (kc_transaction_trackers k)) as Hsum.
  { intros F HF. clear k'. revert trackers Hsame. generalize (kc_transaction_trackers k) as m.
    induction m as [|i x m Hi IH] using map_ind; intros trackers Hsame.
    - replace trackers with (∅ : gmap Z (TransactionTracker Tx Tc)); [done|].
      apply map_eq. intros id. specialize (Hsame id). rewrite lookup_empty in *. by inversion Hsame.
    - pose proof (Hsame i) as Hi'. rewrite lookup_insert_eq in Hi'.
      inversion Hi' as [? x' Hx Heq1 Heq2|]; subst. symmetry in Heq2.
      rewrite (msum_delete F _ _ _ Heq2), msum_insert by done. rewrite (HF _ _ Hx). f_equal.
      apply IH. intros id. specialize (Hsame id). destruct (decide (i = id)) as [<-|].
      + rewrite lookup_delete_eq, Hi. constructor.
      + rewrite lookup_insert_ne in Hsame by done. by rewrite lookup_delete_ne. }
  split.
  - unfold held_ids, processed_ids. simpl. rewrite Hsum; [done|]. by intros y y' (_ & -> & _).
  - intros [Hc Hr Hp Ha Hb Ht].
    assert (busy_tablets k' = busy_tablets k) as Hbusy.
    { apply Hsum. by intros y y' (-> & _ & _). }
    split; rewrite ?Hbusy; [done..| |done|done].
    intros id y' Hy'. simpl in Hy'. specialize (Hsame id). rewrite Hy' in Hsame.
    inversion Hsame as [y ? (_ & E2 & E3) Hy Heq|]; subst.
    rewrite E2, E3. by eapply Ha.
Qed.

Lemma same_tracker_refl x : same_tracker x x.
Proof using. done. Qed.

Lemma commit_loop_ok l trackers c trackers' c' :
  ofold commit_one (trackers, c) l = Return (trackers', c') →
  NoDup l.*1 → (∀ i x, (i, x) ∈ l → trackers !! i = Some x) →
  (∀ id, option_Forall2 same_tracker (trackers !! id) (trackers' !! id)) ∧ tcl_last c' = tcl_last c.
Proof using HL.
  revert trackers c. induction l as [|[i x] l IH]; intros trackers c H Hn Hl; cbn [ofold] in H.
  { injection H as <- <-. split; [|done]. intros id. destruct (trackers !! id); by constructor. }
  apply bind_Return in H as ([trackers1 c1] & H1 & H). unfold commit_one in H1.
  apply bind_Return in H1 as ([x1 c2] & H1 & Heq). injection Heq as <- <-. simpl in H1.
  apply maybe_commit_transaction_ok in H1 as [Hsame Hl1]. apply NoDup_cons in Hn as [Hi Hn].
  apply IH in H as [Hall Hl2]; [|done|].
  - split; [|by rewrite Hl2]. intros id. specialize (Hall id).
    destruct (decide (i = id)) as [<-|].
    + rewrite lookup_insert_eq in Hall. rewrite (Hl i x) by by left.
      inversion Hall as [? x2 (E1 & E2 & E3) Hx2 Heq|]; subst. constructor.
      destruct Hsame as (F1 & F2 & F3). split_and!; congruence.
    + by rewrite lookup_insert_ne in Hall.
  - intros j y Hj. rewrite lookup_insert_ne; [apply Hl; by right|].
    intros ->. destruct Hi. by apply (list_elem_of_fmap_2 fst) in Hj.
Qed.

Lemma maybe_commit_transactions_ok k c k' c' :
  store_inv k → started k c → maybe_commit_transactions k c = Return (k', c') →
  store_inv k' ∧ held_ids k' = held_ids k ∧ tcl_last c' = tcl_last c ∧ started k' c'.
Proof using HL.
  intros Hk Hs H. unfold maybe_commit_transactions in H.
  apply bind_Return in H as ([trackers c1] & H & Heq). injection Heq as <- <-.
  apply commit_loop_ok in H as [Hall Hlast].
  2: { rewrite hash_iter_perm. apply NoDup_fst_map_to_list. }
  2: { intros i y Hin. by rewrite hash_iter_perm, elem_of_map_to_list in Hin. }
  destruct (store_inv_trackers k trackers Hall) as [Hids Hinv]. split_and!; [auto|done|done|].
  intros id Hid. rewrite Hlast. apply Hs. simpl in Hid. destruct Hid as [y' Hy']. specialize (Hall id).
  rewrite Hy' in Hall. inversion Hall; subst. by eexists.
Qed.

(** What the loop over completed transactions keeps: nothing is lost but the requests of
    failed transactions. *)
Record finalizing (m0 m : gmap Z (TransactionTracker Tx Tc)) (responses : list KeyValueResponse)
    (f : Finalized) : Prop := {
  fi_ids : msum (λ x, rids (xt_requests x)) m ⊎ aids (fz_responses f) ⊎ rids (fz_failed_requests f)
    = msum (λ x, rids (xt_requests x)) m0 ⊎ aids responses;
  fi_tablets : msum (λ x, ids_of id (xt_tablet_ids x)) m ⊎ ids_of id (fz_affected_tablet_ids f)
    = msum (λ x, ids_of id (xt_tablet_ids x)) m0;
  fi_answers id x : m !! id = Some x → response_id <$> xt_responses x = request_id <$> xt_requests x;
  fi_dom id : is_Some (m !! id) → is_Some (m0 !! id)
}.

Lemma answers_ids x :
  response_id <$> xt_responses x = request_id <$> xt_requests x →
  aids (xt_responses x) = rids (xt_requests x).
Proof using. intros H. unfold ids_of. by rewrite H. Qed.

Lemma finalizing_step m0 m responses f i x c x' f' c' completed :
  finalizing m0 m responses f → m !! i = Some x →
  maybe_finalize_transaction x f c = Return (x', f', c', completed) →
  tcl_last c' = tcl_last c ∧
  finalizing m0 (if completed then delete i m else <[i := x']> m) responses f'.
Proof using HL.
  intros [Fi Ft Fa Fd] Hx H. unfold maybe_finalize_transaction in H.
  assert (∀ x1, same_tracker x x1 → finalizing m0 (<[i := x1]> m) responses f) as Hkeep.
  { intros x1 (E1 & E2 & E3). split.
    - rewrite (msum_same _ m i x) by (simpl; by rewrite ?E2). done.
    - rewrite (msum_same _ m i x) by (simpl; by rewrite ?E1). done.
    - intros id y [[<- <-]|[_ Hy]]%lookup_insert_Some; [|by eapply Fa].
      rewrite E2, E3. by eapply Fa.
    - intros id [y [[<- _]|[_ Hy]]%lookup_insert_Some]; apply Fd; by eexists. }
  destruct (xt_waiting_commit x) as [tc|].
  2: { injection H as <- <- <- <-. split; [done|]. by apply Hkeep. }
  apply bind_Return in H as ([[c1 tc1] o] & Hc & H). apply tcl_check in Hc.
  destruct o as [o|]; [|injection H as <- <- <- <-; split; [done|]; by apply Hkeep].
  injection H as <- <- <- <-. split; [done|].
  rewrite (msum_delete _ m i x Hx) in Fi. rewrite (msum_delete _ m i x Hx) in Ft. simpl in Fi, Ft.
  split; simpl.
  - rewrite !ids_of_app. pose proof (answers_ids x (Fa i x Hx)) as Hans.
    rewrite <- Fi. clear -Hans. case_bool_decide; rewrite ?Hans;
      (assert (rids [] = ∅) as -> by done) || (assert (aids [] = ∅) as -> by done);
      generalize (msum (λ x, rids (xt_requests x)) (delete i m)) (aids (fz_responses f))
        (rids (fz_failed_requests f)) (rids (xt_requests x)); intros; multiset_solver.
  - rewrite ids_of_app. multiset_solver.
  - intros id y [_ Hy]%lookup_delete_Some. by eapply Fa.
  - intros id [y [_ Hy]%lookup_delete_Some]. apply Fd. by eexists.
Qed.

Lemma finalize_loop_ok l m0 trackers responses f completed c trackers' f' completed' c' :
  ofold finalize_one (trackers, f, completed, c) l = Return (trackers', f', completed', c') →
  finalizing m0 (remaining trackers completed) responses f → NoDup l.*1 →
  (∀ i x, (i, x) ∈ l → trackers !! i = Some x ∧ i ∉ completed) →
  finalizing m0 (remaining trackers' completed') responses f' ∧ tcl_last c' = tcl_last c.
Proof using HL.
  revert trackers f completed c. induction l as [|[i x] l IH];
    intros trackers f completed c H Hf Hn Hl; cbn [ofold] in H.
  { by injection H as <- <- <- <-. }
  apply bind_Return in H as ([[[trackers1 f1] completed1] c1] & H1 & H). unfold finalize_one in H1.
  apply bind_Return in H1 as ([[[x1 f2] c2] done_] & H1 & Heq). injection Heq as <- <- <- <-.
  simpl in H1. destruct (Hl i x) as [Hx Hi]; [by left|]. apply NoDup_cons in Hn as [Hil Hn].
  apply (finalizing_step m0 (remaining trackers completed) responses f i) in H1 as [Hlast Hf1].
  2: done.
  2: { by rewrite remaining_lookup, decide_False. }
  assert (finalizing m0 (remaining (<[i := x1]> trackers)
    (if done_ then completed ++ [i] else completed)) responses f2) as Hf2.
  { destruct done_; [|by rewrite remaining_insert].
    rewrite foldl_app, remaining_insert by done. simpl. by rewrite delete_insert_eq. }
  apply IH in H as [? Hlast']; [split; [done|congruence]|done|done|].
  intros j y Hj. destruct (Hl j y) as [Hy Hjc]; [by right|].
  assert (i ≠ j) as Hne. { intros ->. destruct Hil. by apply (list_elem_of_fmap_2 fst) in Hj. }
  split; [by rewrite lookup_insert_ne|]. destruct done_; [|done].
  rewrite elem_of_app, list_elem_of_singleton. intros [?|?]; [done|congruence].
Qed.

Lemma maybe_finalize_ok k c k' c' :
  store_inv k → started k c → maybe_finalize_or_retry_transactions k c = Return (k', c') →
  store_inv k' ∧ held_ids k' ⊆ held_ids k ∧ tcl_last c' = tcl_last c ∧ started k' c'.
Proof using HL.
  intros [Hc Hr Hp Ha Hb Ht] Hs H. unfold maybe_finalize_or_retry_transactions in H.
  apply bind_Return in H as ([[[trackers f] completed] c1] & H & Heq). injection Heq as <- <-.
  apply (finalize_loop_ok _ (kc_transaction_trackers k) _ (kc_responses k)) in H as [[Fi Ft Fa Fd] Hlast].
  2: { split; simpl; [|..|done|done].
       - assert (rids [] = ∅) as -> by done. multiset_solver.
       - assert (ids_of id [] = ∅) as -> by done. multiset_solver. }
  2: { rewrite hash_iter_perm. apply NoDup_fst_map_to_list. }
  2: { intros i y Hin. rewrite hash_iter_perm, elem_of_map_to_list in Hin.
       split; [done|apply not_elem_of_nil]. }
  destruct (complete_tablets_ok (fz_affected_tablet_ids f) (kc_tablet_trackers k)) as (Cid & Cb & Ct).
  split_and!.
  - assert (∀ tid, multiplicity tid (busy_tablets k)
      = (multiplicity tid (msum (λ x, ids_of id (xt_tablet_ids x)) (remaining trackers completed))
         + multiplicity tid (ids_of id (fz_affected_tablet_ids f)))%nat) as Hbusy.
    { intros tid. unfold busy_tablets. rewrite <- Ft. apply multiplicity_disj_union. }
    split; simpl; [done|done|by apply Cb|exact Fa|..].
    + intros tid. specialize (Hb tid). rewrite Hbusy in Hb. unfold busy_tablets. simpl. lia.
    + intros tid. rewrite Ct, <- Ht, !elem_of_multiplicity, Hbusy.
      assert (tid ∈ fz_affected_tablet_ids f ↔
        (0 < multiplicity tid (ids_of id (fz_affected_tablet_ids f)))%nat) as ->.
      { by rewrite <- elem_of_multiplicity, ids_of_elem, list_fmap_id. }
      unfold busy_tablets. simpl. specialize (Hb tid). rewrite Hbusy in Hb. lia.
  - unfold held_ids, store_waiting_ids, processed_ids. simpl. rewrite Cid.
    transitivity (rids (rt_pending_requests (kc_request_tracker k))
      ⊎ msum rids (rt_waiting_resolution_requests (kc_request_tracker k))
      ⊎ msum tracker_ids (kc_tablet_trackers k)
      ⊎ (msum (λ x, rids (xt_requests x)) (remaining trackers completed)
         ⊎ aids (fz_responses f) ⊎ rids (fz_failed_requests f))).
    + multiset_solver.
    + rewrite Fi. multiset_solver.
  - done.
  - intros id Hid. simpl in Hid. rewrite Hlast. by apply Hs, Fd.
Qed.

(** ** Runs of the store *)

(** Enough query ids for one call. *)
Definition query_room k : Prop :=
  ta_query_counter (kc_table_accessor k) + Z.of_nat (size (kc_tablet_trackers k)) + 1 < two64.

#[global] Instance query_room_dec k : Decision (query_room k).
Proof using. unfold query_room. apply _. Defined.

Lemma store_make_progress_ok (w : StoreCell Tx Tc) instant c w' c' :
  query_room (st_core w) → 0 ≤ tcl_last c < two64 - 1 → store_inv (st_core w) → started (st_core w) c →
  store_make_progress hash_key w instant c = Return (w', c') →
  store_inv (st_core w') ∧ held_ids (st_core w') ⊆ held_ids (st_core w) ∧
  tcl_last c ≤ tcl_last c' ∧ started (st_core w') c'.
Proof using HL.
  unfold query_room. intros Hroom Hlast Hk Hs H. unfold store_make_progress, with_borrow in H.
  destruct (st_borrowed w); [done|]. apply bind_Return in H as ([k4 c4] & H & Heq).
  injection Heq as <- <-. simpl. set (k := st_core w) in *.
  apply bind_Return in H as ([k1 c1] & H1 & H). apply bind_Return in H as ([k2 c2] & H2 & H).
  apply bind_Return in H as ([k3 c3] & H3 & H4).
  apply maybe_resolve_tablets_ok in H1 as (I1 & E1 & L1 & T1 & Tt1 & Q1); [|lia|done].
  apply maybe_start_transaction_ok in H2 as (I2 & E2 & L2 & S2); [|rewrite Tt1; lia|lia|done|].
  2: { intros id Hid. rewrite T1 in Hid. rewrite L1. by apply Hs. }
  apply maybe_commit_transactions_ok in H3 as (I3 & E3 & L3 & S3); [|done..].
  apply maybe_finalize_ok in H4 as (I4 & E4 & L4 & S4); [|done..].
  split_and!; [done| |lia|done]. by rewrite E4, E3, E2, E1.
Qed.

(** The calls on a store and its context, with the ids of the requests that were accepted
    and of the responses that were handed out so far.  The handlers may be called with
    anything at any time, and the context may change as it likes as long as it does not
    forget transactions. *)
Inductive store_run : StoreCell Tx Tc → X → gmultiset Z → gmultiset Z → Prop :=
| RunStart w0 c config w :
    store_init w0 config = Return w → w0 = simple_store_create → 0 ≤ tcl_last c →
    store_run w c ∅ ∅
| RunRequest w c accepted released request w' :
    store_run w c accepted released → store_process_request w request = Return w' →
    store_run w' c ({[+ request_id request +]} ⊎ accepted) released
| RunResponses w c accepted released w' responses :
    store_run w c accepted released → store_take_responses w = Return (w', responses) →
    store_run w' c accepted (aids responses ⊎ released)
| RunProgress w c accepted released instant w' c' :
    store_run w c accepted released → query_room (st_core w) → tcl_last c < two64 - 1 →
    store_make_progress hash_key w instant c = Return (w', c') →
    store_run w' c' accepted released
| RunResolved w c accepted released results w' :
    store_run w c accepted released → resolve_handler results w = Return w' →
    store_run w' c accepted released
| RunProcess w c accepted released transaction_id results w' tablets :
    store_run w c accepted released →
    process_handler hash_key transaction_id results w = Return (w', tablets) →
    store_run w' c accepted released
| RunContext w c accepted released c' :
    store_run w c accepted released → tcl_last c ≤ tcl_last c' → store_run w c' accepted released.

Lemma store_run_inv w c accepted released :
  store_run w c accepted released →
  store_inv (st_core w) ∧ started (st_core w) c ∧ 0 ≤ tcl_last c ∧
  held_ids (st_core w) ⊎ released ⊆ accepted.
Proof using HL.
  induction 1 as [w0 c config w H -> Hl|w c acc rel r w' _ IH H|w c acc rel w' rs _ IH H
    |w c acc rel instant w' c' _ IH Hroom Hlast H|w c acc rel res w' _ IH H
    |w c acc rel tid res w' tabs _ IH H|w c acc rel c' _ IH H].
  - injection H as <-. simpl. split_and!; [| |done|].
    + destruct store_core_new_inv as [Hc Hr Hp Ha Hb Ht]. by split.
    + intros id [? Hid]. simpl in Hid. by rewrite lookup_empty in Hid.
    + unfold held_ids, store_waiting_ids, processed_ids. simpl. rewrite !msum_empty. done.
  - destruct IH as (Hk & Hs & Hl & Hids). unfold store_process_request, with_borrow in H.
    destruct (st_borrowed w); [done|]. injection H as <-. simpl. split_and!; [|done..|].
    + by apply append_request_inv.
    + rewrite append_request_ids. multiset_solver.
  - destruct IH as (Hk & Hs & Hl & Hids). unfold store_take_responses, with_borrow in H.
    destruct (st_borrowed w); [done|]. injection H as <- <-. simpl. split_and!; [by destruct Hk|done..|].
    unfold held_ids, store_waiting_ids, processed_ids in *. simpl. assert (aids [] = ∅) as -> by done.
    multiset_solver.
  - destruct IH as (Hk & Hs & Hl & Hids).
    apply store_make_progress_ok in H as (I & E & L & S); [|done..]. split_and!; [done..|lia|].
    transitivity (held_ids (st_core w) ⊎ rel); [multiset_solver|done].
  - destruct IH as (Hk & Hs & Hl & Hids). unfold resolve_handler, with_borrow in H.
    destruct (st_borrowed w); [done|]. injection H as <-. simpl.
    destruct (handle_query_resolve_ok (st_core w) res) as [Hr Hi]. split_and!; [auto| |done|by rewrite Hr].
    intros id Hid. apply Hs. revert Hid. clear. revert id.
    generalize (st_core w) as k. unfold handle_query_resolve.
    induction res as [|[q d] res IH]; intros k id; simpl; [done|]. intros ?%IH. done.
  - destruct IH as (Hk & Hs & Hl & Hids). unfold process_handler, with_borrow in H.
    destruct (st_borrowed w); [done|]. apply bind_Return in H as ([k1 tabs1] & H & Heq).
    injection Heq as <- <-. apply handle_query_process_ok in H as (Hr & Hi & Hd & _). simpl.
    split_and!; [auto| |done|by rewrite Hr]. intros id Hid. apply Hs. apply elem_of_dom.
    rewrite <- Hd. by apply elem_of_dom.
  - destruct IH as (Hk & Hs & Hl & Hids). split_and!; [done| |lia|done].
    intros id Hid. specialize (Hs id Hid). lia.
Qed.

(** A tablet is listed by one transaction only. *)
Lemma busy_unique k i j x y tablet_id :
  store_inv k → kc_transaction_trackers k !! i = Some x → kc_transaction_trackers k !! j = Some y →
  tablet_id ∈ xt_tablet_ids x → tablet_id ∈ xt_tablet_ids y → i = j.
Proof using.
  intros Hk Hx Hy Hxt Hyt. destruct (decide (i = j)) as [|Hne]; [done|exfalso].
  pose proof (si_busy k Hk tablet_id) as Hb. unfold busy_tablets in Hb.
  rewrite (msum_delete _ _ i x Hx) in Hb. rewrite (msum_delete _ _ j y) in Hb.
  2: { by rewrite lookup_delete_ne. }
  rewrite !multiplicity_disj_union in Hb.
  assert (∀ l, tablet_id ∈ l → (0 < multiplicity tablet_id (ids_of id l))%nat) as Hpos.
  { intros l Hl. by rewrite <- elem_of_multiplicity, ids_of_elem, list_fmap_id. }
  pose proof (Hpos _ Hxt). pose proof (Hpos _ Hyt). lia.
Qed.

(** * Claims *)

(** Requests are answered at most once.  Whatever the calls, the handlers and the
    transaction context do, every request that the store holds, every response that is
    ready and every response that was handed out belongs to an accepted request, each of
    them once; in a transaction the responses answer its requests in order. *)
Theorem requests_answered_once w c accepted released :
  store_run w c accepted released →
  held_ids (st_core w) ⊎ released ⊆ accepted ∧
  (∀ id x, kc_transaction_trackers (st_core w) !! id = Some x →
     response_id <$> xt_responses x = request_id <$> xt_requests x).
Proof using HL.
  intros (Hk & _ & _ & Hids)%store_run_inv. split; [done|]. intros id x. by apply si_answers.
Qed.

(** A tablet has one transaction.  Whatever the calls, the handlers and the context do,
    no tablet is in two transactions of the store, and the store knows that a tablet has a
    transaction exactly when it is in one. *)
Theorem one_transaction_per_tablet w c accepted released :
  store_run w c accepted released →
  let k := st_core w in
  (∀ i j x y tablet_id,
     kc_transaction_trackers k !! i = Some x → kc_transaction_trackers k !! j = Some y →
     tablet_id ∈ xt_tablet_ids x → tablet_id ∈ xt_tablet_ids y → i = j) ∧
  (∀ tablet_id, (∃ t, kc_tablet_trackers k !! tablet_id = Some t ∧ tt_has_transaction t = true) ↔
     ∃ i x, kc_transaction_trackers k !! i = Some x ∧ tablet_id ∈ xt_tablet_ids x).
Proof using HL.
  intros (Hk & _)%store_run_inv k. split; [intros i j x y tid; by apply busy_unique|].
  intros tid. etrans; [symmetry; apply (si_transaction _ Hk tid)|]. unfold busy_tablets. rewrite msum_elem.
  split; intros (i & x & Hi & Hx); exists i, x; (split; [done|]); revert Hx;
    by rewrite ids_of_elem, list_fmap_id.
Qed.
End progress.

(** A transaction runs its requests one by one.  Processing a query on a tablet takes
    the requests that wait for it and that it covers, answers them in order as on a map,
    writes the resulting map to the tablet exactly when one of them is a put, and keeps
    the other requests. *)
Theorem requests_run_sequentially t q tablet contents dict requests :
  tb_contents tablet = Some contents → proto_decode contents = Some {| tcn_dictionary := dict |} →
  tt_waiting_processing_requests t !! tq_query_id q = Some requests →
  let batch := filter (covered hash_key q) requests in
  let '(dict', responses) := kv_run dict batch in
  ∃ t' tablet',
    process_table_query hash_key t q tablet = Return (t', tablet', zip batch responses) ∧
    length responses = length batch ∧
    tt_waiting_processing_requests t' !! tq_query_id q
      = Some (filter (λ r, ¬ covered hash_key q r) requests) ∧
    (∀ id, id ≠ tq_query_id q →
       tt_waiting_processing_requests t' !! id = tt_waiting_processing_requests t !! id) ∧
    if existsb is_put batch
    then ∃ c, tablet' = tablet_set_contents c tablet ∧ proto_decode c = Some {| tcn_dictionary := dict' |}
    else tablet' = tablet ∧ dict' = dict.
Proof using.
  intros Hc Hd Hr batch. pose proof (process_table_query_run hash_key t q tablet _ _ _ Hc Hd Hr) as H.
  cbv zeta in H. fold batch in H. pose proof (kv_run_length dict batch) as Hlen.
  pose proof (kv_run_reads dict batch) as Hreads.
  destruct (kv_run dict batch) as [dict' responses]. eexists _, _. split; [exact H|]. simpl.
  split_and!; [done|by rewrite lookup_insert_eq|by intros id Hid; rewrite lookup_insert_ne|].
  destruct (existsb is_put batch); [|auto]. eexists. split; [done|]. apply proto_decode_encode.
Qed.

(** ** What modelling showed *)

(** The threshold for a transaction is never configured, so that an idle tablet without
    requests starts a transaction over no keys. *)
Lemma idle_tablet_starts_transaction t a :
  tt_min_pending t = 0 → tt_has_transaction t = false → tt_pending_requests t = [] →
  ∃ t' a' q, collect_process_queries hash_key t a = (t', a', Some q) ∧
    tq_key_hashes q = ∅ ∧ tt_has_transaction t' = true.
Proof using.
  intros Hm Ht Hp. unfold collect_process_queries. rewrite Hm, Hp, decide_True, Ht by (simpl; lia).
  by eexists _, _, _.
Qed.

Lemma process_threshold_unset config (w w' : StoreCell Tx Tc) results id t :
  store_init simple_store_create config = Return w → resolve_handler results w = Return w' →
  kc_tablet_trackers (st_core w') !! id = Some t → tt_min_pending t = 0.
Proof using.
  intros [= <-] H. unfold resolve_handler, with_borrow in H. simpl in H. injection H as <-. simpl.
  set (k := store_core_init store_core_new config). 
  assert (sc_min_pending_before_process (kc_config k) = 0 ∧
    ∀ id t, kc_tablet_trackers k !! id = Some t → tt_min_pending t = 0) as Hk.
  { split; [done|]. intros i u Hu. simpl in Hu. by rewrite lookup_empty in Hu. }
  revert Hk. generalize k. clear k. unfold handle_query_resolve. revert id t.
  induction results as [|[q d] results IH]; intros id t k [Hc Hk] Hi; simpl in Hi; [by eapply Hk|].
  eapply IH; [|exact Hi]. split; [done|]. simpl. intros i u [[<- <-]|[_ Hu]]%lookup_insert_Some; [|by eapply Hk].
  simpl. destruct (kc_tablet_trackers k !! td_tablet_id d) eqn:E; simpl; [by eapply Hk|done].
Qed.

(** Making progress while the context can resolve at once panics: the handler enters the
    core that [make_progress] has borrowed. *)
Lemma resolved_at_once_panics results (k : SimpleKeyValueStoreCore Tx Tc) :
  resolve_handler results {| st_core := k; st_borrowed := true |} = Panic.
Proof using. done. Qed.
End store.

(** ** Concrete instances *)

#[local] Instance kv_order : HashOrder Z := default_hash_order Z.

#[local] Instance TabletContents_eq_dec : EqDecision TabletContents.
Proof. solve_decision. Defined.

#[local] Instance TabletContents_countable : Countable TabletContents.
Proof.
  apply (inj_countable' tcn_dictionary (λ d, {| tcn_dictionary := d |})). by intros [].
Defined.

#[local] Instance contents_codec : ProtoCodec TabletContents := countable_codec _.

Definition sample_hash (key : string) : Z := Z.of_nat (String.length key).

(** A context that numbers transactions and commits them once it is ready. *)
Record ToyContext := { toy_last : Z; toy_ready : bool }.

#[local] Instance toy_context : TabletTransactionContext (StoreCell Z Z) bytes ToyContext Z Z :=
  {| tci_resolve c w _ _ := Return (c, w);
     tci_start_transaction c :=
       Return ({| toy_last := toy_last c + 1; toy_ready := toy_ready c |}, toy_last c + 1);
     txi_get_id t := t;
     txi_process c t _ _ := Return (c, t);
     txi_has_pending_process c _ := Return (negb (toy_ready c));
     txi_commit c t := Return (c, t);
     txi_abort c _ := Return c;
     txi_check_result c t := Return (c, t, Some TransactionSucceeded) |}.

#[local] Instance toy_context_laws : TransactionContextLaws (X:=ToyContext).
Proof.
  refine {| tcl_last := toy_last |}.
  - intros c w qs h c' w' [= <- <-]. by split; [|left].
  - intros c c' tx _ [= <- <-]. simpl. lia.
  - by intros c tx qs h c' tx' [= <- <-].
  - by intros c tx c' tc [= <- <-].
  - by intros c tc c' tc' o [= <- <- _].
Defined.

Definition toy_waiting : ToyContext := {| toy_last := 0; toy_ready := false |}.

Definition toy_context_started : ToyContext := {| toy_last := 1; toy_ready := false |}.

Definition toy_finished : ToyContext := {| toy_last := 1; toy_ready := true |}.

Definition sample_put : KeyValueRequest := PutRequest 1 {| pkq_key := "k"; pkq_value := [] |}.

Definition sample_get : KeyValueRequest := GetRequest 2 {| gkq_key := "k" |}.

Definition sample_kv_tablet : Tablet bytes :=
  tablet_create_with_contents (default_tablet 10) (proto_encode {| tcn_dictionary := ∅ |}).

(** A put and a get of one key, up to the responses. *)
Definition sample_kv_steps : list (StoreCell Z Z → outcome (StoreCell Z Z)) :=
  [ λ w, store_process_request w sample_put;
    λ w, store_process_request w sample_get;
    λ w, '(w, _) ← store_make_progress sample_hash w 1 toy_waiting; Return w;
    resolve_handler [(table_query_create 1 "A" [1], {| td_tablet_id := 10; td_cache_ready := true |})];
    λ w, '(w, _) ← store_make_progress sample_hash w 2 toy_waiting; Return w;
    λ w, '(w, _) ← process_handler sample_hash 1 [(table_query_create 2 "A" [1], sample_kv_tablet)] w;
         Return w;
    λ w, '(w, _) ← store_make_progress sample_hash w 3 toy_finished; Return w ].

Definition sample_store_at (n : nat) : StoreCell Z Z :=
  match (w ← store_init simple_store_create
              {| sc_table_name := "A"; sc_min_pending_before_resolve := 1;
                 sc_min_pending_before_process := 1 |};
         ofold (λ w f, f w) w (take n sample_kv_steps)) with
  | Return w => w | Panic => simple_store_create
  end.

Definition sample_taken : StoreCell Z Z * list KeyValueResponse :=
  match store_take_responses (sample_store_at 7) with
  | Return x => x | Panic => (simple_store_create, [])
  end.

Lemma sample_store_run :
  store_run sample_hash (sample_store_at 5) toy_context_started ({[+ 2 +]} ⊎ ({[+ 1 +]} ⊎ ∅)) ∅.
Proof.
  apply (RunProgress _ (sample_store_at 4) toy_waiting _ _ 2); [|by vm_compute|done|by vm_compute].
  apply (RunResolved _ (sample_store_at 3) _ _ _
    [(table_query_create 1 "A" [1], {| td_tablet_id := 10; td_cache_ready := true |})]); [|by vm_compute].
  apply (RunProgress _ (sample_store_at 2) toy_waiting _ _ 1); [|by vm_compute|done|by vm_compute].
  apply (RunRequest _ (sample_store_at 1) _ _ _ sample_get); [|by vm_compute].
  apply (RunRequest _ (sample_store_at 0) _ _ _ sample_put); [|by vm_compute].
  by eapply RunStart; [|done|].
Qed.

(** The transaction of tablet 10 is the only one. *)
Lemma one_transaction_per_tablet_witness :
  ∃ i x, kc_transaction_trackers (st_core (sample_store_at 5)) !! i = Some x ∧ 10 ∈ xt_tablet_ids x.
Proof.
  destruct (one_transaction_per_tablet sample_hash (sample_store_at 5) toy_context_started
    ({[+ 2 +]} ⊎ ({[+ 1 +]} ⊎ ∅)) ∅ sample_store_run) as [_ H].
  apply H. destruct (kc_tablet_trackers (st_core (sample_store_at 5)) !! 10) as [t|] eqn:E;
    [|by vm_compute in E].
  exists t. split; [done|]. vm_compute in E. by injection E as <-.
Defined.

(** Both requests are answered and nothing else is left. *)
Lemma requests_answered_once_witness :
  sample_taken.2 = [PutResponse 1 {| pkr_existed := false |};
                    GetResponse 2 {| gkr_existed := true; gkr_value := [] |}] ∧
  held_ids (st_core sample_taken.1) ⊎ (aids sample_taken.2 ⊎ ∅) ⊆ {[+ 2 +]} ⊎ ({[+ 1 +]} ⊎ ∅).
Proof.
  split; [by vm_compute|].
  apply (requests_answered_once sample_hash sample_taken.1 toy_finished).
  apply (RunResponses _ (sample_store_at 7)); [|by vm_compute].
  apply (RunProgress _ (sample_store_at 6) toy_finished _ _ 3); [|by vm_compute|done|by vm_compute].
  apply (RunContext _ _ toy_context_started); [|done].
  apply (RunProcess _ (sample_store_at 5) _ _ _ 1 [(table_query_create 2 "A" [1], sample_kv_tablet)]
    _ (match process_handler sample_hash 1 [(table_query_create 2 "A" [1], sample_kv_tablet)]
               (sample_store_at 5) with Return (_, tablets) => tablets | Panic => [] end)).
  - apply sample_store_run.
  - by vm_compute.
Defined.

Definition sample_tracker : TabletTracker :=
  {| tt_min_pending := 0; tt_has_transaction := true; tt_pending_requests := [];
     tt_waiting_processing_requests := {[ 2 := [sample_put; sample_get] ]} |}.

Lemma requests_run_sequentially_witness :
  ∃ t' tablet',
    process_table_query sample_hash sample_tracker (table_query_create 2 "A" [1]) sample_kv_tablet
    = Return (t', tablet',
        [(sample_put, PutResponse 1 {| pkr_existed := false |});
         (sample_get, GetResponse 2 {| gkr_existed := true; gkr_value := [] |})]).
Proof.
  destruct (requests_run_sequentially sample_hash sample_tracker (table_query_create 2 "A" [1])
    sample_kv_tablet (proto_encode {| tcn_dictionary := ∅ |}) ∅ [sample_put; sample_get])
    as (t' & tablet' & H & _); [done|apply proto_decode_encode|done|].
  exists t', tablet'. exact H.
Defined.

(** A query over two tablets: its requests all go to the tablet of the first result, and
    the one that belongs to the second tablet is never answered. *)
Example spanning_query_starves :
  let q := table_query_create 1 "A" [1; 2] in
  let get id key := GetRequest id {| gkq_key := key |} in
  let k := kc_with store_core_new (table_accessor_create "A")
    {| rt_min_pending := 0; rt_pending_requests := [];
       rt_waiting_resolution_requests := {[ 1 := [get 7 "k"; get 8 "kk"] ]} |} ∅ ∅ in
  let k' := handle_query_resolve (Tx:=Z) (Tc:=Z)
    [ (table_query_create_from q [1], {| td_tablet_id := 10; td_cache_ready := true |});
      (table_query_create_from q [2], {| td_tablet_id := 20; td_cache_ready := true |}) ] k in
  (tt_pending_requests <$> kc_tablet_trackers k' !! 10) = Some [get 7 "k"; get 8 "kk"] ∧
  (tt_pending_requests <$> kc_tablet_trackers k' !! 20) = Some [].
Proof. by vm_compute. Qed.
