(* ===== verification/CacheActor.v ===== *)
(** * The tablet cache actor

    [src/apps/tablet_cache/service/src/actor.rs]: commands are handed to the key-value
    store or to the transaction manager, and what both have to send becomes the commands
    of the outcome; [app/src/main.rs] puts the parts together. *)

From S2P Require Import Prelude Model TabletStore CacheTypes MetadataCache DataCache Coordinator.
From S2P Require Import Manager KvStore.

(** ** Messages *)

Inductive TabletCacheInMsg :=
| CachePutKeyRequest (request : PutKeyRequest)
| CacheGetKeyRequest (request : GetKeyRequest)
| CacheLoadTabletResponse (response : LoadTabletResponse)
| CacheStoreTabletResponse (response : StoreTabletResponse)
| CacheExecuteTabletOpsResponse
| CacheExecuteTabletOpsError (error : ExecuteTabletOpsFailure).

Record TabletCacheInMessage := { tci_in_msg : option TabletCacheInMsg }.

Inductive TabletCacheOutMsg :=
| CachePutKeyResponse (response : PutKeyResponse)
| CacheGetKeyResponse (response : GetKeyResponse)
| CacheLoadTabletRequest (request : LoadTabletRequest)
| CacheStoreTabletRequest (request : StoreTabletRequest)
| CacheExecuteTabletOpsRequest (request : ExecuteTabletOpsRequest).

Record TabletCacheOutMessage := { tco_out_msg : option TabletCacheOutMsg }.

Record TabletCacheConfig := {
  tcc_transaction_manager_config : option TransactionManagerConfig;
  tcc_store_config : option StoreConfig
}.

(** ** The actor

    [X] is the transaction manager and [W] the key-value store, whose core the handlers
    of the manager share. *)

Section actor.
Context {X W : Type} `{HX : !TabletTransactionManager W X, HW : !KeyValueStore X W}.
Context `{HOut : !ProtoCodec TabletCacheOutMessage, HReq : !ProtoCodec TabletsRequest,
  HResp : !ProtoCodec TabletsResponse}.
Variable config_decode : bytes → option TabletCacheConfig.
Variable in_message_decode : bytes → option TabletCacheInMessage.

Record TabletCacheActor := {
  tca_transaction_manager : X;
  tca_key_value_store : W;
  tca_context : bool
}.

Definition tablet_cache_new (transaction_manager : X) (key_value_store : W) : TabletCacheActor :=
  {| tca_transaction_manager := transaction_manager; tca_key_value_store := key_value_store;
     tca_context := false |}.

Definition cache_get_context {E} : method TabletCacheActor E unit := λ s,
  if tca_context s then Returned (s, Ok ()) else Panicked.

(** A call on the store and the manager. *)
Definition on_parts {E} (f : W → X → outcome (W * X)) : method TabletCacheActor E unit :=
  s ← get_self;
  '(w, x) ← call (f (tca_key_value_store s) (tca_transaction_manager s));
  set_self {| tca_transaction_manager := x; tca_key_value_store := w; tca_context := tca_context s |}.

(** A command whose payload is the encoding of a message is built the same way. *)
Definition command_with_bytes (correlation_id : Z) (out_header : TabletCacheOutMsg)
    (out_payload : bytes) : ActorCommand :=
  command_with_header_and_payload correlation_id {| tco_out_msg := Some out_header |} out_payload.

Definition cache_on_init (ctx : ActorContext) : method TabletCacheActor ActorError unit :=
  s ← get_self;
  set_self {| tca_transaction_manager := tca_transaction_manager s;
              tca_key_value_store := tca_key_value_store s; tca_context := true |};;
  config ← try_ (ok_or (config_decode (ctx_config ctx)) ActorConfigLoading);
  store_config ← call (unwrap (tcc_store_config config));
  on_parts (λ w x, w ← kvs_init (X:=X) w store_config; Return (w, x));;
  manager_config ← call (unwrap (tcc_transaction_manager_config config));
  on_parts (λ w x, x ← tmi_init (W:=W) x manager_config; Return (w, x)).

Definition cache_on_shutdown (s : TabletCacheActor) : TabletCacheActor := s.

Definition cache_on_save_snapshot : method TabletCacheActor ActorError bytes := mret [].

Definition cache_on_load_snapshot (snapshot : bytes) : method TabletCacheActor ActorError unit :=
  mret ().

(** Hands a message to the manager. *)
Definition manager_message (message : TransactionInMessage)
    : method TabletCacheActor ActorError unit :=
  on_parts (λ w x, '(x, w) ← tmi_process_in_message x w message; Return (w, x)).

Definition process_in_msg (correlation_id : Z) (payload : bytes) (in_msg : TabletCacheInMsg)
    : method TabletCacheActor ActorError unit :=
  match in_msg with
  | CachePutKeyRequest request =>
      on_parts (λ w x, w ← kvs_process_request (X:=X) w (PutRequest correlation_id request);
                       Return (w, x))
  | CacheGetKeyRequest request =>
      on_parts (λ w x, w ← kvs_process_request (X:=X) w (GetRequest correlation_id request);
                       Return (w, x))
  | CacheLoadTabletResponse response =>
      manager_message (InLoadTabletResponse correlation_id response payload)
  | CacheStoreTabletResponse response =>
      manager_message (InStoreTabletResponse correlation_id response)
  | CacheExecuteTabletOpsResponse =>
      tablets_response ← call (unwrap (proto_decode payload));
      manager_message (InExecuteTabletOpsResponse correlation_id tablets_response)
  | CacheExecuteTabletOpsError error =>
      manager_message (InExecuteTabletOpsError correlation_id error)
  end.

Definition transaction_command (m : TransactionOutMessage) : ActorCommand :=
  match m with
  | OutLoadTabletRequest correlation_id request =>
      command_with_bytes correlation_id (CacheLoadTabletRequest request) []
  | OutStoreTabletRequest correlation_id request payload =>
      command_with_bytes correlation_id (CacheStoreTabletRequest request) payload
  | OutExecuteTabletOpsRequest correlation_id request tablets_request =>
      command_with_bytes correlation_id (CacheExecuteTabletOpsRequest request)
        (proto_encode tablets_request)
  end.

(** The payload is the encoding of no bytes, which is empty. *)
Definition store_command (r : KeyValueResponse) : ActorCommand :=
  match r with
  | PutResponse correlation_id put_response =>
      command_with_bytes correlation_id (CachePutKeyResponse put_response) []
  | GetResponse correlation_id get_response =>
      command_with_bytes correlation_id (CacheGetKeyResponse get_response) []
  end.

(** Takes the messages of the manager and the responses of the store. *)
Definition take_commands : method TabletCacheActor ActorError (list ActorCommand) :=
  s ← get_self;
  '(x, messages) ← call (tmi_take_out_messages (W:=W) (tca_transaction_manager s));
  '(w, responses) ← call (kvs_take_responses (X:=X) (tca_key_value_store s));
  set_self {| tca_transaction_manager := x; tca_key_value_store := w;
              tca_context := tca_context s |};;
  mret ((transaction_command <$> messages) ++ (store_command <$> responses)).

Definition cache_on_process_command (ctx : ActorContext) (command : option ActorCommand)
    : method TabletCacheActor ActorError CommandOutcome :=
  match command with
  | None => mret ()
  | Some command =>
      match in_message_decode (command_header command) with
      | None => fail ActorInternal
      | Some {| tci_in_msg := None |} => fail ActorInternal
      | Some {| tci_in_msg := Some in_msg |} =>
          process_in_msg (command_correlation_id command) (command_payload command) in_msg
      end
  end;;
  cache_get_context;;
  on_parts (λ w x, kvs_make_progress w (ctx_instant ctx) x);;
  commands ← take_commands;
  mret (co_with_commands commands).

Definition cache_on_apply_event (context : ActorEventContext) (event : ActorEvent)
    : method TabletCacheActor ActorError EventOutcome :=
  mret eo_with_none.

#[global] Instance TabletCacheActor_Actor : Actor unit TabletCacheActor :=
  {| on_init := cache_on_init;
     on_shutdown := cache_on_shutdown;
     on_save_snapshot _ := cache_on_save_snapshot;
     on_load_snapshot _ := cache_on_load_snapshot;
     on_process_command ctx _ := cache_on_process_command ctx;
     on_apply_event _ _ := cache_on_apply_event |}.
End actor.
Arguments TabletCacheActor : clear implicits.

(** ** The application *)

Definition TRANSACTION_COORDINATOR_CORRELATION_COUNTER : Z := Z.shiftl 1 56.

Definition DATA_CACHE_CORRELATION_COUNTER : Z := Z.shiftl 2 56.

Definition METADATA_CACHE_CORRELATION_COUNTER : Z := Z.shiftl 3 56.

(** The store of the application, and its manager. *)
Abbreviation AppStore := (StoreCell DefaultTabletTransaction DefaultTabletTransaction).

Abbreviation AppManager :=
  (TabletTransactionManagerCore (DefaultTabletMetadataCache AppStore)
     (DefaultTabletDataCache bytes unit) (DefaultTabletTransactionCoordinator AppStore bytes)).

Definition app_manager : AppManager :=
  manager_create (coordinator_create TRANSACTION_COORDINATOR_CORRELATION_COUNTER)
    (metadata_cache_create METADATA_CACHE_CORRELATION_COUNTER)
    (data_cache_create DATA_CACHE_CORRELATION_COUNTER ()).

Definition app_actor : TabletCacheActor AppManager AppStore :=
  tablet_cache_new app_manager simple_store_create.
