(* ===== verification/CacheTheorems.v ===== *)
(** * The tablet cache put together

    The default manager keeps what the key-value store relies on, the store's handler
    keeps what the coordinator relies on, and the correlation ids of the application's
    parts never meet. *)

From S2P Require Import Prelude Model TabletStore CacheTypes MetadataCache DataCache Coordinator.
From S2P Require Import CoordinatorTheorems Manager KvStore KvTheorems CacheActor.

(** ** Requests under correlation ids *)

(** A part that sends requests under increasing ids: its counter and the ids it has not
    handed over yet. *)
Definition emits (s s' : Z * list Z) : Prop :=
  s' = s ∨ s' = (s.1 +₆₄ 1, s.2 ++ [s.1 +₆₄ 1]).

(** Ids that were counted from a base. *)
Definition counted (base : Z) (s : Z * list Z) : Prop :=
  base ≤ s.1 ∧ NoDup s.2 ∧ Forall (λ id, base < id ≤ s.1) s.2.

Lemma counted_emits base s s' :
  0 ≤ base → s.1 < two64 - 1 → counted base s → emits s s' → counted base s' ∧ s.1 ≤ s'.1 ≤ s.1 + 1 ∧
  ∀ id, id ∈ s'.2 → id ∈ s.2 ∨ id = s.1 + 1.
Proof.
  intros Hb Hroom (Hle & Hnd & Hall) [->| ->]; simpl.
  { split_and!; [by split_and!|lia..|auto]. }
  rewrite u64_add_small by lia. split_and!; [|lia..|].
  - split_and!; simpl; [lia| |].
    + apply NoDup_app. split_and!; [done| |apply NoDup_singleton].
      intros id Hid ->%list_elem_of_singleton. rewrite Forall_forall in Hall.
      specialize (Hall _ Hid). lia.
    + apply Forall_app. split; [|by constructor; [lia|]]. eapply Forall_impl; [exact Hall|].
      simpl. lia.
  - intros id [?|?%list_elem_of_singleton]%elem_of_app; auto.
Qed.

Definition coordinator_ids {W T} (c : DefaultTabletTransactionCoordinator W T) : Z * list Z :=
  (co_correlation_counter c, (coordinator_request <$> co_out_messages c).*1).

Definition metadata_ids {W} (m : DefaultTabletMetadataCache W) : Z * list Z :=
  (mc_correlation_counter m, (metadata_request <$> mc_out_messages m).*1).

(** *** The metadata cache *)

Section metadata.
Context {W : Type} `{HZ : !HashOrder Z, HS : !HashOrder string, HSZ : !HashOrder (string * Z)}.
Implicit Types (m : DefaultTabletMetadataCache W).

Lemma metadata_progress_emits m : emits (metadata_ids m) (metadata_ids (metadata_cache_make_progress m)).
Proof using.
  unfold metadata_cache_make_progress. destruct (prepare_list_ops (mc_tables m)) as [tables ops].
  case_decide; [by left|right]. unfold metadata_ids. simpl. by rewrite !fmap_app.
Qed.

Lemma resolve_notification_ids m w queries notification m' w' :
  resolve_tablets_with_notification m w queries notification = Return (m', w') →
  metadata_ids m' = metadata_ids m.
Proof using.
  unfold resolve_tablets_with_notification. intros H.
  apply bind_Return in H as ([[[r tables] cells] w1] & _ & H). by injection H as <- _.
Qed.

Lemma resolve_tablets_ids m w queries m' w' h :
  metadata_cache_resolve_tablets m w queries = Return (m', w', h) → metadata_ids m' = metadata_ids m.
Proof using.
  unfold metadata_cache_resolve_tablets. intros H. simpl in H.
  apply bind_Return in H as ([m1 w1] & H & Heq). injection Heq as <- _ _.
  by apply resolve_notification_ids in H.
Qed.

Lemma update_tablet_ids m name tablet conflict :
  metadata_ids (metadata_cache_update_tablet m name tablet conflict) = metadata_ids m.
Proof using. unfold metadata_cache_update_tablet. by destruct (mc_tables m !! name). Qed.

Lemma list_response_ids m w msg m' w' :
  metadata_cache_process_in_message m w msg = Return (m', w') → metadata_ids m' = metadata_ids m.
Proof using.
  destruct msg as [id results]. simpl. intros H.
  apply (ofold_invariant (λ st, metadata_ids st.1 = metadata_ids m)) in H; [done| |done].
  clear. intros [c w] x [c' w'] Hc H. simpl in *.
  destruct (tor_op_result x) as [[]|]; try done.
  destruct (mc_tables c !! tor_table_name x) as [t|]; [|by injection H as <- _].
  destruct (update_region _ _ _) as [t1 [idx ids]].
  apply bind_Return in H as ([[reqs cells] w1] & _ & H). by injection H as <- _.
Qed.

Lemma metadata_init_ids m config m' :
  metadata_cache_init m config = Return m' → metadata_ids m' = metadata_ids m.
Proof using.
  unfold metadata_cache_init. intros H. apply bind_Return in H as (tables & _ & H). by injection H as <-.
Qed.

(** Resolving with a handler calls it at once or not at all. *)
Lemma resolve_handler_called m w queries handler m' w' :
  metadata_cache_resolve_tablets_with_handler m w queries handler = Return (m', w') →
  w' = w ∨ ∃ results, handler results w = Return w'.
Proof using.
  unfold metadata_cache_resolve_tablets_with_handler, resolve_tablets_with_notification,
    tablet_resolve_create. intros H.
  apply bind_Return in H as ([[[r tables] cells] w1] & H & Heq). injection Heq as _ <-.
  apply bind_Return in H as (split & _ & H). apply bind_Return in H as ([r1 tables1] & Hr & H).
  apply bind_Return in H as ([[r2 cells2] w2] & H & Heq). injection Heq as _ _ _ <-.
  assert (rs_notification r1 = NotifyHandler handler) as Hn.
  { apply (ofold_invariant (λ st, rs_notification st.1 = NotifyHandler handler)) in Hr; [done| |done].
    clear. intros [r tables] [q idx] [r' tables'] Hn H. simpl in *.
    apply bind_Return in H as (t & _ & H). apply bind_Return in H as ([res|] & _ & H).
    - by injection H as <- _.
    - apply bind_Return in H as (t1 & _ & H). by injection H as <- _. }
  unfold maybe_resolve_results in H. case_decide; [|injection H as _ _ <-; by left].
  apply bind_Return in H as ([cells3 w3] & H & Heq). injection Heq as _ _ <-.
  rewrite Hn in H. simpl in H. apply bind_Return in H as (w4 & H & Heq). injection Heq as _ <-.
  right. by eexists.
Qed.
End metadata.

(** *** The coordinator *)

Section coordinator.
Context {W T M D : Type} `{HM : !TabletMetadataCache W M, HD : !TabletDataCache D T,
  HZ : !HashOrder Z}.
Implicit Types (c : DefaultTabletTransactionCoordinator W T).

Lemma coordinator_progress_ids c (m : M) d w c' m' d' w' :
  coordinator_make_progress c m d w = Return (c', m', d', w') →
  coordinator_ids c' = coordinator_ids c ∧ co_transaction_counter c' = co_transaction_counter c.
Proof using.
  intros H. unfold coordinator_make_progress in H.
  apply bind_Return in H as ([[[ts m1] d1] w1] & _ & H). by injection H as <- _ _ _.
Qed.

Lemma coordinator_message_ids c (m : M) msg c' m' :
  coordinator_process_in_message c m msg = Return (c', m') →
  coordinator_ids c' = coordinator_ids c ∧ co_transaction_counter c' = co_transaction_counter c.
Proof using.
  intros H. destruct msg as [corr results]. unfold coordinator_process_in_message in H.
  destruct (co_correlations c !! corr) as [id|]; [|by injection H as <- _].
  cbn [co_with co_transactions co_correlations] in H.
  destruct (co_transactions c !! id) as [[s|s|o]|]; [by injection H as <- _| |by injection H as <- _..].
  apply bind_Return in H as ([o metas] & _ & H). apply bind_Return in H as (m1 & _ & H).
  by injection H as <- _.
Qed.

Lemma commit_transaction_emits c id c' :
  commit_transaction c id = Return c' →
  emits (coordinator_ids c) (coordinator_ids c') ∧ co_transaction_counter c' = co_transaction_counter c.
Proof using.
  intros H. unfold commit_transaction in H. destruct (co_transactions c !! id) as [t|]; [|done].
  cbn in H. destruct t as [s| |]; [|done..]. destruct (is_active s); [done|].
  destruct (preparing_complete s) as [ops|]; injection H as <-; (split; [|done]); [right|by left].
  unfold coordinator_ids. simpl. by rewrite !fmap_app.
Qed.

Lemma process_transaction_ids c id queries handler c' :
  process_transaction c id queries handler = Return c' →
  coordinator_ids c' = coordinator_ids c ∧ co_transaction_counter c' = co_transaction_counter c.
Proof using.
  intros H. unfold process_transaction in H. destruct (co_transactions c !! id) as [t|]; [|done].
  cbn in H. destruct t as [s| |]; [|done..]. by injection H as <-.
Qed.

Lemma check_transaction_ids c id c' o :
  check_transaction_result c id = Return (c', o) →
  coordinator_ids c' = coordinator_ids c ∧ co_transaction_counter c' = co_transaction_counter c.
Proof using.
  intros H. unfold check_transaction_result in H. destruct (co_transactions c !! id) as [t|]; [|done].
  cbn in H. destruct t as [s|s|o']; [done|by injection H as <- _..].
Qed.

(** Progress only resolves tablets of the metadata cache, a response only updates them. *)
Lemma coordinator_progress_metadata (R : relation M) `{!PreOrder R} c m d w c' m' d' w' :
  (∀ m w queries m' w' h, mci_resolve_tablets m w queries = Return (m', w', h) → R m m') →
  coordinator_make_progress c m d w = Return (c', m', d', w') → R m m'.
Proof using.
  intros HR H. unfold coordinator_make_progress in H.
  apply bind_Return in H as ([[[ts m1] d1] w1] & H & Heq). injection Heq as _ <- _ _.
  apply (ofold_invariant (λ st, R m st.1.1.2)) in H; [done| |done].
  clear -HR PreOrder0. intros [[[ts m1] d1] w1] [id t] [[[ts' m1'] d1'] w1'] Hm H. simpl in *.
  destruct t as [s|s|o]; [|by injection H as _ <- _ _..].
  apply bind_Return in H as ([[[s1 m2] d2] w2] & H & Heq). injection Heq as _ <- _ _.
  unfold preparing_make_progress in H.
  apply bind_Return in H as ([[[ps m3] d3] w3] & H & Heq). injection Heq as _ <- _ _.
  etrans; [exact Hm|]. clear Hm.
  revert m1 d1 w1 ps H. induction (pts_process_requests s) as [|p l IH]; intros m1 d1 w1 ps H;
    cbn [advance_processes] in H; [by injection H as _ <- _ _|].
  apply bind_Return in H as ([[[p1 m4] d4] w4] & H1 & H).
  apply bind_Return in H as ([[[ps5 m5] d5] w5] & H2 & H). injection H as _ <- <- <-.
  etrans; [|by eapply IH]. clear IH H2. unfold advance_process in H1. destruct (ps_status p).
  - apply bind_Return in H1 as ([[m6 w6] h] & Hr & H1). injection H1 as _ <- _ _. by eapply HR.
  - destruct (mci_check_result m1 resolve_result) as [[v|]|]; try by injection H1 as _ <- _ _.
    apply bind_Return in H1 as ([d6 h] & _ & H1). by injection H1 as _ <- _ _.
  - destruct (dci_check_load d1 load_result) as [[v|]|]; try by injection H1 as _ <- _ _.
    apply bind_Return in H1 as ([[p6 d6] w6] & _ & H1). by injection H1 as _ <- _ _.
  - destruct (dci_check_store d1 store_result) as [[v|]|]; by injection H1 as _ <- _ _.
  - by injection H1 as _ <- _ _.
  - by injection H1 as _ <- _ _.
Qed.

Lemma coordinator_message_metadata (R : relation M) `{!PreOrder R} c m msg c' m' :
  (∀ m name tablet conflict m', mci_update_tablet (W:=W) m name tablet conflict = Return m' → R m m') →
  coordinator_process_in_message c m msg = Return (c', m') → R m m'.
Proof using.
  intros HR H. destruct msg as [corr results]. unfold coordinator_process_in_message in H.
  destruct (co_correlations c !! corr) as [id|]; [|by injection H as _ <-].
  cbn [co_with co_transactions co_correlations] in H.
  destruct (co_transactions c !! id) as [[s|s|o]|]; [by injection H as _ <-| |by injection H as _ <-..].
  apply bind_Return in H as ([o metas] & _ & H). apply bind_Return in H as (m1 & H & Heq).
  injection Heq as _ <-. apply (ofold_invariant (R m)) in H; [done| |done].
  intros m2 [[name tablet] conflict] m3 Hm Hu. etrans; [exact Hm|]. by eapply HR.
Qed.
End coordinator.

(** ** The manager *)

(** Uncovers the default cache and coordinator behind the interfaces. *)
Ltac open_parts H :=
  cbn [mci_init mci_make_progress mci_resolve_tablets mci_resolve_tablets_with_handler
       mci_update_tablet mci_process_in_message mci_take_out_messages mci_check_result
       cdi_init cdi_make_progress cdi_process_in_message cdi_take_out_messages
       cdi_create_transaction cdi_process_transaction cdi_has_transaction_pending_process
       cdi_commit_transaction cdi_abort_transaction cdi_check_transaction_result
       DefaultTabletMetadataCache_instance DefaultTabletTransactionCoordinator_instance] in H.

(** Uncovers the manager behind the transaction context. *)
Ltac open_context H :=
  cbn [tci_resolve tci_start_transaction txi_get_id txi_process txi_has_pending_process
       txi_commit txi_abort txi_check_result DefaultTabletTransactionManager_context] in H.

Section manager.
Context {W T D : Type} `{HD : !TabletDataCache D T, HZ : !HashOrder Z, HS : !HashOrder string,
  HSZ : !HashOrder (string * Z)}.

Abbreviation DefaultManager :=
  (TabletTransactionManagerCore (DefaultTabletMetadataCache W) D
     (DefaultTabletTransactionCoordinator W T)).
Implicit Types (x : DefaultManager) (w : W).

(** The calls on a manager that do not take its messages. *)
Inductive manager_call : relation DefaultManager :=
| CallInit x config x' : manager_init x config = Return x' → manager_call x x'
| CallProgress x instant w x' w' :
    manager_make_progress x instant w = Return (x', w') → manager_call x x'
| CallResolve x w queries handler x' w' :
    manager_resolve x w queries handler = Return (x', w') → manager_call x x'
| CallCreate x : manager_call x (manager_create_transaction x).1
| CallProcess x id queries handler x' :
    manager_process_transaction x id queries handler = Return x' → manager_call x x'
| CallCommit x id x' : manager_commit_transaction x id = Return x' → manager_call x x'
| CallAbort x id : manager_call x (manager_abort_transaction x id)
| CallCheck x id x' o :
    manager_check_transaction_result x id = Return (x', o) → manager_call x x'
| CallMessage x w message x' w' :
    manager_process_in_message x w message = Return (x', w') → manager_call x x'.

(** What such a call does to the requests for the tablet store. *)
Record request_step x x' : Prop := {
  rst_coordinator : emits (coordinator_ids (mg_transaction_coordinator x))
                      (coordinator_ids (mg_transaction_coordinator x'));
  rst_metadata : emits (metadata_ids (mg_metadata_cache x)) (metadata_ids (mg_metadata_cache x'));
  rst_errors : mg_tablets_errors x' ⊆ mg_tablets_errors x
}.

(** Neither cache nor coordinator has new requests. *)
Record request_frame x x' : Prop := {
  rfr_coordinator : coordinator_ids (mg_transaction_coordinator x') =
                      coordinator_ids (mg_transaction_coordinator x);
  rfr_metadata : metadata_ids (mg_metadata_cache x') = metadata_ids (mg_metadata_cache x);
  rfr_errors : mg_tablets_errors x' ⊆ mg_tablets_errors x
}.

Lemma request_frame_step x x' : request_frame x x' → request_step x x'.
Proof using. intros [H1 H2 H3]. by split; [left|left|]. Qed.

#[local] Instance same_ids_preorder :
  PreOrder (λ m m' : DefaultTabletMetadataCache W, metadata_ids m' = metadata_ids m).
Proof. split; [done|]. intros m1 m2 m3 H1 H2. by rewrite H2. Qed.

Lemma tablets_op_response_frame x w id response x' w' :
  process_in_tablets_op_response x w id response = Return (x', w') →
  request_frame x x' ∧ co_transaction_counter (mg_transaction_coordinator x') =
    co_transaction_counter (mg_transaction_coordinator x).
Proof using.
  unfold process_in_tablets_op_response. intros H.
  apply bind_Return in H as ([m w1] & Hm & H). apply bind_Return in H as ([c m2] & Hc & H).
  injection H as <- _.
  assert (metadata_ids m = metadata_ids (mg_metadata_cache x)) as Hids.
  { destruct (filter _ _); [by injection Hm as <- _|].
    open_parts Hm. by apply list_response_ids in Hm. }
  assert (coordinator_ids c = coordinator_ids (mg_transaction_coordinator x) ∧
    co_transaction_counter c = co_transaction_counter (mg_transaction_coordinator x) ∧
    metadata_ids m2 = metadata_ids m) as (H1 & H2 & H3).
  { destruct (filter is_execute_result _); [by injection Hc as <- <-|]. open_parts Hc.
    pose proof Hc as Hc'. apply coordinator_message_ids in Hc as [H1 H2]. split_and!; [done..|].
    eapply (coordinator_message_metadata
      (λ m m' : DefaultTabletMetadataCache W, metadata_ids m' = metadata_ids m)); [|exact Hc'].
    intros m3 name tablet conflict m3' Heq. injection Heq as <-. apply update_tablet_ids. }
  split; [|done]. split; simpl; [done|congruence|done].
Qed.

Lemma message_frame x w message x' w' :
  manager_process_in_message x w message = Return (x', w') →
  request_frame x x' ∧ co_transaction_counter (mg_transaction_coordinator x') =
    co_transaction_counter (mg_transaction_coordinator x).
Proof using.
  destruct message; simpl; intros H.
  1,2: by apply bind_Return in H as (d & _ & H); injection H as <- _.
  2: destruct (mg_tablets_errors x !! _); [|by injection H as <- _].
  all: apply tablets_op_response_frame in H as [[H1 H2 H3] H4]; (split; [|done]); split;
    [done..|]; simpl in H3; (etrans; [exact H3|]); apply delete_subseteq.
Qed.

Lemma manager_call_step x x' : manager_call x x' → request_step x x'.
Proof using.
  intros [x0 config x1 H|x0 instant w x1 w' H|x0 w queries handler x1 w' H|x0|x0 id queries handler x1 H
    |x0 id x1 H|x0 id|x0 id x1 o H|x0 w message x1 w' H].
  - apply request_frame_step. unfold manager_init in H.
    apply bind_Return in H as (dc & _ & H). apply bind_Return in H as (d & _ & H).
    apply bind_Return in H as (mcf & _ & H). apply bind_Return in H as (m & Hm & H).
    open_parts Hm. apply metadata_init_ids in Hm. injection H as <-. by split.
  - unfold manager_make_progress in H. apply bind_Return in H as (m & Hm & H). injection Hm as <-.
    apply bind_Return in H as (d & _ & H). apply bind_Return in H as ([[[c m2] d2] w2] & H & Heq).
    injection Heq as <- _. open_parts H. pose proof H as Hc. apply coordinator_progress_ids in H as [H1 _].
    apply (coordinator_progress_metadata
      (λ m m' : DefaultTabletMetadataCache W, metadata_ids m' = metadata_ids m)) in Hc.
    + split; simpl; [by left|rewrite Hc; apply metadata_progress_emits|done].
    + intros m3 w3 queries m3' w3' h Hr. by apply resolve_tablets_ids in Hr.
  - apply request_frame_step. unfold manager_resolve in H. apply bind_Return in H as ([m w1] & H & Heq).
    injection Heq as <- _. open_parts H. apply resolve_notification_ids in H. by split.
  - by apply request_frame_step.
  - apply request_frame_step. unfold manager_process_transaction in H.
    apply bind_Return in H as (c & H & Heq). injection Heq as <-. open_parts H.
    apply process_transaction_ids in H as [H _]. by split.
  - unfold manager_commit_transaction in H. apply bind_Return in H as (c & H & Heq). injection Heq as <-. open_parts H.
    apply commit_transaction_emits in H as [H _]. by split; [|left|].
  - by apply request_frame_step.
  - apply request_frame_step. unfold manager_check_transaction_result in H.
    apply bind_Return in H as ([c o'] & H & Heq). injection Heq as <- _. open_parts H.
    apply check_transaction_ids in H as [H _]. by split.
  - apply request_frame_step. by apply message_frame in H as [H _].
Qed.

(** *** Requests to the tablet store *)

Definition queued_requests x : list (Z * list TabletOp) :=
  (coordinator_request <$> co_out_messages (mg_transaction_coordinator x)) ++
  (metadata_request <$> mc_out_messages (mg_metadata_cache x)).

Definition tablets_request (request : Z * list TabletOp) : TransactionOutMessage :=
  OutExecuteTabletOpsRequest request.1 {| etq_recipient_node_id := 0 |}
    {| tr_tablet_ops := request.2 |}.

Lemma stash_requests errors out requests :
  NoDup requests.*1 → (∀ id, id ∈ requests.*1 → errors !! id = None) →
  ofold stash_tablets_request (errors, out) requests =
    Return (list_to_map (prod_map id create_tablets_error <$> requests) ∪ errors,
            out ++ (tablets_request <$> requests)).
Proof using.
  revert errors out. induction requests as [|[i ops] l IH]; intros errors out Hnd Hnew; simpl.
  { rewrite app_nil_r. f_equal. f_equal. symmetry. apply (left_id_L ∅ (∪)). }
  apply NoDup_cons in Hnd as [Hi Hnd]. rewrite Hnew by (simpl; left). simpl.
  rewrite IH; [|done|].
  - rewrite <- (assoc_L (++)). f_equal. f_equal. simpl.
    rewrite <- insert_union_l, insert_union_r; [done|].
    apply not_elem_of_list_to_map. rewrite <- list_fmap_compose.
    intros (y & Hy & Hin)%list_elem_of_fmap. apply Hi. simpl in Hy. subst i.
    apply list_elem_of_fmap. by exists y.
  - intros j Hj. rewrite lookup_insert_ne; [apply Hnew; by right|]. by intros ->.
Qed.

(** The ids of queued requests are new, and so are the ones that wait for an answer. *)
Record request_ids base_c base_m x : Prop := {
  rid_coordinator : counted base_c (coordinator_ids (mg_transaction_coordinator x));
  rid_metadata : counted base_m (metadata_ids (mg_metadata_cache x));
  rid_apart : co_correlation_counter (mg_transaction_coordinator x) ≤ base_m;
  rid_errors id : is_Some (mg_tablets_errors x !! id) →
    id ∉ (queued_requests x).*1 ∧
    (base_c < id ≤ co_correlation_counter (mg_transaction_coordinator x) ∨
     base_m < id ≤ mc_correlation_counter (mg_metadata_cache x))
}.

(** Neither counter is about to leave the range of its part. *)
Definition counter_room base_m x : Prop :=
  co_correlation_counter (mg_transaction_coordinator x) < base_m ∧
  mc_correlation_counter (mg_metadata_cache x) < two64 - 1.

Lemma elem_of_queued_ids x i :
  i ∈ (queued_requests x).*1 ↔
    i ∈ (coordinator_ids (mg_transaction_coordinator x)).2 ∨ i ∈ (metadata_ids (mg_metadata_cache x)).2.
Proof using. unfold queued_requests. by rewrite fmap_app, elem_of_app. Qed.

Lemma request_step_ids base_c base_m x x' :
  0 ≤ base_c → 0 ≤ base_m < two64 → counter_room base_m x → request_ids base_c base_m x →
  request_step x x' → request_ids base_c base_m x'.
Proof using.
  intros Hb Hbm [Rc Rm] [Ic Im Ia Ie] [Sc Sm Se].
  apply (counted_emits base_c) in Sc as (Jc & Lc & Nc); [|done|simpl; lia|done].
  apply (counted_emits base_m) in Sm as (Jm & Lm & Nm); [|lia|simpl; lia|done].
  simpl in Lc, Lm. split; [done|done|lia|].
  intros i Hi. assert (is_Some (mg_tablets_errors x !! i)) as Hold.
  { destruct Hi as [v Hv]. exists v. by eapply lookup_weaken. }
  apply Ie in Hold as [Hq Hr]. rewrite elem_of_queued_ids in Hq. split; [|lia].
  destruct Ic as [Ic _]. destruct Im as [Im _]. simpl in Ic, Im, Nc, Nm.
  rewrite elem_of_queued_ids. intros [[?| ->]%Nc|[?| ->]%Nm]; [tauto|lia|tauto|lia].
Qed.

Lemma queued_ids_unique base_c base_m x :
  request_ids base_c base_m x → NoDup (queued_requests x).*1.
Proof using.
  intros [(_ & Nc & Fc) (_ & Nm & Fm) Ia _]. unfold queued_requests. rewrite fmap_app.
  apply NoDup_app. split_and!; [done| |done]. intros i Hc Hm.
  rewrite Forall_forall in Fc, Fm. specialize (Fc _ Hc). specialize (Fm _ Hm). simpl in *. lia.
Qed.

Lemma take_returns base_c base_m x :
  request_ids base_c base_m x →
  ∃ x', manager_take_out_messages x = Return (x',
      (tablets_request <$> queued_requests x) ++
      (data_request <$> (dci_take_out_messages (mg_data_cache x)).2)) ∧
    queued_requests x' = [] ∧
    mg_tablets_errors x' =
      list_to_map (prod_map id create_tablets_error <$> queued_requests x) ∪ mg_tablets_errors x ∧
    co_correlation_counter (mg_transaction_coordinator x') =
      co_correlation_counter (mg_transaction_coordinator x) ∧
    mc_correlation_counter (mg_metadata_cache x') = mc_correlation_counter (mg_metadata_cache x).
Proof using.
  intros Hinv. pose proof (queued_ids_unique _ _ _ Hinv) as Hnd. destruct Hinv as [_ _ _ He].
  assert (ofold stash_tablets_request (mg_tablets_errors x, []) (queued_requests x) =
    Return (list_to_map (prod_map id create_tablets_error <$> queued_requests x) ∪ mg_tablets_errors x,
            tablets_request <$> queued_requests x)) as Hst.
  { rewrite stash_requests; [done|done|]. intros i Hi. apply eq_None_not_Some. intros [Hq _]%He. done. }
  unfold queued_requests in Hst at 1. rewrite ofold_app in Hst.
  apply bind_Return in Hst as (st & H1 & H2).
  unfold manager_take_out_messages.
  cbn [cdi_take_out_messages DefaultTabletTransactionCoordinator_instance
       mci_take_out_messages DefaultTabletMetadataCache_instance].
  unfold coordinator_take_out_messages, metadata_cache_take_out_messages.
  rewrite H1. cbn [mbind outcome_bind]. rewrite H2. cbn [mbind outcome_bind].
  destruct (dci_take_out_messages (mg_data_cache x)) as [d messages].
  by eexists.
Qed.

Lemma take_ids base_c base_m x x' messages :
  request_ids base_c base_m x → manager_take_out_messages x = Return (x', messages) →
  request_ids base_c base_m x'.
Proof using.
  intros Hinv H. destruct (take_returns _ _ _ Hinv) as (y & Hy & Hq & He & Hc & Hm).
  rewrite Hy in H. injection H as -> _. destruct Hinv as [(Bc & _ & Fc) (Bm & _ & Fm) Ia Ie].
  unfold queued_requests in Hq. apply app_eq_nil in Hq as [Hq1 Hq2].
  split; [| |lia|].
  - split_and!; simpl; [simpl in Bc; lia|rewrite Hq1; constructor..].
  - split_and!; simpl; [simpl in Bm; lia|rewrite Hq2; constructor..].
  - rewrite Forall_forall in Fc, Fm. intros i. rewrite He. unfold queued_requests at 2.
    rewrite Hq1, Hq2. intros [v [Hi|Hi]%lookup_union_Some_raw]; (split; [apply not_elem_of_nil|]).
    + apply elem_of_list_to_map_2, (list_elem_of_fmap_2 fst) in Hi.
      rewrite <- list_fmap_compose in Hi.
      assert (i ∈ (queued_requests x).*1) as Hin by done.
      rewrite elem_of_queued_ids in Hin. simpl in Hin, Fc, Fm.
      destruct Hin as [Hin|Hin]; [apply Fc in Hin|apply Fm in Hin]; lia.
    + destruct Hi as [_ Hi]. destruct (Ie i); [by exists v|]. lia.
Qed.

(** A manager of the default parts after any calls, as long as the counters have room. *)
Inductive manager_reach base_c base_m : DefaultManager → Prop :=
| ReachStart d :
    manager_reach base_c base_m
      (manager_create (coordinator_create base_c) (metadata_cache_create base_m) d)
| ReachCall x x' :
    manager_reach base_c base_m x → counter_room base_m x → manager_call x x' →
    manager_reach base_c base_m x'
| ReachTake x x' messages :
    manager_reach base_c base_m x → manager_take_out_messages x = Return (x', messages) →
    manager_reach base_c base_m x'.

Lemma request_ids_create base_c base_m d : 0 ≤ base_c ≤ base_m →
  request_ids base_c base_m
    (manager_create (coordinator_create base_c) (metadata_cache_create base_m) d).
Proof using.
  intros Hb. split; simpl; [split_and!; simpl; [lia|constructor..]|
    split_and!; simpl; [lia|constructor..]|lia|]. intros i [v Hi]. by rewrite lookup_empty in Hi.
Qed.

Lemma manager_reach_ids base_c base_m x :
  0 ≤ base_c ≤ base_m → base_m < two64 → manager_reach base_c base_m x → request_ids base_c base_m x.
Proof using.
  intros Hb Hbm. induction 1 as [d|x x' _ IH Hroom Hcall|x x' messages _ IH H].
  - by apply request_ids_create.
  - eapply request_step_ids; [..|by apply manager_call_step]; [lia|lia|done|done].
  - by eapply take_ids.
Qed.

(** C19: The messages of a manager can be taken after any calls: the assertion that a
    correlation id is not in use holds.  The requests for the tablet store have distinct
    ids which no request waiting for an answer has, each is remembered with the answer to
    give when it fails on the way, and the answers remembered before stay. *)
Theorem manager_requests_tracked base_c base_m x :
  0 ≤ base_c ≤ base_m → base_m < two64 → manager_reach base_c base_m x →
  ∃ x', manager_take_out_messages x = Return (x',
      (tablets_request <$> queued_requests x) ++
      (data_request <$> (dci_take_out_messages (mg_data_cache x)).2)) ∧
    NoDup (queued_requests x).*1 ∧
    (∀ id ops, (id, ops) ∈ queued_requests x →
       mg_tablets_errors x !! id = None ∧
       mg_tablets_errors x' !! id = Some (create_tablets_error ops)) ∧
    (∀ id, id ∉ (queued_requests x).*1 → mg_tablets_errors x' !! id = mg_tablets_errors x !! id).
Proof using.
  intros Hb Hbm Hreach. apply manager_reach_ids in Hreach as Hinv; [|done..].
  destruct (take_returns _ _ _ Hinv) as (x' & Hx & _ & He & _). exists x'.
  pose proof (queued_ids_unique _ _ _ Hinv) as Hnd. destruct Hinv as [_ _ _ Ie].
  assert ((prod_map id create_tablets_error <$> queued_requests x).*1 = (queued_requests x).*1) as Hfst
    by (by rewrite <- list_fmap_compose).
  split_and!; [done|done|..].
  - intros i ops Hi. rewrite He. split.
    + apply eq_None_not_Some. intros [Hn _]%Ie. apply Hn.
      by apply (list_elem_of_fmap_2 fst) in Hi.
    + apply lookup_union_Some_l, elem_of_list_to_map_1; [by rewrite Hfst|].
      apply list_elem_of_fmap. by exists (i, ops).
  - intros i Hi. rewrite He. apply lookup_union_r, not_elem_of_list_to_map. by rewrite Hfst.
Qed.

(** *** Commits that fail on the way *)

Definition is_commit_op (op : TabletOp) : bool :=
  match to_op op with Some (CheckTablet _ _) | Some (UpdateTablet _) => true | _ => false end.

Lemma commit_ops_results ops : Forall is_commit_op ops →
  filter is_list_result (create_failed_op_result <$> ops) = [] ∧
  filter is_execute_result (create_failed_op_result <$> ops) = create_failed_op_result <$> ops.
Proof using.
  induction 1 as [|op l Hop _ [IH1 IH2]]; [done|]. rewrite fmap_cons, !filter_cons.
  unfold is_commit_op in Hop. unfold is_list_result, is_execute_result in *. simpl.
  destruct (to_op op) as [[]|]; try done; simpl; by rewrite IH1, IH2.
Qed.

(** The answer that is made up for a commit has no existing tablets, which completing the
    transaction takes for granted. *)
Lemma commit_error_panics x w id error transaction_id op ops :
  Forall is_commit_op (op :: ops) →
  mg_tablets_errors x !! id = Some (create_tablets_error (op :: ops)) →
  co_correlations (mg_transaction_coordinator x) !! id = Some transaction_id →
  co_transactions (mg_transaction_coordinator x) !! transaction_id =
    Some (TransactionCommitting {| cts_tablet_ops := op :: ops |}) →
  manager_process_in_message x w (InExecuteTabletOpsError id error) = Panic.
Proof using.
  intros Hops He Hc Ht. simpl. rewrite He. unfold process_in_tablets_op_response.
  cbn [trs_tablet_results create_tablets_error].
  destruct (commit_ops_results _ Hops) as [-> ->]. simpl. rewrite Hc, Ht.
  apply Forall_cons in Hops as [Hop _]. unfold is_commit_op in Hop.
  unfold committing_complete. simpl. by destruct (to_op op) as [[]|].
Qed.
End manager.

(** ** Concrete instances *)

#[local] Instance manager_order_Z : HashOrder Z := default_hash_order Z.
#[local] Instance manager_order_string : HashOrder string := default_hash_order string.
#[local] Instance manager_order_pair : HashOrder (string * Z) := default_hash_order (string * Z).

#[local] Instance manager_sample_data :
  TabletDataCache (DefaultTabletDataCache bytes unit) bytes :=
  DefaultTabletDataCache_instance id String.string_of_list_byte.

Abbreviation SampleManager :=
  (TabletTransactionManagerCore (DefaultTabletMetadataCache unit) (DefaultTabletDataCache bytes unit)
     (DefaultTabletTransactionCoordinator unit bytes)).

Definition sample_manager_config : TransactionManagerConfig :=
  {| tmc_data_cache_config := Some {| tdc_tablet_cache_capacity := 10 |};
     tmc_metadata_cache_config := Some {| tmc_table_configs :=
       [ {| tmc_table_name := "A"; tmc_table_region_size := 1073741824 |} ] |} |}.

(** The first calls on a manager: a table is set up, tablets are asked for, and the cache
    prepares the listing of their region. *)
Definition sample_manager_calls : list (SampleManager → outcome SampleManager) :=
  [ λ x, manager_init x sample_manager_config;
    λ x, '(x, _) ← manager_resolve x () [table_query_create 1 "A" [5]] (λ _ w, Return w); Return x;
    λ x, '(x, _) ← manager_make_progress x 1 (); Return x ].

Definition sample_manager_start : SampleManager :=
  manager_create (coordinator_create TRANSACTION_COORDINATOR_CORRELATION_COUNTER)
    (metadata_cache_create METADATA_CACHE_CORRELATION_COUNTER)
    (data_cache_create DATA_CACHE_CORRELATION_COUNTER ()).

Definition sample_manager (n : nat) : SampleManager :=
  match ofold (λ x f, f x) sample_manager_start (take n sample_manager_calls) with
  | Return x => x | Panic => sample_manager_start
  end.

Definition sample_list_op : TabletOp :=
  {| to_table_name := "A"; to_op := Some (ListTablet 0 1073741823) |}.

Lemma sample_manager_reach :
  manager_reach TRANSACTION_COORDINATOR_CORRELATION_COUNTER METADATA_CACHE_CORRELATION_COUNTER
    (sample_manager 3).
Proof.
  apply (ReachCall _ _ (sample_manager 2)); [|by split; vm_compute|].
  2: { apply (CallProgress _ 1 () _ ()). by vm_compute. }
  apply (ReachCall _ _ (sample_manager 1)); [|by split; vm_compute|].
  2: { apply (CallResolve _ () [table_query_create 1 "A" [5]] (λ _ w, Return w) _ ()). by vm_compute. }
  apply (ReachCall _ _ (sample_manager 0)); [|by split; vm_compute|].
  2: { apply (CallInit _ sample_manager_config). by vm_compute. }
  apply ReachStart.
Qed.

(** The listing of the region is sent, with the answer for the case that it fails. *)
Lemma manager_requests_tracked_witness :
  queued_requests (sample_manager 3) = [(METADATA_CACHE_CORRELATION_COUNTER + 1, [sample_list_op])] ∧
  ∃ x' messages, manager_take_out_messages (sample_manager 3) = Return (x', messages) ∧
    mg_tablets_errors x' !! (METADATA_CACHE_CORRELATION_COUNTER + 1) =
      Some (create_tablets_error [sample_list_op]).
Proof.
  assert (queued_requests (sample_manager 3) =
    [(METADATA_CACHE_CORRELATION_COUNTER + 1, [sample_list_op])]) as Hq by by vm_compute.
  split; [exact Hq|].
  destruct (manager_requests_tracked TRANSACTION_COORDINATOR_CORRELATION_COUNTER
    METADATA_CACHE_CORRELATION_COUNTER (sample_manager 3)) as (x' & Hx & _ & He & _).
  - by split; vm_compute.
  - by vm_compute.
  - apply sample_manager_reach.
  - exists x'. eexists. split; [exact Hx|]. apply He. rewrite Hq. left.
Defined.
