(* ===== verification/CacheSystem.v ===== *)
(** * The tablet cache as a system

    The key-value store on top of the default manager and its caches, as the actor and the
    application put them together: the handlers that the parts hold are the store's, so
    what was shown of the store over an abstract transaction context holds of the whole
    cache. *)

From Stdlib Require Import Strings.Byte.
From stdpp Require Import gmultiset.
From S2P Require Import Prelude Model TabletStore CacheTypes MetadataCache DataCache Coordinator.
From S2P Require Import CoordinatorTheorems Manager KvStore KvTheorems CacheActor CacheTheorems.

(** ** Handlers

    What the parts do to the world, they do by calling the handlers they were given. *)

Section handlers.
Context {W T : Type} (R : relation W) `{HR : !PreOrder R}.

Definition resolve_within (h : ResolveHandler W) : Prop :=
  ∀ results w w', h results w = Return w' → R w w'.

Definition process_within (h : ProcessHandler W T) : Prop :=
  ∀ id refs w w' lent, h id refs w = Return (w', lent) → R w w'.

Definition notification_within (n : TableResolveNotification W) : Prop :=
  match n with NotifySource _ => True | NotifyHandler h => resolve_within h end.

(** The handlers of the requests that a metadata cache keeps. *)
Definition metadata_within (m : DefaultTabletMetadataCache W) : Prop :=
  map_Forall (λ _ r, notification_within (rs_notification r)) (mc_resolve_requests m).

Definition transaction_within (t : TabletTransactionState W T) : Prop :=
  match t with
  | TransactionPreparing s => Forall (λ p, process_within (ps_handler p)) (pts_process_requests s)
  | _ => True
  end.

(** The handlers of the transactions that are being prepared. *)
Definition coordinator_within (c : DefaultTabletTransactionCoordinator W T) : Prop :=
  map_Forall (λ _ t, transaction_within t) (co_transactions c).

(** *** The metadata cache *)

Section metadata.
Context `{HZ : !HashOrder Z, HS : !HashOrder string, HSZ : !HashOrder (string * Z)}.

Lemma resolve_results_within (r : TabletResolve W) cells w r' cells' w' :
  notification_within (rs_notification r) →
  maybe_resolve_results r cells w = Return (r', cells', w') →
  R w w' ∧ rs_notification r' = rs_notification r.
Proof using HR.
  intros Hn H. unfold maybe_resolve_results in H. case_decide; [|by injection H as <- _ <-].
  apply bind_Return in H as ([cells1 w1] & H & Heq). injection Heq as <- _ <-. split; [|done].
  destruct (rs_notification r) as [a|h]; simpl in H; apply bind_Return in H as (y & H & Heq).
  - by injection Heq as _ <-.
  - injection Heq as _ <-. by eapply Hn.
Qed.

Lemma split_query_notification id (st st' : TabletResolve W * gmap string CachedTable) x :
  resolve_split_query id st x = Return st' → rs_notification st'.1 = rs_notification st.1.
Proof using.
  destruct st as [r tables], x as [q idx], st' as [r' tables']. simpl. intros H.
  apply bind_Return in H as (t & _ & H). apply bind_Return in H as ([res|] & _ & H).
  - by injection H as <- _.
  - apply bind_Return in H as (t1 & _ & H). by injection H as <- _.
Qed.

Lemma resolve_within_world m w queries n m' w' :
  metadata_within m → notification_within n →
  resolve_tablets_with_notification m w queries n = Return (m', w') →
  R w w' ∧ metadata_within m'.
Proof using HR.
  intros Hm Hn H. unfold resolve_tablets_with_notification, tablet_resolve_create in H.
  apply bind_Return in H as ([[[r tables] cells] w1] & H & Heq). injection Heq as <- <-.
  apply bind_Return in H as (split & _ & H). apply bind_Return in H as ([r1 tables1] & Hr & H).
  apply bind_Return in H as ([[r2 cells2] w2] & H & Heq). injection Heq as <- _ _ <-.
  assert (rs_notification r1 = n) as Hr1.
  { apply (ofold_invariant (λ st, rs_notification st.1 = n)) in Hr; [done| |done].
    intros st x st' Hst Hx. apply split_query_notification in Hx. by rewrite Hx. }
  subst n. apply resolve_results_within in H as [Hw Hr2]; [|done]. split; [done|].
  apply map_Forall_insert_2; [by rewrite Hr2|done].
Qed.

Lemma notify_request_within name idx table (reqs reqs' : gmap Z (TabletResolve W)) cells cells' w w' id :
  map_Forall (λ _ r, notification_within (rs_notification r)) reqs →
  notify_request name idx table (reqs, cells, w) id = Return (reqs', cells', w') →
  R w w' ∧ map_Forall (λ _ r, notification_within (rs_notification r)) reqs'.
Proof using HR.
  intros Hr H. unfold notify_request in H. destruct (reqs !! id) as [r|] eqn:Er.
  2: { by injection H as <- _ <-. }
  apply bind_Return in H as ([[r1 cells1] w1] & H & Heq). injection Heq as <- _ <-.
  unfold process_results_fresh in H. apply bind_Return in H as (r2 & Hr2 & H).
  assert (rs_notification r2 = rs_notification r) as Hn.
  { destruct (rs_pending_table_queries r !! _); [|by injection Hr2 as <-].
    apply bind_Return in Hr2 as (y & _ & Hr2). apply bind_Return in Hr2 as (z & _ & Hr2).
    by injection Hr2 as <-. }
  specialize (Hr _ _ Er) as Hok. cbn beta in Hok. rewrite <- Hn in Hok.
  apply resolve_results_within in H as [Hw Hr1]; [|done]. split; [done|].
  apply map_Forall_insert_2; [by rewrite Hr1|done].
Qed.

Lemma list_response_within m w msg m' w' :
  metadata_within m → metadata_cache_process_in_message m w msg = Return (m', w') →
  R w w' ∧ metadata_within m'.
Proof using HR.
  intros Hm H. destruct msg as [id results]. simpl in H.
  apply (ofold_invariant (λ st, R w st.2 ∧ metadata_within st.1)) in H; [done| |done].
  clear -HR. intros [c w1] x [c' w1'] [Hw Hc] H. simpl in *.
  destruct (tor_op_result x) as [[]|]; try done.
  destruct (mc_tables c !! tor_table_name x) as [t|]; [|by injection H as <- <-].
  destruct (update_region _ _ _) as [t1 [idx ids]].
  apply bind_Return in H as ([[reqs cells] w2] & H & Heq). injection Heq as <- <-.
  apply (ofold_invariant (λ st, R w st.2 ∧
    map_Forall (λ _ r, notification_within (rs_notification r)) st.1.1)) in H; [done| |done].
  clear -HR. intros [[reqs cells] w1] id [[reqs' cells'] w1'] [Hw Hr] H.
  apply notify_request_within in H as [Hw' Hr']; [|done]. split; [by etrans|done].
Qed.

Lemma resolve_source_within m w queries m' w' h :
  metadata_within m → metadata_cache_resolve_tablets m w queries = Return (m', w', h) →
  R w w' ∧ metadata_within m'.
Proof using HR.
  intros Hm H. unfold metadata_cache_resolve_tablets in H. simpl in H.
  apply bind_Return in H as ([m1 w1] & H & Heq). injection Heq as <- <- _.
  by apply resolve_within_world in H.
Qed.

Lemma metadata_progress_within m :
  metadata_within m → metadata_within (metadata_cache_make_progress m).
Proof using.
  intros Hm. unfold metadata_cache_make_progress.
  destruct (prepare_list_ops (mc_tables m)) as [tables ops]. by case_decide.
Qed.

Lemma update_tablet_within m name tablet conflict :
  metadata_within m → metadata_within (metadata_cache_update_tablet m name tablet conflict).
Proof using. unfold metadata_cache_update_tablet. by destruct (mc_tables m !! name). Qed.
End metadata.

(** *** The coordinator and the manager *)

Section manager.
Context {D : Type} `{HD : !TabletDataCache D T, HZ : !HashOrder Z, HS : !HashOrder string,
  HSZ : !HashOrder (string * Z)}.

Abbreviation Manager :=
  (TabletTransactionManagerCore (DefaultTabletMetadataCache W) D
     (DefaultTabletTransactionCoordinator W T)).
Implicit Types (x : Manager) (w : W).

Lemma process_loaded_within id (p : TabletProcessState W T) (d : D) w values p' d' w' :
  process_within (ps_handler p) → process_loaded id p d w values = Return (p', d', w') →
  R w w' ∧ ps_handler p' = ps_handler p.
Proof using.
  intros Hp H. unfold process_loaded in H. apply bind_Return in H as (tablets & _ & H).
  apply bind_Return in H as ([w1 lent] & Hh & H). apply bind_Return in H as ([[d1 metas] h] & _ & H).
  injection H as <- _ <-. split; [|done]. by eapply Hp.
Qed.

Lemma advance_process_within id p m (d : D) w p' m' d' w' :
  process_within (ps_handler p) → metadata_within m →
  advance_process id p m d w = Return (p', m', d', w') →
  R w w' ∧ ps_handler p' = ps_handler p ∧ metadata_within m'.
Proof using HR.
  intros Hp Hm H. unfold advance_process in H. destruct (ps_status p).
  - apply bind_Return in H as ([[m1 w1] h] & Hr & H). injection H as <- <- _ <-.
    apply resolve_source_within in Hr as [Hw Hm']; [|done]. done.
  - destruct (mci_check_result m resolve_result) as [[v|]|]; try by injection H as <- <- _ <-.
    apply bind_Return in H as ([d1 h] & _ & H). by injection H as <- <- _ <-.
  - destruct (dci_check_load d load_result) as [[v|]|]; try by injection H as <- <- _ <-.
    apply bind_Return in H as ([[p1 d1] w1] & H & Heq). injection Heq as <- <- _ <-.
    by apply process_loaded_within in H as [Hw Hh].
  - destruct (dci_check_store d store_result) as [[v|]|]; by injection H as <- <- _ <-.
  - by injection H as <- <- _ <-.
  - by injection H as <- <- _ <-.
Qed.

Lemma advance_processes_within id ps m (d : D) w ps' m' d' w' :
  Forall (λ p, process_within (ps_handler p)) ps → metadata_within m →
  advance_processes id ps m d w = Return (ps', m', d', w') →
  R w w' ∧ Forall (λ p, process_within (ps_handler p)) ps' ∧ metadata_within m'.
Proof using HR.
  revert m d w ps'. induction ps as [|p ps IH]; intros m d w ps' Hps Hm H; simpl in H.
  { by injection H as <- <- _ <-. }
  apply bind_Return in H as ([[[p1 m1] d1] w1] & H1 & H).
  apply bind_Return in H as ([[[ps2 m2] d2] w2] & H2 & H). injection H as <- <- <- <-.
  apply Forall_cons in Hps as [Hp Hps].
  apply advance_process_within in H1 as (Hw1 & Hh & Hm1); [|done..].
  apply IH in H2 as (Hw2 & Hps2 & Hm2); [|done..].
  split_and!; [by etrans|constructor; [by rewrite Hh|done]|done].
Qed.

Lemma coordinator_progress_within c m (d : D) w c' m' d' w' :
  coordinator_within c → metadata_within m →
  coordinator_make_progress c m d w = Return (c', m', d', w') →
  R w w' ∧ coordinator_within c' ∧ metadata_within m'.
Proof using HR.
  intros Hc Hm H. unfold coordinator_make_progress in H.
  apply bind_Return in H as ([[[ts m1] d1] w1] & H & Heq). injection Heq as <- <- _ <-.
  set (I := λ st : gmap Z (TabletTransactionState W T) * DefaultTabletMetadataCache W * D * W,
    R w st.2 ∧ map_Forall (λ _ t, transaction_within t) st.1.1.1 ∧ metadata_within st.1.1.2).
  change (I (ts, m1, d1, w1)).
  assert (Forall (λ y, transaction_within y.2) (hash_iter (co_transactions c))) as Hl.
  { apply Forall_forall. intros [id t] Hin. rewrite hash_iter_perm, elem_of_map_to_list in Hin.
    by eapply Hc. }
  assert (I (co_transactions c, m, d, w)) as HI by done.
  revert H HI Hl. generalize (co_transactions c, m, d, w) as st.
  induction (hash_iter (co_transactions c)) as [|[id t] l IH]; intros st H HI Hl; simpl in H.
  { by injection H as ->. }
  apply bind_Return in H as (st' & H1 & H). apply Forall_cons in Hl as [Ht Hl].
  eapply IH; [exact H| |done]. clear IH H Hl. destruct st as [[[ts2 m2] d2] w2].
  destruct HI as (Hw & Hts & Hm2). simpl in *.
  destruct t as [s|s|o]; [|by injection H1 as <-..].
  apply bind_Return in H1 as ([[[s3 m3] d3] w3] & H1 & Heq). injection Heq as <-.
  unfold preparing_make_progress in H1. apply bind_Return in H1 as ([[[ps m4] d4] w4] & H1 & Heq).
  injection Heq as <- <- <- <-. apply advance_processes_within in H1 as (Hw4 & Hps & Hm4); [|done..].
  split_and!; simpl; [by etrans| |done]. by apply map_Forall_insert_2.
Qed.

Definition manager_within x : Prop :=
  metadata_within (mg_metadata_cache x) ∧ coordinator_within (mg_transaction_coordinator x).

Lemma manager_progress_within x instant w x' w' :
  manager_within x → manager_make_progress x instant w = Return (x', w') →
  R w w' ∧ manager_within x'.
Proof using HR.
  intros [Hm Hc] H. unfold manager_make_progress in H. apply bind_Return in H as (m & Heq & H).
  injection Heq as <-. apply bind_Return in H as (d & _ & H).
  apply bind_Return in H as ([[[c m2] d2] w2] & H & Heq). injection Heq as <- <-. open_parts H.
  apply coordinator_progress_within in H as (Hw & Hc' & Hm'); [done|done|].
  by apply metadata_progress_within.
Qed.

Lemma coordinator_message_within c m msg c' m' :
  coordinator_within c → metadata_within m →
  coordinator_process_in_message c m msg = Return (c', m') →
  coordinator_within c' ∧ metadata_within m'.
Proof using.
  intros Hc Hm H. destruct msg as [corr results]. unfold coordinator_process_in_message in H.
  destruct (co_correlations c !! corr) as [id|]; [|by injection H as <- <-].
  cbn [co_with co_transactions co_correlations] in H.
  destruct (co_transactions c !! id) as [[s|s|o]|]; [by injection H as <- <-| |by injection H as <- <-..].
  apply bind_Return in H as ([o metas] & _ & H). apply bind_Return in H as (m1 & H & Heq).
  injection Heq as <- <-. split; [by apply map_Forall_insert_2|].
  apply (ofold_invariant metadata_within) in H; [done| |done].
  intros m2 [[name tablet] conflict] m3 Hm2 Heq. injection Heq as <-. by apply update_tablet_within.
Qed.

Lemma tablets_op_response_within x w id response x' w' :
  manager_within x → process_in_tablets_op_response x w id response = Return (x', w') →
  R w w' ∧ manager_within x'.
Proof using HR.
  intros [Hm Hc] H. unfold process_in_tablets_op_response in H.
  apply bind_Return in H as ([m w1] & H1 & H). apply bind_Return in H as ([c m2] & H2 & H).
  injection H as <- <-.
  assert (R w w1 ∧ metadata_within m) as [Hw Hm1].
  { destruct (filter _ _); [by injection H1 as <- <-|]. open_parts H1. by eapply list_response_within. }
  split; [done|]. destruct (filter is_execute_result _); [by injection H2 as <- <-|]. open_parts H2.
  by apply coordinator_message_within in H2 as [? ?].
Qed.

Lemma manager_message_within x w message x' w' :
  manager_within x → manager_process_in_message x w message = Return (x', w') →
  R w w' ∧ manager_within x'.
Proof using HR.
  intros Hx H. destruct message; simpl in H.
  1,2: by apply bind_Return in H as (d & _ & H); injection H as <- <-.
  2: destruct (mg_tablets_errors x !! _); [|by injection H as <- <-].
  all: by eapply tablets_op_response_within; [|exact H].
Qed.

Lemma manager_resolve_within x w queries handler x' w' :
  manager_within x → resolve_within handler → manager_resolve x w queries handler = Return (x', w') →
  R w w' ∧ manager_within x'.
Proof using HR.
  intros [Hm Hc] Hh H. unfold manager_resolve in H. apply bind_Return in H as ([m w1] & H & Heq).
  injection Heq as <- <-. open_parts H. by apply resolve_within_world in H as [Hw Hm'].
Qed.

Lemma manager_process_within x id queries handler x' :
  manager_within x → process_within handler →
  manager_process_transaction x id queries handler = Return x' → manager_within x'.
Proof using.
  intros [Hm Hc] Hh H. unfold manager_process_transaction in H. apply bind_Return in H as (c & H & Heq).
  injection Heq as <-. open_parts H. split; [done|]. unfold process_transaction in H.
  destruct (co_transactions _ !! id) as [t|] eqn:Et; [|done]. cbn in H. destruct t as [s| |]; [|done..].
  injection H as <-. apply map_Forall_insert_2; [|done]. apply Hc in Et. apply Forall_app.
  by split; [|constructor].
Qed.

Lemma manager_create_within x : manager_within x → manager_within (manager_create_transaction x).1.
Proof using. intros [Hm Hc]. split; [done|]. by apply map_Forall_insert_2; [constructor|]. Qed.

Lemma manager_commit_within x id x' :
  manager_within x → manager_commit_transaction x id = Return x' → manager_within x'.
Proof using.
  intros [Hm Hc] H. unfold manager_commit_transaction in H. apply bind_Return in H as (c & H & Heq).
  injection Heq as <-. open_parts H. split; [done|]. unfold commit_transaction in H.
  destruct (co_transactions _ !! id) as [t|] eqn:Et; [|done]. cbn in H. destruct t as [s| |]; [|done..].
  destruct (is_active s); [done|].
  by destruct (preparing_complete s) as [ops|]; injection H as <-; apply map_Forall_insert_2.
Qed.

Lemma manager_check_within x id x' o :
  manager_within x → manager_check_transaction_result x id = Return (x', o) → manager_within x'.
Proof using.
  intros [Hm Hc] H. unfold manager_check_transaction_result in H.
  apply bind_Return in H as ([c o'] & H & Heq). injection Heq as <- _. open_parts H. split; [done|].
  unfold check_transaction_result in H. destruct (co_transactions _ !! id) as [t|] eqn:Et; [|done].
  cbn in H. destruct t as [s|s|o1]; [done|by injection H as <- _|]. injection H as <- _.
  by apply map_Forall_delete.
Qed.

Lemma manager_init_within x config x' :
  manager_within x → manager_init x config = Return x' → manager_within x'.
Proof using.
  intros [Hm Hc] H. unfold manager_init in H.
  apply bind_Return in H as (dc & _ & H). apply bind_Return in H as (d & _ & H).
  apply bind_Return in H as (mcf & _ & H). apply bind_Return in H as (m & H1 & H).
  injection H as <-. split; [|done]. open_parts H1. unfold metadata_cache_init in H1.
  apply bind_Return in H1 as (tables & _ & H1). by injection H1 as <-.
Qed.

Lemma manager_take_within x x' messages :
  manager_within x → manager_take_out_messages x = Return (x', messages) → manager_within x'.
Proof using.
  intros [Hm Hc] H. unfold manager_take_out_messages in H. open_parts H.
  unfold coordinator_take_out_messages, metadata_cache_take_out_messages in H.
  apply bind_Return in H as (st & _ & H). apply bind_Return in H as ([errors out] & _ & H).
  destruct (dci_take_out_messages (mg_data_cache x)) as [d messages']. by injection H as <- _.
Qed.
End manager.
End handlers.

(** ** The store on the manager *)

(** A property of the context that its calls keep, with the handlers of the store, is kept
    by the progress of the store. *)
Section context.
Context {Tx Tc X : Type} `{HZ : !HashOrder Z, HCodec : !ProtoCodec TabletContents,
  HX : !TabletTransactionContext (StoreCell Tx Tc) bytes X Tx Tc}.
Variables (hash_key : string → Z) (Q : X → Prop).

Record context_keeps : Prop := {
  ck_resolve x w queries x' w' :
    Q x → tci_resolve x w queries resolve_handler = Return (x', w') → Q x';
  ck_start x x' tx : Q x → tci_start_transaction x = Return (x', tx) → Q x';
  ck_process x tx queries x' tx' :
    Q x → txi_process x tx queries (process_handler hash_key) = Return (x', tx') → Q x';
  ck_commit x tx x' tc : Q x → txi_commit x tx = Return (x', tc) → Q x';
  ck_check x tc x' tc' o : Q x → txi_check_result x tc = Return (x', tc', o) → Q x'
}.

Lemma store_progress_keeps w instant x w' x' :
  context_keeps → Q x → store_make_progress hash_key w instant x = Return (w', x') → Q x'.
Proof using.
  intros [K1 K2 K3 K4 K5] Hx H. unfold store_make_progress, with_borrow in H.
  destruct (st_borrowed w); [done|]. apply bind_Return in H as ([k4 x4] & H & Heq).
  injection Heq as _ <-. apply bind_Return in H as ([k1 x1] & H1 & H).
  apply bind_Return in H as ([k2 x2] & H2 & H). apply bind_Return in H as ([k3 x3] & H3 & H4).
  assert (Q x1) as Q1.
  { unfold maybe_resolve_tablets in H1. destruct (collect_resolve_queries _ _) as [[r a] qs].
    destruct qs; [by injection H1 as _ <-|]. apply bind_Return in H1 as ([y u] & H1 & Heq).
    injection Heq as _ <-. by eapply K1. }
  assert (Q x2) as Q2.
  { unfold maybe_start_transaction in H2. destruct (foldl _ _ _) as [[[ts a] qs] ids].
    destruct qs; [by injection H2 as _ <-|]. apply bind_Return in H2 as ([y tx] & H2 & H2').
    apply bind_Return in H2' as ([z tx'] & H2' & Heq). injection Heq as _ <-.
    eapply K3; [|exact H2']. by eapply K2. }
  assert (Q x3) as Q3.
  { unfold maybe_commit_transactions in H3. apply bind_Return in H3 as ([ts y] & H3 & Heq).
    injection Heq as _ <-. apply (ofold_invariant (λ st, Q st.2)) in H3; [done| |done].
    clear -K4. intros [ts c] [i t] [ts' c'] Hc H. simpl in *.
    apply bind_Return in H as ([t1 c1] & H & Heq). injection Heq as _ <-.
    unfold maybe_commit_transaction in H. destruct (xt_waiting_commit t); [by injection H as _ <-|].
    destruct (xt_transaction t); [|by injection H as _ <-].
    apply bind_Return in H as ([] & _ & H); [by injection H as _ <-|].
    apply bind_Return in H as ([c2 tc] & H & Heq). injection Heq as _ <-. by eapply K4. }
  unfold maybe_finalize_or_retry_transactions in H4.
  apply bind_Return in H4 as ([[[ts f] done_ids] y] & H4 & Heq). injection Heq as _ <-.
  apply (ofold_invariant (λ st, Q st.2)) in H4; [done| |done].
  clear -K5. intros [[[ts f] l] c] [i t] [[[ts' f'] l'] c'] Hc H. simpl in *.
  apply bind_Return in H as ([[[t1 f1] c1] b] & H & Heq). injection Heq as _ _ _ <-.
  unfold maybe_finalize_transaction in H. destruct (xt_waiting_commit t); [|by injection H as _ _ <- _].
  apply bind_Return in H as ([[c2 tc] o] & H & Heq).
  destruct o; injection Heq as _ _ <- _; by eapply K5.
Qed.
End context.

Section system.
Context {D : Type} `{HD : !TabletDataCache D bytes, HZ : !HashOrder Z, HS : !HashOrder string,
  HSZ : !HashOrder (string * Z), HCodec : !ProtoCodec TabletContents}.
Variable hash_key : string → Z.

Abbreviation Store := (StoreCell DefaultTabletTransaction DefaultTabletTransaction).
Abbreviation Manager :=
  (TabletTransactionManagerCore (DefaultTabletMetadataCache Store) D
     (DefaultTabletTransactionCoordinator Store bytes)).
Implicit Types (x : Manager) (w : Store).

(** The default manager is a context as the store expects it. *)
#[global] Instance manager_context_laws : TransactionContextLaws (X:=Manager).
Proof using.
  refine {| tcl_last x := co_transaction_counter (mg_transaction_coordinator x) |}.
  - intros x w queries handler x' w' H. simpl in H. unfold manager_resolve in H.
    apply bind_Return in H as ([m w1] & H & Heq). injection Heq as <- <-. split; [done|].
    open_parts H. by eapply resolve_handler_called.
  - intros x x' tx Hlast [= <- <-]. simpl. rewrite u64_add_small by lia. lia.
  - intros x tx queries handler x' tx' H. cbn in H. apply bind_Return in H as (y & H & Heq).
    injection Heq as <- <-. split; [|done]. unfold transaction_process, manager_process_transaction in H.
    apply bind_Return in H as (c & H & Heq). injection Heq as <-. open_parts H.
    by apply process_transaction_ids in H as [_ H].
  - intros x tx x' tc H. cbn in H. unfold transaction_commit in H. apply bind_Return in H as (y & H & Heq).
    injection Heq as <- _. unfold manager_commit_transaction in H.
    apply bind_Return in H as (c & H & Heq). injection Heq as <-. open_parts H.
    by apply commit_transaction_emits in H as [_ H].
  - intros x tc x' tc' o H. cbn in H. unfold transaction_check_result in H.
    destruct (dtt_transaction_outcome tc); [by injection H as <- _ _|].
    apply bind_Return in H as ([y o'] & H & Heq). injection Heq as <- _ _.
    unfold manager_check_transaction_result in H. apply bind_Return in H as ([c o2] & H & Heq).
    injection Heq as <- _. open_parts H. by apply check_transaction_ids in H as [_ H].
Defined.

(** What a run of the store allows a handler to do. *)
Definition store_keeps : relation Store := λ w w',
  ∀ x accepted released, store_run hash_key w x accepted released →
    store_run hash_key w' x accepted released.

#[local] Instance store_keeps_preorder : PreOrder store_keeps.
Proof. split; [by intros w x a r|]. intros w1 w2 w3 H1 H2 x a r H. by apply H2, H1. Qed.

Lemma resolve_handler_within : resolve_within store_keeps resolve_handler.
Proof using. intros results w w' H x a r Hrun. by eapply RunResolved. Qed.

Lemma process_handler_within : process_within store_keeps (process_handler hash_key).
Proof using. intros id refs w w' lent H x a r Hrun. by eapply RunProcess. Qed.

(** The handler of the store changes tablets only as the coordinator allows. *)
Lemma store_process_handler_ok :
  process_handler_ok (process_handler (Tx:=DefaultTabletTransaction) (Tc:=DefaultTabletTransaction) hash_key).
Proof using.
  intros id refs w w' lent H. unfold process_handler, with_borrow in H. destruct (st_borrowed w); [done|].
  apply bind_Return in H as ([k tablets] & H & Heq). injection Heq as _ <-.
  by apply handle_query_process_ok in H as (_ & _ & _ & H).
Qed.

Lemma manager_context_keeps :
  context_keeps (X:=Manager) hash_key (manager_within store_keeps).
Proof using.
  split.
  - intros x w queries x' w' Hx H. cbn in H. apply (manager_resolve_within store_keeps) in H as [_ H];
      [done|done|apply resolve_handler_within].
  - intros x x' tx Hx [= <- _]. by apply (manager_create_within store_keeps) in Hx.
  - intros x tx queries x' tx' Hx H. cbn in H. apply bind_Return in H as (y & H & Heq).
    injection Heq as <- _. eapply manager_process_within; [done|apply process_handler_within|done].
  - intros x tx x' tc Hx H. cbn in H. unfold transaction_commit in H. apply bind_Return in H as (y & H & Heq).
    injection Heq as <- _. by eapply manager_commit_within.
  - intros x tc x' tc' o Hx H. cbn in H. unfold transaction_check_result in H.
    destruct (dtt_transaction_outcome tc); [by injection H as <- _ _|].
    apply bind_Return in H as ([y o'] & H & Heq). injection Heq as <- _ _. by eapply manager_check_within.
Qed.

(** ** Runs of the whole cache *)

(** The calls on the store and the manager of the application, with the ids of the
    requests that were accepted and of the responses that were handed out. *)
Inductive cache_run : Manager → Store → gmultiset Z → gmultiset Z → Prop :=
| CacheStart base_c base_m d x store_config manager_config w :
    store_init simple_store_create store_config = Return w →
    manager_init (manager_create (coordinator_create base_c) (metadata_cache_create base_m) d)
      manager_config = Return x →
    cache_run x w ∅ ∅
| CacheRequest x w accepted released request w' :
    cache_run x w accepted released → store_process_request w request = Return w' →
    cache_run x w' ({[+ request_id request +]} ⊎ accepted) released
| CacheResponses x w accepted released w' responses :
    cache_run x w accepted released → store_take_responses w = Return (w', responses) →
    cache_run x w' accepted (ids_of response_id responses ⊎ released)
| CacheStoreProgress x w accepted released instant w' x' :
    cache_run x w accepted released → query_room (st_core w) →
    co_transaction_counter (mg_transaction_coordinator x) < two64 - 1 →
    store_make_progress hash_key w instant x = Return (w', x') →
    cache_run x' w' accepted released
| CacheManagerProgress x w accepted released instant x' w' :
    cache_run x w accepted released → manager_make_progress x instant w = Return (x', w') →
    cache_run x' w' accepted released
| CacheMessage x w accepted released message x' w' :
    cache_run x w accepted released → manager_process_in_message x w message = Return (x', w') →
    cache_run x' w' accepted released
| CacheMessages x w accepted released x' messages :
    cache_run x w accepted released → manager_take_out_messages x = Return (x', messages) →
    cache_run x' w accepted released.

Lemma manager_progress_counter x instant w x' w' :
  manager_make_progress x instant w = Return (x', w') →
  co_transaction_counter (mg_transaction_coordinator x') =
    co_transaction_counter (mg_transaction_coordinator x).
Proof using.
  intros H. unfold manager_make_progress in H. apply bind_Return in H as (m & _ & H).
  apply bind_Return in H as (d & _ & H). apply bind_Return in H as ([[[c m2] d2] w2] & H & Heq).
  injection Heq as <- _. open_parts H. by apply coordinator_progress_ids in H as [_ H].
Qed.

Lemma manager_take_counter x x' messages :
  manager_take_out_messages x = Return (x', messages) →
  co_transaction_counter (mg_transaction_coordinator x') =
    co_transaction_counter (mg_transaction_coordinator x).
Proof using.
  intros H. unfold manager_take_out_messages in H. open_parts H.
  unfold coordinator_take_out_messages, metadata_cache_take_out_messages in H.
  apply bind_Return in H as (st & _ & H). apply bind_Return in H as ([errors out] & _ & H).
  destruct (dci_take_out_messages (mg_data_cache x)) as [d messages']. by injection H as <- _.
Qed.

Lemma cache_run_store x w accepted released :
  cache_run x w accepted released →
  store_run hash_key w x accepted released ∧ manager_within store_keeps x.
Proof using.
  induction 1 as [base_c base_m d x sc mc w Hs Hm|x w acc rel r w' _ [IH Hx] H|x w acc rel w' rs _ [IH Hx] H
    |x w acc rel instant w' x' _ [IH Hx] Hroom Hlast H|x w acc rel instant x' w' _ [IH Hx] H
    |x w acc rel message x' w' _ [IH Hx] H|x w acc rel x' messages _ [IH Hx] H].
  - assert (manager_within (T:=bytes) store_keeps
      (manager_create (coordinator_create base_c) (metadata_cache_create base_m) d)) as H0
      by (split; apply map_Forall_empty).
    split; [|by eapply manager_init_within]. eapply RunStart; [done|done|].
    unfold manager_init in Hm. apply bind_Return in Hm as (dc & _ & Hm).
    apply bind_Return in Hm as (d1 & _ & Hm). apply bind_Return in Hm as (mcf & _ & Hm).
    apply bind_Return in Hm as (m & _ & Hm). injection Hm as <-. simpl. lia.
  - split; [by eapply RunRequest|done].
  - split; [by eapply RunResponses|done].
  - split; [by eapply RunProgress|]. eapply store_progress_keeps; [|exact Hx|exact H].
    apply manager_context_keeps.
  - apply manager_progress_counter in H as Hl. apply (manager_progress_within store_keeps) in H as [Hw Hx']; [|done].
    split; [|done]. apply (RunContext _ _ x); [by apply Hw|]. simpl. lia.
  - apply message_frame in H as Hl. destruct Hl as [_ Hl].
    apply (manager_message_within store_keeps) in H as [Hw Hx']; [|done].
    split; [|done]. apply (RunContext _ _ x); [by apply Hw|]. simpl. lia.
  - apply manager_take_counter in H as Hl. split; [|by eapply manager_take_within].
    apply (RunContext _ _ x); [done|]. simpl. lia.
Qed.

(** C18: The whole cache behaves as the store promises.  Whatever requests, answers of other
    actors and calls the store, the manager and its parts see, in any order, the run is one
    of the store over its transaction context: every request that is held and every
    response that was handed out belongs to an accepted request, each of them once, the
    responses of a transaction answer its requests in order, and no two open transactions were
    started for the same tablet.  A transaction can work on tablets other than those it was
    started for, and there two of them can meet: see [tablet_in_two_transactions]. *)
Theorem cache_refines_store x w accepted released :
  cache_run x w accepted released →
  store_run hash_key w x accepted released ∧
  held_ids (st_core w) ⊎ released ⊆ accepted ∧
  (∀ i t, kc_transaction_trackers (st_core w) !! i = Some t →
     response_id <$> xt_responses t = request_id <$> xt_requests t) ∧
  (∀ i j t u tablet_id,
     kc_transaction_trackers (st_core w) !! i = Some t →
     kc_transaction_trackers (st_core w) !! j = Some u →
     tablet_id ∈ xt_tablet_ids t → tablet_id ∈ xt_tablet_ids u → i = j).
Proof using.
  intros [Hrun _]%cache_run_store. split; [done|]. apply store_run_inv in Hrun as (Hk & _ & _ & Hids).
  split_and!; [done|intros i t; by apply si_answers|]. intros i j t u tablet_id. by apply busy_unique.
Qed.
End system.

(** ** Concrete instances *)

#[local] Existing Instances manager_order_Z manager_order_string manager_order_pair
  manager_sample_data contents_codec.

Abbreviation SampleSystem := (AppManager * AppStore)%type.

Definition sample_store_config : StoreConfig :=
  {| sc_table_name := "A"; sc_min_pending_before_resolve := 1; sc_min_pending_before_process := 1 |}.

Definition sample_write_request : KeyValueRequest :=
  PutRequest 7 {| pkq_key := "k"; pkq_value := [x07] |}.

Definition list_answer : TransactionInMessage :=
  InExecuteTabletOpsResponse (METADATA_CACHE_CORRELATION_COUNTER + 1)
    {| trs_status := TabletsSucceeded; trs_tablet_results :=
       [ {| tor_table_name := "A"; tor_status := TabletOpSucceeded;
            tor_op_result := Some (ListTabletResult 0 1073741823 [sample_stored 10 3]) |} ] |}.

Definition load_answer : TransactionInMessage :=
  InLoadTabletResponse (DATA_CACHE_CORRELATION_COUNTER + 1) {| ltr_status := 2 |}
    (proto_encode {| tcn_dictionary := ∅ |}).

Definition store_answer : TransactionInMessage :=
  InStoreTabletResponse (DATA_CACHE_CORRELATION_COUNTER + 2) {| str_status := 2 |}.

Definition commit_answer : TransactionInMessage :=
  InExecuteTabletOpsResponse (TRANSACTION_COORDINATOR_CORRELATION_COUNTER + 1)
    {| trs_status := TabletsSucceeded; trs_tablet_results :=
       [ {| tor_table_name := "A"; tor_status := TabletOpSucceeded;
            tor_op_result := Some (UpdateTabletResult None) |} ] |}.

(** The calls of a sample run; the progress of the store checks its counters first. *)
Inductive SampleCall :=
| SampleStoreProgress
| SampleManagerProgress
| SampleSend
| SampleMessage (message : TransactionInMessage).

Definition sample_call (hash_key : string → Z) (s : SampleSystem) (call : SampleCall) : outcome SampleSystem :=
  match call with
  | SampleStoreProgress =>
      if decide (query_room (st_core s.2) ∧
                 co_transaction_counter (mg_transaction_coordinator s.1) < two64 - 1) then
        '(w, x) ← store_make_progress hash_key s.2 0 s.1; Return (x, w)
      else Panic
  | SampleManagerProgress => manager_make_progress s.1 0 s.2
  | SampleSend => '(x, _) ← manager_take_out_messages s.1; Return (x, s.2)
  | SampleMessage message => manager_process_in_message s.1 s.2 message
  end.

(** A put from its request up to the commit of its transaction. *)
Definition sample_system : outcome SampleSystem :=
  w ← store_init simple_store_create sample_store_config;
  x ← manager_init app_manager sample_manager_config;
  w ← store_process_request w sample_write_request;
  ofold (sample_call sample_hash) (x, w)
    [ SampleStoreProgress; SampleManagerProgress; SampleSend; SampleMessage list_answer;
      SampleStoreProgress; SampleManagerProgress; SampleManagerProgress; SampleMessage load_answer;
      SampleManagerProgress; SampleMessage store_answer; SampleManagerProgress;
      SampleStoreProgress; SampleSend; SampleMessage commit_answer; SampleStoreProgress ].

Lemma sample_system_run s :
  sample_system = Return s → cache_run sample_hash s.1 s.2 ({[+ 7 +]} ⊎ ∅) ∅.
Proof.
  unfold sample_system. intros H. apply bind_Return in H as (w & Hw & H).
  apply bind_Return in H as (x & Hx & H). apply bind_Return in H as (w1 & Hw1 & H).
  apply (ofold_invariant (λ s, cache_run sample_hash s.1 s.2 ({[+ 7 +]} ⊎ ∅) ∅)) in H; [done|..].
  - clear. intros s [| | |message] s' Hs H; simpl in H.
    + case_decide as Hroom; [|done]. destruct Hroom as [Hq Hc].
      apply bind_Return in H as ([w x] & H & Heq). injection Heq as <-. by eapply CacheStoreProgress.
    + destruct s' as [x w]. by eapply CacheManagerProgress.
    + apply bind_Return in H as ([x messages] & H & Heq). injection Heq as <-. by eapply CacheMessages.
    + destruct s' as [x w]. by eapply CacheMessage.
  - eapply (CacheRequest _ _ _ _ _ sample_write_request); [|exact Hw1].
    eapply (CacheStart _ _ _ _ _ sample_store_config sample_manager_config); [exact Hw|exact Hx].
Qed.

(** The put is answered, and is all that was accepted. *)
Lemma cache_refines_store_witness :
  ∃ x w, sample_system = Return (x, w) ∧
    kc_responses (st_core w) = [PutResponse 7 {| pkr_existed := false |}] ∧
    held_ids (st_core w) ⊎ ∅ ⊆ {[+ 7 +]} ⊎ ∅.
Proof.
  assert (match sample_system with
          | Return (x, w) => kc_responses (st_core w) | Panic => [] end =
          [PutResponse 7 {| pkr_existed := false |}]) as Hr by by vm_compute.
  destruct sample_system as [[x w]|] eqn:E; [|done].
  exists x, w. split; [done|]. split; [exact Hr|].
  apply (cache_refines_store sample_hash x w ({[+ 7 +]} ⊎ ∅) ∅ (sample_system_run (x, w) E)).
Defined.

(** ** What modelling showed *)

(** Keys on two tablets in different regions. *)
Definition far_hash (key : string) : Z := if decide (key = "far") then 1073741829 else 1.

Definition far_list_answer : TransactionInMessage :=
  InExecuteTabletOpsResponse (METADATA_CACHE_CORRELATION_COUNTER + 2)
    {| trs_status := TabletsSucceeded; trs_tablet_results :=
       [ {| tor_table_name := "A"; tor_status := TabletOpSucceeded;
            tor_op_result :=
              Some (ListTabletResult 1073741824 2147483647 [sample_stored 1073741834 3]) |} ] |}.

(** A put on tablet 10 up to the commit of its transaction; then a get on tablet 10 and one on
    another tablet, which are resolved by one query.  Both gets are kept with the tablet of the
    first result, and the transaction that is started for it loads both tablets. *)
Definition spanning_system : outcome SampleSystem :=
  w ← store_init simple_store_create sample_store_config;
  x ← manager_init app_manager sample_manager_config;
  w ← store_process_request w sample_write_request;
  '(x, w) ← ofold (sample_call far_hash) (x, w)
    [ SampleStoreProgress; SampleManagerProgress; SampleSend; SampleMessage list_answer;
      SampleStoreProgress; SampleManagerProgress; SampleManagerProgress; SampleMessage load_answer;
      SampleManagerProgress; SampleMessage store_answer; SampleManagerProgress;
      SampleStoreProgress ];
  w ← store_process_request w (GetRequest 8 {| gkq_key := "k" |});
  w ← store_process_request w (GetRequest 9 {| gkq_key := "far" |});
  ofold (sample_call far_hash) (x, w)
    [ SampleStoreProgress; SampleManagerProgress; SampleSend; SampleMessage far_list_answer;
      SampleStoreProgress; SampleManagerProgress; SampleManagerProgress ].

(** The tablets that a transaction of the coordinator works on. *)
Definition open_tablets (t : TabletTransactionState AppStore bytes) : list Z :=
  match t with
  | TransactionPreparing s =>
      pts_process_requests s ≫= λ p,
        (λ x, tm_tablet_id (tb_metadata (ts_tablet x.2))) <$> map_to_list (ps_tablets p)
  | TransactionCommitting s =>
      omap (λ op, match to_op op with
                  | Some (UpdateTablet (Some m)) => Some (tm_tablet_id m)
                  | Some (CheckTablet id _) => Some id
                  | _ => None
                  end) (cts_tablet_ops s)
  | TransactionCompleted _ => []
  end.

(** Tablet 10 is being committed in transaction 2 and loaded in transaction 3, although the
    comment of [SimpleKeyValueStore] says that it prevents multiple concurrent transactions
    against the same tablet. *)
Example tablet_in_two_transactions :
  match spanning_system with
  | Return (x, w) =>
      xt_tablet_ids <$> kc_transaction_trackers (st_core w) = {[ 2 := [10]; 3 := [1073741834] ]} ∧
      open_tablets <$> co_transactions (mg_transaction_coordinator x)
      = {[ 2 := [10]; 3 := [1073741834; 10] ]}
  | Panic => False
  end.
Proof. vm_compute. split; reflexivity. Qed.
