(* ===== verification/MetadataReads.v ===== *)
(** * What a metadata cache resolves to

    The metadata cache ([MetadataCache]) on one table: if all metadata that it is given for the
    table, by listings of the tablet store and by updates, satisfies a predicate, then so does
    all metadata that it resolves queries to, and a resolution has each tablet once. *)

From S2P Require Import Prelude TabletStore CacheTypes MetadataCache MetadataTheorems BlobReads.
From S2P Require Import CacheSystem.

Section metadata.
Context {W : Type} `{HZ : !HashOrder Z, HS : !HashOrder string, HSZ : !HashOrder (string * Z)}.
Variable name : string.
Variable given : TabletMetadata → Prop.

Implicit Types (m : DefaultTabletMetadataCache W) (w : W) (r : TabletResolve W) (t : CachedTable).

(** Resolved tablets of the table, each once. *)
Definition values_given (values : list (TableQuery * TabletMetadata)) : Prop :=
  Forall (λ x, tq_table_name x.1 = name ∧ given x.2) values ∧
  NoDup ((λ x, tm_tablet_id x.2) <$> values).

Definition table_given t : Prop := map_Forall (λ _, given) (ct_tablets t).

Definition builder_given (k : string * Z) (b : TabletResolveResult) : Prop :=
  k = (name, tm_tablet_id (trr_tablet_metadata b)) ∧ trr_table_name b = name ∧
  given (trr_tablet_metadata b).

Definition request_given r : Prop :=
  map_Forall (λ k q, k.1 = name ∧ tq_table_name q = name) (rs_pending_table_queries r) ∧
  map_Forall builder_given (rs_results r).

Definition cells_given (cells : ResolveCells) : Prop :=
  ∀ h values, check_result cells h = Some (Ok values) → values_given values.

Record metadata_given m : Prop := {
  mg_table t : mc_tables m !! name = Some t → table_given t;
  mg_requests : map_Forall (λ _, request_given) (mc_resolve_requests m);
  mg_cells : cells_given (mc_cells m)
}.

(** ** Tables *)

Lemma insert_latest_given tablets x :
  map_Forall (λ _, given) tablets → given x → map_Forall (λ _, given) (insert_latest_tablet tablets x).
Proof using.
  intros Ht Hx. unfold insert_latest_tablet. destruct (tablets !! tm_tablet_id x).
  - case_decide; [by apply map_Forall_insert_2|done].
  - by apply map_Forall_insert_2.
Qed.

Lemma insert_all_given l tablets :
  map_Forall (λ _, given) tablets → Forall given l →
  map_Forall (λ _, given) (foldl insert_latest_tablet tablets l).
Proof using.
  revert tablets. induction l as [|x l IH]; intros tablets Ht Hl; [done|].
  apply Forall_cons in Hl as [Hx Hl]. simpl. apply IH; [by apply insert_latest_given|done].
Qed.

Lemma update_region_given t start tablets t' x :
  table_given t → (∀ l, tablets = Some l → Forall given l) →
  update_region t start tablets = (t', x) → table_given t'.
Proof using.
  intros Ht Hl. unfold update_region. destruct (ct_regions t !! _); [|by intros [= <- _]].
  destruct tablets as [l|]; [|by intros [= <- _]]. simpl. intros [= <- _].
  by apply insert_all_given, Hl.
Qed.

Lemma register_pending_given t id idx t' :
  register_pending_query t id idx = Return t' → ct_tablets t' = ct_tablets t.
Proof using.
  unfold register_pending_query. destruct (ct_regions t !! idx); [|by intros [= <-]].
  intros H. apply bind_Return in H as (g & _ & H). by injection H as <-.
Qed.

(** ** Resolving *)

Abbreviation pairs_given := (Forall (λ x : TableQuery * TabletMetadata,
  tq_table_name x.1 = name ∧ given x.2)).

Lemma merge_flush_given t q st st' :
  table_given t → tq_table_name q = name → pairs_given (mg_result st) →
  merge_flush t q st = Return st' → pairs_given (mg_result st').
Proof using.
  intros Ht Hq Hst. unfold merge_flush. case_decide as E; [by intros [= <-]|]. intros H.
  apply bind_Return in H as (x & Hx%unwrap_Return & H). injection H as <-. simpl.
  apply Forall_app. split; [done|]. constructor; [|constructor]. split; [done|]. by eapply Ht.
Qed.

Lemma try_resolve_given t idx q values :
  table_given t → tq_table_name q = name →
  try_resolve_pending_query t idx q = Return (Some values) → pairs_given values.
Proof using.
  intros Ht Hq. unfold try_resolve_pending_query. destruct (ct_regions t !! idx) as [g|]; [|done].
  destruct (maybe_fresh_tablet_ids g) as [ids|]; [|done]. intros H.
  apply bind_Return in H as ([id rest] & _ & H). apply bind_Return in H as (st & Hst & H).
  apply bind_Return in H as (st' & Hst' & H). injection H as <-.
  eapply merge_flush_given; [done..| |exact Hst'].
  apply (ofold_invariant (λ st, pairs_given (mg_result st))) in Hst; [done| |constructor].
  clear -Ht Hq. intros st h st' Hst H. unfold merge_step in H. case_decide as E; [|by injection H as <-].
  apply bind_Return in H as (st1 & H1 & H). apply bind_Return in H as ([id rest] & _ & H).
  injection H as <-. simpl. by eapply merge_flush_given.
Qed.

Lemma append_results_given results values :
  map_Forall builder_given results → pairs_given values →
  map_Forall builder_given (append_results results values).
Proof using.
  unfold append_results. revert results. induction values as [|[q x] values IH]; intros results Hr Hv; [done|].
  apply Forall_cons in Hv as [[Hq Hx] Hv]. simpl in Hq, Hx. apply IH; [|done]. simpl.
  apply map_Forall_insert_2; [|done]. rewrite Hq.
  destruct (results !! (name, tm_tablet_id x)) as [b|] eqn:E; [|done].
  destruct (Hr _ _ E) as (Hk & ? & ?). done.
Qed.

(** The builders are told apart by the ids of their tablets. *)
Lemma take_results_given results :
  map_Forall builder_given results → values_given (take_result <$> (hash_iter results).*2).
Proof using.
  intros Hr. assert (∀ k b, (k, b) ∈ hash_iter results → builder_given k b) as Hin.
  { intros k b Hx. rewrite hash_iter_perm, elem_of_map_to_list in Hx. by apply Hr. }
  split.
  - rewrite Forall_fmap, Forall_fmap. apply Forall_forall. intros [k b] Hx.
    by destruct (Hin k b Hx) as (_ & ? & ?).
  - rewrite <- list_fmap_compose, <- list_fmap_compose.
    assert (NoDup (hash_iter results).*1) as Hnd.
    { rewrite hash_iter_perm. apply NoDup_fst_map_to_list. }
    revert Hnd Hin. generalize (hash_iter results). intros l.
    induction l as [|[k b] l IH]; intros Hnd Hin; [constructor|]. simpl in *.
    apply NoDup_cons in Hnd as [Hk Hnd]. constructor; [|apply IH; [done|]; intros; apply Hin; by right].
    intros ([k' b'] & Heq & Hx)%list_elem_of_fmap. simpl in Heq.
    destruct (Hin k b) as (-> & _); [by left|]. destruct (Hin k' b') as (-> & _); [by right|].
    apply Hk. rewrite Heq. by apply (list_elem_of_fmap_2 fst) in Hx.
Qed.

Lemma resolve_results_given r cells w r' cells' w' :
  request_given r → cells_given cells →
  maybe_resolve_results r cells w = Return (r', cells', w') →
  request_given r' ∧ cells_given cells'.
Proof using.
  intros [Hp Hr] Hc H. unfold maybe_resolve_results in H. case_decide as E; [|by injection H as <- <- _].
  apply bind_Return in H as ([cells1 w1] & H & Heq). injection Heq as <- <- _.
  split; [by split; [|apply map_Forall_empty]|]. unfold notify in H. destruct (rs_notification r).
  - apply bind_Return in H as (cells2 & H & Heq). injection Heq as -> _.
    apply set_result_results in H as (_ & _ & H). intros h values [Hv|[_ ->]]%H; [by eapply Hc|].
    by apply take_results_given.
  - apply bind_Return in H as (w2 & _ & Heq). by injection Heq as <- _.
Qed.

(** Splitting a query keeps its table. *)
Lemma split_flush_given q st :
  tq_table_name q = name → Forall (λ x, tq_table_name x.1 = name) (sp_result st) →
  Forall (λ x, tq_table_name x.1 = name) (sp_result (split_flush q st)).
Proof using.
  intros Hq Hst. unfold split_flush. case_decide; [done|]. simpl. apply Forall_app.
  split; [done|]. by constructor.
Qed.

Lemma advance_region_given fuel size q h st :
  tq_table_name q = name → Forall (λ x, tq_table_name x.1 = name) (sp_result st) →
  Forall (λ x, tq_table_name x.1 = name) (sp_result (advance_region fuel size q h st)).
Proof using.
  intros Hq. revert st. induction fuel as [|fuel IH]; intros st Hst; [done|]. simpl.
  case_decide; [|done]. apply IH. simpl. by apply split_flush_given.
Qed.

Lemma split_query_given t q result :
  tq_table_name q = name → Forall (λ x, tq_table_name x.1 = name) result →
  Forall (λ x, tq_table_name x.1 = name) (split_and_map_query t q result).
Proof using.
  intros Hq Hr. unfold split_and_map_query. destruct (set_iter (tq_key_hashes q)) as [|first hs]; [done|].
  apply split_flush_given; [done|].
  match goal with |- context [foldl _ ?st0 _] => set (st := st0) end.
  assert (Forall (λ x, tq_table_name x.1 = name) (sp_result st)) as Hst by done.
  clearbody st. revert st Hst. induction (first :: hs) as [|h l IH]; intros st Hst; [done|].
  cbn [foldl]. apply IH. unfold split_step. cbn [sp_result]. by apply advance_region_given.
Qed.

Lemma split_query_step id r tables q idx r' tables' :
  (∀ t, tables !! name = Some t → table_given t) → request_given r → tq_table_name q = name →
  resolve_split_query id (r, tables) (q, idx) = Return (r', tables') →
  (∀ t, tables' !! name = Some t → table_given t) ∧ request_given r'.
Proof using.
  intros Ht [Hp Hr] Hq H. simpl in H. apply bind_Return in H as (t & Htab%unwrap_Return & H).
  rewrite Hq in *. specialize (Ht _ Htab) as Hgiven. apply bind_Return in H as ([values|] & Hv & H).
  - injection H as <- <-. split; [done|]. split; [done|]. simpl.
    apply append_results_given; [done|]. by eapply try_resolve_given.
  - apply bind_Return in H as (t' & Hreg%register_pending_given & H). injection H as <- <-. split.
    + rewrite lookup_insert_eq. intros t1 [= <-]. unfold table_given. by rewrite Hreg.
    + split; [|done]. simpl. by apply map_Forall_insert_2.
Qed.

Lemma resolve_given m w queries n m' w' :
  metadata_given m → Forall (λ q, tq_table_name q = name) queries →
  resolve_tablets_with_notification m w queries n = Return (m', w') → metadata_given m'.
Proof using.
  intros [Ht Hr Hc] Hq H. unfold resolve_tablets_with_notification, tablet_resolve_create in H.
  apply bind_Return in H as ([[[r tables] cells] w1] & H & Heq). injection Heq as <- <-.
  apply bind_Return in H as (split & Hsplit & H). apply bind_Return in H as ([r1 tables1] & Hl & H).
  apply bind_Return in H as ([[r2 cells2] w2] & H & Heq). injection Heq as <- <- <- <-.
  assert (Forall (λ x, tq_table_name x.1 = name) split) as Hs.
  { clear -Hq Hsplit. revert Hsplit. assert (Forall (λ x : TableQuery * Z, tq_table_name x.1 = name) []) as H0 by constructor.
    revert H0. generalize (@nil (TableQuery * Z)). induction queries as [|q queries IH]; intros l Hl H; simpl in H.
    { by injection H as <-. }
    apply Forall_cons in Hq as [Hq Hqs]. apply bind_Return in H as (l1 & H1 & H).
    apply bind_Return in H1 as (t & _ & H1). injection H1 as <-.
    eapply IH; [done| |exact H]. by apply split_query_given. }
  assert ((∀ t, tables1 !! name = Some t → table_given t) ∧ request_given r1) as [Ht1 Hr1].
  { clear H Hsplit. revert Ht Hl. generalize (mc_tables m) as tables.
    match goal with |- context [ofold _ (?r0, _) _] => set (r := r0) end.
    assert (request_given r) as Hreq by (split; apply map_Forall_empty). clearbody r. revert r Hreq.
    induction split as [|[q idx] split IH]; intros r Hreq tables Ht Hl; simpl in Hl.
    { by injection Hl as <- <-. }
    apply Forall_cons in Hs as [Hs1 Hs]. apply bind_Return in Hl as ([r3 tables3] & H1 & Hl).
    apply (split_query_step (mc_resolve_request_counter m +₆₄ 1)) in H1 as [Ht3 Hr3]; [|done..].
    by eapply IH. }
  apply resolve_results_given in H as [Hr2 Hc2]; [|done..].
  split; simpl; [done|by apply map_Forall_insert_2|done].
Qed.

(** ** The operations of the cache *)

Lemma init_given n config m :
  metadata_cache_init (metadata_cache_create n) config = Return m → metadata_given m.
Proof using.
  intros H. unfold metadata_cache_init in H. apply bind_Return in H as (tables & H & Heq).
  injection Heq as <-. split; simpl; [|apply map_Forall_empty|by intros h values].
  intros t Ht. apply (ofold_invariant (map_Forall (λ _, table_given))) in H; [by apply (H name)| |apply map_Forall_empty].
  intros tables1 c tables2 Ht1 H1. apply bind_Return in H1 as (t1 & H1 & Heq). injection Heq as <-.
  apply map_Forall_insert_2; [|done]. unfold cached_table_create in H1. case_decide; [done|].
  injection H1 as <-. apply map_Forall_empty.
Qed.

Lemma progress_given m : metadata_given m → metadata_given (metadata_cache_make_progress m).
Proof using.
  intros [Ht Hr Hc]. unfold metadata_cache_make_progress. rewrite prepare_list_ops_spec.
  assert (∀ t, (table_listed <$> mc_tables m) !! name = Some t → table_given t) as Ht'.
  { intros t. rewrite lookup_fmap. intros (t0 & Ht0 & ->)%fmap_Some. by apply (Ht t0). }
  by case_decide.
Qed.

Lemma take_messages_given m : metadata_given m → metadata_given (metadata_cache_take_out_messages m).1.
Proof using. by intros []. Qed.

Lemma update_tablet_given m table x conflict :
  metadata_given m → (table = name → given x) →
  metadata_given (metadata_cache_update_tablet m table x conflict).
Proof using.
  intros [Ht Hr Hc] Hx. unfold metadata_cache_update_tablet.
  destruct (mc_tables m !! table) as [t|] eqn:Et; [|done]. split; simpl; [|done|done].
  intros t' [[<- <-]|[_ Ht']]%lookup_insert_Some; [|by apply Ht].
  apply insert_latest_given; [by apply Ht|by apply Hx].
Qed.

Lemma notify_request_given table idx t reqs cells w id reqs' cells' w' :
  (table = name → table_given t) → map_Forall (λ _, request_given) reqs → cells_given cells →
  notify_request table idx t (reqs, cells, w) id = Return (reqs', cells', w') →
  map_Forall (λ _, request_given) reqs' ∧ cells_given cells'.
Proof using.
  intros Ht Hr Hc H. unfold notify_request in H. destruct (reqs !! id) as [r|] eqn:Er.
  2: { by injection H as <- <- _. }
  apply bind_Return in H as ([[r1 cells1] w1] & H & Heq). injection Heq as <- <- _.
  unfold process_results_fresh in H. apply bind_Return in H as (r2 & Hr2 & H).
  assert (request_given r2) as Hg.
  { destruct (Hr _ _ Er) as [Hp Hres]. destruct (rs_pending_table_queries r !! (table, idx)) as [q|] eqn:Eq.
    2: { by injection Hr2 as <-. }
    apply bind_Return in Hr2 as ([values|] & Hv & Hr2); [|done]. injection Hr2 as <-.
    split; simpl; [by apply map_Forall_delete|]. apply append_results_given; [done|].
    destruct (Hp _ _ Eq) as [Hn Hq]. eapply try_resolve_given; [by apply Ht|exact Hq|exact Hv]. }
  apply resolve_results_given in H as [Hr1 Hc1]; [|done..]. split; [|done].
  by apply map_Forall_insert_2.
Qed.

(** A listing of the table has tablets that are given. *)
Definition listing_given (x : TabletOpResult) : Prop :=
  ∀ from to tablets, tor_table_name x = name → tor_status x = TabletOpSucceeded →
    tor_op_result x = Some (ListTabletResult from to tablets) → Forall given tablets.

Lemma list_result_given m w x m' w' :
  metadata_given m → listing_given x → process_list_result (m, w) x = Return (m', w') →
  metadata_given m'.
Proof using.
  intros Hm Hx H. simpl in H. destruct (tor_op_result x) as [[from to tablets| | | |]|] eqn:Ex; try done.
  destruct (mc_tables m !! tor_table_name x) as [t|] eqn:Et; [|by injection H as <- _].
  destruct (update_region _ _ _) as [t1 [idx ids]] eqn:Eu.
  apply bind_Return in H as ([[reqs cells] w1] & H & Heq). injection Heq as <- _.
  destruct Hm as [Ht Hr Hc].
  assert (tor_table_name x = name → table_given t1) as Ht1.
  { intros Hn. eapply update_region_given; [|..|exact Eu]; [apply Ht; by rewrite <- Hn|].
    intros l. case_bool_decide; [|done]. intros [= <-]. by eapply Hx. }
  apply (ofold_invariant (λ st, map_Forall (λ _, request_given) st.1.1 ∧ cells_given st.1.2)) in H;
    [|intros [[reqs1 cells1] w2] id [[reqs2 cells2] w3] [Hr1 Hc1] H1; by eapply notify_request_given|done].
  destruct H as [Hr' Hc']. split; simpl; [|done|done].
  intros t' [[Hn <-]|[_ Ht']]%lookup_insert_Some; [by apply Ht1|by apply Ht].
Qed.

Lemma message_given m w id results m' w' :
  metadata_given m → Forall listing_given results →
  metadata_cache_process_in_message m w (ListResponse id results) = Return (m', w') →
  metadata_given m'.
Proof using.
  intros Hm Hr H. simpl in H. revert m w Hm H.
  induction results as [|x results IH]; intros m w Hm H; cbn [ofold] in H; [by injection H as <- _|].
  apply Forall_cons in Hr as [Hx Hr]. apply bind_Return in H as ([m1 w1] & H1 & H).
  eapply IH; [done| |exact H]. by eapply list_result_given.
Qed.

Lemma resolve_source_given m w queries m' w' h :
  metadata_given m → Forall (λ q, tq_table_name q = name) queries →
  metadata_cache_resolve_tablets m w queries = Return (m', w', h) → metadata_given m' ∧ w' = w.
Proof using.
  intros [Ht Hr Hc] Hq H. unfold metadata_cache_resolve_tablets in H. simpl in H.
  apply bind_Return in H as ([m1 w1] & H & Heq). injection Heq as <- <- _. split.
  - eapply resolve_given; [|done|exact H]. split; simpl; [done..|]. intros a values Hv.
    unfold check_result in Hv. simpl in Hv. apply bind_Some in Hv as (core & Hcore & Hv).
    apply lookup_insert_Some in Hcore as [[_ <-]|[_ Hcore]]; [done|].
    apply (Hc a). unfold check_result. by rewrite Hcore.
  - unfold resolve_tablets_with_notification, tablet_resolve_create in H.
    apply bind_Return in H as ([[[r tables] cells] w2] & H & Heq). injection Heq as _ <-.
    apply bind_Return in H as (split & _ & H). apply bind_Return in H as ([r1 tables1] & Hl & H).
    apply bind_Return in H as ([[r2 cells2] w3] & H & Heq). injection Heq as _ _ _ <-.
    apply (ofold_invariant (λ st, rs_notification st.1 = NotifySource (cells_next (mc_cells m)))) in Hl;
      [|intros st x st' Hst Hx; apply split_query_notification in Hx; by rewrite Hx|done].
    simpl in Hl. eapply (resolve_results_within eq) in H as [H _]; [done|]. by rewrite Hl.
Qed.
End metadata.
