(* ===== verification/CacheClients.v ===== *)
(** * Caches over one tablet store

    A tablet cache as a client of the tablet store: the transaction coordinator with the default
    metadata cache, a data cache and the key-value store, fed with the answers that the store
    gives at the places of its log.  As long as no request that fails had an update that held,
    the cache resolves tablets only to what the store had ([client_run_inv]). *)

From Stdlib Require Import Strings.Byte.
From stdpp Require Import gmultiset pretty.
From S2P Require Import Prelude TabletStore CacheTypes MetadataCache DataCache DataTheorems.
From S2P Require Import Coordinator CoordinatorTheorems BlobReads TransactionReads Serializable.
From S2P Require Import KvStore KvTheorems CacheSystem MetadataReads.

Abbreviation answered := (list (KeyValueRequest * KeyValueResponse)).

Lemma kv_run_app d l1 l2 :
  kv_run d (l1 ++ l2)
  = ((kv_run (kv_run d l1).1 l2).1, (kv_run d l1).2 ++ (kv_run (kv_run d l1).1 l2).2).
Proof.
  revert d. induction l1 as [|r l1 IH]; intros d; simpl; [by destruct (kv_run d l2)|].
  destruct (kv_apply d r) as [d1 response]. rewrite IH.
  destruct (kv_run d1 l1) as [d2 responses]. simpl. by destruct (kv_run d2 l2).
Qed.

Section store.
Context {Tx Tc : Type} `{HCodec : !ProtoCodec TabletContents}.
Variable hash_key : string → Z.

Abbreviation store_handler := (process_handler (Tx:=Tx) (Tc:=Tc) hash_key).

(** ** What the handler of the store does to a tablet *)

(** The requests that were answered on a tablet. *)
Definition tablet_batch (q : TableQuery) (before after : Tablet bytes) (batch : answered) : Prop :=
  (batch = [] ∧ after = before) ∨
  ∃ t t', process_table_query hash_key t q before = Return (t', after, batch).

(** The handler answers a batch on each tablet and keeps all of them in the transaction. *)
Definition handler_batches (w w' : StoreCell Tx Tc) (transaction_id : Z) (batches : list answered)
    : Prop :=
  match kc_transaction_trackers (st_core w) !! transaction_id,
        kc_transaction_trackers (st_core w') !! transaction_id with
  | Some x, Some x' => xt_requests x' = xt_requests x ++ (concat batches).*1 ∧
                       xt_responses x' = xt_responses x ++ (concat batches).*2
  | None, None => concat batches = []
  | _, _ => False
  end.

Lemma process_tablets_batches transaction_id results k x k' x' tablets :
  process_tablets (Tx:=Tx) (Tc:=Tc) hash_key transaction_id results k x = Return (k', x', tablets) →
  ∃ batches, xt_requests x' = xt_requests x ++ (concat batches).*1 ∧
    xt_responses x' = xt_responses x ++ (concat batches).*2 ∧
    Forall3 (λ y tablet batch, tablet_batch y.1 y.2 tablet batch) results tablets batches.
Proof using.
  revert k x tablets. induction results as [|[q tablet] results IH]; intros k x tablets H;
    cbn [process_tablets] in H.
  { injection H as <- <- <-. exists []. simpl. rewrite !app_nil_r. split_and!; [done..|constructor]. }
  apply bind_Return in H as ([[k1 x1] tablet1] & H1 & H).
  apply bind_Return in H as ([[k2 x2] tablets2] & H2 & H). injection H as <- <- <-.
  apply IH in H2 as (batches & Hreq & Hres & Hall).
  destruct (kc_tablet_trackers k !! tablet_get_id tablet) as [t|].
  - apply bind_Return in H1 as ([[t' tablet'] batch] & Hq & H1). injection H1 as <- <- <-.
    exists (batch :: batches). simpl in *. rewrite !fmap_app, Hreq, Hres, <- !(assoc_L (++)).
    split_and!; [done..|]. constructor; [|done]. right. by exists t, t'.
  - injection H1 as -> -> ->. exists ([] :: batches). split_and!; [done..|].
    constructor; [by left|done].
Qed.

Lemma handler_run_batches transaction_id refs w w' lent :
  store_handler transaction_id refs w = Return (w', lent) →
  ∃ batches, handler_batches w w' transaction_id batches ∧
    Forall3 (λ y tablet batch, tablet_batch y.1 y.2 tablet batch) refs lent batches.
Proof using.
  unfold process_handler, with_borrow, handler_batches. destruct (st_borrowed w); [done|].
  intros H. apply bind_Return in H as ([k tablets] & H & Heq). injection Heq as <- <-. simpl.
  unfold handle_query_process in H.
  destruct (kc_transaction_trackers (st_core w) !! transaction_id) as [x|] eqn:Ex.
  - apply bind_Return in H as ([[k1 x1] tablets1] & H & Heq). injection Heq as <- <-. simpl.
    rewrite lookup_insert_eq. apply process_tablets_batches in H as (batches & ? & ? & ?).
    by exists batches.
  - injection H as <- <-. rewrite Ex. exists (replicate (length refs) []). split.
    + induction refs; by simpl.
    + induction refs; constructor; [by left|done].
Qed.

(** The answers of a transaction that is being prepared are kept, and added to. *)
Definition answers_kept (transaction_id : Z) (w w' : StoreCell Tx Tc) : Prop :=
  ∀ x, kc_transaction_trackers (st_core w) !! transaction_id = Some x →
  ∃ x' (more : answered), kc_transaction_trackers (st_core w') !! transaction_id = Some x' ∧
    xt_requests x' = xt_requests x ++ more.*1 ∧ xt_responses x' = xt_responses x ++ more.*2.

#[global] Instance answers_kept_preorder id : PreOrder (answers_kept id).
Proof.
  split.
  - intros w x Hx. exists x, []. by rewrite !app_nil_r.
  - intros w1 w2 w3 H12 H23 x Hx. destruct (H12 x Hx) as (x2 & more2 & Hx2 & Hq2 & Hr2).
    destruct (H23 x2 Hx2) as (x3 & more3 & Hx3 & Hq3 & Hr3). exists x3, (more2 ++ more3).
    by rewrite Hq3, Hr3, Hq2, Hr2, !fmap_app, !(assoc_L (++)).
Qed.

Lemma handler_keeps_answers id transaction_id refs w w' lent :
  store_handler transaction_id refs w = Return (w', lent) → answers_kept id w w'.
Proof using.
  intros H x Hx. pose proof (handler_run_batches _ _ _ _ _ H) as (batches & Hb & _).
  destruct (decide (transaction_id = id)) as [<-|Hne].
  - unfold handler_batches in Hb. rewrite Hx in Hb.
    destruct (kc_transaction_trackers (st_core w') !! transaction_id) as [x'|]; [|done].
    destruct Hb. by exists x', (concat batches).
  - exists x, []. rewrite !app_nil_r. split_and!; [|done..]. clear Hb.
    unfold process_handler, with_borrow in H. destruct (st_borrowed w); [done|].
    apply bind_Return in H as ([k tablets] & H & Heq). injection Heq as <- <-. simpl.
    unfold handle_query_process in H.
    destruct (kc_transaction_trackers (st_core w) !! transaction_id) as [y|]; [|by injection H as <- _].
    apply bind_Return in H as ([[k1 x1] tablets1] & H & Heq). injection Heq as <- _. simpl.
    apply process_tablets_ok in H as [_ (_ & _ & Ht & _) _ _ _ _ _].
    by rewrite lookup_insert_ne, Ht.
Qed.

(** Taking requests, resolving them and handing out responses keep all answers. *)
Lemma append_request_answers id (w : StoreCell Tx Tc) request :
  answers_kept id w {| st_core := append_request (st_core w) request; st_borrowed := st_borrowed w |}.
Proof using. intros x Hx. exists x, []. by rewrite !app_nil_r. Qed.

Lemma resolve_keeps_answers id results (w w' : StoreCell Tx Tc) :
  resolve_handler results w = Return w' → answers_kept id w w'.
Proof using.
  unfold resolve_handler, with_borrow. destruct (st_borrowed w); [done|]. simpl.
  intros [= <-] x Hx. exists x, []. rewrite !app_nil_r. split_and!; [|done..]. simpl.
  unfold handle_query_resolve. revert Hx. generalize (st_core w) as k.
  induction results as [|[q t] results IH]; intros k Hx; simpl; [done|]. by apply IH.
Qed.

Lemma store_handler_ok : process_handler_ok store_handler.
Proof using.
  intros id refs w w' lent H. unfold process_handler, with_borrow in H. destruct (st_borrowed w); [done|].
  apply bind_Return in H as ([k tablets] & H & Heq). injection Heq as _ <-.
  by apply handle_query_process_ok in H as (_ & _ & _ & H).
Qed.

(** Answering requests on the contents of a tablet is running them on its map. *)
Lemma tablet_batch_run q before after batch :
  tablet_batch q before after batch →
  (batch = [] ∧ after = before) ∨
  ∃ contents dict dict', tb_contents before = Some contents ∧
    proto_decode contents = Some {| tcn_dictionary := dict |} ∧
    kv_run dict batch.*1 = (dict', batch.*2) ∧
    (after = before ∧ dict' = dict ∨
     ∃ c, after = tablet_set_contents c before ∧ proto_decode c = Some {| tcn_dictionary := dict' |}).
Proof using.
  intros [?|(t & t' & H)]; [by left|]. pose proof H as Hret. unfold process_table_query in H.
  apply bind_Return in H as (contents & Hc & H). apply unwrap_Return in Hc.
  apply bind_Return in H as ([dict] & Hd & H). apply unwrap_Return in Hd.
  destruct (tt_waiting_processing_requests t !! tq_query_id q) as [rs|] eqn:Ers.
  2: { injection H as _ <- <-. by left. }
  clear H. pose proof (process_table_query_run hash_key t q before _ _ _ Hc Hd Ers) as H.
  cbv zeta in H. set (batch0 := filter (covered hash_key q) rs) in H.
  pose proof (kv_run_length dict batch0) as Hlen. pose proof (kv_run_reads dict batch0) as Hreads.
  destruct (kv_run dict batch0) as [dict' responses] eqn:Erun. rewrite Hret in H. simpl in *.
  injection H as _ -> ->. right. exists contents, dict, dict'.
  rewrite fst_zip, snd_zip by lia. split_and!; [done|done|done|].
  destruct (existsb is_put batch0); [right|left; split; [done|by apply Hreads]].
  eexists. split; [done|]. apply proto_decode_encode.
Qed.

(** ** The answers of the tablet store *)

(** The results of a request are those of its operations against the tables. *)
Lemma apply_results tables request tables' out response :
  on_apply_tablets_request tables request = Return (tables', (out, response)) →
  Forall2 (λ op r, prepare_tablet_op tables op = Return r)
    (tr_tablet_ops request) (trs_tablet_results response).
Proof using.
  unfold on_apply_tablets_request. intros H. apply bind_Return in H as (rs & Hrs & H).
  apply prepare_tablet_ops_forall in Hrs. apply bind_Return in H as ([t rs'] & H & Heq).
  injection Heq as <- _ <-. simpl. destruct (forallb _ rs); [|by injection H as _ <-].
  apply commit_tablet_ops_results in H as ->. rewrite snd_zip; [done|].
  by rewrite (Forall2_length _ _ _ Hrs).
Qed.

Lemma store_states_next tables log k sk request tables' answer :
  log !! k = Some request → store_states tables log !! k = Some sk →
  on_apply_tablets_request sk request = Return (tables', answer) →
  store_states tables log !! S k = Some tables'.
Proof using.
  intros Hlog Hsk Happ. replace (S k) with (k + 1)%nat by lia. rewrite (store_states_drop _ _ _ _ Hsk).
  rewrite (drop_S log request k Hlog). simpl. rewrite Happ. apply store_states_head.
Qed.

(** The tablets in an answer are those of the store: the tablets that were listed, and the
    existing tablet of a check or an update. *)
Lemma answer_tablets tables op r x :
  prepare_tablet_op tables op = Return r →
  (∃ from to tablets, tor_op_result r = Some (ListTabletResult from to tablets) ∧ x ∈ tablets) ∨
  tor_op_result r = Some (CheckTabletResult (Some x)) ∨
  tor_op_result r = Some (UpdateTabletResult (Some x)) →
  tor_table_name r = to_table_name op ∧ ∃ id, tablet_of tables (to_table_name op) id = Some x.
Proof using.
  unfold prepare_tablet_op, tablet_of. destruct (tables !! to_table_name op) as [table|];
    [|by intros [= <-] [(? & ? & ? & ? & ?)|[?|?]]]. simpl.
  destruct (to_op op) as [[from to|i v| |[u|]|]|]; simpl; try done.
  - intros H Hx. injection H as <-. destruct Hx as [(? & ? & l & Hl & Hx)|[?|?]]; [|done..].
    injection Hl as _ _ <-. split; [done|]. by apply find_tablets_stored in Hx.
  - destruct (tb_tablets table !! i) as [t|] eqn:Ei; [case_decide as E|]; intros [= <-];
      intros [(? & ? & ? & ? & ?)|[H|?]]; try done. injection H as <-. split; [done|]. by exists i.
  - destruct (tb_tablets table !! tm_tablet_id u) as [t|] eqn:Ei; intros [= <-];
      intros [(? & ? & ? & ? & ?)|[?|H]]; try done. injection H as <-. split; [done|]. by exists (tm_tablet_id u).
  - intros [= <-] [(? & ? & ? & ? & ?)|[?|?]]; done.
  - intros [= <-] [(? & ? & ? & ? & ?)|[?|?]]; done.
Qed.

(** What a coordinator takes from the results of its operations. *)
Lemma complete_tablets ops results o metas x :
  committing_complete {| cts_tablet_ops := ops |} results = Return (o, metas) → x ∈ metas →
  ∃ op r, (op, r) ∈ zip ops results ∧ x.1.1 = to_table_name op ∧
    (tor_status r = TabletOpSucceeded ∧ to_op op = Some (UpdateTablet (Some x.1.2)) ∨
     tor_op_result r = Some (CheckTabletResult (Some x.1.2)) ∨
     tor_op_result r = Some (UpdateTabletResult (Some x.1.2))).
Proof using.
  unfold committing_complete. simpl. intros H Hx.
  assert (∀ l st, ofold complete_op st l = Return (o, metas) → x ∈ st.2 ∨
    ∃ op r, (op, r) ∈ l ∧ x.1.1 = to_table_name op ∧
      (tor_status r = TabletOpSucceeded ∧ to_op op = Some (UpdateTablet (Some x.1.2)) ∨
       tor_op_result r = Some (CheckTabletResult (Some x.1.2)) ∨
       tor_op_result r = Some (UpdateTabletResult (Some x.1.2)))) as Hall.
  { clear H. induction l as [|[op r] l IH]; intros st H; cbn [ofold] in H.
    { injection H as ->. by left. }
    apply bind_Return in H as (st1 & H1 & [Hin|(op' & r' & ? & ?)]%IH).
    2: { right. exists op', r'. split; [by right|done]. }
    destruct st as [o0 metas0]. simpl in *.
    destruct (to_op op) as [[| i v | |u|]|] eqn:Eo, (tor_op_result r) as [[| e | | e |]|] eqn:Er; try done;
      case_bool_decide as Es.
    { injection H1 as <-. by left. }
    all: apply bind_Return in H1 as (e' & He%unwrap_Return & H1); injection H1 as <-; subst.
    all: apply elem_of_app in Hin as [?|Hin]; [by left|right].
    all: apply list_elem_of_singleton in Hin as ->; exists op, r; split; [by left|simpl; auto]. }
  destruct (Hall _ _ H) as [Hn|?]; [|done]. by apply not_elem_of_nil in Hn.
Qed.

(** The operation of a tablet that was processed. *)
Lemma outcome_accesses `{HB : !BlobNames bytes} resolvable handler tid w k (ts : TabletState bytes)
    base before after :
  tablet_outcome resolvable answers_kept handler tid w k ts base before after →
  op_accesses (get_tablet_op ts) (tq_table_name (ts_query ts)) (tm_tablet_id base)
    (tm_tablet_version base) ∧ tm_tablet_id (tb_metadata (ts_tablet ts)) = tm_tablet_id base.
Proof using.
  intros [_ _ _ _ _ _ Ha]. unfold get_tablet_op, op_accesses. simpl in *.
  destruct (tb_is_dirty (ts_tablet ts)).
  - by destruct Ha as (v & _ & [? ?] & _).
  - by destruct Ha as [_ ->].
Qed.

(** An operation accesses a tablet at one version. *)
Lemma accesses_inj op name id v name' id' v' :
  op_accesses op name id v → op_accesses op name' id' v' → in_u32 v → in_u32 v' →
  name = name' ∧ id = id' ∧ v = v'.
Proof using.
  intros [<- H] [<- H'] Hv Hv'. destruct (to_op op) as [[|i u| |[u|]|]|]; try done.
  - destruct H, H'. split_and!; congruence.
  - destruct H, H'. split_and!; [done|congruence|]. apply u32_succ_inj; congruence.
Qed.

(** ** A cache over the log of the tablet store *)

Section clients.
Context {D : Type} `{HD : !TabletDataCache D bytes, HZ : !HashOrder Z, HS : !HashOrder string,
  HSZ : !HashOrder (string * Z), HL : !DataCacheLaws D bytes, HB : !BlobNames bytes,
  HV : !DataCacheView D, HR : !DataCacheReads D bytes}.

Abbreviation Cell := (StoreCell Tx Tc).
Abbreviation Metadata := (DefaultTabletMetadataCache Cell).
Abbreviation Coordinator := (DefaultTabletTransactionCoordinator Cell bytes).

Variable tables : gmap string TableMetadata.
Variable log : list TabletsRequest.
(** The table of the key-value store, and the place of the log that the client is at. *)
Variable name : string.
Variable place : nat.

(** A tablet that the store had at the place or before. *)
Definition stored_by (x : TabletMetadata) : Prop :=
  ∃ k sk, (k ≤ place)%nat ∧ store_states tables log !! k = Some sk ∧
    tablet_of sk name (tm_tablet_id x) = Some x.

Definition tablet_known (x : TabletMetadata) : Prop := stored_by x ∧ named x ∧ metadata_u32 x.

(** What the coordinator may resolve queries to, and its queries. *)
Definition known_for (q : TableQuery) (x : TabletMetadata) : Prop :=
  tq_table_name q = name ∧ stored_by x.

Definition on_table (queries : list TableQuery) : Prop :=
  Forall (λ q, tq_table_name q = name) queries.

(** The answer of the store to a request before the place. *)
Definition answered_at (sk : gmap string TableMetadata) (k : nat) (request : TabletsRequest)
    (results : list TabletOpResult) : Prop :=
  (k < place)%nat ∧ log !! k = Some request ∧ store_states tables log !! k = Some sk ∧
  ∃ tables' out response,
    on_apply_tablets_request sk request = Return (tables', (out, response)) ∧
    trs_tablet_results response = results.

(** A request that commits, or all of whose updates are refused. *)
Definition whole_answer (sk : gmap string TableMetadata) (request : TabletsRequest) : Prop :=
  request_commits sk request = true ∨
  ∀ op u, op ∈ tr_tablet_ops request → to_op op = Some (UpdateTablet (Some u)) →
    op_holds sk op = false.

Abbreviation client_state := (Coordinator * Metadata * D * Cell)%type.

(** The calls on the parts of a cache.  The store starts transactions with one process on its
    table, the storage answers with the blobs, the tablet store with what it has at the places
    of its log, and the other calls of the store keep the answers of open transactions. *)
Inductive client_step : client_state → client_state → Prop :=
| ClientRound c m d w c' m' d' w' :
    coordinator_u32 c → dcr_room d (open_processes c) →
    coordinator_make_progress c m d w = Return (c', m', d', w') →
    client_step (c, m, d, w) (c', m', d', w')
| ClientStart c m d w queries c' :
    0 ≤ co_transaction_counter c < two64 - 1 → on_table queries →
    process_transaction (create_transaction c).1 (create_transaction c).2 queries store_handler
    = Return c' →
    client_step (c, m, d, w) (c', m, d, w)
| ClientCommit c m d w id c' :
    0 ≤ co_correlation_counter c < two64 - 1 → commit_transaction c id = Return c' →
    client_step (c, m, d, w) (c', m, d, w)
| ClientAbort c m d w id : client_step (c, m, d, w) (abort_transaction c id, m, d, w)
| ClientCheck c m d w id c' o :
    check_transaction_result c id = Return (c', o) → client_step (c, m, d, w) (c', m, d, w)
| ClientTake c m d w : client_step (c, m, d, w) ((coordinator_take_out_messages c).1, m, d, w)
| ClientResponse c m d w corr results c' m' :
    (∀ id s, awaited c corr id s → ∃ sk k request, answered_at sk k request results ∧
       tr_tablet_ops request = cts_tablet_ops s ∧ whole_answer sk request) →
    coordinator_process_in_message c m (CoordinatorOpsResponse corr results) = Return (c', m') →
    client_step (c, m, d, w) (c', m', d, w)
| ClientListing c m d w corr results m' w' :
    Forall (λ x, ∃ sk k request answers, answered_at sk k request answers ∧ x ∈ answers) results →
    metadata_cache_process_in_message m w (ListResponse corr results) = Return (m', w') →
    client_step (c, m, d, w) (c, m', d, w')
| ClientResolve c m d w queries m' w' :
    on_table queries →
    metadata_cache_resolve_tablets_with_handler m w queries resolve_handler = Return (m', w') →
    client_step (c, m, d, w) (c, m', d, w')
| ClientMetadataProgress c m d w : client_step (c, m, d, w) (c, metadata_cache_make_progress m, d, w)
| ClientMetadataTake c m d w :
    client_step (c, m, d, w) (c, (metadata_cache_take_out_messages m).1, d, w)
| ClientData c m d w d' : honest_call d d' → client_step (c, m, d, w) (c, m, d', w)
| ClientStore c m d w w' :
    (∀ id t, co_transactions c !! id = Some t → transaction_evolves answers_kept t w w') →
    client_step (c, m, d, w) (c, m, d, w').

(** A cache as it is started. *)
Definition client_initial (n : Z) (d0 : D) (w0 : Cell) (x : client_state) : Prop :=
  ∃ n' config m0, metadata_cache_init (metadata_cache_create n') config = Return m0 ∧
    dcr_ok d0 ∧ dcl_ok d0 ∧ x = (coordinator_create n, m0, d0, w0).

(** *** What a client keeps *)

Abbreviation step := (honest_step (M:=Metadata) (λ handler, handler = store_handler) known_for
  on_table answers_kept).

Definition all_answers_kept : relation Cell := λ w w', ∀ id, answers_kept id w w'.

#[local] Instance all_answers_kept_preorder : PreOrder all_answers_kept.
Proof.
  split; [intros w id; reflexivity|]. intros w1 w2 w3 H12 H23 id. by etrans; [apply H12|apply H23].
Qed.

(** No two operations access a tablet of the table at one version, and what is written has its
    blob. *)
Record ops_known (ops : list TabletOp) : Prop := {
  ok_once i i' op op' id v : ops !! i = Some op → ops !! i' = Some op' → in_u32 v →
    op_accesses op name id v → op_accesses op' name id v → i = i';
  ok_written op u : op ∈ ops → to_op op = Some (UpdateTablet (Some u)) → named u ∧ metadata_u32 u
}.

Definition transaction_known (t : TabletTransactionState Cell bytes) : Prop :=
  match t with
  | TransactionPreparing s => (length (pts_process_requests s) ≤ 1)%nat
  | TransactionCommitting s => ops_known (cts_tablet_ops s)
  | TransactionCompleted _ => True
  end.

Record client_inv (x0 : Coordinator * D * Cell) (x : client_state) : Prop := {
  ci_steps : rtc step x0 (x.1.1.1, x.1.2, x.2);
  ci_metadata : metadata_given name tablet_known x.1.1.2;
  ci_handlers : metadata_within all_answers_kept x.1.1.2;
  ci_transactions : map_Forall (λ _, transaction_known) (co_transactions x.1.1.1)
}.

(** *** The metadata cache *)

Lemma asks_known m m' :
  rtc (asks (W:=Cell) on_table) m m' → metadata_given name tablet_known m →
  metadata_within all_answers_kept m →
  metadata_given name tablet_known m' ∧ metadata_within all_answers_kept m'.
Proof using.
  induction 1 as [m|m m1 m' (w & queries & w' & h & Hq & H) _ IH]; [done|]. intros Hm Hw.
  apply IH.
  - by apply (resolve_source_given name tablet_known) in H as [? _].
  - by apply (resolve_source_within all_answers_kept) in H as [_ ?].
Qed.

(** A metadata cache that was given what the store had resolves to it. *)
Lemma known_resolves m :
  metadata_given name tablet_known m → metadata_within all_answers_kept m →
  cache_resolves known_for on_table answers_kept m.
Proof using.
  intros Hm Hw m' Hasks. destruct (asks_known m m' Hasks Hm Hw) as [Hm' Hw']. split.
  - intros h values Hv. destruct (mg_cells _ _ _ Hm' _ _ Hv) as [Hall Hnd]. split.
    + eapply Forall_impl; [exact Hall|]. intros [q x] [Hq (Hst & Hn & _)]. by split.
    + intros x y Hx Hy Hk. rewrite Forall_forall in Hall.
      destruct (Hall x Hx) as [_ (_ & _ & Hux)], (Hall y Hy) as [_ (_ & _ & Huy)].
      destruct (create_tablet_key_parts _ Hux) as [Hdx _], (create_tablet_key_parts _ Huy) as [Hdy _].
      assert (x = y) as ->; [|done]. eapply (NoDup_fmap_key _ _ _ _ Hnd Hx Hy). congruence.
  - intros id w queries m'' w' h Hq H. apply (resolve_source_given name tablet_known) in H as [_ ->]; [|done..].
    reflexivity.
Qed.
(** *** Rounds and commits *)

Lemma advance_processes_length id ps (m : Metadata) (d : D) (w : Cell) ps' m' d' w' :
  advance_processes id ps m d w = Return (ps', m', d', w') → length ps' = length ps.
Proof using.
  revert m d w ps' m' d' w'. induction ps as [|p ps IH]; intros m d w ps' m' d' w' H; cbn [advance_processes] in H.
  { by injection H as <- _ _ _. }
  apply bind_Return in H as ([[[p1 m1] d1] w1] & _ & H).
  apply bind_Return in H as ([[[ps1 m2] d2] w2] & Hr & H). injection H as <- _ _ _.
  simpl. f_equal. by eapply IH.
Qed.

Lemma round_known c (m : Metadata) (d : D) w c' m' d' w' :
  map_Forall (λ _, transaction_known) (co_transactions c) →
  coordinator_make_progress c m d w = Return (c', m', d', w') →
  map_Forall (λ _, transaction_known) (co_transactions c').
Proof using.
  intros Hc H. unfold coordinator_make_progress in H.
  apply bind_Return in H as ([[[ts1 m1] d1] w1] & H & Heq). injection Heq as <- _ _ _. simpl.
  assert (Forall (λ x, transaction_known x.2) (hash_iter (co_transactions c))) as Hall.
  { apply Forall_forall. intros [id t] Hx. rewrite hash_iter_perm, elem_of_map_to_list in Hx.
    by apply (Hc id t). }
  revert Hc Hall H. generalize (hash_iter (co_transactions c)) as l. generalize (co_transactions c) as ts.
  intros ts l. revert m d w ts. induction l as [|[id t] l IH]; intros m d w ts Hts Hall H; simpl in H.
  { by injection H as <- _ _ _. }
  apply Forall_cons in Hall as [Ht Hall]. destruct t as [s|s|o]; simpl in *; [|by eapply (IH m d w)..].
  apply bind_Return in H as ([[[ts2 m2] d2] w2] & Hadv & H).
  apply bind_Return in Hadv as ([[[s2 m3] d3] w3] & Hadv & Heq). injection Heq as <- <- <- <-.
  apply bind_Return in Hadv as ([[[ps m4] d4] w4] & Hlen%advance_processes_length & Heq).
  injection Heq as <- <- <- <-. eapply IH; [|done|exact H]. apply map_Forall_insert_2; [|done].
  simpl. by rewrite Hlen.
Qed.

Lemma process_ops_lookup (p : TabletProcessState Cell bytes) i op :
  process_ops p !! i = Some op →
  ∃ k ts, hash_iter (ps_tablets p) !! i = Some (k, ts) ∧ op = get_tablet_op ts.
Proof using.
  unfold process_ops. rewrite <- list_fmap_compose, list_lookup_fmap.
  intros ([k ts] & Hi & ->)%fmap_Some. by exists k, ts.
Qed.

(** The operations of a transaction with one process. *)
Lemma commit_known n d0 w0 c d w id s :
  dcr_ok d0 → dcl_ok d0 → rtc step (coordinator_create n, d0, w0) (c, d, w) →
  co_transactions c !! id = Some (TransactionPreparing s) → is_active s = false →
  (length (pts_process_requests s) ≤ 1)%nat → ops_known (pts_process_requests s ≫= process_ops).
Proof using HR.
  intros Hd0 Hl0 Hsteps Hs Hact Hlen.
  assert (∀ k ts, transaction_tablet s k ts → ∃ base before after, tablet_outcome known_for
    answers_kept store_handler (pts_transaction_id s) w k ts base before after) as Hdone.
  { intros k ts Hts. destruct (committed_tablet_done (M:=Metadata) (λ h, h = store_handler)
      ltac:(by intros h ->; apply store_handler_ok) known_for on_table answers_kept
      ltac:(by intros h ? ? ? ? ? ? -> H; eapply handler_keeps_answers, H)
      n d0 w0 c d w id s k ts Hd0 Hl0 Hsteps Hs Hact Hts) as (handler & -> & Ho). exact Ho. }
  split.
  - destruct (pts_process_requests s) as [|p [|]] eqn:Ep; [done| |simpl in Hlen; lia].
    simpl. rewrite app_nil_r. intros i i' op op' id' v Hi Hi' Hv Ha Ha'.
    apply process_ops_lookup in Hi as (k & ts & Hi & ->), Hi' as (k' & ts' & Hi' & ->).
    assert (∀ i k ts, hash_iter (ps_tablets p) !! i = Some (k, ts) →
      op_accesses (get_tablet_op ts) name id' v →
      ∃ base, create_tablet_key base = k ∧ metadata_u32 base ∧ tm_tablet_id base = id' ∧
        tm_tablet_version base = v) as Hkey.
    { clear -Ep Hdone Hv. intros i k ts Hi Ha. apply list_elem_of_lookup_2 in Hi.
      rewrite hash_iter_perm, elem_of_map_to_list in Hi.
      destruct (Hdone k ts) as (base & before & after & Ho).
      { exists p. split; [rewrite Ep; by left|done]. }
      destruct (outcome_accesses _ _ _ _ _ _ _ _ _ Ho) as [Hacc _]. destruct Ho as [_ Hk Hu _ _ _ _].
      destruct (accesses_inj _ _ _ _ _ _ _ Hacc Ha (proj2 Hu) Hv) as (_ & ? & ?).
      by exists base. }
    destruct (Hkey i k ts Hi Ha) as (b & <- & _ & Hb & Hbv).
    destruct (Hkey i' k' ts' Hi' Ha') as (b' & <- & _ & Hb' & Hbv').
    assert (create_tablet_key b = create_tablet_key b') as Hk.
    { unfold create_tablet_key. by rewrite Hb, Hb', Hbv, Hbv'. }
    eapply (NoDup_lookup (hash_iter (ps_tablets p)).*1);
      [|rewrite list_lookup_fmap, Hi; done|rewrite list_lookup_fmap, Hi'; simpl; by rewrite Hk].
    rewrite hash_iter_perm. apply NoDup_fst_map_to_list.
  - intros op u (k & ts & Hts & ->)%transaction_ops_elem Hop.
    destruct (Hdone k ts Hts) as (base & before & after & Ho).
    destruct Ho as [_ _ [Hid _] _ _ _ Ha]. unfold get_tablet_op in Hop. simpl in *.
    destruct (tb_is_dirty (ts_tablet ts)); [|done]. injection Hop as <-.
    destruct Ha as (v & _ & [Hi Hv] & Hn). split; [by exists v|]. split.
    + by rewrite Hi.
    + rewrite Hv. unfold in_u32, u32_add. apply Z.mod_pos_bound. lia.
Qed.

(** *** Answers of the store *)

(** The tablets of the table are kept under their ids and have blobs. *)
Definition table_good (sk : gmap string TableMetadata) : Prop :=
  ∀ id x, tablet_of sk name id = Some x → tm_tablet_id x = id ∧ named x ∧ metadata_u32 x.

Section runs.
Hypothesis supported : Forall (λ r, Forall op_supported (tr_tablet_ops r)) log.
Hypothesis good : ∀ k sk, (k ≤ place)%nat → store_states tables log !! k = Some sk → table_good sk.

Lemma good_known k sk id x :
  (k ≤ place)%nat → store_states tables log !! k = Some sk → tablet_of sk name id = Some x →
  tablet_known x.
Proof using good.
  intros Hk Hsk Hx. destruct (good k sk Hk Hsk id x Hx) as (<- & ? & ?). split; [|done].
  by exists k, sk.
Qed.

Lemma answer_prepared sk k request results i r :
  answered_at sk k request results → results !! i = Some r →
  ∃ op, tr_tablet_ops request !! i = Some op ∧ prepare_tablet_op sk op = Return r.
Proof using.
  intros (_ & _ & _ & tables' & out & response & H%apply_results & <-) Hr.
  by apply (Forall2_lookup_r _ _ _ _ _ H).
Qed.

Lemma listing_known sk k request answers x :
  answered_at sk k request answers → x ∈ answers → listing_given name tablet_known x.
Proof using good.
  intros Ha [i Hi]%list_elem_of_lookup from to tablets Hn _ Hr.
  destruct (answer_prepared _ _ _ _ _ _ Ha Hi) as (op & _ & Hop).
  apply Forall_forall. intros y Hy.
  destruct (answer_tablets sk op x y Hop) as (Hname & id & Hid).
  { left. by exists from, to, tablets. }
  destruct Ha as (Hk & _ & Hsk & _). eapply (good_known k sk); [lia|done|].
  rewrite <- Hname, Hn in Hid. exact Hid.
Qed.

(** What a request that succeeds writes to a tablet is what its one operation on it does. *)
Lemma written_once sk ops id m op :
  forallb (op_holds sk) ops = true → ops_known ops → tablet_of sk name id = Some m →
  in_u32 (tm_tablet_version m) → op ∈ ops → op_accesses op name id (tm_tablet_version m) →
  ops_written ops name id = op_written name id op.
Proof using.
  intros Hall Hops Hm Hv Hin Hacc. rewrite forallb_forall in Hall.
  destruct (ops_written ops name id) as [u|] eqn:Eu.
  - apply last_Some_elem_of, list_elem_of_omap in Eu as (op' & Hin' & Hw).
    destruct (op_written_holds sk op' name id u) as (m' & Hm' & Hu); [|done|].
    { by apply Hall, list_elem_of_In. }
    rewrite Hm in Hm'. injection Hm' as <-.
    assert (op_accesses op' name id (tm_tablet_version m)) as Hacc'.
    { unfold op_written in Hw. unfold op_accesses. destruct (to_op op') as [[| | |[u'|]|]|]; try done.
      case_decide as E; [|done]. injection Hw as ->. by destruct E. }
    apply list_elem_of_lookup in Hin as [i Hi], Hin' as [i' Hi'].
    assert (i = i') as <- by (eapply (ok_once _ Hops); [done..|exact Hacc|exact Hacc']). congruence.
  - destruct (op_written name id op) as [u|] eqn:Ew; [|done].
    destruct (written_of_update _ _ _ _ _ Hin Ew) as [u' Hu']. congruence.
Qed.

(** An update that the store accepts is what it has afterwards. *)
Lemma update_stored sk k request op u :
  log !! k = Some request → store_states tables log !! k = Some sk → (k < place)%nat →
  request_commits sk request = true → ops_known (tr_tablet_ops request) →
  op ∈ tr_tablet_ops request → to_table_name op = name →
  to_op op = Some (UpdateTablet (Some u)) → tablet_known u.
Proof using supported good.
  intros Hlog Hsk Hk Hc Hops Hin Hname Hop.
  assert (Forall op_supported (tr_tablet_ops request)) as Hsup by by eapply Forall_lookup_1 in supported.
  destruct (request_step sk request Hsup) as (tables' & answer & Happ & Hholds & Htab).
  rewrite Hc in Hholds, Htab. symmetry in Hholds.
  assert (op_written name (tm_tablet_id u) op = Some u) as Hw.
  { unfold op_written. by rewrite Hop, decide_True. }
  destruct (op_written_holds sk op name (tm_tablet_id u) u) as (m & Hm & Hv); [|done|].
  { rewrite forallb_forall in Hholds. by apply Hholds, list_elem_of_In. }
  assert (request_written request name (tm_tablet_id u) = Some u) as Hwritten.
  { rewrite <- Hw. eapply written_once; [done..| |done|].
    - by apply (good k sk ltac:(lia) Hsk _ _ Hm).
    - unfold op_accesses. by rewrite Hop. }
  split; [|by apply (ok_written _ Hops op u)].
  exists (S k), tables'. split_and!; [lia|by eapply store_states_next|]. rewrite Htab, Hwritten.
  by destruct (tablet_of sk name (tm_tablet_id u)).
Qed.

Lemma response_known sk k request results o metas :
  answered_at sk k request results → ops_known (tr_tablet_ops request) → whole_answer sk request →
  committing_complete {| cts_tablet_ops := tr_tablet_ops request |} results = Return (o, metas) →
  Forall (λ x, x.1.1 = name → tablet_known x.1.2) metas.
Proof using supported good.
  intros Ha Hops Hwhole H. apply Forall_forall. intros x Hx Hn.
  destruct (complete_tablets _ _ _ _ _ H Hx) as (op & r & Hin & Hname & Hcase).
  apply elem_of_lookup_zip_with in Hin as (i & op' & r' & Heq & Hop & Hr). injection Heq as <- <-.
  destruct (answer_prepared _ _ _ _ _ _ Ha Hr) as (op' & Hop' & Hprep).
  rewrite Hop in Hop'. injection Hop' as <-. destruct Ha as (Hk & Hlog & Hsk & _).
  destruct Hcase as [[Hst Hu]|Hex].
  - assert (op_supported op) as Hsup.
    { eapply Forall_lookup_1 in supported; [|done]. by eapply Forall_lookup_1 in supported. }
    destruct (prepare_tablet_op_spec sk op Hsup) as (r' & Hr' & Hholds & _).
    rewrite Hprep in Hr'. injection Hr' as <-. rewrite bool_decide_eq_true_2 in Hholds by done.
    apply list_elem_of_lookup_2 in Hop. destruct Hwhole as [Hc|Hnone].
    + eapply update_stored; [done..|congruence|done].
    + rewrite (Hnone op _ Hop Hu) in Hholds. done.
  - destruct (answer_tablets sk op r x.1.2 Hprep) as (_ & id & Hid); [by right|].
    eapply (good_known k sk); [lia|done|]. by rewrite <- Hn, Hname.
Qed.

(** *** Runs *)

Lemma insert_known c c' id t :
  map_Forall (λ _, transaction_known) (co_transactions c) →
  co_transactions c' = <[id := t]> (co_transactions c) → transaction_known t →
  map_Forall (λ _, transaction_known) (co_transactions c').
Proof using. intros Hc Hts Ht. rewrite Hts. by apply map_Forall_insert_2. Qed.

Lemma abort_known (c : Coordinator) id :
  map_Forall (λ _, transaction_known) (co_transactions c) →
  map_Forall (λ _, transaction_known) (co_transactions (abort_transaction c id)).
Proof using. intros Hc. by apply map_Forall_delete. Qed.

(** A transaction is started with one process. *)
Lemma start_known c queries c' :
  map_Forall (λ _, transaction_known) (co_transactions c) →
  process_transaction (create_transaction c).1 (create_transaction c).2 queries store_handler
  = Return c' → map_Forall (λ _, transaction_known) (co_transactions c').
Proof using.
  intros Hc H. unfold process_transaction in H. simpl in H. rewrite lookup_insert_eq in H.
  injection H as <-. simpl. apply map_Forall_insert_2; [simpl; lia|].
  apply map_Forall_insert_2; [simpl; lia|done].
Qed.

Lemma commit_call_known n d0 w0 c d w id c' :
  dcr_ok d0 → dcl_ok d0 → rtc step (coordinator_create n, d0, w0) (c, d, w) →
  map_Forall (λ _, transaction_known) (co_transactions c) → commit_transaction c id = Return c' →
  map_Forall (λ _, transaction_known) (co_transactions c').
Proof using HR.
  intros Hd0 Hl0 Hsteps Hc H.
  destruct (co_transactions c !! id) as [[s| |]|] eqn:Et;
    try by (unfold commit_transaction in H; rewrite Et in H).
  destruct (commit_transaction_inv c id s c' Et H) as (Hact & Hts & _).
  eapply insert_known; [done|exact Hts|]. eapply commit_known; [done..|]. by apply (Hc id _ Et).
Qed.

(** The response of the store to the request of a transaction. *)
Lemma message_known c (m : Metadata) corr results c' m' :
  metadata_given name tablet_known m → metadata_within all_answers_kept m →
  map_Forall (λ _, transaction_known) (co_transactions c) →
  (∀ id s, awaited c corr id s → ∃ sk k request, answered_at sk k request results ∧
     tr_tablet_ops request = cts_tablet_ops s ∧ whole_answer sk request) →
  coordinator_process_in_message c m (CoordinatorOpsResponse corr results) = Return (c', m') →
  metadata_given name tablet_known m' ∧ metadata_within all_answers_kept m' ∧
  map_Forall (λ _, transaction_known) (co_transactions c').
Proof using supported good.
  intros Hm Hw Hc Hans H. simpl in H. destruct (co_correlations c !! corr) as [id|] eqn:Ec.
  2: { by injection H as <- <-. }
  destruct (co_transactions c !! id) as [[s|[ops]|o]|] eqn:Et; try by injection H as <- <-.
  apply bind_Return in H as ([o metas] & Hcomp & H). apply bind_Return in H as (m1 & Hup & H).
  injection H as <- <-. destruct (Hans id _ (conj Ec Et)) as (sk & k & request & Ha & Hops & Hwhole).
  simpl in Hops. subst ops. pose proof (Hc id _ Et) as Hknown. simpl in Hknown.
  pose proof (response_known _ _ _ _ _ _ Ha Hknown Hwhole Hcomp) as Hmetas. clear Hcomp.
  assert (metadata_given name tablet_known m1 ∧ metadata_within all_answers_kept m1) as [? ?].
  { revert m Hm Hw Hup. induction Hmetas as [|[[table x] conflict] metas Hx _ IH]; intros m Hm Hw Hup;
      cbn [ofold] in Hup; [by injection Hup as <-|].
    apply bind_Return in Hup as (m2 & H2 & Hup). injection H2 as <-.
    eapply IH; [|..|exact Hup]; [by apply update_tablet_given|by apply update_tablet_within]. }
  split_and!; [done..|]. simpl. by apply map_Forall_insert_2.
Qed.

(** A round uses the metadata cache only to resolve queries on the table. *)
Lemma round_asks n d0 w0 c (m : Metadata) d w c' m' d' w' :
  dcr_ok d0 → dcl_ok d0 → rtc step (coordinator_create n, d0, w0) (c, d, w) →
  cache_resolves known_for on_table answers_kept m → coordinator_u32 c →
  dcr_room d (open_processes c) → coordinator_make_progress c m d w = Return (c', m', d', w') →
  rtc (asks on_table) m m'.
Proof using HR.
  intros Hd0 Hl0 Hs Hres Hu Hr H.
  pose proof (honest_steps_reads (M:=Metadata) (λ h, h = store_handler)
    ltac:(by intros h ->; apply store_handler_ok) known_for on_table answers_kept
    ltac:(by intros h ? ? ? ? ? ? -> Hh'; eapply handler_keeps_answers, Hh')
    n d0 w0 c d w Hd0 Hl0 Hs) as (Hd & Hl & Hc).
  by eapply (coordinator_progress_reads (λ h, h = store_handler)
    ltac:(by intros h ->; apply store_handler_ok) known_for on_table answers_kept
    ltac:(by intros h ? ? ? ? ? ? -> Hh'; eapply handler_keeps_answers, Hh')) in H as (_ & _ & ?).
Qed.

Lemma client_step_inv n d0 w0 x y :
  dcr_ok d0 → dcl_ok d0 → client_step x y →
  client_inv (coordinator_create n, d0, w0) x → client_inv (coordinator_create n, d0, w0) y.
Proof using HR supported good.
  intros Hd0 Hl0 Hstep [Hs Hm Hh Ht].
  assert (∀ y, step (x.1.1.1, x.1.2, x.2) y → rtc step (coordinator_create n, d0, w0) y) as Hone.
  { intros z Hz. by eapply rtc_r. }
  assert (∀ (c : Coordinator) w w', all_answers_kept w w' →
    ∀ id t, co_transactions c !! id = Some t → transaction_evolves answers_kept t w w') as Hevolves.
  { intros c w w' Hw id [] _; [apply Hw|done..]. }
  destruct Hstep as [c m d w c' m' d' w' Hu Hr H|c m d w queries c' Hn Hq H|c m d w id c' Hn H
    |c m d w id|c m d w id c' o H|c m d w|c m d w corr results c' m' Hans H
    |c m d w corr results m' w' Hans H|c m d w queries m' w' Hq H|c m d w|c m d w
    |c m d w d' H|c m d w w' H]; cbn [fst snd] in *.
  - assert (cache_resolves known_for on_table answers_kept m) as Hres by by apply known_resolves.
    pose proof (round_asks n d0 w0 c m d w c' m' d' w' Hd0 Hl0 Hs Hres Hu Hr H) as Hasks.
    destruct (asks_known m m' Hasks Hm Hh) as [? ?].
    split; simpl; [|done..|by eapply round_known]. by eapply Hone, HonestRound.
  - split; simpl; [|done..|by eapply start_known].
    eapply rtc_r; [apply Hone, HonestCoordinator, CallCreate, Hn|].
    by eapply HonestCoordinator, CallProcessQueries.
  - split; simpl; [|done..|by eapply commit_call_known].
    by eapply Hone, HonestCoordinator, CallCommit.
  - split; simpl; [|done..|by apply abort_known]. by apply Hone, HonestCoordinator, CallAbort.
  - split; simpl; [by eapply Hone, HonestCoordinator, CallCheck|done..|].
    unfold check_transaction_result in H. destruct (co_transactions c !! id) as [[| |]|]; try done.
    + by injection H as <- _.
    + injection H as <- _. by apply abort_known.
  - split; simpl; [|done..]. by apply Hone, HonestCoordinator, CallTakeMessages.
  - destruct (message_known c m corr results c' m' Hm Hh Ht Hans H) as (? & ? & ?).
    split; simpl; [|done..]. by eapply Hone, HonestCoordinator, CallInMessage.
  - pose proof (list_response_within all_answers_kept _ _ _ _ _ Hh H) as [Hw ?].
    split; simpl; [by apply Hone, HonestWorld, Hevolves| |done..].
    eapply message_given; [done| |exact H]. eapply Forall_impl; [exact Hans|].
    intros r (sk & k & request & answers & ? & ?). by eapply listing_known.
  - unfold metadata_cache_resolve_tablets_with_handler in H.
    destruct (resolve_within_world all_answers_kept m w queries (NotifyHandler resolve_handler) m' w')
      as [Hw ?]; [done| |done|].
    { intros r w1 w2 Hr id. by eapply resolve_keeps_answers. }
    split; simpl; [by apply Hone, HonestWorld, Hevolves| |done..].
    by eapply resolve_given.
  - split; simpl; [done|by apply progress_given|by apply metadata_progress_within|done].
  - split; simpl; [done|by apply take_messages_given|done..].
  - split; simpl; [|done..]. by apply Hone, HonestData.
  - split; simpl; [|done..]. by apply Hone, HonestWorld.
Qed.

(** A cache that was fed by the store and its storage: its coordinator ran over a metadata cache
    that resolves tablets only to what the store had. *)
Lemma client_run_inv n d0 w0 x y :
  client_initial n d0 w0 x → rtc client_step x y → client_inv (coordinator_create n, d0, w0) y.
Proof using HR supported good.
  intros (n' & config & m0 & Hm0 & Hd0 & Hl0 & ->) Hsteps.
  assert (client_inv (coordinator_create n, d0, w0) (coordinator_create n, m0, d0, w0)) as Hinit.
  { split; simpl; [done|by eapply init_given| |apply map_Forall_empty].
    unfold metadata_cache_init in Hm0. apply bind_Return in Hm0 as (t & _ & Heq). injection Heq as <-.
    apply map_Forall_empty. }
  revert Hinit. induction Hsteps as [x|x x1 y Hst _ IH]; [done|]. intros Hinv.
  by eapply IH, client_step_inv.
Qed.
End runs.
End clients.
End store.
