(* ===== verification/Linearizable.v ===== *)
(** * The key-value store over the tablet store

    The store ([KvStore]) and its transactions ([Coordinator], [TransactionReads]) with the log
    of the tablet store ([Serializable]): the puts and gets of the committed transactions of any
    number of caches ([CacheClients]) act on each tablet as on one map, in the order of the log. *)

From Stdlib Require Import Strings.Byte.
From stdpp Require Import gmultiset pretty.
From S2P Require Import Prelude TabletStore CacheTypes MetadataCache DataCache DataTheorems.
From S2P Require Import Coordinator CoordinatorTheorems BlobReads TransactionReads Serializable.
From S2P Require Import KvStore KvTheorems CacheSystem MetadataReads CacheClients.

Section store.
Context {Tx Tc : Type} `{HCodec : !ProtoCodec TabletContents}.
Variable hash_key : string → Z.

Abbreviation store_handler := (process_handler (Tx:=Tx) (Tc:=Tc) hash_key).

(** ** Clients of one tablet store *)

Section system.
Context {D : Type} `{HD : !TabletDataCache D bytes, HZ : !HashOrder Z, HS : !HashOrder string,
  HSZ : !HashOrder (string * Z), HL : !DataCacheLaws D bytes, HB : !BlobNames bytes,
  HV : !DataCacheView D, HR : !DataCacheReads D bytes}.
Variable tables : gmap string TableMetadata.
Variable log : list TabletsRequest.
Variable name : string.

Abbreviation transaction := (PreparingTabletTransactionState (StoreCell Tx Tc) bytes).

(** The map that the blob of a tablet holds. *)
Definition tablet_dict (m : TabletMetadata) (dict : gmap string bytes) : Prop :=
  ∃ contents, names_blob (tm_blob_uri m) (create_tablet_key m) contents ∧
    proto_decode contents = Some {| tcn_dictionary := dict |}.

(** A transaction of some cache that was fed with the answers of the store to requests before
    place [j], and whose commit sent the request at place [j], with the state of the cache's
    key-value store. *)
Inductive client_transaction (j : nat) (request : TabletsRequest) (s : transaction)
    (w : StoreCell Tx Tc) : Prop :=
| ClientTransaction n (d0 : D) w0 x0 c m d id c' :
    client_initial n d0 w0 x0 → rtc (client_step hash_key tables log name j) x0 (c, m, d, w) →
    co_transactions c !! id = Some (TransactionPreparing s) → commit_transaction c id = Return c' →
    co_out_messages c' = co_out_messages c
      ++ [CoordinatorOpsRequest (co_correlation_counter c +₆₄ 1) (tr_tablet_ops request)] →
    client_transaction j request s w.

Section tablet.
Variable tablet_id : Z.

(** The requests that the key-value store answered on the tablet when it processed a
    transaction, and has kept with the transaction since. *)
Definition transaction_answers (s : transaction) (w : StoreCell Tx Tc) (batch : answered) : Prop :=
  ∃ refs w0 w1 lent i q before after batches,
    store_handler (pts_transaction_id s) refs w0 = Return (w1, lent) ∧
    refs !! i = Some (q, before) ∧ lent !! i = Some after ∧
    tq_table_name q = name ∧ tablet_get_id before = tablet_id ∧
    handler_batches w0 w1 (pts_transaction_id s) batches ∧ batches !! i = Some batch ∧
    tablet_batch hash_key q before after batch ∧ answers_kept (pts_transaction_id s) w1 w.

(** A request on the tablet. *)
Definition op_touches (op : TabletOp) : bool :=
  bool_decide (to_table_name op = name) &&
  match to_op op with
  | Some (CheckTablet i _) => bool_decide (i = tablet_id)
  | Some (UpdateTablet (Some u)) => bool_decide (tm_tablet_id u = tablet_id)
  | _ => false
  end.

Definition request_touches (request : TabletsRequest) : bool :=
  existsb op_touches (tr_tablet_ops request).

Lemma op_written_touches op u : op_written name tablet_id op = Some u → op_touches op = true.
Proof using.
  unfold op_written, op_touches. destruct (to_op op) as [[| | |[u'|]|]|]; try done.
  case_decide as Hd; [|done]. destruct Hd as [? ?]. by rewrite !bool_decide_eq_true_2.
Qed.

Lemma untouched_not_written request :
  request_touches request = false → request_written request name tablet_id = None.
Proof using.
  intros H. destruct (request_written request name tablet_id) as [u|] eqn:Ew; [|done].
  apply last_Some_elem_of, list_elem_of_omap in Ew as (op & Hin & Hw%op_written_touches).
  apply not_true_iff_false in H. destruct H. apply existsb_exists. exists op.
  by rewrite <- list_elem_of_In.
Qed.

Lemma get_tablet_op_touches (ts : TabletState bytes) :
  op_touches (get_tablet_op ts) = true →
  tq_table_name (ts_query ts) = name ∧ tm_tablet_id (tb_metadata (ts_tablet ts)) = tablet_id.
Proof using.
  unfold op_touches, get_tablet_op. simpl. rewrite andb_true_iff, bool_decide_eq_true.
  by destruct (tb_is_dirty (ts_tablet ts)); rewrite bool_decide_eq_true.
Qed.

(** A tablet that was processed: the requests ran on the map of the tablet that was resolved,
    and the tablet that is asked for has the resulting map. *)
Lemma outcome_batch resolvable (s : transaction) w k ts base before after dict :
  tablet_outcome resolvable answers_kept store_handler (pts_transaction_id s) w k ts base before after →
  tq_table_name (ts_query ts) = name → tm_tablet_id base = tablet_id → tablet_dict base dict →
  ∃ batch dict', transaction_answers s w batch ∧ kv_run dict batch.*1 = (dict', batch.*2) ∧
    tablet_dict (tb_metadata (ts_tablet ts)) dict'.
Proof using.
  intros [_ Hkey Hu [Hb Hclean] Hc (refs & w0 & w1 & lent & i & Hrun & Hkept & Hq & Hl) Ha] Hname Hid Hdict.
  destruct (handler_run_batches hash_key _ _ _ _ _ Hrun) as (batches & Hbs & Hall).
  destruct (Forall3_lookup_l _ _ _ _ _ _ Hall Hq) as (after' & batch & Hl' & Hi & Hbatch).
  rewrite Hl in Hl'. injection Hl' as <-. simpl in Hbatch.
  assert (transaction_answers s w batch) as Hans.
  { exists refs, w0, w1, lent, i, (ts_query ts), before, after, batches. split_and!; try done.
    unfold tablet_get_id. by rewrite Hb. }
  assert (∀ c, before ≠ tablet_set_contents c before) as Hne.
  { intros c Heq. rewrite Heq in Hclean. done. }
  assert (∀ dict', dict' = dict → after = before → tablet_dict (tb_metadata (ts_tablet ts)) dict')
    as Hsame.
  { intros dict' -> ->. simpl in Ha. destruct (tb_is_dirty (ts_tablet ts)).
    - destruct Ha as (v & Heq & _). by apply Hne in Heq.
    - by destruct Ha as [_ ->]. }
  apply tablet_batch_run in Hbatch as [[-> ->]|(contents & d0 & d1 & Hcon & Hdec & Hkv & Hcase)].
  { exists [], dict. split_and!; [done|done|auto]. }
  destruct Hdict as (c0 & Hn0 & Hd0).
  destruct (names_functional _ _ _ _ _ (Hc _ Hcon) Hn0) as [_ ->].
  rewrite Hd0 in Hdec. injection Hdec as ->. exists batch, d1. split_and!; [done|done|].
  destruct Hcase as [[? ?]|(c & -> & Hd1)]; [auto|]. simpl in Ha.
  destruct (tb_is_dirty (ts_tablet ts)).
  - destruct Ha as (v & Heq & _ & Hnv). injection Heq as ->. by exists v.
  - destruct Ha as [Heq _]. symmetry in Heq. by apply Hne in Heq.
Qed.

End tablet.

Hypothesis supported : Forall (λ r, Forall op_supported (tr_tablet_ops r)) log.
Hypothesis room : versions_room tables (length log).

(** What such a transaction worked on. *)
Lemma client_transaction_known j request s w :
  (∀ k sk, (k ≤ j)%nat → store_states tables log !! k = Some sk → table_good name sk) →
  client_transaction j request s w →
  tr_tablet_ops request = pts_process_requests s ≫= process_ops ∧
  ops_known name (tr_tablet_ops request) ∧
  ∀ k ts, transaction_tablet s k ts → ∃ base before after, tablet_outcome
    (known_for tables log name j) answers_kept store_handler (pts_transaction_id s) w k ts base
    before after.
Proof using HR supported.
  intros Hgood [n d0 w0 x0 c m d id c' Hinit Hsteps Hprep Hcm Hout].
  destruct (client_run_inv hash_key tables log name j supported Hgood n d0 w0 x0 _ Hinit Hsteps)
    as [Hhonest _ _ Hknown]. simpl in *.
  destruct Hinit as (n' & config & m0 & _ & Hd0 & Hl0 & _).
  destruct (commit_transaction_inv c id s c' Hprep Hcm) as (Hact & _ & _ & Hout').
  rewrite Hout in Hout'. apply app_inv_head in Hout'. injection Hout' as Hops.
  split_and!; [done| |].
  - rewrite Hops. eapply (commit_known hash_key); [exact Hd0|done|exact Hhonest|done|done|].
    by apply (Hknown id _ Hprep).
  - intros k ts Hts. destruct (committed_tablet_done (M:=DefaultTabletMetadataCache (StoreCell Tx Tc))
      (λ h, h = store_handler) ltac:(by intros h ->; apply store_handler_ok)
      (known_for tables log name j) (on_table name) answers_kept
      ltac:(by intros h ? ? ? ? ? ? -> H; eapply handler_keeps_answers, H)
      n d0 w0 c d w id s k ts Hd0 Hl0 Hhonest Hprep Hact Hts) as (handler & -> & Ho). exact Ho.
Qed.

(** The requests on the table that commit are those of such transactions. *)
Definition requests_by_clients : Prop :=
  ∀ j sj request tablet_id, log !! j = Some request → store_states tables log !! j = Some sj →
    request_commits sj request = true → request_touches tablet_id request = true →
    ∃ s w, client_transaction j request s w.

Hypothesis start : table_good name tables.
Hypothesis clients : requests_by_clients.

(** The tablets of the table have blobs at every place of the log. *)
Lemma states_good n :
  ∀ k sk, (k ≤ n)%nat → store_states tables log !! k = Some sk → table_good name sk.
Proof using HR supported start clients.
  induction n as [|n IH]; intros k sk Hk Hsk.
  { replace k with 0%nat in Hsk by lia. rewrite store_states_head in Hsk. by injection Hsk as <-. }
  destruct (decide (k = S n)) as [->|]; [|by apply (IH k); [lia|]].
  destruct (lookup_lt_is_Some_2 log n) as [request Hlog].
  { apply lookup_lt_Some in Hsk. rewrite store_states_length in Hsk by done. lia. }
  destruct (lookup_lt_is_Some_2 (store_states tables log) n) as [sn Hsn].
  { apply lookup_lt_Some in Hsk. lia. }
  assert (Forall op_supported (tr_tablet_ops request)) as Hreq by by eapply Forall_lookup_1 in supported.
  destruct (request_step sn request Hreq) as (s' & a & Happ & _ & Htab).
  pose proof (store_states_next _ _ _ _ _ _ _ Hlog Hsn Happ) as Hs'. rewrite Hsk in Hs'.
  injection Hs' as <-. intros id x Hx. rewrite Htab in Hx.
  destruct (request_commits sn request) eqn:Hc.
  2: { apply (IH n sn ltac:(lia) Hsn). by destruct (tablet_of sn name id). }
  destruct (request_written request name id) as [u|] eqn:Hw.
  2: { apply (IH n sn ltac:(lia) Hsn). by destruct (tablet_of sn name id). }
  assert (u = x) as <- by (destruct (tablet_of sn name id); by injection Hx). clear Hx.
  destruct (request_touches id request) eqn:Ht; [|by rewrite untouched_not_written in Hw].
  destruct (clients n sn request id Hlog Hsn Hc Ht) as (s & w & Hs).
  destruct (client_transaction_known n request s w IH Hs) as (_ & Hknown & _).
  apply last_Some_elem_of, list_elem_of_omap in Hw as (op & Hin & Hw). unfold op_written in Hw.
  destruct (to_op op) as [[| | |[u'|]|]|] eqn:Eop; try done. case_decide as E; [|done].
  injection Hw as ->. destruct E as [_ Hid]. destruct (ok_written _ _ Hknown op u Hin Eop). done.
Qed.

Section requests.
Variable tablet_id : Z.

(** One request of the log. *)
Lemma request_linearized j request sj m dict :
  log !! j = Some request → store_states tables log !! j = Some sj →
  tablet_of sj name tablet_id = Some m → tablet_dict m dict →
  ∃ s' m' dict' batch,
    store_states tables log !! S j = Some s' ∧ tablet_of s' name tablet_id = Some m' ∧
    tablet_dict m' dict' ∧ kv_run dict batch.*1 = (dict', batch.*2) ∧
    if request_commits sj request && request_touches tablet_id request
    then ∃ s w, client_transaction j request s w ∧ transaction_answers tablet_id s w batch
    else batch = [].
Proof using HR supported room start clients.
  intros Hlog Hsj Hm Hdict.
  assert (Forall op_supported (tr_tablet_ops request)) as Hreq by by eapply Forall_lookup_1 in supported.
  destruct (request_step sj request Hreq) as (s1 & a & Happ & Hholds & Htab).
  destruct (request_commits sj request && request_touches tablet_id request) eqn:Ect.
  - apply andb_true_iff in Ect as [Hcommit Htouch].
    destruct (clients j sj request tablet_id Hlog Hsj Hcommit Htouch) as (s & w & Hs).
    destruct (client_transaction_known j request s w (states_good j) Hs) as (Hops & Hknown & Hdone).
    apply existsb_exists in Htouch as (op & Hop & Ht). apply list_elem_of_In in Hop.
    pose proof Hop as Hts. rewrite Hops in Hts. apply transaction_ops_elem in Hts as (k & ts & Hts & ->).
    apply get_tablet_op_touches in Ht as [Hname Hid].
    destruct (Hdone k ts Hts) as (base & before & after & Ho).
    destruct (outcome_accesses _ _ _ _ _ _ _ _ _ Ho) as [Hacc Hidb].
    destruct (to_resolved _ _ _ _ _ _ _ _ _ _ Ho) as (_ & k0 & sk & Hk0 & Hsk & Hbase).
    rewrite Hname, <- Hidb, Hid in *.
    destruct (request_serializable tables log k0 j sk sj request (get_tablet_op ts) name tablet_id
      base supported room Hlog) as (Hb & _ & s' & m' & Hs' & Hm' & Heq & _); try done.
    rewrite Hm in Hb. injection Hb as <-.
    destruct (outcome_batch tablet_id _ _ _ _ _ _ _ _ _ Ho Hname ltac:(congruence) Hdict)
      as (batch & dict' & Hans & Hkv & Hdict').
    exists s', m', dict', batch. split_and!; [done|done| |done|by exists s, w].
    rewrite (written_once name sj _ tablet_id m (get_tablet_op ts)) in Heq;
      [|by rewrite <- Hholds|done|done|apply (to_u32 _ _ _ _ _ _ _ _ _ _ Ho)|done|done].
    unfold op_written, get_tablet_op in Heq. simpl in Heq. subst m'.
    pose proof (to_after _ _ _ _ _ _ _ _ _ _ Ho) as Ha. simpl in Ha.
    destruct (tb_is_dirty (ts_tablet ts)); [by rewrite decide_True|]. by destruct Ha as [_ <-].
  - exists s1, m, dict, []. split_and!; [by eapply store_states_next| |done..].
    rewrite Htab, Hm. destruct (request_commits sj request); [|done].
    simpl in Ect. by rewrite untouched_not_written.
Qed.

(** ** The whole log *)

(** What was answered at each place of the log. *)
Definition log_answers (batches : list answered) : Prop :=
  ∀ j sj request batch, log !! j = Some request → store_states tables log !! j = Some sj →
    batches !! j = Some batch →
    if request_commits sj request && request_touches tablet_id request
    then ∃ s w, client_transaction j request s w ∧ transaction_answers tablet_id s w batch
    else batch = [].

(** At a place of the log the map of the tablet is the result of the answered requests. *)
Definition linearized (dict0 : gmap string bytes) (batches : list answered) (n : nat) : Prop :=
  ∃ sn m dict, store_states tables log !! n = Some sn ∧ tablet_of sn name tablet_id = Some m ∧
    tablet_dict m dict ∧
    kv_run dict0 (concat (take n batches)).*1 = (dict, (concat (take n batches)).*2).

Lemma prefix_linearized m0 dict0 n :
  tablet_of tables name tablet_id = Some m0 → tablet_dict m0 dict0 → (n ≤ length log)%nat →
  ∃ batches, length batches = n ∧ log_answers batches ∧
    ∀ i, (i ≤ n)%nat → linearized dict0 batches i.
Proof using HR supported room start clients.
  intros Hm0 Hd0. induction n as [|n IH]; intros Hn.
  { exists []. split_and!; [done|by intros ? ? ? ? ? ? ?|]. intros i Hi. replace i with 0%nat by lia.
    exists tables, m0, dict0. split_and!; [apply store_states_head|done..]. }
  destruct IH as (batches & Hlen & Hans & Hlin); [lia|].
  destruct (Hlin n ltac:(lia)) as (sn & m & dict & Hsn & Hm & Hd & Hkv).
  destruct (lookup_lt_is_Some_2 log n) as [request Hlog]; [lia|].
  destruct (request_linearized n request sn m dict Hlog Hsn Hm Hd)
    as (s' & m' & dict' & batch & Hs' & Hm' & Hd' & Hkv' & Hb).
  exists (batches ++ [batch]). split_and!.
  - rewrite length_app, Hlen. simpl. lia.
  - intros j sj r b Hj Hsj Hbj. apply lookup_app_Some in Hbj as [Hbj|[Hge Hbj]]; [by eapply Hans|].
    apply list_lookup_singleton_Some in Hbj as [Hj0 <-].
    assert (j = n) as -> by (rewrite Hlen in *; lia).
    rewrite Hlog in Hj. injection Hj as <-. rewrite Hsn in Hsj. by injection Hsj as <-.
  - intros i Hi. destruct (decide (i = S n)) as [->|Hne].
    + exists s', m', dict'. split_and!; [done..|]. rewrite take_ge by (rewrite length_app, Hlen; simpl; lia).
      rewrite take_ge in Hkv by lia. rewrite concat_app, !fmap_app. simpl. rewrite app_nil_r.
      rewrite kv_run_app, Hkv. simpl. by rewrite Hkv'.
    + destruct (Hlin i) as (si & mi & di & ? & ? & ? & Hki); [lia|]. exists si, mi, di.
      split_and!; [done..|]. by rewrite take_app_le by lia.
Qed.
End requests.
End system.

(** C9: The key-value store is linearizable.  Take a tablet store with any log of requests,
    whose tablets have versions with room for it, and a table whose tablets have blobs.
    Suppose every request that commits and checks or updates a tablet of the table is the commit
    of a transaction of some cache: a new coordinator, default metadata cache, data cache and
    key-value store, after any calls in which transactions have one process on the table, the
    storage answers loads with the blobs, listings and responses are the store's answers to
    requests before, and no request that was answered with a failure had an update that held
    alone ([lost_update_commits] shows that the metadata cache takes such an update for
    committed).  Then to each place of the log belong the requests that the key-value store
    answered on the tablet in that transaction, such that at every place the tablet names a blob
    with exactly the map, and the answers so far are exactly the answers, of running all of them
    one after the other in the order of the log. *)
Theorem store_linearizable {D : Type} `{HD : !TabletDataCache D bytes, HZ : !HashOrder Z,
    HS : !HashOrder string, HSZ : !HashOrder (string * Z), HL : !DataCacheLaws D bytes,
    HB : !BlobNames bytes, HV : !DataCacheView D, HR : !DataCacheReads D bytes}
    tables log name tablet_id m0 dict0 :
  Forall (λ r, Forall op_supported (tr_tablet_ops r)) log →
  versions_room tables (length log) → table_good name tables →
  requests_by_clients (D:=D) tables log name →
  tablet_of tables name tablet_id = Some m0 → tablet_dict m0 dict0 →
  ∃ batches, length batches = length log ∧
    log_answers (D:=D) tables log name tablet_id batches ∧
    ∀ n, (n ≤ length log)%nat → linearized tables log name tablet_id dict0 batches n.
Proof using.
  intros Hsup Hroom Hgood Hclients Hm Hd. by eapply prefix_linearized.
Qed.
End store.

(** ** What modelling showed *)

Section lost_update.
#[local] Existing Instances coordinator_order_Z coordinator_order_string coordinator_order_pair.

Definition at_blob (id version : Z) (uri : string) : TabletMetadata :=
  {| tm_tablet_id := id; tm_tablet_version := version; tm_deleted := false;
     tm_blob_encryption_key := []; tm_blob_size := 0; tm_blob_hash := []; tm_blob_uri := uri |}.

Definition update_of (m : TabletMetadata) : TabletOp :=
  {| to_table_name := "A"; to_op := Some (UpdateTablet (Some m)) |}.

Definition two_tablets : gmap string TableMetadata :=
  {[ "A" := {| tb_config := {| tc_table_name := "A"; tc_max_tablet_size := 0;
                               tc_min_tablet_size := 0; tc_initial_tablet_count := 2 |};
               tb_tablets := {[ 10 := at_blob 10 3 "base";
                                2000000000 := at_blob 2000000000 3 "other" ]} |} ]}.

(** One client's request on two tablets fails because of the second; its metadata cache takes
    the write of the first for committed.  Another client then writes the first tablet.  What
    the first client resolves next is its own blob, at the version that the other wrote. *)
Definition stale_resolution :
    outcome (gmap string TableMetadata * TabletTransactionOutcome * option TabletMetadata) :=
  m ← metadata_cache_init (metadata_cache_create 0)
        {| tmc_table_configs := [ {| tmc_table_name := "A"; tmc_table_region_size := 1073741824 |} ] |};
  '(m, _) ← metadata_cache_process_in_message m ()
        (ListResponse 1 [ {| tor_table_name := "A"; tor_status := TabletOpSucceeded;
           tor_op_result := Some (ListTabletResult 0 1073741823 [at_blob 10 3 "base"]) |} ]);
  let failing := [update_of (at_blob 10 4 "mine"); update_of (at_blob 2000000000 9 "late")] in
  '(tables, (_, response)) ← on_apply_tablets_request two_tablets {| tr_tablet_ops := failing |};
  '(failed, metas) ←
    committing_complete {| cts_tablet_ops := failing |} (trs_tablet_results response);
  m ← ofold (λ m x, mci_update_tablet (W:=unit) m x.1.1 x.1.2 x.2) m metas;
  '(tables, _) ← on_apply_tablets_request tables
        {| tr_tablet_ops := [update_of (at_blob 10 4 "theirs")] |};
  '(m, _, h) ← mci_resolve_tablets m () [table_query_create 1 "A" [5]];
  Return (tables, failed,
    match mci_check_result (W:=unit) m h with Some (Ok [(_, base)]) => Some base | _ => None end).

(** A transaction on what was resolved so reads the blob that was never committed, and its
    request passes the check of the version: the write of the other client is lost. *)
Example lost_update_commits :
  ∃ tables,
    stale_resolution = Return (tables, TransactionFailed, Some (at_blob 10 4 "mine")) ∧
    tablet_of tables "A" 10 = Some (at_blob 10 4 "theirs") ∧
    request_commits tables {| tr_tablet_ops := [update_of (at_blob 10 5 "mine, next")] |} = true.
Proof.
  assert (∀ x, stale_resolution = x →
    match x with
    | Return (tables, TransactionFailed, Some base) =>
        base = at_blob 10 4 "mine" ∧ tablet_of tables "A" 10 = Some (at_blob 10 4 "theirs") ∧
        request_commits tables {| tr_tablet_ops := [update_of (at_blob 10 5 "mine, next")] |} = true
    | _ => False
    end) as H.
  { intros x <-. vm_compute. repeat split. }
  specialize (H _ eq_refl). destruct stale_resolution as [[[tables []] [base|]]|]; try done.
  destruct H as (-> & ? & ?). by exists tables.
Qed.
End lost_update.

(** ** A concrete system *)

#[local] Existing Instances coordinator_order_Z coordinator_order_string coordinator_order_pair.
#[local] Existing Instance contents_codec.
#[local] Existing Instances coordinator_sample_data coordinator_sample_laws.
#[local] Existing Instance string_of_list_byte_Inj.

Abbreviation SampleCell := (StoreCell Z Z).

(** A new tablet with an empty map in its blob. *)
Definition seed_contents : bytes := proto_encode {| tcn_dictionary := ∅ |}.

Inductive sample_names (u : string) (k : Z) (v : bytes) : Prop :=
| SeedName : u = "" → k = create_tablet_key (default_tablet 10) → v = seed_contents →
    sample_names u k v
| WrittenName m m' c : metadata_u32 m →
    prepare_tablet_write id String.string_of_list_byte m v = Ok (m', c) →
    u = tm_blob_uri m' → k = create_tablet_key m' → sample_names u k v.

Lemma sample_written_uri m v m' c :
  metadata_u32 m → prepare_tablet_write (T:=bytes) id String.string_of_list_byte m v = Ok (m', c) →
  tm_blob_uri m' = format_blob_uri String.string_of_list_byte (tm_tablet_id m') (tm_tablet_version m') v ∧
  0 ≤ tm_tablet_id m' ∧ 0 ≤ tm_tablet_version m' ∧ tm_blob_uri m' ≠ "".
Proof.
  intros [[Hid _] _] H. unfold prepare_tablet_write in H. simpl in H. injection H as <- <-. simpl.
  split_and!; [done|done|unfold u32_add; apply Z.mod_pos; lia|]. unfold format_blob_uri.
  by destruct (format_u32 (tm_tablet_id m)).
Qed.

#[local] Instance sample_blob_names : BlobNames bytes.
Proof.
  refine {| names_blob := sample_names |}.
  intros u k k' v v' [-> -> ->|m m1 c Hm Hw -> ->] [Hu -> ->|n n1 c' Hn Hw' Hu ->]; [done|..];
    try (destruct (sample_written_uri _ _ _ _ Hm Hw) as (E1 & ? & ? & Hne));
    try (destruct (sample_written_uri _ _ _ _ Hn Hw') as (E2 & ? & ? & Hne')); [congruence..|].
  rewrite E1, E2 in Hu. apply format_blob_uri_inj_lemma in Hu as (Hid & Hv & ->); [|apply _|done..].
  unfold create_tablet_key. by rewrite Hid, Hv.
Defined.

#[local] Instance sample_reads : DataCacheReads (DefaultTabletDataCache bytes unit) bytes.
Proof.
  apply DefaultTabletDataCache_reads. intros m v m' c Hm Hw. by eapply WrittenName.
Qed.

Definition client_query : TableQuery := table_query_create 2 "A" [1].

Definition seed_tables : gmap string TableMetadata :=
  {[ "A" := {| tb_config := {| tc_table_name := "A"; tc_max_tablet_size := 0;
                               tc_min_tablet_size := 0; tc_initial_tablet_count := 1 |};
               tb_tablets := {[ 10 := default_tablet 10 ]} |} ]}.

(** A store with a put and a get that wait for transaction 2 on tablet 10. *)
Definition sample_world : SampleCell :=
  {| st_core := kc_with store_core_new (table_accessor_create "A") (request_tracker_create 1)
       {[ 10 := sample_tracker ]} {[ 2 := transaction_tracker_create [10] 2 ]};
     st_borrowed := false |}.

Abbreviation SampleMetadata := (DefaultTabletMetadataCache SampleCell).
Abbreviation SampleState := (DefaultTabletTransactionCoordinator SampleCell bytes
  * SampleMetadata * DefaultTabletDataCache bytes unit * SampleCell)%type.

(** The first request of the log lists the region of the query, and the store's answer. *)
Definition listing_request : TabletsRequest :=
  {| tr_tablet_ops := [ {| to_table_name := "A"; to_op := Some (ListTablet 0 1073741823) |} ] |}.

Definition listing_answers : list TabletOpResult :=
  match on_apply_tablets_request seed_tables listing_request with
  | Return (_, (_, response)) => trs_tablet_results response
  | Panic => []
  end.

Definition client_metadata : outcome SampleMetadata :=
  metadata_cache_init (metadata_cache_create 0)
    {| tmc_table_configs := [ {| tmc_table_name := "A"; tmc_table_region_size := 1073741824 |} ] |}.

Definition client_round (x : SampleState) : outcome SampleState :=
  coordinator_make_progress x.1.1.1 x.1.1.2 x.1.2 x.2.

Definition client_data (f : DefaultTabletDataCache bytes unit →
    outcome (DefaultTabletDataCache bytes unit)) (x : SampleState) : outcome SampleState :=
  d ← f x.1.2; Return (x.1.1, d, x.2).

Definition client_listing (x : SampleState) : outcome SampleState :=
  '(m, w) ← metadata_cache_process_in_message x.1.1.2 x.2 (ListResponse 1 listing_answers);
  Return (x.1.1.1, m, x.1.2, w).

Definition client_calls : list (SampleState → outcome SampleState) :=
  [ client_round; client_listing; client_round;
    client_data (λ d, data_cache_process_in_message d (LoadResponse 1 {| ltr_status := 2 |} seed_contents));
    client_data (λ d, data_cache_make_progress d 1);
    client_round;
    client_data (λ d, data_cache_process_in_message d (StoreResponse 2 {| str_status := 2 |}));
    client_data (λ d, data_cache_make_progress d 2);
    client_round ].

Definition client_start : SampleState :=
  (coordinator_create 0, match client_metadata with Return m => m | Panic => metadata_cache_create 0 end,
   data_cache_create 0 (), sample_world).

Definition client_outcome (n : nat) : outcome SampleState :=
  c ← process_transaction (create_transaction (coordinator_create 0)).1 2 [client_query]
        (process_handler (Tx:=Z) (Tc:=Z) sample_hash);
  ofold (λ x f, f x) (c, client_start.1.1.2, data_cache_create 0 (), sample_world) (take n client_calls).

Definition client_ran (n : nat) : SampleState :=
  match client_outcome n with Return x => x | Panic => client_start end.

Definition returns {A} (x : outcome A) : bool := match x with Return _ => true | Panic => false end.

Definition client_prepared : PreparingTabletTransactionState SampleCell bytes :=
  match co_transactions (client_ran 9).1.1.1 !! 2 with
  | Some (TransactionPreparing s) => s
  | _ => preparing_create 0
  end.

Definition client_committed : DefaultTabletTransactionCoordinator SampleCell bytes :=
  match commit_transaction (client_ran 9).1.1.1 2 with
  | Return c => c | Panic => coordinator_create 0 end.

Definition client_request : TabletsRequest :=
  match co_out_messages client_committed with
  | [CoordinatorOpsRequest _ ops] => {| tr_tablet_ops := ops |}
  | _ => {| tr_tablet_ops := [] |}
  end.

Definition client_log : list TabletsRequest := [listing_request; client_request].

Abbreviation sample_step := (client_step (Tx:=Z) (Tc:=Z) (D:=DefaultTabletDataCache bytes unit)
  sample_hash seed_tables client_log "A" 1).

Lemma bytes_read (contents : bytes) : prepare_tablet_read contents = Ok contents.
Proof. done. Qed.

Lemma client_outcome_step n f :
  client_calls !! n = Some f → returns (client_outcome (S n)) = true →
  f (client_ran n) = Return (client_ran (S n)).
Proof.
  intros Hf. assert (client_outcome (S n) = x ← client_outcome n; f x) as E.
  { unfold client_outcome. destruct (process_transaction _ _ _ _) as [c|]; [|done].
    cbn [mbind outcome_bind]. rewrite (take_S_r _ _ f) by done. rewrite ofold_app.
    destruct (ofold _ _ (take n client_calls)) as [x|]; [|done]. simpl. by destruct (f x). }
  unfold client_ran. rewrite E. destruct (client_outcome n) as [x|]; [|done]. simpl.
  by destruct (f x).
Qed.

Lemma client_round_step n :
  client_calls !! n = Some client_round → returns (client_outcome (S n)) = true →
  coordinator_u32b (client_ran n).1.1.1 = true →
  dcr_room (client_ran n).1.2 (open_processes (client_ran n).1.1.1) →
  sample_step (client_ran n) (client_ran (S n)).
Proof.
  intros Hn Hret. generalize (client_outcome_step _ _ Hn Hret). unfold client_round.
  destruct (client_ran (S n)) as [[[c1 m1] d1] w1], (client_ran n) as [[[c0 m0] d0] w0].
  intros H Hu Hr. by apply ClientRound; [apply coordinator_u32b_sound| |].
Qed.

Lemma client_data_step f n :
  client_calls !! n = Some (client_data f) → returns (client_outcome (S n)) = true →
  (∀ d', f (client_ran n).1.2 = Return d' → honest_call (client_ran n).1.2 d') →
  sample_step (client_ran n) (client_ran (S n)).
Proof.
  intros Hn Hret. generalize (client_outcome_step _ _ Hn Hret). unfold client_data.
  generalize (client_ran (S n)). destruct (client_ran n) as [[[c0 m0] d0] w0]. simpl.
  intros y H Hf. apply bind_Return in H as (d & H & Heq). injection Heq as <-.
  by apply ClientData, Hf.
Qed.

(** The listing is the answer of the store to the first request of the log. *)
Lemma client_listing_step : sample_step (client_ran 1) (client_ran 2).
Proof.
  assert (client_listing (client_ran 1) = Return (client_ran 2)) as H.
  { apply client_outcome_step; [done|vm_compute; reflexivity]. }
  revert H. generalize (client_ran 2). destruct (client_ran 1) as [[[c0 m0] d0] w0].
  unfold client_listing. intros y H. apply bind_Return in H as ([m w] & H & Heq).
  injection Heq as <-. refine (ClientListing _ _ _ _ _ c0 m0 d0 w0 1 listing_answers m w _ H).
  apply Forall_forall. intros x Hx. exists seed_tables, 0%nat, listing_request, listing_answers.
  split; [|done]. split_and!; [lia|done|done|]. unfold listing_answers.
  destruct (on_apply_tablets_request seed_tables listing_request) as [[t [out response]]|] eqn:E.
  - by exists t, out, response.
  - by vm_compute in E.
Qed.

Lemma client_started : sample_step client_start (client_ran 0).
Proof.
  assert (client_outcome 0 = Return (client_ran 0)) as H.
  { assert (returns (client_outcome 0) = true) as H by (vm_compute; reflexivity).
    unfold client_ran. by destruct (client_outcome 0). }
  revert H. generalize (client_ran 0). intros x H. unfold client_outcome in H.
  apply bind_Return in H as (c & Hc & H). cbn [take ofold] in H. injection H as <-.
  unfold client_start.
  refine (ClientStart _ _ _ _ _ _ _ _ _ [client_query] c _ _ Hc); [done|by constructor].
Qed.

Lemma client_reached : rtc sample_step client_start (client_ran 9).
Proof.
  apply (rtc_l _ _ (client_ran 0)).
  { exact client_started. }
  apply (rtc_l _ _ (client_ran 1)); [apply client_round_step; [done|vm_compute; reflexivity..|vm_compute; done]|].
  apply (rtc_l _ _ (client_ran 2)); [exact client_listing_step|].
  apply (rtc_l _ _ (client_ran 3)); [apply client_round_step; [done|vm_compute; reflexivity..|vm_compute; done]|].
  apply (rtc_l _ _ (client_ran 4)).
  { eapply client_data_step; [done|vm_compute; reflexivity|]. intros d' Hd.
    apply (HonestMessage _ (LoadResponse 1 {| ltr_status := 2 |} seed_contents)); [|exact Hd].
    intros u k v v' Hu Hr Hv. rewrite bytes_read in Hr. injection Hr as <-.
    assert (dc_tablet_operations (client_ran 3).1.2 !! 1 = Some "") as E by (vm_compute; reflexivity).
    rewrite E in Hu. injection Hu as <-. destruct Hv as [_ _ ->|m m' c Hm Hw Hu _]; [done|].
    destruct (sample_written_uri _ _ _ _ Hm Hw) as (_ & _ & _ & Hne). by destruct Hne. }
  apply (rtc_l _ _ (client_ran 5)).
  { eapply client_data_step; [done|vm_compute; reflexivity|]. intros d' Hd.
    apply (HonestProgress _ 1), Hd. }
  apply (rtc_l _ _ (client_ran 6)); [apply client_round_step; [done|vm_compute; reflexivity..|vm_compute; done]|].
  apply (rtc_l _ _ (client_ran 7)).
  { eapply client_data_step; [done|vm_compute; reflexivity|]. intros d' Hd.
    by apply (HonestMessage _ (StoreResponse 2 {| str_status := 2 |})); [|exact Hd]. }
  apply (rtc_l _ _ (client_ran 8)).
  { eapply client_data_step; [done|vm_compute; reflexivity|]. intros d' Hd.
    apply (HonestProgress _ 2), Hd. }
  apply rtc_once. apply client_round_step; [done|vm_compute; reflexivity..|vm_compute; done].
Qed.

Lemma client_sent :
  co_out_messages client_committed = co_out_messages (client_ran 9).1.1.1
    ++ [CoordinatorOpsRequest (co_correlation_counter (client_ran 9).1.1.1 +₆₄ 1)
          (tr_tablet_ops client_request)].
Proof.
  assert (match co_out_messages client_committed with
          | [CoordinatorOpsRequest i _] =>
              i = co_correlation_counter (client_ran 9).1.1.1 +₆₄ 1 ∧
              co_out_messages (client_ran 9).1.1.1 = []
          | _ => False end) as H by by vm_compute.
  unfold client_request. destruct (co_out_messages client_committed) as [|[i ops] [|]]; [done| |done].
  by destruct H as [-> ->].
Qed.

Lemma client_sample : requests_by_clients (Tx:=Z) (Tc:=Z) (D:=DefaultTabletDataCache bytes unit)
  sample_hash seed_tables client_log "A".
Proof.
  intros [|[|j]] sj request id Hj _ _ Htouch; [by injection Hj as <-| |done].
  change (Some client_request = Some request) in Hj. apply (inj Some) in Hj as <-.
  exists client_prepared, (client_ran 9).2.
  assert (client_ran 9 = ((client_ran 9).1.1.1, (client_ran 9).1.1.2, (client_ran 9).1.2, (client_ran 9).2))
    as E by by destruct (client_ran 9) as [[[]]].
  apply (ClientTransaction _ _ _ _ _ _ _ _ 0 (data_cache_create 0 ()) sample_world client_start
    (client_ran 9).1.1.1 (client_ran 9).1.1.2 (client_ran 9).1.2 2 client_committed).
  - assert (returns client_metadata = true) as Hm by (vm_compute; reflexivity).
    unfold client_start. destruct client_metadata as [m0|] eqn:Em; [|done].
    eexists _, _, m0. split_and!; [exact Em| |apply no_cells_ok|done].
    split; simpl; [by intros ? ? ?|by intros ? ? ?|apply no_cells_ok].
  - rewrite <- E. exact client_reached.
  - assert (match co_transactions (client_ran 9).1.1.1 !! 2 with
            | Some (TransactionPreparing _) => true | _ => false end = true) as H
      by (vm_compute; reflexivity).
    unfold client_prepared. by destruct (co_transactions _ !! 2) as [[]|].
  - assert (returns (commit_transaction (client_ran 9).1.1.1 2) = true) as H
      by (vm_compute; reflexivity).
    unfold client_committed. by destruct (commit_transaction _ 2).
  - exact client_sent.
Qed.

Lemma seed_tablet name id m :
  tablet_of seed_tables name id = Some m → id = 10 ∧ m = default_tablet 10.
Proof.
  intros Hm. unfold tablet_of, seed_tables in Hm.
  apply bind_Some in Hm as (table & [_ <-]%lookup_singleton_Some & Hm). simpl in Hm.
  by apply lookup_singleton_Some in Hm as [<- <-].
Qed.

(** The put and the get of the client, at the second place of the log. *)
Lemma store_linearizable_witness :
  ∃ batches, length batches = 2%nat ∧
    linearized seed_tables client_log "A" 10 ∅ batches 2.
Proof.
  destruct (store_linearizable (Tx:=Z) (Tc:=Z) (D:=DefaultTabletDataCache bytes unit) sample_hash
    seed_tables client_log "A" 10 (default_tablet 10) ∅) as (batches & Hlen & _ & Hlin).
  - vm_compute. repeat constructor.
  - intros name id m [_ ->]%seed_tablet. by vm_compute.
  - intros id m [-> ->]%seed_tablet. split_and!; [done| |by vm_compute].
    exists seed_contents. by apply SeedName.
  - exact client_sample.
  - vm_compute. reflexivity.
  - exists seed_contents. split; [by apply SeedName|]. apply proto_decode_encode.
  - exists batches. split; [exact Hlen|]. apply Hlin. apply le_n.
Defined.
