(* ===== verification/CacheActorTheorems.v ===== *)
(** * The tablet cache actor as it is wired

    The actor makes the store progress but never the transaction manager, so what the
    manager was asked to do is never begun: no command is ever sent. *)

From S2P Require Import Prelude Model TabletStore TabletCodecs CacheTypes MetadataCache DataCache Coordinator.
From S2P Require Import CoordinatorTheorems Manager KvStore KvTheorems CacheActor CacheTheorems CacheSystem.

Section silent.
Context `{HZ : !HashOrder Z, HS : !HashOrder string, HSZ : !HashOrder (string * Z)}.
Context `{HContents : !ProtoCodec TabletContents, HOut : !ProtoCodec TabletCacheOutMessage,
  HReq : !ProtoCodec TabletsRequest, HResp : !ProtoCodec TabletsResponse}.
Variables (sha256 : bytes → bytes) (base64 : bytes → string) (hash_key : string → Z).
Variable config_decode : bytes → option TabletCacheConfig.
Variable in_message_decode : bytes → option TabletCacheInMessage.

#[local] Instance silent_data : TabletDataCache (DefaultTabletDataCache bytes unit) bytes :=
  DefaultTabletDataCache_instance sha256 base64.

#[local] Instance silent_manager : TabletTransactionManager AppStore AppManager :=
  DefaultTabletTransactionManager (T:=bytes).

#[local] Instance silent_store : KeyValueStore AppManager AppStore := SimpleKeyValueStore hash_key.

Implicit Types (x : AppManager) (w : AppStore).

(** A transaction that waits for a process. *)
Definition waits x (id : Z) : Prop :=
  ∃ s, co_transactions (mg_transaction_coordinator x) !! id = Some (TransactionPreparing s) ∧
    is_active s = true.

(** A transaction of the store which is not committed and waits in the manager. *)
Definition tracker_waits x (t : TransactionTracker DefaultTabletTransaction DefaultTabletTransaction)
    : Prop :=
  xt_waiting_commit t = None ∧
  ∃ tx, xt_transaction t = Some tx ∧ waits x (dtt_transaction_id tx).

(** Nothing was committed and nothing is to be sent. *)
Record manager_idle x : Prop := {
  mi_coordinator : co_out_messages (mg_transaction_coordinator x) = [];
  mi_metadata : mc_out_messages (mg_metadata_cache x) = [];
  mi_data : dc_out_messages (mg_data_cache x) = [];
  mi_correlations : co_correlations (mg_transaction_coordinator x) = ∅
}.

(** Handlers that leave responses and transactions alone. *)
Definition same_transactions : relation AppStore := λ w w',
  kc_responses (st_core w') = kc_responses (st_core w) ∧
  kc_transaction_trackers (st_core w') = kc_transaction_trackers (st_core w).

#[local] Instance same_transactions_preorder : PreOrder same_transactions.
Proof. split; [done|]. intros w1 w2 w3 [H1 H2] [H3 H4]. split; congruence. Qed.

Lemma resolve_handler_same : resolve_within same_transactions resolve_handler.
Proof using.
  intros results w w' H. unfold resolve_handler, with_borrow in H. destruct (st_borrowed w); [done|].
  injection H as <-. unfold same_transactions, handle_query_resolve. cbn [st_core].
  generalize (st_core w) as k. clear.
  induction results as [|[q d] results IH]; intros k; [done|]. cbn [foldl].
  destruct (IH (associate_resolved k (q, d))) as [-> ->]. done.
Qed.

Record silent x w : Prop := {
  sl_idle : manager_idle x;
  sl_handlers : metadata_within same_transactions (mg_metadata_cache x);
  sl_responses : kc_responses (st_core w) = [];
  sl_trackers : map_Forall (λ _ t, tracker_waits x t) (kc_transaction_trackers (st_core w))
}.

Lemma metadata_ids_nil (m m' : DefaultTabletMetadataCache AppStore) :
  metadata_ids m' = metadata_ids m → mc_out_messages m = [] → mc_out_messages m' = [].
Proof using.
  unfold metadata_ids. intros [= _ H] Hm. rewrite Hm in H. simpl in H.
  by apply fmap_nil_inv, fmap_nil_inv in H.
Qed.

(** *** Messages *)

Lemma silent_tablets_response x w id response x' w' :
  silent x w → process_in_tablets_op_response x w id response = Return (x', w') → silent x' w'.
Proof using.
  intros [[Ic Im Id Io] Hh Hr Ht] H. unfold process_in_tablets_op_response in H.
  apply bind_Return in H as ([m w1] & H1 & H). apply bind_Return in H as ([c m2] & H2 & H).
  injection H as <- <-.
  assert (same_transactions w w1 ∧ metadata_within same_transactions m ∧ mc_out_messages m = [])
    as ([Hw1 Hw2] & Hm & Ho).
  { destruct (filter _ _); [by injection H1 as <- <-|]. open_parts H1.
    apply list_response_ids in H1 as Hids. apply (list_response_within same_transactions) in H1 as [? ?];
      [|done]. split_and!; [done|done|]. by eapply metadata_ids_nil. }
  assert (c = mg_transaction_coordinator x ∧ m2 = m) as [-> ->].
  { destruct (filter is_execute_result _); [by injection H2 as <- <-|]. open_parts H2.
    unfold coordinator_process_in_message in H2. rewrite Io, lookup_empty in H2. by injection H2 as <- <-. }
  split; [by split|done|by rewrite Hw1|by rewrite Hw2].
Qed.

Lemma silent_message x w message x' w' :
  silent x w → manager_process_in_message x w message = Return (x', w') → silent x' w'.
Proof using.
  intros Hs H. destruct message; simpl in H.
  1,2: apply bind_Return in H as (d & H & Heq); injection Heq as <- <-;
    destruct Hs as [[Ic Im Id Io] Hh Hr Ht]; (split; [|done..]); split; [done..| |done];
    unfold data_cache_process_in_message in H; simpl;
    (destruct (dc_tablet_operations (mg_data_cache x) !! correlation_id); [|by injection H as <-]);
    apply bind_Return in H as (e & _ & H); apply bind_Return in H as (e' & _ & H);
    by injection H as <-.
  2: destruct (mg_tablets_errors x !! _); [|by injection H as <- <-].
  all: eapply silent_tablets_response; [|exact H]; by destruct Hs as [[]]; split; [split|..].
Qed.

(** *** Progress of the store *)

Lemma start_waits x y tx queries x' tx' :
  start_transaction x = (y, tx) →
  (z ← transaction_process y tx queries (process_handler hash_key); Return (z, tx)) = Return (x', tx') →
  waits x' (dtt_transaction_id tx') ∧ (∀ id, waits x id → waits x' id) ∧
  mg_metadata_cache x' = mg_metadata_cache x ∧ (manager_idle x → manager_idle x').
Proof using.
  intros Hst H. apply bind_Return in H as (z & H & Heq). injection Heq as <- <-. injection Hst as <- <-.
  unfold transaction_process, manager_process_transaction in H.
  apply bind_Return in H as (c & H & Heq). injection Heq as <-. open_parts H.
  unfold process_transaction in H. simpl in H. rewrite lookup_insert_eq in H. simpl in H.
  injection H as <-. set (id' := co_transaction_counter _ +₆₄ 1). split_and!; [| |done|].
  - eexists. simpl. by rewrite lookup_insert_eq.
  - intros i (s & Hs & Ha). unfold waits. simpl. destruct (decide (id' = i)) as [<-|Hne].
    + rewrite lookup_insert_eq. by eexists.
    + rewrite !lookup_insert_ne by done. by exists s.
  - intros [Ic Im Id Io]. by split.
Qed.

Lemma silent_resolve k x k' x' :
  manager_idle x → metadata_within same_transactions (mg_metadata_cache x) →
  maybe_resolve_tablets hash_key k x = Return (k', x') →
  manager_idle x' ∧ metadata_within same_transactions (mg_metadata_cache x') ∧
  mg_transaction_coordinator x' = mg_transaction_coordinator x ∧
  kc_responses k' = kc_responses k ∧ kc_transaction_trackers k' = kc_transaction_trackers k.
Proof using.
  intros [Ic Im Id Io] Hh H. unfold maybe_resolve_tablets in H.
  destruct (collect_resolve_queries _ _) as [[r a] qs]. destruct qs as [|q qs].
  { injection H as <- <-. by split_and!. }
  apply bind_Return in H as ([y u] & H & Heq). injection Heq as <- <-. open_context H.
  unfold manager_resolve in H. apply bind_Return in H as ([m u'] & H & Heq). injection Heq as <- <-.
  open_parts H. apply resolve_notification_ids in H as Hids.
  apply (resolve_within_world same_transactions) in H as [[Hr Ht] Hm]; [|done|apply resolve_handler_same].
  simpl in Hr, Ht. split_and!; [split; simpl; [done| |done|done]|done..].
  by eapply metadata_ids_nil.
Qed.

Lemma silent_start k x k' x' :
  manager_idle x → metadata_within same_transactions (mg_metadata_cache x) →
  map_Forall (λ _ t, tracker_waits x t) (kc_transaction_trackers k) →
  maybe_start_transaction hash_key k x = Return (k', x') →
  manager_idle x' ∧ metadata_within same_transactions (mg_metadata_cache x') ∧
  kc_responses k' = kc_responses k ∧
  map_Forall (λ _ t, tracker_waits x' t) (kc_transaction_trackers k').
Proof using.
  intros Hi Hh Ht H. unfold maybe_start_transaction in H.
  destruct (foldl _ _ _) as [[[ts a] qs] ids]. destruct qs as [|q qs]; [by injection H as <- <-|].
  apply bind_Return in H as ([y tx] & H1 & H). apply bind_Return in H as ([z tx'] & H2 & Heq).
  injection Heq as <- <-. open_context H1. open_context H2.
  assert (start_transaction x = (y, tx)) as Hst by congruence.
  destruct (start_waits x y tx (q :: qs) z tx' Hst H2) as (W1 & W2 & W3 & W4).
  split_and!; [by apply W4|by rewrite W3|done|]. simpl. apply map_Forall_insert_2.
  - split; [done|]. by exists tx'.
  - eapply map_Forall_impl; [exact Ht|]. intros i t (Hn & u & Hu & Hwait). split; [done|].
    exists u. by split; [|apply W2].
Qed.

Lemma silent_commit k x k' x' :
  map_Forall (λ _ t, tracker_waits x t) (kc_transaction_trackers k) →
  maybe_commit_transactions k x = Return (k', x') →
  x' = x ∧ kc_responses k' = kc_responses k ∧
  map_Forall (λ _ t, tracker_waits x t) (kc_transaction_trackers k').
Proof using.
  intros Ht H. unfold maybe_commit_transactions in H. apply bind_Return in H as ([ts y] & H & Heq).
  injection Heq as <- <-. simpl.
  assert (Forall (λ e, tracker_waits x e.2) (hash_iter (kc_transaction_trackers k))) as Hl.
  { apply Forall_forall. intros [id t] Hin. rewrite hash_iter_perm, elem_of_map_to_list in Hin.
    by eapply Ht. }
  revert Ht H. generalize (kc_transaction_trackers k) at 1 2 as m.
  induction Hl as [|[id t] l (Hn & tx & Htx & s & Hs & Ha) _ IH]; intros m Hm H; simpl in H.
  { injection H as <- <-. done. }
  unfold maybe_commit_transaction in H at 1. simpl in Hn, Htx. rewrite Hn, Htx in H. open_context H.
  unfold transaction_has_pending_process, manager_has_transaction_pending_process in H. open_parts H.
  unfold has_transaction_pending_process in H. rewrite Hs in H. cbn in H. rewrite Ha in H. cbn in H.
  apply IH in H; [done|]. apply map_Forall_insert_2; [|done]. split; [done|].
  exists tx. split; [done|]. by exists s.
Qed.

Lemma silent_finalize k x k' x' :
  map_Forall (λ _ t, tracker_waits x t) (kc_transaction_trackers k) →
  maybe_finalize_or_retry_transactions k x = Return (k', x') →
  x' = x ∧ kc_responses k' = kc_responses k ∧
  map_Forall (λ _ t, tracker_waits x t) (kc_transaction_trackers k').
Proof using.
  intros Ht H. unfold maybe_finalize_or_retry_transactions in H.
  apply bind_Return in H as ([[[ts f] ids] y] & H & Heq). injection Heq as <- <-. simpl.
  assert (Forall (λ e, tracker_waits x e.2) (hash_iter (kc_transaction_trackers k))) as Hl.
  { apply Forall_forall. intros [id t] Hin. rewrite hash_iter_perm, elem_of_map_to_list in Hin.
    by eapply Ht. }
  revert Ht H. generalize (kc_transaction_trackers k) at 1 2 as m.
  induction Hl as [|[id t] l Hwait _ IH]; intros m Hm H; simpl in H.
  { injection H as <- <- <- <-. done. }
  destruct Hwait as [Hn Hx]. simpl in Hn, Hx. unfold maybe_finalize_transaction in H at 1.
  rewrite Hn in H. cbn [mbind outcome_bind] in H. apply IH in H; [done|].
  apply map_Forall_insert_2; [by split|done].
Qed.

Lemma silent_store_progress x w instant w' x' :
  silent x w → store_make_progress hash_key w instant x = Return (w', x') → silent x' w'.
Proof using.
  intros [Hi Hh Hr Ht] H. unfold store_make_progress, with_borrow in H.
  destruct (st_borrowed w); [done|]. apply bind_Return in H as ([k4 x4] & H & Heq).
  injection Heq as <- <-. apply bind_Return in H as ([k1 x1] & H1 & H).
  apply bind_Return in H as ([k2 x2] & H2 & H). apply bind_Return in H as ([k3 x3] & H3 & H4).
  apply silent_resolve in H1 as (Hi1 & Hh1 & Hc1 & Hr1 & Ht1); [|done..].
  assert (map_Forall (λ _ t, tracker_waits x1 t) (kc_transaction_trackers k1)) as Hw1.
  { rewrite Ht1. eapply map_Forall_impl; [exact Ht|]. intros i t (Hn & u & Hu & Hwait).
    split; [done|]. exists u. split; [done|]. unfold waits. by rewrite Hc1. }
  apply silent_start in H2 as (Hi2 & Hh2 & Hr2 & Hw2); [|done..].
  apply silent_commit in H3 as (-> & Hr3 & Hw3); [|done].
  apply silent_finalize in H4 as (-> & Hr4 & Hw4); [|done].
  split; simpl; [done|done|congruence|done].
Qed.

(** *** The actor *)

Definition silent_actor (s : TabletCacheActor AppManager AppStore) : Prop :=
  silent (tca_transaction_manager s) (tca_key_value_store s).

Lemma silent_take x x' w w' messages responses :
  silent x w → manager_take_out_messages x = Return (x', messages) →
  store_take_responses w = Return (w', responses) →
  silent x' w' ∧ messages = [] ∧ responses = [].
Proof using.
  intros [[Ic Im Id Io] Hh Hr Ht] H Hw. unfold store_take_responses, with_borrow in Hw.
  destruct (st_borrowed w); [done|]. injection Hw as <- <-.
  unfold manager_take_out_messages in H. open_parts H.
  unfold coordinator_take_out_messages, metadata_cache_take_out_messages in H.
  rewrite Ic, Im in H. cbn in H. unfold data_cache_take_out_messages in H. rewrite Id in H. cbn in H.
  injection H as <- <-. split_and!; [|done|done]. split; [|done|done|done]. by split.
Qed.

Lemma mwp_on_parts (f : AppStore → AppManager → outcome (AppStore * AppManager)) s Q R :
  (∀ w x, f (tca_key_value_store s) (tca_transaction_manager s) = Return (w, x) →
     Q () {| tca_transaction_manager := x; tca_key_value_store := w; tca_context := tca_context s |}) →
  mwp (on_parts (E:=ActorError) f) Q R s.
Proof using. intros HQ. unfold on_parts. repeat mwp_step. destruct a. by apply HQ. Qed.

Lemma silent_process_in_msg id payload msg s :
  silent_actor s →
  mwp (process_in_msg id payload msg) (λ _ s', silent_actor s') (λ _ s', silent_actor s') s.
Proof using.
  intros Hs.
  assert (∀ m, mwp (manager_message m) (λ _ s', silent_actor s') (λ _ s', silent_actor s') s) as Hm.
  { intros m. apply mwp_on_parts. intros w x H. apply bind_Return in H as ([x1 w1] & H & Heq).
    injection Heq as <- <-. eapply silent_message; [exact Hs|exact H]. }
  assert (∀ r, mwp (on_parts (E:=ActorError) (λ w x, w ← kvs_process_request (X:=AppManager) w r; Return (w, x)))
    (λ _ s', silent_actor s') (λ _ s', silent_actor s') s) as Hw.
  { intros r. apply mwp_on_parts. intros w x H. apply bind_Return in H as (w1 & H & Heq).
    injection Heq as <- <-. cbn in H. unfold store_process_request, with_borrow in H.
    destruct (st_borrowed _); [done|]. injection H as <-. destruct Hs as [Hi Hh Hr Ht]. by split. }
  destruct msg; simpl; [apply Hw|apply Hw|apply Hm|apply Hm| |apply Hm]. mwp_step. mwp_step. apply Hm.
Qed.

Lemma silent_process_command ctx command s :
  silent_actor s →
  mwp (cache_on_process_command in_message_decode ctx command)
    (λ o s', silent_actor s' ∧ o = co_with_commands []) (λ _ s', silent_actor s') s.
Proof using.
  intros Hs. unfold cache_on_process_command. apply mwp_bind.
  eapply (mwp_mono _ (λ _ s', silent_actor s') _ (λ _ s', silent_actor s')); [| |done].
  { destruct command as [command|]; [|done].
    destruct (in_message_decode (command_header command)) as [[[msg|]]|]; [|done..].
    by apply silent_process_in_msg. }
  clear s Hs. intros _ s Hs. apply mwp_bind. unfold mwp at 1, cache_get_context.
  destruct (tca_context s); [|done]. apply mwp_bind, mwp_on_parts. intros w x H. cbn in H.
  apply silent_store_progress in H; [|exact Hs]. unfold take_commands.
  apply mwp_bind, mwp_bind, mwp_get, mwp_bind, mwp_call. intros [x1 messages] H1.
  apply mwp_bind, mwp_call. intros [w1 responses] H2.
  destruct (silent_take _ _ _ _ _ _ H H1 H2) as (Hs1 & -> & ->). repeat mwp_step. done.
Qed.

Lemma silent_init x config x' w :
  silent x w → manager_init x config = Return x' → silent x' w.
Proof using.
  intros [[Ic Im Id Io] Hh Hr Ht] H. unfold manager_init in H.
  apply bind_Return in H as (dc & _ & H). apply bind_Return in H as (d & Hd & H).
  apply bind_Return in H as (mcf & _ & H). apply bind_Return in H as (m & Hm & H).
  injection H as <-. injection Hd as <-. open_parts Hm. unfold metadata_cache_init in Hm.
  apply bind_Return in Hm as (tables & _ & Hm). injection Hm as <-.
  split; [by split|done..].
Qed.

Lemma silent_on_init ctx s :
  silent_actor s →
  mwp (cache_on_init config_decode ctx) (λ _ s', silent_actor s') (λ _ s', silent_actor s') s.
Proof using.
  intros Hs. unfold cache_on_init. apply mwp_bind, mwp_get, mwp_bind, mwp_set, mwp_bind, mwp_try; [|done].
  intros config _. apply mwp_bind, mwp_call. intros store_config _. apply mwp_bind, mwp_on_parts.
  intros w x H. apply bind_Return in H as (w1 & H & Heq). injection Heq as <- <-. cbn in H.
  unfold store_init, with_borrow in H. destruct (st_borrowed _); [done|]. injection H as <-.
  apply mwp_bind, mwp_call. intros manager_config _. apply mwp_on_parts. intros w x H.
  apply bind_Return in H as (x1 & H & Heq). injection Heq as <- <-. cbn in H.
  eapply silent_init; [|exact H]. destruct Hs as [Hi Hh Hr Ht]. by split.
Qed.

Lemma silent_app_actor : silent_actor app_actor.
Proof using. split; [by split|apply map_Forall_empty|done|apply map_Forall_empty]. Qed.

(** The actor of the application after any calls of the driver. *)
Inductive actor_reach : TabletCacheActor AppManager AppStore → Prop :=
| ActorNew : actor_reach app_actor
| ActorInit ctx s s' r :
    actor_reach s → cache_on_init config_decode ctx s = Returned (s', r) → actor_reach s'
| ActorProcess ctx command s s' r :
    actor_reach s → cache_on_process_command in_message_decode ctx command s = Returned (s', r) →
    actor_reach s'.

Lemma actor_reach_silent s : actor_reach s → silent_actor s.
Proof using.
  induction 1 as [|ctx s s' r _ IH H|ctx command s s' r _ IH H]; [apply silent_app_actor|..].
  - pose proof (mwp_Returned _ _ _ _ _ _ (silent_on_init ctx s IH) H) as Hs. by destruct r.
  - pose proof (mwp_Returned _ _ _ _ _ _ (silent_process_command ctx command s IH) H) as Hs.
    destruct r; [by destruct Hs|done].
Qed.

(** The tablet cache actor of the application is silent: whatever commands it is given,
    it sends no command, neither a request for other actors nor a response, and proposes no
    event.  The transaction manager is never asked to make progress. *)
Theorem actor_never_sends ctx command s s' o :
  actor_reach s →
  cache_on_process_command in_message_decode ctx command s = Returned (s', Ok o) →
  co_commands o = [] ∧ co_event o = None.
Proof using.
  intros Hs%actor_reach_silent H.
  pose proof (mwp_Returned _ _ _ _ _ _ (silent_process_command ctx command s Hs) H) as [_ ->]. done.
Qed.
End silent.

(** ** A put that is never answered *)

#[local] Existing Instances manager_order_Z manager_order_string manager_order_pair contents_codec.

(** Codecs of the messages. *)

#[local] Instance PutKeyResponse_eq_dec : EqDecision PutKeyResponse.
Proof. solve_decision. Defined.
#[local] Instance GetKeyResponse_eq_dec : EqDecision GetKeyResponse.
Proof. solve_decision. Defined.
#[local] Instance LoadTabletRequest_eq_dec : EqDecision LoadTabletRequest.
Proof. solve_decision. Defined.
#[local] Instance StoreTabletRequest_eq_dec : EqDecision StoreTabletRequest.
Proof. solve_decision. Defined.
#[local] Instance ExecuteTabletOpsRequest_eq_dec : EqDecision ExecuteTabletOpsRequest.
Proof. solve_decision. Defined.
#[local] Instance TabletCacheOutMsg_eq_dec : EqDecision TabletCacheOutMsg.
Proof. solve_decision. Defined.
#[local] Instance TabletCacheOutMessage_eq_dec : EqDecision TabletCacheOutMessage.
Proof. solve_decision. Defined.

#[local] Instance TabletCacheOutMessage_countable : Countable TabletCacheOutMessage.
Proof.
  refine (inj_countable'
    (λ m, match tco_out_msg m with
          | None => None
          | Some (CachePutKeyResponse r) => Some (inl (pkr_existed r, None))
          | Some (CacheGetKeyResponse r) => Some (inl (gkr_existed r, Some (gkr_value r)))
          | Some (CacheLoadTabletRequest r) => Some (inr (inl (true, ltq_blob_uri r)))
          | Some (CacheStoreTabletRequest r) => Some (inr (inl (false, stq_blob_uri r)))
          | Some (CacheExecuteTabletOpsRequest r) => Some (inr (inr (etq_recipient_node_id r)))
          end)
    (λ s, {| tco_out_msg :=
          match s with
          | None => None
          | Some (inl (b, None)) => Some (CachePutKeyResponse {| pkr_existed := b |})
          | Some (inl (b, Some v)) => Some (CacheGetKeyResponse {| gkr_existed := b; gkr_value := v |})
          | Some (inr (inl (true, u))) => Some (CacheLoadTabletRequest {| ltq_blob_uri := u |})
          | Some (inr (inl (false, u))) => Some (CacheStoreTabletRequest {| stq_blob_uri := u |})
          | Some (inr (inr n)) =>
              Some (CacheExecuteTabletOpsRequest {| etq_recipient_node_id := n |})
          end |}) _).
  by intros [[[[]|[]|[]|[]|[]]|]].
Defined.

#[local] Instance requests_codec : ProtoCodec TabletsRequest := countable_codec _.
#[local] Instance responses_codec : ProtoCodec TabletsResponse := countable_codec _.
#[local] Instance cache_out_codec : ProtoCodec TabletCacheOutMessage := countable_codec _.

(** Reads every configuration and every command as the ones of the sample. *)
Definition sample_config_decode (_ : bytes) : option TabletCacheConfig :=
  Some {| tcc_transaction_manager_config := Some sample_manager_config;
          tcc_store_config := Some sample_store_config |}.

Definition sample_command_decode (_ : bytes) : option TabletCacheInMessage :=
  Some {| tci_in_msg := Some (CachePutKeyRequest {| pkq_key := "k"; pkq_value := [] |}) |}.

Definition sample_context : ActorContext :=
  {| ctx_id := 1; ctx_instant := 1; ctx_config := []; ctx_leader := true |}.

Definition sample_put_command : ActorCommand :=
  {| command_correlation_id := 7; command_header := []; command_payload := [] |}.

#[local] Instance sample_silent_manager : TabletTransactionManager AppStore AppManager :=
  silent_manager id String.string_of_list_byte.
#[local] Instance sample_silent_store : KeyValueStore AppManager AppStore :=
  silent_store id String.string_of_list_byte sample_hash.

Definition sample_actor_init : exec (TabletCacheActor AppManager AppStore * result ActorError unit) :=
  cache_on_init sample_config_decode sample_context app_actor.

Definition sample_actor_put (s : TabletCacheActor AppManager AppStore)
    : exec (TabletCacheActor AppManager AppStore * result ActorError CommandOutcome) :=
  cache_on_process_command sample_command_decode sample_context (Some sample_put_command) s.

(** The put is taken and waits for its tablet, but nothing is sent. *)
Lemma actor_never_sends_witness :
  ∃ s s' o, sample_actor_init = Returned (s, Ok ()) ∧ sample_actor_put s = Returned (s', Ok o) ∧
    rt_waiting_resolution_requests (kc_request_tracker (st_core (tca_key_value_store s'))) ≠ ∅ ∧
    co_commands o = [] ∧ co_event o = None.
Proof.
  assert (match sample_actor_init with
          | Returned (s, Ok _) =>
              match sample_actor_put s with
              | Returned (s', Ok _) =>
                  size (rt_waiting_resolution_requests
                    (kc_request_tracker (st_core (tca_key_value_store s')))) = 1%nat
              | _ => False
              end
          | _ => False
          end) as H by by vm_compute.
  destruct sample_actor_init as [[s [[]|]]| |] eqn:Hi; [|done..].
  destruct (sample_actor_put s) as [[s' [o|]]| |] eqn:Hp; [|done..].
  exists s, s', o. split; [done|]. split; [exact Hp|]. split.
  { intros E. by rewrite E in H. }
  apply (actor_never_sends id String.string_of_list_byte sample_hash sample_config_decode
    sample_command_decode sample_context (Some sample_put_command) s s' o); [|exact Hp].
  eapply (ActorInit _ _ _ _ _ sample_context); [apply ActorNew|exact Hi].
Defined.
