(* ===== verification/Wire.v ===== *)
(** * A wire format for concrete runs

    Codecs that compose: a value is written in front of what follows it, and read back with
    what follows it.  They give the concrete runs of the development message codecs that meet
    the law of [ProtoCodec], that reject bytes which encode nothing, and that nest without
    blowing up the messages inside other messages. *)

From S2P Require Import Prelude.

Class Wire (A : Type) : Type := {
  put : A → bytes;
  get : bytes → option (A * bytes);
  get_put : ∀ a rest, get (put a ++ rest) = Some (a, rest)
}.

(** A byte is itself. *)
#[global, program] Instance wire_byte : Wire Byte.byte :=
  {| put b := [b]; get l := match l with [] => None | b :: l => Some (b, l) end |}.
Next Obligation. done. Qed.

#[global, program] Instance wire_unit : Wire unit := {| put _ := []; get l := Some ((), l) |}.
Next Obligation. by intros []. Qed.

#[global, program] Instance wire_prod {A B} `{!Wire A, !Wire B} : Wire (A * B) :=
  {| put x := put x.1 ++ put x.2;
     get l := '(a, l) ← get l; '(b, l) ← get l; Some ((a, b), l) |}.
Next Obligation. intros A B ?? [a b] rest. simpl. rewrite <- app_assoc, get_put. simpl. by rewrite get_put. Qed.

Definition put_sum {A B} `{!Wire A, !Wire B} (x : A + B) : bytes :=
  match x with inl a => Byte.x00 :: put a | inr b => Byte.x01 :: put b end.

Definition get_sum {A B} `{!Wire A, !Wire B} (l : bytes) : option ((A + B) * bytes) :=
  match l with
  | Byte.x00 :: l => '(a, l) ← get l; Some (inl a, l)
  | Byte.x01 :: l => '(b, l) ← get l; Some (inr b, l)
  | _ => None
  end.

#[global, program] Instance wire_sum {A B} `{!Wire A, !Wire B} : Wire (A + B) :=
  {| put := put_sum; get := get_sum |}.
Next Obligation. intros A B ?? [a|b] rest; simpl; by rewrite get_put. Qed.

(** A type that embeds into one with a codec. *)
Program Definition wire_inj {A B} `{!Wire B} (f : A → B) (g : B → A) (gf : ∀ a, g (f a) = a) : Wire A :=
  {| put a := put (f a); get l := '(b, l) ← get l; Some (g b, l) |}.
Next Obligation. intros A B ? f g gf a rest. simpl. rewrite get_put. simpl. by rewrite gf. Qed.

#[global] Instance wire_option {A} `{!Wire A} : Wire (option A) :=
  wire_inj (λ o, match o with None => inl () | Some a => inr a end)
    (λ s, match s with inl _ => None | inr a => Some a end) ltac:(by intros []).

(** Lists: a marker in front of each element, another one at the end. *)
Definition put_list {A} `{!Wire A} (l : list A) : bytes :=
  foldr (λ a r, Byte.x01 :: put a ++ r) [Byte.x00] l.

Fixpoint get_list {A} `{!Wire A} (fuel : nat) (l : bytes) : option (list A * bytes) :=
  match fuel, l with
  | S fuel, Byte.x00 :: l => Some ([], l)
  | S fuel, Byte.x01 :: l => '(a, l) ← get l; '(r, l) ← get_list fuel l; Some (a :: r, l)
  | _, _ => None
  end.

Lemma get_put_list {A} `{!Wire A} (l : list A) rest fuel :
  (length l < fuel)%nat → get_list fuel (put_list l ++ rest) = Some (l, rest).
Proof.
  revert fuel. induction l as [|a l IH]; intros [|fuel] Hf; simpl in *; try lia; [done|].
  rewrite <- app_assoc, get_put. simpl. by rewrite IH by lia.
Qed.

Lemma put_list_length {A} `{!Wire A} (l : list A) : (length l < length (put_list l))%nat.
Proof. induction l as [|a l IH]; simpl; [lia|]. rewrite length_app. lia. Qed.

#[global, program] Instance wire_list {A} `{!Wire A} : Wire (list A) :=
  {| put := put_list; get l := get_list (S (length l)) l |}.
Next Obligation.
  intros A ? l rest. apply get_put_list. rewrite length_app. pose proof (put_list_length l). lia.
Qed.

(** Numbers, names and the like: the bits of their code, then a marker. *)
Fixpoint put_pos (p : positive) : bytes :=
  match p with
  | xH => [Byte.x02]
  | xO p => Byte.x00 :: put_pos p
  | xI p => Byte.x01 :: put_pos p
  end.

Fixpoint get_pos (l : bytes) : option (positive * bytes) :=
  match l with
  | Byte.x00 :: l => '(p, l) ← get_pos l; Some (xO p, l)
  | Byte.x01 :: l => '(p, l) ← get_pos l; Some (xI p, l)
  | Byte.x02 :: l => Some (xH, l)
  | _ => None
  end.

Lemma get_put_pos p rest : get_pos (put_pos p ++ rest) = Some (p, rest).
Proof. by induction p as [p IH|p IH|]; simpl; rewrite ?IH. Qed.

Program Definition wire_countable {A} `{Countable A} : Wire A :=
  {| put a := put_pos (encode a);
     get l := '(p, l) ← get_pos l; a ← decode p; Some (a, l) |}.
Next Obligation. intros A ?? a rest. simpl. rewrite get_put_pos. simpl. by rewrite decode_encode. Qed.

#[global] Instance wire_Z : Wire Z := wire_countable.
#[global] Instance wire_bool : Wire bool := wire_countable.
#[global] Instance wire_positive : Wire positive := wire_countable.

Lemma string_of_bytes_of_string s : String.string_of_list_byte (String.list_byte_of_string s) = s.
Proof. apply String.string_of_list_byte_of_string. Qed.

#[global] Instance wire_string : Wire string :=
  wire_inj String.list_byte_of_string String.string_of_list_byte string_of_bytes_of_string.

(** A message codec: nothing may follow the message. *)
Definition get_all {M} `{!Wire M} (l : bytes) : option M :=
  match get l with Some (m, []) => Some m | _ => None end.

Lemma get_all_put {M} `{!Wire M} (m : M) : get_all (put m) = Some m.
Proof. unfold get_all. by rewrite <- (app_nil_r (put m)), get_put. Qed.

Lemma get_all_Some {M} `{!Wire M} (m : M) b : Some (put m) = Some b → get_all b = Some m.
Proof. intros [= <-]. apply get_all_put. Qed.

Definition wire_codec (M : Type) `{!Wire M} : ProtoCodec M :=
  {| proto_encode := put; proto_decode := get_all; proto_decode_encode := get_all_put |}.
