(* ===== verification/SymbolicCrypto.v ===== *)
(** * Symbolic instances of the encryption and attestation libraries

    Instances of the library interfaces of [Crypto] and [AppAttestation] that fail where the
    real libraries fail: a key of the wrong length does not parse, a ciphertext opens only
    under the key, the encapsulation and the associated data that it was made with, bytes
    that encode no message are refused, and a signature is checked.  Nothing is secret: a
    ciphertext spells out what it was made from.  The unit tests of the ledger run on them. *)

From S2P Require Import Prelude F64 Policy Crypto AppAttestation Wire.

(** ** COSE *)

#[global] Instance wire_CborValue : Wire CborValue :=
  wire_inj (λ v, match v with CborInteger z => inl z | CborBytes b => inr (inl b) | CborOther => inr (inr ()) end)
    (λ v, match v with inl z => CborInteger z | inr (inl b) => CborBytes b | inr (inr _) => CborOther end)
    ltac:(by intros []).
#[global] Instance wire_Label : Wire Label := wire_countable.
#[global] Instance wire_KeyType : Wire KeyType := wire_countable.
#[global] Instance wire_Algorithm : Wire Algorithm := wire_countable.
#[global] Instance wire_ClaimName : Wire ClaimName := wire_countable.

#[global] Instance wire_CoseKey : Wire CoseKey :=
  wire_inj (λ k, (ck_kty k, ck_key_id k, ck_alg k, ck_params k))
    (λ '(a, b, c, d), Build_CoseKey a b c d) ltac:(by intros []).

#[global] Instance wire_ClaimsSet : Wire ClaimsSet :=
  wire_inj (λ c, (claims_expiration_time c, claims_issued_at c, claims_rest c))
    (λ '(a, b, c), Build_ClaimsSet a b c) ltac:(by intros []).

(** Algorithm, payload and signature. *)
Definition Sign1 : Type := option Algorithm * bytes * bytes.

Program Definition symbolic_coset : Coset :=
  {| cose_key_to_vec k := Some (put k);
     cose_key_from_slice := get_all;
     claims_to_vec c := Some (put c);
     claims_from_slice := get_all;
     CoseSign1 := Sign1;
     sign1_to_vec m := Some (put (m : option Algorithm * bytes * bytes));
     sign1_from_slice := get_all (M := option Algorithm * bytes * bytes);
     sign1_new a p := (a, p, []);
     sign1_tbs m aad := put (m.1.1, aad, m.1.2);
     sign1_with_signature m s := (m.1, s);
     sign1_alg m := m.1.1;
     sign1_payload m := Some m.1.2;
     sign1_signature m := m.2 |}.
Next Obligation. intros k b. exact (get_all_Some k b). Qed.
Next Obligation. intros k b. exact (get_all_Some k b). Qed.
Next Obligation. intros k b. exact (get_all_Some k b). Qed.
Next Obligation. done. Qed.

(** ** HPKE *)

Definition key_length : nat := 32.

(** Key material of the right length. *)
Definition Key : Type := dsig (λ l : bytes, length l = key_length).

Definition key_bytes (k : Key) : bytes := proj1_sig k.

Definition key_from_bytes (b : bytes) : option Key :=
  match decide (length b = key_length) with
  | left H => Some (dexist b H)
  | right _ => None
  end.

Lemma key_from_to_bytes (k : Key) : key_from_bytes (key_bytes k) = Some k.
Proof.
  unfold key_from_bytes. destruct (decide _) as [H|H].
  - f_equal. by apply dsig_eq.
  - destruct H. exact (proj2_dsig k).
Qed.

(** The byte that a random seed repeats. *)
Definition seed_byte (r : Z) : Byte.byte := default Byte.x00 (Byte.of_N (Z.to_N (r mod 256))).

Program Definition seed_key (r : Z) : Key := dexist (replicate key_length (seed_byte r)) _.
Next Obligation. intros r. apply length_replicate. Qed.

Definition symbolic_seal (k : Key) (plaintext aad : bytes) (r : Z) : option (Key * bytes) :=
  Some (seed_key r, put (key_bytes k, key_bytes (seed_key r), aad, plaintext)).

Definition symbolic_open (k e : Key) (ciphertext aad : bytes) : option bytes :=
  '(k', e', aad', plaintext) ← get_all (M := bytes * bytes * bytes * bytes) ciphertext;
  if decide (k' = key_bytes k ∧ e' = key_bytes e ∧ aad' = aad) then Some plaintext else None.

Program Definition symbolic_hpke : Hpke Z :=
  {| PrivateKey := Key; PublicKey := Key; EncappedKey := Key;
     kem_gen_keypair r := (seed_key r, seed_key r);
     private_key_to_bytes k := key_bytes k; private_key_from_bytes := key_from_bytes;
     public_key_to_bytes k := key_bytes k; public_key_from_bytes := key_from_bytes;
     encapped_key_to_bytes k := key_bytes k; encapped_key_from_bytes := key_from_bytes;
     single_shot_seal := symbolic_seal;
     single_shot_open := symbolic_open |}.
Next Obligation. apply key_from_to_bytes. Qed.
Next Obligation. apply key_from_to_bytes. Qed.
Next Obligation. apply key_from_to_bytes. Qed.
Next Obligation.
  intros r0 p aad r e c H. simpl in H |- *. unfold symbolic_seal in H.
  pose proof (f_equal (option_map fst) H) as He. pose proof (f_equal (option_map snd) H) as Hc.
  injection He as <-. apply get_all_Some in Hc. simpl in Hc.
  unfold symbolic_open. rewrite Hc. simpl. by rewrite decide_True.
Qed.

(** ** AES-GCM-SIV *)

Definition aead_key_length : nat := 16.

Definition symbolic_aead_decrypt (k ciphertext aad : bytes) : option bytes :=
  '(k', aad', plaintext) ← get_all (M := bytes * bytes * bytes) ciphertext;
  if decide (k' = k ∧ aad' = aad) then Some plaintext else None.

Program Definition symbolic_aead : AeadCipher Z :=
  {| aead_generate_key r := replicate aead_key_length (seed_byte r);
     aead_key_ok k := bool_decide (length k = aead_key_length);
     aead_encrypt k m aad := Some (put (k, aad, m));
     aead_decrypt := symbolic_aead_decrypt |}.
Next Obligation. intros r. apply bool_decide_eq_true, length_replicate. Qed.
Next Obligation.
  intros k m aad c _ Hc%get_all_Some. unfold symbolic_aead_decrypt. rewrite Hc. simpl.
  by rewrite decide_True.
Qed.

(** ** Attestation *)

(** Evidence, endorsements and reference values of the tests: empty messages and the ones
    that belong together. *)
Inductive TestMessage := TestDefault | TestMatching.

#[global] Instance TestMessage_eq_dec : EqDecision TestMessage.
Proof. solve_decision. Defined.
#[global] Instance wire_TestMessage : Wire TestMessage :=
  wire_inj (λ m, match m with TestDefault => false | TestMatching => true end)
    (λ b, if b : bool then TestMatching else TestDefault) ltac:(by intros []).

(** The application signing key that the test evidence carries, and what it signs. *)
Definition test_signing_key : bytes := [Byte.x2a].

Definition symbolic_sign (signing_key message : bytes) : bytes := put (signing_key, message).

(** The only [Struct] that the tests encode, with one number, and its encoding. *)
Definition test_config_properties : Struct := [("x"%string, NumberValue f64_one)].
Definition test_config_bytes : bytes := [Byte.x78].

Definition symbolic_attestation : AttestationLibraries TestMessage :=
  {| verify_dice_chain e :=
       match e with TestMatching => Some test_signing_key | TestDefault => None end;
     VerifyingKey := bytes;
     verifying_key_from_sec1 := Some;
     p256_verify k message signature := bool_decide (signature = symbolic_sign k message);
     struct_decode b :=
       if decide (b = test_config_bytes) then Some test_config_properties else None |}.

Definition symbolic_verify (now : Z) (evidence endorsements reference_values : TestMessage) : bool :=
  bool_decide (evidence = TestMatching ∧ endorsements = TestMatching ∧ reference_values = TestMatching).
