(* ===== verification/Testing.v ===== *)
(** * Unit tests

    The repository's unit tests, run on the model.  A test is a computation that panics when
    one of its assertions fails, as in the source; it passes when it returns. *)

From S2P Require Import Prelude Model Policy.

(** A test of the source. *)
Abbreviation unit_test := (outcome unit).

(** [assert!] *)
Definition assert (b : bool) : outcome unit := if b then Return () else Panic.

(** [assert_eq!] *)
Definition assert_eq {A} `{EqDecision A} (x y : A) : outcome unit := assert (bool_decide (x = y)).

(** [assert_ne!] *)
Definition assert_ne {A} `{EqDecision A} (x y : A) : outcome unit := assert (bool_decide (x ≠ y)).

(** [Result::result_is_err] and [Result::result_is_ok] *)
Definition result_is_err {E A} (r : result E A) : bool :=
  match r with Err _ => true | Ok _ => false end.

Definition result_is_ok {E A} (r : result E A) : bool := negb (result_is_err r).

(** [str::contains] *)
Definition str_contains (s substr : string) : bool :=
  match String.index 0 substr s with Some _ => true | None => false end.

(** A byte string of the source. *)
Definition b_str (s : string) : bytes := String.list_byte_of_string s.

#[global] Instance StatusCode_eq_dec : EqDecision StatusCode.
Proof. solve_decision. Defined.
#[global] Instance Status_eq_dec : EqDecision Status.
Proof. solve_decision. Defined.

(** [assert_err!] of the ledger's tests. *)
Definition assert_err {A} (r : result Status A) (code : StatusCode) (substr : string)
    : outcome unit :=
  match r with
  | Ok _ => Panic
  | Err e => assert (bool_decide (status_code e = code) && str_contains (status_message e) substr)
  end.

(** [Result::unwrap] and [Result::unwrap_err] *)
Definition unwrap_ok {E A} (r : result E A) : outcome A :=
  match r with Ok a => Return a | Err _ => Panic end.

Definition unwrap_err {E A} (r : result E A) : outcome E :=
  match r with Err e => Return e | Ok _ => Panic end.

(** [panic::catch_unwind] *)
Definition catch_unwind {A} (o : outcome A) : outcome (option A) :=
  match o with Return a => Return (Some a) | Panic => Return None end.

(** A loop over the rows of a table of cases. *)
Fixpoint for_cases {A} (f : A → outcome unit) (l : list A) : outcome unit :=
  match l with
  | [] => Return ()
  | x :: l => f x;; for_cases f l
  end.

(** A method called in a test. *)
Definition run_method {S E A} (m : method S E A) (s : S) : outcome (S * result E A) :=
  match m s with Returned x => Return x | Panicked | Unfinished => Panic end.

(** A call that has to succeed. *)
Definition run_ok {S E A} (m : method S E A) (s : S) : outcome (S * A) :=
  '(s, r) ← run_method m s; a ← unwrap_ok r; Return (s, a).

(** All of a list of tests. *)
Definition tests_pass (tests : list unit_test) : bool :=
  forallb (λ t, match t with Return _ => true | Panic => false end) tests.

Lemma tests_pass_spec tests : tests_pass tests = true ↔ Forall (λ t, t = Return ()) tests.
Proof.
  unfold tests_pass. rewrite forallb_forall, Forall_forall. setoid_rewrite <- list_elem_of_In.
  split; intros H t Ht; specialize (H t Ht); by destruct t as [[]|].
Qed.

#[global] Instance result_eq_dec {E A} `{EqDecision E, EqDecision A} : EqDecision (result E A).
Proof. solve_decision. Defined.
