(* ===== verification/TestMessages.v ===== *)
(** * Messages of the runtime's unit tests

    The messages of the endpoint with the parts of the Oak protocol empty, their decidable
    equality and that of the messages of the Raft library and the actor, and the default
    messages of the protocol. *)

From S2P Require Import Prelude RaftTypes Endpoint Snapshot Handshake Communication Model.

(** The fields that the source leaves empty in the messages. *)
Definition test_oak_session : OakSession :=
  {| EndorsedEvidence := unit; AttestationBinding := unit; HandshakeRequestType := unit;
     HandshakeResponseType := unit; ReferenceValues := unit |}.
#[local] Existing Instance test_oak_session.

#[global] Instance AttestRequest_eq_dec : EqDecision (@AttestRequest test_oak_session).
Proof. intros [x] [y]. unfold EndorsedEvidence in *. simpl in *. solve_decision. Defined.
#[global] Instance AttestResponse_eq_dec : EqDecision (@AttestResponse test_oak_session).
Proof. intros [x] [y]. simpl in *. solve_decision. Defined.
#[global] Instance HandshakeRequest_eq_dec : EqDecision (@HandshakeRequest test_oak_session).
Proof. intros [x x'] [y y']. simpl in *. solve_decision. Defined.
#[global] Instance HandshakeResponse_eq_dec : EqDecision (@HandshakeResponse test_oak_session).
Proof. intros [x x'] [y y']. simpl in *. solve_decision. Defined.
#[global] Instance InitiatorRequestMessage_eq_dec :
  EqDecision (@InitiatorRequestMessage test_oak_session).
Proof. solve_decision. Defined.
#[global] Instance RecipientResponseMessage_eq_dec :
  EqDecision (@RecipientResponseMessage test_oak_session).
Proof. solve_decision. Defined.
#[global] Instance NoiseProtocolMessage_eq_dec : EqDecision (@NoiseProtocolMessage test_oak_session).
Proof. solve_decision. Defined.
#[global] Instance Encryption_eq_dec : EqDecision (@Encryption test_oak_session).
Proof. solve_decision. Defined.
#[global] Instance SecureChannelHandshake_eq_dec :
  EqDecision (@SecureChannelHandshake test_oak_session).
Proof. solve_decision. Defined.

#[global] Instance DeliverSystemMessage_eq_dec : EqDecision DeliverSystemMessage.
Proof. solve_decision. Defined.
#[global] Instance DeliverSnapshotRequest_eq_dec : EqDecision DeliverSnapshotRequest.
Proof. solve_decision. Defined.
#[global] Instance DeliverSnapshotResponse_eq_dec : EqDecision DeliverSnapshotResponse.
Proof. solve_decision. Defined.
#[global] Instance DeliverSnapshotFailure_eq_dec : EqDecision DeliverSnapshotFailure.
Proof. solve_decision. Defined.
#[global] Instance DeliverAppMessage_eq_dec : EqDecision DeliverAppMessage.
Proof. solve_decision. Defined.
#[global] Instance SnapshotConfig_eq_dec : EqDecision SnapshotConfig.
Proof. solve_decision. Defined.
#[global] Instance RaftConfig_eq_dec : EqDecision RaftConfig.
Proof. solve_decision. Defined.
#[global] Instance ChangeClusterRequest_eq_dec : EqDecision ChangeClusterRequest.
Proof. solve_decision. Defined.
#[global] Instance ChangeClusterResponse_eq_dec : EqDecision ChangeClusterResponse.
Proof. solve_decision. Defined.
#[global] Instance CheckClusterResponse_eq_dec : EqDecision CheckClusterResponse.
Proof. solve_decision. Defined.
#[global] Instance GetReplicaStateResponse_eq_dec : EqDecision GetReplicaStateResponse.
Proof. solve_decision. Defined.
#[global] Instance LogMessage_eq_dec : EqDecision LogMessage.
Proof. solve_decision. Defined.
#[global] Instance StartReplicaRequest_eq_dec : EqDecision (@StartReplicaRequest test_oak_session).
Proof.
  intros [a b c d e f] [a' b' c' d' e' f']. simpl in *.
  refine (cast_if_and (decide (a = a' ∧ b = b' ∧ c = c' ∧ d = d' ∧ f = f'))
            (decide (e = e'))); abstract naive_solver.
Defined.
#[global] Instance InMsg_eq_dec : EqDecision (@InMsg test_oak_session).
Proof. solve_decision. Defined.
#[global] Instance OutMsg_eq_dec : EqDecision (@OutMsg test_oak_session).
Proof. solve_decision. Defined.
#[global] Instance OutMessage_eq_dec : EqDecision (@OutMessage test_oak_session).
Proof. solve_decision. Defined.

(** ** The Raft library and the actor *)

#[global] Instance RaftStorageError_eq_dec : EqDecision RaftStorageError.
Proof. solve_decision. Defined.
#[global] Instance RaftError_eq_dec : EqDecision RaftError.
Proof. solve_decision. Defined.
#[global] Instance RaftEntryType_eq_dec : EqDecision RaftEntryType.
Proof. solve_decision. Defined.
#[global] Instance RaftEntry_eq_dec : EqDecision RaftEntry.
Proof. solve_decision. Defined.
#[global] Instance RaftHardState_eq_dec : EqDecision RaftHardState.
Proof. solve_decision. Defined.
#[global] Instance SnapshotError_eq_dec : EqDecision SnapshotError.
Proof. solve_decision. Defined.
#[global] Instance PalError_eq_dec : EqDecision PalError.
Proof. solve_decision. Defined.
#[global] Instance ActorCommand_eq_dec : EqDecision ActorCommand.
Proof. solve_decision. Defined.
#[global] Instance ActorEvent_eq_dec : EqDecision ActorEvent.
Proof. solve_decision. Defined.
#[global] Instance ActorEventContext_eq_dec : EqDecision ActorEventContext.
Proof. solve_decision. Defined.

(** ** Default messages *)

Definition default_attest_request : AttestRequest := {| areq_endorsed_evidence := [] |}.
Definition default_attest_response : AttestResponse := {| aresp_endorsed_evidence := [] |}.
Definition default_handshake_request : HandshakeRequest :=
  {| hreq_attestation_binding := None; hreq_handshake_type := None |}.
Definition default_handshake_response : HandshakeResponse :=
  {| hresp_attestation_binding := None; hresp_handshake_type := None |}.

