(* ===== verification/Mocks.v ===== *)
(** * Mocked objects

    The tests replace the parts around the one they test by mocked objects.  A mocked object is
    a list of expectations.  A call goes to the first expectation that matches it and that is
    not used up; a call that none matches makes the test fail, and so does an expectation of
    exactly one call that was not made. *)

From S2P Require Import Prelude.

(** How often an expectation may be called: [AnyTimes] without a bound, [ReturnOnce] when its
    answer is handed out by value, so that a second call panics, and [Once] exactly once. *)
Inductive Times := AnyTimes | ReturnOnce | Once.

Section mocks.
(** The calls of an object, and the type of the answer of each. *)
Context {Call : Type} {answer : Call → Type}.

Record Expectation := {
  ex_times : Times;
  (** the answer, when the call is of the expected method with the expected arguments *)
  ex_answer : ∀ c : Call, option (outcome (answer c));
  ex_calls : nat
}.

Definition expectation (times : Times) (f : ∀ c : Call, option (outcome (answer c)))
    : Expectation := {| ex_times := times; ex_answer := f; ex_calls := 0 |}.

(** An expectation of one call is passed over once it was met. *)
Definition ex_done (e : Expectation) : bool :=
  match ex_times e with
  | Once => negb (ex_calls e =? 0)%nat
  | AnyTimes | ReturnOnce => false
  end.

Definition ex_run (e : Expectation) (c : Call) (a : outcome (answer c)) : outcome (answer c) :=
  match ex_times e, ex_calls e with
  | ReturnOnce, S _ => Panic
  | _, _ => a
  end.

Definition ex_called (e : Expectation) : Expectation :=
  {| ex_times := ex_times e; ex_answer := ex_answer e; ex_calls := S (ex_calls e) |}.

Fixpoint answer_call (l : list Expectation) (c : Call)
    : outcome (list Expectation * answer c) :=
  match l with
  | [] => Panic
  | e :: l =>
      match ex_answer e c with
      | Some a =>
          if ex_done e then '(l, a) ← answer_call l c; Return (e :: l, a)
          else a ← ex_run e c a; Return (ex_called e :: l, a)
      | None => '(l, a) ← answer_call l c; Return (e :: l, a)
      end
  end.

(** The expectations, and whether a method that cannot fail was called unexpectedly. *)
Record Mock := { mock_expectations : list Expectation; mock_unexpected : bool }.

Definition mock_new : Mock := {| mock_expectations := []; mock_unexpected := false |}.

Definition mock_expect (m : Mock) (times : Times) (f : ∀ c : Call, option (outcome (answer c)))
    : Mock :=
  {| mock_expectations := mock_expectations m ++ [expectation times f];
     mock_unexpected := mock_unexpected m |}.

Definition mock_call (m : Mock) (c : Call) : outcome (Mock * answer c) :=
  '(l, a) ← answer_call (mock_expectations m) c;
  Return ({| mock_expectations := l; mock_unexpected := mock_unexpected m |}, a).

(** A call of a method that only reads: the call is not counted. *)
Definition mock_peek (m : Mock) (c : Call) : outcome (answer c) :=
  '(_, a) ← mock_call m c; Return a.

(** A call of a method that cannot fail. *)
Definition mock_total (m : Mock) (c : Call) (a : answer c) : Mock * answer c :=
  match mock_call m c with
  | Return x => x
  | Panic => ({| mock_expectations := mock_expectations m; mock_unexpected := true |}, a)
  end.

(** What is checked when the mock is dropped. *)
Definition ex_satisfied (e : Expectation) : bool :=
  match ex_times e with Once => (ex_calls e =? 1)%nat | AnyTimes | ReturnOnce => true end.

Definition mock_satisfied (m : Mock) : bool :=
  negb (mock_unexpected m) && forallb ex_satisfied (mock_expectations m).

(** How often the expectations that answer a call were used. *)
Definition calls_made (m : Mock) (c : Call) : nat :=
  sum_list_with (λ e, match ex_answer e c with Some _ => ex_calls e | None => O end)
    (mock_expectations m).
End mocks.

Arguments Expectation {Call} answer.
Arguments Mock {Call} answer.
Arguments expectation {Call answer} _ _.

