(* ===== verification/StorageTests.v ===== *)
(** * The unit tests of the Raft log storage

    The tests of [src/runtime/src/storage.rs] on the model of [Storage].  The shared cell of
    [MemoryStorage] is left out: its methods are those of the core. *)

From S2P Require Import Prelude RaftTypes Storage Model Consensus Testing TestMessages.

Section storage_tests.
(** The size of an encoded entry, and how the Raft library cuts a list of entries at a size:
    the first entry stays, the others as long as they fit. *)
Variable message_size : RaftEntry → Z.

Fixpoint limit_rest (room : Z) (entries : list RaftEntry) : list RaftEntry :=
  match entries with
  | [] => []
  | e :: entries =>
      if decide (message_size e ≤ room) then e :: limit_rest (room - message_size e) entries else []
  end.

Definition limit_entries (entries : list RaftEntry) (max : option Z) : list RaftEntry :=
  match entries, max with
  | e :: rest, Some max => e :: limit_rest (max - message_size e) rest
  | _, _ => entries
  end.

Definition u64_max : Z := two64 - 1.

Definition test_create_snapshot (snapshot_index snapshot_term : Z) (voters : list Z) : RaftSnapshot :=
  create_raft_snapshot
    (create_raft_snapshot_metadata snapshot_index snapshot_term (create_raft_config_state voters))
    [].

Definition create_storage (snapshot_index snapshot_term max_snapshot_diff : Z)
    (entries : list RaftEntry) (voters : list Z) : outcome MemoryStorageCore :=
  let storage := storage_new max_snapshot_diff in
  let snapshot := test_create_snapshot snapshot_index snapshot_term voters in
  '(storage, r) ← apply_snapshot storage snapshot;
  unwrap_ok r;;
  '(storage, r) ← append_entries storage entries;
  unwrap_ok r;;
  Return storage.

(** The entries that most of the tests start with. *)
Definition test_entries : list RaftEntry :=
  [create_empty_raft_entry 3 3; create_empty_raft_entry 4 4; create_empty_raft_entry 5 5].

Definition test_storage_term : unit_test :=
  storage ← create_storage 2 2 1 test_entries [1];
  for_cases (λ '(index, term), r ← entry_term storage index; assert_eq term r)
    [(1, Err (RaftStore Compacted)); (3, Ok 3); (4, Ok 4); (5, Ok 5);
     (6, Err (RaftStore Unavailable))].

Definition test_storage_entries : unit_test :=
  let e1 := create_empty_raft_entry 4 4 in
  let e2 := create_empty_raft_entry 5 5 in
  let e3 := create_empty_raft_entry 6 6 in
  let entries := [create_empty_raft_entry 3 3; e1; e2; e3] in
  storage ← create_storage 2 2 1 entries [1];
  for_cases (λ '(low, high, max_size, entries),
      r ← storage_entries limit_entries storage low high (Some max_size); assert_eq entries r)
    [(2, 6, u64_max, Err (RaftStore Compacted));
     (3, 4, u64_max, Ok [create_empty_raft_entry 3 3]);
     (4, 5, u64_max, Ok [e1]);
     (4, 6, u64_max, Ok [e1; e2]);
     (4, 7, u64_max, Ok [e1; e2; e3]);
     (4, 7, 0, Ok [e1]);
     (4, 7, message_size e1 + message_size e2, Ok [e1; e2]);
     (4, 7, message_size e1 + message_size e2 + message_size e3 / 2, Ok [e1; e2]);
     (4, 7, message_size e1 + message_size e2 + message_size e3 - 1, Ok [e1; e2]);
     (4, 7, message_size e1 + message_size e2 + message_size e3, Ok [e1; e2; e3])].

Definition test_storage_last_index : unit_test :=
  storage ← create_storage 2 2 1 test_entries [1];
  last ← last_entry_index storage; assert_eq 5 last;;
  '(storage, r) ← append_entries storage [create_empty_raft_entry 6 5];
  unwrap_ok r;;
  last ← last_entry_index storage; assert_eq 6 last.

Definition test_storage_first_index : unit_test :=
  storage ← create_storage 2 2 1 test_entries [1];
  first ← first_entry_index storage; assert_eq 3 first;;
  '(storage, r) ← compact_entries storage 4;
  unwrap_ok r;;
  first ← first_entry_index storage; assert_eq 4 first.

Definition test_storage_compact_entries : unit_test :=
  for_cases (λ '(compact_index, first_index, first_term, remaining_entries),
      storage ← create_storage 2 2 1 test_entries [1];
      '(storage, r) ← compact_entries storage compact_index;
      unwrap_ok r;;
      first ← first_entry_index storage; assert_eq first_index first;;
      term ← entry_term storage first_index; assert_eq (Ok first_term) term;;
      last ← last_entry_index storage;
      r ← storage_entries limit_entries storage first_index (last +₆₄ 1) (Some 100);
      entries ← unwrap_ok r;
      assert_eq remaining_entries (zlen entries))
    [(2, 3, 3, 3); (3, 3, 3, 3); (4, 4, 4, 2); (5, 5, 5, 1)].

Definition test_storage_append_entries : unit_test :=
  let e := create_empty_raft_entry in
  for_cases (λ '(new_entries, result_entries),
      storage ← create_storage 2 2 1 test_entries [1];
      result ← catch_unwind (append_entries storage new_entries);
      match result_entries, result with
      | Some result_entries, Some (storage, _) =>
          first ← first_entry_index storage;
          last ← last_entry_index storage;
          r ← storage_entries limit_entries storage first (last +₆₄ 1) (Some 100);
          entries ← unwrap_ok r;
          assert_eq result_entries entries
      | Some _, None => Panic
      | None, result => assert (bool_decide (result = None))
      end)
    [([e 3 3; e 4 4; e 5 5], Some [e 3 3; e 4 4; e 5 5]);
     ([e 3 3; e 4 6; e 5 6], Some [e 3 3; e 4 6; e 5 6]);
     ([e 3 3; e 4 4; e 5 5; e 6 5], Some [e 3 3; e 4 4; e 5 5; e 6 5]);
     ([e 2 3; e 3 3; e 4 5], None);
     ([e 4 5], Some [e 3 3; e 4 5]);
     ([e 6 6], Some [e 3 3; e 4 4; e 5 5; e 6 6])].

Definition test_storage_get_snapshot : unit_test :=
  storage ← create_storage 2 2 1 test_entries [1];
  '(storage, r) ← storage_snapshot storage 2 1; assert_eq (Ok (test_create_snapshot 2 2 [1])) r;;
  '(storage, r) ← storage_snapshot storage 3 1;
  assert_eq (Err (RaftStore SnapshotTemporarilyUnavailable)) r;;
  '(storage, r) ← storage_snapshot storage 2 2;
  assert_eq (Err (RaftStore SnapshotTemporarilyUnavailable)) r;;
  let config_state := create_raft_config_state [1; 2] in
  should ← should_snapshot storage 3 config_state; assert should;;
  '(storage, r) ← create_snapshot storage 3 config_state [];
  unwrap_ok r;;
  '(storage, r) ← storage_snapshot storage 3 1; assert_eq (Ok (test_create_snapshot 3 3 [1; 2])) r;;
  '(_, r) ← storage_snapshot storage 2 2; assert_eq (Ok (test_create_snapshot 3 3 [1; 2])) r.

Definition test_storage_latest_snapshot_size : unit_test :=
  storage ← create_storage 2 2 1 test_entries [1];
  let snapshot_data := [Byte.x04; Byte.x05; Byte.x06] in
  '(storage, r) ← create_snapshot storage 3 (create_raft_config_state [1; 2]) snapshot_data;
  unwrap_ok r;;
  assert_eq (latest_snapshot_size storage) (zlen snapshot_data).

Definition test_storage_latest_snapshot_size_no_previous_snapshot : unit_test :=
  storage ← create_storage 2 2 1 test_entries [1];
  assert_eq (latest_snapshot_size storage) 0.

Definition test_storage_apply_snapshot : unit_test :=
  storage ← create_storage 1 1 1 [] [1; 2; 3];
  let snapshot := test_create_snapshot 4 4 [1; 2; 3] in
  '(storage, r) ← apply_snapshot storage snapshot; assert_eq (Ok ()) r;;
  '(storage, r) ← storage_snapshot storage 4 1; assert_eq (Ok snapshot) r;;
  '(_, r) ← apply_snapshot storage (test_create_snapshot 3 3 [1; 2; 3]);
  assert_eq (Err (RaftStore SnapshotOutOfDate)) r.

Definition storage_tests : list unit_test :=
  [test_storage_term; test_storage_entries; test_storage_last_index; test_storage_first_index;
   test_storage_compact_entries; test_storage_append_entries; test_storage_get_snapshot;
   test_storage_latest_snapshot_size; test_storage_latest_snapshot_size_no_previous_snapshot;
   test_storage_apply_snapshot].
End storage_tests.

(** An entry with an index and a term below 128 takes four bytes. *)
Lemma storage_tests_pass : Forall (λ t, t = Return ()) (storage_tests (λ _, 4)).
Proof. apply tests_pass_spec. vm_compute. reflexivity. Qed.
