(* ===== verification/BudgetTests.v ===== *)
(** * The unit tests of the access budgets

    The tests of [src/apps/ledger/service/src/budget.rs] on the model of [Budget].  None of
    their policies has reference values, so that they pass whatever verifies evidence. *)

From S2P Require Import Prelude F64 Policy Budget Model Testing.

#[global] Instance BlobBudgetSnapshot_eq_dec : EqDecision BlobBudgetSnapshot.
Proof. solve_decision. Defined.
#[global] Instance PerPolicyBudgetSnapshot_eq_dec : EqDecision PerPolicyBudgetSnapshot.
Proof. solve_decision. Defined.
#[global] Instance BudgetSnapshot_eq_dec : EqDecision BudgetSnapshot.
Proof. solve_decision. Defined.

Section budget_tests.
Context {ReferenceValues Evidence Endorsements : Type}.
Variable verify : Z → Evidence → Endorsements → ReferenceValues → bool.

#[local] Abbreviation Policy := (@DataAccessPolicy ReferenceValues).
#[local] Abbreviation App := (@Application Evidence Endorsements).
#[local] Abbreviation find := (find_matching_transform verify).

(** ** Messages of the tests, the other fields at their defaults *)

Definition test_app (tag : string) : App :=
  {| app_tag := tag; app_evidence := None; app_endorsements := None;
     app_config_properties := None |}.

Definition default_app : App := test_app "".

Definition tag_matcher (tag : string) : @ApplicationMatcher ReferenceValues :=
  {| matcher_tag := Some tag; matcher_reference_values := None;
     matcher_config_properties := None |}.

Definition test_transform (src : Z) (application : option (@ApplicationMatcher ReferenceValues))
    (access_budget : option AccessBudget) (shared : list Z) : @Transform ReferenceValues :=
  {| transform_src := src; transform_dest := None; transform_application := application;
     transform_access_budget := access_budget;
     transform_shared_access_budget_indices := shared |}.

Definition test_policy (transforms : list (@Transform ReferenceValues)) (shared : list AccessBudget)
    : Policy :=
  {| policy_transforms := transforms; policy_shared_access_budgets := shared |}.

Definition times (n : Z) : AccessBudget := {| budget_kind := Some (Times n) |}.

(** A policy with one transform, which may be used [n] times. *)
Definition times_policy (n : Z) : Policy := test_policy [test_transform 0 None (Some (times n)) []] [].

Definition err {A} (code : StatusCode) (message : string) : result Status A :=
  Err (new_with_message code message).

(** ** Tests *)

Definition test_find_matching_transform_success : unit_test :=
  let tracker := tracker_new in
  let app := test_app "foo" in
  let policy := test_policy
    [test_transform 0 (Some (tag_matcher (app_tag app))) None [];
     test_transform 1 (Some (tag_matcher "other")) None [];
     test_transform 1 (Some (tag_matcher (app_tag app))) None [];
     test_transform 1 (Some (tag_matcher (app_tag app))) None []] [] in
  r ← find tracker [] 1 policy (b_str "policy-hash") app 0;
  assert_eq r (Ok 2).

Definition test_find_matching_transform_without_match : unit_test :=
  let tracker := tracker_new in
  let blob_id := b_str "blob-id" in
  let policy := test_policy
    [test_transform 0 (Some (tag_matcher "tag1")) None [];
     test_transform 1 (Some (tag_matcher "tag2")) None []] [] in
  let policy_hash := b_str "hash" in
  r ← find tracker blob_id 1 policy policy_hash (test_app "no-match") 0; assert (result_is_err r);;
  r ← find tracker blob_id 10 policy policy_hash (test_app "tag1") 0; assert (result_is_err r).

Definition test_find_matching_transform_with_invalid_policy : unit_test :=
  let tracker := tracker_new in
  let policy := test_policy [test_transform 0 None None [10]] [] in
  r ← find tracker [] 0 policy (b_str "policy-hash") default_app 0; assert (result_is_err r).

(** A search for a transform and the update for what it finds, as several tests do it. *)
Definition find_and_update (tracker : BudgetTracker) (blob_id : bytes) (policy : Policy)
    (policy_hash : bytes) (app : App) : outcome BudgetTracker :=
  r ← find tracker blob_id 0 policy policy_hash app 0;
  transform_index ← unwrap_ok r;
  '(tracker, r) ← update_budget tracker blob_id transform_index policy policy_hash;
  assert_eq r (Ok ());; Return tracker.

Definition test_update_budget : unit_test :=
  let policy := times_policy 2 in
  let policy_hash := b_str "hash" in
  let blob_id := b_str "blob-id" in
  tracker ← find_and_update tracker_new blob_id policy policy_hash default_app;
  tracker ← find_and_update tracker blob_id policy policy_hash default_app;
  r ← find tracker blob_id 0 policy policy_hash default_app 0;
  assert_eq r (err StatusResourceExhausted "data access budget exhausted").

Definition test_update_budget_after_exhausted : unit_test :=
  let policy := times_policy 1 in
  let policy_hash := b_str "hash" in
  let blob_id := b_str "blob-id" in
  r ← find tracker_new blob_id 0 policy policy_hash default_app 0;
  transform_index ← unwrap_ok r;
  '(tracker, r) ← update_budget tracker_new blob_id transform_index policy policy_hash;
  assert_eq r (Ok ());;
  '(tracker, r) ← update_budget tracker blob_id transform_index policy policy_hash;
  assert_eq r (err StatusInternal "no budget remaining or DataAccessPolicy invalid").

Definition test_update_budget_after_consume : unit_test :=
  let policy := test_policy [test_transform 0 None None []] [] in
  let blob_id := b_str "blob-id" in
  let tracker := consume_budget tracker_new blob_id in
  '(tracker, r) ← update_budget tracker blob_id 0 policy (b_str "policy-hash");
  assert_eq r (err StatusInternal "data access budget consumed").

Definition test_update_budget_with_invalid_policy : unit_test :=
  let policy := test_policy [test_transform 0 None None [10]] [] in
  '(tracker, r) ← update_budget tracker_new (b_str "blob-id") 0 policy (b_str "policy-hash");
  assert (result_is_err r).

Definition test_consume_budget : unit_test :=
  let policy := test_policy [test_transform 0 None None []] [] in
  let policy_hash := b_str "hash" in
  let blob_id := b_str "blob-id" in
  let tracker := consume_budget tracker_new blob_id in
  r ← find tracker blob_id 0 policy policy_hash default_app 0;
  assert_eq r (err StatusResourceExhausted "data access budget consumed");;
  r ← find tracker (b_str "blob-id2") 0 policy policy_hash default_app 0;
  assert_eq r (Ok 0).

Definition test_shared_budgets : unit_test :=
  let policy := test_policy
    [test_transform 0 None (Some (times 1)) [0]; test_transform 0 None None [0]] [times 2] in
  let policy_hash := b_str "hash" in
  let blob_id := b_str "blob-id" in
  let tracker := tracker_new in
  r ← find tracker blob_id 0 policy policy_hash default_app 0; assert_eq r (Ok 0);;
  '(tracker, r) ← update_budget tracker blob_id 0 policy policy_hash; assert_eq r (Ok ());;
  r ← find tracker blob_id 0 policy policy_hash default_app 0; assert_eq r (Ok 1);;
  '(tracker, r) ← update_budget tracker blob_id 1 policy policy_hash; assert_eq r (Ok ());;
  r ← find tracker blob_id 0 policy policy_hash default_app 0;
  assert_eq r (err StatusResourceExhausted "data access budget exhausted");;
  r ← find tracker (b_str "blob-id2") 0 policy policy_hash default_app 0; assert_eq r (Ok 0).

Definition test_policy_isolation : unit_test :=
  let app := test_app "tag" in
  let policy1 := times_policy 1 in
  let policy_hash1 := b_str "hash1" in
  let policy2 := test_policy
    [test_transform 0 (Some (tag_matcher (app_tag app))) (Some (times 1)) []] [] in
  let policy_hash2 := b_str "hash2" in
  let blob_id := b_str "blob-id" in
  tracker ← find_and_update tracker_new blob_id policy1 policy_hash1 app;
  find_and_update tracker blob_id policy2 policy_hash2 app;;
  Return ().

(** ** Snapshots *)

Definition blob_snapshot (blob_id : string) (transform shared : list Z) : BlobBudgetSnapshot :=
  {| bbs_blob_id := b_str blob_id; bbs_transform_access_budgets := transform;
     bbs_shared_access_budgets := shared |}.

Definition policy_snapshot (hash : string) (budgets : list BlobBudgetSnapshot)
    : PerPolicyBudgetSnapshot :=
  {| pps_access_policy_sha256 := b_str hash; pps_budgets := budgets |}.

Definition test_budget_snapshot (policies : list PerPolicyBudgetSnapshot) (consumed : list string)
    : BudgetSnapshot :=
  {| bs_per_policy_snapshots := policies; bs_consumed_budgets := map b_str consumed |}.

Definition test_updated_budget_snapshot : unit_test :=
  tracker ← find_and_update tracker_new (b_str "blob-id") (times_policy 2) (b_str "hash") default_app;
  assert_eq (tracker_save_snapshot tracker)
    (test_budget_snapshot [policy_snapshot "hash" [blob_snapshot "blob-id" [1] []]] []).

Definition test_consumed_budget_snapshot : unit_test :=
  tracker ← find_and_update tracker_new (b_str "blob-id") (times_policy 1) (b_str "hash") default_app;
  let tracker := consume_budget tracker (b_str "blob-id") in
  assert_eq (tracker_save_snapshot tracker)
    (test_budget_snapshot [policy_snapshot "hash" []] ["blob-id"]).

Definition test_load_snapshot : unit_test :=
  let snapshot := test_budget_snapshot
    [policy_snapshot "hash1" [blob_snapshot "blob1" [1] []];
     policy_snapshot "hash2" [blob_snapshot "blob2" [2; 3] [11]; blob_snapshot "blob3" [] [12; 13; 14]]]
    ["blob4"; "blob5"] in
  let '(tracker, r) := tracker_load_snapshot tracker_new snapshot in
  assert_eq r (Ok ());;
  assert_eq (tracker_save_snapshot tracker) snapshot.

Definition test_load_snapshot_replaces_state : unit_test :=
  tracker ← find_and_update tracker_new (b_str "blob-id") (times_policy 2) (b_str "hash") default_app;
  let default := test_budget_snapshot [] [] in
  assert_ne (tracker_save_snapshot tracker) default;;
  let '(tracker, r) := tracker_load_snapshot tracker default in
  assert_eq r (Ok ());;
  assert_eq (tracker_save_snapshot tracker) default.

Definition test_load_snapshot_duplicated_policy_hash : unit_test :=
  assert_err (tracker_load_snapshot tracker_new
      (test_budget_snapshot [policy_snapshot "hash1" []; policy_snapshot "hash1" []] [])).2
    StatusInvalidArgument "Duplicated `access_policy_sha256` entries in the snapshot".

Definition test_load_snapshot_duplicated_blob_id : unit_test :=
  assert_err (tracker_load_snapshot tracker_new
      (test_budget_snapshot
        [policy_snapshot "hash1" [blob_snapshot "blob1" [] []; blob_snapshot "blob1" [] []]] [])).2
    StatusInvalidArgument "Duplicated `blob_id` entries in the snapshot".

Definition test_load_snapshot_duplicated_consumed_blob : unit_test :=
  assert_err (tracker_load_snapshot tracker_new (test_budget_snapshot [] ["blob1"; "blob1"])).2
    StatusInvalidArgument "Duplicated `consumed_budgets` entries in the snapshot".

Definition budget_tests : list unit_test :=
  [test_find_matching_transform_success; test_find_matching_transform_without_match;
   test_find_matching_transform_with_invalid_policy; test_update_budget;
   test_update_budget_after_exhausted; test_update_budget_after_consume;
   test_update_budget_with_invalid_policy; test_consume_budget; test_shared_budgets;
   test_policy_isolation; test_updated_budget_snapshot; test_consumed_budget_snapshot;
   test_load_snapshot; test_load_snapshot_replaces_state;
   test_load_snapshot_duplicated_policy_hash; test_load_snapshot_duplicated_blob_id;
   test_load_snapshot_duplicated_consumed_blob].

Lemma budget_tests_pass : Forall (λ t, t = Return ()) budget_tests.
Proof. apply tests_pass_spec. vm_compute. reflexivity. Qed.
End budget_tests.
