(* ===== verification/TabletStoreTests.v ===== *)
(** * The unit tests of the tablet store

    The tests of [src/apps/tablet_store/service/src/actor.rs] on the model of [TabletStore],
    with codecs of their messages and with the mocks of the tests: a configurator that
    generates the tablets 1, 2 and 3, and a context on a leader. *)

From stdpp Require Import pretty.
From S2P Require Import Prelude Model TabletStore TabletCodecs Testing.

Definition TABLE_NAME : string := "A".
Definition TABLET_ID_1 : Z := 10.
Definition TABLET_VERSION_1 : Z := 5.
Definition TABLET_ID_2 : Z := 20.
Definition TABLET_VERSION_2 : Z := 7.
Definition INITIAL_TABLET_COUNT : Z := 3.
Definition CORRELATION_ID_1 : Z := 11.

(** The mocked configurator: it expects one tablet count. *)
#[local] Instance MockTabletConfigurator : TabletConfigurator unit :=
  {| tablet_generate c initial_tablet_count :=
       if decide (initial_tablet_count = INITIAL_TABLET_COUNT) then Some (c, [1; 2; 3]) else None |}.

#[local] Instance test_table_order : HashOrder string := default_hash_order string.
#[local] Instance TabletsRequest_codec : ProtoCodec TabletsRequest := countable_codec _.
#[local] Instance TabletsResponse_codec : ProtoCodec TabletsResponse := countable_codec _.
#[local] Instance TabletStoreOutMessage_codec : ProtoCodec TabletStoreOutMessage := countable_codec _.
#[local] Instance TabletStoreInMessage_codec : ProtoCodec TabletStoreInMessage := countable_codec _.
#[local] Instance TabletStoreSnapshot_codec : ProtoCodec TabletStoreSnapshot := countable_codec _.
#[local] Instance TabletStoreConfig_codec : ProtoCodec TabletStoreConfig := countable_codec _.

#[local] Abbreviation StoreActor := (@TabletStoreActor unit).

Definition create_actor_config : TabletStoreConfig :=
  {| tsc_table_configs :=
       [{| tc_table_name := "A"; tc_max_tablet_size := 1024; tc_min_tablet_size := 512;
           tc_initial_tablet_count := INITIAL_TABLET_COUNT |}] |}.

Definition create_tablet_metadata (tablet_id tablet_version : Z) : TabletMetadata :=
  {| tm_tablet_id := tablet_id; tm_tablet_version := tablet_version; tm_deleted := false;
     tm_blob_encryption_key := []; tm_blob_size := 128; tm_blob_hash := [];
     tm_blob_uri := pretty tablet_id |}.

Definition create_actor_snapshot : TabletStoreSnapshot :=
  {| tss_table_snapshots :=
       [{| tsn_table_name := TABLE_NAME;
           tsn_table_tablets :=
             [create_tablet_metadata TABLET_ID_1 TABLET_VERSION_1;
              create_tablet_metadata TABLET_ID_2 TABLET_VERSION_2] |}] |}.

Definition create_list_tablet_op (table_name : string) (key_hash_from key_hash_to : Z) : TabletOp :=
  {| to_table_name := table_name; to_op := Some (ListTablet key_hash_from key_hash_to) |}.

Definition create_check_tablet_op (table_name : string) (tablet_id tablet_version : Z) : TabletOp :=
  {| to_table_name := table_name; to_op := Some (CheckTablet tablet_id tablet_version) |}.

Definition create_update_tablet_op (table_name : string) (tablet_metadata : TabletMetadata)
    : TabletOp :=
  {| to_table_name := table_name; to_op := Some (UpdateTablet (Some tablet_metadata)) |}.

Definition create_check_tablet_result (table_name : string) (status : TabletOpStatus)
    (tablet_metadata : option TabletMetadata) : TabletOpResult :=
  {| tor_table_name := table_name; tor_status := status;
     tor_op_result := Some (CheckTabletResult tablet_metadata) |}.

Definition create_update_tablet_result (table_name : string) (status : TabletOpStatus)
    (tablet_metadata : TabletMetadata) : TabletOpResult :=
  {| tor_table_name := table_name; tor_status := status;
     tor_op_result := Some (UpdateTabletResult (Some tablet_metadata)) |}.

Definition create_list_tablet_result (table_name : string) (status : TabletOpStatus)
    (key_hash_from key_hash_to : Z) (tablets : list TabletMetadata) : TabletOpResult :=
  {| tor_table_name := table_name; tor_status := status;
     tor_op_result := Some (ListTabletResult key_hash_from key_hash_to tablets) |}.

Definition create_execute_tablet_ops_request (correlation_id : Z) (tablet_ops : list TabletOp)
    : ActorCommand :=
  command_with_header_and_payload correlation_id {| tsi_in_msg := Some 1 |}
    (proto_encode {| tr_tablet_ops := tablet_ops |}).

Definition create_execute_tablet_ops_response (status : TabletsRequestStatus)
    (tablet_results : list TabletOpResult) : TabletsResponse :=
  {| trs_status := status; trs_tablet_results := tablet_results |}.

Definition decode_execute_tablet_ops_response (command : ActorCommand)
    : outcome (TabletStoreOutMsg * TabletsResponse) :=
  out_message ← unwrap (proto_decode (M:=TabletStoreOutMessage) (command_header command));
  tablets_response ← unwrap (proto_decode (command_payload command));
  match tso_out_msg out_message with
  | Some ExecuteTabletOpsResponse => Return (ExecuteTabletOpsResponse, tablets_response)
  | _ => Panic
  end.

(** The mocked context. *)
Definition test_context (leader : bool) : ActorContext :=
  {| ctx_id := 0; ctx_instant := 0; ctx_config := proto_encode create_actor_config;
     ctx_leader := leader |}.

Definition create_actor (mock_context : ActorContext) : outcome StoreActor :=
  '(actor, r) ← run_method (store_on_init proto_decode mock_context) (tablet_store_new ());
  unwrap_ok r;; Return actor.

Definition test_create_actor : unit_test :=
  actor ← create_actor (test_context false);
  run_ok (E:=ActorError) store_get_context actor;;
  assert_eq (ctx_id (test_context false)) 0.

Definition test_load_save_snapshot : unit_test :=
  actor ← create_actor (test_context false);
  let snapshot := create_actor_snapshot in
  '(actor, _) ← run_ok (store_on_load_snapshot (proto_encode snapshot)) actor;
  '(_, saved) ← run_ok store_on_save_snapshot actor;
  assert_eq saved (proto_encode snapshot).

(** What the tests of the operations share: the snapshot is loaded, the command for the
    operations becomes an event, and the event a response. *)
Definition execute_test_ops (tablet_ops : list TabletOp) (expected : TabletsResponse) : unit_test :=
  let mock_context := test_context true in
  actor ← create_actor mock_context;
  '(actor, _) ← run_ok (store_on_load_snapshot (proto_encode create_actor_snapshot)) actor;
  '(actor, command_outcome) ←
    run_ok (store_on_process_command proto_decode mock_context
              (Some (create_execute_tablet_ops_request CORRELATION_ID_1 tablet_ops))) actor;
  event ← unwrap (co_event command_outcome);
  '(actor, event_outcome) ←
    run_ok (store_on_apply_event {| ec_index := 1; ec_owned := true |} event) actor;
  assert_eq (zlen (eo_commands event_outcome)) 1;;
  response_command ← unwrap (eo_commands event_outcome !! 0%nat);
  assert_eq (command_correlation_id response_command) CORRELATION_ID_1;;
  '(_, tablets_response) ← decode_execute_tablet_ops_response response_command;
  assert_eq tablets_response expected.

Definition test_list_tablet_success : unit_test :=
  execute_test_ops
    [create_list_tablet_op TABLE_NAME (TABLET_ID_1 - 1) (TABLET_ID_2 + 1)]
    (create_execute_tablet_ops_response TabletsSucceeded
      [create_list_tablet_result TABLE_NAME TabletOpSucceeded (TABLET_ID_1 - 1) (TABLET_ID_2 + 1)
         [create_tablet_metadata TABLET_ID_1 TABLET_VERSION_1;
          create_tablet_metadata TABLET_ID_2 TABLET_VERSION_2]]).

Definition test_check_tablet_success : unit_test :=
  execute_test_ops
    [create_check_tablet_op TABLE_NAME TABLET_ID_1 TABLET_VERSION_1]
    (create_execute_tablet_ops_response TabletsSucceeded
      [create_check_tablet_result TABLE_NAME TabletOpSucceeded None]).

Definition test_update_tablet_success : unit_test :=
  execute_test_ops
    [create_update_tablet_op TABLE_NAME (create_tablet_metadata TABLET_ID_1 (TABLET_VERSION_1 + 1))]
    (create_execute_tablet_ops_response TabletsSucceeded
      [create_update_tablet_result TABLE_NAME TabletOpSucceeded
         (create_tablet_metadata TABLET_ID_1 TABLET_VERSION_1)]).

Definition test_multiple_ops_success : unit_test :=
  execute_test_ops
    [create_check_tablet_op TABLE_NAME TABLET_ID_1 TABLET_VERSION_1;
     create_update_tablet_op TABLE_NAME (create_tablet_metadata TABLET_ID_1 (TABLET_VERSION_1 + 1))]
    (create_execute_tablet_ops_response TabletsSucceeded
      [create_check_tablet_result TABLE_NAME TabletOpSucceeded None;
       create_update_tablet_result TABLE_NAME TabletOpSucceeded
         (create_tablet_metadata TABLET_ID_1 TABLET_VERSION_1)]).

Definition test_multiple_ops_failure : unit_test :=
  execute_test_ops
    [create_list_tablet_op TABLE_NAME (TABLET_ID_2 + 1) (TABLET_ID_2 + 2);
     create_check_tablet_op TABLE_NAME TABLET_ID_1 (TABLET_VERSION_1 - 1);
     create_update_tablet_op TABLE_NAME (create_tablet_metadata TABLET_ID_1 (TABLET_VERSION_1 - 1))]
    (create_execute_tablet_ops_response TabletsFailed
      [create_list_tablet_result TABLE_NAME TabletOpSucceeded (TABLET_ID_2 + 1) (TABLET_ID_2 + 2)
         [create_tablet_metadata TABLET_ID_1 TABLET_VERSION_1];
       create_check_tablet_result TABLE_NAME TabletOpFailed
         (Some (create_tablet_metadata TABLET_ID_1 TABLET_VERSION_1));
       create_update_tablet_result TABLE_NAME TabletOpFailed
         (create_tablet_metadata TABLET_ID_1 TABLET_VERSION_1)]).

Definition tablet_store_tests : list unit_test :=
  [test_create_actor; test_load_save_snapshot; test_list_tablet_success; test_check_tablet_success;
   test_update_tablet_success; test_multiple_ops_success; test_multiple_ops_failure].

Lemma tablet_store_tests_pass : Forall (λ t, t = Return ()) tablet_store_tests.
Proof. apply tests_pass_spec. vm_compute. reflexivity. Qed.
