(* ===== verification/SnapshotTests.v ===== *)
(** * The unit tests of the snapshot transfer

    The tests of [src/runtime/src/snapshot.rs] on the model of [Snapshot], with codecs of the
    messages.  The processor is tested with mocks of the sender and the receiver, as in the
    source: a call that a test does not expect makes it fail. *)

From Stdlib Require Import SpecFloat.
From S2P Require Import Prelude RaftTypes Endpoint F64 Snapshot Model Consensus Testing TestMessages.

#[local] Instance test_request_codec : ProtoCodec RequestPayload := countable_codec _.
#[local] Instance test_response_codec : ProtoCodec ResponsePayload := countable_codec _.
#[local] Instance test_metadata_codec : ProtoCodec RaftSnapshotMetadata := countable_codec _.
#[local] Instance test_replica_order : HashOrder Z := default_hash_order Z.

Definition REPLICA_0 : Z := 0.
Definition REPLICA_1 : Z := 1.
Definition REPLICA_2 : Z := 2.
Definition TERM_0 : Z := 0.
Definition TERM_1 : Z := 1.
Definition TERM_2 : Z := 2.
Definition DELIVERY_1 : Z := 1.
Definition DELIVERY_2 : Z := 2.
Definition SNAPSHOT_1 : Z := 1.
Definition SNAPSHOT_2 : Z := 2.
Definition CHUNK_0 : Z := 0.
Definition CHUNK_1 : Z := 1.
Definition CHUNK_2 : Z := 2.

Definition default_snapshot_config : SnapshotConfig :=
  {| cfg_snapshot_count := 1000; cfg_chunk_size := 3; cfg_max_pending_chunks := 1 |}.

(** ** Mocks *)

(** A mocked sender: what its calls have to be given, the transfers that a reset cancels when
    one is expected, and whether only expected calls were made. *)
Record MockSnapshotSender := {
  ms_init : option Z;
  ms_set_instant : option Z;
  ms_reset : option (gset Z);
  ms_as_expected : bool
}.

Definition mock_sender_new : MockSnapshotSender :=
  {| ms_init := None; ms_set_instant := None; ms_reset := None; ms_as_expected := true |}.

Definition expect_sender_init (m : MockSnapshotSender) (replica_id : Z) : MockSnapshotSender :=
  {| ms_init := Some replica_id; ms_set_instant := ms_set_instant m; ms_reset := ms_reset m;
     ms_as_expected := ms_as_expected m |}.

Definition expect_sender_set_instant (m : MockSnapshotSender) (instant : Z) : MockSnapshotSender :=
  {| ms_init := ms_init m; ms_set_instant := Some instant; ms_reset := ms_reset m;
     ms_as_expected := ms_as_expected m |}.

Definition expect_sender_reset (m : MockSnapshotSender) (cancellations : gset Z)
    : MockSnapshotSender :=
  {| ms_init := ms_init m; ms_set_instant := ms_set_instant m; ms_reset := Some cancellations;
     ms_as_expected := ms_as_expected m |}.

Definition sender_called (m : MockSnapshotSender) (reset : option (gset Z)) (expected : bool)
    : MockSnapshotSender :=
  {| ms_init := ms_init m; ms_set_instant := ms_set_instant m; ms_reset := reset;
     ms_as_expected := ms_as_expected m && expected |}.

(** The cancellations of a mocked reset are returned by the first one. *)
#[local] Program Instance MockSnapshotSender_impl : SnapshotSenderImpl MockSnapshotSender :=
  {| sender_impl_init m replica_id config :=
       sender_called m (ms_reset m)
         (bool_decide (ms_init m = Some replica_id) &&
          match config with
          | Some config => bool_decide (config = default_snapshot_config)
          | None => false
          end);
     sender_impl_set_instant m instant :=
       sender_called m (ms_reset m) (bool_decide (ms_set_instant m = Some instant));
     sender_impl_reset m :=
       (sender_called m ((λ _, ∅) <$> ms_reset m) (bool_decide (is_Some (ms_reset m))),
        map (λ id, (id, Failure)) (elements (default ∅ (ms_reset m))));
     sender_transfers m := elements (default ∅ (ms_reset m)) |}.
Next Obligation. intros m. simpl. apply NoDup_elements. Qed.
Next Obligation. done. Qed.
Next Obligation. intros m. simpl. destruct (ms_reset m); simpl; apply elements_empty. Qed.
Next Obligation. done. Qed.

Record MockSnapshotReceiver := {
  mr_init : option Z;
  mr_set_instant : option Z;
  mr_reset : bool;
  mr_as_expected : bool
}.

Definition mock_receiver_new : MockSnapshotReceiver :=
  {| mr_init := None; mr_set_instant := None; mr_reset := false; mr_as_expected := true |}.

Definition expect_receiver_init (m : MockSnapshotReceiver) (replica_id : Z) : MockSnapshotReceiver :=
  {| mr_init := Some replica_id; mr_set_instant := mr_set_instant m; mr_reset := mr_reset m;
     mr_as_expected := mr_as_expected m |}.

Definition expect_receiver_set_instant (m : MockSnapshotReceiver) (instant : Z)
    : MockSnapshotReceiver :=
  {| mr_init := mr_init m; mr_set_instant := Some instant; mr_reset := mr_reset m;
     mr_as_expected := mr_as_expected m |}.

Definition expect_receiver_reset (m : MockSnapshotReceiver) : MockSnapshotReceiver :=
  {| mr_init := mr_init m; mr_set_instant := mr_set_instant m; mr_reset := true;
     mr_as_expected := mr_as_expected m |}.

Definition receiver_called (m : MockSnapshotReceiver) (expected : bool) : MockSnapshotReceiver :=
  {| mr_init := mr_init m; mr_set_instant := mr_set_instant m; mr_reset := mr_reset m;
     mr_as_expected := mr_as_expected m && expected |}.

#[local] Program Instance MockSnapshotReceiver_impl : SnapshotReceiverImpl MockSnapshotReceiver :=
  {| receiver_impl_init m replica_id :=
       receiver_called m (bool_decide (mr_init m = Some replica_id));
     receiver_impl_set_instant m instant :=
       receiver_called m (bool_decide (mr_set_instant m = Some instant));
     receiver_impl_reset m := receiver_called m (mr_reset m);
     receiver_transfer m := None |}.
Next Obligation. done. Qed.
Next Obligation. done. Qed.

(** ** The processor *)

#[local] Abbreviation Processor :=
  (@DefaultSnapshotProcessor MockSnapshotSender MockSnapshotReceiver).

Definition create_and_init_processor (replica_id : Z) (sender : MockSnapshotSender)
    (receiver : MockSnapshotReceiver) : outcome Processor :=
  processor_init (processor_new sender receiver) replica_id (Some default_snapshot_config).

(** A cluster change, and what it has to return. *)
Definition assert_cluster_change (p : Processor) (leader_id leader_term : Z) (replicas : list Z)
    (expected : list (Z * RaftSnapshotStatus)) : outcome Processor :=
  '(p, cancellations) ← processor_process_cluster_change p leader_id leader_term replicas;
  assert_eq cancellations expected;; Return p.

(** The role at the end of a test; all calls on the mocks were expected. *)
Definition assert_role (p : Processor) (instant : Z) (sender : bool) : unit_test :=
  '(p, role) ← processor_mut_processor p instant;
  assert (match role with RoleSender _ => sender | RoleReceiver _ => negb sender end);;
  assert (ms_as_expected (proc_sender p) && mr_as_expected (proc_receiver p)).

Definition test_snapshot_processor_starts_receiver : unit_test :=
  let '(instant, replica_id) := (10, REPLICA_1) in
  let mock_sender := expect_sender_init mock_sender_new replica_id in
  let mock_receiver := expect_receiver_init mock_receiver_new replica_id in
  let mock_receiver := expect_receiver_set_instant mock_receiver instant in
  snapshot_processor ← create_and_init_processor replica_id mock_sender mock_receiver;
  assert_role snapshot_processor instant false.

Definition test_snapshot_processor_cluster_change_remains_follower_leader_changes : unit_test :=
  let '(instant, replica_id) := (10, REPLICA_1) in
  let mock_sender := expect_sender_init mock_sender_new replica_id in
  let mock_receiver := expect_receiver_init mock_receiver_new replica_id in
  let mock_receiver := expect_receiver_reset mock_receiver in
  let mock_receiver := expect_receiver_set_instant mock_receiver instant in
  snapshot_processor ← create_and_init_processor replica_id mock_sender mock_receiver;
  snapshot_processor ←
    assert_cluster_change snapshot_processor REPLICA_2 TERM_0 [REPLICA_1; REPLICA_2] [];
  assert_role snapshot_processor instant false.

Definition test_snapshot_processor_cluster_change_remains_follower_leader_term_changes : unit_test :=
  let '(instant, replica_id) := (10, REPLICA_1) in
  let mock_sender := expect_sender_init mock_sender_new replica_id in
  let mock_receiver := expect_receiver_init mock_receiver_new replica_id in
  let mock_receiver := expect_receiver_reset mock_receiver in
  let mock_receiver := expect_receiver_set_instant mock_receiver instant in
  snapshot_processor ← create_and_init_processor replica_id mock_sender mock_receiver;
  snapshot_processor ←
    assert_cluster_change snapshot_processor REPLICA_0 TERM_1 [REPLICA_0; REPLICA_1] [];
  assert_role snapshot_processor instant false.

Definition test_snapshot_processor_cluster_change_becomes_leader : unit_test :=
  let '(instant, replica_id) := (10, REPLICA_1) in
  let mock_sender := expect_sender_init mock_sender_new replica_id in
  let mock_sender := expect_sender_set_instant mock_sender instant in
  let mock_receiver := expect_receiver_init mock_receiver_new replica_id in
  let mock_receiver := expect_receiver_reset mock_receiver in
  snapshot_processor ← create_and_init_processor replica_id mock_sender mock_receiver;
  snapshot_processor ← assert_cluster_change snapshot_processor REPLICA_1 TERM_1 [REPLICA_1] [];
  assert_role snapshot_processor instant true.

Definition test_snapshot_processor_cluster_change_becomes_follower : unit_test :=
  let '(instant, replica_id) := (10, REPLICA_1) in
  let cancellations := [(1, Failure)] in
  let mock_sender := expect_sender_init mock_sender_new replica_id in
  let mock_sender := expect_sender_reset mock_sender (list_to_set cancellations.*1) in
  let mock_receiver := expect_receiver_init mock_receiver_new replica_id in
  let mock_receiver := expect_receiver_reset mock_receiver in
  let mock_receiver := expect_receiver_set_instant mock_receiver instant in
  snapshot_processor ← create_and_init_processor replica_id mock_sender mock_receiver;
  snapshot_processor ←
    assert_cluster_change snapshot_processor REPLICA_1 TERM_1 [REPLICA_1; REPLICA_2] [];
  snapshot_processor ←
    assert_cluster_change snapshot_processor REPLICA_2 TERM_2 [REPLICA_1; REPLICA_2] cancellations;
  assert_role snapshot_processor instant false.

Definition test_snapshot_processor_cluster_change_remains_leader : unit_test :=
  let '(instant, replica_id) := (10, REPLICA_1) in
  let cancellations := [(1, Failure)] in
  let mock_sender := expect_sender_init mock_sender_new replica_id in
  let mock_sender := expect_sender_reset mock_sender (list_to_set cancellations.*1) in
  let mock_sender := expect_sender_set_instant mock_sender instant in
  let mock_receiver := expect_receiver_init mock_receiver_new replica_id in
  let mock_receiver := expect_receiver_reset mock_receiver in
  snapshot_processor ← create_and_init_processor replica_id mock_sender mock_receiver;
  snapshot_processor ←
    assert_cluster_change snapshot_processor REPLICA_1 TERM_1 [REPLICA_1; REPLICA_2] [];
  snapshot_processor ←
    assert_cluster_change snapshot_processor REPLICA_1 TERM_2 [REPLICA_1; REPLICA_2] cancellations;
  assert_role snapshot_processor instant true.

(** ** The receiver *)

Definition default_snapshot_metadata : RaftSnapshotMetadata :=
  create_raft_snapshot_metadata 1 2 (create_raft_config_state []).

Definition create_deliver_snapshot_request_header
    (sender_id snapshot_id delivery_id snapshot_size : Z) (snapshot_metadata chunk_contents : bytes)
    : DeliverSnapshotRequest :=
  let header := {| hdr_snapshot_size := snapshot_size; hdr_snapshot_metadata := snapshot_metadata;
                   hdr_chunk_contents := chunk_contents |} in
  let payload := {| rqp_snapshot_id := snapshot_id; rqp_it := Some (PayloadHeader header) |} in
  {| req_recipient_replica_id := 1; req_sender_replica_id := sender_id;
     req_delivery_id := delivery_id; req_payload_contents := proto_encode payload |}.

Definition create_deliver_snapshot_request_chunk
    (sender_id snapshot_id delivery_id chunk_index : Z) (chunk_contents : bytes)
    : DeliverSnapshotRequest :=
  let chunk := {| chk_chunk_index := chunk_index; chk_chunk_contents := chunk_contents |} in
  let payload := {| rqp_snapshot_id := snapshot_id; rqp_it := Some (PayloadChunk chunk) |} in
  {| req_recipient_replica_id := 1; req_sender_replica_id := sender_id;
     req_delivery_id := delivery_id; req_payload_contents := proto_encode payload |}.

Definition assert_snapshot_success
    (complete_result : option (result SnapshotError (Z * RaftSnapshot))) (snapshot_sender_id : Z)
    (snapshot_data : bytes) (snapshot_metadata : RaftSnapshotMetadata) : unit_test :=
  snapshot_result ← unwrap complete_result;
  '(sender_id, snapshot) ← unwrap_ok snapshot_result;
  assert_eq sender_id snapshot_sender_id;;
  assert_eq (snap_data snapshot) snapshot_data;;
  assert_eq (snap_metadata snapshot) (Some snapshot_metadata).

(** What [assert_deliver_snapshot_accepted] and [assert_deliver_snapshot_rejected] share. *)
Definition assert_deliver_snapshot (status : Z)
    (response : DeliverSnapshotResponse) (snapshot_id delivery_id chunk_index : Z) : unit_test :=
  assert_eq delivery_id (resp_delivery_id response);;
  payload ← unwrap (proto_decode (resp_payload_contents response));
  assert_eq payload
    {| rsp_snapshot_id := snapshot_id; rsp_chunk_index := chunk_index; rsp_status := status |}.

Definition assert_deliver_snapshot_accepted := assert_deliver_snapshot SnapshotStatusAccepted.
Definition assert_deliver_snapshot_rejected := assert_deliver_snapshot SnapshotStatusRejected.

Definition data_1_to_5 : bytes := [Byte.x01; Byte.x02; Byte.x03; Byte.x04; Byte.x05].
Definition data_6_to_10 : bytes := [Byte.x06; Byte.x07; Byte.x08; Byte.x09; Byte.x0a].

Definition test_snapshot_receiver_single_chunk : unit_test :=
  let receiver := receiver_new in
  let metadata := default_snapshot_metadata in
  let data := data_1_to_5 in
  '(receiver, response) ← receiver_process_request receiver
    (create_deliver_snapshot_request_header REPLICA_1 SNAPSHOT_1 DELIVERY_1 (zlen data)
       (proto_encode metadata) data);
  assert_deliver_snapshot_accepted response SNAPSHOT_1 DELIVERY_1 0;;
  '(receiver, complete_result) ← receiver_try_complete receiver;
  assert_snapshot_success complete_result REPLICA_1 data metadata.

Definition test_snapshot_receiver_multiple_chunks : unit_test :=
  let receiver := receiver_new in
  let metadata := default_snapshot_metadata in
  let data := data_1_to_5 in
  first ← slice data 0 3; last ← slice data 3 5;
  '(receiver, response) ← receiver_process_request receiver
    (create_deliver_snapshot_request_header REPLICA_1 SNAPSHOT_1 DELIVERY_1 (zlen data)
       (proto_encode metadata) first);
  assert_deliver_snapshot_accepted response SNAPSHOT_1 DELIVERY_1 0;;
  '(receiver, complete_result) ← receiver_try_complete receiver;
  assert (bool_decide (complete_result = None));;
  '(receiver, response) ← receiver_process_request receiver
    (create_deliver_snapshot_request_chunk REPLICA_1 SNAPSHOT_1 DELIVERY_1 1 last);
  assert_deliver_snapshot_accepted response SNAPSHOT_1 DELIVERY_1 1;;
  '(receiver, complete_result) ← receiver_try_complete receiver;
  assert_snapshot_success complete_result REPLICA_1 data metadata.

Definition test_snapshot_receiver_reset_new_snapshot : unit_test :=
  let receiver := receiver_new in
  let metadata := default_snapshot_metadata in
  let data_1 := data_1_to_5 in
  first ← slice data_1 0 3;
  '(receiver, response) ← receiver_process_request receiver
    (create_deliver_snapshot_request_header REPLICA_1 SNAPSHOT_1 DELIVERY_1 (zlen data_1)
       (proto_encode metadata) first);
  assert_deliver_snapshot_accepted response SNAPSHOT_1 DELIVERY_1 0;;
  '(receiver, complete_result) ← receiver_try_complete receiver;
  assert (bool_decide (complete_result = None));;
  let data_2 := data_6_to_10 in
  first ← slice data_2 0 4; last ← slice data_2 4 5;
  '(receiver, response) ← receiver_process_request receiver
    (create_deliver_snapshot_request_header REPLICA_1 SNAPSHOT_2 DELIVERY_2 (zlen data_2)
       (proto_encode metadata) first);
  assert_deliver_snapshot_accepted response SNAPSHOT_2 DELIVERY_2 0;;
  '(receiver, response) ← receiver_process_request receiver
    (create_deliver_snapshot_request_chunk REPLICA_1 SNAPSHOT_2 DELIVERY_2 1 last);
  assert_deliver_snapshot_accepted response SNAPSHOT_2 DELIVERY_2 1;;
  '(receiver, complete_result) ← receiver_try_complete receiver;
  assert_snapshot_success complete_result REPLICA_1 data_2 metadata.

Definition test_snapshot_receiver_consequitive_snapshots : unit_test :=
  let receiver := receiver_new in
  let metadata := default_snapshot_metadata in
  let data_1 := data_1_to_5 in
  '(receiver, response) ← receiver_process_request receiver
    (create_deliver_snapshot_request_header REPLICA_1 SNAPSHOT_1 DELIVERY_1 (zlen data_1)
       (proto_encode metadata) data_1);
  assert_deliver_snapshot_accepted response SNAPSHOT_1 DELIVERY_1 0;;
  '(receiver, complete_result) ← receiver_try_complete receiver;
  assert_snapshot_success complete_result REPLICA_1 data_1 metadata;;
  let data_2 := data_6_to_10 in
  first ← slice data_2 0 4; last ← slice data_2 4 5;
  '(receiver, response) ← receiver_process_request receiver
    (create_deliver_snapshot_request_header REPLICA_1 SNAPSHOT_2 DELIVERY_2 (zlen data_2)
       (proto_encode metadata) first);
  assert_deliver_snapshot_accepted response SNAPSHOT_2 DELIVERY_2 0;;
  '(receiver, response) ← receiver_process_request receiver
    (create_deliver_snapshot_request_chunk REPLICA_1 SNAPSHOT_2 DELIVERY_2 1 last);
  assert_deliver_snapshot_accepted response SNAPSHOT_2 DELIVERY_2 1;;
  '(receiver, complete_result) ← receiver_try_complete receiver;
  assert_snapshot_success complete_result REPLICA_1 data_2 metadata.

Definition test_snapshot_receiver_rejected_wrong_snapshot : unit_test :=
  let receiver := receiver_new in
  let metadata := default_snapshot_metadata in
  let data_1 := data_1_to_5 in
  first ← slice data_1 0 3; last ← slice data_1 4 5;
  '(receiver, response) ← receiver_process_request receiver
    (create_deliver_snapshot_request_header REPLICA_1 SNAPSHOT_1 DELIVERY_1 (zlen data_1)
       (proto_encode metadata) first);
  assert_deliver_snapshot_accepted response SNAPSHOT_1 DELIVERY_1 0;;
  '(receiver, response) ← receiver_process_request receiver
    (create_deliver_snapshot_request_chunk REPLICA_1 SNAPSHOT_2 DELIVERY_2 1 last);
  assert_deliver_snapshot_rejected response SNAPSHOT_2 DELIVERY_2 1.

Definition test_snapshot_receiver_rejected_out_of_bounds : unit_test :=
  let receiver := receiver_new in
  let metadata := default_snapshot_metadata in
  let data_1 := data_1_to_5 in
  first ← slice data_1 0 3; last ← slice data_1 2 5;
  '(receiver, response) ← receiver_process_request receiver
    (create_deliver_snapshot_request_header REPLICA_1 SNAPSHOT_1 DELIVERY_1 (zlen data_1)
       (proto_encode metadata) first);
  assert_deliver_snapshot_accepted response SNAPSHOT_1 DELIVERY_1 0;;
  '(receiver, response) ← receiver_process_request receiver
    (create_deliver_snapshot_request_chunk REPLICA_1 SNAPSHOT_1 DELIVERY_2 1 last);
  assert_deliver_snapshot_rejected response SNAPSHOT_1 DELIVERY_2 1.

Definition test_snapshot_receiver_rejected_no_header : unit_test :=
  let receiver := receiver_new in
  let data_1 := data_1_to_5 in
  last ← slice data_1 2 5;
  '(receiver, response) ← receiver_process_request receiver
    (create_deliver_snapshot_request_chunk REPLICA_1 SNAPSHOT_1 DELIVERY_1 1 last);
  assert_deliver_snapshot_rejected response SNAPSHOT_1 DELIVERY_1 1.

(** ** The sender *)

Definition configure_deliver_snapshot_request (request : DeliverSnapshotRequest)
    (recipient_replica_id : Z) : DeliverSnapshotRequest :=
  {| req_recipient_replica_id := recipient_replica_id;
     req_sender_replica_id := req_sender_replica_id request;
     req_delivery_id := req_delivery_id request;
     req_payload_contents := req_payload_contents request |}.

Definition create_deliver_snapshot_response
    (sender_replica_id recipient_replica_id snapshot_id chunk_index : Z)
    (status : Z) : DeliverSnapshotResponse :=
  let payload := {| rsp_snapshot_id := snapshot_id; rsp_chunk_index := chunk_index;
                    rsp_status := status |} in
  {| resp_recipient_replica_id := recipient_replica_id;
     resp_sender_replica_id := sender_replica_id; resp_delivery_id := 0;
     resp_payload_contents := proto_encode payload |}.

Definition create_sender : DefaultSnapshotSender :=
  sender_init sender_new REPLICA_0 (Some default_snapshot_config).

Definition data_1_to_3 : bytes := [Byte.x01; Byte.x02; Byte.x03].

(** The next request has to be the expected one. *)
Definition assert_next_request (sender : DefaultSnapshotSender)
    (expected : option DeliverSnapshotRequest) : outcome DefaultSnapshotSender :=
  '(sender, request) ← sender_next_request sender;
  assert_eq request expected;; Return sender.

Definition assert_try_complete (sender : DefaultSnapshotSender)
    (expected : option (Z * RaftSnapshotStatus)) : outcome DefaultSnapshotSender :=
  let '(sender, completed) := sender_try_complete sender in
  assert_eq completed expected;; Return sender.

Definition test_snapshot_sender_reset_cancellations : unit_test :=
  let sender := create_sender in
  let metadata := default_snapshot_metadata in
  let data_1 := data_1_to_3 in
  sender ← sender_start sender REPLICA_1 (create_raft_snapshot metadata data_1);
  assert_eq (sender_reset sender).2 [(REPLICA_1, Failure)].

Definition test_snapshot_sender_complete_nothing : unit_test :=
  assert_try_complete create_sender None;; Return ().

Definition test_snapshot_sender_next_request_nothing : unit_test :=
  assert_next_request create_sender None;; Return ().

Definition test_snapshot_sender_single_chunk_success : unit_test :=
  let sender := create_sender in
  let metadata := default_snapshot_metadata in
  let data_1 := data_1_to_3 in
  sender ← sender_start sender REPLICA_1 (create_raft_snapshot metadata data_1);
  sender ← assert_try_complete sender None;
  sender ← assert_next_request sender
    (Some (configure_deliver_snapshot_request
      (create_deliver_snapshot_request_header REPLICA_0 SNAPSHOT_1 DELIVERY_1 (zlen data_1)
         (proto_encode metadata) data_1) REPLICA_1));
  let sender := sender_process_response sender REPLICA_1 DELIVERY_1
    (Ok (create_deliver_snapshot_response REPLICA_0 REPLICA_1 SNAPSHOT_1 CHUNK_0
           SnapshotStatusAccepted)) in
  assert_try_complete sender (Some (REPLICA_1, Finish));; Return ().

Definition test_snapshot_sender_multiple_chunks_success : unit_test :=
  let sender := create_sender in
  let chunk_size := cfg_chunk_size default_snapshot_config in
  let metadata := default_snapshot_metadata in
  let data_1 := data_1_to_5 in
  first ← slice data_1 0 chunk_size; rest ← slice data_1 chunk_size (zlen data_1);
  sender ← sender_start sender REPLICA_1 (create_raft_snapshot metadata data_1);
  sender ← assert_try_complete sender None;
  sender ← assert_next_request sender
    (Some (configure_deliver_snapshot_request
      (create_deliver_snapshot_request_header REPLICA_0 SNAPSHOT_1 DELIVERY_1 (zlen data_1)
         (proto_encode metadata) first) REPLICA_1));
  sender ← assert_next_request sender None;
  let sender := sender_process_response sender REPLICA_1 DELIVERY_1
    (Ok (create_deliver_snapshot_response REPLICA_0 REPLICA_1 SNAPSHOT_1 CHUNK_0
           SnapshotStatusAccepted)) in
  sender ← assert_next_request sender
    (Some (configure_deliver_snapshot_request
      (create_deliver_snapshot_request_chunk REPLICA_0 SNAPSHOT_1 DELIVERY_2 CHUNK_1 rest) REPLICA_1));
  let sender := sender_process_response sender REPLICA_1 DELIVERY_2
    (Ok (create_deliver_snapshot_response REPLICA_0 REPLICA_1 SNAPSHOT_1 CHUNK_1
           SnapshotStatusAccepted)) in
  assert_try_complete sender (Some (REPLICA_1, Finish));; Return ().

Definition test_snapshot_sender_response_rejection : unit_test :=
  let sender := create_sender in
  let metadata := default_snapshot_metadata in
  let data_1 := data_1_to_3 in
  sender ← sender_start sender REPLICA_1 (create_raft_snapshot metadata data_1);
  sender ← assert_try_complete sender None;
  sender ← assert_next_request sender
    (Some (configure_deliver_snapshot_request
      (create_deliver_snapshot_request_header REPLICA_0 SNAPSHOT_1 DELIVERY_1 (zlen data_1)
         (proto_encode metadata) data_1) REPLICA_1));
  let sender := sender_process_response sender REPLICA_1 DELIVERY_1
    (Ok (create_deliver_snapshot_response REPLICA_0 REPLICA_1 SNAPSHOT_1 CHUNK_0
           SnapshotStatusRejected)) in
  assert_try_complete sender (Some (REPLICA_1, Failure));; Return ().

Definition test_snapshot_sender_response_failure : unit_test :=
  let sender := create_sender in
  let metadata := default_snapshot_metadata in
  let data_1 := data_1_to_3 in
  sender ← sender_start sender REPLICA_1 (create_raft_snapshot metadata data_1);
  sender ← assert_try_complete sender None;
  sender ← assert_next_request sender
    (Some (configure_deliver_snapshot_request
      (create_deliver_snapshot_request_header REPLICA_0 SNAPSHOT_1 DELIVERY_1 (zlen data_1)
         (proto_encode metadata) data_1) REPLICA_1));
  let sender := sender_process_response sender REPLICA_1 DELIVERY_1 (Err FailedDelivery) in
  assert_try_complete sender (Some (REPLICA_1, Failure));; Return ().

(** What the last tests of a response share: the snapshot of two chunks is started, and its
    first chunk answered with a response that names other ids. *)
Definition wrong_response_test (snapshot_id chunk_index : Z)
    (expected : option (Z * RaftSnapshotStatus)) : unit_test :=
  let sender := create_sender in
  let chunk_size := cfg_chunk_size default_snapshot_config in
  let metadata := default_snapshot_metadata in
  let data_1 := data_1_to_5 in
  first ← slice data_1 0 chunk_size;
  sender ← sender_start sender REPLICA_1 (create_raft_snapshot metadata data_1);
  sender ← assert_next_request sender
    (Some (configure_deliver_snapshot_request
      (create_deliver_snapshot_request_header REPLICA_0 SNAPSHOT_1 DELIVERY_1 (zlen data_1)
         (proto_encode metadata) first) REPLICA_1));
  let sender := sender_process_response sender REPLICA_1 DELIVERY_1
    (Ok (create_deliver_snapshot_response REPLICA_0 REPLICA_1 snapshot_id chunk_index
           SnapshotStatusRejected)) in
  assert_try_complete sender expected;; Return ().

Definition test_snapshot_sender_response_wrong_snapshot : unit_test :=
  wrong_response_test SNAPSHOT_2 CHUNK_0 None.

Definition test_snapshot_sender_response_wrong_chunk_index : unit_test :=
  wrong_response_test SNAPSHOT_1 CHUNK_1 (Some (REPLICA_1, Failure)).

Definition test_snapshot_sender_response_out_of_bounds_chunk_index : unit_test :=
  wrong_response_test SNAPSHOT_1 CHUNK_2 (Some (REPLICA_1, Failure)).

(** ** Both ends *)

(** The loop that takes requests until there is none. *)
Fixpoint drain_requests (fuel : nat) (sender : DefaultSnapshotSender)
    : outcome (DefaultSnapshotSender * list DeliverSnapshotRequest) :=
  match fuel with
  | O => Panic
  | S fuel =>
      '(sender, request) ← sender_next_request sender;
      match request with
      | None => Return (sender, [])
      | Some request =>
          '(sender, requests) ← drain_requests fuel sender;
          Return (sender, request :: requests)
      end
  end.

Fixpoint answer_requests (receivers : gmap Z DefaultSnapshotReceiver)
    (requests : list DeliverSnapshotRequest)
    : outcome (gmap Z DefaultSnapshotReceiver * list (Z * DeliverSnapshotResponse)) :=
  match requests with
  | [] => Return (receivers, [])
  | request :: requests =>
      match receivers !! req_recipient_replica_id request with
      | None => answer_requests receivers requests
      | Some receiver =>
          '(receiver, response) ← receiver_process_request receiver request;
          '(receivers, responses) ←
            answer_requests (<[req_recipient_replica_id request := receiver]> receivers) requests;
          Return (receivers, (req_delivery_id request, response) :: responses)
      end
  end.

(** The loop over what the sender completed. *)
Fixpoint take_completed (fuel : nat) (sender : DefaultSnapshotSender) (completed : gset Z)
    : outcome (DefaultSnapshotSender * gset Z) :=
  match fuel with
  | O => Panic
  | S fuel =>
      let '(sender, result) := sender_try_complete sender in
      match result with
      | None => Return (sender, completed)
      | Some (replica_id, status) =>
          assert_eq status Finish;;
          take_completed fuel sender ({[ replica_id ]} ∪ completed)
      end
  end.

(** The loop over the receivers. *)
Definition complete_receiver (data : bytes) (metadata : RaftSnapshotMetadata)
    (acc : gmap Z DefaultSnapshotReceiver * gset Z) (entry : Z * DefaultSnapshotReceiver)
    : outcome (gmap Z DefaultSnapshotReceiver * gset Z) :=
  let '(receivers, completed) := acc in
  let '(replica_id, receiver) := entry in
  '(receiver, result) ← receiver_try_complete receiver;
  let receivers := <[replica_id := receiver]> receivers in
  match result with
  | Some (Ok (sender_id, snapshot)) =>
      assert_eq REPLICA_0 sender_id;;
      assert_eq data (snap_data snapshot);;
      assert_eq (Some metadata) (snap_metadata snapshot);;
      Return (receivers, {[ replica_id ]} ∪ completed)
  | _ => Return (receivers, completed)
  end.

(** The loop that transfers until one side has completed both. *)
Fixpoint transfer_loop (fuel : nat) (data : bytes) (metadata : RaftSnapshotMetadata)
    (sender : DefaultSnapshotSender) (receivers : gmap Z DefaultSnapshotReceiver)
    (sender_completed receiver_completed : gset Z) : outcome (gset Z) :=
  match fuel with
  | O => Panic
  | S fuel =>
      if decide (size sender_completed < 2 ∧ size receiver_completed < 2)%nat then
        '(sender, requests) ← drain_requests 100 sender;
        '(receivers, responses) ← answer_requests receivers requests;
        let sender :=
          foldl (λ sender '(delivery_id, response),
            sender_process_response sender (resp_sender_replica_id response) delivery_id (Ok response))
            sender responses in
        '(sender, sender_completed) ← take_completed 100 sender sender_completed;
        '(receivers, receiver_completed) ←
          ofold (complete_receiver data metadata) (receivers, receiver_completed)
            (hash_iter receivers);
        transfer_loop fuel data metadata sender receivers sender_completed receiver_completed
      else Return sender_completed
  end.

Definition test_snapshot_sender_receiver_end_to_end : unit_test :=
  let data := data_1_to_5 ++ [Byte.x06; Byte.x07; Byte.x08; Byte.x09] in
  let metadata := default_snapshot_metadata in
  for_cases (λ chunk_size,
    for_cases (λ max_pending_chunks,
      let config := Some {| cfg_snapshot_count := 1000; cfg_chunk_size := chunk_size;
                            cfg_max_pending_chunks := max_pending_chunks |} in
      let sender := sender_init create_sender REPLICA_0 config in
      let receivers := {[ REPLICA_1 := receiver_new; REPLICA_2 := receiver_new ]} in
      sender ← ofold (λ sender replica_id,
          sender_start sender replica_id (create_raft_snapshot metadata data))
        sender [REPLICA_1; REPLICA_2];
      sender_completed ← transfer_loop 100 data metadata sender receivers ∅ ∅;
      assert (bool_decide (REPLICA_1 ∈ sender_completed));;
      assert (bool_decide (REPLICA_2 ∈ sender_completed)))
      (seqZ 1 (zlen data - 1)))
    (seqZ 1 (zlen data - 1)).

Definition snapshot_tests : list unit_test :=
  [test_snapshot_processor_starts_receiver;
   test_snapshot_processor_cluster_change_remains_follower_leader_changes;
   test_snapshot_processor_cluster_change_remains_follower_leader_term_changes;
   test_snapshot_processor_cluster_change_becomes_leader;
   test_snapshot_processor_cluster_change_becomes_follower;
   test_snapshot_processor_cluster_change_remains_leader;
   test_snapshot_receiver_single_chunk; test_snapshot_receiver_multiple_chunks;
   test_snapshot_receiver_reset_new_snapshot; test_snapshot_receiver_consequitive_snapshots;
   test_snapshot_receiver_rejected_wrong_snapshot; test_snapshot_receiver_rejected_out_of_bounds;
   test_snapshot_receiver_rejected_no_header; test_snapshot_sender_reset_cancellations;
   test_snapshot_sender_complete_nothing; test_snapshot_sender_next_request_nothing;
   test_snapshot_sender_single_chunk_success; test_snapshot_sender_multiple_chunks_success;
   test_snapshot_sender_response_rejection; test_snapshot_sender_response_failure;
   test_snapshot_sender_response_wrong_snapshot; test_snapshot_sender_response_wrong_chunk_index;
   test_snapshot_sender_response_out_of_bounds_chunk_index;
   test_snapshot_sender_receiver_end_to_end].

Lemma snapshot_tests_pass : Forall (λ t, t = Return ()) snapshot_tests.
Proof. apply tests_pass_spec. vm_compute. reflexivity. Qed.
