(* ===== verification/CryptoTests.v ===== *)
(** * The unit tests of the message encryption

    The tests of [src/apps/ledger/cfc_crypto/src/lib.rs] on the model of [Crypto], with the
    symbolic libraries.  The random seeds that the source draws are written out. *)

From S2P Require Import Prelude F64 Policy Crypto AppAttestation Wire SymbolicCrypto Model Testing.

#[local] Existing Instances symbolic_coset symbolic_hpke symbolic_aead.

(** [err(displays_as(contains_substring(..)))] *)
Definition assert_fails {A} (r : result string A) (substr : string) : unit_test :=
  match r with Ok _ => Panic | Err e => assert (str_contains e substr) end.

Definition test_gen_keypair_public_key_params : unit_test :=
  let '(_, public_key) := gen_keypair (b_str "key-id") 1 in
  assert_eq (ck_kty public_key) (KtyAssigned iana_OKP);;
  assert_eq (ck_alg public_key) (Some (AlgPrivateUse HPKE_BASE_X25519_SHA256_AES128GCM));;
  assert_eq (ck_key_id public_key) (b_str "key-id");;
  assert_eq (find_param (ck_params public_key) (LabelInt iana_OkpCrv)) (Some (CborInteger iana_X25519));;
  assert (bool_decide (is_Some (find_param (ck_params public_key) (LabelInt iana_OkpX)))).

Definition test_gen_keypair_is_unique : unit_test :=
  let '(private_key1, public_key1) := gen_keypair (b_str "key-id") 1 in
  let '(private_key2, public_key2) := gen_keypair (b_str "key-id") 2 in
  assert_ne (private_key_to_bytes private_key1) (private_key_to_bytes private_key2);;
  assert_ne public_key1 public_key2.

Definition plaintext : bytes := b_str "plaintext".
Definition associated_data1 : bytes := b_str "associated data1".
Definition associated_data2 : bytes := b_str "associated data2".

Definition test_encrypt_rewrap_decrypt : unit_test :=
  let '(private_key1, public_key1) := gen_keypair (b_str "key-id") 1 in
  '(ciphertext, encapped_key1, encrypted_symmetric_key1) ←
    unwrap_ok (encrypt_message plaintext public_key1 associated_data1 3 4);
  let '(private_key2, public_key2) := gen_keypair (b_str "key_id") 2 in
  '(encapped_key2, encrypted_symmetric_key2) ←
    unwrap_ok (rewrap_symmetric_key encrypted_symmetric_key1 encapped_key1 private_key1
                 associated_data1 public_key2 associated_data2 5);
  result ←
    unwrap_ok (decrypt_message ciphertext associated_data1 encrypted_symmetric_key2
                 associated_data2 encapped_key2 private_key2);
  assert_eq result plaintext.

(** [iter_mut().find(..).map(|(_, value)| *value = ..)] *)
Fixpoint set_param (params : list (Label * CborValue)) (label : Label) (value : CborValue)
    : option (list (Label * CborValue)) :=
  match params with
  | [] => None
  | (l, v) :: params =>
      if decide (l = label) then Some ((l, value) :: params)
      else cons (l, v) <$> set_param params label value
  end.

Definition with_params (k : CoseKey) (params : list (Label * CborValue)) : CoseKey :=
  {| ck_kty := ck_kty k; ck_key_id := ck_key_id k; ck_alg := ck_alg k; ck_params := params |}.

Definition with_param (k : CoseKey) (label : Z) (value : CborValue) : outcome CoseKey :=
  params ← unwrap (set_param (ck_params k) (LabelInt label) value);
  Return (with_params k params).

Definition without_param (k : CoseKey) (label : Z) : CoseKey :=
  with_params k (filter (λ p, p.1 ≠ LabelInt label) (ck_params k)).

Definition test_encrypt_message_with_invalid_public_key : unit_test :=
  let '(_, public_key) := gen_keypair (b_str "key-id") 1 in
  public_key ← with_param public_key iana_OkpX (CborBytes (b_str "invalid"));
  assert_fails (encrypt_message plaintext public_key (b_str "associated data") 3 4)
    "failed to parse recipient public key".

(** ** Rewrapping *)

(** What a message for the first key pair consists of, and the public key of the second; the
    tests of [rewrap_symmetric_key] change one part of it. *)
Record RewrapArguments := {
  ra_encrypted_symmetric_key : bytes;
  ra_encapped_key : bytes;
  ra_private_key : PrivateKey;
  ra_associated_data : bytes;
  ra_public_key : CoseKey
}.

Definition rewrap_test (change : RewrapArguments → outcome RewrapArguments) (substr : string)
    : unit_test :=
  let '(private_key1, public_key1) := gen_keypair (b_str "key-id") 1 in
  '(_, encapped_key, encrypted_symmetric_key) ←
    unwrap_ok (encrypt_message plaintext public_key1 associated_data1 3 4);
  let '(_, public_key2) := gen_keypair (b_str "key-id") 2 in
  a ← change {| ra_encrypted_symmetric_key := encrypted_symmetric_key;
                ra_encapped_key := encapped_key; ra_private_key := private_key1;
                ra_associated_data := associated_data1; ra_public_key := public_key2 |};
  assert_fails
    (rewrap_symmetric_key (ra_encrypted_symmetric_key a) (ra_encapped_key a) (ra_private_key a)
       (ra_associated_data a) (ra_public_key a) associated_data2 5) substr.

Definition with_public_key (a : RewrapArguments) (k : CoseKey) : RewrapArguments :=
  {| ra_encrypted_symmetric_key := ra_encrypted_symmetric_key a;
     ra_encapped_key := ra_encapped_key a; ra_private_key := ra_private_key a;
     ra_associated_data := ra_associated_data a; ra_public_key := k |}.

Definition test_rewrap_symmetric_key_with_invalid_encrypted_symmetric_key : unit_test :=
  rewrap_test (λ a, Return
      {| ra_encrypted_symmetric_key := b_str "invalid"; ra_encapped_key := ra_encapped_key a;
         ra_private_key := ra_private_key a; ra_associated_data := ra_associated_data a;
         ra_public_key := ra_public_key a |})
    "failed to unwrap symmetric key".

Definition test_rewrap_symmetric_key_with_invalid_encapped_key : unit_test :=
  rewrap_test (λ a, Return
      {| ra_encrypted_symmetric_key := ra_encrypted_symmetric_key a;
         ra_encapped_key := b_str "invalid"; ra_private_key := ra_private_key a;
         ra_associated_data := ra_associated_data a; ra_public_key := ra_public_key a |})
    "failed to load encapped key".

Definition test_rewrap_symmetric_key_with_invalid_private_key : unit_test :=
  rewrap_test (λ a, Return
      {| ra_encrypted_symmetric_key := ra_encrypted_symmetric_key a;
         ra_encapped_key := ra_encapped_key a;
         ra_private_key := (gen_keypair (b_str "key-id") 2).1;
         ra_associated_data := ra_associated_data a; ra_public_key := ra_public_key a |})
    "failed to unwrap symmetric key".

Definition test_rewrap_symmetric_key_with_invalid_associated_data : unit_test :=
  rewrap_test (λ a, Return
      {| ra_encrypted_symmetric_key := ra_encrypted_symmetric_key a;
         ra_encapped_key := ra_encapped_key a; ra_private_key := ra_private_key a;
         ra_associated_data := b_str "invalid"; ra_public_key := ra_public_key a |})
    "failed to unwrap symmetric key".

Definition test_rewrap_symmetric_key_with_invalid_public_key_kty : unit_test :=
  rewrap_test (λ a, let k := ra_public_key a in Return (with_public_key a
      {| ck_kty := KtyAssigned iana_Symmetric; ck_key_id := ck_key_id k; ck_alg := ck_alg k;
         ck_params := ck_params k |}))
    "unsupported CoseKey type".

(** The registered number of SHA-256, and of the curve P-256. *)
Definition iana_SHA_256 : Z := -16.
Definition iana_P_256 : Z := 1.

Definition test_rewrap_symmetric_key_with_invalid_public_key_alg : unit_test :=
  rewrap_test (λ a, let k := ra_public_key a in Return (with_public_key a
      {| ck_kty := ck_kty k; ck_key_id := ck_key_id k; ck_alg := Some (AlgAssigned iana_SHA_256);
         ck_params := ck_params k |}))
    "unsupported CoseKey type".

Definition test_rewrap_symmetric_key_with_missing_public_key_crv : unit_test :=
  rewrap_test (λ a, Return (with_public_key a (without_param (ra_public_key a) iana_OkpCrv)))
    "unsupported CoseKey type".

Definition test_rewrap_symmetric_key_with_invalid_public_key_crv : unit_test :=
  rewrap_test (λ a, k ← with_param (ra_public_key a) iana_OkpCrv (CborInteger iana_P_256);
                    Return (with_public_key a k))
    "unsupported CoseKey type".

Definition test_rewrap_symmetric_key_with_missing_public_key_x : unit_test :=
  rewrap_test (λ a, Return (with_public_key a (without_param (ra_public_key a) iana_OkpX)))
    "CoseKey missing X parameter".

Definition test_rewrap_symmetric_key_with_invalid_public_key_x : unit_test :=
  rewrap_test (λ a, k ← with_param (ra_public_key a) iana_OkpX (CborBytes (b_str "invalid"));
                    Return (with_public_key a k))
    "failed to parse recipient public key".

(** ** Decryption *)

(** The arguments of [decrypt_message] for a message that was rewrapped for the second key
    pair; the tests change one of them. *)
Record DecryptArguments := {
  da_ciphertext : bytes;
  da_ciphertext_associated_data : bytes;
  da_encrypted_symmetric_key : bytes;
  da_key_associated_data : bytes;
  da_encapped_key : bytes;
  da_private_key : PrivateKey
}.

Definition decrypt_test (change : DecryptArguments → DecryptArguments) (substr : string)
    : unit_test :=
  let '(private_key1, public_key1) := gen_keypair (b_str "key-id") 1 in
  '(ciphertext, encapped_key1, encrypted_symmetric_key1) ←
    unwrap_ok (encrypt_message plaintext public_key1 associated_data1 3 4);
  let '(private_key2, public_key2) := gen_keypair (b_str "key-id") 2 in
  '(encapped_key2, encrypted_symmetric_key2) ←
    unwrap_ok (rewrap_symmetric_key encrypted_symmetric_key1 encapped_key1 private_key1
                 associated_data1 public_key2 associated_data2 5);
  let a := change {| da_ciphertext := ciphertext; da_ciphertext_associated_data := associated_data1;
                     da_encrypted_symmetric_key := encrypted_symmetric_key2;
                     da_key_associated_data := associated_data2; da_encapped_key := encapped_key2;
                     da_private_key := private_key2 |} in
  assert_fails
    (decrypt_message (da_ciphertext a) (da_ciphertext_associated_data a)
       (da_encrypted_symmetric_key a) (da_key_associated_data a) (da_encapped_key a)
       (da_private_key a)) substr.

Definition test_decrypt_message_with_invalid_ciphertext : unit_test :=
  decrypt_test (λ a,
      {| da_ciphertext := b_str "invalid";
         da_ciphertext_associated_data := da_ciphertext_associated_data a;
         da_encrypted_symmetric_key := da_encrypted_symmetric_key a;
         da_key_associated_data := da_key_associated_data a;
         da_encapped_key := da_encapped_key a; da_private_key := da_private_key a |})
    "failed to decrypt data".

Definition test_decrypt_message_with_invalid_ciphertext_associated_data : unit_test :=
  decrypt_test (λ a,
      {| da_ciphertext := da_ciphertext a;
         da_ciphertext_associated_data := b_str "invalid";
         da_encrypted_symmetric_key := da_encrypted_symmetric_key a;
         da_key_associated_data := da_key_associated_data a;
         da_encapped_key := da_encapped_key a; da_private_key := da_private_key a |})
    "failed to decrypt data".

Definition test_decrypt_message_with_invalid_encrypted_symmetric_key : unit_test :=
  decrypt_test (λ a,
      {| da_ciphertext := da_ciphertext a;
         da_ciphertext_associated_data := da_ciphertext_associated_data a;
         da_encrypted_symmetric_key := b_str "invalid";
         da_key_associated_data := da_key_associated_data a;
         da_encapped_key := da_encapped_key a; da_private_key := da_private_key a |})
    "failed to unwrap symmetric key".

Definition test_decrypt_message_with_invalid_encrypted_symmetric_key_associated_data : unit_test :=
  decrypt_test (λ a,
      {| da_ciphertext := da_ciphertext a;
         da_ciphertext_associated_data := da_ciphertext_associated_data a;
         da_encrypted_symmetric_key := da_encrypted_symmetric_key a;
         da_key_associated_data := b_str "invalid";
         da_encapped_key := da_encapped_key a; da_private_key := da_private_key a |})
    "failed to unwrap symmetric key".

Definition test_decrypt_message_with_invalid_encapped_key : unit_test :=
  decrypt_test (λ a,
      {| da_ciphertext := da_ciphertext a;
         da_ciphertext_associated_data := da_ciphertext_associated_data a;
         da_encrypted_symmetric_key := da_encrypted_symmetric_key a;
         da_key_associated_data := da_key_associated_data a;
         da_encapped_key := b_str "invalid"; da_private_key := da_private_key a |})
    "failed to load encapped key".

Definition test_decrypt_message_with_invalid_private_key : unit_test :=
  decrypt_test (λ a,
      {| da_ciphertext := da_ciphertext a;
         da_ciphertext_associated_data := da_ciphertext_associated_data a;
         da_encrypted_symmetric_key := da_encrypted_symmetric_key a;
         da_key_associated_data := da_key_associated_data a;
         da_encapped_key := da_encapped_key a;
         da_private_key := (gen_keypair (b_str "key-id") 1).1 |})
    "failed to unwrap symmetric key".

(** ** Tokens *)

(** A token with these private claims, and without algorithm and signature. *)
Definition build_claims (claims : list (Z * bytes)) : outcome bytes :=
  unwrap (claims_to_vec
    {| claims_expiration_time := None; claims_issued_at := None;
       claims_rest := map (λ '(name, b), (ClaimPrivateUse name, CborBytes b)) claims |}).

Definition build_sign1 (payload : bytes) : outcome bytes :=
  unwrap (sign1_to_vec (sign1_new None payload)).

Definition test_extract_key_from_cwt : unit_test :=
  let '(_, cose_key) := gen_keypair (b_str "key-id") 1 in
  key ← unwrap (cose_key_to_vec cose_key);
  payload ← build_claims [(PUBLIC_KEY_CLAIM, key)];
  public_key ← build_sign1 payload;
  assert_eq (extract_key_from_cwt public_key) (Ok cose_key).

Definition test_extract_key_from_cwt_with_invalid_cose_key : unit_test :=
  payload ← build_claims [(PUBLIC_KEY_CLAIM, b_str "invalid")];
  public_key ← build_sign1 payload;
  assert_fails (extract_key_from_cwt public_key) "failed to decode CoseKey".

Definition test_extract_key_from_cwt_without_cose_key : unit_test :=
  payload ← build_claims [];
  public_key ← build_sign1 payload;
  assert_fails (extract_key_from_cwt public_key) "missing public key claim".

Definition test_extract_key_from_cwt_with_invalid_payload : unit_test :=
  public_key ← build_sign1 (b_str "invalid");
  assert_fails (extract_key_from_cwt public_key) "failed to decode CWT claims".

Definition test_extract_key_from_cwt_with_invalid_cwt : unit_test :=
  assert_fails (extract_key_from_cwt (b_str "invalid")) "failed to decode CWT claims".

Definition crypto_tests : list unit_test :=
  [test_gen_keypair_public_key_params; test_gen_keypair_is_unique; test_encrypt_rewrap_decrypt;
   test_encrypt_message_with_invalid_public_key;
   test_rewrap_symmetric_key_with_invalid_encrypted_symmetric_key;
   test_rewrap_symmetric_key_with_invalid_encapped_key;
   test_rewrap_symmetric_key_with_invalid_private_key;
   test_rewrap_symmetric_key_with_invalid_associated_data;
   test_rewrap_symmetric_key_with_invalid_public_key_kty;
   test_rewrap_symmetric_key_with_invalid_public_key_alg;
   test_rewrap_symmetric_key_with_missing_public_key_crv;
   test_rewrap_symmetric_key_with_invalid_public_key_crv;
   test_rewrap_symmetric_key_with_missing_public_key_x;
   test_rewrap_symmetric_key_with_invalid_public_key_x;
   test_decrypt_message_with_invalid_ciphertext;
   test_decrypt_message_with_invalid_ciphertext_associated_data;
   test_decrypt_message_with_invalid_encrypted_symmetric_key;
   test_decrypt_message_with_invalid_encrypted_symmetric_key_associated_data;
   test_decrypt_message_with_invalid_encapped_key; test_decrypt_message_with_invalid_private_key;
   test_extract_key_from_cwt; test_extract_key_from_cwt_with_invalid_cose_key;
   test_extract_key_from_cwt_without_cose_key; test_extract_key_from_cwt_with_invalid_payload;
   test_extract_key_from_cwt_with_invalid_cwt].

Lemma crypto_tests_pass : Forall (λ t, t = Return ()) crypto_tests.
Proof. apply tests_pass_spec. vm_compute. reflexivity. Qed.
