(* ===== verification/PolicyTests.v ===== *)
(** * The unit tests of the application matching and the attestation

    The tests of [src/apps/ledger/service/src/attestation.rs] on the models of [Policy] and
    [AppAttestation], with the symbolic libraries. *)

From Stdlib Require Import SpecFloat.
From S2P Require Import Prelude F64 Policy Crypto AppAttestation Wire SymbolicCrypto Model Testing.
From S2P Require Import CryptoTests.

#[local] Existing Instances symbolic_coset symbolic_hpke symbolic_attestation.

#[local] Abbreviation App := (@Application TestMessage TestMessage).
#[local] Abbreviation Matcher := (@ApplicationMatcher TestMessage).

(** ** Helpers *)

Definition get_test_evidence : TestMessage := TestMatching.
Definition get_test_endorsements : TestMessage := TestMatching.
Definition get_test_reference_values : TestMessage := TestMatching.

(** The signature of the mocked signer. *)
Definition mock_sign : bytes → bytes := symbolic_sign test_signing_key.

Definition create_public_key_with_algorithm (config_properties : option bytes)
    (algorithm : option Z) : outcome (bytes * CoseKey) :=
  let '(_, cose_key) := gen_keypair (b_str "key-id") 1 in
  key ← unwrap (cose_key_to_vec cose_key);
  payload ← build_claims
    ((PUBLIC_KEY_CLAIM, key) ::
     match config_properties with Some cp => [(CONFIG_PROPERTIES_CLAIM, cp)] | None => [] end);
  let message := sign1_new (AlgAssigned <$> algorithm) payload in
  cwt ← unwrap (sign1_to_vec (sign1_with_signature message (mock_sign (sign1_tbs message []))));
  Return (cwt, cose_key).

Definition create_public_key (config_properties : option bytes) : outcome (bytes * CoseKey) :=
  create_public_key_with_algorithm config_properties (Some iana_ES256).

Definition application (tag : string) (evidence endorsements : option TestMessage)
    (config_properties : option Struct) : App :=
  {| app_tag := tag; app_evidence := evidence; app_endorsements := endorsements;
     app_config_properties := config_properties |}.

Definition default_application : App := application "" None None None.

Definition matcher (tag : option string) (reference_values : option TestMessage)
    (config_properties : option StructMatcher) : Matcher :=
  {| matcher_tag := tag; matcher_reference_values := reference_values;
     matcher_config_properties := config_properties |}.

Definition matches (app : App) (m : Matcher) : bool :=
  application_matches symbolic_verify app (Some m) 0.

Definition number_matcher (kind : option NumberMatcherKind) : ValueMatcher :=
  {| value_kind := Some (MatchNumberValue {| number_kind := kind |}) |}.

Definition default_value_matcher : ValueMatcher := {| value_kind := None |}.

Definition field (path : string) (m : option ValueMatcher) : StructMatcher :=
  {| struct_fields := [{| field_path := path; field_matcher := m |}] |}.

(** The numbers of the tests: whole ones, and the two around one. *)
Definition f64_of (n : Z) : spec_float := u64_as_f64 n.
Definition f64_0_9 : spec_float := f64_div (f64_of 9) (f64_of 10).
Definition f64_1_1 : spec_float := f64_div (f64_of 11) (f64_of 10).

(** ** Matching *)

Definition test_application_matches_empty_matcher : unit_test :=
  assert (application_matches (ReferenceValues:=TestMessage) symbolic_verify default_application None 0).

Definition test_application_matches_tag : unit_test :=
  let app := application "tag" None None None in
  assert (matches app (matcher None None None));;
  assert (matches app (matcher (Some "tag") None None));;
  assert (negb (matches app (matcher (Some "other") None None))).

Definition test_application_matches_attestation : unit_test :=
  let app := application "" (Some get_test_evidence) (Some get_test_endorsements) None in
  assert (matches app (matcher None None None));;
  assert (matches app (matcher None (Some get_test_reference_values) None));;
  assert (negb (matches app (matcher None (Some TestDefault) None)));;
  assert (negb (matches default_application (matcher None (Some get_test_reference_values) None))).

Definition test_application_matches_config_properties : unit_test :=
  let app := application "" None None (Some [("x", NumberValue (f64_of 1))]) in
  assert (matches app (matcher None None None));;
  assert (matches app (matcher None None (Some {| struct_fields := [] |})));;
  assert (matches app (matcher None None
    (Some (field "x" (Some (number_matcher (Some (MatchEq (f64_of 1)))))))));;
  assert (negb (matches app (matcher None None
    (Some (field "x" (Some (number_matcher (Some (MatchLt (f64_of 1)))))))))).

Definition test_struct_value_matches : unit_test :=
  let value :=
    [("1", NumberValue (f64_of 1));
     ("a", StructValue
        [("2", NumberValue (f64_of 2));
         ("b", StructValue [("3", NumberValue (f64_of 3))])])] in
  let empty := {| struct_fields := [] |} in
  let eq n := Some (number_matcher (Some (MatchEq (f64_of n)))) in
  assert (struct_value_matches (Some value) empty);;
  assert (struct_value_matches None empty);;
  assert (negb (struct_value_matches None (field "a" None)));;
  assert (struct_value_matches (Some value) (field "a" None));;
  assert (struct_value_matches (Some value) (field "a" (Some default_value_matcher)));;
  assert (negb (struct_value_matches (Some value) (field "b" None)));;
  assert (negb (struct_value_matches (Some value) (field "b" (Some default_value_matcher))));;
  assert (struct_value_matches (Some value) (field "1" (eq 1)));;
  assert (struct_value_matches (Some value) (field "a.2" (eq 2)));;
  assert (struct_value_matches (Some value) (field "a.b.3" (eq 3)));;
  assert (negb (struct_value_matches (Some value) (field "a.B.3" (eq 3)))).

Definition test_value_matches : unit_test :=
  assert (value_matches ValueUnset None);;
  assert (value_matches ValueUnset (Some default_value_matcher));;
  assert (value_matches (BoolValue false) (Some default_value_matcher));;
  assert (value_matches (NumberValue (f64_of 0)) (Some (number_matcher (Some (MatchEq (f64_of 0))))));;
  assert (negb (value_matches (NumberValue (f64_of 0))
                  (Some (number_matcher (Some (MatchEq (f64_of 1)))))));;
  assert (negb (value_matches (BoolValue false)
                  (Some (number_matcher (Some (MatchEq (f64_of 0))))))).

Definition test_number_value_matches : unit_test :=
  for_cases (λ '(ctor, lt, eq, gt),
      assert_eq (number_value_matches f64_0_9 {| number_kind := ctor (f64_of 1) |}) lt;;
      assert_eq (number_value_matches (f64_of 1) {| number_kind := ctor (f64_of 1) |}) eq;;
      assert_eq (number_value_matches f64_1_1 {| number_kind := ctor (f64_of 1) |}) gt)
    [(λ _, None, false, false, false);
     (λ x, Some (MatchLt x), true, false, false);
     (λ x, Some (MatchLe x), true, true, false);
     (λ x, Some (MatchEq x), false, true, false);
     (λ x, Some (MatchGe x), false, true, true);
     (λ x, Some (MatchGt x), false, false, true)].

(** ** Attestation *)

Definition is_config_properties (s : option Struct) : bool :=
  match s with
  | Some [(name, NumberValue v)] => bool_decide (name = "x") && SFeqb v f64_one
  | _ => false
  end.

Definition test_verify_attestation : unit_test :=
  '(cwt, cose_key) ← create_public_key (Some test_config_bytes);
  let evidence := get_test_evidence in
  let endorsements := TestDefault in
  let tag := "tag" in
  '(app, key) ← unwrap_ok (verify_attestation cwt (Some evidence) (Some endorsements) tag);
  assert_eq (app_tag app) tag;;
  assert_eq (app_evidence app) (Some evidence);;
  assert_eq (app_endorsements app) (Some endorsements);;
  assert (is_config_properties (app_config_properties app));;
  assert_eq key cose_key.

Definition test_verify_attestation_without_evidence : unit_test :=
  '(cwt, cose_key) ← create_public_key None;
  let tag := "tag" in
  '(app, key) ← unwrap_ok (verify_attestation (Endorsements:=TestMessage) cwt None None tag);
  assert_eq (app_tag app) tag;;
  assert_eq (app_evidence app) None;;
  assert_eq (app_endorsements app) None;;
  assert_eq key cose_key.

Definition test_verify_attestation_without_public_key_alg : unit_test :=
  '(cwt, _) ← create_public_key_with_algorithm None None;
  unwrap_ok (verify_attestation (Endorsements:=TestMessage) cwt None None "tag");; Return ().

Definition test_verify_attestation_without_config_properties : unit_test :=
  '(cwt, _) ← create_public_key None;
  '(app, _) ← unwrap_ok (verify_attestation (Endorsements:=TestMessage) cwt None None "tag");
  assert (match app_config_properties app with None => true | Some _ => false end).

Definition test_verify_attestation_invalid_key : unit_test :=
  assert_fails (verify_attestation (Endorsements:=TestMessage) (b_str "invalid") None None "tag")
    "invalid public key".

Definition test_verify_attestation_invalid_evidence : unit_test :=
  '(cwt, _) ← create_public_key None;
  assert_fails (verify_attestation (Endorsements:=TestMessage) cwt (Some TestDefault) None "")
    "invalid DICE chain".

Definition iana_ES256K : Z := -47.

Definition test_verify_attestation_invalid_public_key_alg : unit_test :=
  '(cwt, _) ← create_public_key_with_algorithm None (Some iana_ES256K);
  assert_fails (verify_attestation (Endorsements:=TestMessage) cwt (Some get_test_evidence) None "tag")
    "unsupported public key algorithm".

Definition test_verify_attestation_invalid_public_key_signature : unit_test :=
  '(cwt, _) ← create_public_key None;
  invalid_cwt ← unwrap (sign1_from_slice cwt);
  invalid_public_key ← unwrap (sign1_to_vec (sign1_with_signature invalid_cwt (b_str "invalid")));
  assert_fails
    (verify_attestation (Endorsements:=TestMessage) invalid_public_key (Some get_test_evidence) None "")
    "invalid public key signature".

Definition policy_tests : list unit_test :=
  [test_application_matches_empty_matcher; test_application_matches_tag;
   test_application_matches_attestation; test_application_matches_config_properties;
   test_verify_attestation; test_verify_attestation_without_evidence;
   test_verify_attestation_without_public_key_alg;
   test_verify_attestation_without_config_properties; test_verify_attestation_invalid_key;
   test_verify_attestation_invalid_evidence; test_verify_attestation_invalid_public_key_alg;
   test_verify_attestation_invalid_public_key_signature; test_struct_value_matches;
   test_value_matches; test_number_value_matches].

Lemma policy_tests_pass : Forall (λ t, t = Return ()) policy_tests.
Proof. apply tests_pass_spec. vm_compute. reflexivity. Qed.
