(* ===== verification/LedgerTests.v ===== *)
(** * The unit tests of the ledger service

    The tests of [src/apps/ledger/service/src/ledger.rs] on the model of [Ledger], with the
    symbolic libraries.  The key ids and seeds that the source draws at random are written
    out. *)

From Stdlib Require Import SpecFloat.
From S2P Require Import Prelude F64 Policy Budget Crypto AppAttestation Model Ledger.
From S2P Require Import LedgerActor Wire SymbolicCrypto Testing BudgetTests CryptoTests PolicyTests.

#[local] Existing Instances symbolic_coset symbolic_hpke symbolic_aead symbolic_attestation.

(** ** The encodings of the messages *)

#[global] Instance wire_spec_float : Wire spec_float :=
  wire_inj
    (λ x, match x with
          | S754_zero s => inl (inl s) | S754_infinity s => inl (inr s) | S754_nan => inr (inl ())
          | S754_finite s m e => inr (inr (s, m, e))
          end)
    (λ x, match x with
          | inl (inl s) => S754_zero s | inl (inr s) => S754_infinity s | inr (inl _) => S754_nan
          | inr (inr (s, m, e)) => S754_finite s m e
          end) ltac:(by intros []).

#[global] Instance wire_NumberMatcherKind : Wire NumberMatcherKind :=
  wire_inj
    (λ k, match k with
          | MatchLt x => inl (inl x) | MatchLe x => inl (inr x) | MatchEq x => inr (inl x)
          | MatchGe x => inr (inr (inl x)) | MatchGt x => inr (inr (inr x))
          end)
    (λ k, match k with
          | inl (inl x) => MatchLt x | inl (inr x) => MatchLe x | inr (inl x) => MatchEq x
          | inr (inr (inl x)) => MatchGe x | inr (inr (inr x)) => MatchGt x
          end) ltac:(by intros []).

#[global] Instance wire_ValueMatcher : Wire ValueMatcher :=
  wire_inj
    (λ m, match value_kind m with
          | None => None | Some (MatchNumberValue n) => Some (number_kind n) end)
    (λ m, {| value_kind := match m with
                           | None => None
                           | Some k => Some (MatchNumberValue {| number_kind := k |}) end |})
    ltac:(by intros [[[[]]|]]).

#[global] Instance wire_FieldMatcher : Wire FieldMatcher :=
  wire_inj (λ f, (field_path f, field_matcher f)) (λ '(a, b), Build_FieldMatcher a b)
    ltac:(by intros []).

#[global] Instance wire_StructMatcher : Wire StructMatcher :=
  wire_inj struct_fields Build_StructMatcher ltac:(by intros []).

#[global] Instance wire_AccessBudget : Wire AccessBudget :=
  wire_inj (λ b, match budget_kind b with None => None | Some (Times n) => Some n end)
    (λ b, {| budget_kind := match b with None => None | Some n => Some (Times n) end |})
    ltac:(by intros [[[]|]]).

#[global] Instance wire_ApplicationMatcher : Wire (@ApplicationMatcher TestMessage) :=
  wire_inj (λ m : @ApplicationMatcher TestMessage, (matcher_tag m, matcher_reference_values m, matcher_config_properties m))
    (λ '(a, b, c), Build_ApplicationMatcher a b c) ltac:(by intros []).

#[global] Instance wire_Transform : Wire (@Transform TestMessage) :=
  wire_inj
    (λ t : @Transform TestMessage, (transform_src t, transform_dest t, transform_application t, transform_access_budget t,
           transform_shared_access_budget_indices t))
    (λ '(a, b, c, d, e), Build_Transform a b c d e) ltac:(by intros []).

#[global] Instance wire_DataAccessPolicy : Wire (@DataAccessPolicy TestMessage) :=
  wire_inj (λ p : @DataAccessPolicy TestMessage, (policy_transforms p, policy_shared_access_budgets p))
    (λ '(a, b), Build_DataAccessPolicy a b) ltac:(by intros []).

#[global] Instance wire_BlobHeader : Wire BlobHeader :=
  wire_inj
    (λ h, (bh_blob_id h, bh_key_id h, bh_access_policy_sha256 h, bh_access_policy_node_id h))
    (λ '(a, b, c, d), Build_BlobHeader a b c d) ltac:(by intros []).

(** A digest without collisions. *)
Definition symbolic_sha256 (b : bytes) : bytes := b_str "sha256" ++ b.

#[global] Instance Timestamp_eq_dec : EqDecision Timestamp.
Proof. solve_decision. Defined.
#[global] Instance PerKeySnapshot_eq_dec : EqDecision PerKeySnapshot.
Proof. solve_decision. Defined.
#[global] Instance LedgerSnapshot_eq_dec : EqDecision LedgerSnapshot.
Proof. solve_decision. Defined.

(** ** Helpers *)

#[local] Abbreviation Service := (@LedgerService TestMessage Z symbolic_hpke).
#[local] Abbreviation Request := (@AuthorizeAccessRequest TestMessage TestMessage).
#[local] Abbreviation authorize :=
  (authorize_access symbolic_verify symbolic_sha256 get_all get_all).

Definition timestamp (seconds : Z) : Timestamp := {| ts_seconds := seconds; ts_nanos := 0 |}.

Definition create_key_request (now : option Z) (ttl : Z) : CreateKeyRequest :=
  {| ckr_now := timestamp <$> now; ckr_ttl := Some {| pd_seconds := ttl; pd_nanos := 0 |} |}.

Definition mock_signer (message : bytes) : option bytes := Some (mock_sign message).

(** [LedgerService::create] with the mocked evidence provider. *)
Definition test_ledger_create (signer : bytes → option bytes) : outcome Service :=
  unwrap_ok (ledger_create (Some get_test_evidence) signer).

Definition test_key_id : bytes := b_str "key1".

Definition create_ledger_service (key_id : bytes) (rng : Z) : outcome (Service * bytes) :=
  ledger ← test_ledger_create mock_signer;
  '(ledger, response) ←
    run_ok (create_key toy_duration [key_id] rng (create_key_request None 3600)) ledger;
  Return (ledger, ckp_public_key response).

Definition create_recipient_cwt (cose_key : CoseKey) : outcome bytes :=
  key ← unwrap (cose_key_to_vec cose_key);
  payload ← build_claims [(PUBLIC_KEY_CLAIM, key)];
  build_sign1 payload.

(** The token of a recipient that signs it with the application's key. *)
Definition create_signed_recipient_cwt (cose_key : CoseKey) : outcome bytes :=
  key ← unwrap (cose_key_to_vec cose_key);
  payload ← build_claims [(PUBLIC_KEY_CLAIM, key)];
  let message := sign1_new None payload in
  unwrap (sign1_to_vec (sign1_with_signature message (mock_sign (sign1_tbs message [])))).

Definition recipient_tag : string := "tag".

(** A policy whose transform has this matcher and budget. *)
Definition encoded_policy (application : option (@ApplicationMatcher TestMessage))
    (access_budget : option AccessBudget) : bytes :=
  put (test_policy [test_transform 0 application access_budget []] []).

(** The policy that grants access to the tag. *)
Definition tag_policy : bytes := encoded_policy (Some (tag_matcher recipient_tag)) None.

Definition encoded_header (key_id access_policy_sha256 : bytes) : bytes :=
  put {| bh_blob_id := b_str "blob-id"; bh_key_id := key_id;
         bh_access_policy_sha256 := access_policy_sha256; bh_access_policy_node_id := 0 |}.

(** ** Keys *)

Definition test_create_key : unit_test :=
  let sign message := Some (symbolic_sha256 message) in
  ledger ← test_ledger_create sign;
  '(ledger, response1) ←
    run_ok (create_key toy_duration [test_key_id] 1 (create_key_request (Some 1000) 100)) ledger;
  assert (bool_decide (is_Some (ckp_attestation_evidence response1)));;
  cwt ← unwrap (sign1_from_slice (ckp_public_key response1));
  assert_eq (sign1_signature cwt) (symbolic_sha256 (sign1_tbs cwt []));;
  assert_eq (sign1_alg cwt) (Some (AlgAssigned iana_ES256));;
  payload ← unwrap (sign1_payload cwt);
  claims ← unwrap (claims_from_slice payload);
  assert_eq (claims_issued_at claims) (Some 1000);;
  assert_eq (claims_expiration_time claims) (Some 1100);;
  key1 ← unwrap_ok (extract_key_from_cwt (ckp_public_key response1));
  '(ledger, response2) ←
    run_ok (create_key toy_duration [b_str "key2"] 2 (create_key_request (Some 1000) 100)) ledger;
  key2 ← unwrap_ok (extract_key_from_cwt (ckp_public_key response2));
  assert_ne key1 key2.

Definition test_delete_key : unit_test :=
  '(ledger, public_key) ← create_ledger_service test_key_id 1;
  '(ledger, _) ← run_ok (delete_key {| dkr_public_key := public_key |}) ledger;
  '(_, r) ← run_method (delete_key {| dkr_public_key := public_key |}) ledger;
  assert_err r StatusNotFound "public key not found".

Definition test_delete_key_invalid : unit_test :=
  '(ledger, _) ← create_ledger_service test_key_id 1;
  '(_, r) ← run_method (delete_key {| dkr_public_key := b_str "invalid" |}) ledger;
  assert_err r StatusInvalidArgument "public_key is invalid".

Definition test_delete_key_not_found : unit_test :=
  '(_, public_key) ← create_ledger_service test_key_id 1;
  '(ledger, _) ← create_ledger_service (b_str "key2") 2;
  '(_, r) ← run_method (delete_key {| dkr_public_key := public_key |}) ledger;
  assert_err r StatusNotFound "public key not found".

(** ** Access *)

(** A ledger with one key and a client message for it under a policy. *)
Record AccessTest := {
  at_ledger : Service;
  at_public_key : bytes;
  at_cose_key : CoseKey;
  at_blob_header : bytes;
  at_ciphertext : bytes;
  at_encapsulated_key : bytes;
  at_encrypted_symmetric_key : bytes
}.

(** How the tests of an access start; [header] builds the blob header from the id of the
    ledger's key, and the message is encrypted with the header as its associated data unless
    [aad] says otherwise. *)
Definition start_access (header : bytes → bytes) (aad : option bytes) : outcome AccessTest :=
  '(ledger, public_key) ← create_ledger_service test_key_id 1;
  cose_key ← unwrap_ok (extract_key_from_cwt public_key);
  let blob_header := header (ck_key_id cose_key) in
  '(ciphertext, encapsulated_key, encrypted_symmetric_key) ←
    unwrap_ok (encrypt_message plaintext cose_key (default blob_header aad) 3 4);
  Return {| at_ledger := ledger; at_public_key := public_key; at_cose_key := cose_key;
            at_blob_header := blob_header; at_ciphertext := ciphertext;
            at_encapsulated_key := encapsulated_key;
            at_encrypted_symmetric_key := encrypted_symmetric_key |}.

(** The header for a policy. *)
Definition header_for (access_policy key_id : bytes) : bytes :=
  encoded_header key_id (symbolic_sha256 access_policy).

Definition access_request (t : AccessTest) (now : option Z) (access_policy blob_header : bytes)
    (recipient_public_key : bytes) (evidence : option TestMessage) (tag : string) (nonce : string)
    : Request :=
  {| aar_now := timestamp <$> now; aar_access_policy := access_policy;
     aar_blob_header := blob_header; aar_encapsulated_key := at_encapsulated_key t;
     aar_encrypted_symmetric_key := at_encrypted_symmetric_key t;
     aar_recipient_public_key := recipient_public_key;
     aar_recipient_attestation_evidence := evidence;
     aar_recipient_attestation_endorsements := (λ _, get_test_endorsements) <$> evidence;
     aar_recipient_tag := tag; aar_recipient_nonce := b_str nonce |}.

(** The recipient reads the message with the response. *)
Definition assert_readable (t : AccessTest) (response : AuthorizeAccessResponse)
    (recipient_private_key : PrivateKey) : unit_test :=
  assert_eq (aap_reencryption_public_key response) (at_public_key t);;
  message ←
    unwrap_ok (decrypt_message (at_ciphertext t) (at_blob_header t)
      (aap_encrypted_symmetric_key response)
      (aap_reencryption_public_key response ++ b_str "nonce")
      (aap_encapsulated_key response) recipient_private_key);
  assert_eq message plaintext.

Definition test_authorize_access : unit_test :=
  let access_policy := tag_policy in
  t ← start_access (header_for access_policy) None;
  let '(recipient_private_key, recipient_public_key) := gen_keypair (b_str "key-id") 2 in
  recipient_cwt ← create_recipient_cwt recipient_public_key;
  '(_, response) ←
    run_ok (authorize 5 (access_request t None access_policy (at_blob_header t) recipient_cwt None
                           recipient_tag "nonce")) (at_ledger t);
  assert_readable t response recipient_private_key.

Definition attested_policy : bytes :=
  encoded_policy (Some (matcher None (Some get_test_reference_values) None)) None.

Definition test_authorize_access_with_attestation : unit_test :=
  let access_policy := attested_policy in
  t ← start_access (header_for access_policy) None;
  let '(recipient_private_key, recipient_public_key) := gen_keypair (b_str "key-id") 2 in
  recipient_cwt ← create_signed_recipient_cwt recipient_public_key;
  '(_, response) ←
    run_ok (authorize 5 (access_request t None access_policy (at_blob_header t) recipient_cwt
                           (Some get_test_evidence) "" "nonce")) (at_ledger t);
  assert_readable t response recipient_private_key.

Definition test_authorize_access_invalid_evidence : unit_test :=
  let access_policy := attested_policy in
  t ← start_access (header_for access_policy) None;
  recipient_cwt ← create_signed_recipient_cwt (gen_keypair (b_str "key-id") 2).2;
  '(_, r) ←
    run_method (authorize 5 (access_request t None access_policy (at_blob_header t) recipient_cwt
                               (Some TestDefault) "" "nonce")) (at_ledger t);
  e ← unwrap_err r;
  assert (str_contains (status_message e) "attestation validation failed").

(** What the tests of a refused access share: the header, the changes to the request, and the
    error. *)
Definition refused_access (header : bytes → bytes) (aad : option bytes)
    (request : AccessTest → bytes → Request) (code : StatusCode) (substr : string) : unit_test :=
  t ← start_access header aad;
  recipient_cwt ← create_recipient_cwt (gen_keypair (b_str "key-id") 2).2;
  '(_, r) ← run_method (authorize 5 (request t recipient_cwt)) (at_ledger t);
  assert_err r code substr.

Definition test_authorize_access_invalid_recipient_key : unit_test :=
  refused_access (header_for tag_policy) None
    (λ t _, access_request t None tag_policy (at_blob_header t) (b_str "invalid") None recipient_tag
              "nonce")
    StatusInvalidArgument "attestation validation failed".

Definition test_authorize_access_invalid_header : unit_test :=
  refused_access (header_for tag_policy) None
    (λ t cwt, access_request t None tag_policy (b_str "invalid") cwt None recipient_tag "nonce")
    StatusInvalidArgument "failed to parse blob header".

Definition test_authorize_access_invalid_access_policy_sha256 : unit_test :=
  refused_access (λ key_id, encoded_header key_id (b_str "invalid")) None
    (λ t cwt, access_request t None tag_policy (at_blob_header t) cwt None recipient_tag "nonce")
    StatusInvalidArgument "access policy does not match blob header".

Definition test_authorize_access_invalid_access_policy : unit_test :=
  let access_policy := b_str "invalid" in
  refused_access (header_for access_policy) None
    (λ t cwt, access_request t None access_policy (at_blob_header t) cwt None "tag" "nonce")
    StatusInvalidArgument "failed to parse access policy".

Definition test_authorize_access_application_mismatch : unit_test :=
  let access_policy := put (test_policy (ReferenceValues:=TestMessage) [] []) in
  refused_access (header_for access_policy) None
    (λ t cwt, access_request t None access_policy (at_blob_header t) cwt None "non-matching-tag"
                "nonce")
    StatusFailedPrecondition "".

Definition test_authorize_access_decryption_error : unit_test :=
  refused_access (header_for tag_policy) (Some (b_str "other aad"))
    (λ t cwt, access_request t None tag_policy (at_blob_header t) cwt None recipient_tag "nonce")
    StatusInvalidArgument "failed to re-wrap symmetric key".

Definition test_authorize_access_missing_key_id : unit_test :=
  refused_access
    (λ key_id, encoded_header (key_id ++ b_str "x") (symbolic_sha256 tag_policy)) None
    (λ t cwt, access_request t None tag_policy (at_blob_header t) cwt None recipient_tag "nonce")
    StatusNotFound "public key not found".

Definition test_authorize_access_expired_key : unit_test :=
  refused_access (header_for tag_policy) None
    (λ t cwt, access_request t (Some 1000000000) tag_policy (at_blob_header t) cwt None
                recipient_tag "nonce")
    StatusNotFound "public key not found".

Definition test_authorize_access_updates_budget : unit_test :=
  let access_policy := encoded_policy None (Some (times 1)) in
  t ← start_access (header_for access_policy) None;
  cwt ← create_recipient_cwt (gen_keypair (b_str "key-id") 2).2;
  '(ledger, r) ←
    run_method (authorize 5 (access_request t None access_policy (at_blob_header t) cwt None "tag"
                               "nonce1")) (at_ledger t);
  assert (result_is_ok r);;
  cwt ← create_recipient_cwt (gen_keypair (b_str "key-id") 6).2;
  '(_, r) ←
    run_method (authorize 7 (access_request t None access_policy (at_blob_header t) cwt None "tag"
                               "nonce2")) ledger;
  assert_err r StatusResourceExhausted "".

Definition test_revoke_access : unit_test :=
  let access_policy := encoded_policy None None in
  t ← start_access (header_for access_policy) None;
  '(ledger, _) ←
    run_ok (revoke_access {| rar_key_id := ck_key_id (at_cose_key t);
                             rar_blob_id := b_str "blob-id" |}) (at_ledger t);
  cwt ← create_recipient_cwt (gen_keypair (b_str "key-id") 2).2;
  '(_, r) ←
    run_method (authorize 5 (access_request t None access_policy (at_blob_header t) cwt None "tag"
                               "nonce")) ledger;
  assert_err r StatusResourceExhausted "".

Definition test_revoke_access_key_not_found : unit_test :=
  '(ledger, public_key) ← create_ledger_service test_key_id 1;
  cose_key ← unwrap_ok (extract_key_from_cwt public_key);
  '(_, r) ←
    run_method (revoke_access {| rar_key_id := ck_key_id cose_key ++ b_str "x";
                                 rar_blob_id := b_str "blob-id" |}) ledger;
  assert_err r StatusNotFound "public key not found".

(** ** Events *)

Definition test_produce_create_key_event_monotonic_time : unit_test :=
  ledger ← test_ledger_create mock_signer;
  '(ledger, event1) ←
    run_ok (produce_create_key_event toy_duration [test_key_id] 1 (create_key_request (Some 1000) 100))
      ledger;
  '(ledger, event2) ←
    run_ok (produce_create_key_event toy_duration [b_str "key2"] 2 (create_key_request (Some 500) 100))
      ledger;
  assert_eq (cke_event_time event1) (Some (timestamp 1000));;
  assert_eq (cke_event_time event2) (Some (timestamp 1000));;
  assert_eq (cke_expiration event1) (Some (timestamp 1100));;
  assert_eq (cke_expiration event2) (Some (timestamp 1100)).

(** A service and the event for a new key of it. *)
Definition produce_test_event : outcome (Service * CreateKeyEvent) :=
  ledger ← test_ledger_create mock_signer;
  run_ok (produce_create_key_event toy_duration [test_key_id] 1 (create_key_request (Some 1000) 100))
    ledger.

Definition test_apply_create_key_event_twice : unit_test :=
  '(ledger, event) ← produce_test_event;
  '(ledger, r) ← run_method (apply_create_key_event event) ledger;
  assert (result_is_ok r);;
  '(_, r) ← run_method (apply_create_key_event event) ledger;
  assert_err r StatusInvalidArgument "cannot commit changes for already used key id".

Definition test_apply_create_key_event_invalid_public_key : unit_test :=
  '(ledger, event) ← produce_test_event;
  let event := {| cke_event_time := cke_event_time event; cke_public_key := b_str "public-key";
                  cke_private_key := cke_private_key event; cke_expiration := cke_expiration event |} in
  '(_, r) ← run_method (apply_create_key_event event) ledger;
  assert_err r StatusInvalidArgument "public_key is invalid".

Definition test_apply_create_key_event_invalid_private_key : unit_test :=
  '(ledger, event) ← produce_test_event;
  let event := {| cke_event_time := cke_event_time event; cke_public_key := cke_public_key event;
                  cke_private_key := b_str "private-key"; cke_expiration := cke_expiration event |} in
  '(_, r) ← run_method (apply_create_key_event event) ledger;
  assert_err r StatusInvalidArgument "failed to parse private_key".

(** ** Snapshots *)

Definition test_save_snapshot : unit_test :=
  let access_policy := tag_policy in
  t ← start_access (header_for access_policy) None;
  cwt ← create_recipient_cwt (gen_keypair (b_str "key-id") 2).2;
  '(ledger, _) ←
    run_ok (authorize 5 (access_request t (Some 1000) access_policy (at_blob_header t) cwt None
                           recipient_tag "nonce")) (at_ledger t);
  snapshot ← unwrap_ok (save_snapshot ledger);
  assert_eq (zlen (lsn_per_key_snapshots snapshot)) 1;;
  first ← unwrap (lsn_per_key_snapshots snapshot !! 0%nat);
  assert_eq snapshot
    {| lsn_current_time := Some (timestamp 1000);
       lsn_per_key_snapshots :=
         [{| pks_key_id := ck_key_id (at_cose_key t); pks_public_key := at_public_key t;
             pks_private_key := pks_private_key first;
             pks_expiration := Some (timestamp 3600);
             pks_budgets := Some
               {| bs_per_policy_snapshots :=
                    [{| pps_access_policy_sha256 := symbolic_sha256 access_policy;
                        pps_budgets := [blob_snapshot "blob-id" [0] []] |}];
                  bs_consumed_budgets := [] |} |}] |}.

Definition test_load_snapshot_ledger : unit_test :=
  '(ledger, _) ← create_ledger_service test_key_id 1;
  let '(private_key, public_key) := gen_keypair (b_str "key-id") 2 in
  cwt ← create_recipient_cwt public_key;
  let snapshot :=
    {| lsn_current_time := Some (timestamp 1000);
       lsn_per_key_snapshots :=
         [{| pks_key_id := b_str "key1"; pks_public_key := cwt;
             pks_private_key := private_key_to_bytes private_key;
             pks_expiration := Some (timestamp 2000);
             pks_budgets := Some (test_budget_snapshot
               [policy_snapshot "hash1" [blob_snapshot "blob1" [] []]] []) |};
          {| pks_key_id := b_str "key2"; pks_public_key := cwt;
             pks_private_key := private_key_to_bytes private_key;
             pks_expiration := Some (timestamp 2500);
             pks_budgets := Some (test_budget_snapshot [] ["blob2"]) |}] |} in
  '(ledger, r) ← run_method (load_snapshot snapshot) ledger;
  assert_eq r (Ok ());;
  assert_eq (save_snapshot ledger) (Ok snapshot).

Definition test_load_snapshot_replaces_state_ledger : unit_test :=
  '(ledger, _) ← create_ledger_service test_key_id 1;
  let snapshot := {| lsn_current_time := Some (timestamp 0); lsn_per_key_snapshots := [] |} in
  assert_ne (save_snapshot ledger) (Ok snapshot);;
  '(ledger, r) ← run_method (load_snapshot snapshot) ledger;
  assert_eq r (Ok ());;
  assert_eq (save_snapshot ledger) (Ok snapshot).

Definition test_load_snapshot_duplicating_key_id : unit_test :=
  '(ledger, _) ← create_ledger_service test_key_id 1;
  let '(private_key, public_key) := gen_keypair (b_str "key-id") 2 in
  cwt ← create_recipient_cwt public_key;
  let key1 := {| pks_key_id := b_str "key1"; pks_public_key := cwt;
                 pks_private_key := private_key_to_bytes private_key;
                 pks_expiration := None; pks_budgets := None |} in
  '(_, r) ←
    run_method (load_snapshot {| lsn_current_time := Some (timestamp 0);
                                 lsn_per_key_snapshots := [key1; key1] |}) ledger;
  assert_err r StatusInvalidArgument "Duplicated key_id in the snapshot".

(** ** The actor

    The tests of [src/apps/ledger/service/src/actor.rs]. *)

#[global] Instance wire_Timestamp : Wire Timestamp :=
  wire_inj (λ t, (ts_seconds t, ts_nanos t)) (λ '(a, b), Build_Timestamp a b) ltac:(by intros []).

#[global] Instance wire_BlobBudgetSnapshot : Wire BlobBudgetSnapshot :=
  wire_inj
    (λ s, (bbs_blob_id s, bbs_transform_access_budgets s, bbs_shared_access_budgets s))
    (λ '(a, b, c), Build_BlobBudgetSnapshot a b c) ltac:(by intros []).

#[global] Instance wire_PerPolicyBudgetSnapshot : Wire PerPolicyBudgetSnapshot :=
  wire_inj (λ s, (pps_access_policy_sha256 s, pps_budgets s))
    (λ '(a, b), Build_PerPolicyBudgetSnapshot a b) ltac:(by intros []).

#[global] Instance wire_BudgetSnapshot : Wire BudgetSnapshot :=
  wire_inj (λ s, (bs_per_policy_snapshots s, bs_consumed_budgets s))
    (λ '(a, b), Build_BudgetSnapshot a b) ltac:(by intros []).

#[global] Instance wire_PerKeySnapshot : Wire PerKeySnapshot :=
  wire_inj
    (λ s, (pks_key_id s, pks_public_key s, pks_private_key s, pks_expiration s, pks_budgets s))
    (λ '(a, b, c, d, e), Build_PerKeySnapshot a b c d e) ltac:(by intros []).

#[global] Instance wire_LedgerSnapshot : Wire LedgerSnapshot :=
  wire_inj (λ s, (lsn_current_time s, lsn_per_key_snapshots s))
    (λ '(a, b), Build_LedgerSnapshot a b) ltac:(by intros []).

#[local] Instance test_ledger_snapshot_codec : ProtoCodec LedgerSnapshot := wire_codec LedgerSnapshot.

#[local] Abbreviation TestActor := (@LedgerActor TestMessage Z symbolic_hpke).

(** The mocked context: its configuration is the encoding of the empty [LedgerConfig]. *)
Definition ledger_actor_context : ActorContext :=
  {| ctx_id := 0; ctx_instant := 0; ctx_config := put (); ctx_leader := false |}.

Definition create_ledger_actor : outcome TestActor :=
  actor ← unwrap_ok (actor_create (Some get_test_evidence) mock_signer);
  '(actor, r) ← run_method (actor_on_init get_all ledger_actor_context) actor;
  assert (result_is_ok r);;
  Return actor.

Definition test_create_actor_ledger : unit_test :=
  actor ← create_ledger_actor;
  run_ok (E:=ActorError) get_context actor;;
  assert_eq (ctx_id ledger_actor_context) 0.

Definition empty_ledger_snapshot : LedgerSnapshot :=
  {| lsn_current_time := Some (timestamp 0); lsn_per_key_snapshots := [] |}.

Definition test_save_snapshot_actor : unit_test :=
  actor ← create_ledger_actor;
  '(_, saved) ← run_ok actor_on_save_snapshot actor;
  assert_eq saved (proto_encode empty_ledger_snapshot).

Definition test_load_snapshot_actor : unit_test :=
  actor ← create_ledger_actor;
  '(_, r) ← run_method (actor_on_load_snapshot (proto_encode empty_ledger_snapshot)) actor;
  assert (result_is_ok r).

Definition ledger_tests : list unit_test :=
  [test_create_key; test_delete_key; test_delete_key_invalid; test_delete_key_not_found;
   test_authorize_access; test_authorize_access_with_attestation;
   test_authorize_access_invalid_evidence; test_authorize_access_invalid_recipient_key;
   test_authorize_access_invalid_header; test_authorize_access_invalid_access_policy_sha256;
   test_authorize_access_invalid_access_policy; test_authorize_access_application_mismatch;
   test_authorize_access_decryption_error; test_authorize_access_missing_key_id;
   test_authorize_access_expired_key; test_authorize_access_updates_budget; test_revoke_access;
   test_revoke_access_key_not_found; test_produce_create_key_event_monotonic_time;
   test_apply_create_key_event_twice; test_apply_create_key_event_invalid_public_key;
   test_apply_create_key_event_invalid_private_key; test_save_snapshot; test_load_snapshot_ledger;
   test_load_snapshot_replaces_state_ledger; test_load_snapshot_duplicating_key_id;
   test_create_actor_ledger; test_save_snapshot_actor; test_load_snapshot_actor].

Lemma ledger_tests_pass : Forall (λ t, t = Return ()) ledger_tests.
Proof. apply tests_pass_spec. vm_compute. reflexivity. Qed.
