(* ===== verification/HandshakeTests.v ===== *)
(** * The unit tests of the handshake sessions

    The tests of [src/runtime/src/handshake.rs] on the model of [Handshake].  A mock is the
    list of the calls that it still expects, each of them once; a call that is not expected
    answers with an error of its own, which no test accepts, and what is left at the end
    makes the test fail. *)

From S2P Require Import Prelude Endpoint Handshake Model Testing TestMessages.

#[local] Existing Instance test_oak_session.

(** ** Messages *)

Definition create_attest_request (sender_replica_id recipient_replica_id : Z)
    : SecureChannelHandshake :=
  {| sch_recipient_replica_id := recipient_replica_id; sch_sender_replica_id := sender_replica_id;
     sch_encryption := Some (NoiseProtocol (Some (InitiatorRequest (Some
       (InitiatorAttestRequest default_attest_request))))) |}.

Definition create_attest_response (sender_replica_id recipient_replica_id : Z)
    : SecureChannelHandshake :=
  {| sch_recipient_replica_id := recipient_replica_id; sch_sender_replica_id := sender_replica_id;
     sch_encryption := Some (NoiseProtocol (Some (RecipientResponse (Some
       (RecipientAttestResponse default_attest_response))))) |}.

Definition create_handshake_request (sender_replica_id recipient_replica_id : Z)
    : SecureChannelHandshake :=
  {| sch_recipient_replica_id := recipient_replica_id; sch_sender_replica_id := sender_replica_id;
     sch_encryption := Some (NoiseProtocol (Some (InitiatorRequest (Some
       (InitiatorHandshakeRequest default_handshake_request))))) |}.

Definition create_handshake_response (sender_replica_id recipient_replica_id : Z)
    : SecureChannelHandshake :=
  {| sch_recipient_replica_id := recipient_replica_id; sch_sender_replica_id := sender_replica_id;
     sch_encryption := Some (NoiseProtocol (Some (RecipientResponse (Some
       (RecipientHandshakeResponse default_handshake_response))))) |}.

(** ** Mocks *)

Definition unexpected_call : string := "unexpected call".

(** What the attestation results of the mocks are. *)
Definition mock_attestation_results : AttestationResults :=
  {| att_status := 0; att_reason := ""; att_encryption_public_key := [];
     att_signing_public_key := [];
     att_extracted_evidence :=
       Some {| ev_encryption_public_key := []; ev_signing_public_key := [] |} |}.

(** The calls that a mocked attestation still expects. *)
Record MockAttestation (I O : Type) := {
  ma_outgoing : option (result Error (option O));
  ma_incoming : option (I * result Error (option unit));
  ma_results : bool
}.
Arguments ma_outgoing {I O} _.
Arguments ma_incoming {I O} _.
Arguments ma_results {I O} _.
Arguments Build_MockAttestation {I O} _ _ _.

(** Nothing is expected any more. *)
Definition attestation_done {I O} (m : MockAttestation I O) : bool :=
  match m with Build_MockAttestation None None false => true | _ => false end.

(** The results come last: they use up the mock. *)
#[local] Instance MockAttestation_impl {I O} `{EqDecision I} : Attestation (MockAttestation I O) I O :=
  {| get_attestation_results m :=
       match m with
       | Build_MockAttestation None None true => Some mock_attestation_results
       | _ => None
       end;
     attestation_put_incoming_message m message :=
       match ma_incoming m with
       | Some (expected, r) =>
           (Build_MockAttestation (ma_outgoing m) None (ma_results m),
            if decide (message = expected) then r else Err unexpected_call)
       | None => (m, Err unexpected_call)
       end;
     attestation_get_outgoing_message m :=
       match ma_outgoing m with
       | Some r => (Build_MockAttestation None (ma_incoming m) (ma_results m), r)
       | None => (m, Err unexpected_call)
       end |}.

Definition MockClientAttestation : Type := MockAttestation AttestResponse AttestRequest.
Definition MockServerAttestation : Type := MockAttestation AttestRequest AttestResponse.

Definition client_attestation_builder : MockClientAttestation := Build_MockAttestation None None false.
Definition server_attestation_builder : MockServerAttestation := Build_MockAttestation None None false.

Definition client_expect_attest_outgoing (message : result Error (option AttestRequest))
    (m : MockClientAttestation) : MockClientAttestation :=
  Build_MockAttestation (Some message) (ma_incoming m) (ma_results m).

Definition client_expect_attest_incoming (message : AttestResponse)
    (r : result Error (option unit)) (m : MockClientAttestation) : MockClientAttestation :=
  Build_MockAttestation (ma_outgoing m) (Some (message, r)) (ma_results m).

Definition client_expect_results (m : MockClientAttestation) : MockClientAttestation :=
  Build_MockAttestation (ma_outgoing m) (ma_incoming m) true.

Definition server_expect_attest_outgoing (message : result Error (option AttestResponse))
    (m : MockServerAttestation) : MockServerAttestation :=
  Build_MockAttestation (Some message) (ma_incoming m) (ma_results m).

Definition server_expect_attest_incoming (message : AttestRequest)
    (r : result Error (option unit)) (m : MockServerAttestation) : MockServerAttestation :=
  Build_MockAttestation (ma_outgoing m) (Some (message, r)) (ma_results m).

Definition server_expect_results (m : MockServerAttestation) : MockServerAttestation :=
  Build_MockAttestation (ma_outgoing m) (ma_incoming m) true.

(** The calls that a mocked handshaker still expects. *)
Record MockHandshaker (I O : Type) := {
  mh_init : bool;
  mh_outgoing : option (result Error (option O));
  mh_incoming : option (I * result Error (option unit));
  mh_keys : bool
}.
Arguments mh_init {I O} _.
Arguments mh_outgoing {I O} _.
Arguments mh_incoming {I O} _.
Arguments mh_keys {I O} _.
Arguments Build_MockHandshaker {I O} _ _ _ _.

Definition handshaker_done {I O} (m : MockHandshaker I O) : bool :=
  match m with Build_MockHandshaker false None None false => true | _ => false end.

#[local] Instance MockHandshaker_impl {I O} `{EqDecision I} : OakHandshaker (MockHandshaker I O) I O :=
  {| handshaker_init m _ :=
       if mh_init m
       then Return (Build_MockHandshaker false (mh_outgoing m) (mh_incoming m) (mh_keys m))
       else Panic;
     handshaker_put_incoming_message m message :=
       match mh_incoming m with
       | Some (expected, r) =>
           (Build_MockHandshaker (mh_init m) (mh_outgoing m) None (mh_keys m),
            if decide (message = expected) then r else Err unexpected_call)
       | None => (m, Err unexpected_call)
       end;
     handshaker_get_outgoing_message m :=
       match mh_outgoing m with
       | Some r => (Build_MockHandshaker (mh_init m) None (mh_incoming m) (mh_keys m), r)
       | None => (m, Err unexpected_call)
       end;
     derive_session_keys m :=
       match m with
       | Build_MockHandshaker false None None true => Some session_keys_default
       | _ => None
       end |}.

Definition MockOakClientHandshaker : Type := MockHandshaker HandshakeResponse HandshakeRequest.
Definition MockOakServerHandshaker : Type := MockHandshaker HandshakeRequest HandshakeResponse.

Definition client_handshaker_builder : MockOakClientHandshaker :=
  Build_MockHandshaker false None None false.
Definition server_handshaker_builder : MockOakServerHandshaker :=
  Build_MockHandshaker false None None false.

Definition client_expect_init (m : MockOakClientHandshaker) : MockOakClientHandshaker :=
  Build_MockHandshaker true (mh_outgoing m) (mh_incoming m) (mh_keys m).

Definition client_expect_outgoing (message : result Error (option HandshakeRequest))
    (m : MockOakClientHandshaker) : MockOakClientHandshaker :=
  Build_MockHandshaker (mh_init m) (Some message) (mh_incoming m) (mh_keys m).

Definition client_expect_incoming (message : HandshakeResponse) (r : result Error (option unit))
    (m : MockOakClientHandshaker) : MockOakClientHandshaker :=
  Build_MockHandshaker (mh_init m) (mh_outgoing m) (Some (message, r)) (mh_keys m).

Definition client_expect_keys (m : MockOakClientHandshaker) : MockOakClientHandshaker :=
  Build_MockHandshaker (mh_init m) (mh_outgoing m) (mh_incoming m) true.

Definition server_expect_init (m : MockOakServerHandshaker) : MockOakServerHandshaker :=
  Build_MockHandshaker true (mh_outgoing m) (mh_incoming m) (mh_keys m).

Definition server_expect_outgoing (message : result Error (option HandshakeResponse))
    (m : MockOakServerHandshaker) : MockOakServerHandshaker :=
  Build_MockHandshaker (mh_init m) (Some message) (mh_incoming m) (mh_keys m).

Definition server_expect_incoming (message : HandshakeRequest) (r : result Error (option unit))
    (m : MockOakServerHandshaker) : MockOakServerHandshaker :=
  Build_MockHandshaker (mh_init m) (mh_outgoing m) (Some (message, r)) (mh_keys m).

Definition server_expect_keys (m : MockOakServerHandshaker) : MockOakServerHandshaker :=
  Build_MockHandshaker (mh_init m) (mh_outgoing m) (mh_incoming m) true.

(** ** Sessions in a test *)

#[local] Abbreviation Session :=
  (@ProvidedSession MockClientAttestation MockOakClientHandshaker MockServerAttestation
     MockOakServerHandshaker).

Definition self_replica_id : Z := 11111.
Definition peer_replica_id : Z := 22222.

Definition attest_request := create_attest_request self_replica_id peer_replica_id.
Definition attest_response := create_attest_response self_replica_id peer_replica_id.
Definition handshake_request := create_handshake_request self_replica_id peer_replica_id.
Definition handshake_response := create_handshake_response self_replica_id peer_replica_id.

Definition test_client (a : MockClientAttestation) (h : MockOakClientHandshaker) : Session :=
  ClientSession (client_session_new self_replica_id peer_replica_id a h).

Definition test_server (a : MockServerAttestation) (h : MockOakServerHandshaker) : Session :=
  ServerSession (server_session_new self_replica_id peer_replica_id a h).

(** [take_out_message().unwrap()] is the expected message. *)
Definition assert_take (s : Session) (expected : option SecureChannelHandshake) : outcome Session :=
  '(s, r) ← provided_take_out_message s;
  message ← unwrap_ok r;
  assert_eq expected message;; Return s.

(** An error that does not come from a call nobody expects. *)
Definition assert_error {A} (r : result Error A) : unit_test :=
  e ← unwrap_err r; assert_ne e unexpected_call.

Definition assert_take_err (s : Session) : outcome Session :=
  '(s, r) ← provided_take_out_message s; assert_error r;; Return s.

Definition assert_process_ok (s : Session) (m : SecureChannelHandshake) : outcome Session :=
  '(s, r) ← provided_process_message s m; unwrap_ok r;; Return s.

Definition assert_process_err (s : Session) (m : SecureChannelHandshake) : outcome Session :=
  '(s, r) ← provided_process_message s m; assert_error r;; Return s.

Definition session_completed (s : Session) : bool :=
  match s with ClientSession s => session_is_completed s | ServerSession s => session_is_completed s end.

Definition session_encryptor (s : Session) : option DefaultEncryptor :=
  match s with
  | ClientSession s => session_get_encryptor s
  | ServerSession s => session_get_encryptor s
  end.

(** The end of a test: all expected calls were made. *)
Definition fields_done {I O I' O'} (s : SessionFields (MockAttestation I O) (MockHandshaker I' O'))
    : bool :=
  from_option attestation_done true (hs_attestation s) &&
  from_option handshaker_done true (hs_oak_handshaker s).

Definition finish (s : Session) : unit_test :=
  assert (match s with ClientSession s => fields_done s | ServerSession s => fields_done s end).

(** ** Client sessions *)

(** The mocks of an attestation that succeeds. *)
Definition client_attests : MockClientAttestation :=
  client_expect_results (client_expect_attest_incoming default_attest_response (Ok (Some ()))
    (client_expect_attest_outgoing (Ok (Some default_attest_request)) client_attestation_builder)).

Definition server_attests : MockServerAttestation :=
  server_expect_results (server_expect_attest_incoming default_attest_request (Ok (Some ()))
    (server_expect_attest_outgoing (Ok (Some default_attest_response)) server_attestation_builder)).

Definition test_client_session_success : unit_test :=
  let mock_oak_client_handshaker :=
    client_expect_keys (client_expect_incoming default_handshake_response (Ok (Some ()))
      (client_expect_outgoing (Ok (Some default_handshake_request))
        (client_expect_init client_handshaker_builder))) in
  let s : Session := provider_get client_attests mock_oak_client_handshaker
    server_attestation_builder server_handshaker_builder self_replica_id peer_replica_id Initiator in
  s ← assert_take s (Some attest_request);
  s ← assert_take s None;
  s ← assert_process_ok s attest_response;
  assert_eq false (session_completed s);;
  s ← assert_take s (Some handshake_request);
  s ← assert_process_ok s handshake_response;
  assert_eq true (session_completed s);;
  s ← assert_process_ok s attest_response;
  s ← assert_take s None;
  assert (match session_encryptor s with Some _ => true | None => false end);;
  finish s.

Definition test_client_session_get_attest_request_error : unit_test :=
  let s := test_client (client_expect_attest_outgoing (Err "Error") client_attestation_builder)
    client_handshaker_builder in
  s ← assert_take_err s;
  s ← assert_process_ok s attest_response;
  s ← assert_take s None;
  assert_eq false (session_completed s);;
  assert (match session_encryptor s with Some _ => false | None => true end);;
  finish s.

Definition test_client_session_put_attest_response_error : unit_test :=
  let s := test_client
    (client_expect_attest_incoming default_attest_response (Err "Error")
      (client_expect_attest_outgoing (Ok (Some default_attest_request)) client_attestation_builder))
    client_handshaker_builder in
  s ← assert_take s (Some attest_request);
  s ← assert_process_err s attest_response;
  finish s.

Definition test_client_session_get_handshake_request_error : unit_test :=
  let s := test_client client_attests
    (client_expect_outgoing (Err "Error") (client_expect_init client_handshaker_builder)) in
  s ← assert_take s (Some attest_request);
  s ← assert_process_ok s attest_response;
  s ← assert_take_err s;
  finish s.

Definition test_client_session_put_handshake_response_error : unit_test :=
  let s := test_client client_attests
    (client_expect_incoming default_handshake_response (Err "Error")
      (client_expect_outgoing (Ok (Some default_handshake_request))
        (client_expect_init client_handshaker_builder))) in
  s ← assert_take s (Some attest_request);
  s ← assert_process_ok s attest_response;
  s ← assert_take s (Some handshake_request);
  s ← assert_process_err s handshake_response;
  finish s.

Definition test_client_session_unknown_state_process_message : unit_test :=
  let s := test_client client_attestation_builder client_handshaker_builder in
  s ← assert_process_err s attest_response;
  finish s.

Definition test_client_session_attesting_state_invalid_message : unit_test :=
  let s := test_client
    (client_expect_attest_outgoing (Ok (Some default_attest_request)) client_attestation_builder)
    client_handshaker_builder in
  s ← assert_take s (Some attest_request);
  s ← assert_process_err s attest_request;
  finish s.

Definition test_client_session_key_exchange_state_invalid_message : unit_test :=
  let s := test_client client_attests (client_expect_init client_handshaker_builder) in
  s ← assert_take s (Some attest_request);
  s ← assert_process_ok s attest_response;
  s ← assert_process_err s attest_response;
  finish s.

(** ** Server sessions *)

Definition test_server_session_success : unit_test :=
  let mock_oak_server_handshaker :=
    server_expect_keys (server_expect_incoming default_handshake_request (Ok (Some ()))
      (server_expect_outgoing (Ok (Some default_handshake_response))
        (server_expect_init server_handshaker_builder))) in
  let s : Session := provider_get client_attestation_builder client_handshaker_builder
    server_attests mock_oak_server_handshaker self_replica_id peer_replica_id Recipient in
  s ← assert_take s None;
  s ← assert_process_ok s attest_request;
  s ← assert_take s (Some attest_response);
  assert_eq false (session_completed s);;
  s ← assert_process_ok s handshake_request;
  s ← assert_take s (Some handshake_response);
  assert_eq true (session_completed s);;
  s ← assert_process_ok s attest_request;
  s ← assert_take s None;
  assert (match session_encryptor s with Some _ => true | None => false end);;
  finish s.

Definition test_server_session_put_attest_request_error : unit_test :=
  let s := test_server
    (server_expect_attest_incoming default_attest_request (Err "Error") server_attestation_builder)
    server_handshaker_builder in
  s ← assert_process_err s attest_request;
  s ← assert_process_ok s attest_request;
  s ← assert_take s None;
  assert_eq false (session_completed s);;
  assert (match session_encryptor s with Some _ => false | None => true end);;
  finish s.

Definition test_server_session_get_attest_response_error : unit_test :=
  let s := test_server
    (server_expect_attest_outgoing (Err "Error")
      (server_expect_attest_incoming default_attest_request (Ok (Some ())) server_attestation_builder))
    server_handshaker_builder in
  s ← assert_process_ok s attest_request;
  s ← assert_take_err s;
  finish s.

Definition test_server_session_put_handshake_request_error : unit_test :=
  let s := test_server server_attests
    (server_expect_incoming default_handshake_request (Err "Error")
      (server_expect_init server_handshaker_builder)) in
  s ← assert_process_ok s attest_request;
  s ← assert_take s (Some attest_response);
  s ← assert_process_err s handshake_request;
  finish s.

Definition test_server_session_get_handshake_response_error : unit_test :=
  let s := test_server server_attests
    (server_expect_outgoing (Err "Error")
      (server_expect_incoming default_handshake_request (Ok (Some ()))
        (server_expect_init server_handshaker_builder))) in
  s ← assert_process_ok s attest_request;
  s ← assert_take s (Some attest_response);
  s ← assert_process_ok s handshake_request;
  s ← assert_take_err s;
  finish s.

Definition test_server_session_unknown_state_invalid_message : unit_test :=
  let s := test_server server_attestation_builder server_handshaker_builder in
  s ← assert_process_err s attest_response;
  finish s.

Definition test_server_session_attesting_state_process_message : unit_test :=
  let s := test_server
    (server_expect_attest_incoming default_attest_request (Ok (Some ())) server_attestation_builder)
    server_handshaker_builder in
  s ← assert_process_ok s attest_request;
  s ← assert_process_err s attest_request;
  finish s.

Definition test_server_session_key_exchange_state_invalid_message : unit_test :=
  let s := test_server server_attests (server_expect_init server_handshaker_builder) in
  s ← assert_process_ok s attest_request;
  s ← assert_take s (Some attest_response);
  s ← assert_process_err s attest_request;
  finish s.

Definition handshake_tests : list unit_test :=
  [test_client_session_success; test_client_session_get_attest_request_error;
   test_client_session_put_attest_response_error; test_client_session_get_handshake_request_error;
   test_client_session_put_handshake_response_error;
   test_client_session_unknown_state_process_message;
   test_client_session_attesting_state_invalid_message;
   test_client_session_key_exchange_state_invalid_message; test_server_session_success;
   test_server_session_put_attest_request_error; test_server_session_get_attest_response_error;
   test_server_session_put_handshake_request_error;
   test_server_session_get_handshake_response_error;
   test_server_session_unknown_state_invalid_message;
   test_server_session_attesting_state_process_message;
   test_server_session_key_exchange_state_invalid_message].

Lemma handshake_tests_pass : Forall (λ t, t = Return ()) handshake_tests.
Proof. apply tests_pass_spec. vm_compute. reflexivity. Qed.
