(* ===== verification/CommunicationTests.v ===== *)
(** * The unit tests of the communication module

    The tests of [src/runtime/src/communication.rs] on the model of [Communication].  A
    mocked session is the script of the calls it expects, in their order; a call that is not
    expected makes the test panic, and so does a session or a script that is left over.  A
    mocked provider is the sessions that it hands out, one per expected call. *)

From S2P Require Import Prelude RaftTypes Endpoint Handshake Communication Model Testing.
From S2P Require Import TestMessages.

#[local] Existing Instance test_oak_session.

(** The order of the peers in which the tests list the messages. *)
#[local] Instance communication_test_order : HashOrder Z :=
  {| hash_iter V m := btree_iter Z.le m; hash_iter_perm V m := btree_iter_perm Z.le m |}.

#[global] Instance Role_eq_dec : EqDecision Role.
Proof. solve_decision. Defined.

(** ** Messages *)

Definition create_system_message_with_contents (sender_replica_id recipient_replica_id : Z)
    (message_contents : bytes) : DeliverSystemMessage :=
  {| dsm_recipient_replica_id := recipient_replica_id; dsm_sender_replica_id := sender_replica_id;
     dsm_message_contents := message_contents |}.

Definition create_system_message (sender_replica_id recipient_replica_id : Z)
    : DeliverSystemMessage :=
  create_system_message_with_contents sender_replica_id recipient_replica_id [].

Definition create_snapshot_request_with_contents (sender_replica_id recipient_replica_id : Z)
    (payload_contents : bytes) : DeliverSnapshotRequest :=
  {| req_recipient_replica_id := recipient_replica_id; req_sender_replica_id := sender_replica_id;
     req_delivery_id := 0; req_payload_contents := payload_contents |}.

Definition create_snapshot_request (sender_replica_id recipient_replica_id : Z)
    : DeliverSnapshotRequest :=
  create_snapshot_request_with_contents sender_replica_id recipient_replica_id [].

Definition create_snapshot_response_with_contents (sender_replica_id recipient_replica_id : Z)
    (payload_contents : bytes) : DeliverSnapshotResponse :=
  {| resp_recipient_replica_id := recipient_replica_id; resp_sender_replica_id := sender_replica_id;
     resp_delivery_id := 0; resp_payload_contents := payload_contents |}.

Definition create_snapshot_response (sender_replica_id recipient_replica_id : Z)
    : DeliverSnapshotResponse :=
  create_snapshot_response_with_contents sender_replica_id recipient_replica_id [].

Definition create_secure_channel_handshake (sender_replica_id recipient_replica_id : Z)
    : SecureChannelHandshake :=
  {| sch_recipient_replica_id := recipient_replica_id; sch_sender_replica_id := sender_replica_id;
     sch_encryption := None |}.

Definition create_unsupported_out_message : OutMsg := OutStartReplica 0.

Definition create_unsupported_in_message : InMsg :=
  InStartReplica
    {| srr_is_leader := true; srr_replica_id_hint := 0; srr_raft_config := None;
       srr_app_config := []; srr_attestation_config := None; srr_is_ephemeral := false |}.

(** ** Mocks *)

(** What a mocked encryptor encrypts and decrypts, with the results. *)
Record MockEncryptor := {
  me_encrypt : list (bytes * result Error bytes);
  me_decrypt : list (bytes * result Error bytes)
}.

Definition mock_encryptor_new : MockEncryptor := {| me_encrypt := []; me_decrypt := [] |}.

Definition expect_encrypt (plaintext : bytes) (r : result Error bytes) (m : MockEncryptor)
    : MockEncryptor :=
  {| me_encrypt := me_encrypt m ++ [(plaintext, r)]; me_decrypt := me_decrypt m |}.

Definition expect_decrypt (ciphertext : bytes) (r : result Error bytes) (m : MockEncryptor)
    : MockEncryptor :=
  {| me_encrypt := me_encrypt m; me_decrypt := me_decrypt m ++ [(ciphertext, r)] |}.

Definition mock_answer (expected : list (bytes * result Error bytes)) (b : bytes)
    : result Error bytes :=
  match list_find (λ e, e.1 = b) expected with
  | Some (_, (_, r)) => r
  | None => Err "unexpected call"
  end.

#[local] Instance MockEncryptor_impl : Encryptor MockEncryptor :=
  {| encrypt m := mock_answer (me_encrypt m); decrypt m := mock_answer (me_decrypt m) |}.

(** An expected call of a session, with its result; whether the session is completed, and its
    encryptor, are asked for at the end of a round. *)
Inductive SessionCall :=
| ExpectProcessMessage (message : SecureChannelHandshake) (r : result Error unit)
| ExpectTakeOutMessage (message : result Error (option SecureChannelHandshake))
| ExpectIsCompleted (completed : bool).

Record MockHandshakeSession := {
  mhs_script : list SessionCall;
  mhs_encryptor : option MockEncryptor
}.

Definition mock_session (script : list SessionCall) (encryptor : option MockEncryptor)
    : MockHandshakeSession := {| mhs_script := script; mhs_encryptor := encryptor |}.

(** The answer of [is_completed] is read at the head of the script and leaves it with the next
    call. *)
Definition after_is_completed (script : list SessionCall) : list SessionCall :=
  match script with ExpectIsCompleted false :: script => script | _ => script end.

Definition mock_process_message (m : MockHandshakeSession) (message : SecureChannelHandshake)
    : outcome (MockHandshakeSession * result Error unit) :=
  match after_is_completed (mhs_script m) with
  | ExpectProcessMessage expected r :: script =>
      if decide (message = expected) then Return (mock_session script (mhs_encryptor m), r)
      else Panic
  | _ => Panic
  end.

Definition mock_take_out_message (m : MockHandshakeSession)
    : outcome (MockHandshakeSession * result Error (option SecureChannelHandshake)) :=
  match after_is_completed (mhs_script m) with
  | ExpectTakeOutMessage r :: script => Return (mock_session script (mhs_encryptor m), r)
  | _ => Panic
  end.

(** A session is only completed when its script ends. *)
Definition mock_is_completed (m : MockHandshakeSession) : bool :=
  match mhs_script m, mhs_encryptor m with
  | [ExpectIsCompleted true], Some _ => true
  | _, _ => false
  end.

Definition mock_get_encryptor (m : MockHandshakeSession) : option MockEncryptor :=
  if mock_is_completed m then mhs_encryptor m else None.

(** No session of a script is promised to return: a call that is not expected panics. *)
#[local, program] Instance MockHandshakeSession_impl :
    HandshakeSession MockHandshakeSession MockEncryptor :=
  {| process_message := mock_process_message;
     take_out_message := mock_take_out_message;
     is_completed := mock_is_completed;
     get_encryptor := mock_get_encryptor;
     session_ok _ := False |}.
Next Obligation. done. Qed.
Next Obligation. done. Qed.
Next Obligation.
  intros m. unfold mock_get_encryptor. destruct (mock_is_completed m) eqn:E;
    [|split; [done|by intros [? ?]]].
  split; [intros _|done]. unfold mock_is_completed in E.
  destruct (mhs_encryptor m); [eauto|]. by destruct (mhs_script m) as [|[| |[]] [|]].
Qed.

(** The sessions that a provider hands out, with the call that each is expected for. *)
Definition MockProvider : Type := list (Z * Z * Role * MockHandshakeSession).

(** A session that is handed out for a call nobody expects: it panics when it is used. *)
Definition unexpected_session : MockHandshakeSession := mock_session [] None.

Definition provided (p : MockProvider) (self_replica_id peer_replica_id : Z) (role : Role)
    : MockHandshakeSession :=
  match list_find (λ e, e.1 = (self_replica_id, peer_replica_id, role)) p with
  | Some (_, (_, s)) => s
  | None => unexpected_session
  end.

(** ** A module in a test *)

#[local] Abbreviation Comm := (@DefaultCommunicationModule test_oak_session MockHandshakeSession MockEncryptor).

Definition assert_process_out (p : MockProvider) (m : Comm) (message : OutMsg)
    (expected : result PalError unit) : outcome Comm :=
  '(m, r) ← comm_process_out_message (provided p) m message;
  assert_eq expected r;; Return m.

Definition assert_process_in (p : MockProvider) (m : Comm) (message : InMsg)
    (expected : result PalError (option InMsg)) : outcome Comm :=
  '(m, r) ← comm_process_in_message (provided p) m message;
  assert_eq expected r;; Return m.

Definition assert_take_out (m : Comm) (expected : list OutMsg) : outcome Comm :=
  '(m, messages) ← comm_take_out_messages m;
  assert_eq (map (λ x, {| out_msg := Some x |}) expected) messages;; Return m.

(** The end of a test: the sessions that are still held have met their expectations. *)
Definition comm_done (m : Comm) : unit_test :=
  assert (forallb (λ e,
    match cs_handshake_session e.2 with
    | Some s => match after_is_completed (mhs_script s) with [] => true | _ => false end
    | None => true
    end) (map_to_list (cm_replicas m))).

Definition test_process_out_message : unit_test :=
  let self_replica_id := 11111 in
  let peer_replica_id_a := 88888 in
  let peer_replica_id_b := 99999 in
  let handshake_message_a := create_secure_channel_handshake self_replica_id peer_replica_id_a in
  let handshake_message_b := create_secure_channel_handshake self_replica_id peer_replica_id_b in
  let p := [((self_replica_id, peer_replica_id_a, Initiator),
             mock_session [ExpectTakeOutMessage (Ok (Some handshake_message_a))] None);
            ((self_replica_id, peer_replica_id_b, Initiator),
             mock_session [ExpectTakeOutMessage (Ok (Some handshake_message_b))] None)] in
  let m := comm_new in
  m ← assert_process_out p m
    (OutDeliverSystemMessage (create_system_message self_replica_id peer_replica_id_a))
    (Err PalInvalidOperation);
  let m := comm_init m self_replica_id None in
  m ← assert_process_out p m
    (OutDeliverSystemMessage (create_system_message self_replica_id peer_replica_id_a)) (Ok ());
  m ← assert_process_out p m
    (OutDeliverSnapshotRequest (create_snapshot_request self_replica_id peer_replica_id_a)) (Ok ());
  m ← assert_process_out p m
    (OutDeliverSnapshotResponse (create_snapshot_response self_replica_id peer_replica_id_a)) (Ok ());
  m ← assert_process_out p m
    (OutDeliverSystemMessage (create_system_message self_replica_id peer_replica_id_b)) (Ok ());
  m ← assert_process_out p m create_unsupported_out_message (Err PalInvalidOperation);
  m ← assert_take_out m
    [OutSecureChannelHandshake handshake_message_a; OutSecureChannelHandshake handshake_message_b];
  comm_done m.

Definition test_process_in_message : unit_test :=
  let peer_replica_id_a := 11111 in
  let peer_replica_id_b := 22222 in
  let self_replica_id := 88888 in
  let handshake_message_a := create_secure_channel_handshake peer_replica_id_a self_replica_id in
  let handshake_message_b := create_secure_channel_handshake peer_replica_id_b self_replica_id in
  let system contents :=
    create_system_message_with_contents peer_replica_id_a self_replica_id (b_str contents) in
  let snapshot_request contents :=
    create_snapshot_request_with_contents peer_replica_id_a self_replica_id (b_str contents) in
  let snapshot_response contents :=
    create_snapshot_response_with_contents peer_replica_id_a self_replica_id (b_str contents) in
  let mock_encryptor :=
    expect_decrypt (b_str "snapshot_resp_ciphertext") (Ok (b_str "snapshot_resp_plaintext"))
      (expect_decrypt (b_str "snapshot_req_ciphertext") (Ok (b_str "snapshot_req_plaintext"))
        (expect_decrypt (b_str "sys_msg_ciphertext") (Ok (b_str "sys_msg_plaintext"))
          mock_encryptor_new)) in
  let session handshake_message encryptor :=
    mock_session [ExpectProcessMessage handshake_message (Ok ());
                  ExpectTakeOutMessage (Ok (Some handshake_message)); ExpectIsCompleted true]
      (Some encryptor) in
  let p := [((self_replica_id, peer_replica_id_a, Recipient), session handshake_message_a mock_encryptor);
            ((self_replica_id, peer_replica_id_b, Recipient),
             session handshake_message_b mock_encryptor_new)] in
  let m := comm_new in
  m ← assert_process_in p m
    (InDeliverSystemMessage (create_system_message peer_replica_id_a self_replica_id))
    (Err PalInvalidOperation);
  let m := comm_init m self_replica_id None in
  m ← assert_process_in p m (InSecureChannelHandshake handshake_message_a) (Ok None);
  m ← assert_process_in p m (InDeliverSystemMessage (system "sys_msg_ciphertext"))
        (Ok (Some (InDeliverSystemMessage (system "sys_msg_plaintext"))));
  m ← assert_process_in p m (InDeliverSnapshotRequest (snapshot_request "snapshot_req_ciphertext"))
        (Ok (Some (InDeliverSnapshotRequest (snapshot_request "snapshot_req_plaintext"))));
  m ← assert_process_in p m (InDeliverSnapshotResponse (snapshot_response "snapshot_resp_ciphertext"))
        (Ok (Some (InDeliverSnapshotResponse (snapshot_response "snapshot_resp_plaintext"))));
  m ← assert_process_in p m (InSecureChannelHandshake handshake_message_b) (Ok None);
  m ← assert_process_in p m create_unsupported_in_message (Err PalInvalidOperation);
  m ← assert_take_out m
    [OutSecureChannelHandshake handshake_message_a; OutSecureChannelHandshake handshake_message_b];
  comm_done m.

(** ** Two modules *)

Definition peer_replica_id_a : Z := 11111.
Definition peer_replica_id_b : Z := 22222.

Definition handshake_message_a_to_b : SecureChannelHandshake :=
  create_secure_channel_handshake peer_replica_id_a peer_replica_id_b.
Definition handshake_message_b_to_a : SecureChannelHandshake :=
  create_secure_channel_handshake peer_replica_id_b peer_replica_id_a.

Definition system_a_to_b (contents : string) : DeliverSystemMessage :=
  create_system_message_with_contents peer_replica_id_a peer_replica_id_b (b_str contents).
Definition snapshot_request_a_to_b (contents : string) : DeliverSnapshotRequest :=
  create_snapshot_request_with_contents peer_replica_id_a peer_replica_id_b (b_str contents).

(** The encryptors of both ends. *)
Definition mock_encryptor_a : MockEncryptor :=
  expect_encrypt (b_str "snapshot_req_plaintext") (Ok (b_str "snapshot_req_ciphertext"))
    (expect_encrypt (b_str "sys_msg_plaintext") (Ok (b_str "sys_msg_ciphertext")) mock_encryptor_new).

Definition mock_encryptor_b : MockEncryptor :=
  expect_decrypt (b_str "sys_msg_ciphertext") (Ok (b_str "sys_msg_plaintext")) mock_encryptor_new.

(** The end of both tests: the stashed message and a later one leave [a] encrypted, and [b]
    decrypts the first. *)
Definition after_mutual_handshake (p_a p_b : MockProvider) (a b : Comm) : unit_test :=
  a ← assert_process_out p_a a
    (OutDeliverSnapshotRequest (snapshot_request_a_to_b "snapshot_req_plaintext")) (Ok ());
  a ← assert_take_out a
    [OutDeliverSystemMessage (system_a_to_b "sys_msg_ciphertext");
     OutDeliverSnapshotRequest (snapshot_request_a_to_b "snapshot_req_ciphertext")];
  b ← assert_process_in p_b b (InDeliverSystemMessage (system_a_to_b "sys_msg_ciphertext"))
    (Ok (Some (InDeliverSystemMessage (system_a_to_b "sys_msg_plaintext"))));
  comm_done a;; comm_done b.

Definition test_mutual_handshake_single_roundtrip_success : unit_test :=
  let p_a := [((peer_replica_id_a, peer_replica_id_b, Initiator),
    mock_session
      [ExpectTakeOutMessage (Ok (Some handshake_message_a_to_b));
       ExpectProcessMessage handshake_message_b_to_a (Ok ()); ExpectTakeOutMessage (Ok None);
       ExpectIsCompleted true] (Some mock_encryptor_a))] in
  let p_b := [((peer_replica_id_b, peer_replica_id_a, Recipient),
    mock_session
      [ExpectProcessMessage handshake_message_a_to_b (Ok ());
       ExpectTakeOutMessage (Ok (Some handshake_message_b_to_a)); ExpectIsCompleted true]
      (Some mock_encryptor_b))] in
  let a := comm_init comm_new peer_replica_id_a None in
  let b := comm_init comm_new peer_replica_id_b None in
  a ← assert_process_out p_a a (OutDeliverSystemMessage (system_a_to_b "sys_msg_plaintext")) (Ok ());
  a ← assert_take_out a [OutSecureChannelHandshake handshake_message_a_to_b];
  a ← assert_take_out a [];
  b ← assert_process_in p_b b (InSecureChannelHandshake handshake_message_a_to_b) (Ok None);
  b ← assert_take_out b [OutSecureChannelHandshake handshake_message_b_to_a];
  a ← assert_process_in p_a a (InSecureChannelHandshake handshake_message_b_to_a) (Ok None);
  after_mutual_handshake p_a p_b a b.

Definition test_mutual_handshake_multiple_roundtrips_success : unit_test :=
  let p_a := [((peer_replica_id_a, peer_replica_id_b, Initiator),
    mock_session
      [ExpectTakeOutMessage (Ok (Some handshake_message_a_to_b));
       ExpectProcessMessage handshake_message_b_to_a (Ok ());
       ExpectTakeOutMessage (Ok (Some handshake_message_a_to_b)); ExpectIsCompleted false;
       ExpectProcessMessage handshake_message_b_to_a (Ok ()); ExpectTakeOutMessage (Ok None);
       ExpectIsCompleted true] (Some mock_encryptor_a))] in
  let p_b := [((peer_replica_id_b, peer_replica_id_a, Recipient),
    mock_session
      [ExpectProcessMessage handshake_message_a_to_b (Ok ());
       ExpectTakeOutMessage (Ok (Some handshake_message_b_to_a)); ExpectIsCompleted false;
       ExpectProcessMessage handshake_message_a_to_b (Ok ());
       ExpectTakeOutMessage (Ok (Some handshake_message_b_to_a)); ExpectIsCompleted true]
      (Some mock_encryptor_b))] in
  let a := comm_init comm_new peer_replica_id_a None in
  let b := comm_init comm_new peer_replica_id_b None in
  a ← assert_process_out p_a a (OutDeliverSystemMessage (system_a_to_b "sys_msg_plaintext")) (Ok ());
  a ← assert_take_out a [OutSecureChannelHandshake handshake_message_a_to_b];
  b ← assert_process_in p_b b (InSecureChannelHandshake handshake_message_a_to_b) (Ok None);
  b ← assert_take_out b [OutSecureChannelHandshake handshake_message_b_to_a];
  a ← assert_process_in p_a a (InSecureChannelHandshake handshake_message_b_to_a) (Ok None);
  a ← assert_take_out a [OutSecureChannelHandshake handshake_message_a_to_b];
  b ← assert_process_in p_b b (InSecureChannelHandshake handshake_message_a_to_b) (Ok None);
  b ← assert_take_out b [OutSecureChannelHandshake handshake_message_b_to_a];
  a ← assert_process_in p_a a (InSecureChannelHandshake handshake_message_b_to_a) (Ok None);
  after_mutual_handshake p_a p_b a b.

Definition test_invalid_handshake_message_fails : unit_test :=
  let p_a := [((peer_replica_id_a, peer_replica_id_b, Initiator),
    mock_session [ExpectTakeOutMessage (Ok (Some handshake_message_a_to_b))] None)] in
  let p_b := [((peer_replica_id_b, peer_replica_id_a, Recipient), mock_session [] None)] in
  let a_to_b := create_system_message peer_replica_id_a peer_replica_id_b in
  let b_to_a := create_system_message peer_replica_id_b peer_replica_id_a in
  let a := comm_init comm_new peer_replica_id_a None in
  let b := comm_init comm_new peer_replica_id_b None in
  a ← assert_process_out p_a a (OutDeliverSystemMessage a_to_b) (Ok ());
  b ← assert_process_in p_b b (InDeliverSystemMessage a_to_b) (Ok None);
  a ← assert_process_in p_a a (InDeliverSystemMessage b_to_a) (Ok None);
  a ← assert_process_in p_a a (InDeliverSystemMessage b_to_a) (Ok None);
  b ← assert_process_in p_b b (InDeliverSystemMessage a_to_b) (Ok None);
  a ← assert_process_out p_a a (OutDeliverSystemMessage a_to_b) (Ok ());
  b ← assert_process_out p_b b (OutDeliverSystemMessage b_to_a) (Ok ());
  comm_done a;; comm_done b.

(** The second session of a test with two of them. *)
Definition completing_session (encryptor : MockEncryptor) : MockHandshakeSession :=
  mock_session
    [ExpectTakeOutMessage (Ok (Some handshake_message_a_to_b));
     ExpectProcessMessage handshake_message_b_to_a (Ok ()); ExpectTakeOutMessage (Ok None);
     ExpectIsCompleted true] (Some encryptor).

(** An encryptor that returns what it is given. *)
Definition identity_encryptor (contents : list string) : MockEncryptor :=
  foldl (λ e c, expect_encrypt (b_str c) (Ok (b_str c)) e) mock_encryptor_new contents.

Definition test_process_cluster_change : unit_test :=
  let deliver_system_message := system_a_to_b "foo" in
  let expect_get s := [((peer_replica_id_a, peer_replica_id_b, Initiator), s)] in
  let p1 := expect_get
    (mock_session [ExpectTakeOutMessage (Ok (Some handshake_message_a_to_b))] None) in
  let p2 := expect_get (completing_session (identity_encryptor ["foo"])) in
  let m := comm_init comm_new peer_replica_id_a None in
  m ← assert_process_out p1 m (OutDeliverSystemMessage deliver_system_message) (Ok ());
  m ← assert_take_out m [OutSecureChannelHandshake handshake_message_a_to_b];
  let m := comm_process_cluster_change m [peer_replica_id_a] in
  m ← assert_process_out p2 m (OutDeliverSystemMessage deliver_system_message) (Ok ());
  m ← assert_take_out m [OutSecureChannelHandshake handshake_message_a_to_b];
  m ← assert_process_in [] m (InSecureChannelHandshake handshake_message_b_to_a) (Ok None);
  m ← assert_take_out m [OutDeliverSystemMessage deliver_system_message];
  comm_done m.

Definition test_handshake_retry : unit_test :=
  let config := Some {| handshake_retry_tick := 2 |} in
  let expect_get s := [((peer_replica_id_a, peer_replica_id_b, Initiator), s)] in
  let p1 := expect_get
    (mock_session
      [ExpectTakeOutMessage (Ok (Some handshake_message_a_to_b));
       ExpectProcessMessage handshake_message_b_to_a (Err "Error")] None) in
  let p2 := expect_get (completing_session (identity_encryptor ["foo"; "bar"; "baz"])) in
  let m := comm_init comm_new peer_replica_id_a config in
  m ← assert_process_out p1 m (OutDeliverSystemMessage (system_a_to_b "foo")) (Ok ());
  m ← assert_take_out m [OutSecureChannelHandshake handshake_message_a_to_b];
  m ← assert_process_in [] m (InSecureChannelHandshake handshake_message_b_to_a) (Ok None);
  m ← assert_process_out [] m (OutDeliverSystemMessage (system_a_to_b "bar")) (Ok ());
  m ← assert_take_out m [];
  let m := comm_make_tick (comm_make_tick m) in
  m ← assert_process_out p2 m (OutDeliverSystemMessage (system_a_to_b "baz")) (Ok ());
  m ← assert_take_out m [OutSecureChannelHandshake handshake_message_a_to_b];
  m ← assert_process_in [] m (InSecureChannelHandshake handshake_message_b_to_a) (Ok None);
  m ← assert_take_out m
    [OutDeliverSystemMessage (system_a_to_b "foo"); OutDeliverSystemMessage (system_a_to_b "bar");
     OutDeliverSystemMessage (system_a_to_b "baz")];
  comm_done m.

Definition communication_tests : list unit_test :=
  [test_process_out_message; test_process_in_message;
   test_mutual_handshake_single_roundtrip_success;
   test_mutual_handshake_multiple_roundtrips_success; test_invalid_handshake_message_fails;
   test_process_cluster_change; test_handshake_retry].

Lemma communication_tests_pass : Forall (λ t, t = Return ()) communication_tests.
Proof. apply tests_pass_spec. vm_compute. reflexivity. Qed.
