(* ===== verification/DriverTests.v ===== *)
(** * The unit tests of the driver

    The tests of [src/runtime/src/driver.rs] on the model of [Driver]: the driver with mocks of
    Raft, its store, the sender and the receiver of snapshots, the communication module, the
    actor and the host. *)

From S2P Require Import Prelude RaftTypes Storage Endpoint F64 Snapshot Handshake Communication.
From S2P Require Import Model Consensus Driver Testing TestMessages Mocks.

#[local] Existing Instance test_oak_session.
#[local] Instance driver_message_codec : ProtoCodec RaftMessage := countable_codec _.
#[local] Instance driver_change_codec : ProtoCodec RaftConfigChange := countable_codec _.
#[local] Instance driver_entry_codec : ProtoCodec Entry := countable_codec _.

#[local] Abbreviation REPLICA_1 := 1.
#[local] Abbreviation REPLICA_2 := 2.
#[local] Abbreviation REPLICA_3 := 3.
#[local] Abbreviation DELIVERY_1 := 1.
#[local] Abbreviation DELIVERY_2 := 2.

(** The types of the messages of the Raft library that the tests use. *)
#[local] Abbreviation MsgBeat := (MsgOther 1).
#[local] Abbreviation MsgAppend := (MsgOther 3).

Definition create_default_parameters : Z * Z * RaftConfig :=
  (REPLICA_1, 100,
   {| rc_tick_period := 100; rc_election_tick := 20; rc_heartbeat_tick := 2;
      rc_max_size_per_msg := 0;
      rc_snapshot_config :=
        Some {| cfg_snapshot_count := 10; cfg_chunk_size := 20; cfg_max_pending_chunks := 2 |};
      rc_handshake_retry_tick := 1 |}).

Definition create_raft_state (leader_replica_id : Z) (committed_cluster_config : list Z)
    : RaftState :=
  {| rst_leader_replica_id := leader_replica_id; rst_leader_term := 1;
     rst_committed_cluster_config := committed_cluster_config; rst_has_pending_change := false |}.

Definition create_default_raft_state (node_id : Z) : RaftState :=
  {| rst_leader_replica_id := node_id; rst_leader_term := 1;
     rst_committed_cluster_config := [node_id]; rst_has_pending_change := false |}.

(** ** Messages *)

Definition create_start_replica_request (raft_config : RaftConfig) (leader : bool)
    (replica_id_hint : Z) (app_config : bytes) : InMsg :=
  InStartReplica
    {| srr_is_leader := leader; srr_replica_id_hint := replica_id_hint;
       srr_raft_config := Some raft_config; srr_app_config := app_config;
       srr_attestation_config := None; srr_is_ephemeral := false |}.

Definition create_start_replica_response (replica_id : Z) : OutMsg := OutStartReplica replica_id.

Definition create_stop_replica_request : InMsg := InStopReplica.

Definition create_stop_replica_response : OutMsg := OutStopReplica.

Definition create_in_deliver_app_message (correlation_id : Z) (message_header : bytes) : InMsg :=
  InDeliverAppMessage
    {| app_correlation_id := correlation_id; app_message_header := message_header;
       app_message_payload := [] |}.

Definition create_out_deliver_app_message (correlation_id : Z) (message_header : bytes) : OutMsg :=
  OutDeliverAppMessage
    {| app_correlation_id := correlation_id; app_message_header := message_header;
       app_message_payload := [] |}.

Definition create_change_cluster_request (replica_id change_type : Z) : InMsg :=
  InChangeCluster
    {| ccr_change_id := 1; ccr_replica_id := replica_id; ccr_change_type := change_type |}.

Definition create_change_cluster_response (change_status : Z) : OutMsg :=
  OutChangeCluster {| ccs_change_id := 1; ccs_change_status := change_status |}.

Definition create_check_cluster_request : InMsg := InCheckCluster.

Definition create_check_cluster_response (raft_state : RaftState) : OutMsg :=
  OutCheckCluster
    {| chk_leader_replica_id := rst_leader_replica_id raft_state;
       chk_leader_term := rst_leader_term raft_state;
       chk_cluster_replica_ids := rst_committed_cluster_config raft_state;
       chk_has_pending_changes := rst_has_pending_change raft_state |}.

Definition create_get_replica_state_request : InMsg := InGetReplicaState.

Definition create_get_replica_state_response (applied_index snapshot_size : Z) : OutMsg :=
  OutGetReplicaState
    {| grs_applied_index := applied_index; grs_latest_snapshot_size := snapshot_size |}.

Definition driver_secure_channel_handshake (sender_replica_id recipient_replica_id : Z)
    : SecureChannelHandshake :=
  {| sch_recipient_replica_id := recipient_replica_id;
     sch_sender_replica_id := sender_replica_id; sch_encryption := None |}.

Definition create_deliver_system_message_request (raft_message : RaftMessage) : InMsg :=
  InDeliverSystemMessage
    {| dsm_recipient_replica_id := rm_to raft_message;
       dsm_sender_replica_id := rm_from raft_message;
       dsm_message_contents := proto_encode raft_message |}.

Definition create_deliver_system_message_response (raft_message : RaftMessage) : OutMsg :=
  OutDeliverSystemMessage
    {| dsm_recipient_replica_id := rm_to raft_message;
       dsm_sender_replica_id := rm_from raft_message;
       dsm_message_contents := proto_encode raft_message |}.

(** The messages that a test expects, in any order, beside log lines; an empty envelope makes
    the test fail. *)
Definition create_send_messages_matcher (expected : list OutMsg) (envelopes : list OutMessage)
    : bool :=
  let actual :=
    List.filter (λ m, match m with OutLog _ => false | _ => true end) (omap out_msg envelopes) in
  forallb (λ e, bool_decide (is_Some (out_msg e))) envelopes &&
  forallb (λ e, bool_decide (e ∈ actual)) expected &&
  (length expected =? length actual)%nat.

Definition driver_snapshot_request (recipient_id sender_id delivery_id : Z)
    : DeliverSnapshotRequest :=
  {| req_recipient_replica_id := recipient_id; req_sender_replica_id := sender_id;
     req_delivery_id := delivery_id;
     req_payload_contents := [Byte.x04; Byte.x05; Byte.x06; Byte.x07; Byte.x08; Byte.x09] |}.

Definition driver_snapshot_response (recipient_id sender_id delivery_id : Z)
    : DeliverSnapshotResponse :=
  {| resp_recipient_replica_id := recipient_id; resp_sender_replica_id := sender_id;
     resp_delivery_id := delivery_id;
     resp_payload_contents := [Byte.x06; Byte.x07; Byte.x08; Byte.x09] |}.

Definition create_deliver_snapshot_failure (sender_id delivery_id : Z) : DeliverSnapshotFailure :=
  {| fail_sender_replica_id := sender_id; fail_delivery_id := delivery_id |}.

Definition wrap_deliver_snapshot_request_out (request : DeliverSnapshotRequest) : OutMsg :=
  OutDeliverSnapshotRequest request.

Definition wrap_deliver_snapshot_request_in (request : DeliverSnapshotRequest) : InMsg :=
  InDeliverSnapshotRequest request.

Definition wrap_deliver_snapshot_response_out (response : DeliverSnapshotResponse) : OutMsg :=
  OutDeliverSnapshotResponse response.

Definition wrap_deliver_snapshot_response_in (response : DeliverSnapshotResponse) : InMsg :=
  InDeliverSnapshotResponse response.

Definition wrap_deliver_snapshot_failure_in (failure : DeliverSnapshotFailure) : InMsg :=
  InDeliverSnapshotFailure failure.

(** ** The host *)

Definition MockHost : Type := Mock (λ _ : list OutMessage, unit).

Definition expect_send_messages (sent_messages : list OutMsg) (m : MockHost) : MockHost :=
  mock_expect m AnyTimes (λ envelopes,
    if create_send_messages_matcher sent_messages envelopes then Some (Return ()) else None).

(** ** Raft and its store *)

Inductive StoreCall :=
| CallSetHardState (state : RaftHardState)
| CallAppendEntries (entries : list RaftEntry)
| CallApplySnapshot (snapshot : RaftSnapshot)
| CallShouldSnapshot (applied_index : Z) (config_state : RaftConfigState)
| CallCreateSnapshot (applied_index : Z) (config_state : RaftConfigState) (data : bytes)
| CallLatestSnapshotSize.

Definition mock_store_answer (c : StoreCall) : Type :=
  match c with
  | CallSetHardState _ => unit
  | CallAppendEntries _ | CallApplySnapshot _ | CallCreateSnapshot _ _ _ => result RaftError unit
  | CallShouldSnapshot _ _ => bool
  | CallLatestSnapshotSize => Z
  end.

Definition MockStore : Type := Mock mock_store_answer.

#[local] Instance MockStore_Store : Store MockStore :=
  {| store_set_hard_state m state := (mock_total m (CallSetHardState state) tt).1;
     store_append_entries m entries := mock_call m (CallAppendEntries entries);
     store_apply_snapshot m snapshot := mock_call m (CallApplySnapshot snapshot);
     store_should_snapshot m applied_index config_state :=
       mock_peek m (CallShouldSnapshot applied_index config_state);
     store_create_snapshot m applied_index config_state data :=
       mock_call m (CallCreateSnapshot applied_index config_state data);
     store_latest_snapshot_size m :=
       match mock_peek m CallLatestSnapshotSize with Return size => size | Panic => -1 end |}.

Inductive RaftCall :=
| CallInitialized
| CallState
| CallLeader
| CallRaftInit (node_id : Z) (config : RaftLibConfig) (snapshot : bytes) (leader : bool)
| CallMakeStep (message : RaftMessage)
| CallMakeProposal (proposal : bytes)
| CallMakeConfigChangeProposal (config_change : RaftConfigChange)
| CallRaftTick
| CallApplyConfigChange (config_change : RaftConfigChange)
| CallHasReady
| CallGetReady
| CallAdvanceReady (ready : RaftReady)
| CallAdvanceApply
| CallReportSnapshot (replica_id : Z) (status : RaftSnapshotStatus).

Definition raft_answer (c : RaftCall) : Type :=
  match c with
  | CallInitialized | CallLeader | CallHasReady => bool
  | CallState => RaftState
  | CallRaftInit _ _ _ _ | CallMakeStep _ | CallMakeProposal _
  | CallMakeConfigChangeProposal _ => result RaftError unit
  | CallApplyConfigChange _ => result RaftError RaftConfigState
  | CallGetReady => RaftReady
  | CallAdvanceReady _ => RaftLightReady
  | CallRaftTick | CallAdvanceApply | CallReportSnapshot _ _ => unit
  end.

(** The store is handed out by the mocked Raft. *)
Record MockRaft := { mraft_calls : Mock raft_answer; mraft_store : MockStore }.

Definition raft_builder : MockRaft := {| mraft_calls := mock_new; mraft_store := mock_new |}.

Definition on_mock (r : MockRaft) (c : RaftCall) : outcome (MockRaft * raft_answer c) :=
  '(m, a) ← mock_call (mraft_calls r) c;
  Return ({| mraft_calls := m; mraft_store := mraft_store r |}, a).

Definition on_mock_ (r : MockRaft) (c : RaftCall) : outcome MockRaft :=
  '(r, _) ← on_mock r c; Return r.

(** Whether Raft is initialised or leads, when the test says so. *)
Definition peek_flag (r : MockRaft) (c : RaftCall) (flag : raft_answer c → bool) : bool :=
  match mock_peek (mraft_calls r) c with Return a => flag a | Panic => false end.

(** [state] and [has_ready] only read: their calls are counted where the next call of them is
    prepared, the one of [has_ready] at the end of a call of the driver, and the one of [state]
    there and with the next ready. *)
#[local] Instance MockRaft_Raft : Raft MockRaft MockStore :=
  {| raft_initialized r := peek_flag r CallInitialized (λ b, b);
     raft_leader r := peek_flag r CallLeader (λ b, b);
     raft_state r := mock_peek (mraft_calls r) CallState;
     raft_store r := Return (mraft_store r);
     raft_set_store r store := Return {| mraft_calls := mraft_calls r; mraft_store := store |};
     raft_init r node_id config snapshot leader _ :=
       on_mock r (CallRaftInit node_id config snapshot leader);
     raft_make_step r message := on_mock r (CallMakeStep message);
     raft_make_proposal r proposal := on_mock r (CallMakeProposal proposal);
     raft_make_config_change_proposal r change := on_mock r (CallMakeConfigChangeProposal change);
     raft_make_tick r := on_mock_ r CallRaftTick;
     raft_apply_config_change r change := on_mock r (CallApplyConfigChange change);
     raft_has_ready r := mock_peek (mraft_calls r) CallHasReady;
     raft_get_ready r := r ← on_mock_ r CallState; on_mock r CallGetReady;
     raft_advance_ready r ready := on_mock r (CallAdvanceReady ready);
     raft_advance_apply r := on_mock_ r CallAdvanceApply;
     raft_report_snapshot r replica_id status :=
       on_mock_ r (CallReportSnapshot replica_id status) |}.

(** Counts the calls that were only read. *)
Definition settle_raft (r : MockRaft) : outcome MockRaft :=
  if raft_initialized r then r ← on_mock_ r CallHasReady; on_mock_ r CallState else Return r.

Definition expect_raft (r : MockRaft) (times : Times)
    (f : ∀ c : RaftCall, option (outcome (raft_answer c))) : MockRaft :=
  {| mraft_calls := mock_expect (mraft_calls r) times f; mraft_store := mraft_store r |}.

Definition expect_store (r : MockRaft) (times : Times)
    (f : ∀ c : StoreCall, option (outcome (mock_store_answer c))) : MockRaft :=
  {| mraft_calls := mraft_calls r; mraft_store := mock_expect (mraft_store r) times f |}.

Definition expect_leader (leader : bool) (r : MockRaft) : MockRaft :=
  expect_raft r AnyTimes (λ c,
    match c as c return option (outcome (raft_answer c)) with
    | CallLeader => Some (Return leader)
    | _ => None
    end).

Definition expect_raft_init
    (handler : Z → RaftLibConfig → bytes → bool → outcome (result RaftError unit))
    (r : MockRaft) : MockRaft :=
  let r := expect_raft r ReturnOnce (λ c,
    match c as c return option (outcome (raft_answer c)) with
    | CallRaftInit node_id config snapshot leader => Some (handler node_id config snapshot leader)
    | _ => None
    end) in
  expect_raft r AnyTimes (λ c,
    match c as c return option (outcome (raft_answer c)) with
    | CallInitialized => Some (Return true)
    | _ => None
    end).

Definition expect_should_snapshot (should_snapshot : bool) (r : MockRaft) : MockRaft :=
  expect_store r AnyTimes (λ c,
    match c as c return option (outcome (mock_store_answer c)) with
    | CallShouldSnapshot _ _ => Some (Return should_snapshot)
    | _ => None
    end).

Definition expect_latest_snapshot_size (latest_snapshot_size : Z) (r : MockRaft) : MockRaft :=
  expect_store r AnyTimes (λ c,
    match c as c return option (outcome (mock_store_answer c)) with
    | CallLatestSnapshotSize => Some (Return latest_snapshot_size)
    | _ => None
    end).

Definition expect_apply_snapshot (snapshot : RaftSnapshot) (res : result RaftError unit)
    (r : MockRaft) : MockRaft :=
  expect_store r ReturnOnce (λ c,
    match c as c return option (outcome (mock_store_answer c)) with
    | CallApplySnapshot s => if decide (s = snapshot) then Some (Return res) else None
    | _ => None
    end).

Definition expect_append_entries (entries : list RaftEntry) (res : result RaftError unit)
    (r : MockRaft) : MockRaft :=
  expect_store r ReturnOnce (λ c,
    match c as c return option (outcome (mock_store_answer c)) with
    | CallAppendEntries es => if decide (es = entries) then Some (Return res) else None
    | _ => None
    end).

Definition expect_create_snapshot (applied_index : Z) (config_state : RaftConfigState)
    (snapshot_data : bytes) (res : result RaftError unit) (r : MockRaft) : MockRaft :=
  expect_store r ReturnOnce (λ c,
    match c as c return option (outcome (mock_store_answer c)) with
    | CallCreateSnapshot i s d =>
        if decide ((i, s, d) = (applied_index, config_state, snapshot_data))
        then Some (Return res) else None
    | _ => None
    end).

Definition expect_raft_tick (r : MockRaft) : MockRaft :=
  expect_raft r Once (λ c,
    match c as c return option (outcome (raft_answer c)) with
    | CallRaftTick => Some (Return ())
    | _ => None
    end).

Definition expect_make_step (raft_message : RaftMessage) (res : result RaftError unit)
    (r : MockRaft) : MockRaft :=
  expect_raft r ReturnOnce (λ c,
    match c as c return option (outcome (raft_answer c)) with
    | CallMakeStep m => if decide (m = raft_message) then Some (Return res) else None
    | _ => None
    end).

Definition expect_has_ready (has_ready : bool) (r : MockRaft) : MockRaft :=
  expect_raft r Once (λ c,
    match c as c return option (outcome (raft_answer c)) with
    | CallHasReady => Some (Return has_ready)
    | _ => None
    end).

Definition expect_state (raft_state : RaftState) (r : MockRaft) : MockRaft :=
  expect_raft r AnyTimes (λ c,
    match c as c return option (outcome (raft_answer c)) with
    | CallState => Some (Return raft_state)
    | _ => None
    end).

Definition expect_state_once (raft_state : RaftState) (r : MockRaft) : MockRaft :=
  expect_raft r Once (λ c,
    match c as c return option (outcome (raft_answer c)) with
    | CallState => Some (Return raft_state)
    | _ => None
    end).

Definition expect_make_proposal (proposal : Entry) (res : result RaftError unit) (r : MockRaft)
    : MockRaft :=
  expect_raft r AnyTimes (λ c,
    match c as c return option (outcome (raft_answer c)) with
    | CallMakeProposal p => if decide (p = proto_encode proposal) then Some (Return res) else None
    | _ => None
    end).

Definition expect_make_config_change_proposal (config_change : RaftConfigChange)
    (res : result RaftError unit) (r : MockRaft) : MockRaft :=
  expect_raft r AnyTimes (λ c,
    match c as c return option (outcome (raft_answer c)) with
    | CallMakeConfigChangeProposal change =>
        if decide (change = config_change) then Some (Return res) else None
    | _ => None
    end).

Definition expect_ready (ready : RaftReady) (r : MockRaft) : MockRaft :=
  expect_raft r Once (λ c,
    match c as c return option (outcome (raft_answer c)) with
    | CallGetReady => Some (Return ready)
    | _ => None
    end).

Definition expect_apply_config_change (config_change : RaftConfigChange)
    (res : result RaftError RaftConfigState) (r : MockRaft) : MockRaft :=
  expect_raft r Once (λ c,
    match c as c return option (outcome (raft_answer c)) with
    | CallApplyConfigChange change =>
        if decide (change = config_change) then Some (Return res) else None
    | _ => None
    end).

Definition expect_advance_ready (ready_number : Z) (light_ready : RaftLightReady) (r : MockRaft)
    : MockRaft :=
  expect_raft r AnyTimes (λ c,
    match c as c return option (outcome (raft_answer c)) with
    | CallAdvanceReady ready =>
        if decide (rr_number ready = ready_number) then Some (Return light_ready) else None
    | _ => None
    end).

Definition expect_advance_apply (r : MockRaft) : MockRaft :=
  expect_raft r AnyTimes (λ c,
    match c as c return option (outcome (raft_answer c)) with
    | CallAdvanceApply => Some (Return ())
    | _ => None
    end).

Definition expect_report_snapshot (replica_id : Z) (status : RaftSnapshotStatus) (r : MockRaft)
    : MockRaft :=
  expect_raft r Once (λ c,
    match c as c return option (outcome (raft_answer c)) with
    | CallReportSnapshot id s =>
        if decide ((id, s) = (replica_id, status)) then Some (Return ()) else None
    | _ => None
    end).

(** ** The sender and the receiver of snapshots *)

Inductive SenderCall :=
| CallSenderInit (replica_id : Z) (config : option SnapshotConfig)
| CallSenderSetInstant (instant : Z)
| CallSenderReset
| CallSenderStart (receiver_id : Z) (snapshot : RaftSnapshot)
| CallNextRequest
| CallProcessResponse (sender_id delivery_id : Z)
    (response : result SnapshotError DeliverSnapshotResponse)
| CallUnexpectedRequest (request : DeliverSnapshotRequest)
| CallSenderTryComplete.

Definition sender_answer (c : SenderCall) : Type :=
  match c with
  | CallNextRequest => option DeliverSnapshotRequest
  | CallUnexpectedRequest _ => DeliverSnapshotResponse
  | CallSenderTryComplete => option (Z * RaftSnapshotStatus)
  | _ => unit
  end.

Inductive ReceiverCall :=
| CallReceiverInit (replica_id : Z)
| CallReceiverSetInstant (instant : Z)
| CallReceiverReset
| CallProcessRequest (request : DeliverSnapshotRequest)
| CallReceiverTryComplete.

Definition receiver_answer (c : ReceiverCall) : Type :=
  match c with
  | CallProcessRequest _ => DeliverSnapshotResponse
  | CallReceiverTryComplete => option (result SnapshotError (Z * RaftSnapshot))
  | _ => unit
  end.

(** No test of the driver expects a reset of the sender, so it cancels nothing. *)
#[local] Program Instance driver_sender_impl : SnapshotSenderImpl (Mock sender_answer) :=
  {| sender_impl_init m replica_id config := (mock_total m (CallSenderInit replica_id config) tt).1;
     sender_impl_set_instant m instant := (mock_total m (CallSenderSetInstant instant) tt).1;
     sender_impl_reset m := ((mock_total m CallSenderReset tt).1, []);
     sender_transfers m := [] |}.
Next Obligation. intros m. constructor. Qed.
Next Obligation. done. Qed.
Next Obligation. done. Qed.
Next Obligation. done. Qed.

#[local] Instance driver_sender : SnapshotSender (Mock sender_answer) :=
  {| snapshot_start m receiver_id snapshot :=
       '(m, _) ← mock_call m (CallSenderStart receiver_id snapshot); Return m;
     snapshot_next_request m := mock_call m CallNextRequest;
     snapshot_process_response m sender_id delivery_id response :=
       (mock_total m (CallProcessResponse sender_id delivery_id response) tt).1;
     snapshot_process_unexpected_request m request :=
       mock_total m (CallUnexpectedRequest request) (driver_snapshot_response 0 0 0);
     snapshot_sender_try_complete m := mock_total m CallSenderTryComplete None |}.

#[local] Program Instance driver_receiver_impl : SnapshotReceiverImpl (Mock receiver_answer) :=
  {| receiver_impl_init m replica_id := (mock_total m (CallReceiverInit replica_id) tt).1;
     receiver_impl_set_instant m instant := (mock_total m (CallReceiverSetInstant instant) tt).1;
     receiver_impl_reset m := (mock_total m CallReceiverReset tt).1;
     receiver_transfer m := None |}.
Next Obligation. done. Qed.
Next Obligation. done. Qed.

#[local] Instance driver_receiver : SnapshotReceiver (Mock receiver_answer) :=
  {| snapshot_process_request m request := mock_call m (CallProcessRequest request);
     snapshot_receiver_try_complete m := mock_call m CallReceiverTryComplete |}.

Record SnapshotBuilder := {
  mock_snapshot_sender : Mock sender_answer;
  mock_snapshot_receiver : Mock receiver_answer
}.

Definition snapshot_builder : SnapshotBuilder :=
  {| mock_snapshot_sender := mock_new; mock_snapshot_receiver := mock_new |}.

Definition expect_of_sender (b : SnapshotBuilder) (times : Times)
    (f : ∀ c : SenderCall, option (outcome (sender_answer c))) : SnapshotBuilder :=
  {| mock_snapshot_sender := mock_expect (mock_snapshot_sender b) times f;
     mock_snapshot_receiver := mock_snapshot_receiver b |}.

Definition expect_of_receiver (b : SnapshotBuilder) (times : Times)
    (f : ∀ c : ReceiverCall, option (outcome (receiver_answer c))) : SnapshotBuilder :=
  {| mock_snapshot_sender := mock_snapshot_sender b;
     mock_snapshot_receiver := mock_expect (mock_snapshot_receiver b) times f |}.

Definition expect_snapshot_init (replica_id : Z) (b : SnapshotBuilder) : SnapshotBuilder :=
  let '(_, _, raft_config) := create_default_parameters in
  let b := expect_of_sender b AnyTimes (λ c,
    match c as c return option (outcome (sender_answer c)) with
    | CallSenderInit id config =>
        if decide ((id, config) = (replica_id, rc_snapshot_config raft_config))
        then Some (Return ()) else None
    | _ => None
    end) in
  expect_of_receiver b AnyTimes (λ c,
    match c as c return option (outcome (receiver_answer c)) with
    | CallReceiverInit id => if decide (id = replica_id) then Some (Return ()) else None
    | _ => None
    end).

Definition driver_expect_receiver_set_instant (b : SnapshotBuilder) : SnapshotBuilder :=
  expect_of_receiver b AnyTimes (λ c,
    match c as c return option (outcome (receiver_answer c)) with
    | CallReceiverSetInstant _ => Some (Return ())
    | _ => None
    end).

Definition expect_receiver_try_complete (res : option (result SnapshotError (Z * RaftSnapshot)))
    (b : SnapshotBuilder) : SnapshotBuilder :=
  expect_of_receiver b Once (λ c,
    match c as c return option (outcome (receiver_answer c)) with
    | CallReceiverTryComplete => Some (Return res)
    | _ => None
    end).

Definition expect_receiver_process_request (request : DeliverSnapshotRequest)
    (response : DeliverSnapshotResponse) (b : SnapshotBuilder) : SnapshotBuilder :=
  expect_of_receiver b Once (λ c,
    match c as c return option (outcome (receiver_answer c)) with
    | CallProcessRequest r => if decide (r = request) then Some (Return response) else None
    | _ => None
    end).

Definition driver_expect_receiver_reset (b : SnapshotBuilder) : SnapshotBuilder :=
  expect_of_receiver b AnyTimes (λ c,
    match c as c return option (outcome (receiver_answer c)) with
    | CallReceiverReset => Some (Return ())
    | _ => None
    end).

Definition driver_expect_sender_set_instant (b : SnapshotBuilder) : SnapshotBuilder :=
  expect_of_sender b AnyTimes (λ c,
    match c as c return option (outcome (sender_answer c)) with
    | CallSenderSetInstant _ => Some (Return ())
    | _ => None
    end).

Definition expect_sender_process_response (sender_id delivery_id : Z)
    (response : result SnapshotError DeliverSnapshotResponse) (b : SnapshotBuilder)
    : SnapshotBuilder :=
  expect_of_sender b Once (λ c,
    match c as c return option (outcome (sender_answer c)) with
    | CallProcessResponse s d r =>
        if decide ((s, d, r) = (sender_id, delivery_id, response)) then Some (Return ()) else None
    | _ => None
    end).

Definition expect_sender_next_request (request : option DeliverSnapshotRequest)
    (b : SnapshotBuilder) : SnapshotBuilder :=
  expect_of_sender b Once (λ c,
    match c as c return option (outcome (sender_answer c)) with
    | CallNextRequest => Some (Return request)
    | _ => None
    end).

Definition expect_sender_try_complete (res : option (Z * RaftSnapshotStatus))
    (b : SnapshotBuilder) : SnapshotBuilder :=
  expect_of_sender b Once (λ c,
    match c as c return option (outcome (sender_answer c)) with
    | CallSenderTryComplete => Some (Return res)
    | _ => None
    end).

Definition expect_sender_start (recipient_id : Z) (snapshot : RaftSnapshot) (b : SnapshotBuilder)
    : SnapshotBuilder :=
  expect_of_sender b Once (λ c,
    match c as c return option (outcome (sender_answer c)) with
    | CallSenderStart id s =>
        if decide ((id, s) = (recipient_id, snapshot)) then Some (Return ()) else None
    | _ => None
    end).

(** ** The communication module *)

Inductive CommunicationCall :=
| CallCommunicationInit (replica_id : Z) (config : option CommunicationConfig)
| CallProcessOut (message : OutMsg)
| CallProcessIn (message : InMsg)
| CallTakeOut
| CallClusterChange (replicas : list Z)
| CallCommunicationTick.

Definition communication_answer (c : CommunicationCall) : Type :=
  match c with
  | CallCommunicationInit _ _ | CallClusterChange _ | CallCommunicationTick => unit
  | CallProcessOut _ => result PalError unit
  | CallProcessIn _ => result PalError (option InMsg)
  | CallTakeOut => list OutMessage
  end.

Definition MockCommunicationModule : Type := Mock communication_answer.

#[local] Instance MockCommunicationModule_impl : CommunicationModule MockCommunicationModule :=
  {| communication_init m id config := (mock_total m (CallCommunicationInit id config) tt).1;
     communication_process_out m message := mock_call m (CallProcessOut message);
     communication_process_in m message := mock_call m (CallProcessIn message);
     communication_take_out m := mock_call m CallTakeOut;
     communication_cluster_change m replicas := (mock_total m (CallClusterChange replicas) tt).1;
     communication_make_tick m := (mock_total m CallCommunicationTick tt).1 |}.

Definition communication_builder : MockCommunicationModule := mock_new.

Definition expect_communication_init (replica_id : Z) (m : MockCommunicationModule)
    : MockCommunicationModule :=
  mock_expect m Once (λ c,
    match c as c return option (outcome (communication_answer c)) with
    | CallCommunicationInit id _ => if decide (id = replica_id) then Some (Return ()) else None
    | _ => None
    end).

Definition expect_communication_tick (m : MockCommunicationModule) : MockCommunicationModule :=
  mock_expect m Once (λ c,
    match c as c return option (outcome (communication_answer c)) with
    | CallCommunicationTick => Some (Return ())
    | _ => None
    end).

Definition expect_process_out_message (message : OutMsg) (res : result PalError unit)
    (m : MockCommunicationModule) : MockCommunicationModule :=
  mock_expect m ReturnOnce (λ c,
    match c as c return option (outcome (communication_answer c)) with
    | CallProcessOut msg => if decide (msg = message) then Some (Return res) else None
    | _ => None
    end).

Definition expect_process_in_message (message : InMsg) (res : result PalError (option InMsg))
    (m : MockCommunicationModule) : MockCommunicationModule :=
  mock_expect m ReturnOnce (λ c,
    match c as c return option (outcome (communication_answer c)) with
    | CallProcessIn msg => if decide (msg = message) then Some (Return res) else None
    | _ => None
    end).

Definition expect_take_out_messages (messages : list OutMessage) (m : MockCommunicationModule)
    : MockCommunicationModule :=
  mock_expect m Once (λ c,
    match c as c return option (outcome (communication_answer c)) with
    | CallTakeOut => Some (Return messages)
    | _ => None
    end).

Definition expect_process_cluster_change (replicas : list Z) (m : MockCommunicationModule)
    : MockCommunicationModule :=
  mock_expect m Once (λ c,
    match c as c return option (outcome (communication_answer c)) with
    | CallClusterChange ids => if decide (ids = replicas) then Some (Return ()) else None
    | _ => None
    end).

(** ** The actor *)

Inductive ActorCall :=
| CallOnInit (context : ActorContext)
| CallOnShutdown
| CallOnSaveSnapshot
| CallOnLoadSnapshot (snapshot : bytes)
| CallOnProcessCommand (command : option ActorCommand)
| CallOnApplyEvent (context : ActorEventContext) (event : ActorEvent).

Definition actor_answer (c : ActorCall) : Type :=
  match c with
  | CallOnInit _ | CallOnLoadSnapshot _ => result ActorError unit
  | CallOnShutdown => unit
  | CallOnSaveSnapshot => result ActorError bytes
  | CallOnProcessCommand _ => result ActorError CommandOutcome
  | CallOnApplyEvent _ _ => result ActorError EventOutcome
  end.

Definition MockActor : Type := Mock actor_answer.

(** A call of the mock as a method of the actor. *)
Definition exec_call {A} (o : outcome (MockActor * A)) : exec (MockActor * A) :=
  match o with Return x => Returned x | Panic => Panicked end.

#[local] Instance MockActor_Actor : Actor unit MockActor :=
  {| on_init context m := exec_call (mock_call m (CallOnInit context));
     on_shutdown m := (mock_total m CallOnShutdown tt).1;
     on_save_snapshot _ m := exec_call (mock_call m CallOnSaveSnapshot);
     on_load_snapshot _ snapshot m := exec_call (mock_call m (CallOnLoadSnapshot snapshot));
     on_process_command _ _ command m := exec_call (mock_call m (CallOnProcessCommand command));
     on_apply_event _ _ context event m :=
       exec_call (mock_call m (CallOnApplyEvent context event)) |}.

Definition driver_builder : MockActor := mock_new.

Definition expect_on_init (init_handler : ActorContext → outcome (result ActorError unit))
    (m : MockActor) : MockActor :=
  mock_expect m ReturnOnce (λ c,
    match c as c return option (outcome (actor_answer c)) with
    | CallOnInit context => Some (init_handler context)
    | _ => None
    end).

Definition expect_on_shutdown (m : MockActor) : MockActor :=
  mock_expect m Once (λ c,
    match c as c return option (outcome (actor_answer c)) with
    | CallOnShutdown => Some (Return ())
    | _ => None
    end).

Definition expect_on_process_command (command : option ActorCommand)
    (res : result ActorError CommandOutcome) (m : MockActor) : MockActor :=
  mock_expect m AnyTimes (λ c,
    match c as c return option (outcome (actor_answer c)) with
    | CallOnProcessCommand cmd => if decide (cmd = command) then Some (Return res) else None
    | _ => None
    end).

Definition expect_on_load_snapshot (snapshot : bytes) (res : result ActorError unit)
    (m : MockActor) : MockActor :=
  mock_expect m ReturnOnce (λ c,
    match c as c return option (outcome (actor_answer c)) with
    | CallOnLoadSnapshot s => if decide (s = snapshot) then Some (Return res) else None
    | _ => None
    end).

Definition expect_on_save_snapshot (res : result ActorError bytes) (m : MockActor) : MockActor :=
  mock_expect m ReturnOnce (λ c,
    match c as c return option (outcome (actor_answer c)) with
    | CallOnSaveSnapshot => Some (Return res)
    | _ => None
    end).

Definition expect_on_apply_event (context : ActorEventContext) (event : ActorEvent)
    (res : result ActorError EventOutcome) (m : MockActor) : MockActor :=
  mock_expect m ReturnOnce (λ c,
    match c as c return option (outcome (actor_answer c)) with
    | CallOnApplyEvent ctx ev =>
        if decide ((ctx, ev) = (context, event)) then Some (Return res) else None
    | _ => None
    end).

(** ** The driver in a test *)

(** [Snapshot::is_empty] of the Raft library. *)
Definition raft_snapshot_is_empty (s : RaftSnapshot) : bool :=
  match snap_metadata s with
  | Some metadata => bool_decide (md_index metadata = 0)
  | None => true
  end.

#[local] Abbreviation TestDriver :=
  (@Driver test_oak_session MockRaft
     (@DefaultSnapshotProcessor (Mock sender_answer) (Mock receiver_answer))
     MockActor MockCommunicationModule).

(** [DriverBuilder::take] *)
Definition driver_take (raft : MockRaft) (snapshot : SnapshotBuilder)
    (communication : MockCommunicationModule) (actor : MockActor) : TestDriver :=
  driver_new raft
    (processor_new (mock_snapshot_sender snapshot) (mock_snapshot_receiver snapshot))
    actor communication.

(** The chain of calls of a builder. *)
Definition build {B} (b : B) (expectations : list (B → B)) : B :=
  foldl (λ b f, f b) b expectations.

Definition test_driver_entropy : @DriverEntropy unit := {| de_command := (); de_event _ := () |}.

(** A call of [receive_message] that has to succeed, with the messages checked by the host. *)
Definition receive (instant : Z) (message : option InMsg) (s : TestDriver * MockHost)
    : outcome (TestDriver * MockHost) :=
  let '(d, host) := s in
  '(d, sent) ← run_ok (receive_message (λ _, mock_new) raft_snapshot_is_empty 10
                         test_driver_entropy [] instant (Some <$> message)) d;
  host ← match sent with
         | Some messages => '(host, _) ← mock_call host messages; Return host
         | None => Return host
         end;
  raft ← settle_raft (dr_raft d);
  Return (set_driver_raft raft d, host).

(** The mocks at the end of a test. *)
Definition driver_done (s : TestDriver * MockHost) : outcome unit :=
  let '(d, host) := s in
  assert (mock_satisfied host);;
  assert (mock_satisfied (mraft_calls (dr_raft d)));;
  assert (mock_satisfied (mraft_store (dr_raft d)));;
  assert (mock_satisfied (proc_sender (dr_snapshot d)));;
  assert (mock_satisfied (proc_receiver (dr_snapshot d)));;
  assert (mock_satisfied (dr_communication d));;
  assert (mock_satisfied (dr_actor d)).

#[local] Abbreviation node_id := REPLICA_1.
#[local] Abbreviation instant := 100.
#[local] Abbreviation raft_config := (create_default_parameters.2).
#[local] Abbreviation init_snapshot := [Byte.x02; Byte.x03; Byte.x04].
#[local] Abbreviation start_request config :=
  (create_start_replica_request raft_config true node_id config).

(** A handler that accepts every call. *)
Definition accept_init : ActorContext → outcome (result ActorError unit) := λ _, Return (Ok ()).

Definition accept_raft_init
    : Z → RaftLibConfig → bytes → bool → outcome (result RaftError unit) :=
  λ _ _ _ _, Return (Ok ()).

Definition test_driver_start_node_request : unit_test :=
  let host := build mock_new [expect_send_messages [create_start_replica_response node_id]] in
  let raft := build raft_builder
    [expect_leader false;
     expect_raft_init (λ id config snapshot leader,
       assert_eq node_id (rlc_id config);;
       assert_eq (Some (rc_election_tick raft_config)) (rlc_election_tick config);;
       assert_eq (Some (rc_heartbeat_tick raft_config)) (rlc_heartbeat_tick config);;
       assert_eq (Some (rc_max_size_per_msg raft_config)) (rlc_max_size_per_msg config);;
       assert_eq node_id id;;
       assert_eq init_snapshot snapshot;;
       assert leader;;
       Return (Ok ()));
     expect_has_ready false; expect_should_snapshot false;
     expect_state (create_default_raft_state node_id)] in
  let snapshot := build snapshot_builder
    [expect_snapshot_init node_id; driver_expect_receiver_set_instant;
     expect_receiver_try_complete None] in
  let communication := build communication_builder
    [expect_communication_init node_id; expect_communication_tick; expect_take_out_messages []] in
  let driver := driver_take raft snapshot communication (build driver_builder
    [expect_on_init accept_init; expect_on_save_snapshot (Ok init_snapshot);
     expect_on_process_command None (Ok co_with_none)]) in
  s ← receive instant (Some (start_request [])) (driver, host);
  driver_done s.

Definition test_driver_stop_node_request : unit_test :=
  let host := build mock_new
    [expect_send_messages [create_start_replica_response node_id];
     expect_send_messages [create_stop_replica_response]] in
  let raft := build raft_builder
    [expect_leader false; expect_raft_init accept_raft_init; expect_has_ready false;
     expect_has_ready false; expect_should_snapshot false;
     expect_state (create_default_raft_state node_id)] in
  let snapshot := build snapshot_builder
    [expect_snapshot_init node_id; driver_expect_receiver_set_instant;
     expect_receiver_try_complete None] in
  let communication := build communication_builder
    [expect_communication_init node_id; expect_communication_tick; expect_take_out_messages [];
     expect_take_out_messages []] in
  let driver := driver_take raft snapshot communication (build driver_builder
    [expect_on_init accept_init; expect_on_save_snapshot (Ok init_snapshot);
     expect_on_process_command None (Ok co_with_none); expect_on_shutdown]) in
  s ← receive instant (Some (start_request [])) (driver, host);
  s ← receive (instant + 10) (Some create_stop_replica_request) s;
  driver_done s.

Definition test_driver_deliver_app_message_request : unit_test :=
  let proposal_contents_1 := [Byte.x01; Byte.x02; Byte.x03] in
  let proposal_contents_2 := [Byte.x04; Byte.x05; Byte.x06] in
  let proposal_result_2 := [Byte.x04; Byte.x04; Byte.x06] in
  let correlation_id_1 := 1 in
  let correlation_id_2 := 2 in
  let host := build mock_new
    [expect_send_messages [create_start_replica_response node_id];
     expect_send_messages [];
     expect_send_messages [create_out_deliver_app_message correlation_id_2 proposal_result_2]] in
  let proposal_entry_1 :=
    create_entry (create_entry_id node_id correlation_id_1) proposal_contents_1 in
  let raft := build raft_builder
    [expect_leader false; expect_raft_init accept_raft_init; expect_has_ready false;
     expect_has_ready false; expect_has_ready false;
     expect_make_proposal proposal_entry_1 (Ok ()); expect_should_snapshot false;
     expect_state (create_default_raft_state node_id)] in
  let snapshot := build snapshot_builder
    [expect_snapshot_init node_id; driver_expect_receiver_set_instant;
     expect_receiver_try_complete None; expect_receiver_try_complete None;
     expect_receiver_try_complete None] in
  let communication := build communication_builder
    [expect_communication_init node_id; expect_communication_tick; expect_communication_tick;
     expect_communication_tick; expect_take_out_messages []; expect_take_out_messages [];
     expect_take_out_messages []] in
  let driver := driver_take raft snapshot communication (build driver_builder
    [expect_on_init accept_init; expect_on_save_snapshot (Ok init_snapshot);
     expect_on_process_command None (Ok co_with_none);
     expect_on_process_command
       (Some {| command_correlation_id := correlation_id_1; command_header := proposal_contents_1;
                command_payload := [] |})
       (Ok (co_with_event {| event_correlation_id := correlation_id_1;
                             event_contents := proposal_contents_1 |}));
     expect_on_process_command
       (Some {| command_correlation_id := correlation_id_2; command_header := proposal_contents_2;
                command_payload := [] |})
       (Ok (co_with_command {| command_correlation_id := correlation_id_2;
                               command_header := proposal_result_2; command_payload := [] |}))]) in
  s ← receive instant (Some (start_request [])) (driver, host);
  s ← receive (instant + 10)
        (Some (create_in_deliver_app_message correlation_id_1 proposal_contents_1)) s;
  s ← receive (instant + 10)
        (Some (create_in_deliver_app_message correlation_id_2 proposal_contents_2)) s;
  driver_done s.

(** What the actor of a test reads in [on_init]. *)
Definition check_actor_context (self_config : bytes) (context : ActorContext)
    : outcome (result ActorError unit) :=
  assert_eq node_id (ctx_id context);;
  assert_eq instant (ctx_instant context);;
  assert_eq self_config (ctx_config context);;
  assert (negb (ctx_leader context));;
  Return (Ok ()).

Definition test_driver_actor_context : unit_test :=
  let self_config := [Byte.x01; Byte.x02; Byte.x03] in
  let host := build mock_new [expect_send_messages [create_start_replica_response node_id]] in
  let raft := build raft_builder
    [expect_leader false; expect_raft_init accept_raft_init; expect_has_ready false;
     expect_should_snapshot false; expect_state (create_default_raft_state node_id)] in
  let snapshot := build snapshot_builder
    [expect_snapshot_init node_id; driver_expect_receiver_set_instant;
     expect_receiver_try_complete None] in
  let communication := build communication_builder
    [expect_communication_init node_id; expect_communication_tick; expect_take_out_messages []] in
  let driver := driver_take raft snapshot communication (build driver_builder
    [expect_on_init (check_actor_context self_config);
     expect_on_save_snapshot (Ok init_snapshot);
     expect_on_process_command None (Ok co_with_none)]) in
  s ← receive instant (Some (start_request self_config)) (driver, host);
  driver_done s.

Definition test_driver_ephemeral_replica : unit_test :=
  let self_config := [Byte.x01; Byte.x02; Byte.x03] in
  let correlation_id := 1 in
  let proposal_contents := [Byte.x01; Byte.x02; Byte.x03] in
  let actor_command_1 :=
    {| command_correlation_id := correlation_id; command_header := proposal_contents;
       command_payload := [] |} in
  let actor_event :=
    {| event_correlation_id := correlation_id; event_contents := proposal_contents |} in
  let proposal_result := [Byte.x04; Byte.x04; Byte.x06] in
  let actor_command_2 :=
    {| command_correlation_id := correlation_id; command_header := proposal_result;
       command_payload := [] |} in
  let host := build mock_new
    [expect_send_messages [create_start_replica_response node_id];
     expect_send_messages [create_out_deliver_app_message correlation_id proposal_contents;
                           create_out_deliver_app_message correlation_id proposal_result];
     expect_send_messages [create_stop_replica_response]] in
  let raft := build raft_builder [expect_leader false] in
  let communication := build communication_builder
    [expect_communication_init node_id; expect_communication_tick; expect_communication_tick;
     expect_take_out_messages []; expect_take_out_messages []; expect_take_out_messages []] in
  let driver := driver_take raft snapshot_builder communication (build driver_builder
    [expect_on_init (check_actor_context self_config);
     expect_on_process_command None (Ok co_with_none);
     expect_on_process_command (Some actor_command_1)
       (Ok (co_with_command_and_event actor_command_1 actor_event));
     expect_on_apply_event {| ec_index := 0; ec_owned := true |} actor_event
       (Ok (eo_with_command actor_command_2));
     expect_on_shutdown]) in
  s ← receive instant
        (Some (InStartReplica
          {| srr_is_leader := false; srr_replica_id_hint := node_id; srr_raft_config := None;
             srr_app_config := self_config; srr_attestation_config := None;
             srr_is_ephemeral := true |})) (driver, host);
  s ← receive (instant + 10)
        (Some (create_in_deliver_app_message correlation_id proposal_contents)) s;
  s ← receive (instant + 20) (Some create_stop_replica_request) s;
  driver_done s.

Definition test_driver_change_cluster_request : unit_test :=
  let peer_id := 2 in
  let host := build mock_new
    [expect_send_messages [create_start_replica_response node_id];
     expect_send_messages [create_change_cluster_response ChangeStatusPending]] in
  let raft := build raft_builder
    [expect_leader false; expect_raft_init accept_raft_init; expect_has_ready false;
     expect_has_ready false; expect_should_snapshot false;
     expect_state (create_default_raft_state node_id);
     expect_make_config_change_proposal (create_raft_config_change peer_id AddNode) (Ok ())] in
  let snapshot := build snapshot_builder
    [expect_snapshot_init node_id; driver_expect_receiver_set_instant;
     expect_receiver_try_complete None; expect_receiver_try_complete None] in
  let communication := build communication_builder
    [expect_communication_init node_id; expect_communication_tick; expect_communication_tick;
     expect_take_out_messages []; expect_take_out_messages []] in
  let driver := driver_take raft snapshot communication (build driver_builder
    [expect_on_init accept_init; expect_on_save_snapshot (Ok init_snapshot);
     expect_on_process_command None (Ok co_with_none)]) in
  s ← receive instant (Some (start_request [])) (driver, host);
  s ← receive (instant + 10)
        (Some (create_change_cluster_request peer_id ChangeTypeAddReplica)) s;
  driver_done s.

Definition test_driver_check_cluster_request : unit_test :=
  let peer_id := 2 in
  let raft_state := create_default_raft_state node_id in
  let host := build mock_new
    [expect_send_messages [create_start_replica_response node_id];
     expect_send_messages [create_check_cluster_response raft_state]] in
  let raft := build raft_builder
    [expect_leader false; expect_raft_init accept_raft_init; expect_has_ready false;
     expect_has_ready false; expect_should_snapshot false; expect_state raft_state;
     expect_make_config_change_proposal (create_raft_config_change peer_id AddNode) (Ok ())] in
  let snapshot := build snapshot_builder
    [expect_snapshot_init node_id; driver_expect_receiver_set_instant;
     expect_receiver_try_complete None; expect_receiver_try_complete None;
     driver_expect_receiver_reset; driver_expect_sender_set_instant;
     expect_sender_next_request None] in
  let communication := build communication_builder
    [expect_communication_init node_id; expect_communication_tick; expect_take_out_messages [];
     expect_process_cluster_change [node_id]; expect_communication_tick;
     expect_take_out_messages []] in
  let driver := driver_take raft snapshot communication (build driver_builder
    [expect_on_init accept_init; expect_on_save_snapshot (Ok init_snapshot);
     expect_on_process_command None (Ok co_with_none)]) in
  s ← receive instant (Some (start_request [])) (driver, host);
  s ← receive (instant + 10) (Some create_check_cluster_request) s;
  driver_done s.

#[local] Abbreviation empty_snapshot := {| snap_data := []; snap_metadata := None |}.
#[local] Abbreviation empty_light_ready := {| rl_messages := []; rl_committed_entries := [] |}.
#[local] Abbreviation out m := {| out_msg := Some m |}.

Definition test_driver_raft_ready : unit_test :=
  let peer_id := 2 in
  let message_a := create_raft_message node_id peer_id MsgBeat in
  let message_b := create_raft_message node_id peer_id MsgAppend in
  let entries := [create_empty_raft_entry 3 2] in
  let proposal_result := [Byte.x04; Byte.x05; Byte.x06] in
  let entry_id := create_entry_id node_id 1 in
  let entry := create_entry entry_id proposal_result in
  let committed_normal_entry := create_raft_entry 2 2 EntryNormal (proto_encode entry) in
  let config_change := create_raft_config_change peer_id AddNode in
  let config_state := create_raft_config_state [node_id; peer_id] in
  let committed_config_entry :=
    create_raft_entry 3 2 EntryConfChange (proto_encode config_change) in
  let data := [Byte.x01; Byte.x02; Byte.x03] in
  let snapshot :=
    create_raft_snapshot
      (create_raft_snapshot_metadata 1 1 (create_raft_config_state [node_id; peer_id])) data in
  let ready :=
    {| rr_messages := [message_a]; rr_persisted_messages := [message_b]; rr_entries := entries;
       rr_committed_entries := [committed_normal_entry; committed_config_entry];
       rr_hard_state := None; rr_snapshot := snapshot; rr_number := 1 |} in
  let handshake := driver_secure_channel_handshake node_id peer_id in
  let host := build mock_new
    [expect_send_messages [create_start_replica_response node_id];
     expect_send_messages [OutSecureChannelHandshake handshake;
                           create_out_deliver_app_message (ei_entry_id entry_id) proposal_result]] in
  let raft := build raft_builder
    [expect_leader false; expect_raft_init accept_raft_init; expect_should_snapshot false;
     expect_state raft_state_new; expect_has_ready false; expect_has_ready true;
     expect_ready ready; expect_advance_ready (rr_number ready) empty_light_ready;
     expect_advance_apply; expect_apply_snapshot snapshot (Ok ());
     expect_append_entries entries (Ok ());
     expect_apply_config_change config_change (Ok config_state)] in
  let snapshots := build snapshot_builder
    [expect_snapshot_init node_id; driver_expect_receiver_set_instant;
     expect_receiver_try_complete None; expect_receiver_try_complete None] in
  let communication := build communication_builder
    [expect_communication_init node_id; expect_communication_tick; expect_take_out_messages [];
     expect_process_out_message (create_deliver_system_message_response message_a) (Ok ());
     expect_process_out_message (create_deliver_system_message_response message_b) (Ok ());
     expect_communication_tick;
     expect_take_out_messages [out (OutSecureChannelHandshake handshake)]] in
  let driver := driver_take raft snapshots communication (build driver_builder
    [expect_on_init accept_init; expect_on_save_snapshot (Ok init_snapshot);
     expect_on_load_snapshot (snap_data snapshot) (Ok ());
     expect_on_process_command None (Ok co_with_none);
     expect_on_apply_event
       {| ec_index := entry_index committed_normal_entry; ec_owned := true |}
       {| event_correlation_id := ei_entry_id entry_id;
          event_contents := en_entry_contents entry |}
       (Ok (eo_with_command {| command_correlation_id := ei_entry_id entry_id;
                               command_header := proposal_result; command_payload := [] |}))]) in
  s ← receive instant (Some (create_start_replica_request raft_config false node_id []))
        (driver, host);
  s ← receive (instant + 10) None s;
  driver_done s.

Definition test_driver_raft_tick : unit_test :=
  let raft_state := create_default_raft_state node_id in
  let host := build mock_new
    [expect_send_messages [create_start_replica_response node_id]; expect_send_messages []] in
  let raft := build raft_builder
    [expect_leader false; expect_raft_init accept_raft_init; expect_has_ready false;
     expect_has_ready false; expect_should_snapshot false; expect_state raft_state;
     expect_raft_tick] in
  let snapshot := build snapshot_builder
    [expect_snapshot_init node_id; driver_expect_receiver_set_instant;
     expect_receiver_try_complete None; expect_receiver_try_complete None] in
  let communication := build communication_builder
    [expect_communication_init node_id; expect_communication_tick; expect_communication_tick;
     expect_take_out_messages []; expect_take_out_messages []] in
  let driver := driver_take raft snapshot communication (build driver_builder
    [expect_on_init accept_init; expect_on_save_snapshot (Ok init_snapshot);
     expect_on_process_command None (Ok co_with_none)]) in
  s ← receive instant (Some (start_request [])) (driver, host);
  s ← receive (instant + rc_tick_period raft_config) None s;
  driver_done s.

Definition test_driver_raft_step : unit_test :=
  let peer_id := 2 in
  let raft_state := create_default_raft_state node_id in
  let message_a := create_raft_message peer_id node_id MsgBeat in
  let handshake_message := driver_secure_channel_handshake peer_id node_id in
  let host := build mock_new
    [expect_send_messages [create_start_replica_response node_id]; expect_send_messages [];
     expect_send_messages []] in
  let raft := build raft_builder
    [expect_leader false; expect_raft_init accept_raft_init; expect_has_ready false;
     expect_has_ready false; expect_has_ready false; expect_should_snapshot false;
     expect_state raft_state; expect_make_step message_a (Ok ())] in
  let snapshot := build snapshot_builder
    [expect_snapshot_init node_id; driver_expect_receiver_set_instant;
     expect_receiver_try_complete None; expect_receiver_try_complete None;
     expect_receiver_try_complete None] in
  let communication := build communication_builder
    [expect_communication_init node_id; expect_communication_tick; expect_take_out_messages [];
     expect_process_in_message (InSecureChannelHandshake handshake_message) (Ok None);
     expect_communication_tick; expect_take_out_messages [];
     expect_process_in_message (create_deliver_system_message_request message_a)
       (Ok (Some (create_deliver_system_message_request message_a)));
     expect_communication_tick; expect_take_out_messages []] in
  let driver := driver_take raft snapshot communication (build driver_builder
    [expect_on_init accept_init; expect_on_save_snapshot (Ok init_snapshot);
     expect_on_process_command None (Ok co_with_none)]) in
  s ← receive instant (Some (start_request [])) (driver, host);
  s ← receive (instant + 10) (Some (InSecureChannelHandshake handshake_message)) s;
  s ← receive (instant + 20) (Some (create_deliver_system_message_request message_a)) s;
  driver_done s.

(** The test up to its end, where the calls that were made can be counted. *)
Definition trigger_snapshot_run : outcome (TestDriver * MockHost) :=
  let raft_state := create_default_raft_state node_id in
  let proposal_result := [Byte.x04; Byte.x05; Byte.x06] in
  let entry_id := create_entry_id node_id 1 in
  let entry := create_entry entry_id proposal_result in
  let committed_normal_entry := create_raft_entry 2 2 EntryNormal (proto_encode entry) in
  let snapshot := [Byte.x04; Byte.x05; Byte.x06] in
  let latest_snapshot_size := Z.of_nat (length snapshot) in
  let host := build mock_new
    [expect_send_messages [create_start_replica_response node_id];
     expect_send_messages [create_out_deliver_app_message (ei_entry_id entry_id) proposal_result];
     expect_send_messages [create_get_replica_state_response
                             (entry_index committed_normal_entry) latest_snapshot_size]] in
  let ready :=
    {| rr_messages := []; rr_persisted_messages := []; rr_entries := [];
       rr_committed_entries := [committed_normal_entry];
       rr_hard_state := None; rr_snapshot := empty_snapshot; rr_number := 1 |} in
  let raft := build raft_builder
    [expect_leader false; expect_raft_init accept_raft_init; expect_has_ready false;
     expect_has_ready true; expect_has_ready false; expect_ready ready;
     expect_should_snapshot false; expect_should_snapshot true;
     expect_create_snapshot (entry_index committed_normal_entry)
       (create_raft_config_state (rst_committed_cluster_config raft_state)) snapshot (Ok ());
     expect_state raft_state; expect_advance_ready (rr_number ready) empty_light_ready;
     expect_advance_apply; expect_latest_snapshot_size latest_snapshot_size] in
  let snapshots := build snapshot_builder
    [expect_snapshot_init node_id; driver_expect_receiver_set_instant;
     expect_receiver_try_complete None; expect_receiver_try_complete None;
     expect_receiver_try_complete None] in
  let communication := build communication_builder
    [expect_communication_init node_id; expect_communication_tick; expect_communication_tick;
     expect_communication_tick; expect_take_out_messages []; expect_take_out_messages [];
     expect_take_out_messages []] in
  let driver := driver_take raft snapshots communication (build driver_builder
    [expect_on_init accept_init; expect_on_save_snapshot (Ok init_snapshot);
     expect_on_process_command None (Ok co_with_none);
     expect_on_apply_event
       {| ec_index := entry_index committed_normal_entry; ec_owned := true |}
       {| event_correlation_id := ei_entry_id entry_id;
          event_contents := en_entry_contents entry |}
       (Ok (eo_with_command {| command_correlation_id := ei_entry_id entry_id;
                               command_header := proposal_result; command_payload := [] |}));
     expect_on_save_snapshot (Ok snapshot)]) in
  s ← receive instant (Some (start_request [])) (driver, host);
  s ← receive (instant + 10) None s;
  receive (instant + 20) (Some create_get_replica_state_request) s.

Definition test_driver_trigger_snapshot : unit_test := s ← trigger_snapshot_run; driver_done s.

Definition test_driver_snapshot_processor_receiver : unit_test :=
  let self_config := [Byte.x01; Byte.x02; Byte.x03] in
  let deliver_snapshot_request := driver_snapshot_request node_id REPLICA_2 DELIVERY_1 in
  let deliver_snapshot_response := driver_snapshot_response REPLICA_2 node_id DELIVERY_1 in
  let handshake_message_from_peer := driver_secure_channel_handshake REPLICA_2 node_id in
  let handshake_message_to_peer := driver_secure_channel_handshake node_id REPLICA_2 in
  let snapshot :=
    create_raft_snapshot
      (create_raft_snapshot_metadata 1 1 (create_raft_config_state [node_id; REPLICA_2]))
      [Byte.x01; Byte.x02; Byte.x03] in
  let message := create_raft_message REPLICA_2 node_id MsgSnapshot in
  let snapshot_message :=
    {| rm_msg_type := rm_msg_type message; rm_to := rm_to message; rm_from := rm_from message;
       rm_snapshot := Some snapshot; rm_rest := rm_rest message |} in
  let host := build mock_new
    [expect_send_messages [create_start_replica_response node_id];
     expect_send_messages [OutSecureChannelHandshake handshake_message_to_peer];
     expect_send_messages [wrap_deliver_snapshot_response_out deliver_snapshot_response]] in
  let raft := build raft_builder
    [expect_leader false; expect_raft_init accept_raft_init; expect_has_ready false;
     expect_has_ready false; expect_has_ready false; expect_should_snapshot false;
     expect_state (create_default_raft_state node_id);
     expect_make_step snapshot_message (Ok ())] in
  let snapshots := build snapshot_builder
    [expect_snapshot_init node_id; driver_expect_receiver_set_instant;
     expect_receiver_try_complete None; expect_receiver_try_complete None;
     expect_receiver_try_complete (Some (Ok (REPLICA_2, snapshot)));
     expect_receiver_process_request deliver_snapshot_request deliver_snapshot_response] in
  let communication := build communication_builder
    [expect_communication_init node_id; expect_communication_tick; expect_take_out_messages [];
     expect_process_in_message (InSecureChannelHandshake handshake_message_from_peer) (Ok None);
     expect_communication_tick;
     expect_take_out_messages [out (OutSecureChannelHandshake handshake_message_to_peer)];
     expect_process_in_message (InDeliverSnapshotRequest deliver_snapshot_request)
       (Ok (Some (InDeliverSnapshotRequest deliver_snapshot_request)));
     expect_process_out_message
       (wrap_deliver_snapshot_response_out deliver_snapshot_response) (Ok ());
     expect_communication_tick;
     expect_take_out_messages
       [out (wrap_deliver_snapshot_response_out deliver_snapshot_response)]] in
  let driver := driver_take raft snapshots communication (build driver_builder
    [expect_on_init accept_init; expect_on_save_snapshot (Ok init_snapshot);
     expect_on_process_command None (Ok co_with_none)]) in
  s ← receive instant (Some (start_request self_config)) (driver, host);
  s ← receive (instant + 10) (Some (InSecureChannelHandshake handshake_message_from_peer)) s;
  s ← receive (instant + 20) (Some (wrap_deliver_snapshot_request_in deliver_snapshot_request)) s;
  driver_done s.

Definition test_driver_snapshot_processor_sender : unit_test :=
  let self_config := [Byte.x01; Byte.x02; Byte.x03] in
  let follower_raft_state := create_raft_state 0 [node_id] in
  let leader_raft_state := create_raft_state node_id [node_id] in
  let snapshot :=
    create_raft_snapshot
      (create_raft_snapshot_metadata 1 1 (create_raft_config_state [node_id; REPLICA_2]))
      [Byte.x01; Byte.x02; Byte.x03] in
  let message := create_raft_message node_id REPLICA_2 MsgSnapshot in
  let snapshot_message :=
    {| rm_msg_type := rm_msg_type message; rm_to := rm_to message; rm_from := rm_from message;
       rm_snapshot := Some snapshot; rm_rest := rm_rest message |} in
  let ready :=
    {| rr_messages := [snapshot_message]; rr_persisted_messages := []; rr_entries := [];
       rr_committed_entries := []; rr_hard_state := None; rr_snapshot := empty_snapshot;
       rr_number := 1 |} in
  let deliver_snapshot_request := driver_snapshot_request REPLICA_2 node_id DELIVERY_1 in
  let deliver_snapshot_response := driver_snapshot_response node_id REPLICA_2 DELIVERY_1 in
  let deliver_snapshot_failure := create_deliver_snapshot_failure REPLICA_3 DELIVERY_2 in
  let host := build mock_new
    [expect_send_messages [create_start_replica_response node_id;
                           create_check_cluster_response leader_raft_state;
                           wrap_deliver_snapshot_request_out deliver_snapshot_request];
     expect_send_messages []] in
  let raft := build raft_builder
    [expect_leader true; expect_raft_init accept_raft_init; expect_has_ready true;
     expect_has_ready false; expect_has_ready false; expect_ready ready;
     expect_advance_ready (rr_number ready) empty_light_ready; expect_advance_apply;
     expect_should_snapshot false; expect_should_snapshot false;
     expect_state_once follower_raft_state; expect_state_once leader_raft_state;
     expect_state_once leader_raft_state; expect_state_once leader_raft_state;
     expect_report_snapshot REPLICA_2 Finish] in
  let snapshots := build snapshot_builder
    [expect_snapshot_init node_id; driver_expect_receiver_set_instant;
     expect_receiver_try_complete None; driver_expect_receiver_reset;
     driver_expect_sender_set_instant;
     expect_sender_next_request (Some deliver_snapshot_request);
     expect_sender_next_request None; expect_sender_next_request None;
     expect_sender_next_request None; expect_sender_start REPLICA_2 snapshot;
     expect_sender_process_response REPLICA_2 DELIVERY_1 (Ok deliver_snapshot_response);
     expect_sender_try_complete (Some (REPLICA_2, Finish));
     expect_sender_process_response REPLICA_3 DELIVERY_2 (Err FailedDelivery);
     expect_sender_try_complete None] in
  let communication := build communication_builder
    [expect_communication_init node_id; expect_process_cluster_change [node_id];
     expect_process_out_message
       (wrap_deliver_snapshot_request_out deliver_snapshot_request) (Ok ());
     expect_communication_tick;
     expect_take_out_messages [out (wrap_deliver_snapshot_request_out deliver_snapshot_request)];
     expect_process_in_message (InDeliverSnapshotResponse deliver_snapshot_response)
       (Ok (Some (InDeliverSnapshotResponse deliver_snapshot_response)));
     expect_communication_tick; expect_take_out_messages [];
     expect_communication_tick; expect_take_out_messages []] in
  let driver := driver_take raft snapshots communication (build driver_builder
    [expect_on_init accept_init; expect_on_save_snapshot (Ok init_snapshot);
     expect_on_process_command None (Ok co_with_none)]) in
  s ← receive instant (Some (start_request self_config)) (driver, host);
  s ← receive instant (Some (wrap_deliver_snapshot_response_in deliver_snapshot_response)) s;
  s ← receive instant (Some (wrap_deliver_snapshot_failure_in deliver_snapshot_failure)) s;
  driver_done s.

Definition driver_tests : list unit_test :=
  [test_driver_start_node_request; test_driver_stop_node_request;
   test_driver_deliver_app_message_request; test_driver_actor_context;
   test_driver_ephemeral_replica; test_driver_change_cluster_request;
   test_driver_check_cluster_request; test_driver_raft_ready; test_driver_raft_tick;
   test_driver_raft_step; test_driver_trigger_snapshot;
   test_driver_snapshot_processor_receiver; test_driver_snapshot_processor_sender].

(** Every test of the driver passes on the model. *)
Lemma driver_tests_pass : Forall (λ t, t = Return ()) driver_tests.
Proof. apply tests_pass_spec. vm_compute. reflexivity. Qed.

(** The test that is to trigger a snapshot triggers none: the answer [false] of
    [should_snapshot] is given to every call, and the one [true] that follows it to none.  The
    store is not asked to create the snapshot, and the actor saves only the one of its start. *)
Lemma trigger_snapshot_test_creates_none :
  ∃ s, trigger_snapshot_run = Return s ∧
    calls_made (mraft_store (dr_raft s.1))
      (CallCreateSnapshot 2 (create_raft_config_state [REPLICA_1]) [Byte.x04; Byte.x05; Byte.x06])
    = 0%nat ∧
    calls_made (dr_actor s.1) CallOnSaveSnapshot = 1%nat.
Proof.
  assert (Hrun : (s ← trigger_snapshot_run;
      Return (calls_made (mraft_store (dr_raft s.1))
                (CallCreateSnapshot 2 (create_raft_config_state [REPLICA_1])
                   [Byte.x04; Byte.x05; Byte.x06]),
              calls_made (dr_actor s.1) CallOnSaveSnapshot)) = Return (0%nat, 1%nat))
    by (vm_compute; reflexivity).
  destruct trigger_snapshot_run as [s|]; [|discriminate Hrun].
  exists s. by injection Hrun.
Qed.
