(* ===== verification/CacheTests.v ===== *)
(** * The unit tests of the tablet cache

    The tests of [src/apps/tablet_cache/service/src]: those of the metadata cache, of the data
    cache, of the transaction coordinator with mocks of both caches, and of the key-value store
    with a mock of the transactions. *)

From S2P Require Import Prelude TabletStore TabletCodecs CacheTypes MetadataCache DataCache.
From S2P Require Import Coordinator Manager KvStore Testing TestMessages Mocks.

(** The order of regions, results and transactions in which the tests list them. *)
#[local] Instance cache_test_order : HashOrder Z :=
  {| hash_iter V m := btree_iter Z.le m; hash_iter_perm V m := btree_iter_perm Z.le m |}.
#[local] Instance cache_test_names : HashOrder string := default_hash_order string.

Definition by_number (x y : string * Z) : Prop := x.2 ≤ y.2.
#[local] Instance by_number_dec : RelDecision by_number.
Proof. intros x y. unfold by_number. apply _. Defined.
#[local] Instance cache_test_results : HashOrder (string * Z) :=
  {| hash_iter V m := btree_iter by_number m; hash_iter_perm V m := btree_iter_perm by_number m |}.

#[global] Instance TabletMetadataCacheOutMessage_eq_dec : EqDecision TabletMetadataCacheOutMessage.
Proof. solve_decision. Defined.
#[global] Instance TabletDataStorageStatus_eq_dec : EqDecision TabletDataStorageStatus.
Proof. solve_decision. Defined.
#[global] Instance LoadTabletRequest_eq_dec : EqDecision LoadTabletRequest.
Proof. solve_decision. Defined.
#[global] Instance StoreTabletRequest_eq_dec : EqDecision StoreTabletRequest.
Proof. solve_decision. Defined.
#[global] Instance TabletDataCacheOutMessage_eq_dec : EqDecision TabletDataCacheOutMessage.
Proof. solve_decision. Defined.
#[global] Instance TabletTransactionCoordinatorOutMessage_eq_dec :
  EqDecision TabletTransactionCoordinatorOutMessage.
Proof. solve_decision. Defined.
#[global] Instance PutKeyResponse_eq_dec : EqDecision PutKeyResponse.
Proof. solve_decision. Defined.
#[global] Instance GetKeyResponse_eq_dec : EqDecision GetKeyResponse.
Proof. solve_decision. Defined.
#[global] Instance KeyValueResponse_eq_dec : EqDecision KeyValueResponse.
Proof. solve_decision. Defined.

(** [TabletMetadata { tablet_id, tablet_version, ..Default::default() }] *)
Definition tablet_at (tablet_id tablet_version : Z) : TabletMetadata :=
  {| tm_tablet_id := tablet_id; tm_tablet_version := tablet_version; tm_deleted := false;
     tm_blob_encryption_key := []; tm_blob_size := 0; tm_blob_hash := []; tm_blob_uri := "" |}.

(** ** The metadata cache *)

Section metadata_tests.
#[local] Abbreviation TABLE_NAME := "A"%string.
#[local] Abbreviation TABLE_REGION_SIZE := (4294967295 `div` 8).
#[local] Abbreviation KEY_HASH_1 := 1.
#[local] Abbreviation KEY_HASH_2 := 2.
#[local] Abbreviation KEY_HASH_3 := (TABLE_REGION_SIZE + 1).
#[local] Abbreviation KEY_HASH_4 := (TABLE_REGION_SIZE + 2).
#[local] Abbreviation TABLET_ID_1 := (KEY_HASH_2 + 1).
#[local] Abbreviation TABLET_VERSION_1 := 3.
#[local] Abbreviation TABLET_ID_2 := (KEY_HASH_4 + 1).
#[local] Abbreviation TABLET_VERSION_2 := 5.

Definition create_tablet_metadata_cache (table_name : string) (region_size : Z)
    : outcome (DefaultTabletMetadataCache unit) :=
  metadata_cache_init (metadata_cache_create 0)
    {| tmc_table_configs :=
         [{| tmc_table_name := table_name; tmc_table_region_size := region_size |}] |}.

(** The name of the table is that of the tests, whatever is asked for. *)
Definition metadata_table_query (query_id : Z) (table_name : string) (key_hashes : list Z)
    : TableQuery := table_query_create query_id TABLE_NAME key_hashes.

Definition create_list_op (table_name : string) (key_hash_from key_hash_to : Z) : TabletOp :=
  {| to_table_name := table_name; to_op := Some (ListTablet key_hash_from key_hash_to) |}.

Definition create_list_op_result (table_name : string) (key_hash_from key_hash_to : Z)
    (tablet_op_status : TabletOpStatus) (tablets : list TabletMetadata) : TabletOpResult :=
  {| tor_table_name := table_name; tor_status := tablet_op_status;
     tor_op_result := Some (ListTabletResult key_hash_from key_hash_to tablets) |}.

(** [TabletMetadataCacheLoop::execute_step] *)
Definition metadata_execute_step (c : DefaultTabletMetadataCache unit)
    (in_message : option TabletMetadataCacheInMessage)
    : outcome (DefaultTabletMetadataCache unit * list TabletMetadataCacheOutMessage) :=
  let '(c, out_messages) := metadata_cache_take_out_messages (metadata_cache_make_progress c) in
  c ← match in_message with
      | Some in_message => '(c, _) ← metadata_cache_process_in_message c () in_message; Return c
      | None => Return c
      end;
  Return (c, out_messages).

Definition test_resolve_tablets_success : unit_test :=
  c ← create_tablet_metadata_cache TABLE_NAME TABLE_REGION_SIZE;
  let table_query_1 :=
    metadata_table_query 1 TABLE_NAME [KEY_HASH_1; KEY_HASH_2; KEY_HASH_3; KEY_HASH_4] in
  '(c, _, resolve_result_1) ← metadata_cache_resolve_tablets c () [table_query_1];
  assert_eq (check_result (mc_cells c) resolve_result_1) None;;
  '(c, out) ← metadata_execute_step c (Some (ListResponse 1
    [create_list_op_result TABLE_NAME 0 (TABLE_REGION_SIZE - 1) TabletOpSucceeded
       [tablet_at TABLET_ID_1 TABLET_VERSION_1];
     create_list_op_result TABLE_NAME TABLE_REGION_SIZE (TABLE_REGION_SIZE * 2 - 1)
       TabletOpSucceeded [tablet_at TABLET_ID_2 TABLET_VERSION_2]]));
  assert_eq
    [ListRequest 1 [create_list_op TABLE_NAME 0 (TABLE_REGION_SIZE - 1);
                    create_list_op TABLE_NAME TABLE_REGION_SIZE (TABLE_REGION_SIZE * 2 - 1)]]
    out;;
  '(c, out) ← metadata_execute_step c None;
  assert_eq out [];;
  assert_eq
    (Some (Ok [(metadata_table_query 1 TABLE_NAME [KEY_HASH_1; KEY_HASH_2],
                tablet_at TABLET_ID_1 TABLET_VERSION_1);
               (metadata_table_query 1 TABLE_NAME [KEY_HASH_3; KEY_HASH_4],
                tablet_at TABLET_ID_2 TABLET_VERSION_2)]))
    (check_result (mc_cells c) resolve_result_1).
End metadata_tests.

(** ** The data cache *)

Section data_tests.
(** Any hash and any rendering of it will do. *)
#[local] Abbreviation test_sha256 := (λ b : bytes, b).
#[local] Abbreviation test_base64 := (λ _ : bytes, ""%string).
#[local] Abbreviation DATA_CACHE_CAPACITY := 1024.
#[local] Abbreviation TABLET_ID_1 := 1.
#[local] Abbreviation TABLET_VERSION_1 := 5.
#[local] Abbreviation TABLET_DATA_VERSION_1 := "t1 v1"%string.
#[local] Abbreviation TABLET_DATA_VERSION_2 := "t1 v2"%string.
#[local] Abbreviation CORRELATION_ID_1 := 1.
#[local] Abbreviation TABLET_BLOB_URI_1 := "blob 1"%string.
#[local] Abbreviation Cache := (DefaultTabletDataCache bytes unit).

Definition create_tablet_data_cache : Cache :=
  data_cache_init (data_cache_create 0 ())
    {| tdc_tablet_cache_capacity := DATA_CACHE_CAPACITY |}.

Definition data_tablet_metadata (tablet_id tablet_version : Z) (blob_uri : string)
    : TabletMetadata :=
  {| tm_tablet_id := tablet_id; tm_tablet_version := tablet_version; tm_deleted := false;
     tm_blob_encryption_key := []; tm_blob_size := 0; tm_blob_hash := [];
     tm_blob_uri := blob_uri |}.

Definition create_load_tablet_request (blob_uri : string) : LoadTabletRequest :=
  {| ltq_blob_uri := blob_uri |}.

Definition create_store_tablet_request (blob_uri : string) : StoreTabletRequest :=
  {| stq_blob_uri := blob_uri |}.

Definition create_load_tablet_response (status : Z) : LoadTabletResponse :=
  {| ltr_status := status |}.

Definition create_store_tablet_response (status : Z) : StoreTabletResponse :=
  {| str_status := status |}.

(** The number of [TabletDataStorageStatus::Succeeded]. *)
#[local] Abbreviation Succeeded := 2.

(** [TabletDataCacheLoop::execute_step] *)
Definition data_execute_step (d : Cache) (instant : Z)
    (in_message : option TabletDataCacheInMessage)
    : outcome (Cache * list TabletDataCacheOutMessage) :=
  d ← data_cache_make_progress d instant;
  let '(d, out_messages) := data_cache_take_out_messages d in
  d ← match in_message with
      | Some in_message => data_cache_process_in_message d in_message
      | None => Return d
      end;
  Return (d, out_messages).

#[local] Abbreviation check_load d h := (check_result (dc_load_cells (dc_cells d)) h).
#[local] Abbreviation check_store d h := (check_result (dc_store_cells (dc_cells d)) h).

Definition test_load_tablets_success : unit_test :=
  let d := create_tablet_data_cache in
  let tablet_metadata_1_v_1 := data_tablet_metadata TABLET_ID_1 TABLET_VERSION_1 TABLET_BLOB_URI_1 in
  let tablet_data_1_v_1 := b_str TABLET_DATA_VERSION_1 in
  '(d, load_tablets_result) ← data_cache_load_tablets d [tablet_metadata_1_v_1];
  assert_eq (check_load d load_tablets_result) None;;
  '(d, out) ← data_execute_step d 1
    (Some (LoadResponse CORRELATION_ID_1 (create_load_tablet_response Succeeded)
             tablet_data_1_v_1));
  assert_eq [LoadRequest CORRELATION_ID_1 (create_load_tablet_request TABLET_BLOB_URI_1)] out;;
  '(d, out) ← data_execute_step d 2 None;
  assert_eq out [];;
  assert_eq (Some (Ok [(tablet_metadata_1_v_1, tablet_data_1_v_1)]))
    (check_load d load_tablets_result);;
  '(d, load_tablets_result) ← data_cache_load_tablets d [tablet_metadata_1_v_1];
  assert_eq (Some (Ok [(tablet_metadata_1_v_1, tablet_data_1_v_1)]))
    (check_load d load_tablets_result).

Definition test_store_tablets_success : unit_test :=
  let d := create_tablet_data_cache in
  let tablet_metadata_1_v_1 := data_tablet_metadata TABLET_ID_1 TABLET_VERSION_1 TABLET_BLOB_URI_1 in
  let tablet_data_1_v_2 := b_str TABLET_DATA_VERSION_2 in
  '(d, metadata, store_tablets_result) ←
    data_cache_store_tablets test_sha256 test_base64 d [(tablet_metadata_1_v_1, tablet_data_1_v_2)];
  tablet_metadata_1_v_1_to_v_2 ← unwrap (head metadata);
  assert_eq (check_store d store_tablets_result) None;;
  '(d, out) ← data_execute_step d 1
    (Some (StoreResponse CORRELATION_ID_1 (create_store_tablet_response Succeeded)));
  assert_eq
    [StoreRequest CORRELATION_ID_1
       (create_store_tablet_request (tm_blob_uri tablet_metadata_1_v_1_to_v_2)) tablet_data_1_v_2]
    out;;
  '(d, out) ← data_execute_step d 2 None;
  assert_eq out [];;
  assert_eq (Some (Ok ())) (check_store d store_tablets_result);;
  '(d, load_tablets_result) ← data_cache_load_tablets d [tablet_metadata_1_v_1_to_v_2];
  assert_eq (Some (Ok [(tablet_metadata_1_v_1_to_v_2, tablet_data_1_v_2)]))
    (check_load d load_tablets_result).
End data_tests.

(** ** The transaction coordinator *)

Section coordinator_tests.
#[local] Abbreviation TABLE_NAME := "map"%string.
#[local] Abbreviation TABLE_QUERY_1 := 1.
#[local] Abbreviation TABLET_ID_1 := 1.
#[local] Abbreviation TABLET_VERSION_1 := 5.
#[local] Abbreviation TABLET_VERSION_2 := 6.
#[local] Abbreviation TABLET_DATA_VERSION_1 := "t1 v1"%string.
#[local] Abbreviation TABLET_DATA_VERSION_2 := "t1 v2"%string.
#[local] Abbreviation CORRELATION_ID_1 := 1.
#[local] Abbreviation KEY_HASH_1 := 1.
#[local] Abbreviation KEY_HASH_2 := 2.

Inductive MetadataCacheCall :=
| CallResolveTablets (queries : list TableQuery)
| CallUpdateTablet (table_name : string) (tablet_metadata : TabletMetadata) (conflict : bool)
| CallMetadataTakeOut.

Definition metadata_cache_answer (c : MetadataCacheCall) : Type :=
  match c with
  | CallResolveTablets _ => Z
  | CallUpdateTablet _ _ _ => unit
  | CallMetadataTakeOut => list TabletMetadataCacheOutMessage
  end.

(** The mock with the cells of the results that the test sets. *)
Record MockTabletMetadataCache := {
  mmc_calls : Mock metadata_cache_answer;
  mmc_cells : ResolveCells
}.

Definition mmc_call (m : MockTabletMetadataCache) (c : MetadataCacheCall)
    : outcome (MockTabletMetadataCache * metadata_cache_answer c) :=
  '(calls, a) ← mock_call (mmc_calls m) c;
  Return ({| mmc_calls := calls; mmc_cells := mmc_cells m |}, a).

(** The calls that no test expects panic. *)
#[local] Instance MockTabletMetadataCache_impl :
    TabletMetadataCache unit MockTabletMetadataCache :=
  {| mci_init _ _ := Panic;
     mci_make_progress _ _ := Panic;
     mci_resolve_tablets m w queries :=
       '(m, handle) ← mmc_call m (CallResolveTablets queries); Return (m, w, handle);
     mci_resolve_tablets_with_handler _ _ _ _ := Panic;
     mci_update_tablet m table_name tablet_metadata conflict :=
       '(m, _) ← mmc_call m (CallUpdateTablet table_name tablet_metadata conflict); Return m;
     mci_process_in_message _ _ _ := Panic;
     mci_take_out_messages m :=
       let '(calls, a) := mock_total (mmc_calls m) CallMetadataTakeOut [] in
       ({| mmc_calls := calls; mmc_cells := mmc_cells m |}, a);
     mci_check_result m handle := check_result (mmc_cells m) handle |}.

Definition expect_resolve_tablets (expected_queries : list TableQuery) (result_handle : Z)
    (m : MockTabletMetadataCache) : MockTabletMetadataCache :=
  {| mmc_calls := mock_expect (mmc_calls m) Once (λ c,
       match c as c return option (outcome (metadata_cache_answer c)) with
       | CallResolveTablets queries =>
           if decide (queries = expected_queries) then Some (Return result_handle) else None
       | _ => None
       end);
     mmc_cells := mmc_cells m |}.

Definition expect_update_tablet (tablet_metadata : TabletMetadata) (conflict : bool)
    (m : MockTabletMetadataCache) : MockTabletMetadataCache :=
  {| mmc_calls := mock_expect (mmc_calls m) Once (λ c,
       match c as c return option (outcome (metadata_cache_answer c)) with
       | CallUpdateTablet name metadata b =>
           if decide ((name, metadata, b) = (TABLE_NAME, tablet_metadata, conflict))
           then Some (Return ()) else None
       | _ => None
       end);
     mmc_cells := mmc_cells m |}.

Inductive DataCacheCall :=
| CallLoadTablets (metadata : list TabletMetadata)
| CallStoreTablets (data : list (TabletMetadata * bytes))
| CallDataTakeOut.

(** Storing tablets also changes their metadata. *)
Definition data_cache_answer (c : DataCacheCall) : Type :=
  match c with
  | CallLoadTablets _ => Z
  | CallStoreTablets _ => list TabletMetadata * Z
  | CallDataTakeOut => list TabletDataCacheOutMessage
  end.

Record MockTabletDataCache := {
  mdc_calls : Mock data_cache_answer;
  mdc_cells : DataCells bytes
}.

Definition mdc_call (m : MockTabletDataCache) (c : DataCacheCall)
    : outcome (MockTabletDataCache * data_cache_answer c) :=
  '(calls, a) ← mock_call (mdc_calls m) c;
  Return ({| mdc_calls := calls; mdc_cells := mdc_cells m |}, a).

#[local] Instance MockTabletDataCache_impl : TabletDataCache MockTabletDataCache bytes :=
  {| dci_init _ _ := Panic;
     dci_make_progress _ _ := Panic;
     dci_load_tablets m metadata := mdc_call m (CallLoadTablets metadata);
     dci_store_tablets m data :=
       '(m, (metadata, handle)) ← mdc_call m (CallStoreTablets data); Return (m, metadata, handle);
     dci_process_in_message _ _ := Panic;
     dci_take_out_messages m :=
       let '(calls, a) := mock_total (mdc_calls m) CallDataTakeOut [] in
       ({| mdc_calls := calls; mdc_cells := mdc_cells m |}, a);
     dci_check_load m handle := check_result (dc_load_cells (mdc_cells m)) handle;
     dci_check_store m handle := check_result (dc_store_cells (mdc_cells m)) handle |}.

Definition expect_load_tablets (expected_metadata : list TabletMetadata) (result_handle : Z)
    (m : MockTabletDataCache) : MockTabletDataCache :=
  {| mdc_calls := mock_expect (mdc_calls m) Once (λ c,
       match c as c return option (outcome (data_cache_answer c)) with
       | CallLoadTablets metadata =>
           if decide (metadata = expected_metadata) then Some (Return result_handle) else None
       | _ => None
       end);
     mdc_cells := mdc_cells m |}.

(** The expected metadata and contents, and the metadata that replaces it. *)
Definition expect_store_tablets (expected_data : list (TabletMetadata * bytes * TabletMetadata))
    (result_handle : Z) (m : MockTabletDataCache) : MockTabletDataCache :=
  {| mdc_calls := mock_expect (mdc_calls m) Once (λ c,
       match c as c return option (outcome (data_cache_answer c)) with
       | CallStoreTablets data =>
           Some (assert_eq (length expected_data) (length data);;
                 for_cases (λ '((exp_metadata, exp_data, _), (metadata, data)),
                   assert_eq exp_metadata metadata;; assert_eq exp_data data)
                   (zip expected_data data);;
                 Return (expected_data.*2, result_handle))
       | _ => None
       end);
     mdc_cells := mdc_cells m |}.

#[local] Abbreviation Coordinator := (DefaultTabletTransactionCoordinator unit bytes).

(** [TranactionCoordinatorLoop] *)
Record TransactionCoordinatorLoop := {
  cl_coordinator : Coordinator;
  cl_metadata_cache : MockTabletMetadataCache;
  cl_data_cache : MockTabletDataCache
}.

Definition cl_with (l : TransactionCoordinatorLoop) (c : Coordinator)
    : TransactionCoordinatorLoop :=
  {| cl_coordinator := c; cl_metadata_cache := cl_metadata_cache l;
     cl_data_cache := cl_data_cache l |}.

Definition coordinator_execute_step (l : TransactionCoordinatorLoop)
    (in_message : option TabletTransactionCoordinatorInMessage)
    : outcome (TransactionCoordinatorLoop * list TabletTransactionCoordinatorOutMessage) :=
  '(c, m, d, _) ← coordinator_make_progress (cl_coordinator l) (cl_metadata_cache l)
                    (cl_data_cache l) ();
  let '(c, out_messages) := coordinator_take_out_messages c in
  '(c, m) ← match in_message with
            | Some in_message => coordinator_process_in_message c m in_message
            | None => Return (c, m)
            end;
  Return ({| cl_coordinator := c; cl_metadata_cache := m; cl_data_cache := d |}, out_messages).

(** The results that the test sets through the sources. *)
Definition set_resolved (l : TransactionCoordinatorLoop) (source : Z)
    (r : list (TableQuery * TabletMetadata)) : outcome TransactionCoordinatorLoop :=
  cells ← set_result (mmc_cells (cl_metadata_cache l)) source r;
  Return {| cl_coordinator := cl_coordinator l;
            cl_metadata_cache :=
              {| mmc_calls := mmc_calls (cl_metadata_cache l); mmc_cells := cells |};
            cl_data_cache := cl_data_cache l |}.

Definition set_data_cells (l : TransactionCoordinatorLoop) (cells : DataCells bytes)
    : TransactionCoordinatorLoop :=
  {| cl_coordinator := cl_coordinator l; cl_metadata_cache := cl_metadata_cache l;
     cl_data_cache := {| mdc_calls := mdc_calls (cl_data_cache l); mdc_cells := cells |} |}.

Definition set_loaded (l : TransactionCoordinatorLoop) (source : Z)
    (r : list (TabletMetadata * bytes)) : outcome TransactionCoordinatorLoop :=
  let cells := mdc_cells (cl_data_cache l) in
  load ← set_result (dc_load_cells cells) source r;
  Return (set_data_cells l (with_load_cells cells load)).

Definition set_stored (l : TransactionCoordinatorLoop) (source : Z)
    : outcome TransactionCoordinatorLoop :=
  let cells := mdc_cells (cl_data_cache l) in
  store ← set_result (dc_store_cells cells) source ();
  Return (set_data_cells l (with_store_cells cells store)).

Definition coordinator_update_op (table_name : string) (tablet_metadata : TabletMetadata)
    : TabletOp :=
  {| to_table_name := table_name; to_op := Some (UpdateTablet (Some tablet_metadata)) |}.

Definition coordinator_update_result (table_name : string) (tablet_op_status : TabletOpStatus)
    (tablet_metadata : option TabletMetadata) : TabletOpResult :=
  {| tor_table_name := table_name; tor_status := tablet_op_status;
     tor_op_result := Some (UpdateTabletResult tablet_metadata) |}.

Definition coordinator_table_query (query_id : Z) (key_hashes : list Z) : TableQuery :=
  table_query_create query_id TABLE_NAME key_hashes.

(** The handler of the test: checks the tablet it is lent and changes its contents. *)
Definition update_contents (transaction_id_1 : Z) (expected_query : TableQuery)
    (expected_metadata : TabletMetadata) (expected_contents new_contents : bytes)
    : ProcessHandler unit bytes := λ transaction_id tablets w,
  assert_eq transaction_id_1 transaction_id;;
  match tablets with
  | [(table_query, tablet)] =>
      assert_eq expected_query table_query;;
      assert_eq expected_metadata (tb_metadata tablet);;
      contents ← tablet_get_contents tablet;
      assert_eq expected_contents contents;;
      Return (w, [tablet_set_contents new_contents tablet])
  | _ => Panic
  end.

Definition test_coordinator_end_to_end_success : unit_test :=
  let table_query_1 := coordinator_table_query TABLE_QUERY_1 [KEY_HASH_1; KEY_HASH_2] in
  let tablet_metadata_1_v_1 := tablet_at TABLET_ID_1 TABLET_VERSION_1 in
  let tablet_metadata_1_v_2 := tablet_at TABLET_ID_1 TABLET_VERSION_2 in
  let tablet_data_1_v_1 := b_str TABLET_DATA_VERSION_1 in
  let tablet_data_1_v_2 := b_str TABLET_DATA_VERSION_2 in
  let '(resolve_cells, resolve_1) := create_eventual_result no_cells in
  let metadata_cache :=
    expect_update_tablet tablet_metadata_1_v_2 false
      (expect_resolve_tablets [table_query_1] resolve_1
        {| mmc_calls := mock_new; mmc_cells := resolve_cells |}) in
  let '(load_cells, load_1) := create_eventual_result no_cells in
  let '(store_cells, store_1) := create_eventual_result no_cells in
  let data_cache :=
    expect_store_tablets [(tablet_metadata_1_v_1, tablet_data_1_v_2, tablet_metadata_1_v_2)] store_1
      (expect_load_tablets [tablet_metadata_1_v_1] load_1
        {| mdc_calls := mock_new;
           mdc_cells := {| dc_load_cells := load_cells; dc_store_cells := store_cells |} |}) in
  let '(c, transaction_id_1) := create_transaction (coordinator_create 0) in
  c ← process_transaction c transaction_id_1 [table_query_1]
        (update_contents transaction_id_1 table_query_1 tablet_metadata_1_v_1 tablet_data_1_v_1
           tablet_data_1_v_2);
  pending ← has_transaction_pending_process c transaction_id_1;
  assert pending;;
  let l := {| cl_coordinator := c; cl_metadata_cache := metadata_cache;
              cl_data_cache := data_cache |} in
  '(l, out) ← coordinator_execute_step l None;
  assert_eq out [];;
  l ← set_resolved l resolve_1 [(table_query_1, tablet_metadata_1_v_1)];
  '(l, out) ← coordinator_execute_step l None;
  assert_eq out [];;
  l ← set_loaded l load_1 [(tablet_metadata_1_v_1, tablet_data_1_v_1)];
  '(l, out) ← coordinator_execute_step l None;
  assert_eq out [];;
  l ← set_stored l store_1;
  '(l, out) ← coordinator_execute_step l None;
  assert_eq out [];;
  pending ← has_transaction_pending_process (cl_coordinator l) transaction_id_1;
  assert (negb pending);;
  c ← commit_transaction (cl_coordinator l) transaction_id_1;
  '(c, res) ← check_transaction_result c transaction_id_1;
  assert_eq res None;;
  '(l, out) ← coordinator_execute_step (cl_with l c)
    (Some (CoordinatorOpsResponse CORRELATION_ID_1
       [coordinator_update_result TABLE_NAME TabletOpSucceeded None]));
  assert_eq
    [CoordinatorOpsRequest CORRELATION_ID_1
       [coordinator_update_op TABLE_NAME tablet_metadata_1_v_2]] out;;
  '(c, res) ← check_transaction_result (cl_coordinator l) transaction_id_1;
  assert_eq (Some TransactionSucceeded) res;;
  assert (mock_satisfied (mmc_calls (cl_metadata_cache l)));;
  assert (mock_satisfied (mdc_calls (cl_data_cache l))).
End coordinator_tests.

(** ** The key-value store *)

Section store_tests.
#[local] Abbreviation TABLE_NAME := "map"%string.
#[local] Abbreviation TABLET_TRANSACTION_ID_1 := 1.
#[local] Abbreviation TABLE_QUERY_1 := 1.
#[local] Abbreviation TABLE_QUERY_2 := 2.
#[local] Abbreviation TABLET_ID_1 := 1.
#[local] Abbreviation CORRELATION_ID_1 := 1.
#[local] Abbreviation CORRELATION_ID_2 := 2.
#[local] Abbreviation CORRELATION_ID_3 := 3.
#[local] Abbreviation KEY_1 := "key 1"%string.
#[local] Abbreviation KEY_2 := "key 2"%string.
#[local] Abbreviation KEY_3 := "key 3"%string.
#[local] Abbreviation VALUE_0 := "value 0"%string.
#[local] Abbreviation VALUE_1 := "value 1"%string.
#[local] Abbreviation VALUE_2 := "value 2"%string.

#[local] Instance contents_eq_dec : EqDecision TabletContents.
Proof. solve_decision. Defined.
#[local] Instance contents_countable : Countable TabletContents.
Proof.
  refine (inj_countable' tcn_dictionary (λ d, {| tcn_dictionary := d |}) _). by intros [].
Defined.
#[local] Instance test_contents_codec : ProtoCodec TabletContents := countable_codec _.

(** A hash of keys; the one of the source is a function of a library. *)
Definition test_hash_key (key : string) : Z :=
  foldl (λ h b, (31 * h + Z.of_N (Byte.to_N b)) `mod` two32) 0 (b_str key).

Inductive TransactionCall :=
| CallResolve (queries : list TableQuery)
| CallStartTransaction
| CallProcess (queries : list TableQuery)
| CallHasPendingProcess
| CallCommit
| CallCheckResult.

(** A transaction is its id, and a commit carries nothing. *)
Definition transaction_answer (c : TransactionCall) : Type :=
  match c with
  | CallResolve _ | CallProcess _ | CallCommit => unit
  | CallStartTransaction => Z
  | CallHasPendingProcess => bool
  | CallCheckResult => option TabletTransactionOutcome
  end.

#[local] Abbreviation Cell := (StoreCell Z unit).

(** The mocks of the context, the transaction and the commit in one object, with the handlers
    that the test takes, and whether a transaction is waiting for its processes. *)
Record MockTransactions := {
  mt_calls : Mock transaction_answer;
  mt_resolve_handler : option (ResolveHandler Cell);
  mt_process_handler : option (ProcessHandler Cell bytes);
  mt_waiting : bool
}.

Definition mt_call (m : MockTransactions) (c : TransactionCall)
    : outcome (MockTransactions * transaction_answer c) :=
  '(calls, a) ← mock_call (mt_calls m) c;
  Return ({| mt_calls := calls; mt_resolve_handler := mt_resolve_handler m;
             mt_process_handler := mt_process_handler m; mt_waiting := mt_waiting m |}, a).

Definition mt_set_waiting (m : MockTransactions) (waiting : bool) : MockTransactions :=
  {| mt_calls := mt_calls m; mt_resolve_handler := mt_resolve_handler m;
     mt_process_handler := mt_process_handler m; mt_waiting := waiting |}.

(** [has_pending_process] only reads: its call is counted with the commit that follows it, or
    at the end of a round. *)
#[local] Instance MockTransactions_impl :
    TabletTransactionContext Cell bytes MockTransactions Z unit :=
  {| tci_resolve m w queries handler :=
       '(m, _) ← mt_call m (CallResolve queries);
       Return ({| mt_calls := mt_calls m; mt_resolve_handler := Some handler;
                  mt_process_handler := mt_process_handler m; mt_waiting := mt_waiting m |}, w);
     tci_start_transaction m := mt_call m CallStartTransaction;
     txi_get_id transaction := transaction;
     txi_process m transaction queries handler :=
       '(m, _) ← mt_call m (CallProcess queries);
       Return ({| mt_calls := mt_calls m; mt_resolve_handler := mt_resolve_handler m;
                  mt_process_handler := Some handler; mt_waiting := true |}, transaction);
     txi_has_pending_process m _ := mock_peek (mt_calls m) CallHasPendingProcess;
     txi_commit m _ :=
       '(m, _) ← mt_call m CallHasPendingProcess;
       '(m, _) ← mt_call m CallCommit;
       Return (mt_set_waiting m false, ());
     txi_abort _ _ := Panic;
     txi_check_result m commit :=
       '(m, outcome) ← mt_call m CallCheckResult; Return (m, commit, outcome) |}.

Definition settle_transactions (m : MockTransactions) : outcome MockTransactions :=
  if mt_waiting m then '(m, _) ← mt_call m CallHasPendingProcess; Return m else Return m.

Definition mock_transactions : MockTransactions :=
  {| mt_calls := mock_new; mt_resolve_handler := None; mt_process_handler := None;
     mt_waiting := false |}.

Definition expect_transaction (m : MockTransactions) (times : Times)
    (f : ∀ c : TransactionCall, option (outcome (transaction_answer c))) : MockTransactions :=
  {| mt_calls := mock_expect (mt_calls m) times f; mt_resolve_handler := mt_resolve_handler m;
     mt_process_handler := mt_process_handler m; mt_waiting := mt_waiting m |}.

Definition expect_resolve (queries : list TableQuery) (m : MockTransactions) : MockTransactions :=
  expect_transaction m ReturnOnce (λ c,
    match c as c return option (outcome (transaction_answer c)) with
    | CallResolve q => if decide (q = queries) then Some (Return ()) else None
    | _ => None
    end).

Definition expect_start_transaction (transaction : Z) (m : MockTransactions) : MockTransactions :=
  expect_transaction m ReturnOnce (λ c,
    match c as c return option (outcome (transaction_answer c)) with
    | CallStartTransaction => Some (Return transaction)
    | _ => None
    end).

Definition expect_process (queries : list TableQuery) (m : MockTransactions) : MockTransactions :=
  expect_transaction m ReturnOnce (λ c,
    match c as c return option (outcome (transaction_answer c)) with
    | CallProcess q => if decide (q = queries) then Some (Return ()) else None
    | _ => None
    end).

Definition expect_has_pending_process (has_pending_process : bool) (m : MockTransactions)
    : MockTransactions :=
  expect_transaction m Once (λ c,
    match c as c return option (outcome (transaction_answer c)) with
    | CallHasPendingProcess => Some (Return has_pending_process)
    | _ => None
    end).

Definition expect_commit (m : MockTransactions) : MockTransactions :=
  expect_transaction m ReturnOnce (λ c,
    match c as c return option (outcome (transaction_answer c)) with
    | CallCommit => Some (Return ())
    | _ => None
    end).

Definition expect_check_result (transaction_outcome : option TabletTransactionOutcome)
    (m : MockTransactions) : MockTransactions :=
  expect_transaction m Once (λ c,
    match c as c return option (outcome (transaction_answer c)) with
    | CallCheckResult => Some (Return transaction_outcome)
    | _ => None
    end).

Definition create_store (min_pending_before_resolve min_pending_before_process : Z)
    : outcome Cell :=
  store_init simple_store_create
    {| sc_table_name := TABLE_NAME; sc_min_pending_before_resolve := min_pending_before_resolve;
       sc_min_pending_before_process := min_pending_before_process |}.

Definition create_put_request (key value : string) : PutKeyRequest :=
  {| pkq_key := key; pkq_value := b_str value |}.

Definition create_put_response (existed : bool) : PutKeyResponse := {| pkr_existed := existed |}.

Definition create_get_request (key : string) : GetKeyRequest := {| gkq_key := key |}.

Definition create_get_response (existed : bool) (value : string) : GetKeyResponse :=
  {| gkr_existed := existed; gkr_value := b_str value |}.

Definition store_table_query (query_id : Z) (keys : list string) : TableQuery :=
  table_query_create query_id TABLE_NAME (test_hash_key <$> keys).

Definition create_tablet_descriptor (tablet_id : Z) : TabletDescriptor :=
  {| td_tablet_id := tablet_id; td_cache_ready := false |}.

Definition create_tablet (tablet_id : Z) (tablet_contents : TabletContents) : Tablet bytes :=
  tablet_create_with_contents (tablet_at tablet_id 0) (proto_encode tablet_contents).

Definition create_tablet_contents (key_values : list (string * string)) : TabletContents :=
  {| tcn_dictionary := foldl (λ d '(key, value), <[key := b_str value]> d) ∅ key_values |}.

(** A round of the store, with the responses it leaves. *)
Definition store_round (instant : Z) (s : Cell) (m : MockTransactions)
    : outcome (Cell * MockTransactions * list KeyValueResponse) :=
  '(s, m) ← store_make_progress test_hash_key s instant m;
  m ← settle_transactions m;
  '(s, responses) ← store_take_responses s;
  Return (s, m, responses).

Definition test_store_end_to_end_success : unit_test :=
  let table_query_1 := store_table_query TABLE_QUERY_1 [KEY_1; KEY_2; KEY_3] in
  let table_query_2 := store_table_query TABLE_QUERY_2 [KEY_1; KEY_2; KEY_3] in
  let m :=
    expect_resolve [table_query_1]
      (expect_start_transaction TABLET_TRANSACTION_ID_1
        (expect_commit (expect_has_pending_process false (expect_has_pending_process true
          (expect_process [table_query_2]
            (expect_check_result (Some TransactionSucceeded) mock_transactions)))))) in
  s ← create_store 3 3;
  s ← store_process_request s (PutRequest CORRELATION_ID_1 (create_put_request KEY_1 VALUE_1));
  s ← store_process_request s (PutRequest CORRELATION_ID_2 (create_put_request KEY_2 VALUE_2));
  s ← store_process_request s (GetRequest CORRELATION_ID_3 (create_get_request KEY_3));
  '(s, m, responses) ← store_round 1 s m;
  assert_eq responses [];;
  let tablet_descriptor_1 := create_tablet_descriptor TABLET_ID_1 in
  handler ← unwrap (mt_resolve_handler m);
  s ← handler [(table_query_1, tablet_descriptor_1)] s;
  '(s, m, responses) ← store_round 2 s m;
  assert_eq responses [];;
  let tablet_contents_1 := create_tablet_contents [(KEY_1, VALUE_0)] in
  let tablet_1 := create_tablet TABLET_ID_1 tablet_contents_1 in
  handler ← unwrap (mt_process_handler m);
  '(s, _) ← handler TABLET_TRANSACTION_ID_1 [(table_query_2, tablet_1)] s;
  '(s, m, responses) ← store_round 3 s m;
  assert_eq
    [PutResponse CORRELATION_ID_1 (create_put_response true);
     PutResponse CORRELATION_ID_2 (create_put_response false);
     GetResponse CORRELATION_ID_3 (create_get_response false "")]
    responses;;
  assert (mock_satisfied (mt_calls m)).
End store_tests.

Definition cache_tests : list unit_test :=
  [test_resolve_tablets_success; test_load_tablets_success; test_store_tablets_success;
   test_coordinator_end_to_end_success; test_store_end_to_end_success].

(** Every test of the tablet cache passes on the model. *)
Lemma cache_tests_pass : Forall (λ t, t = Return ()) cache_tests.
Proof. apply tests_pass_spec. vm_compute. reflexivity. Qed.
